(* ===== verification/_CoqProject ===== *)
-Q . S2P
Prelude.v
Machine.v
Str.v
State.v
Riscv.v
Spinlock.v
Kalloc.v
Vm.v
Copy.v
Uvm.v
Freewalk.v
Sched.v
Sleeplock.v
Bytes.v
Bio.v
Cache.v
Log.v
Commit.v
Atomic.v
Op.v
Inode.v
Dir.v
Balloc.v
Content.v
Pipe.v
Console.v
File.v
Proc.v
Fork.v
Wait.v
Exec.v
Syscall.v
Trap.v
Asm.v
Ecall.v
Vectors.v
Grep.v
Ulib.v
Shell.v
Malloc.v
Virtio.v
Path.v
Directory.v
Namei.v
Unix.v
Tools.v
Sh.v
Filters.v
Session.v
Mkfs.v
Grind.v
Forktest.v
