(* ===== verification/Prelude.v ===== *)
(** * A verification library for xv6-riscv

    xv6 is a small Unix kernel for 64-bit RISC-V machines, with user programs.  This
    library translates the C code of the kernel and of the user programs, function by
    function, and proves theorems about the translations.

    ** How the code is modelled

    C integers are [Z] with the wrap-around of their width written out ([u8], [u16],
    [u32], [u64], [i32]).  Physical memory is one map from addresses to bytes
    ([memory] in [Machine]); page tables, the allocator's free list, user memory and
    trap frames live in it.  The other global variables of the kernel are the
    fields of one record, [kstate] ([State]): a struct of the headers is a record
    there, an array is a list, a pointer into an array is an index, a pointer to a
    page is an address.  Each field has a setter made by [make_setter].

    Kernel functions are programs of the monad [M kstate] of this file.  A run ends
    in [Ok] with a result and a state, [Panic], [Blocked] (the thread never runs
    again: an endless loop with nothing left to happen, or a switch away from a
    thread that exits), [Fault] (an access the C code must not make: an index out of
    range, a null pointer) or [NoFuel].  [wp m Q s] says that [m] run from [s] ends
    in [Ok] in a state of [Q]: every theorem about a kernel function is a statement
    of total correctness.  Other threads act where the running thread can lose the
    processor or waits: in [swtch] and in a spinning [acquire].  The class
    [World] gives such a step ([world_step]) and the number of steps after which
    waiting is given up ([world_fuel]).  The theorems hold for every world; their
    hypotheses say that the locks the function takes are free and that it need not
    sleep.  What happens between threads is the subject of step relations:
    [Spinlock.Smp] and [Sched.SleepWakeup], and [Virtio.step] for the disk driver, its
    device and the threads that wait for it.

    Loops over a fixed range are [for_each] over the list of its indices.  Other
    loops take a bound that the loop cannot exceed, read off their data: the length
    of a list, the number of bytes asked for, the number of buffers; where a theorem
    says [Ok], the bound was enough.  [world_fuel] and [uart_patience] bound the
    waiting for other threads and for the UART.

    User programs are trees of system calls ([Unix.prog]): the result of a call
    selects the rest.  They run on a system as the programs see it ([Unix.conf]):
    processes with descriptor tables, pipes of 512 bytes, files, the console.
    [Unix.step] performs one call of one process, so a schedule is a list of process
    indices, with a flag for the calls that fail.  Loops of user programs that read to the
    end of their input take [fuel]; the theorems ask for more fuel than the input has bytes.
    In the other direction, parts of the user code without system calls (the
    parser, the matcher of grep, number conversions, malloc) are plain functions or
    programs of the monad [M].

    The assembly files are lists of instructions ([Asm]), run by an interpreter on a
    machine ([mach]) with 32 registers, the control registers of [State], the memory and
    a privilege mode; every fetch, load and store goes through the page table in [satp].
    [Ecall.enter] and [Ecall.leaving] pass between such a machine and the [kstate] of the
    C code.

    ** What the code relies on

    Hardware, and what the C code needs of the assembly files, are classes, whose
    operations are arguments of the code that uses them: [KernelImage] (addresses the linker defines), [BlockDev] (the disk
    driver's [virtio_disk_rw], and that a completed request transferred one block),
    [Uart] and [Uart16550] (the registers of the serial port, and their documented
    behaviour), [Board] (addresses of the assembly entry points, pending interrupts,
    the timer), [VirtioMmio] (the registers of the disk), [System] (the programs on the disk of
    [Unix], process ids, the answers to calls it does not follow).  The disk itself is
    [Virtio.dev_do], a step of the relation.  [sync_dev], [ideal_uart], [ideal_16550], [ex_image] and [idle_world]
    are instances, on which the witnesses run.

    ** The files

    - [Prelude]: the monad, [wp] and its tactics, setters, ring buffers, lists.
    - [Machine], [Riscv]: constants, memory and its loads and stores, control registers.
    - [Str]: kernel/string.c.
    - [State]: the records of proc.h, file.h, fs.h, buf.h, spinlock.h, sleeplock.h and
      the globals.
    - [Spinlock]: spinlock.c; [Smp] interleaves [acquire] and [release] on several CPUs.
    - [Kalloc]: kalloc.c.  [Vm], [Copy]: vm.c; [Uvm], [Freewalk]: its functions on whole
      address spaces.
    - [Sched]: the scheduler, sleep, wakeup, kill of proc.c; [SleepWakeup] interleaves
      a sleeper with a waker.  [Sleeplock]: sleeplock.c.
    - [Proc]: the rest of proc.c (allocproc, fork, exit, wait, reparent, growproc) and
      the trap frame of proc.h.  [Fork], [Wait]: theorems about [fork] and [wait].
    - [Bytes]: fields of a disk block.  [Bio]: bio.c; [Cache]: the cache as its clients
      see it.
    - [Log]: log.c; [Commit], [Atomic]: its writes, crashes and recovery; [Op]: a
      transaction as the file system sees it.
    - [Inode], [Dir]: fs.c (blocks and inodes; contents, directories, paths);
      [Balloc], [Content], [Path], [Directory], [Namei]: theorems about them.
    - [Pipe], [File]: pipe.c and file.c.  [Exec]: exec.c.
    - [Console]: uart.c, printf.c, console.c and procdump.
    - [Syscall]: syscall.c, sysproc.c, sysfile.c.
    - [Trap]: trap.c, plic.c, start.c, main.c and forkret.
    - [Asm]: swtch.S, trampoline.S, kernelvec.S, entry.S, initcode.S and the stubs of
      usys.pl, and what the trampoline does; [Ecall]: the trampoline with trap.c;
      [Vectors]: the other routines.
    - [Virtio]: virtio_disk.c and virtio.h, and the steps of the device.
    - [Grep], [Ulib], [Shell], [Malloc]: user/grep.c, user/ulib.c and user/printf.c, the
      parser of user/sh.c, user/umalloc.c.
    - [Unix]: system calls, processes and schedules.  [Tools]: cat, echo, wc, ls, find,
      kill, ln, mkdir, rm, sleep, zombie, init, pingpong, primes, xargs, main of grep.
      [Sh]: the part of user/sh.c that runs commands.  [Filters]: what cat, wc and grep
      print.  [Session]: runs of the programs.
    - [Mkfs]: mkfs/mkfs.c.
    - [Grind]: the random numbers of user/grind.c.  [Forktest]: user/forktest.c and
      user/stressfs.c.

    ** What the theorems show

    - Storage: a crash after any write of [commit] leaves a disk that recovery
      turns into the old or the new contents of all blocks ([Atomic.commit_atomic]),
      and recovery may itself be restarted ([recover_restart]); recovery unpins
      buffers that nobody pinned ([recover_leaks]).  [bread] returns the block's
      contents, [bget] recycles the least recently used buffer, [brelse] keeps the
      order of use.  [balloc] takes the least free block and zeroes it, [bfree] undoes
      it; an inode written by [iupdate] is the one [ilock] reads; [readi] after
      [writei] gives back the bytes, from and to kernel or mapped user memory
      ([writei_readi], for a range whose blocks are allocated); from unmapped memory
      [writei] writes nothing and claims success ([writei_fault]).  A directory is a map
      from names to inodes, into which [dirlink] inserts, taking a direct block
      when the directory has to grow, or panics on a full disk ([dirlink_dirlookup]); [namex] resolves a path through the
      directories on disk and leaks no reference ([namex_resolves]).  The image that mkfs makes has, read with the
      kernel's functions, exactly the files it was given, in disjoint blocks
      that are the ones marked in the bitmap ([mkfs_image]).
    - Memory: the allocator hands out each free page once and refuses bad addresses;
      [mappages] changes exactly the translations asked for, or panics on a page that
      is mapped; copies between user and kernel memory move the bytes the page table
      says, stop at the first unmapped page, and compose to the identity.  [uvmcopy]
      gives the child a copy of the parent's pages in pages of its own, or undoes what it
      did ([uvmcopy_spec]); [uvmalloc] and [uvmdealloc] are inverse; [uvmfree] frees the
      user pages and the table pages, each once.
    - Concurrency: spin locks exclude each other on any number of CPUs, each load and
      store of [acquire], [holding] and [release] being a step of its own; a wakeup is
      not lost between the check of a condition and the sleep.
    - Pipes and console refine abstract objects: a pipe is a bounded queue of bytes
      with two ends ([fifo_step]), the console a line editor.  [pipealloc] makes a pipe
      or leaves everything as it was.
    - The disk: for any number of waiting threads and any order of interrupts, a
      finished request has moved its block and no other, and requests handed
      to the device can always complete ([virtio_rw_correct],
      [virtio_requests_complete]).
    - Processes: [fork] makes a child with the parent's memory, registers, files,
      directory and name ([fork_spec]); [wait] delivers the status of the first child
      that has exited and gives back everything the child had ([wait_reaps]).  [wakeup],
      [kill] and [reparent] change the entries they should and no others; trap frame
      slots are independent.
    - Traps and assembly: a call of [getpid] goes from its stub through the hardware,
      the trampoline, [usertrap] and back, and changes no register but [a0] and [a7]
      and no memory but the trap frame ([getpid_call]).  A thread that calls [swtch]
      comes back with its registers ([swtch_roundtrip]), an interrupted kernel thread goes
      on as if nothing had happened ([kernelvec_transparent]), the timer ticks at its
      interval ([timer_ticks]), each hart boots on its own stack, and the bytes of
      [initcode] do what initcode.S says.
    - User programs: grep's matcher agrees with a relational semantics of its patterns,
      and its buffered loop with the lines of the input; the shell parser always
      ends, and parses the printed form of a command back to the command; [atoi]
      reads back what [printint] prints.  [malloc] returns memory that is in no other
      block, [free] gives it back with its neighbours joined; a size near 2^32
      defeats [malloc] ([malloc_wraps]).
    - Running commands: for every line that parses, every interleaving of its processes
      and every failing call, if the programs on the disk make boundedly many calls and
      start no others, [runcmd] ends after a bounded number of calls and starts
      only the programs of the command, with the descriptors it says and no others
      ([runcmd_wires]).  [cat], [wc] and [grep] run from their start to their exit and
      print the contents, the counts, the matching lines of their files.  [forktest]
      never finds [wait] wrong, for any schedule and any failing [fork].  [do_rand] is
      the generator its comment describes.  The runs
      of [Session] (primes, pingpong, ls, find, a shell session) are evaluated for
      one schedule only; [xargs_stale] is a run that shows a bug.

    ** Not modelled

    - kernel/ramdisk.c, which is not built and does not fit the headers: it uses fields
      and flags of [struct buf] that no header defines.
    - The translation lookaside buffer: [sfence.vma] has no effect in [Asm].
    - In [Unix]: links, directories and the working directory.  The calls that concern
      them are recorded and answered by the class [System]; the files are a map from
      paths to contents.
    - user/usertests.c, and the loop of random system calls of grind.c: tests of the
      running kernel, through raw memory, [sbrk] and exit statuses.
    - Weak memory: the fences of the code are no-ops here, and [Smp] is sequentially
      consistent. *)

From stdpp Require Import gmap strings list fin_maps.
From Stdlib Require Import ZArith Lia.

Open Scope Z_scope.

(** ** Automation *)

Create HintDb kern.

(** Case analysis on the boolean comparisons of the code. *)
Ltac bool_cases :=
  repeat match goal with
  | |- context [Z.eqb ?a ?b] => destruct (Z.eqb_spec a b)
  | |- context [Z.ltb ?a ?b] => destruct (Z.ltb_spec a b)
  | |- context [Z.leb ?a ?b] => destruct (Z.leb_spec a b)
  end.

Ltac bool_hyps :=
  repeat match goal with
  | H : context [Z.eqb ?a ?b] |- _ => destruct (Z.eqb_spec a b)
  | H : context [Z.ltb ?a ?b] |- _ => destruct (Z.ltb_spec a b)
  | H : context [Z.leb ?a ?b] |- _ => destruct (Z.leb_spec a b)
  end.

(** Linear arithmetic with division and modulo by constants. *)
Ltac zdm := Z.div_mod_to_equations; lia.

(** ** Record update

    [Eta R] gives the eta-expansion of a record; [make_setter p] builds from it
    the function that replaces the field [p]. *)

Class Eta (R : Type) := eta_of : R -> R.

Ltac make_setter p :=
  lazymatch type of p with
  | ?R -> ?T =>
    let inst := constr:(_ : Eta R) in
    let body := eval red in inst in
    let body := eval pattern p in body in
    lazymatch body with
    | ?g _ => let t := eval cbv beta in (fun (v : T) (x : R) => g (fun _ => v) x) in exact t
    end
  end.

(** [fields]: what depends on other fields of an updated record is what it is of
    the old record, a projection of the updated field is the new value, and the
    last of two updates of a field wins.  Each rewriting rule is checked on
    variables, so that the values in the record are never unfolded. *)
Ltac is_record s := let R := type of s in let _ := constr:(_ : Eta R) in idtac.

Ltac field_rule p f v s k :=
  is_const f; is_record s;
  let H := fresh "Hfield" in
  first [ assert (H : forall x y, p (f x y) = p y) by (intros; reflexivity)
        | assert (H : forall x y, p (f x y) = x) by (intros; reflexivity) ];
  k constr:(H v s); clear H.

Ltac fields :=
  repeat match goal with
  | |- context [?p (?f ?v ?s)] => field_rule p f v s ltac:(fun r => rewrite r)
  end.

Ltac fields_in H :=
  repeat match type of H with
  | context [?p (?f ?v ?s)] => field_rule p f v s ltac:(fun r => rewrite r in H)
  end.

(** ** Machine integers

    A C integer of width [w] is a [Z]; the functions below are the conversions
    the C abstract machine applies on assignment. *)

Definition u8 (x : Z) : Z := x mod 2 ^ 8.
Definition u16 (x : Z) : Z := x mod 2 ^ 16.
Definition u32 (x : Z) : Z := x mod 2 ^ 32.
Definition u64 (x : Z) : Z := x mod 2 ^ 64.
Definition i16 (x : Z) : Z := (x + 2 ^ 15) mod 2 ^ 16 - 2 ^ 15.
Definition i32 (x : Z) : Z := (x + 2 ^ 31) mod 2 ^ 32 - 2 ^ 31.
Definition i64 (x : Z) : Z := (x + 2 ^ 63) mod 2 ^ 64 - 2 ^ 63.

Lemma u8_range x : 0 <= u8 x < 256.
Proof. unfold u8. apply Z.mod_pos_bound. lia. Qed.
Lemma u32_range x : 0 <= u32 x < 2 ^ 32.
Proof. unfold u32. apply Z.mod_pos_bound. lia. Qed.
Lemma u64_range x : 0 <= u64 x < 2 ^ 64.
Proof. unfold u64. apply Z.mod_pos_bound. lia. Qed.
Lemma i32_range x : - 2 ^ 31 <= i32 x < 2 ^ 31.
Proof. unfold i32. pose proof (Z.mod_pos_bound (x + 2 ^ 31) (2 ^ 32)). lia. Qed.

Lemma u8_id x : 0 <= x < 256 -> u8 x = x.
Proof. intros. unfold u8. apply Z.mod_small. lia. Qed.
Lemma u32_id x : 0 <= x < 2 ^ 32 -> u32 x = x.
Proof. intros. unfold u32. apply Z.mod_small. lia. Qed.
Lemma u64_id x : 0 <= x < 2 ^ 64 -> u64 x = x.
Proof. intros. unfold u64. apply Z.mod_small. lia. Qed.
Lemma i32_id x : - 2 ^ 31 <= x < 2 ^ 31 -> i32 x = x.
Proof. intros. unfold i32. rewrite Z.mod_small; lia. Qed.
Lemma i16_id x : - 2 ^ 15 <= x < 2 ^ 15 -> i16 x = x.
Proof. intros. unfold i16. rewrite Z.mod_small; lia. Qed.

Lemma Z_land_le a b : 0 <= a -> 0 <= Z.land a b <= a.
Proof.
  intros Ha. apply Z.ldiff_le; [done|]. apply Z.bits_inj'. intros n Hn.
  rewrite Z.ldiff_spec, Z.land_spec, Z.bits_0.
  destruct (Z.testbit a n), (Z.testbit b n); done.
Qed.

Lemma Z_lor_lt a b n : 0 <= n -> 0 <= a < 2 ^ n -> 0 <= b < 2 ^ n -> 0 <= Z.lor a b < 2 ^ n.
Proof.
  intros Hn Ha Hb. split; [apply Z.lor_nonneg; lia|].
  destruct (decide (a = 0)) as [->|]; [rewrite Z.lor_0_l; lia|].
  destruct (decide (b = 0)) as [->|]; [rewrite Z.lor_0_r; lia|].
  apply Z.log2_lt_pow2; [|rewrite Z.log2_lor by lia; apply Z.max_lub_lt; apply Z.log2_lt_pow2; lia].
  assert (0 <= Z.lor a b) by (apply Z.lor_nonneg; lia).
  assert (Z.lor a b <> 0) by (rewrite Z.lor_eq_0_iff; lia). lia.
Qed.

(** ** Little-endian byte sequences *)

Definition is_byte (b : Z) : Prop := 0 <= b < 256.

Fixpoint le_decode (l : list Z) : Z :=
  match l with
  | [] => 0
  | b :: l => b + 256 * le_decode l
  end.

Fixpoint le_encode (n : nat) (v : Z) : list Z :=
  match n with
  | O => []
  | S n => v mod 256 :: le_encode n (v / 256)
  end.

Lemma length_le_encode n v : length (le_encode n v) = n.
Proof. revert v; induction n; intros; simpl; auto. Qed.

Lemma le_encode_bytes n v : Forall is_byte (le_encode n v).
Proof.
  revert v; induction n; intros; simpl; constructor; auto.
  unfold is_byte. apply Z.mod_pos_bound. lia.
Qed.

Lemma le_decode_encode n v : le_decode (le_encode n v) = v mod 256 ^ Z.of_nat n.
Proof.
  revert v; induction n; intros v; cbn [le_encode le_decode].
  - rewrite Z.mod_1_r. done.
  - rewrite IHn, Nat2Z.inj_succ, Z.pow_succ_r by lia.
    rewrite Z.rem_mul_r by lia. done.
Qed.

Lemma le_encode_decode l :
  Forall is_byte l -> le_encode (length l) (le_decode l) = l.
Proof.
  induction 1 as [|b l Hb _ IH]; cbn [le_encode le_decode length]; [done|].
  unfold is_byte in Hb. f_equal.
  - rewrite (Z.mul_comm 256), Z.mod_add by lia. apply Z.mod_small. lia.
  - rewrite (Z.mul_comm 256), Z.div_add by lia.
    rewrite Z.div_small by lia. rewrite Z.add_0_l. apply IH.
Qed.

Lemma le_decode_bound l :
  Forall is_byte l -> 0 <= le_decode l < 256 ^ Z.of_nat (length l).
Proof.
  induction 1 as [|b l Hb _ IH]; cbn [le_decode length]; [lia|].
  unfold is_byte in Hb. rewrite Nat2Z.inj_succ, Z.pow_succ_r by lia. nia.
Qed.

(** ** Integer sequences used by the [for] loops of the code *)

Lemma seqZ_cons_lt a n : 0 < n -> seqZ a n = a :: seqZ (a + 1) (n - 1).
Proof. intros. by rewrite seqZ_cons. Qed.

Lemma seqZ_at a n k : 0 <= k < n -> seqZ a n = seqZ a k ++ (a + k) :: seqZ (a + k + 1) (n - k - 1).
Proof.
  intros Hk. replace n with (k + (n - k)) at 1 by lia. rewrite seqZ_app by lia. f_equal.
  rewrite seqZ_cons_lt by lia. done.
Qed.

(** The least number that satisfies a decidable property. *)
Lemma least_Z (P : Z -> bool) b : 0 <= b -> P b = true ->
  exists a, 0 <= a <= b /\ P a = true /\ forall c, 0 <= c < a -> P c = false.
Proof.
  intros Hb HP. destruct (list_find (fun x => P x = true) (seqZ 0 (b + 1))) as [[i a]|] eqn:Hf.
  - apply list_find_Some in Hf as (Hi & Ha & Hmin). apply lookup_seqZ in Hi as [-> Hi].
    exists (0 + Z.of_nat i). split; [lia|]. split; [done|]. intros c Hc. apply not_true_is_false.
    apply (Hmin (Z.to_nat c) c); [|lia]. apply lookup_seqZ. lia.
  - apply list_find_None in Hf. rewrite Forall_forall in Hf. exfalso. apply (Hf b); [|done].
    apply elem_of_seqZ. lia.
Qed.

(** ** Ring buffers

    [n] elements of the ring [d] of [size] elements, from index [start] on. *)

Definition ring (d : list Z) (size start n : Z) : list Z :=
  (fun k => d !!! Z.to_nat ((start + k) mod size)) <$> seqZ 0 n.

Lemma length_ring d size start n : length (ring d size start n) = Z.to_nat n.
Proof. unfold ring. by rewrite length_fmap, length_seqZ. Qed.

Lemma ring_snoc d size start n : 0 <= n ->
  ring d size start (n + 1) = ring d size start n ++ [d !!! Z.to_nat ((start + n) mod size)].
Proof. intros Hn. unfold ring. by rewrite seqZ_app, fmap_app by lia. Qed.

Lemma ring_app d size start n k : 0 <= n -> 0 <= k ->
  ring d size start (n + k) = ring d size start n ++ ring d size (start + n) k.
Proof.
  intros Hn Hk. unfold ring. rewrite seqZ_app, fmap_app by lia. f_equal.
  apply list_eq. intros i. rewrite !list_lookup_fmap. destruct (decide (Z.of_nat i < k)).
  - rewrite !lookup_seqZ_lt by lia. simpl. do 4 f_equal. lia.
  - by rewrite !lookup_seqZ_ge by lia.
Qed.

Lemma ring_cons d size start n : 0 < n ->
  ring d size start n = d !!! Z.to_nat (start mod size) :: ring d size (start + 1) (n - 1).
Proof.
  intros Hn. replace n with (1 + (n - 1)) at 1 by lia. rewrite ring_app by lia.
  unfold ring at 1. cbn [seqZ fmap list_fmap]. simpl. by rewrite Z.add_0_r.
Qed.

(** A slot that is not among the elements. *)
Lemma ring_insert d size start n i x : 0 < size -> (forall k, 0 <= k < n -> (start + k) mod size <> i) -> 0 <= i ->
  ring (<[Z.to_nat i := x]> d) size start n = ring d size start n.
Proof.
  intros Hs Hk Hi. unfold ring. apply list_fmap_ext. intros j k Hin.
  apply list_elem_of_lookup_2, elem_of_seqZ in Hin. rewrite list_lookup_total_insert_ne; [done|].
  specialize (Hk k ltac:(lia)). pose proof (Z.mod_pos_bound (start + k) size Hs). lia.
Qed.

(** The index may wrap at 32 bits when the size divides [2^32]. *)
Lemma ring_u32 d size start n : 0 < size -> (size | 2 ^ 32) -> ring d size (u32 start) n = ring d size start n.
Proof.
  intros Hs Hd. unfold ring. apply list_fmap_ext. intros j k _. do 2 f_equal. unfold u32.
  rewrite Z.add_mod, Z.mod_mod_divide, <- Z.add_mod by (done || lia). done.
Qed.

(** ** A table of which the first [k] entries have been processed *)

Definition map_upto {A} (k : nat) (f : A -> A) (l : list A) : list A := (f <$> take k l) ++ drop k l.

Lemma map_upto_lookup {A} k (f : A -> A) l : map_upto k f l !! k = l !! k.
Proof.
  unfold map_upto. destruct (decide (k < length l)%nat) as [Hk|Hk].
  - rewrite lookup_app_r; rewrite length_fmap, length_take_le by lia; [|lia].
    rewrite lookup_drop. f_equal. lia.
  - rewrite drop_ge, app_nil_r by lia. rewrite !lookup_ge_None_2; [done|lia|].
    rewrite length_fmap, length_take. lia.
Qed.

Lemma map_upto_step {A} k (f : A -> A) l x : l !! k = Some x -> <[k := f x]> (map_upto k f l) = map_upto (S k) f l.
Proof.
  intros Hx. pose proof (lookup_lt_Some _ _ _ Hx). unfold map_upto.
  rewrite (drop_S _ _ _ Hx), (take_S_r _ _ _ Hx), fmap_app, <- app_assoc. cbn [fmap list_fmap app].
  rewrite insert_app_r_alt by (rewrite length_fmap, length_take_le; lia).
  rewrite length_fmap, length_take_le, Nat.sub_diag by lia. done.
Qed.

Lemma length_map_upto {A} k (f : A -> A) l : length (map_upto k f l) = length l.
Proof. unfold map_upto. rewrite length_app, length_fmap, length_take, length_drop. lia. Qed.

Lemma map_upto_all {A} (f : A -> A) l : map_upto (length l) f l = f <$> l.
Proof. unfold map_upto. by rewrite firstn_all, drop_all, app_nil_r. Qed.

(** ** Altering an entry that is known *)

Lemma list_alter_insert {A} (f : A -> A) (l : list A) i x :
  l !! i = Some x -> alter f i l = <[i := f x]> l.
Proof.
  intros Hx. apply list_eq. intros j. destruct (decide (i = j)) as [<-|Hne].
  - rewrite list_lookup_alter_eq, list_lookup_insert_eq by (by eapply lookup_lt_Some).
    by rewrite Hx.
  - by rewrite list_lookup_alter_ne, list_lookup_insert_ne.
Qed.

Lemma map_alter_insert `{Countable Key} {A} (f : A -> A) (m : gmap Key A) i x :
  m !! i = Some x -> alter f i m = <[i := f x]> m.
Proof.
  intros Hx. apply map_eq. intros j. destruct (decide (i = j)) as [<-|Hne].
  - by rewrite lookup_alter_eq, lookup_insert_eq, Hx.
  - by rewrite lookup_alter_ne, lookup_insert_ne.
Qed.

Lemma list_insert_back {A} (l : list A) i x y :
  l !! i = Some x -> <[i := x]> (<[i := y]> l) = l.
Proof. intros Hx. rewrite list_insert_insert_eq. by apply list_insert_id. Qed.

Lemma map_insert_back `{Countable Key} {A} (m : gmap Key A) i x y :
  m !! i = Some x -> <[i := x]> (<[i := y]> m) = m.
Proof. intros Hx. rewrite insert_insert_eq. by apply insert_id. Qed.

(** ** The error and state monad

    A run of kernel code ends in a result, in [panic], with the thread waiting
    for something that never comes, in undefined behaviour (a null or dangling
    pointer), or (only for loops whose bound is not structural) by running out
    of the iterations the model allows. *)

Inductive outcome (S A : Type) : Type :=
| Ok (a : A) (s : S)
| Panic (msg : string) (s : S)
| Blocked (s : S)
| Fault (msg : string) (s : S)
| NoFuel (s : S).
Arguments Ok {S A} a s.
Arguments Panic {S A} msg s.
Arguments Blocked {S A} s.
Arguments Fault {S A} msg s.
Arguments NoFuel {S A} s.

Definition M (S A : Type) : Type := S -> outcome S A.

Definition ret {S A} (a : A) : M S A := fun s => Ok a s.

Definition bind {S A B} (m : M S A) (f : A -> M S B) : M S B := fun s =>
  match m s with
  | Ok a s' => f a s'
  | Panic msg s' => Panic msg s'
  | Blocked s' => Blocked s'
  | Fault msg s' => Fault msg s'
  | NoFuel s' => NoFuel s'
  end.

Definition gets {S A} (f : S -> A) : M S A := fun s => Ok (f s) s.
Definition modify {S} (f : S -> S) : M S unit := fun s => Ok tt (f s).
Definition panic {S A} (msg : string) : M S A := fun s => Panic msg s.
Definition fault {S A} (msg : string) : M S A := fun s => Fault msg s.
Definition when {S} (b : bool) (m : M S unit) : M S unit := if b then m else ret tt.

(** Dereferencing a pointer or indexing an array: out of range is undefined. *)
Definition deref {S A} (o : option A) : M S A :=
  match o with
  | Some a => ret a
  | None => fault "dereference"
  end.

Declare Scope kern_scope.
Delimit Scope kern_scope with kern.
Notation "'let*' x ':=' m 'in' k" := (bind m (fun x => k))
  (at level 10, x pattern, m at level 200, k at level 200,
   format "'[v' 'let*'  x  ':='  m  'in' '/' k ']'") : kern_scope.
Notation "m ';;;' k" := (bind m (fun _ => k))
  (at level 100, k at level 200, right associativity,
   format "'[v' m  ';;;' '/' k ']'") : kern_scope.
Open Scope kern_scope.

(** What runs while this thread waits: the rest of the system as a function of
    the state ([None]: the thread is never resumed), and the number of
    iterations a waiting loop is followed for. *)
Class World (S : Type) := {
  world_step : S -> option S;
  world_fuel : nat
}.

Definition wait_world {S} `{World S} : M S unit := fun s =>
  match world_step s with
  | Some s' => Ok tt s'
  | None => Blocked s
  end.

(** A [for] loop over a list of indices; the body returns [Some r] to leave the
    loop early with [r]. *)
Fixpoint for_each {S X R} (l : list X) (body : X -> M S (option R)) : M S (option R) :=
  match l with
  | [] => ret None
  | x :: l =>
    let* r := body x in
    match r with
    | None => for_each l body
    | Some r => ret (Some r)
    end
  end.

(** A [for] loop without early exit. *)
Fixpoint for_all {S X} (l : list X) (body : X -> M S unit) : M S unit :=
  match l with
  | [] => ret tt
  | x :: l => body x ;;; for_all l body
  end.

(** A [while] loop with local variables [st]: [inl] continues, [inr] leaves. *)
Fixpoint iter {S St R} (fuel : nat) (body : St -> M S (St + R)) (st : St) : M S R :=
  match fuel with
  | O => fun s => NoFuel s
  | Datatypes.S fuel =>
    let* x := body st in
    match x with
    | inl st' => iter fuel body st'
    | inr r => ret r
    end
  end.

(** ** Total correctness: [wp m Q s] says that [m] run from [s] returns a value
    and a state that satisfy [Q]. *)

Definition wp {S A} (m : M S A) (Q : A -> S -> Prop) (s : S) : Prop :=
  match m s with
  | Ok a s' => Q a s'
  | _ => False
  end.

Lemma wp_ok {S A} (m : M S A) Q s : wp m Q s <-> exists a s', m s = Ok a s' /\ Q a s'.
Proof.
  unfold wp. split.
  - destruct (m s); try done. eauto.
  - intros (a & s' & -> & ?). done.
Qed.

Lemma wp_run {S A} (m : M S A) (Q : A -> S -> Prop) s :
  wp m Q s -> exists a s', m s = Ok a s' /\ Q a s'.
Proof. apply wp_ok. Qed.

Lemma wp_run_unit {S} (m : M S unit) (P : S -> Prop) s :
  wp m (fun _ => P) s -> exists s', m s = Ok tt s' /\ P s'.
Proof. intros ([] & s' & ? & ?)%wp_ok. eauto. Qed.

Lemma wp_intro {S A} (m : M S A) (Q : A -> S -> Prop) s a s' :
  m s = Ok a s' -> Q a s' -> wp m Q s.
Proof. unfold wp. intros ->. done. Qed.

Lemma wp_bind {S A B} (m : M S A) (f : A -> M S B) Q s :
  wp m (fun a s' => wp (f a) Q s') s -> wp (bind m f) Q s.
Proof. unfold wp, bind. destruct (m s); done. Qed.

Lemma wp_ret {S A} (a : A) (Q : A -> S -> Prop) s : Q a s -> wp (ret a) Q s.
Proof. done. Qed.
Lemma wp_gets {S A} (f : S -> A) (Q : A -> S -> Prop) s : Q (f s) s -> wp (gets f) Q s.
Proof. done. Qed.
Lemma wp_modify {S} (f : S -> S) (Q : unit -> S -> Prop) s : Q tt (f s) -> wp (modify f) Q s.
Proof. done. Qed.
Lemma wp_deref {S A} (o : option A) (Q : A -> S -> Prop) s a :
  o = Some a -> Q a s -> wp (deref o) Q s.
Proof. intros ->. done. Qed.

Lemma wp_mono {S A} (m : M S A) (Q Q' : A -> S -> Prop) s :
  wp m Q s -> (forall a s', Q a s' -> Q' a s') -> wp m Q' s.
Proof. unfold wp. destruct (m s); eauto. Qed.

Lemma wp_conj {S A} (m : M S A) (Q Q' : A -> S -> Prop) s :
  wp m Q s -> wp m Q' s -> wp m (fun a s' => Q a s' /\ Q' a s') s.
Proof. unfold wp. destruct (m s); eauto. Qed.

Lemma bind_ok {S A B} (m : M S A) (f : A -> M S B) s a s' :
  m s = Ok a s' -> bind m f s = f a s'.
Proof. unfold bind. intros ->. done. Qed.

Lemma bind_panic {S A B} (m : M S A) (f : A -> M S B) s msg s' :
  m s = Panic msg s' -> bind m f s = Panic msg s'.
Proof. unfold bind. intros ->. done. Qed.

Lemma bind_assoc {S A B C} (m : M S A) (f : A -> M S B) (g : B -> M S C) s :
  bind (bind m f) g s = bind m (fun a => bind (f a) g) s.
Proof. unfold bind. destruct (m s); done. Qed.

Lemma bind_inv {S A B} (m : M S A) (f : A -> M S B) s b s'' :
  bind m f s = Ok b s'' -> exists a s', m s = Ok a s' /\ f a s' = Ok b s''.
Proof. unfold bind. destruct (m s); try done. eauto. Qed.

Lemma wp_when {S} (b : bool) (m : M S unit) (Q : unit -> S -> Prop) s :
  (b = true -> wp m Q s) -> (b = false -> Q tt s) -> wp (when b m) Q s.
Proof. intros Ht Hf. destruct b; [by apply Ht|by apply wp_ret, Hf]. Qed.

(** One step of symbolic execution: evaluate the primitive command at the head. *)
Ltac wstep :=
  lazymatch goal with
  | |- wp (bind _ _) _ _ => apply wp_bind; cbv beta
  | |- wp (ret _) _ _ => apply wp_ret; cbv beta
  | |- wp (gets _) _ _ => apply wp_gets; cbv beta
  | |- wp (modify _) _ _ => apply wp_modify; cbv beta
  | |- wp (deref (Some _)) _ _ => eapply wp_deref; [reflexivity|cbv beta]
  | |- wp (deref _) _ _ => eapply wp_deref; [eassumption|cbv beta]
  | |- wp (for_each [] _) _ _ => apply wp_ret; cbv beta
  | |- wp (for_all [] _) _ _ => apply wp_ret; cbv beta
  end.
Ltac wsteps := repeat wstep.

Lemma wp_for_all {S X} (l : list X) (body : X -> M S unit)
    (I : list X -> S -> Prop) s :
  I l s ->
  (forall x l' s', I (x :: l') s' -> wp (body x) (fun _ s'' => I l' s'') s') ->
  wp (for_all l body) (fun _ s' => I [] s') s.
Proof.
  intros HI Hb. revert s HI. induction l as [|x l IH]; intros s HI; cbn [for_all].
  - by apply wp_ret.
  - apply wp_bind. eapply wp_mono; [by apply Hb|]. simpl. intros _ s' H'. by apply IH.
Qed.

Lemma wp_for_each {S X R} (l : list X) (body : X -> M S (option R))
    (I : list X -> S -> Prop) (Q : option R -> S -> Prop) s :
  I l s ->
  (forall x l' s', I (x :: l') s' ->
     wp (body x) (fun r s'' => match r with None => I l' s'' | Some r => Q (Some r) s'' end) s') ->
  (forall s', I [] s' -> Q None s') ->
  wp (for_each l body) Q s.
Proof.
  intros HI Hb HQ. revert s HI. induction l as [|x l IH]; intros s HI; cbn [for_each].
  - by apply wp_ret, HQ.
  - apply wp_bind. eapply wp_mono; [by apply Hb|]. intros [r|] s' H'; simpl.
    + by apply wp_ret.
    + by apply IH.
Qed.

(** A search loop: the body passes over the elements of [l1] and leaves at [x]. *)
Lemma wp_for_each_find {S X R} (l1 : list X) x l2 (body : X -> M S (option R))
    (I : S -> Prop) (Q : option R -> S -> Prop) s :
  I s ->
  (forall y s', y ∈ l1 -> I s' -> wp (body y) (fun r s'' => r = None /\ I s'') s') ->
  (forall s', I s' -> wp (body x) (fun r s'' => is_Some r /\ Q r s'') s') ->
  wp (for_each (l1 ++ x :: l2) body) Q s.
Proof.
  intros HI Hb Hx. revert s HI. induction l1 as [|y l1 IH]; intros s HI; cbn [for_each app]; apply wp_bind.
  - eapply wp_mono; [by apply Hx|]. intros r s' [[r' ->] HQ]. by apply wp_ret.
  - eapply wp_mono; [apply Hb; [by left|done]|]. intros r s' [-> HI']. apply IH; [|done].
    intros z s'' Hz. apply Hb. by right.
Qed.

Lemma wp_for_each_none {S X R} (l : list X) (body : X -> M S (option R))
    (I : S -> Prop) (Q : option R -> S -> Prop) s :
  I s ->
  (forall y s', y ∈ l -> I s' -> wp (body y) (fun r s'' => r = None /\ I s'') s') ->
  (forall s', I s' -> Q None s') ->
  wp (for_each l body) Q s.
Proof.
  intros HI Hb HQ. revert s HI. induction l as [|y l IH]; intros s HI; cbn [for_each].
  - by apply wp_ret, HQ.
  - apply wp_bind. eapply wp_mono; [apply Hb; [by left|done]|]. intros r s' [-> HI']. apply IH; [|done].
    intros z s'' Hz. apply Hb. by right.
Qed.

(** The iteration rule: a measure bounded by the fuel decreases. *)
Lemma wp_iter {S St R} (body : St -> M S (St + R)) (I : St -> S -> Prop)
    (Q : R -> S -> Prop) (measure : St -> S -> nat) fuel st s :
  I st s -> (measure st s < fuel)%nat ->
  (forall st s, I st s ->
     wp (body st) (fun x s' =>
       match x with
       | inl st' => I st' s' /\ (measure st' s' < measure st s)%nat
       | inr r => Q r s'
       end) s) ->
  wp (iter fuel body st) Q s.
Proof.
  intros HI Hm Hb. revert st s HI Hm. induction fuel as [|fuel IH]; intros st s HI Hm; [lia|].
  cbn [iter]. apply wp_bind. eapply wp_mono; [by apply Hb|].
  intros [st'|r] s' H'; simpl.
  - destruct H' as [HI' Hm']. apply IH; [done|lia].
  - by apply wp_ret.
Qed.
