(* ===== verification/Machine.v ===== *)
(** * The machine: constants of the headers, and byte-addressed memory

    The constants and macros of [kernel/riscv.h], [kernel/memlayout.h],
    [kernel/param.h], [kernel/fcntl.h] and [kernel/stat.h], and the memory the
    kernel addresses: bytes keyed by kernel virtual address, with little-endian
    loads and stores.  RAM is direct-mapped, so a physical page is the bytes at
    its physical address; kernel stacks are the bytes at [KSTACK(p)]. *)

From stdpp Require Import gmap strings list fin_maps.
From Stdlib Require Import ZArith Lia.
From S2P Require Import Prelude.
Open Scope Z_scope.

(** ** Paging constants and macros *)

(* @kernel/riscv.h PGSIZE *)
Definition PGSIZE : Z := 4096.
(* @kernel/riscv.h PGSHIFT *)
Definition PGSHIFT : Z := 12.
(* @kernel/riscv.h PGROUNDUP *)
Definition PGROUNDUP (sz : Z) : Z := Z.land (u64 (sz + PGSIZE - 1)) (u64 (Z.lnot (PGSIZE - 1))).
(* @kernel/riscv.h PGROUNDDOWN *)
Definition PGROUNDDOWN (a : Z) : Z := Z.land a (u64 (Z.lnot (PGSIZE - 1))).
(* @kernel/riscv.h PTE_V *)
Definition PTE_V : Z := Z.shiftl 1 0.
(* @kernel/riscv.h PTE_R *)
Definition PTE_R : Z := Z.shiftl 1 1.
(* @kernel/riscv.h PTE_W *)
Definition PTE_W : Z := Z.shiftl 1 2.
(* @kernel/riscv.h PTE_X *)
Definition PTE_X : Z := Z.shiftl 1 3.
(* @kernel/riscv.h PTE_U *)
Definition PTE_U : Z := Z.shiftl 1 4.
(* @kernel/riscv.h PA2PTE *)
Definition PA2PTE (pa : Z) : Z := u64 (Z.shiftl (Z.shiftr pa 12) 10).
(* @kernel/riscv.h PTE2PA *)
Definition PTE2PA (pte : Z) : Z := u64 (Z.shiftl (Z.shiftr pte 10) 12).
(* @kernel/riscv.h PTE_FLAGS *)
Definition PTE_FLAGS (pte : Z) : Z := Z.land pte 0x3FF.
(* @kernel/riscv.h PXMASK *)
Definition PXMASK : Z := 0x1FF.
(* @kernel/riscv.h PXSHIFT *)
Definition PXSHIFT (level : Z) : Z := PGSHIFT + 9 * level.
(* @kernel/riscv.h PX *)
Definition PX (level va : Z) : Z := Z.land (Z.shiftr va (PXSHIFT level)) PXMASK.
(* @kernel/riscv.h MAXVA *)
Definition MAXVA : Z := Z.shiftl 1 (9 + 9 + 9 + 12 - 1).
(* @kernel/riscv.h SATP_SV39 *)
Definition SATP_SV39 : Z := Z.shiftl 8 60.
(* @kernel/riscv.h MAKE_SATP *)
Definition MAKE_SATP (pagetable : Z) : Z := Z.lor SATP_SV39 (Z.shiftr pagetable 12).

(** ** Physical memory layout *)

(* @kernel/memlayout.h UART0 *)
Definition UART0 : Z := 0x10000000.
(* @kernel/memlayout.h UART0_IRQ *)
Definition UART0_IRQ : Z := 10.
(* @kernel/memlayout.h VIRTIO0 *)
Definition VIRTIO0 : Z := 0x10001000.
(* @kernel/memlayout.h VIRTIO0_IRQ *)
Definition VIRTIO0_IRQ : Z := 1.
(* @kernel/memlayout.h CLINT *)
Definition CLINT : Z := 0x2000000.
(* @kernel/memlayout.h PLIC *)
Definition PLIC : Z := 0x0c000000.
(* @kernel/memlayout.h KERNBASE *)
Definition KERNBASE : Z := 0x80000000.
(* @kernel/memlayout.h PHYSTOP *)
Definition PHYSTOP : Z := KERNBASE + 128 * 1024 * 1024.
(* @kernel/memlayout.h TRAMPOLINE *)
Definition TRAMPOLINE : Z := MAXVA - PGSIZE.
(* @kernel/memlayout.h KSTACK *)
Definition KSTACK (p : Z) : Z := TRAMPOLINE - (p + 1) * 2 * PGSIZE.
(* @kernel/memlayout.h TRAPFRAME *)
Definition TRAPFRAME : Z := TRAMPOLINE - PGSIZE.

(** ** Parameters *)

(* @kernel/param.h NPROC *)
Definition NPROC : Z := 64.
(* @kernel/param.h NCPU *)
Definition NCPU : Z := 8.
(* @kernel/param.h NOFILE *)
Definition NOFILE : Z := 16.
(* @kernel/param.h NFILE *)
Definition NFILE : Z := 100.
(* @kernel/param.h NINODE *)
Definition NINODE : Z := 50.
(* @kernel/param.h NDEV *)
Definition NDEV : Z := 10.
(* @kernel/param.h ROOTDEV *)
Definition ROOTDEV : Z := 1.
(* @kernel/param.h MAXARG *)
Definition MAXARG : Z := 32.
(* @kernel/param.h MAXOPBLOCKS *)
Definition MAXOPBLOCKS : Z := 10.
(* @kernel/param.h LOGSIZE *)
Definition LOGSIZE : Z := MAXOPBLOCKS * 3.
(* @kernel/param.h NBUF *)
Definition NBUF : Z := MAXOPBLOCKS * 3.
(* @kernel/param.h FSSIZE *)
Definition FSSIZE : Z := 1000.
(* @kernel/param.h MAXPATH *)
Definition MAXPATH : Z := 128.

(** Unfold the constants before linear arithmetic. *)
Ltac consts :=
  unfold TRAPFRAME, KSTACK, TRAMPOLINE, PHYSTOP, KERNBASE, LOGSIZE, NBUF,
    MAXOPBLOCKS, PGSIZE, PGSHIFT, NPROC, NCPU, NOFILE, NFILE, NINODE, NDEV,
    ROOTDEV, MAXARG, FSSIZE, MAXPATH in *;
  try change MAXVA with (2 ^ 38) in *.
Ltac clia := consts; lia.

(** Masking with [~(PGSIZE-1)] rounds down to a page. *)
Lemma Z_land_page x : 0 <= x < 2 ^ 64 ->
  Z.land x (u64 (Z.lnot (PGSIZE - 1))) = x / PGSIZE * PGSIZE.
Proof.
  intros Hx. change (u64 (Z.lnot (PGSIZE - 1))) with (Z.shiftl (Z.ones 52) 12).
  change PGSIZE with (2 ^ 12). rewrite <- Z.shiftl_mul_pow2, <- Z.shiftr_div_pow2 by lia.
  apply Z.bits_inj'. intros n Hn. rewrite Z.land_spec.
  destruct (decide (n < 12)).
  - rewrite !Z.shiftl_spec_low, andb_false_r by lia. done.
  - rewrite !Z.shiftl_spec by lia. rewrite Z.shiftr_spec by lia.
    rewrite Z.testbit_ones_nonneg by lia. replace (n - 12 + 12) with n by lia.
    destruct (Z.ltb_spec (n - 12) 52); [by rewrite andb_true_r|]. rewrite andb_false_r.
    symmetry. destruct (decide (x = 0)) as [->|]; [apply Z.bits_0|].
    apply Z.bits_above_log2; [lia|].
    assert (Z.log2 x < 64) by (apply Z.log2_lt_pow2; lia). lia.
Qed.

Lemma PGROUNDDOWN_spec a : 0 <= a < 2 ^ 64 -> PGROUNDDOWN a = a / PGSIZE * PGSIZE.
Proof. apply Z_land_page. Qed.

(** ** Memory *)

Abbreviation memory := (gmap Z Z).

Definition ld8 (m : memory) (a : Z) : Z := default 0 (m !! a).
Definition st8 (m : memory) (a v : Z) : memory := <[a := v]> m.

Fixpoint ldbytes (m : memory) (a : Z) (n : nat) : list Z :=
  match n with
  | O => []
  | S n => ld8 m a :: ldbytes m (a + 1) n
  end.

Fixpoint stbytes (m : memory) (a : Z) (l : list Z) : memory :=
  match l with
  | [] => m
  | b :: l => stbytes (st8 m a b) (a + 1) l
  end.

Definition ld16 (m : memory) (a : Z) : Z := le_decode (ldbytes m a 2).
Definition ld32 (m : memory) (a : Z) : Z := le_decode (ldbytes m a 4).
Definition ld64 (m : memory) (a : Z) : Z := le_decode (ldbytes m a 8).
Definition st16 (m : memory) (a v : Z) : memory := stbytes m a (le_encode 2 v).
Definition st32 (m : memory) (a v : Z) : memory := stbytes m a (le_encode 4 v).
Definition st64 (m : memory) (a v : Z) : memory := stbytes m a (le_encode 8 v).

(** Every cell holds a byte. *)
Definition mem_bytes (m : memory) : Prop := forall a, is_byte (ld8 m a).

Lemma ld8_st8 m a v x : ld8 (st8 m a v) x = if a =? x then v else ld8 m x.
Proof.
  unfold ld8, st8. destruct (Z.eqb_spec a x) as [->|].
  - by rewrite lookup_insert_eq.
  - by rewrite lookup_insert_ne.
Qed.

Lemma st8_bytes m a v : mem_bytes m -> is_byte v -> mem_bytes (st8 m a v).
Proof. intros Hm Hv x. rewrite ld8_st8. destruct (a =? x); auto. Qed.

Lemma length_ldbytes m a n : length (ldbytes m a n) = n.
Proof. revert a; induction n; intros; simpl; auto. Qed.

Lemma ldbytes_lookup m a n i :
  (i < n)%nat -> ldbytes m a n !! i = Some (ld8 m (a + Z.of_nat i)).
Proof.
  revert a i; induction n; intros a i Hi; [lia|]. destruct i; cbn [ldbytes lookup list_lookup].
  - by rewrite Z.add_0_r.
  - setoid_rewrite IHn; [|lia]. do 2 f_equal. lia.
Qed.

Lemma ldbytes_bytes m a n : mem_bytes m -> Forall is_byte (ldbytes m a n).
Proof. intros Hm. revert a; induction n; intros; simpl; constructor; auto. Qed.

Lemma ldbytes_ext m m' a a' n :
  (forall i, 0 <= i < Z.of_nat n -> ld8 m (a + i) = ld8 m' (a' + i)) ->
  ldbytes m a n = ldbytes m' a' n.
Proof.
  revert a a'; induction n; intros a a' H; cbn [ldbytes]; [done|]. f_equal.
  - specialize (H 0). rewrite !Z.add_0_r in H. apply H. lia.
  - apply IHn. intros i Hi. rewrite <- !Z.add_assoc. apply H. lia.
Qed.

Lemma ldbytes_app m a n k : ldbytes m a (n + k) = ldbytes m a n ++ ldbytes m (a + Z.of_nat n) k.
Proof.
  revert a; induction n; intros a; cbn [ldbytes app Nat.add].
  - by rewrite Z.add_0_r.
  - f_equal. rewrite IHn. do 2 f_equal. lia.
Qed.

Lemma ld8_stbytes m a l x :
  ld8 (stbytes m a l) x =
  if (a <=? x) && (x <? a + Z.of_nat (length l)) then l !!! Z.to_nat (x - a) else ld8 m x.
Proof.
  revert m a; induction l as [|b l IH]; intros m a; cbn [stbytes length].
  - destruct (Z.leb_spec a x), (Z.ltb_spec x (a + Z.of_nat 0)); simpl; try done; lia.
  - rewrite IH, ld8_st8.
    destruct (Z.leb_spec (a + 1) x), (Z.ltb_spec x (a + 1 + Z.of_nat (length l))),
      (Z.leb_spec a x), (Z.ltb_spec x (a + Z.of_nat (S (length l)))), (Z.eqb_spec a x);
      simpl; try lia; try done.
    + replace (Z.to_nat (x - a)) with (S (Z.to_nat (x - (a + 1)))) by lia. done.
    + subst. replace (Z.to_nat (x - x)) with 0%nat by lia. done.
Qed.

Lemma ld8_stbytes_out m a l x :
  x < a \/ a + Z.of_nat (length l) <= x -> ld8 (stbytes m a l) x = ld8 m x.
Proof.
  intros. rewrite ld8_stbytes.
  destruct (Z.leb_spec a x), (Z.ltb_spec x (a + Z.of_nat (length l))); simpl; try done; lia.
Qed.

Lemma ld8_stbytes_in m a l x b :
  a <= x -> l !! Z.to_nat (x - a) = Some b -> ld8 (stbytes m a l) x = b.
Proof.
  intros Hx Hl. pose proof (lookup_lt_Some _ _ _ Hl). rewrite ld8_stbytes.
  destruct (Z.leb_spec a x), (Z.ltb_spec x (a + Z.of_nat (length l))); simpl; try lia.
  by apply list_lookup_total_correct.
Qed.

Lemma stbytes_bytes m a l : mem_bytes m -> Forall is_byte l -> mem_bytes (stbytes m a l).
Proof. revert m a; induction l; intros m a' Hm Hl; simpl; [done|]. inversion Hl; subst. eauto using st8_bytes. Qed.

Lemma ldbytes_stbytes_same m a l : ldbytes (stbytes m a l) a (length l) = l.
Proof.
  apply list_eq. intros i. destruct (decide (i < length l)%nat) as [Hi|Hi].
  - rewrite ldbytes_lookup by done. destruct (lookup_lt_is_Some_2 l i Hi) as [b Hb].
    rewrite Hb. f_equal. apply ld8_stbytes_in; [lia|].
    by replace (Z.to_nat (a + Z.of_nat i - a)) with i by lia.
  - rewrite !lookup_ge_None_2; [done|lia|rewrite length_ldbytes; lia].
Qed.

Lemma ldbytes_stbytes_out m a l x n :
  x + Z.of_nat n <= a \/ a + Z.of_nat (length l) <= x ->
  ldbytes (stbytes m a l) x n = ldbytes m x n.
Proof. intros. apply ldbytes_ext. intros. apply ld8_stbytes_out. lia. Qed.

Lemma ld64_st64_same m a v : 0 <= v < 2 ^ 64 -> ld64 (st64 m a v) a = v.
Proof.
  intros Hv. unfold ld64, st64.
  pose proof (ldbytes_stbytes_same m a (le_encode 8 v)) as H.
  rewrite length_le_encode in H. rewrite H, le_decode_encode.
  change (256 ^ Z.of_nat 8) with (2 ^ 64). by apply Z.mod_small.
Qed.

Lemma ld64_st64_out m a v x : x + 8 <= a \/ a + 8 <= x -> ld64 (st64 m a v) x = ld64 m x.
Proof.
  intros. unfold ld64, st64. f_equal. apply ldbytes_stbytes_out.
  rewrite length_le_encode. lia.
Qed.

Lemma ld8_st64_out m a v x : x < a \/ a + 8 <= x -> ld8 (st64 m a v) x = ld8 m x.
Proof. intros. apply ld8_stbytes_out. rewrite length_le_encode. lia. Qed.

Lemma st64_bytes m a v : mem_bytes m -> mem_bytes (st64 m a v).
Proof. intros. apply stbytes_bytes; [done|]. apply le_encode_bytes. Qed.

Lemma ld64_range m a : mem_bytes m -> 0 <= ld64 m a < 2 ^ 64.
Proof.
  intros Hm. pose proof (le_decode_bound (ldbytes m a 8) (ldbytes_bytes m a 8 Hm)) as H.
  rewrite length_ldbytes in H. apply H.
Qed.

Lemma ld64_ext m m' a a' :
  (forall i, 0 <= i < 8 -> ld8 m (a + i) = ld8 m' (a' + i)) -> ld64 m a = ld64 m' a'.
Proof. intros. unfold ld64. f_equal. by apply ldbytes_ext. Qed.
