(* ===== verification/Str.v ===== *)
(** * kernel/string.c

    The memory and string routines, as functions on memory.  A [uint] length
    argument is converted to 32 bits; the two copying loops of [memmove] are the
    loops of the source, so that the overlap test is part of the model.
    [strn m a n] is the abstract reading: the bytes of the C string at [a], cut
    at the first NUL or after [n] bytes. *)

From stdpp Require Import gmap strings list fin_maps.
From Stdlib Require Import ZArith Lia.
From S2P Require Import Prelude Machine.
Open Scope Z_scope.

(* @kernel/string.c memset *)
Definition memset (m : memory) (dst c n : Z) : memory :=
  fold_left (fun m i => st8 m (dst + i) (u8 c)) (seqZ 0 (u32 n)) m.

Fixpoint memcmp_loop (m : memory) (s1 s2 : Z) (n : nat) : Z :=
  match n with
  | O => 0
  | S n =>
    if negb (ld8 m s1 =? ld8 m s2) then ld8 m s1 - ld8 m s2
    else memcmp_loop m (s1 + 1) (s2 + 1) n
  end.

(* @kernel/string.c memcmp *)
Definition memcmp (m : memory) (v1 v2 n : Z) : Z := memcmp_loop m v1 v2 (Z.to_nat (u32 n)).

(** [while(n-- > 0) *--d = *--s] *)
Fixpoint copy_down (m : memory) (d s : Z) (n : nat) : memory :=
  match n with
  | O => m
  | S n => copy_down (st8 m (d - 1) (ld8 m (s - 1))) (d - 1) (s - 1) n
  end.

(** [while(n-- > 0) *d++ = *s++] *)
Fixpoint copy_up (m : memory) (d s : Z) (n : nat) : memory :=
  match n with
  | O => m
  | S n => copy_up (st8 m d (ld8 m s)) (d + 1) (s + 1) n
  end.

(* @kernel/string.c memmove *)
Definition memmove (m : memory) (dst src n : Z) : memory :=
  let n := u32 n in
  if (src <? dst) && (dst <? src + n)
  then copy_down m (dst + n) (src + n) (Z.to_nat n)
  else copy_up m dst src (Z.to_nat n).

(* @kernel/string.c memcpy *)
Definition memcpy (m : memory) (dst src n : Z) : memory := memmove m dst src n.

Fixpoint strncmp_loop (m : memory) (p q : Z) (n : nat) : Z :=
  match n with
  | O => 0
  | S n' =>
    if negb (ld8 m p =? 0) && (ld8 m p =? ld8 m q)
    then strncmp_loop m (p + 1) (q + 1) n'
    else u8 (ld8 m p) - u8 (ld8 m q)
  end.

(* @kernel/string.c strncmp *)
Definition strncmp (m : memory) (p q n : Z) : Z := strncmp_loop m p q (Z.to_nat (u32 n)).

(** [while(n-- > 0) *s++ = 0] *)
Fixpoint zero_up (m : memory) (s : Z) (n : nat) : memory :=
  match n with
  | O => m
  | S n => zero_up (st8 m s 0) (s + 1) n
  end.

(** [while(n-- > 0 && ( *s++ = *t++) != 0)], then the padding loop on the
    iterations that are left. *)
Fixpoint strncpy_loop (m : memory) (s t : Z) (n : nat) : memory :=
  match n with
  | O => m
  | S n =>
    let c := ld8 m t in
    let m := st8 m s c in
    if negb (c =? 0) then strncpy_loop m (s + 1) (t + 1) n else zero_up m (s + 1) n
  end.

(* @kernel/string.c strncpy *)
Definition strncpy (m : memory) (s t n : Z) : memory := strncpy_loop m s t (Z.to_nat n).

(** [while(--n > 0 && ( *s++ = *t++) != 0)] for [n] remaining iterations, and the
    final [*s = 0]. *)
Fixpoint safestrcpy_loop (m : memory) (s t : Z) (n : nat) : memory :=
  match n with
  | O => st8 m s 0
  | S n =>
    let c := ld8 m t in
    let m := st8 m s c in
    if negb (c =? 0) then safestrcpy_loop m (s + 1) (t + 1) n else st8 m (s + 1) 0
  end.

(* @kernel/string.c safestrcpy *)
Definition safestrcpy (m : memory) (s t n : Z) : memory :=
  if n <=? 0 then m else safestrcpy_loop m s t (Z.to_nat (n - 1)).

(** [strlen] scans until a NUL; [fuel] bounds the scan. *)
Fixpoint strlen_loop (m : memory) (s n : Z) (fuel : nat) : option Z :=
  match fuel with
  | O => None
  | S fuel => if negb (ld8 m (s + n) =? 0) then strlen_loop m s (n + 1) fuel else Some n
  end.

(* @kernel/string.c strlen *)
Definition strlen (fuel : nat) (m : memory) (s : Z) : option Z := strlen_loop m s 0 fuel.

(** ** Abstract C strings *)

Fixpoint strn (m : memory) (a : Z) (n : nat) : list Z :=
  match n with
  | O => []
  | S n => if ld8 m a =? 0 then [] else ld8 m a :: strn m (a + 1) n
  end.

Lemma strn_length m a n : (length (strn m a n) <= n)%nat.
Proof.
  revert a; induction n; intros a; cbn [strn]; [done|].
  destruct (ld8 m a =? 0); simpl; [lia|]. specialize (IHn (a + 1)). lia.
Qed.

Lemma strn_ext m m' a a' n :
  (forall i, 0 <= i < Z.of_nat n -> ld8 m (a + i) = ld8 m' (a' + i)) ->
  strn m a n = strn m' a' n.
Proof.
  revert a a'; induction n; intros a a' H; cbn [strn]; [done|].
  pose proof (H 0) as H0. rewrite !Z.add_0_r in H0. rewrite H0 by lia.
  destruct (ld8 m' a' =? 0); [done|]. f_equal. apply IHn.
  intros i Hi. rewrite <- !Z.add_assoc. apply H. lia.
Qed.

(** ** Fills and copies *)

Lemma ld8_fold_st8 m dst c l x :
  ld8 (fold_left (fun m i => st8 m (dst + i) c) l m) x =
  if bool_decide (x - dst ∈ l) then c else ld8 m x.
Proof.
  revert m; induction l as [|i l IH]; intros m; cbn [fold_left]; [done|].
  rewrite IH, ld8_st8. destruct (Z.eqb_spec (dst + i) x) as [Hi|Hi].
  - rewrite (bool_decide_eq_true_2 (x - dst ∈ i :: l)) by (apply elem_of_cons; left; lia).
    by case_bool_decide.
  - destruct (decide (x - dst ∈ l)).
    + rewrite !bool_decide_eq_true_2; [done|by apply elem_of_cons; right|done].
    + rewrite !bool_decide_eq_false_2; [done| |done].
      rewrite elem_of_cons. intros [?|?]; [lia|done].
Qed.

Lemma ld8_memset m dst c n x :
  0 <= n < 2 ^ 32 ->
  ld8 (memset m dst c n) x = if (dst <=? x) && (x <? dst + n) then u8 c else ld8 m x.
Proof.
  intros Hn. unfold memset. rewrite u32_id by lia. rewrite ld8_fold_st8.
  destruct (decide (x - dst ∈ seqZ 0 n)) as [H|H].
  - rewrite bool_decide_eq_true_2 by done. apply elem_of_seqZ in H.
    destruct (Z.leb_spec dst x), (Z.ltb_spec x (dst + n)); simpl; (lia || done).
  - rewrite bool_decide_eq_false_2 by done. rewrite elem_of_seqZ in H.
    destruct (Z.leb_spec dst x), (Z.ltb_spec x (dst + n)); simpl; (lia || done).
Qed.

Lemma memset_bytes m dst c n : 0 <= n < 2 ^ 32 -> mem_bytes m -> mem_bytes (memset m dst c n).
Proof.
  intros Hn Hm x. rewrite ld8_memset by done.
  destruct ((dst <=? x) && (x <? dst + n)); [apply u8_range|apply Hm].
Qed.

Lemma ld8_copy_up m d s n x :
  (s < d -> s + Z.of_nat n <= d) ->
  ld8 (copy_up m d s n) x =
  if (d <=? x) && (x <? d + Z.of_nat n) then ld8 m (s + (x - d)) else ld8 m x.
Proof.
  revert m d s; induction n as [|n IH]; intros m d s H; cbn [copy_up].
  - destruct (Z.leb_spec d x), (Z.ltb_spec x (d + Z.of_nat 0)); simpl; (lia || done).
  - rewrite IH by lia. rewrite !ld8_st8.
    destruct (Z.leb_spec (d + 1) x), (Z.ltb_spec x (d + 1 + Z.of_nat n)),
      (Z.leb_spec d x), (Z.ltb_spec x (d + Z.of_nat (S n))),
      (Z.eqb_spec d x), (Z.eqb_spec d (s + 1 + (x - (d + 1))));
      cbn [andb]; try lia; try done; try (f_equal; lia); subst; f_equal; lia.
Qed.

Lemma ld8_copy_down m d s n x :
  s < d ->
  ld8 (copy_down m d s n) x =
  if (d - Z.of_nat n <=? x) && (x <? d) then ld8 m (s + (x - d)) else ld8 m x.
Proof.
  revert m d s; induction n as [|n IH]; intros m d s H; cbn [copy_down].
  - destruct (Z.leb_spec (d - Z.of_nat 0) x), (Z.ltb_spec x d); simpl; (lia || done).
  - rewrite IH by lia. rewrite !ld8_st8.
    destruct (Z.leb_spec (d - 1 - Z.of_nat n) x), (Z.ltb_spec x (d - 1)),
      (Z.leb_spec (d - Z.of_nat (S n)) x), (Z.ltb_spec x d),
      (Z.eqb_spec (d - 1) x), (Z.eqb_spec (d - 1) (s - 1 + (x - (d - 1))));
      cbn [andb]; try lia; try done; try (f_equal; lia).
Qed.

Lemma ld8_memmove m dst src n x :
  0 <= n < 2 ^ 32 ->
  ld8 (memmove m dst src n) x =
  if (dst <=? x) && (x <? dst + n) then ld8 m (src + (x - dst)) else ld8 m x.
Proof.
  intros Hn. unfold memmove. rewrite u32_id by lia.
  destruct (Z.ltb_spec src dst), (Z.ltb_spec dst (src + n)); cbn [andb];
    rewrite ?ld8_copy_down, ?ld8_copy_up by lia;
    rewrite ?Z2Nat.id by lia; rewrite ?Z.add_simpl_r;
    destruct (dst <=? x), (x <? dst + n); cbn [andb]; try done; f_equal; lia.
Qed.

Lemma memmove_bytes m dst src n : 0 <= n < 2 ^ 32 -> mem_bytes m -> mem_bytes (memmove m dst src n).
Proof.
  intros Hn Hm x. rewrite ld8_memmove by done.
  destruct ((dst <=? x) && (x <? dst + n)); apply Hm.
Qed.

(** ** Comparison *)

Lemma strncmp_loop_zero m p q n :
  mem_bytes m -> strncmp_loop m p q n = 0 <-> strn m p n = strn m q n.
Proof.
  intros Hm. revert p q; induction n as [|n IH]; intros p q; cbn [strncmp_loop strn]; [done|].
  pose proof (Hm p) as Hp. pose proof (Hm q) as Hq. unfold is_byte in *.
  rewrite !u8_id by done.
  destruct (Z.eqb_spec (ld8 m p) 0) as [E|E], (Z.eqb_spec (ld8 m q) 0) as [F|F];
    cbn [negb andb].
  - split; [done|lia].
  - split; [lia|done].
  - destruct (Z.eqb_spec (ld8 m p) (ld8 m q)); [lia|]. split; [lia|done].
  - destruct (Z.eqb_spec (ld8 m p) (ld8 m q)) as [G|G].
    + rewrite IH, G. split; [by intros ->|congruence].
    + split; [lia|congruence].
Qed.

(** ** String copies *)

Lemma ld8_zero_up m s n x :
  ld8 (zero_up m s n) x = if (s <=? x) && (x <? s + Z.of_nat n) then 0 else ld8 m x.
Proof.
  revert m s; induction n as [|n IH]; intros m s; cbn [zero_up].
  - destruct (Z.leb_spec s x), (Z.ltb_spec x (s + Z.of_nat 0)); simpl; (lia || done).
  - rewrite IH, ld8_st8.
    destruct (Z.leb_spec (s + 1) x), (Z.ltb_spec x (s + 1 + Z.of_nat n)),
      (Z.leb_spec s x), (Z.ltb_spec x (s + Z.of_nat (S n))), (Z.eqb_spec s x);
      cbn [andb]; (lia || done).
Qed.

Lemma ldbytes_zero_up m s n : ldbytes (zero_up m s n) s n = replicate n 0.
Proof.
  apply list_eq. intros i. destruct (decide (i < n)%nat).
  - rewrite ldbytes_lookup, lookup_replicate_2 by lia. f_equal. rewrite ld8_zero_up.
    destruct (Z.leb_spec s (s + Z.of_nat i)), (Z.ltb_spec (s + Z.of_nat i) (s + Z.of_nat n));
      simpl; (lia || done).
  - rewrite !lookup_ge_None_2; [done|rewrite length_replicate; lia|rewrite length_ldbytes; lia].
Qed.

Lemma strncpy_loop_frame m s t n x :
  x < s \/ s + Z.of_nat n <= x -> ld8 (strncpy_loop m s t n) x = ld8 m x.
Proof.
  revert m s t; induction n as [|n IH]; intros m s t Hx; cbn [strncpy_loop]; [done|].
  destruct (negb (ld8 m t =? 0)).
  - rewrite IH, ld8_st8 by lia. destruct (Z.eqb_spec s x); [lia|done].
  - rewrite ld8_zero_up, ld8_st8.
    destruct (Z.leb_spec (s + 1) x), (Z.ltb_spec x (s + 1 + Z.of_nat n)), (Z.eqb_spec s x);
      cbn [andb]; (lia || done).
Qed.

Lemma strncpy_loop_bytes m s t n :
  s + Z.of_nat n <= t \/ t + Z.of_nat n <= s ->
  ldbytes (strncpy_loop m s t n) s n = strn m t n ++ replicate (n - length (strn m t n)) 0.
Proof.
  revert m s t; induction n as [|n IH]; intros m s t H; cbn [strncpy_loop strn]; [done|].
  destruct (Z.eqb_spec (ld8 m t) 0) as [E|E]; cbn [negb].
  - cbn [ldbytes length app replicate Nat.sub].
    rewrite ldbytes_zero_up, ld8_zero_up, ld8_st8, Z.eqb_refl.
    destruct (Z.leb_spec (s + 1) s); [lia|]. cbn [andb]. by rewrite E.
  - cbn [ldbytes length app Nat.sub]. f_equal.
    + rewrite strncpy_loop_frame, ld8_st8, Z.eqb_refl by lia. done.
    + rewrite IH by lia.
      rewrite (strn_ext (st8 m s (ld8 m t)) m (t + 1) (t + 1) n); [done|].
      intros i Hi. rewrite ld8_st8. destruct (Z.eqb_spec s (t + 1 + i)); [lia|done].
Qed.

Lemma safestrcpy_loop_frame m s t n x :
  x < s \/ s + Z.of_nat n < x -> ld8 (safestrcpy_loop m s t n) x = ld8 m x.
Proof.
  revert m s t; induction n as [|n IH]; intros m s t Hx; cbn [safestrcpy_loop].
  - rewrite ld8_st8. destruct (Z.eqb_spec s x); [lia|done].
  - destruct (negb (ld8 m t =? 0)).
    + rewrite IH, ld8_st8 by lia. destruct (Z.eqb_spec s x); [lia|done].
    + rewrite !ld8_st8. destruct (Z.eqb_spec (s + 1) x), (Z.eqb_spec s x); (lia || done).
Qed.

Lemma safestrcpy_loop_strn m s t n :
  s + Z.of_nat n < t \/ t + Z.of_nat n <= s ->
  strn (safestrcpy_loop m s t n) s (S n) = strn m t n.
Proof.
  revert m s t; induction n as [|n IH]; intros m s t H; cbn [safestrcpy_loop].
  - cbn [strn]. by rewrite ld8_st8, Z.eqb_refl.
  - destruct (Z.eqb_spec (ld8 m t) 0) as [E|E]; cbn [negb].
    + cbn [strn]. rewrite !ld8_st8, Z.eqb_refl, E.
      destruct (Z.eqb_spec (s + 1) s); [lia|]. done.
    + cbn [strn]. cbn [strn] in IH.
      rewrite safestrcpy_loop_frame, ld8_st8, Z.eqb_refl by lia.
      destruct (Z.eqb_spec (ld8 m t) 0); [done|]. f_equal. rewrite IH by lia.
      apply strn_ext. intros i Hi. rewrite ld8_st8.
      destruct (Z.eqb_spec s (t + 1 + i)); [lia|done].
Qed.

Lemma strlen_loop_spec m s n k fuel :
  0 <= k -> (Z.to_nat k < fuel)%nat -> ld8 m (s + n + k) = 0 ->
  (forall i, 0 <= i < k -> ld8 m (s + n + i) <> 0) ->
  strlen_loop m s n fuel = Some (n + k).
Proof.
  revert n k; induction fuel as [|fuel IH]; intros n k Hk Hf Hz Hnz; [lia|].
  cbn [strlen_loop]. destruct (decide (k = 0)) as [->|].
  - rewrite Z.add_0_r in *. by rewrite Hz.
  - pose proof (Hnz 0) as H0. rewrite Z.add_0_r in H0.
    destruct (Z.eqb_spec (ld8 m (s + n)) 0); [lia|]. cbn [negb].
    rewrite (IH (n + 1) (k - 1)); [f_equal; lia|lia|lia| |].
    + rewrite <- Hz. f_equal. lia.
    + intros i Hi. replace (s + (n + 1) + i) with (s + n + (i + 1)) by lia. apply Hnz. lia.
Qed.

(** ** Properties *)

(** [memmove] copies correctly for every overlap of source and destination:
    afterwards the destination holds the bytes the source held before, and no
    byte outside the destination changes. *)
Theorem memmove_correct (m : memory) (dst src n : Z) :
  0 <= n < 2 ^ 32 ->
  ldbytes (memmove m dst src n) dst (Z.to_nat n) = ldbytes m src (Z.to_nat n) /\
  forall x, x < dst \/ dst + n <= x -> ld8 (memmove m dst src n) x = ld8 m x.
Proof.
  intros Hn. split.
  - apply ldbytes_ext. intros i Hi. rewrite ld8_memmove by done.
    destruct (Z.leb_spec dst (dst + i)), (Z.ltb_spec (dst + i) (dst + n)); cbn [andb]; try lia.
    f_equal. lia.
  - intros x Hx. rewrite ld8_memmove by done.
    destruct (Z.leb_spec dst x), (Z.ltb_spec x (dst + n)); cbn [andb]; (lia || done).
Qed.

Definition ex_mem : memory := stbytes ∅ 100 [1; 2; 3; 4; 5; 0].

Lemma memmove_correct_witness :
  ldbytes (memmove ex_mem 102 100 4) 102 4 = [1; 2; 3; 4] /\
  (forall x, x < 102 \/ 102 + 4 <= x -> ld8 (memmove ex_mem 102 100 4) x = ld8 ex_mem x).
Proof. apply (memmove_correct ex_mem 102 100 4). lia. Defined.

(** [strncmp] returns zero exactly when the two C strings agree up to the
    first NUL or the first [n] bytes. *)
Theorem strncmp_zero_iff (m : memory) (p q n : Z) :
  mem_bytes m -> 0 <= n < 2 ^ 32 ->
  strncmp m p q n = 0 <-> strn m p (Z.to_nat n) = strn m q (Z.to_nat n).
Proof. intros Hm Hn. unfold strncmp. rewrite u32_id by done. by apply strncmp_loop_zero. Qed.

Lemma ex_mem_bytes : mem_bytes ex_mem.
Proof.
  apply stbytes_bytes; [intros x; vm_compute; split; congruence|].
  repeat constructor; vm_compute; congruence.
Qed.

Lemma strncmp_zero_iff_witness :
  strncmp ex_mem 105 200 14 = 0 <-> strn ex_mem 105 14 = strn ex_mem 200 14.
Proof. apply (strncmp_zero_iff ex_mem 105 200 14); [exact ex_mem_bytes|lia]. Defined.

(** [safestrcpy] always leaves a NUL-terminated string in the [n]-byte
    destination, the longest prefix of the source that fits, and writes nothing
    outside the destination. *)
Theorem safestrcpy_terminated (m : memory) (s t n : Z) :
  0 < n -> s + n <= t \/ t + n <= s + 1 ->
  strn (safestrcpy m s t n) s (Z.to_nat n) = strn m t (Z.to_nat (n - 1)) /\
  (length (strn (safestrcpy m s t n) s (Z.to_nat n)) < Z.to_nat n)%nat /\
  (forall x, x < s \/ s + n <= x -> ld8 (safestrcpy m s t n) x = ld8 m x).
Proof.
  intros Hn Hd. unfold safestrcpy. destruct (Z.leb_spec n 0); [lia|].
  assert (E : strn (safestrcpy_loop m s t (Z.to_nat (n - 1))) s (Z.to_nat n) =
              strn m t (Z.to_nat (n - 1))).
  { replace (Z.to_nat n) with (S (Z.to_nat (n - 1))) by lia.
    apply safestrcpy_loop_strn. lia. }
  split; [done|]. split.
  - rewrite E. pose proof (strn_length m t (Z.to_nat (n - 1))). lia.
  - intros x Hx. apply safestrcpy_loop_frame. lia.
Qed.

Lemma safestrcpy_terminated_witness :
  strn (safestrcpy ex_mem 200 100 4) 200 4 = strn ex_mem 100 3 /\
  (length (strn (safestrcpy ex_mem 200 100 4) 200 4) < 4)%nat /\
  (forall x, x < 200 \/ 200 + 4 <= x -> ld8 (safestrcpy ex_mem 200 100 4) x = ld8 ex_mem x).
Proof. apply (safestrcpy_terminated ex_mem 200 100 4); lia. Defined.

(** [strncpy] writes exactly [n] bytes: the source string cut at [n], padded
    with NULs (so a directory entry name has no stale tail). *)
Theorem strncpy_pads (m : memory) (s t n : Z) :
  0 <= n -> s + n <= t \/ t + n <= s ->
  ldbytes (strncpy m s t n) s (Z.to_nat n) =
    strn m t (Z.to_nat n) ++ replicate (Z.to_nat n - length (strn m t (Z.to_nat n))) 0 /\
  (forall x, x < s \/ s + n <= x -> ld8 (strncpy m s t n) x = ld8 m x).
Proof.
  intros Hn Hd. split.
  - apply strncpy_loop_bytes. lia.
  - intros x Hx. apply strncpy_loop_frame. lia.
Qed.

Lemma strncpy_pads_witness :
  ldbytes (strncpy ex_mem 300 102 6) 300 6 = [3; 4; 5; 0; 0; 0] /\
  (forall x, x < 300 \/ 300 + 6 <= x -> ld8 (strncpy ex_mem 300 102 6) x = ld8 ex_mem x).
Proof. apply (strncpy_pads ex_mem 300 102 6); lia. Defined.
