(* ===== verification/State.v ===== *)
(** * The kernel's state

    The structures of the kernel headers as records, and [kstate], the global
    variables of the kernel together with the registers of the hart that runs,
    the memory it addresses and the disk behind the block device.

    Conventions.  A pointer into a fixed table ([proc], [ftable.file],
    [icache.inode], [bcache.buf], [cpus]) is the index of the entry, a null
    pointer is [None]; a pointer to a page or to bytes is its address.  A C
    [int] that is only assigned 0 or 1 and only tested is a [bool].  A lock is
    named by the structure it lives in ([lockid]), and so is a sleep channel. *)

From stdpp Require Import gmap strings list fin_maps countable.
From Stdlib Require Import ZArith Lia.
From S2P Require Import Prelude Machine.
Open Scope Z_scope.

(** ** Names of locks and channels *)

(** The sleep locks: one per buffer, one per cached inode. *)
Inductive slid := SL_buf (i : nat) | SL_inode (i : nat).

(** The spin locks of the kernel. *)
Inductive lockid :=
| L_kmem | L_pid | L_ticks | L_cons | L_uart | L_pr | L_bcache | L_icache
| L_ftable | L_log | L_vdisk
| L_proc (i : nat)
| L_pipe (a : Z)
| L_sleep (l : slid).

(** The addresses processes sleep on. *)
Inductive chanid :=
| Ch_proc (i : nat)
| Ch_ticks
| Ch_log
| Ch_sleeplock (l : slid)
| Ch_pipe_nread (a : Z)
| Ch_pipe_nwrite (a : Z)
| Ch_cons_r
| Ch_uart_tx_r
| Ch_disk_free
| Ch_buf (i : nat).

#[export] Instance slid_eq_dec : EqDecision slid.
Proof. solve_decision. Defined.
#[export] Instance lockid_eq_dec : EqDecision lockid.
Proof. solve_decision. Defined.
#[export] Instance chanid_eq_dec : EqDecision chanid.
Proof. solve_decision. Defined.

Definition slid_key (l : slid) : nat * nat :=
  match l with SL_buf i => (0, i)%nat | SL_inode i => (1, i)%nat end.
Definition slid_of_key (k : nat * nat) : slid :=
  match k with (O, i) => SL_buf i | (_, i) => SL_inode i end.
#[export] Program Instance slid_countable : Countable slid :=
  inj_countable' slid_key slid_of_key _.
Next Obligation. by intros []. Qed.

Definition lockid_key (l : lockid) : nat * Z * slid :=
  match l with
  | L_kmem => (0%nat, 0, SL_buf 0) | L_pid => (1%nat, 0, SL_buf 0)
  | L_ticks => (2%nat, 0, SL_buf 0) | L_cons => (3%nat, 0, SL_buf 0)
  | L_uart => (4%nat, 0, SL_buf 0) | L_pr => (5%nat, 0, SL_buf 0)
  | L_bcache => (6%nat, 0, SL_buf 0) | L_icache => (7%nat, 0, SL_buf 0)
  | L_ftable => (8%nat, 0, SL_buf 0) | L_log => (9%nat, 0, SL_buf 0)
  | L_vdisk => (10%nat, 0, SL_buf 0)
  | L_proc i => (11%nat, Z.of_nat i, SL_buf 0)
  | L_pipe a => (12%nat, a, SL_buf 0)
  | L_sleep l => (13%nat, 0, l)
  end.
Definition lockid_of_key (k : nat * Z * slid) : lockid :=
  match k with
  | (0%nat, _, _) => L_kmem | (1%nat, _, _) => L_pid | (2%nat, _, _) => L_ticks
  | (3%nat, _, _) => L_cons | (4%nat, _, _) => L_uart | (5%nat, _, _) => L_pr
  | (6%nat, _, _) => L_bcache | (7%nat, _, _) => L_icache | (8%nat, _, _) => L_ftable
  | (9%nat, _, _) => L_log | (10%nat, _, _) => L_vdisk
  | (11%nat, a, _) => L_proc (Z.to_nat a)
  | (12%nat, a, _) => L_pipe a
  | (_, _, l) => L_sleep l
  end.
#[export] Program Instance lockid_countable : Countable lockid :=
  inj_countable' lockid_key lockid_of_key _.
Next Obligation. intros []; simpl; try done. by rewrite Nat2Z.id. Qed.

(** ** Structures *)

(* @kernel/spinlock.h spinlock *)
Record spinlock := mk_spinlock {
  locked : Z;
  lk_name : string;
  lk_cpu : option nat
}.

(* @kernel/sleeplock.h sleeplock *)
Record sleeplock := mk_sleeplock {
  sl_locked : Z;
  sl_name : string;
  sl_pid : Z
}.

(* @kernel/proc.h context *)
Record context := mk_context {
  ra : Z;
  sp : Z;
  callee_saved : list Z
}.

(* @kernel/proc.h cpu *)
Record cpu := mk_cpu {
  c_proc : option nat;
  c_context : context;
  noff : Z;
  intena : bool
}.

(* @kernel/proc.h procstate *)
Inductive procstate := UNUSED | SLEEPING | RUNNABLE | RUNNING | ZOMBIE.

#[export] Instance procstate_eq_dec : EqDecision procstate.
Proof. solve_decision. Defined.

(** [name] is the address of the 16-byte array in the structure. *)
(* @kernel/proc.h proc *)
Record proc := mk_proc {
  state : procstate;
  parent : option nat;
  chan : option chanid;
  killed : bool;
  xstate : Z;
  pid : Z;
  kstack : Z;
  psz : Z;
  pagetable : Z;
  trapframe : Z;
  p_context : context;
  ofile : list (option nat);
  cwd : option nat;
  name : Z
}.

(* @kernel/file.h:2-2 FD_NONE *)
Inductive filetype := FD_NONE | FD_PIPE | FD_INODE | FD_DEVICE.

#[export] Instance filetype_eq_dec : EqDecision filetype.
Proof. solve_decision. Defined.

(* @kernel/file.h file *)
Record file := mk_file {
  f_type : filetype;
  f_ref : Z;
  readable : bool;
  writable : bool;
  f_pipe : Z;
  f_ip : option nat;
  f_off : Z;
  f_major : Z
}.

(* @kernel/file.h inode *)
Record inode := mk_inode {
  i_dev : Z;
  i_inum : Z;
  i_ref : Z;
  i_valid : bool;
  i_type : Z;
  i_major : Z;
  i_minor : Z;
  i_nlink : Z;
  i_size : Z;
  i_addrs : list Z
}.

(* @kernel/buf.h buf *)
Record buf := mk_buf {
  b_valid : bool;
  b_disk : bool;
  b_dev : Z;
  b_blockno : Z;
  b_refcnt : Z;
  b_prev : nat;
  b_next : nat;
  b_data : list Z
}.

(* @kernel/log.c logheader *)
Record logheader := mk_logheader {
  lh_n : Z;
  lh_block : list Z
}.

(* @kernel/log.c log *)
Record log_t := mk_log {
  log_start : Z;
  log_size : Z;
  log_outstanding : Z;
  log_committing : bool;
  log_dev : Z;
  log_lh : logheader
}.

(* @kernel/fs.h superblock *)
Record superblock := mk_superblock {
  sb_magic : Z;
  sb_size : Z;
  sb_nblocks : Z;
  sb_ninodes : Z;
  sb_nlog : Z;
  sb_logstart : Z;
  sb_inodestart : Z;
  sb_bmapstart : Z
}.

(* @kernel/pipe.c pipe *)
Record pipe := mk_pipe {
  p_data : list Z;
  nread : Z;
  nwrite : Z;
  readopen : bool;
  writeopen : bool
}.

(* @kernel/console.c:44-53 cons *)
Record console := mk_console {
  cons_buf : list Z;
  cons_r : Z;
  cons_w : Z;
  cons_e : Z
}.

(** [uart_tx_buf] and its indices (kernel/uart.c). *)
(* @kernel/uart.c:43-46 uart_tx_buf *)
Record uart_t := mk_uart {
  tx_buf : list Z;
  tx_w : Z;
  tx_r : Z
}.

(** The 16550 behind the UART registers: the bytes sent (newest first), the bytes
    received and not read yet, whether the transmit register is empty, and whether
    the divisor latch is selected. *)
Record uart_hw := mk_uart_hw {
  hw_tx : list Z;
  hw_rx : list Z;
  hw_idle : bool;
  hw_dlab : bool
}.

(** The control and status registers of the running hart that [riscv.h] reads
    and writes, and its [tp]. *)
Record hartregs := mk_hart {
  mhartid : Z; mstatus : Z; mepc : Z; sstatus : Z; sip : Z; sie : Z; mie : Z;
  sepc : Z; medeleg : Z; mideleg : Z; stvec : Z; mtvec : Z; satp : Z;
  sscratch : Z; mscratch : Z; scause : Z; stval : Z; mcounteren : Z; time : Z;
  tp : Z
}.

(** ** The linked image

    Addresses the linker script and the assembly files provide. *)
Class KernelImage := {
  kend : Z;        (* [end], first address after the kernel *)
  etext : Z;       (* end of kernel text *)
  trampoline : Z;  (* physical address of the trampoline page *)
  forkret_pc : Z   (* address of [forkret] *)
}.

(** ** Global state *)

Record kstate := mk_kstate {
  hart : hartregs;
  cpus : list cpu;
  locks : gmap lockid spinlock;
  slocks : gmap slid sleeplock;
  mem : memory;
  freelist : Z;                 (* kmem.freelist *)
  kernel_pagetable : Z;
  procs : list proc;
  initproc : option nat;
  nextpid : Z;
  ticks : Z;
  ftable : list file;
  pipes : gmap Z pipe;
  bcache : list buf;            (* bcache.buf, and bcache.head at index NBUF *)
  disk : gmap Z (list Z);
  dtrace : list (Z * list Z);   (* block writes, newest first *)
  klog : log_t;
  sb : superblock;
  icache : list inode;
  devsw_read : list bool;       (* devsw[i].read is set *)
  devsw_write : list bool;
  cons : console;
  uart : uart_t;
  uart_dev : uart_hw;
  pr_locking : bool;            (* pr.locking *)
  panicked : bool;
  first : bool;                 (* the static variable of forkret *)
  clock : nat                   (* lets the environment change its behaviour *)
}.

#[export] Instance eta_kstate : Eta kstate := fun s =>
  mk_kstate (hart s) (cpus s) (locks s) (slocks s) (mem s) (freelist s)
    (kernel_pagetable s) (procs s) (initproc s) (nextpid s) (ticks s) (ftable s)
    (pipes s) (bcache s) (disk s) (dtrace s) (klog s) (sb s) (icache s)
    (devsw_read s) (devsw_write s) (cons s) (uart s) (uart_dev s) (pr_locking s)
    (panicked s) (first s) (clock s).
#[export] Instance eta_hart : Eta hartregs := fun h =>
  mk_hart (mhartid h) (mstatus h) (mepc h) (sstatus h) (sip h) (sie h) (mie h)
    (sepc h) (medeleg h) (mideleg h) (stvec h) (mtvec h) (satp h) (sscratch h)
    (mscratch h) (scause h) (stval h) (mcounteren h) (time h) (tp h).
#[export] Instance eta_cpu : Eta cpu := fun c =>
  mk_cpu (c_proc c) (c_context c) (noff c) (intena c).
#[export] Instance eta_proc : Eta proc := fun p =>
  mk_proc (state p) (parent p) (chan p) (killed p) (xstate p) (pid p) (kstack p)
    (psz p) (pagetable p) (trapframe p) (p_context p) (ofile p) (cwd p) (name p).
#[export] Instance eta_file : Eta file := fun f =>
  mk_file (f_type f) (f_ref f) (readable f) (writable f) (f_pipe f) (f_ip f)
    (f_off f) (f_major f).
#[export] Instance eta_inode : Eta inode := fun i =>
  mk_inode (i_dev i) (i_inum i) (i_ref i) (i_valid i) (i_type i) (i_major i)
    (i_minor i) (i_nlink i) (i_size i) (i_addrs i).
#[export] Instance eta_buf : Eta buf := fun b =>
  mk_buf (b_valid b) (b_disk b) (b_dev b) (b_blockno b) (b_refcnt b) (b_prev b)
    (b_next b) (b_data b).
#[export] Instance eta_log : Eta log_t := fun l =>
  mk_log (log_start l) (log_size l) (log_outstanding l) (log_committing l)
    (log_dev l) (log_lh l).
#[export] Instance eta_console : Eta console := fun c =>
  mk_console (cons_buf c) (cons_r c) (cons_w c) (cons_e c).
#[export] Instance eta_uart : Eta uart_t := fun u => mk_uart (tx_buf u) (tx_w u) (tx_r u).
#[export] Instance eta_pipe : Eta pipe := fun p =>
  mk_pipe (p_data p) (nread p) (nwrite p) (readopen p) (writeopen p).

Definition set_hart : hartregs -> kstate -> kstate := ltac:(make_setter hart).
Definition set_cpus : list cpu -> kstate -> kstate := ltac:(make_setter cpus).
Definition set_locks : gmap lockid spinlock -> kstate -> kstate := ltac:(make_setter locks).
Definition set_slocks : gmap slid sleeplock -> kstate -> kstate := ltac:(make_setter slocks).
Definition set_mem : memory -> kstate -> kstate := ltac:(make_setter mem).
Definition set_freelist : Z -> kstate -> kstate := ltac:(make_setter freelist).
Definition set_kernel_pagetable : Z -> kstate -> kstate := ltac:(make_setter kernel_pagetable).
Definition set_procs : list proc -> kstate -> kstate := ltac:(make_setter procs).
Definition set_initproc : option nat -> kstate -> kstate := ltac:(make_setter initproc).
Definition set_nextpid : Z -> kstate -> kstate := ltac:(make_setter nextpid).
Definition set_ticks : Z -> kstate -> kstate := ltac:(make_setter ticks).
Definition set_ftable : list file -> kstate -> kstate := ltac:(make_setter ftable).
Definition set_pipes : gmap Z pipe -> kstate -> kstate := ltac:(make_setter pipes).
Definition set_bcache : list buf -> kstate -> kstate := ltac:(make_setter bcache).
Definition set_disk : gmap Z (list Z) -> kstate -> kstate := ltac:(make_setter disk).
Definition set_dtrace : list (Z * list Z) -> kstate -> kstate := ltac:(make_setter dtrace).
Definition set_klog : log_t -> kstate -> kstate := ltac:(make_setter klog).
Definition set_sb : superblock -> kstate -> kstate := ltac:(make_setter sb).
Definition set_icache : list inode -> kstate -> kstate := ltac:(make_setter icache).
Definition set_devsw_read : list bool -> kstate -> kstate := ltac:(make_setter devsw_read).
Definition set_devsw_write : list bool -> kstate -> kstate := ltac:(make_setter devsw_write).
Definition set_cons : console -> kstate -> kstate := ltac:(make_setter cons).
Definition set_uart : uart_t -> kstate -> kstate := ltac:(make_setter uart).
Definition set_uart_dev : uart_hw -> kstate -> kstate := ltac:(make_setter uart_dev).
Definition set_pr_locking : bool -> kstate -> kstate := ltac:(make_setter pr_locking).
Definition set_panicked : bool -> kstate -> kstate := ltac:(make_setter panicked).
Definition set_first : bool -> kstate -> kstate := ltac:(make_setter first).
Definition set_clock : nat -> kstate -> kstate := ltac:(make_setter clock).

Definition set_sstatus : Z -> hartregs -> hartregs := ltac:(make_setter sstatus).

Definition set_c_proc : option nat -> cpu -> cpu := ltac:(make_setter c_proc).
Definition set_noff : Z -> cpu -> cpu := ltac:(make_setter noff).
Definition set_intena : bool -> cpu -> cpu := ltac:(make_setter intena).

Definition set_state : procstate -> proc -> proc := ltac:(make_setter state).
Definition set_parent : option nat -> proc -> proc := ltac:(make_setter parent).
Definition set_chan : option chanid -> proc -> proc := ltac:(make_setter chan).
Definition set_killed : bool -> proc -> proc := ltac:(make_setter killed).
Definition set_xstate : Z -> proc -> proc := ltac:(make_setter xstate).
Definition set_pid : Z -> proc -> proc := ltac:(make_setter pid).
Definition set_kstack : Z -> proc -> proc := ltac:(make_setter kstack).
Definition set_psz : Z -> proc -> proc := ltac:(make_setter psz).
Definition set_pagetable : Z -> proc -> proc := ltac:(make_setter pagetable).
Definition set_trapframe : Z -> proc -> proc := ltac:(make_setter trapframe).
Definition set_p_context : context -> proc -> proc := ltac:(make_setter p_context).
Definition set_ofile : list (option nat) -> proc -> proc := ltac:(make_setter ofile).
Definition set_cwd : option nat -> proc -> proc := ltac:(make_setter cwd).

Definition set_f_type : filetype -> file -> file := ltac:(make_setter f_type).
Definition set_readable : bool -> file -> file := ltac:(make_setter readable).
Definition set_writable : bool -> file -> file := ltac:(make_setter writable).
Definition set_f_pipe : Z -> file -> file := ltac:(make_setter f_pipe).
Definition set_f_ip : option nat -> file -> file := ltac:(make_setter f_ip).
Definition set_f_major : Z -> file -> file := ltac:(make_setter f_major).
Definition set_f_ref : Z -> file -> file := ltac:(make_setter f_ref).
Definition set_f_off : Z -> file -> file := ltac:(make_setter f_off).

Definition set_i_dev : Z -> inode -> inode := ltac:(make_setter i_dev).
Definition set_i_inum : Z -> inode -> inode := ltac:(make_setter i_inum).
Definition set_i_major : Z -> inode -> inode := ltac:(make_setter i_major).
Definition set_i_minor : Z -> inode -> inode := ltac:(make_setter i_minor).
Definition set_i_ref : Z -> inode -> inode := ltac:(make_setter i_ref).
Definition set_i_valid : bool -> inode -> inode := ltac:(make_setter i_valid).
Definition set_i_type : Z -> inode -> inode := ltac:(make_setter i_type).
Definition set_i_nlink : Z -> inode -> inode := ltac:(make_setter i_nlink).
Definition set_i_size : Z -> inode -> inode := ltac:(make_setter i_size).
Definition set_i_addrs : list Z -> inode -> inode := ltac:(make_setter i_addrs).

Definition set_b_dev : Z -> buf -> buf := ltac:(make_setter b_dev).
Definition set_b_blockno : Z -> buf -> buf := ltac:(make_setter b_blockno).
Definition set_b_disk : bool -> buf -> buf := ltac:(make_setter b_disk).
Definition set_b_valid : bool -> buf -> buf := ltac:(make_setter b_valid).
Definition set_b_refcnt : Z -> buf -> buf := ltac:(make_setter b_refcnt).
Definition set_b_prev : nat -> buf -> buf := ltac:(make_setter b_prev).
Definition set_b_next : nat -> buf -> buf := ltac:(make_setter b_next).
Definition set_b_data : list Z -> buf -> buf := ltac:(make_setter b_data).

Definition set_log_outstanding : Z -> log_t -> log_t := ltac:(make_setter log_outstanding).
Definition set_log_committing : bool -> log_t -> log_t := ltac:(make_setter log_committing).
Definition set_log_lh : logheader -> log_t -> log_t := ltac:(make_setter log_lh).

Definition set_cons_buf : list Z -> console -> console := ltac:(make_setter cons_buf).
Definition set_cons_r : Z -> console -> console := ltac:(make_setter cons_r).
Definition set_cons_w : Z -> console -> console := ltac:(make_setter cons_w).
Definition set_cons_e : Z -> console -> console := ltac:(make_setter cons_e).
Definition set_tx_buf : list Z -> uart_t -> uart_t := ltac:(make_setter tx_buf).
Definition set_tx_w : Z -> uart_t -> uart_t := ltac:(make_setter tx_w).
Definition set_tx_r : Z -> uart_t -> uart_t := ltac:(make_setter tx_r).

Definition set_p_data : list Z -> pipe -> pipe := ltac:(make_setter p_data).
Definition set_nread : Z -> pipe -> pipe := ltac:(make_setter nread).
Definition set_nwrite : Z -> pipe -> pipe := ltac:(make_setter nwrite).
Definition set_readopen : bool -> pipe -> pipe := ltac:(make_setter readopen).
Definition set_writeopen : bool -> pipe -> pipe := ltac:(make_setter writeopen).

(** ** Kernel computations *)

Definition K (A : Type) : Type := M kstate A.

Definition modify_mem (f : memory -> memory) : K unit :=
  modify (fun s => set_mem (f (mem s)) s).

(** [p->field = v] for an entry of the process table. *)
Definition modify_proc (i : nat) (f : proc -> proc) : K unit :=
  let* p := gets (fun s => procs s !! i) in
  let* p := deref p in
  modify (fun s => set_procs (<[i := f p]> (procs s)) s).
Definition get_proc {A} (i : nat) (f : proc -> A) : K A :=
  let* p := gets (fun s => procs s !! i) in
  let* p := deref p in
  ret (f p).

(** ** A concrete state

    The zero-initialized globals of a kernel that has run [initlock] on its
    global locks; examples and witnesses start from it. *)

Definition zero_context : context := mk_context 0 0 (replicate 12 0).
Definition zero_cpu : cpu := mk_cpu None zero_context 0 false.
Definition zero_proc : proc :=
  mk_proc UNUSED None None false 0 0 0 0 0 0 zero_context (replicate 16 None) None 0.
Definition zero_file : file := mk_file FD_NONE 0 false false 0 None 0 0.
Definition zero_inode : inode := mk_inode 0 0 0 false 0 0 0 0 0 (replicate 13 0).
Definition zero_hart : hartregs := mk_hart 0 0 0 0 0 0 0 0 0 0 0 0 0 0 0 0 0 0 0 0.
Definition zero_log : log_t := mk_log 0 0 0 false 0 (mk_logheader 0 (replicate 30 0)).
Definition zero_sb : superblock := mk_superblock 0 0 0 0 0 0 0 0.

Definition global_locks : list lockid :=
  [L_kmem; L_pid; L_ticks; L_cons; L_uart; L_pr; L_bcache; L_icache; L_ftable; L_log; L_vdisk]
  ++ (L_proc <$> seq 0 64) ++ (L_sleep ∘ SL_buf <$> seq 0 30)
  ++ (L_sleep ∘ SL_inode <$> seq 0 50).

Definition sleep_locks : list slid := (SL_buf <$> seq 0 30) ++ (SL_inode <$> seq 0 50).

Definition zero_kstate : kstate :=
  mk_kstate zero_hart (replicate 8 zero_cpu)
    (list_to_map ((fun l => (l, mk_spinlock 0 "" None)) <$> global_locks))
    (list_to_map ((fun l => (l, mk_sleeplock 0 "" 0)) <$> sleep_locks))
    ∅ 0 0 (replicate 64 zero_proc) None 1 0 (replicate 100 zero_file) ∅ [] ∅ []
    zero_log zero_sb (replicate 50 zero_inode) (replicate 10 false) (replicate 10 false)
    (mk_console (replicate 128 0) 0 0 0) (mk_uart (replicate 32 0) 0 0)
    (mk_uart_hw [] [] true false) false false true 0.

(** The rest of the system never runs. *)
Definition idle_world : World kstate := {| world_step := fun _ => None; world_fuel := 10 |}.
