(* ===== verification/Riscv.v ===== *)
(** * kernel/riscv.h: control and status registers

    The accessors of [riscv.h] as reads and writes of the register file of the
    running hart.  A register keeps the 64-bit value written to it. *)

From stdpp Require Import gmap strings list fin_maps.
From Stdlib Require Import ZArith Lia.
From S2P Require Import Prelude Machine State.
Open Scope Z_scope.

(** ** Bits *)

(* @kernel/riscv.h MSTATUS_MPP_MASK *)
Definition MSTATUS_MPP_MASK : Z := Z.shiftl 3 11.
(* @kernel/riscv.h MSTATUS_MPP_M *)
Definition MSTATUS_MPP_M : Z := Z.shiftl 3 11.
(* @kernel/riscv.h MSTATUS_MPP_S *)
Definition MSTATUS_MPP_S : Z := Z.shiftl 1 11.
(* @kernel/riscv.h MSTATUS_MPP_U *)
Definition MSTATUS_MPP_U : Z := Z.shiftl 0 11.
(* @kernel/riscv.h MSTATUS_MIE *)
Definition MSTATUS_MIE : Z := Z.shiftl 1 3.
(* @kernel/riscv.h SSTATUS_SPP *)
Definition SSTATUS_SPP : Z := Z.shiftl 1 8.
(* @kernel/riscv.h SSTATUS_SPIE *)
Definition SSTATUS_SPIE : Z := Z.shiftl 1 5.
(* @kernel/riscv.h SSTATUS_UPIE *)
Definition SSTATUS_UPIE : Z := Z.shiftl 1 4.
(* @kernel/riscv.h SSTATUS_SIE *)
Definition SSTATUS_SIE : Z := Z.shiftl 1 1.
(* @kernel/riscv.h SSTATUS_UIE *)
Definition SSTATUS_UIE : Z := Z.shiftl 1 0.
(* @kernel/riscv.h SIE_SEIE *)
Definition SIE_SEIE : Z := Z.shiftl 1 9.
(* @kernel/riscv.h SIE_STIE *)
Definition SIE_STIE : Z := Z.shiftl 1 5.
(* @kernel/riscv.h SIE_SSIE *)
Definition SIE_SSIE : Z := Z.shiftl 1 1.
(* @kernel/riscv.h MIE_MEIE *)
Definition MIE_MEIE : Z := Z.shiftl 1 11.
(* @kernel/riscv.h MIE_MTIE *)
Definition MIE_MTIE : Z := Z.shiftl 1 7.
(* @kernel/riscv.h MIE_MSIE *)
Definition MIE_MSIE : Z := Z.shiftl 1 3.

(** ** Setters *)

Definition set_mstatus : Z -> hartregs -> hartregs := ltac:(make_setter mstatus).
Definition set_mepc : Z -> hartregs -> hartregs := ltac:(make_setter mepc).
Definition set_sip : Z -> hartregs -> hartregs := ltac:(make_setter sip).
Definition set_sie : Z -> hartregs -> hartregs := ltac:(make_setter sie).
Definition set_mie : Z -> hartregs -> hartregs := ltac:(make_setter mie).
Definition set_sepc : Z -> hartregs -> hartregs := ltac:(make_setter sepc).
Definition set_medeleg : Z -> hartregs -> hartregs := ltac:(make_setter medeleg).
Definition set_mideleg : Z -> hartregs -> hartregs := ltac:(make_setter mideleg).
Definition set_stvec : Z -> hartregs -> hartregs := ltac:(make_setter stvec).
Definition set_mtvec : Z -> hartregs -> hartregs := ltac:(make_setter mtvec).
Definition set_satp : Z -> hartregs -> hartregs := ltac:(make_setter satp).
Definition set_sscratch : Z -> hartregs -> hartregs := ltac:(make_setter sscratch).
Definition set_mscratch : Z -> hartregs -> hartregs := ltac:(make_setter mscratch).
Definition set_mcounteren : Z -> hartregs -> hartregs := ltac:(make_setter mcounteren).
Definition set_tp : Z -> hartregs -> hartregs := ltac:(make_setter tp).

(** ** Accessors *)

(* @kernel/riscv.h r_mhartid *)
Definition r_mhartid : K Z := gets (fun s => mhartid (hart s)).
(* @kernel/riscv.h r_mstatus *)
Definition r_mstatus : K Z := gets (fun s => mstatus (hart s)).
(* @kernel/riscv.h w_mstatus *)
Definition w_mstatus (x : Z) : K unit := modify (fun s => set_hart (set_mstatus (u64 x) (hart s)) s).
(* @kernel/riscv.h w_mepc *)
Definition w_mepc (x : Z) : K unit := modify (fun s => set_hart (set_mepc (u64 x) (hart s)) s).
(* @kernel/riscv.h r_sstatus *)
Definition r_sstatus : K Z := gets (fun s => sstatus (hart s)).
(* @kernel/riscv.h w_sstatus *)
Definition w_sstatus (x : Z) : K unit := modify (fun s => set_hart (set_sstatus (u64 x) (hart s)) s).
(* @kernel/riscv.h r_sip *)
Definition r_sip : K Z := gets (fun s => sip (hart s)).
(* @kernel/riscv.h w_sip *)
Definition w_sip (x : Z) : K unit := modify (fun s => set_hart (set_sip (u64 x) (hart s)) s).
(* @kernel/riscv.h r_sie *)
Definition r_sie : K Z := gets (fun s => sie (hart s)).
(* @kernel/riscv.h w_sie *)
Definition w_sie (x : Z) : K unit := modify (fun s => set_hart (set_sie (u64 x) (hart s)) s).
(* @kernel/riscv.h r_mie *)
Definition r_mie : K Z := gets (fun s => mie (hart s)).
(* @kernel/riscv.h w_mie *)
Definition w_mie (x : Z) : K unit := modify (fun s => set_hart (set_mie (u64 x) (hart s)) s).
(* @kernel/riscv.h w_sepc *)
Definition w_sepc (x : Z) : K unit := modify (fun s => set_hart (set_sepc (u64 x) (hart s)) s).
(* @kernel/riscv.h r_sepc *)
Definition r_sepc : K Z := gets (fun s => sepc (hart s)).
(* @kernel/riscv.h r_medeleg *)
Definition r_medeleg : K Z := gets (fun s => medeleg (hart s)).
(* @kernel/riscv.h w_medeleg *)
Definition w_medeleg (x : Z) : K unit := modify (fun s => set_hart (set_medeleg (u64 x) (hart s)) s).
(* @kernel/riscv.h r_mideleg *)
Definition r_mideleg : K Z := gets (fun s => mideleg (hart s)).
(* @kernel/riscv.h w_mideleg *)
Definition w_mideleg (x : Z) : K unit := modify (fun s => set_hart (set_mideleg (u64 x) (hart s)) s).
(* @kernel/riscv.h w_stvec *)
Definition w_stvec (x : Z) : K unit := modify (fun s => set_hart (set_stvec (u64 x) (hart s)) s).
(* @kernel/riscv.h r_stvec *)
Definition r_stvec : K Z := gets (fun s => stvec (hart s)).
(* @kernel/riscv.h w_mtvec *)
Definition w_mtvec (x : Z) : K unit := modify (fun s => set_hart (set_mtvec (u64 x) (hart s)) s).
(* @kernel/riscv.h w_satp *)
Definition w_satp (x : Z) : K unit := modify (fun s => set_hart (set_satp (u64 x) (hart s)) s).
(* @kernel/riscv.h r_satp *)
Definition r_satp : K Z := gets (fun s => satp (hart s)).
(* @kernel/riscv.h w_sscratch *)
Definition w_sscratch (x : Z) : K unit := modify (fun s => set_hart (set_sscratch (u64 x) (hart s)) s).
(* @kernel/riscv.h w_mscratch *)
Definition w_mscratch (x : Z) : K unit := modify (fun s => set_hart (set_mscratch (u64 x) (hart s)) s).
(* @kernel/riscv.h r_scause *)
Definition r_scause : K Z := gets (fun s => scause (hart s)).
(* @kernel/riscv.h r_stval *)
Definition r_stval : K Z := gets (fun s => stval (hart s)).
(* @kernel/riscv.h w_mcounteren *)
Definition w_mcounteren (x : Z) : K unit := modify (fun s => set_hart (set_mcounteren (u64 x) (hart s)) s).
(* @kernel/riscv.h r_mcounteren *)
Definition r_mcounteren : K Z := gets (fun s => mcounteren (hart s)).
(* @kernel/riscv.h r_time *)
Definition r_time : K Z := gets (fun s => time (hart s)).
(* @kernel/riscv.h r_tp *)
Definition r_tp : K Z := gets (fun s => tp (hart s)).
(* @kernel/riscv.h w_tp *)
Definition w_tp (x : Z) : K unit := modify (fun s => set_hart (set_tp (u64 x) (hart s)) s).

(** ** Interrupt enable *)

(* @kernel/riscv.h intr_on *)
Definition intr_on : K unit :=
  let* x := r_sstatus in w_sstatus (Z.lor x SSTATUS_SIE).

(* @kernel/riscv.h intr_off *)
Definition intr_off : K unit :=
  let* x := r_sstatus in w_sstatus (Z.land x (Z.lnot SSTATUS_SIE)).

(* @kernel/riscv.h intr_get *)
Definition intr_get : K bool :=
  let* x := r_sstatus in ret (negb (Z.land x SSTATUS_SIE =? 0)).
