(* ===== verification/Spinlock.v ===== *)
(** * kernel/spinlock.c, and [cpuid]/[mycpu] of kernel/proc.c

    Spin locks as the code implements them: interrupts are disabled and counted
    per CPU, the atomic swap spins while the lock is held elsewhere (each failed
    swap lets the rest of the system run), and the owner is recorded.

    [acq l s] and [restore s t] are the abstract effect of a critical section:
    [acquire] takes [s] to [acq l s], and [release] from a state [t] whose lock
    and interrupt state is that of [acq l s] gives back exactly the lock and
    interrupt state of [s].  All clients reason with [wp_acquire] and
    [wp_release]. *)

From stdpp Require Import gmap strings list fin_maps.
From Stdlib Require Import ZArith Lia.
From S2P Require Import Prelude Machine State Riscv.
Open Scope Z_scope.

Section Spinlock.
Context `{World kstate}.

(* @kernel/proc.c cpuid *)
Definition cpuid : K Z := let* x := r_tp in ret (i32 x).

(* @kernel/proc.c mycpu *)
Definition mycpu : K nat := let* id := cpuid in ret (Z.to_nat id).

(** [cpus[i].field], with the bounds of the array. *)
Definition get_cpu {A} (i : nat) (f : cpu -> A) : K A :=
  let* c := gets (fun s => cpus s !! i) in
  let* c := deref c in ret (f c).
Definition modify_cpu (i : nat) (f : cpu -> cpu) : K unit :=
  let* c := gets (fun s => cpus s !! i) in
  let* c := deref c in
  modify (fun s => set_cpus (<[i := f c]> (cpus s)) s).

Definition get_lock {A} (l : lockid) (f : spinlock -> A) : K A :=
  let* lk := gets (fun s => locks s !! l) in
  let* lk := deref lk in ret (f lk).
Definition put_lock (l : lockid) (lk : spinlock) : K unit :=
  modify (fun s => set_locks (<[l := lk]> (locks s)) s).

(* @kernel/spinlock.c initlock *)
Definition initlock (l : lockid) (nm : string) : K unit :=
  put_lock l (mk_spinlock 0 nm None).

(* @kernel/spinlock.c holding *)
Definition holding (l : lockid) : K bool :=
  let* lk := get_lock l id in
  let* c := mycpu in
  ret (negb (locked lk =? 0) && bool_decide (lk_cpu lk = Some c)).

(* @kernel/spinlock.c push_off *)
Definition push_off : K unit :=
  let* old := intr_get in
  intr_off ;;;
  let* c := mycpu in
  let* n := get_cpu c noff in
  when (n =? 0) (modify_cpu c (set_intena old)) ;;;
  let* n := get_cpu c noff in
  modify_cpu c (set_noff (n + 1)).

(* @kernel/spinlock.c pop_off *)
Definition pop_off : K unit :=
  let* c := mycpu in
  let* i := intr_get in
  if i : bool then panic "pop_off - interruptible"
  else
  let* n := get_cpu c noff in
  if n <? 1 then panic "pop_off"
  else
  modify_cpu c (set_noff (n - 1)) ;;;
  let* n := get_cpu c noff in
  let* e := get_cpu c intena in
  when ((n =? 0) && e) intr_on.

(** [while(__sync_lock_test_and_set(&lk->locked, 1) != 0) ;] *)
Definition spin (l : lockid) : K unit :=
  iter (S world_fuel) (fun _ : unit =>
    let* lk := get_lock l id in
    put_lock l (mk_spinlock 1 (lk_name lk) (lk_cpu lk)) ;;;
    if negb (locked lk =? 0) then wait_world ;;; ret (inl tt)
    else ret (inr tt)) tt.

(* @kernel/spinlock.c acquire *)
Definition acquire (l : lockid) : K unit :=
  push_off ;;;
  let* h := holding l in
  if h : bool then panic "acquire"
  else
  spin l ;;;
  let* c := mycpu in
  let* lk := get_lock l id in
  put_lock l (mk_spinlock (locked lk) (lk_name lk) (Some c)).

(* @kernel/spinlock.c release *)
Definition release (l : lockid) : K unit :=
  let* h := holding l in
  if negb h then panic "release"
  else
  let* lk := get_lock l id in
  put_lock l (mk_spinlock (locked lk) (lk_name lk) None) ;;;
  let* lk := get_lock l id in
  put_lock l (mk_spinlock 0 (lk_name lk) (lk_cpu lk)) ;;;
  pop_off.

(** ** The abstract critical section *)

Definition this_cpu (s : kstate) : nat := Z.to_nat (i32 (tp (hart s))).
Definition intr (s : kstate) : bool := negb (Z.land (sstatus (hart s)) SSTATUS_SIE =? 0).

(** The interrupt bookkeeping of the running CPU is consistent: interrupts are
    off inside a critical section, and outside of one [intena] is what the last
    [push_off] recorded, the current setting. *)
Definition settled (s : kstate) : Prop :=
  exists c, cpus s !! this_cpu s = Some c /\ 0 <= noff c /\
    (noff c = 0 -> intena c = intr s) /\ (0 < noff c -> intr s = false) /\
    0 <= sstatus (hart s) < 2 ^ 64.

(** The lock is initialized and not held. *)
Definition lock_free (l : lockid) (s : kstate) : Prop :=
  exists nm, locks s !! l = Some (mk_spinlock 0 nm None).

(** The lock is held by the running CPU. *)
Definition lock_held (l : lockid) (s : kstate) : Prop :=
  exists nm, locks s !! l = Some (mk_spinlock 1 nm (Some (this_cpu s))).

Definition off_cpu (c : cpu) (i : bool) : cpu :=
  set_noff (noff c + 1) (if noff c =? 0 then set_intena i c else c).

Definition acq (l : lockid) (s : kstate) : kstate :=
  set_locks
    (alter (fun lk => mk_spinlock 1 (lk_name lk) (Some (this_cpu s))) l (locks s))
    (set_cpus (alter (fun c => off_cpu c (intr s)) (this_cpu s) (cpus s))
       (set_hart (set_sstatus (u64 (Z.land (sstatus (hart s)) (Z.lnot SSTATUS_SIE))) (hart s)) s)).

Definition restore (s t : kstate) : kstate :=
  set_hart (hart s) (set_cpus (cpus s) (set_locks (locks s) t)).

(** ** Interrupt bits *)

Lemma SIE_land x : Z.land x SSTATUS_SIE = if Z.testbit x 1 then 2 else 0.
Proof.
  apply Z.bits_inj'. intros n Hn. change SSTATUS_SIE with (2 ^ 1).
  rewrite Z.land_spec, Z.pow2_bits_eqb by lia.
  destruct (Z.eqb_spec 1 n) as [<-|Hne].
  - rewrite andb_true_r. by destruct (Z.testbit x 1).
  - rewrite andb_false_r. destruct (Z.testbit x 1); [|by rewrite Z.bits_0].
    change 2 with (2 ^ 1). by rewrite Z.pow2_bits_false.
Qed.

Lemma intr_testbit s : intr s = Z.testbit (sstatus (hart s)) 1.
Proof. unfold intr. rewrite SIE_land. by destruct (Z.testbit _ _). Qed.

Lemma SIE_clear_off x : Z.testbit x 1 = false -> Z.land x (Z.lnot SSTATUS_SIE) = x.
Proof.
  intros Hb. apply Z.bits_inj'. intros n Hn. change SSTATUS_SIE with (2 ^ 1).
  rewrite Z.land_spec, Z.lnot_spec, Z.pow2_bits_eqb by lia.
  destruct (Z.eqb_spec 1 n) as [<-|]; [by rewrite Hb|]. by rewrite andb_true_r.
Qed.

Lemma SIE_clear_set x : Z.testbit x 1 = true ->
  Z.lor (Z.land x (Z.lnot SSTATUS_SIE)) SSTATUS_SIE = x.
Proof.
  intros Hb. apply Z.bits_inj'. intros n Hn. change SSTATUS_SIE with (2 ^ 1).
  rewrite Z.lor_spec, Z.land_spec, Z.lnot_spec, Z.pow2_bits_eqb by lia.
  destruct (Z.eqb_spec 1 n) as [<-|].
  - by rewrite Hb, orb_true_r.
  - by rewrite andb_true_r, orb_false_r.
Qed.

Lemma SIE_clear_testbit x : Z.testbit (Z.land x (Z.lnot SSTATUS_SIE)) 1 = false.
Proof. change SSTATUS_SIE with 2. by rewrite Z.land_spec, andb_false_r. Qed.

Lemma SIE_clear_range x : 0 <= x < 2 ^ 64 -> 0 <= Z.land x (Z.lnot SSTATUS_SIE) < 2 ^ 64.
Proof. intros Hx. pose proof (Z_land_le x (Z.lnot SSTATUS_SIE)). lia. Qed.

(** ** Acquire and release *)

Lemma wp_mycpu (Q : nat -> kstate -> Prop) s : Q (this_cpu s) s -> wp mycpu Q s.
Proof. intros. unfold mycpu, cpuid, r_tp. wsteps. done. Qed.

Lemma wp_get_cpu {A} i (f : cpu -> A) c (Q : A -> kstate -> Prop) s :
  cpus s !! i = Some c -> Q (f c) s -> wp (get_cpu i f) Q s.
Proof. intros. unfold get_cpu. wsteps. done. Qed.

Lemma wp_modify_cpu i f c (Q : unit -> kstate -> Prop) s :
  cpus s !! i = Some c -> Q tt (set_cpus (<[i := f c]> (cpus s)) s) -> wp (modify_cpu i f) Q s.
Proof. intros. unfold modify_cpu. wsteps. done. Qed.

Lemma wp_get_lock {A} l (f : spinlock -> A) lk (Q : A -> kstate -> Prop) s :
  locks s !! l = Some lk -> Q (f lk) s -> wp (get_lock l f) Q s.
Proof. intros. unfold get_lock. wsteps. done. Qed.

Lemma wp_push_off c (Q : unit -> kstate -> Prop) s :
  cpus s !! this_cpu s = Some c ->
  Q tt (set_cpus (<[this_cpu s := off_cpu c (intr s)]> (cpus s))
         (set_hart (set_sstatus (u64 (Z.land (sstatus (hart s)) (Z.lnot SSTATUS_SIE))) (hart s)) s)) ->
  wp push_off Q s.
Proof.
  intros Hc HQ. unfold push_off, intr_get, intr_off, r_sstatus, w_sstatus. wsteps.
  apply wp_mycpu. wsteps. eapply wp_get_cpu; [exact Hc|]. wsteps. fold (intr s).
  pose proof (lookup_lt_Some _ _ _ Hc) as Hlt. unfold off_cpu in HQ.
  apply wp_when; intros E; rewrite E in HQ.
  - eapply wp_modify_cpu; [exact Hc|]. wsteps.
    eapply wp_get_cpu; [fields; by apply list_lookup_insert_eq|].
    eapply wp_modify_cpu; [fields; by apply list_lookup_insert_eq|].
    fields. rewrite list_insert_insert_eq. exact HQ.
  - wsteps. eapply wp_get_cpu; [exact Hc|]. by eapply wp_modify_cpu.
Qed.

Lemma acq_eq l s c nm :
  cpus s !! this_cpu s = Some c -> locks s !! l = Some (mk_spinlock 0 nm None) ->
  acq l s =
    set_locks (<[l := mk_spinlock 1 nm (Some (this_cpu s))]> (locks s))
      (set_cpus (<[this_cpu s := off_cpu c (intr s)]> (cpus s))
        (set_hart (set_sstatus (u64 (Z.land (sstatus (hart s)) (Z.lnot SSTATUS_SIE))) (hart s)) s)).
Proof.
  intros Hc Hl. unfold acq.
  by rewrite (list_alter_insert _ _ _ _ Hc), (map_alter_insert _ _ _ _ Hl).
Qed.

Lemma wp_acquire l (Q : unit -> kstate -> Prop) s :
  settled s -> lock_free l s -> Q tt (acq l s) -> wp (acquire l) Q s.
Proof.
  intros (c & Hc & _) [nm Hl] HQ. rewrite (acq_eq l s c nm) in HQ by done.
  unfold acquire. wstep. eapply wp_push_off; [exact Hc|]. wstep.
  unfold holding. wstep. eapply wp_get_lock; [fields; exact Hl|]. wstep.
  apply wp_mycpu. wsteps. cbn [id locked negb andb Z.eqb].
  wstep. unfold spin. cbn [iter]. wsteps.
  eapply wp_get_lock; [fields; exact Hl|]. unfold put_lock. wsteps.
  cbn [id locked lk_name lk_cpu negb Z.eqb]. wsteps. apply wp_mycpu. wsteps.
  eapply wp_get_lock; [fields; apply lookup_insert_eq|]. wsteps.
  cbn [id locked lk_name lk_cpu]. fields. rewrite insert_insert_eq. exact HQ.
Qed.

Lemma this_cpu_acq l s : this_cpu (acq l s) = this_cpu s.
Proof. done. Qed.

Lemma noff_off_cpu c b : noff (off_cpu c b) = noff c + 1.
Proof. done. Qed.

Lemma intr_acq l s : 0 <= sstatus (hart s) < 2 ^ 64 -> intr (acq l s) = false.
Proof.
  intros. rewrite intr_testbit. unfold acq. fields.
  rewrite u64_id by (by apply SIE_clear_range). apply SIE_clear_testbit.
Qed.

Lemma settled_acq l s : settled s -> settled (acq l s).
Proof.
  intros (c & Hc & Hn & _ & _ & Hr). exists (off_cpu c (intr s)). rewrite this_cpu_acq, intr_acq by done.
  unfold acq. fields. rewrite (list_alter_insert _ _ _ _ Hc), noff_off_cpu.
  rewrite list_lookup_insert_eq by (by eapply lookup_lt_Some).
  rewrite (u64_id (Z.land _ _)) by (by apply SIE_clear_range).
  pose proof (SIE_clear_range (sstatus (hart s)) Hr). repeat split; (lia || done).
Qed.

Lemma set_sstatus_same h : set_sstatus (sstatus h) h = h.
Proof. by destruct h. Qed.
Lemma set_hart_same s h : hart s = h -> set_hart h s = s.
Proof. intros <-. by destruct s. Qed.

Lemma off_cpu_back c i :
  (noff c = 0 -> intena c = i) -> set_noff (noff (off_cpu c i) - 1) (off_cpu c i) = c.
Proof.
  intros Hi. rewrite noff_off_cpu. unfold off_cpu, set_noff, set_intena.
  destruct c as [p x n e]; simpl in *. destruct (Z.eqb_spec n 0); simpl; f_equal; try lia.
  symmetry. auto.
Qed.

Lemma intena_off_cpu c i : intena (off_cpu c i) = if noff c =? 0 then i else intena c.
Proof. unfold off_cpu. by destruct (noff c =? 0). Qed.

Lemma lock_free_acq l l' s : l <> l' -> lock_free l' s -> lock_free l' (acq l s).
Proof. intros Hne [nm Hl]. exists nm. unfold acq. fields. by rewrite lookup_alter_ne. Qed.

Lemma wp_pop_off c (Q : unit -> kstate -> Prop) s :
  cpus s !! this_cpu s = Some c -> intr s = false -> 1 <= noff c ->
  Q tt (let s' := set_cpus (<[this_cpu s := set_noff (noff c - 1) c]> (cpus s)) s in
        if (noff c - 1 =? 0) && intena c
        then set_hart (set_sstatus (u64 (Z.lor (sstatus (hart s)) SSTATUS_SIE)) (hart s)) s'
        else s') ->
  wp pop_off Q s.
Proof.
  intros Hc Hi Hn HQ. pose proof (lookup_lt_Some _ _ _ Hc) as Hlt.
  unfold pop_off. wstep. apply wp_mycpu. wstep. unfold intr_get, r_sstatus. wsteps.
  fold (intr s). rewrite Hi. wstep. eapply wp_get_cpu; [exact Hc|].
  destruct (Z.ltb_spec (noff c) 1); [lia|]. wstep. eapply wp_modify_cpu; [exact Hc|].
  wstep. eapply wp_get_cpu; [fields; by apply list_lookup_insert_eq|].
  wstep. eapply wp_get_cpu; [fields; by apply list_lookup_insert_eq|].
  change (noff (set_noff (noff c - 1) c)) with (noff c - 1).
  change (intena (set_noff (noff c - 1) c)) with (intena c).
  apply wp_when; intros E; rewrite E in HQ; [|exact HQ].
  unfold intr_on, r_sstatus, w_sstatus. wsteps. exact HQ.
Qed.

(** [pop_off] undoes the [push_off] that was done in [s]. *)
Lemma wp_pop_restore (Q : unit -> kstate -> Prop) s t c :
  settled s -> cpus s !! this_cpu s = Some c ->
  hart t = set_sstatus (u64 (Z.land (sstatus (hart s)) (Z.lnot SSTATUS_SIE))) (hart s) ->
  cpus t = <[this_cpu s := off_cpu c (intr s)]> (cpus s) ->
  Q tt (set_hart (hart s) (set_cpus (cpus s) t)) -> wp pop_off Q t.
Proof.
  intros (c' & Hc' & Hn & H0 & H1 & Hr) Hc Hh Hcp HQ. assert (c' = c) as -> by congruence.
  assert (Ht : this_cpu t = this_cpu s) by (unfold this_cpu; by rewrite Hh).
  assert (Hi : intr t = false).
  { rewrite intr_testbit, Hh. fields. rewrite u64_id by (by apply SIE_clear_range).
    apply SIE_clear_testbit. }
  assert (Hct : cpus t !! this_cpu t = Some (off_cpu c (intr s))).
  { rewrite Hcp, Ht. apply list_lookup_insert_eq. by eapply lookup_lt_Some. }
  eapply wp_pop_off; [exact Hct|exact Hi|rewrite noff_off_cpu; lia|].
  cbv zeta. rewrite (off_cpu_back c (intr s) H0), noff_off_cpu, intena_off_cpu. fields.
  rewrite Ht, Hcp, Hh, list_insert_back by done. fields.
  replace (noff c + 1 - 1) with (noff c) by lia. rewrite (intr_testbit s) in *.
  destruct (Z.eqb_spec (noff c) 0), (Z.testbit (sstatus (hart s)) 1) eqn:E; cbn [andb].
  - rewrite (u64_id (Z.land _ _)), SIE_clear_set, u64_id, set_sstatus_same
      by (done || by apply SIE_clear_range). exact HQ.
  - rewrite set_hart_same in HQ; [exact HQ|]. fields.
    rewrite Hh, SIE_clear_off, u64_id by done. apply (set_sstatus_same).
  - discriminate H1. lia.
  - rewrite set_hart_same in HQ; [by destruct (intena c)|]. fields.
    rewrite Hh, SIE_clear_off, u64_id by done. apply (set_sstatus_same).
Qed.

(** Releasing the lock that was acquired in [s], from any state in which the
    lock and interrupt state is still that of [acq l s]. *)
Lemma wp_release l (Q : unit -> kstate -> Prop) s t :
  settled s -> lock_free l s ->
  hart t = hart (acq l s) -> cpus t = cpus (acq l s) -> locks t = locks (acq l s) ->
  Q tt (restore s t) -> wp (release l) Q t.
Proof.
  intros Hs [nm Hl] Hh Hcp Hlk HQ. pose proof Hs as (c & Hc & _).
  assert (Ht : this_cpu t = this_cpu s) by (unfold this_cpu; by rewrite Hh).
  rewrite (acq_eq l s c nm) in Hcp, Hlk, Hh by done. fields_in Hcp. fields_in Hlk. fields_in Hh.
  unfold release, holding. wsteps.
  eapply wp_get_lock; [rewrite Hlk; apply lookup_insert_eq|]. wstep. apply wp_mycpu. wsteps.
  cbn [id locked lk_cpu negb Z.eqb andb]. rewrite Ht, bool_decide_eq_true_2 by done. cbn [negb].
  wstep. eapply wp_get_lock; [rewrite Hlk; apply lookup_insert_eq|]. unfold put_lock. wsteps.
  eapply wp_get_lock; [fields; apply lookup_insert_eq|]. wsteps.
  cbn [id locked lk_name lk_cpu]. fields.
  eapply (wp_pop_restore _ s _ c); [done|done|by fields..|].
  rewrite Hlk, !insert_insert_eq, (insert_id (locks s)) by done. exact HQ.
Qed.
End Spinlock.

Lemma restore_acq l s : restore s (acq l s) = s.
Proof. by destruct s. Qed.
Lemma restore_same s : restore s s = s.
Proof. by destruct s. Qed.

(** Normalize the state after a critical section: updates of the other fields
    commute with [acq] and [restore], and [restore] undoes [acq]. *)
Ltac critical :=
  repeat first
  [ progress fields
  | match goal with
    | |- context [restore ?s ?s] => rewrite (restore_same s)
    | |- context [restore ?s (acq ?l ?s)] => rewrite (restore_acq l s)
    | |- context [restore ?s (?f ?v ?t)] =>
      is_const f;
      let H := fresh in
      assert (H : forall x y, restore s (f x y) = f x (restore s y)) by (intros; reflexivity);
      rewrite (H v t); clear H
    | |- context [acq ?l (?f ?v ?t)] =>
      is_const f;
      let H := fresh in
      assert (H : forall x y, acq l (f x y) = f x (acq l y)) by (intros; reflexivity);
      rewrite (H v t); clear H
    end ].

Section Cycles.
Context `{World kstate}.

Lemma cycle_ok l s : settled s -> lock_free l s -> wp (acquire l ;;; release l) (fun _ s' => s' = s) s.
Proof.
  intros Hs Hl. wstep. apply wp_acquire; [done..|].
  eapply (wp_release l _ s); [done..|]. apply restore_acq.
Qed.

Lemma settled_zero : settled zero_kstate.
Proof. exists zero_cpu. repeat split; try done. Qed.

Lemma run_push_off s c :
  cpus s !! this_cpu s = Some c -> exists s', push_off s = Ok tt s' /\
    hart s' = set_sstatus (u64 (Z.land (sstatus (hart s)) (Z.lnot SSTATUS_SIE))) (hart s) /\
    locks s' = locks s.
Proof.
  intros Hc. assert (Hw : wp push_off (fun _ s' =>
    hart s' = set_sstatus (u64 (Z.land (sstatus (hart s)) (Z.lnot SSTATUS_SIE))) (hart s) /\
    locks s' = locks s) s) by (by eapply wp_push_off).
  apply wp_ok in Hw. destruct Hw as ([] & s' & ? & ?). eauto.
Qed.

Lemma run_holding s l lk :
  locks s !! l = Some lk ->
  holding l s = Ok (negb (locked lk =? 0) && bool_decide (lk_cpu lk = Some (this_cpu s))) s.
Proof.
  intros Hl. unfold holding, get_lock, mycpu, cpuid, r_tp, bind, gets, ret.
  by rewrite Hl.
Qed.

Lemma acquire_held_panics s l :
  settled s -> lock_held l s -> exists s', acquire l s = Panic "acquire" s'.
Proof.
  intros (c & Hc & _) [nm Hl]. destruct (run_push_off s c Hc) as (s1 & H1 & Hh & Hlk).
  exists s1. unfold acquire. rewrite (bind_ok _ _ _ _ _ H1).
  rewrite (bind_ok _ _ _ _ _ (run_holding s1 l _ (eq_trans (f_equal _ Hlk) Hl))).
  assert (this_cpu s1 = this_cpu s) as -> by (unfold this_cpu; by rewrite Hh).
  cbn [locked lk_cpu]. by rewrite bool_decide_eq_true_2.
Qed.

(** A critical section gives back exactly the state it started in (lock free,
    interrupts and nesting depth as before), for every lock and nesting depth;
    acquiring a lock the CPU already holds panics, and so does releasing one it
    does not hold. *)
Theorem lock_cycle (s : kstate) (l : lockid) :
  settled s -> lock_free l s ->
  (acquire l ;;; release l) s = Ok tt s /\
  (exists s', (acquire l ;;; acquire l) s = Panic "acquire" s') /\
  release l s = Panic "release" s.
Proof.
  intros Hs Hl. split; [|split].
  - destruct (proj1 (wp_ok _ _ _) (cycle_ok l s Hs Hl)) as ([] & s' & -> & ->). done.
  - assert (Ha : wp (acquire l) (fun _ s' => s' = acq l s) s) by (by apply wp_acquire).
    apply wp_ok in Ha. destruct Ha as ([] & s' & Ha & ->). rewrite (bind_ok _ _ _ _ _ Ha).
    apply acquire_held_panics; [by apply settled_acq|]. destruct Hl as [nm Hl]. exists nm.
    unfold acq. fields. by rewrite (map_alter_insert _ _ _ _ Hl), lookup_insert_eq.
  - destruct Hl as [nm Hl]. unfold release. by rewrite (bind_ok _ _ _ _ _ (run_holding s l _ Hl)).
Qed.
End Cycles.

Lemma lock_cycle_witness :
  (bind (acquire (H := idle_world) L_kmem) (fun _ => release L_kmem)) zero_kstate = Ok tt zero_kstate /\
  (exists s', (bind (acquire (H := idle_world) L_kmem) (fun _ => acquire (H := idle_world) L_kmem))
     zero_kstate = Panic "acquire" s') /\
  release L_kmem zero_kstate = Panic "release" zero_kstate.
Proof.
  apply (lock_cycle (H := idle_world)); [apply settled_zero|].
  exists ""%string. vm_compute. reflexivity.
Defined.

(** ** Several CPUs

    The same code at the granularity of its memory accesses, for any number of
    CPUs contending for one lock: the two loads of [holding], the atomic swap, the
    store to [lk->cpu], and the loads and stores of [release] are separate steps that
    interleave freely.  Memory is sequentially consistent: the fences of the code have
    no step. *)
Module Smp.

(** Where a CPU is between [acquire] and [release]: inside [acquire] between the two
    loads of [holding] ([Testing]), in the loop ([Spinning]), after the swap
    ([Swapped]); in the critical section; inside [release] between the two loads
    ([Checking]), before the store to [lk->cpu] ([Checked]) and after it ([Unowned]). *)
Inductive pc := Outside | Testing | Spinning | Swapped | Critical | Checking | Checked | Unowned | Panicked.

#[export] Instance pc_eq_dec : EqDecision pc.
Proof. solve_decision. Defined.

Record st := mk_st { lk : spinlock; pcs : nat -> pc }.

Definition upd (f : nat -> pc) (i : nat) (x : pc) : nat -> pc :=
  fun j => if decide (j = i) then x else f j.

(** Each step is one access to [lk->locked] or [lk->cpu]; [&&] does not load
    [lk->cpu] when [lk->locked] is zero. *)
(* @kernel/spinlock.c:19-82 acquire *)
Inductive step : st -> st -> Prop :=
| acquire_load_locked l f i : f i = Outside ->
    step (mk_st l f) (mk_st l (upd f i (if locked l =? 0 then Spinning else Testing)))
| acquire_load_cpu l f i : f i = Testing ->
    step (mk_st l f) (mk_st l (upd f i (if bool_decide (lk_cpu l = Some i) then Panicked else Spinning)))
| acquire_swap l f i : f i = Spinning ->
    step (mk_st l f)
      (mk_st (mk_spinlock 1 (lk_name l) (lk_cpu l))
         (upd f i (if negb (locked l =? 0) then Spinning else Swapped)))
| acquire_record l f i : f i = Swapped ->
    step (mk_st l f) (mk_st (mk_spinlock (locked l) (lk_name l) (Some i)) (upd f i Critical))
| release_load_locked l f i : f i = Critical ->
    step (mk_st l f) (mk_st l (upd f i (if locked l =? 0 then Panicked else Checking)))
| release_load_cpu l f i : f i = Checking ->
    step (mk_st l f) (mk_st l (upd f i (if bool_decide (lk_cpu l = Some i) then Checked else Panicked)))
| release_clear l f i : f i = Checked ->
    step (mk_st l f) (mk_st (mk_spinlock (locked l) (lk_name l) None) (upd f i Unowned))
| release_unlock l f i : f i = Unowned ->
    step (mk_st l f) (mk_st (mk_spinlock 0 (lk_name l) (lk_cpu l)) (upd f i Outside)).

Definition init (s : st) : Prop :=
  locked (lk s) = 0 /\ lk_cpu (lk s) = None /\ forall i, pcs s i = Outside.

Inductive reachable : st -> Prop :=
| reach_init s : init s -> reachable s
| reach_step s s' : reachable s -> step s s' -> reachable s'.

(** The CPU is recorded in [lk->cpu]. *)
Definition recorded (x : pc) : bool := match x with Critical | Checking | Checked => true | _ => false end.

(** The CPU has won the swap and not yet given the lock back. *)
Definition owns (x : pc) : bool := match x with Swapped | Unowned => true | _ => recorded x end.

(** The CPU is not in a critical section. *)
Definition waits (x : pc) : bool := match x with Outside | Testing | Spinning => true | _ => false end.

(** Either nobody owns the lock, or exactly one CPU does, and it is recorded in
    [lk->cpu] exactly from its store after the swap to its store before the unlock. *)
Inductive inv (s : st) : Prop :=
| inv_free :
    locked (lk s) = 0 -> lk_cpu (lk s) = None -> (forall j, waits (pcs s j)) -> inv s
| inv_owned i :
    locked (lk s) = 1 -> owns (pcs s i) ->
    lk_cpu (lk s) = (if recorded (pcs s i) then Some i else None) ->
    (forall j, j <> i -> waits (pcs s j)) -> inv s.

Lemma upd_eq f i x : upd f i x i = x.
Proof. unfold upd. by case_decide. Qed.
Lemma upd_ne f i j x : j <> i -> upd f i x j = f j.
Proof. unfold upd. by case_decide. Qed.
Lemma upd_waits f i x k :
  waits x -> (forall j, j <> k -> waits (f j)) -> forall j, j <> k -> waits (upd f i x j).
Proof. intros Hx Hf j Hj. unfold upd. case_decide; auto. Qed.

Lemma inv_init s : init s -> inv s.
Proof. intros (Hl & Hc & Hp). apply inv_free; [done..|]. intros j. by rewrite Hp. Qed.

Lemma waits_not_owns x : waits x -> ~ owns x.
Proof. intros Hw Ho. by destruct x. Qed.

Lemma owner_is (f : nat -> pc) i k : (forall j, j <> k -> waits (f j)) -> owns (f i) -> k = i.
Proof.
  intros Hf Ho. destruct (decide (k = i)) as [|Hne]; [done|].
  destruct (waits_not_owns (f i)); auto.
Qed.

(** A CPU that waits moves to another place outside of the critical section. *)
Lemma inv_waits l f i x : inv (mk_st l f) -> waits (f i) -> waits x -> inv (mk_st l (upd f i x)).
Proof.
  intros [Hl Hc Hf|k Hl Hk Hc Hf] Hi Hx; simpl in *.
  - apply inv_free; simpl; [done..|]. intros j. unfold upd. by case_decide.
  - assert (k <> i) by (intros ->; by destruct (waits_not_owns (f i))).
    apply (inv_owned _ k); simpl; rewrite ?upd_ne by done; [done..|by apply upd_waits].
Qed.

(** The owner moves on. *)
Lemma inv_moves l l' f i x : inv (mk_st l f) -> owns (f i) -> owns x -> locked l' = locked l ->
  lk_cpu l' = (if recorded x then Some i else None) -> inv (mk_st l' (upd f i x)).
Proof.
  intros [Hl Hc Hf|k Hl Hk Hc Hf] Hi Hx El Ec; simpl in *.
  - by destruct (waits_not_owns (f i)).
  - assert (k = i) as -> by (by apply (owner_is f)).
    apply (inv_owned _ i); simpl; rewrite ?upd_eq; [congruence|done..|]. intros j Hj. rewrite upd_ne by done. auto.
Qed.

(** What the owner and the others read. *)
Lemma inv_reads l f i : inv (mk_st l f) ->
  (owns (f i) -> locked l = 1 /\ lk_cpu l = if recorded (f i) then Some i else None) /\
  (waits (f i) -> lk_cpu l <> Some i).
Proof.
  intros [Hl Hc Hf|k Hl Hk Hc Hf]; simpl in *; split; intros Hi.
  - by destruct (waits_not_owns (f i)).
  - by rewrite Hc.
  - assert (k = i) as -> by (by apply (owner_is f)). done.
  - rewrite Hc. destruct (recorded (f k)); [|done]. intros [= ->]. by destruct (waits_not_owns (f i)).
Qed.

Lemma inv_step s s' : inv s -> step s s' -> inv s'.
Proof.
  intros I Hst.
  inversion Hst as [l f i Hi|l f i Hi|l f i Hi|l f i Hi|l f i Hi|l f i Hi|l f i Hi|l f i Hi]; subst;
    destruct (inv_reads l f i I) as [Ho Hw]; rewrite Hi in Ho, Hw; cbn in Ho, Hw.
  - apply inv_waits; [done|by rewrite Hi|by destruct (locked l =? 0)].
  - rewrite bool_decide_eq_false_2 by auto. apply inv_waits; [done|by rewrite Hi|done].
  - destruct I as [Hl Hc Hf|k Hl Hk Hc Hf]; simpl in *; rewrite Hl; simpl.
    + apply (inv_owned _ i); simpl; rewrite ?upd_eq; try done. intros j Hj. rewrite upd_ne by done. apply Hf.
    + assert (k <> i) by (intros ->; rewrite Hi in Hk; done).
      apply (inv_owned _ k); simpl; rewrite ?upd_ne by done; [done..|by apply upd_waits].
  - by eapply inv_moves; [exact I|rewrite Hi|..].
  - destruct Ho as [Hl Hc]; [done|]. rewrite Hl. by eapply inv_moves; [exact I|rewrite Hi|..].
  - destruct Ho as [Hl Hc]; [done|]. rewrite bool_decide_eq_true_2 by done. by eapply inv_moves; [exact I|rewrite Hi|..].
  - by eapply inv_moves; [exact I|rewrite Hi|..].
  - destruct Ho as [Hl Hc]; [done|]. destruct I as [? ? Hf|k _ Hk _ Hf]; simpl in *.
    + by destruct (waits_not_owns (f i)); [|rewrite Hi].
    + assert (k = i) as -> by (apply (owner_is f); [done|by rewrite Hi]).
      apply inv_free; simpl; [done..|]. intros j. unfold upd. case_decide; auto.
Qed.

Lemma inv_reachable s : reachable s -> inv s.
Proof. induction 1; eauto using inv_init, inv_step. Qed.

Lemma inv_exclusive s i j : inv s -> owns (pcs s i) -> owns (pcs s j) -> i = j.
Proof.
  intros [_ _ Hf|k _ _ _ Hf] Hi Hj.
  - by destruct (waits_not_owns _ (Hf i)).
  - rewrite <- (owner_is _ i k Hf Hi). by apply (owner_is (pcs s)).
Qed.

Lemma inv_no_panic s i : inv s -> pcs s i <> Panicked.
Proof.
  intros [_ _ Hf|k _ Hk _ Hf] E.
  - specialize (Hf i). by rewrite E in Hf.
  - destruct (decide (i = k)) as [->|Hne]; [by rewrite E in Hk|]. specialize (Hf i Hne). by rewrite E in Hf.
Qed.

(** C16: mutual exclusion of the spin lock on any number of CPUs with sequentially
    consistent memory, for every interleaving of the single loads, stores and swaps of
    [acquire] and [release] on [lk->locked] and [lk->cpu], the two unlocked loads of
    [holding] included: two CPUs are never both between their successful swap and their
    unlock, in the critical section and until its own store in [release] a CPU is the
    one recorded in [lk->cpu], and neither the [panic] of [acquire] nor that of
    [release] is reachable for CPUs that pair the two calls. *)
Theorem mutual_exclusion (s : st) (i j : nat) :
  reachable s ->
  (owns (pcs s i) -> owns (pcs s j) -> i = j) /\
  (recorded (pcs s i) -> locked (lk s) = 1 /\ lk_cpu (lk s) = Some i) /\
  pcs s i <> Panicked.
Proof.
  intros Hr. pose proof (inv_reachable s Hr) as I.
  split; [by apply inv_exclusive|]. split; [|by apply inv_no_panic].
  intros Hi. destruct s as [l f]. destruct (inv_reads l f i I) as [Ho _]. simpl in *.
  destruct (recorded (f i)) eqn:E; [|done]. apply Ho. by destruct (f i).
Qed.

Definition ex_init : st := mk_st (mk_spinlock 0 "lk" None) (fun _ => Outside).

(** CPU 0 has taken the lock; CPU 1 has loaded [lk->locked] and not yet [lk->cpu]. *)
Definition ex_held : st :=
  mk_st (mk_spinlock 1 "lk" (Some 0%nat))
    (upd (upd (upd (upd (fun _ => Outside) 0 Spinning) 0 Swapped) 0 Critical) 1 Testing).

Lemma ex_held_reachable : reachable ex_held.
Proof.
  refine (reach_step _ _ _ (acquire_load_locked (mk_spinlock 1 "lk" (Some 0%nat)) _ 1 eq_refl)).
  refine (reach_step _ _ _ (acquire_record (mk_spinlock 1 "lk" None) _ 0 eq_refl)).
  refine (reach_step _ _ _ (acquire_swap (mk_spinlock 0 "lk" None) _ 0 eq_refl)).
  refine (reach_step _ _ _ (acquire_load_locked (mk_spinlock 0 "lk" None) _ 0 eq_refl)).
  apply (reach_init ex_init). repeat split.
Qed.

Lemma mutual_exclusion_witness :
  pcs ex_held 0%nat = Critical /\ pcs ex_held 1%nat = Testing /\
  (locked (lk ex_held) = 1 /\ lk_cpu (lk ex_held) = Some 0%nat) /\ pcs ex_held 1%nat <> Panicked.
Proof.
  split; [reflexivity|]. split; [reflexivity|].
  split; [apply (mutual_exclusion ex_held 0 1 ex_held_reachable); reflexivity|].
  apply (mutual_exclusion ex_held 1 0 ex_held_reachable).
Defined.
End Smp.
