(* ===== verification/Kalloc.v ===== *)
(** * kernel/kalloc.c: the physical page allocator

    The free list is threaded through the free pages themselves: the first eight
    bytes of a free page are the pointer to the next one.  [free_pages] relates
    that representation to a list of pages; the allocator's contract is stated on
    the list ([alloc_inv]) and proved of the pointer code. *)

From stdpp Require Import gmap strings list fin_maps.
From Stdlib Require Import ZArith Lia.
From S2P Require Import Prelude Machine Str State Riscv Spinlock.
Open Scope Z_scope.

#[local] Opaque memset st64 ld64.

Section Kalloc.
Context `{World kstate} `{KernelImage}.

(* @kernel/kalloc.c kfree *)
Definition kfree (pa : Z) : K unit :=
  if negb (pa mod PGSIZE =? 0) || (pa <? kend) || (PHYSTOP <=? pa) then panic "kfree"
  else
  modify_mem (fun m => memset m pa 1 PGSIZE) ;;;
  let r := pa in
  acquire L_kmem ;;;
  modify (fun s => set_mem (st64 (mem s) r (freelist s)) s) ;;;
  modify (set_freelist r) ;;;
  release L_kmem.

(* @kernel/kalloc.c kalloc *)
Definition kalloc : K Z :=
  acquire L_kmem ;;;
  let* r := gets freelist in
  when (negb (r =? 0)) (modify (fun s => set_freelist (ld64 (mem s) r) s)) ;;;
  release L_kmem ;;;
  when (negb (r =? 0)) (modify_mem (fun m => memset m r 5 PGSIZE)) ;;;
  ret r.

(* @kernel/kalloc.c freerange *)
Definition freerange (pa_start pa_end : Z) : K unit :=
  let p := PGROUNDUP pa_start in
  iter (S (Z.to_nat ((pa_end - p) / PGSIZE))) (fun p =>
    if p + PGSIZE <=? pa_end then kfree p ;;; ret (inl (p + PGSIZE))
    else ret (inr tt)) p.

(* @kernel/kalloc.c kinit *)
Definition kinit : K unit :=
  initlock L_kmem "kmem" ;;;
  freerange kend PHYSTOP.

(** ** The abstract free list *)

(** The kernel image ends inside RAM. *)
Definition image_ok : Prop := KERNBASE < kend <= PHYSTOP.

(** An address [kfree] accepts. *)
Definition page_ok (pa : Z) : Prop := pa mod PGSIZE = 0 /\ kend <= pa < PHYSTOP.

Fixpoint free_pages (m : memory) (head : Z) (l : list Z) : Prop :=
  match l with
  | [] => head = 0
  | p :: l => head = p /\ free_pages m (ld64 m p) l
  end.

Record alloc_inv (s : kstate) (l : list Z) : Prop := {
  alloc_list : free_pages (mem s) (freelist s) l;
  alloc_pages : Forall page_ok l;
  alloc_nodup : NoDup l;
  alloc_bytes : mem_bytes (mem s);
  alloc_settled : settled s;
  alloc_lock : lock_free L_kmem s
}.

(** Memory agrees on a page. *)
Definition same_page (m m' : memory) (p : Z) : Prop :=
  forall i, 0 <= i < PGSIZE -> ld8 m (p + i) = ld8 m' (p + i).

Lemma page_ok_range pa : image_ok -> page_ok pa -> KERNBASE < pa < PHYSTOP.
Proof. intros Hi [_ ?]. unfold image_ok in Hi. lia. Qed.

Lemma page_ok_nonzero pa : image_ok -> page_ok pa -> pa <> 0.
Proof. intros Hi Hp. pose proof (page_ok_range pa Hi Hp). clia. Qed.

(** Two different pages do not overlap. *)
Lemma pages_apart p q : p mod PGSIZE = 0 -> q mod PGSIZE = 0 -> p <> q ->
  p + PGSIZE <= q \/ q + PGSIZE <= p.
Proof. unfold PGSIZE. intros. zdm. Qed.

Lemma ld64_same_page m m' p q i :
  same_page m m' p -> q = p + i -> 0 <= i -> i + 8 <= PGSIZE -> ld64 m q = ld64 m' q.
Proof.
  intros Hs -> Hi Hi'. apply ld64_ext. intros j Hj. rewrite <- !Z.add_assoc. apply Hs. lia.
Qed.

Lemma free_pages_ext m m' h l :
  free_pages m h l -> Forall (same_page m m') l -> free_pages m' h l.
Proof.
  revert h; induction l as [|p l IH]; intros h Hf Hs; [done|].
  destruct Hf as [-> Hf]. inversion Hs as [|? ? Hp Hl]; subst. split; [done|].
  rewrite <- (ld64_same_page m m' p p 0) by (done || clia || lia). by apply IH.
Qed.

Lemma same_page_memset m p q c :
  p mod PGSIZE = 0 -> q mod PGSIZE = 0 -> p <> q -> same_page m (memset m p c PGSIZE) q.
Proof.
  intros Hp Hq Hne i Hi. rewrite ld8_memset by clia. destruct (pages_apart p q Hp Hq Hne).
  - destruct (Z.leb_spec p (q + i)), (Z.ltb_spec (q + i) (p + PGSIZE)); cbn [andb]; (lia || done).
  - destruct (Z.leb_spec p (q + i)), (Z.ltb_spec (q + i) (p + PGSIZE)); cbn [andb]; (lia || done).
Qed.

Lemma same_page_st64 m p q v :
  p mod PGSIZE = 0 -> q mod PGSIZE = 0 -> p <> q -> same_page m (st64 m p v) q.
Proof.
  intros Hp Hq Hne i Hi. destruct (pages_apart p q Hp Hq Hne);
    rewrite ld8_st64_out by clia; done.
Qed.

Lemma same_page_trans m1 m2 m3 p : same_page m1 m2 p -> same_page m2 m3 p -> same_page m1 m3 p.
Proof. intros H1 H2 i Hi. rewrite H1, H2; done. Qed.

(** Memory after [kfree pa]. *)
Definition freed_mem (s : kstate) (pa : Z) : memory :=
  st64 (memset (mem s) pa 1 PGSIZE) pa (freelist s).

Lemma freed_mem_same s pa q :
  pa mod PGSIZE = 0 -> q mod PGSIZE = 0 -> pa <> q -> same_page (mem s) (freed_mem s pa) q.
Proof.
  intros. eapply same_page_trans; [by apply (same_page_memset _ pa q 1)|].
  by apply same_page_st64.
Qed.

(** Writes outside the free pages keep the allocator's invariant. *)
Lemma alloc_inv_mem s l m' :
  alloc_inv s l -> mem_bytes m' -> (forall q, q ∈ l -> same_page (mem s) m' q) ->
  alloc_inv (set_mem m' s) l.
Proof.
  intros [Hf Hp Hnd Hb Hs Hl] Hb' Hsame. split; fields; [|done..].
  eapply free_pages_ext; [exact Hf|]. by rewrite Forall_forall.
Qed.

Lemma page_ok_freelist s l : image_ok -> free_pages (mem s) (freelist s) l ->
  Forall page_ok l -> 0 <= freelist s < 2 ^ 64.
Proof.
  intros Hi Hf Hp. destruct l as [|p l]; [simpl in Hf; lia|]. destruct Hf as [-> _].
  apply Forall_cons in Hp as [Hp _]. pose proof (page_ok_range p Hi Hp). clia.
Qed.

Lemma wp_kfree s l pa (Q : unit -> kstate -> Prop) :
  image_ok -> alloc_inv s l -> page_ok pa -> pa ∉ l ->
  (alloc_inv (set_freelist pa (set_mem (freed_mem s pa) s)) (pa :: l) ->
   Q tt (set_freelist pa (set_mem (freed_mem s pa) s))) ->
  wp (kfree pa) Q s.
Proof.
  intros Himg [Hf Hp Hnd Hb Hs Hl] Hpa Hnin HQ. unfold kfree, modify_mem.
  pose proof Hpa as [Hal Hrng].
  rewrite (proj2 (Z.eqb_eq _ _) Hal), (proj2 (Z.ltb_ge _ _)), (proj2 (Z.leb_gt _ _)) by lia.
  cbn [negb orb]. wsteps. apply wp_acquire; [by fields..|]. wsteps.
  eapply (wp_release L_kmem _ (set_mem (memset (mem s) pa 1 PGSIZE) s)); [by fields..|].
  critical. apply HQ. clear HQ. pose proof (page_ok_freelist s l Himg Hf Hp) as Hfr.
  split; fields; [|by constructor|by constructor| |done|done].
  - cbn [free_pages]. split; [done|]. unfold freed_mem. rewrite ld64_st64_same by done.
    eapply free_pages_ext; [exact Hf|]. rewrite Forall_forall in Hp |- *.
    intros q Hq. apply freed_mem_same; [done|by apply Hp|set_solver].
  - unfold freed_mem. apply st64_bytes, memset_bytes; [clia|done].
Qed.

Lemma wp_kalloc_cons s l pa (Q : Z -> kstate -> Prop) :
  image_ok -> alloc_inv s (pa :: l) ->
  (alloc_inv (set_freelist (ld64 (mem s) pa) (set_mem (memset (mem s) pa 5 PGSIZE) s)) l ->
   page_ok pa -> pa ∉ l ->
   Q pa (set_freelist (ld64 (mem s) pa) (set_mem (memset (mem s) pa 5 PGSIZE) s))) ->
  wp kalloc Q s.
Proof.
  intros Himg [Hf Hp Hnd Hb Hs Hl] HQ. destruct Hf as [Hh Hf].
  apply Forall_cons in Hp as [Hpa Hp]. apply NoDup_cons in Hnd as [Hnin Hnd].
  pose proof (page_ok_nonzero pa Himg Hpa) as Hnz. unfold kalloc, modify_mem.
  wstep. apply wp_acquire; [done..|]. wsteps. change (freelist (acq L_kmem s)) with (freelist s).
  rewrite Hh, (proj2 (Z.eqb_neq _ _) Hnz). cbn [negb when]. wsteps.
  eapply (wp_release L_kmem _ s); [by fields..|]. wsteps. critical.
  apply HQ; [|done|done]. split; fields; [|done|done| |done|done].
  - eapply free_pages_ext; [exact Hf|]. rewrite Forall_forall in Hp |- *.
    intros q Hq. apply same_page_memset; [apply Hpa|by apply Hp|set_solver].
  - apply memset_bytes; [clia|done].
Qed.

Lemma wp_kalloc_nil s (Q : Z -> kstate -> Prop) :
  alloc_inv s [] -> Q 0 s -> wp kalloc Q s.
Proof.
  intros [Hf _ _ _ Hs Hl] HQ. simpl in Hf. unfold kalloc.
  wstep. apply wp_acquire; [done..|]. wsteps. change (freelist (acq L_kmem s)) with (freelist s).
  rewrite Hf. cbn [negb when Z.eqb]. wsteps. eapply (wp_release L_kmem _ s); [done..|].
  wsteps. critical. exact HQ.
Qed.

(** ** Initialization *)

Lemma PGROUNDUP_spec sz : 0 <= sz -> sz + PGSIZE <= 2 ^ 64 ->
  PGROUNDUP sz = (sz + PGSIZE - 1) / PGSIZE * PGSIZE.
Proof.
  intros H1 H2. unfold PGROUNDUP. rewrite (u64_id (sz + PGSIZE - 1)) by clia.
  apply Z_land_page. clia.
Qed.

(** The pages of [a, a + k * PGSIZE), highest first: the order [freerange] leaves
    them in. *)
Fixpoint pages_down (a : Z) (k : nat) : list Z :=
  match k with
  | O => []
  | S k => a + Z.of_nat k * PGSIZE :: pages_down a k
  end.

Lemma elem_of_pages_down a k p :
  p ∈ pages_down a k <-> exists i, 0 <= i < Z.of_nat k /\ p = a + i * PGSIZE.
Proof.
  induction k as [|k IH]; cbn [pages_down].
  - split; [set_solver|]. intros (i & ? & ?). lia.
  - rewrite elem_of_cons, IH. split.
    + intros [->|(i & Hi & ->)]; [exists (Z.of_nat k)|exists i]; split; (lia || done).
    + intros (i & Hi & ->). destruct (decide (i = Z.of_nat k)) as [->|]; [by left|].
      right. exists i. split; [lia|done].
Qed.

Lemma PGROUNDUP_bounds sz : 0 <= sz -> sz + PGSIZE <= 2 ^ 64 ->
  sz <= PGROUNDUP sz < sz + PGSIZE /\ PGROUNDUP sz mod PGSIZE = 0.
Proof.
  intros H1 H2. rewrite PGROUNDUP_spec by done. split; [unfold PGSIZE; zdm|].
  apply Z.mod_mul. clia.
Qed.

Lemma wp_freerange s start stop :
  image_ok -> alloc_inv s [] -> kend <= start <= PHYSTOP -> stop <= PHYSTOP ->
  wp (freerange start stop)
    (fun _ s' => alloc_inv s' (pages_down (PGROUNDUP start)
                   (Z.to_nat ((stop - PGROUNDUP start) / PGSIZE)))) s.
Proof.
  intros Himg Hinv Hstart Hstop. unfold freerange.
  assert (Hr : start <= PGROUNDUP start < start + PGSIZE /\ PGROUNDUP start mod PGSIZE = 0).
  { apply PGROUNDUP_bounds; unfold image_ok in Himg; clia. }
  set (P0 := PGROUNDUP start) in *.
  apply (wp_iter _ (fun p s => exists k, p = P0 + Z.of_nat k * PGSIZE /\
            (k <= Z.to_nat ((stop - P0) / PGSIZE))%nat /\ alloc_inv s (pages_down P0 k))
          _ (fun p _ => Z.to_nat ((stop - p) / PGSIZE))).
  - exists 0%nat. split; [lia|]. split; [lia|done].
  - lia.
  - clear s Hinv. intros p s (k & -> & Hk & Hinv).
    assert (E : (stop - (P0 + Z.of_nat k * PGSIZE)) / PGSIZE = (stop - P0) / PGSIZE - Z.of_nat k)
      by (unfold PGSIZE; zdm).
    destruct (Z.leb_spec (P0 + Z.of_nat k * PGSIZE + PGSIZE) stop) as [Hp|Hp].
    + wstep. eapply wp_kfree; [done|exact Hinv| | |].
      * split; [|clia]. rewrite Z.mod_add by clia. apply Hr.
      * rewrite elem_of_pages_down. intros (i & Hi & Ei). clia.
      * intros Hinv'. wsteps. split.
        { exists (S k). split; [clia|]. split; [|exact Hinv'].
          assert (Z.of_nat (S k) <= (stop - P0) / PGSIZE); [|lia].
          apply Z.div_le_lower_bound; clia. }
        rewrite E. assert (0 < (stop - P0) / PGSIZE - Z.of_nat k).
        { rewrite <- E. apply Z.div_str_pos. clia. }
        replace (stop - (P0 + Z.of_nat k * PGSIZE + PGSIZE))
          with (stop - (P0 + Z.of_nat k * PGSIZE) + (-1) * PGSIZE) by lia.
        rewrite Z.div_add, E by clia. lia.
    + wsteps. replace (Z.to_nat ((stop - P0) / PGSIZE)) with k; [done|].
      assert ((stop - P0) / PGSIZE < Z.of_nat k + 1); [|lia].
      apply Z.div_lt_upper_bound; clia.
Qed.

(** ** Properties *)

(** [kinit] leaves an allocator that owns exactly the pages between the end of
    the kernel image and the end of RAM, each once. *)
Theorem kinit_frees_all (s : kstate) :
  image_ok -> settled s -> mem_bytes (mem s) -> freelist s = 0 ->
  exists s', kinit s = Ok tt s' /\
    alloc_inv s' (pages_down (PGROUNDUP kend) (Z.to_nat ((PHYSTOP - PGROUNDUP kend) / PGSIZE))).
Proof.
  intros Himg Hs Hb Hf. apply wp_run_unit. unfold kinit, initlock, put_lock. wsteps.
  apply wp_freerange; [done| |unfold image_ok in Himg; lia|lia].
  split; fields; try done; try apply NoDup_nil_2.
  exists "kmem"%string. fields. apply lookup_insert_eq.
Qed.

(** [kalloc] takes the first free page, fills it with junk and leaves every
    other page as it was; when no page is free it returns 0 and changes nothing.
    The allocator invariant (free pages distinct, page aligned, inside RAM, linked
    through memory) holds afterwards. *)
Theorem kalloc_spec (s : kstate) (l : list Z) :
  image_ok -> alloc_inv s l ->
  exists r s', kalloc s = Ok r s' /\
    match l with
    | [] => r = 0 /\ s' = s
    | p :: l' =>
      r = p /\ alloc_inv s' l' /\ (p ∉ l') /\ page_ok p /\
      (forall i, 0 <= i < PGSIZE -> ld8 (mem s') (p + i) = 5) /\
      (forall q, q mod PGSIZE = 0 -> q <> p -> same_page (mem s) (mem s') q)
    end.
Proof.
  intros Himg Hinv. apply wp_run. destruct l as [|p l].
  - by apply wp_kalloc_nil.
  - eapply wp_kalloc_cons; [done|exact Hinv|]. intros Hinv' Hp Hnin.
    split; [reflexivity|]. split; [exact Hinv'|]. split; [exact Hnin|]. split; [exact Hp|]. split.
    + intros i Hi. fields. rewrite ld8_memset by clia.
      destruct (Z.leb_spec p (p + i)), (Z.ltb_spec (p + i) (p + PGSIZE)); cbn [andb]; (lia || done).
    + intros q Hq Hne. fields. apply same_page_memset; [apply Hp|done|done].
Qed.

(** [kfree] accepts exactly the page-aligned addresses between the end of the
    kernel and the end of RAM (any other address panics), keeps the invariant
    for a page that is not already free, and is undone by the next [kalloc],
    which returns the same page. *)
Theorem kfree_spec (s : kstate) (l : list Z) (pa : Z) :
  image_ok -> alloc_inv s l ->
  (~ page_ok pa -> kfree pa s = Panic "kfree" s) /\
  (page_ok pa -> pa ∉ l ->
   exists s', kfree pa s = Ok tt s' /\ alloc_inv s' (pa :: l) /\
     (forall q, q mod PGSIZE = 0 -> q <> pa -> same_page (mem s) (mem s') q) /\
     exists s'', kalloc s' = Ok pa s'' /\ alloc_inv s'' l).
Proof.
  intros Himg Hinv. split.
  - intros Hbad. unfold kfree. unfold page_ok in Hbad.
    destruct (Z.eqb_spec (pa mod PGSIZE) 0), (Z.ltb_spec pa kend), (Z.leb_spec PHYSTOP pa);
      try done. exfalso. apply Hbad. lia.
  - intros Hp Hnin. apply wp_run_unit. eapply wp_kfree; [done|exact Hinv|done|done|].
    intros Hinv'. split; [done|]. split.
    + intros q Hq Hne. fields. apply freed_mem_same; [apply Hp|done|done].
    + assert (W : wp kalloc (fun r s'' => r = pa /\ alloc_inv s'' l)
               (set_freelist pa (set_mem (freed_mem s pa) s))).
      { eapply wp_kalloc_cons; [done|exact Hinv'|]. eauto. }
      destruct (wp_run _ _ _ W) as (r & s'' & Hr & -> & ?). eauto.
Qed.
End Kalloc.

(** An image that ends four pages below the end of RAM. *)
Definition ex_image : KernelImage :=
  {| kend := PHYSTOP - 4 * PGSIZE; etext := KERNBASE + PGSIZE;
     trampoline := KERNBASE; forkret_pc := 0x80001000 |}.

Lemma ex_image_ok : image_ok (H0 := ex_image).
Proof. split; vm_compute; congruence. Qed.

Lemma kinit_frees_all_witness :
  exists s', kinit (H := idle_world) (H0 := ex_image) zero_kstate = Ok tt s' /\
    alloc_inv (H0 := ex_image) s' [PHYSTOP - PGSIZE; PHYSTOP - 2 * PGSIZE;
                                     PHYSTOP - 3 * PGSIZE; PHYSTOP - 4 * PGSIZE].
Proof.
  apply (kinit_frees_all (H := idle_world) (H0 := ex_image) zero_kstate).
  - exact ex_image_ok.
  - exact settled_zero.
  - intros a. vm_compute. split; congruence.
  - reflexivity.
Defined.

Lemma zero_alloc_inv : alloc_inv (H0 := ex_image) zero_kstate [].
Proof.
  split.
  - done.
  - done.
  - apply NoDup_nil_2.
  - intros a. vm_compute. split; congruence.
  - exact settled_zero.
  - exists ""%string. reflexivity.
Qed.

Lemma kalloc_spec_witness :
  exists r s', kalloc (H := idle_world) zero_kstate = Ok r s' /\ r = 0 /\ s' = zero_kstate.
Proof.
  apply (kalloc_spec (H := idle_world) (H0 := ex_image) zero_kstate []).
  - exact ex_image_ok.
  - exact zero_alloc_inv.
Defined.

Lemma kfree_spec_witness :
  exists s', kfree (H := idle_world) (H0 := ex_image) (PHYSTOP - PGSIZE) zero_kstate = Ok tt s' /\
    exists s'', kalloc (H := idle_world) s' = Ok (PHYSTOP - PGSIZE) s''.
Proof.
  destruct (kfree_spec (H := idle_world) (H0 := ex_image) zero_kstate [] (PHYSTOP - PGSIZE)
              ex_image_ok zero_alloc_inv) as [_ Hf].
  destruct Hf as (s' & Hf & _ & _ & s'' & Ha & _).
  - split; vm_compute; split; congruence.
  - intros Hin. inversion Hin.
  - exists s'. split; [exact Hf|]. exists s''. exact Ha.
Defined.
