(* ===== verification/Vm.v ===== *)
(** * kernel/vm.c: page tables

    Page tables live in memory: a table page holds 512 eight-byte entries, and the
    code below reads and writes them there.  A kernel-side buffer that a function
    takes by pointer is passed as the list of its bytes.  The copies between user
    and kernel memory are in [Copy]. *)

From stdpp Require Import gmap strings list fin_maps.
From Stdlib Require Import ZArith Lia.
From S2P Require Import Prelude Machine Str State Riscv Spinlock Kalloc.
Open Scope Z_scope.

#[local] Opaque memset st64 ld64.

Section Vm.
Context `{World kstate} `{KernelImage}.

Definition ldm64 (a : Z) : K Z := gets (fun s => ld64 (mem s) a).
Definition stm64 (a v : Z) : K unit := modify_mem (fun m => st64 m a v).

(** [pte & flag] as a test. *)
Definition has (pte flag : Z) : bool := negb (Z.land pte flag =? 0).

(** One iteration of the loop of [walk]: the next table, [None] for [return 0]. *)
Definition walk_level (pagetable level va : Z) (alloc : bool) : K (option Z) :=
  let pte := pagetable + 8 * PX level va in
  let* v := ldm64 pte in
  if has v PTE_V then ret (Some (PTE2PA v))
  else if negb alloc then ret None
  else
    let* pagetable := kalloc in
    if pagetable =? 0 then ret None
    else
    modify_mem (fun m => memset m pagetable 0 PGSIZE) ;;;
    stm64 pte (Z.lor (PA2PTE pagetable) PTE_V) ;;;
    ret (Some pagetable).

Fixpoint walk_loop (levels : list Z) (pagetable va : Z) (alloc : bool) : K (option Z) :=
  match levels with
  | [] => ret (Some pagetable)
  | level :: levels =>
    let* r := walk_level pagetable level va alloc in
    match r with
    | None => ret None
    | Some pagetable => walk_loop levels pagetable va alloc
    end
  end.

(* @kernel/vm.c walk *)
Definition walk (pagetable va : Z) (alloc : bool) : K Z :=
  if MAXVA <=? va then panic "walk"
  else
  let* r := walk_loop [2; 1] pagetable va alloc in
  match r with
  | None => ret 0
  | Some pagetable => ret (pagetable + 8 * PX 0 va)
  end.

(* @kernel/vm.c walkaddr *)
Definition walkaddr (pagetable va : Z) : K Z :=
  if MAXVA <=? va then ret 0
  else
  let* pte := walk pagetable va false in
  if pte =? 0 then ret 0
  else
  let* v := ldm64 pte in
  if negb (has v PTE_V) then ret 0
  else if negb (has v PTE_U) then ret 0
  else ret (PTE2PA v).

(** The body of the loop of [mappages] up to the store: -1 for [return -1]. *)
Definition map_page (pagetable a pa perm : Z) : K Z :=
  let* pte := walk pagetable a true in
  if pte =? 0 then ret (-1)
  else
  let* v := ldm64 pte in
  if has v PTE_V then panic "remap"
  else
  stm64 pte (Z.lor (Z.lor (PA2PTE pa) perm) PTE_V) ;;;
  ret 0.

(* @kernel/vm.c mappages *)
Definition mappages (pagetable va size pa perm : Z) : K Z :=
  let a := PGROUNDDOWN va in
  let last := PGROUNDDOWN (u64 (va + size - 1)) in
  iter (S (Z.to_nat (u64 (last - a) / PGSIZE))) (fun '(a, pa) =>
    let* r := map_page pagetable a pa perm in
    if negb (r =? 0) then ret (inr (-1))
    else if a =? last then ret (inr 0)
    else ret (inl (u64 (a + PGSIZE), u64 (pa + PGSIZE)))) (a, pa).

(* @kernel/vm.c kvmmap *)
Definition kvmmap (va pa sz perm : Z) : K unit :=
  let* kpt := gets kernel_pagetable in
  let* r := mappages kpt va sz pa perm in
  if negb (r =? 0) then panic "kvmmap" else ret tt.

(* @kernel/vm.c kvminit *)
Definition kvminit : K unit :=
  let* kpt := kalloc in
  modify (set_kernel_pagetable kpt) ;;;
  modify_mem (fun m => memset m kpt 0 PGSIZE) ;;;
  kvmmap UART0 UART0 PGSIZE (Z.lor PTE_R PTE_W) ;;;
  kvmmap VIRTIO0 VIRTIO0 PGSIZE (Z.lor PTE_R PTE_W) ;;;
  kvmmap CLINT CLINT 0x10000 (Z.lor PTE_R PTE_W) ;;;
  kvmmap PLIC PLIC 0x400000 (Z.lor PTE_R PTE_W) ;;;
  kvmmap KERNBASE KERNBASE (etext - KERNBASE) (Z.lor PTE_R PTE_X) ;;;
  kvmmap etext etext (PHYSTOP - etext) (Z.lor PTE_R PTE_W) ;;;
  kvmmap TRAMPOLINE trampoline PGSIZE (Z.lor PTE_R PTE_X).

(** [sfence_vma] has no effect on this state: the model has no TLB. *)
(* @kernel/vm.c kvminithart *)
Definition kvminithart : K unit :=
  let* kpt := gets kernel_pagetable in
  w_satp (MAKE_SATP kpt).

(* @kernel/vm.c kvmpa *)
Definition kvmpa (va : Z) : K Z :=
  let off := va mod PGSIZE in
  let* kpt := gets kernel_pagetable in
  let* pte := walk kpt va false in
  if pte =? 0 then panic "kvmpa"
  else
  let* v := ldm64 pte in
  if negb (has v PTE_V) then panic "kvmpa"
  else ret (u64 (PTE2PA v + off)).

(** [va], [va + PGSIZE], ...: the page addresses of a loop bound by a count. *)
Definition page_seq (va npages : Z) : list Z :=
  (fun i => va + i * PGSIZE) <$> seqZ 0 npages.

(** The loop bound [va + npages*PGSIZE] is a 64-bit sum. *)
(* @kernel/vm.c uvmunmap *)
Definition uvmunmap (pagetable va npages : Z) (do_free : bool) : K unit :=
  if negb (va mod PGSIZE =? 0) then panic "uvmunmap: not aligned"
  else
  for_all (page_seq va ((u64 (va + npages * PGSIZE) - va) / PGSIZE)) (fun a =>
    let* pte := walk pagetable a false in
    if pte =? 0 then panic "uvmunmap: walk"
    else
    let* v := ldm64 pte in
    if negb (has v PTE_V) then panic "uvmunmap: not mapped"
    else if PTE_FLAGS v =? PTE_V then panic "uvmunmap: not a leaf"
    else
    when do_free (kfree (PTE2PA v)) ;;;
    stm64 pte 0).

(* @kernel/vm.c uvmcreate *)
Definition uvmcreate : K Z :=
  let* pagetable := kalloc in
  if pagetable =? 0 then ret 0
  else
  modify_mem (fun m => memset m pagetable 0 PGSIZE) ;;;
  ret pagetable.

(* @kernel/vm.c uvminit *)
Definition uvminit (pagetable : Z) (src : list Z) (sz : Z) : K unit :=
  if PGSIZE <=? sz then panic "inituvm: more than a page"
  else
  let* mem := kalloc in
  modify_mem (fun m => memset m mem 0 PGSIZE) ;;;
  mappages pagetable 0 PGSIZE mem (Z.lor (Z.lor (Z.lor PTE_W PTE_R) PTE_X) PTE_U) ;;;
  modify_mem (fun m => stbytes m mem (take (Z.to_nat sz) src)).

(* @kernel/vm.c uvmdealloc *)
Definition uvmdealloc (pagetable oldsz newsz : Z) : K Z :=
  if oldsz <=? newsz then ret oldsz
  else
  when (PGROUNDUP newsz <? PGROUNDUP oldsz)
    (let npages := i32 ((PGROUNDUP oldsz - PGROUNDUP newsz) / PGSIZE) in
     uvmunmap pagetable (PGROUNDUP newsz) npages true) ;;;
  ret newsz.

(* @kernel/vm.c uvmalloc *)
Definition uvmalloc (pagetable oldsz newsz : Z) : K Z :=
  if newsz <? oldsz then ret oldsz
  else
  let oldsz := PGROUNDUP oldsz in
  iter (S (Z.to_nat ((newsz - oldsz + PGSIZE - 1) / PGSIZE))) (fun a =>
    if a <? newsz then
      let* mem := kalloc in
      if mem =? 0 then
        uvmdealloc pagetable a oldsz ;;; ret (inr 0)
      else
      modify_mem (fun m => memset m mem 0 PGSIZE) ;;;
      let* r := mappages pagetable a PGSIZE mem (Z.lor (Z.lor (Z.lor PTE_W PTE_X) PTE_R) PTE_U) in
      if negb (r =? 0) then
        kfree mem ;;; uvmdealloc pagetable a oldsz ;;; ret (inr 0)
      else ret (inl (u64 (a + PGSIZE)))
    else ret (inr newsz)) oldsz.

(** [depth] bounds the recursion: a page table has three levels. *)
(* @kernel/vm.c freewalk *)
Fixpoint freewalk (depth : nat) (pagetable : Z) : K unit :=
  match depth with
  | O => fun s => NoFuel s
  | S depth =>
    for_all (seqZ 0 512) (fun i =>
      let* pte := ldm64 (pagetable + 8 * i) in
      if has pte PTE_V && (Z.land pte (Z.lor (Z.lor PTE_R PTE_W) PTE_X) =? 0) then
        let child := PTE2PA pte in
        freewalk depth child ;;;
        stm64 (pagetable + 8 * i) 0
      else if has pte PTE_V then panic "freewalk: leaf"
      else ret tt) ;;;
    kfree pagetable
  end.

(* @kernel/vm.c uvmfree *)
Definition uvmfree (pagetable sz : Z) : K unit :=
  when (0 <? sz) (uvmunmap pagetable 0 (PGROUNDUP sz / PGSIZE) true) ;;;
  freewalk 3 pagetable.

(* @kernel/vm.c uvmcopy *)
Definition uvmcopy (old new sz : Z) : K Z :=
  let err i := uvmunmap new 0 (i / PGSIZE) true ;;; ret (Some (-1)) in
  let* r := for_each (page_seq 0 ((sz + PGSIZE - 1) / PGSIZE)) (fun i =>
    let* pte := walk old i false in
    if pte =? 0 then panic "uvmcopy: pte should exist"
    else
    let* v := ldm64 pte in
    if negb (has v PTE_V) then panic "uvmcopy: page not present"
    else
    let pa := PTE2PA v in
    let flags := PTE_FLAGS v in
    let* mem := kalloc in
    if mem =? 0 then err i
    else
    modify_mem (fun m => memmove m mem pa PGSIZE) ;;;
    let* r := mappages new i PGSIZE mem flags in
    if negb (r =? 0) then kfree mem ;;; err i
    else ret None) in
  ret (default 0 r).

(* @kernel/vm.c uvmclear *)
Definition uvmclear (pagetable va : Z) : K unit :=
  let* pte := walk pagetable va false in
  if pte =? 0 then panic "uvmclear"
  else
  let* v := ldm64 pte in
  stm64 pte (Z.land v (Z.lnot PTE_U)).

(** ** Page tables as functions

    [pt_page m p path] is the table page reached from the table [p] by following
    the indices of [path]; [leaf_pte m root va] is the last-level entry for [va]
    (0 when a table is missing on the way). *)

Definition entry (m : memory) (p i : Z) : option Z :=
  let v := ld64 m (p + 8 * i) in
  if has v PTE_V then Some (PTE2PA v) else None.

Fixpoint pt_page (m : memory) (p : Z) (path : list Z) : option Z :=
  match path with
  | [] => Some p
  | i :: path => entry m p i ≫= fun p' => pt_page m p' path
  end.

Definition leaf_addr (m : memory) (root va : Z) : option Z :=
  (fun p => p + 8 * PX 0 va) <$> pt_page m root [PX 2 va; PX 1 va].

Definition leaf_pte (m : memory) (root va : Z) : Z :=
  match leaf_addr m root va with
  | Some a => ld64 m a
  | None => 0
  end.

(** The page a user access to [va] goes to (0: none), and the byte address. *)
Definition user_page (m : memory) (root va : Z) : Z :=
  let v := leaf_pte m root va in
  if (va <? MAXVA) && has v PTE_V && has v PTE_U then PTE2PA v else 0.

Definition translate (m : memory) (root va : Z) : option Z :=
  let pa := user_page m root va in
  if pa =? 0 then None else Some (pa + va mod PGSIZE).

Definition path_ok (path : list Z) : Prop :=
  (length path <= 2)%nat /\ Forall (fun i => 0 <= i < 512) path.

(** A page table in memory: every table page is a page of RAM outside [l] (the
    free pages), and no table page is reached along two paths. *)
Record pt_inv (m : memory) (root : Z) (l : list Z) : Prop := {
  pt_pages : forall path p, path_ok path -> pt_page m root path = Some p -> page_ok p /\ p ∉ l;
  pt_inj : forall path path' p, path_ok path -> path_ok path' ->
    pt_page m root path = Some p -> pt_page m root path' = Some p -> path = path'
}.

(** ** Arithmetic of page-table entries and indices *)

Lemma Z_lor_disjoint x f n : 0 <= n -> 0 <= f < 2 ^ n -> Z.lor (x * 2 ^ n) f = x * 2 ^ n + f.
Proof.
  intros Hn Hf. pose proof (Z.add_lor_land (x * 2 ^ n) f) as E.
  assert (Z.land (x * 2 ^ n) f = 0); [|lia].
  rewrite <- (Z.mod_small f (2 ^ n)), <- Z.land_ones by lia.
  rewrite (Z.land_comm f), Z.land_assoc, Z.land_ones, Z.mod_mul by lia. apply Z.land_0_l.
Qed.

Lemma PX_spec l va : 0 <= l -> PX l va = (va / 2 ^ (12 + 9 * l)) mod 512.
Proof.
  intros Hl. unfold PX, PXSHIFT, PGSHIFT, PXMASK. rewrite Z.shiftr_div_pow2 by lia.
  change 511 with (Z.ones 9). rewrite Z.land_ones by lia. done.
Qed.

Lemma PX_range l va : 0 <= l -> 0 <= PX l va < 512.
Proof. intros. rewrite PX_spec by done. apply Z.mod_pos_bound. lia. Qed.

(** The three indices determine the page. *)
Lemma PX_inj va va' : 0 <= va < MAXVA -> 0 <= va' < MAXVA ->
  PX 2 va = PX 2 va' -> PX 1 va = PX 1 va' -> PX 0 va = PX 0 va' -> va / PGSIZE = va' / PGSIZE.
Proof.
  intros Hv Hv'. rewrite !PX_spec by lia. consts. change (2 ^ (12 + 9 * 0)) with 4096.
  change (2 ^ (12 + 9 * 1)) with (4096 * 512). change (2 ^ (12 + 9 * 2)) with (4096 * 512 * 512).
  rewrite <- !Z.div_div by lia. intros. zdm.
Qed.

Lemma PX_page l va : 0 <= l -> PX l (va / PGSIZE * PGSIZE) = PX l va.
Proof.
  intros Hl. rewrite !PX_spec by done. f_equal. rewrite Z.pow_add_r by lia.
  change (2 ^ 12) with PGSIZE. rewrite <- !Z.div_div by clia.
  rewrite Z.div_mul by clia. done.
Qed.

Lemma PA2PTE_spec pa : 0 <= pa < 2 ^ 56 -> PA2PTE pa = pa / PGSIZE * 2 ^ 10.
Proof.
  intros. unfold PA2PTE. rewrite Z.shiftl_mul_pow2, Z.shiftr_div_pow2 by lia.
  change (2 ^ 12) with PGSIZE. apply u64_id. consts. zdm.
Qed.

(** The entry [mappages] stores, and what the macros read back from it. *)
Definition make_pte (pa perm : Z) : Z := Z.lor (Z.lor (PA2PTE pa) perm) PTE_V.

Lemma make_pte_sum pa perm : 0 <= pa < 2 ^ 56 -> 0 <= perm < 1024 ->
  make_pte pa perm = pa / PGSIZE * 1024 + Z.lor perm PTE_V /\ 0 <= Z.lor perm PTE_V < 1024.
Proof.
  intros Hpa Hperm. assert (0 <= Z.lor perm PTE_V < 2 ^ 10).
  { apply Z_lor_lt; [lia|lia|]. vm_compute. split; congruence. }
  unfold make_pte. rewrite <- Z.lor_assoc, PA2PTE_spec, Z_lor_disjoint by lia. lia.
Qed.

Lemma make_pte_range pa perm : 0 <= pa < 2 ^ 56 -> 0 <= perm < 1024 ->
  0 <= make_pte pa perm < 2 ^ 64.
Proof.
  intros Hpa Hperm. destruct (make_pte_sum pa perm Hpa Hperm) as [-> ?]. consts. zdm.
Qed.

Lemma make_pte_valid pa perm : has (make_pte pa perm) PTE_V = true.
Proof.
  unfold has, make_pte. destruct (Z.eqb_spec (Z.land (Z.lor (Z.lor (PA2PTE pa) perm) PTE_V) PTE_V) 0)
    as [E|]; [|done]. exfalso. apply (f_equal (fun x => Z.testbit x 0)) in E. revert E.
  rewrite Z.land_spec, Z.lor_spec, Z.bits_0. unfold PTE_V. simpl. by rewrite orb_true_r.
Qed.

Lemma make_pte_pa pa perm : 0 <= pa < 2 ^ 56 -> 0 <= perm < 1024 -> pa mod PGSIZE = 0 ->
  PTE2PA (make_pte pa perm) = pa.
Proof.
  intros Hpa Hperm Hal. destruct (make_pte_sum pa perm Hpa Hperm) as [-> ?].
  unfold PTE2PA. rewrite Z.shiftl_mul_pow2, Z.shiftr_div_pow2 by lia.
  change (2 ^ 10) with 1024. change (2 ^ 12) with PGSIZE.
  rewrite Z.add_comm, Z.div_add, Z.div_small, Z.add_0_l by lia.
  rewrite u64_id; consts; zdm.
Qed.

Lemma make_pte_flags pa perm : 0 <= pa < 2 ^ 56 -> 0 <= perm < 1024 ->
  PTE_FLAGS (make_pte pa perm) = Z.lor perm PTE_V.
Proof.
  intros Hpa Hperm. destruct (make_pte_sum pa perm Hpa Hperm) as [-> ?].
  unfold PTE_FLAGS. change 0x3FF with (Z.ones 10). rewrite Z.land_ones by lia.
  change (2 ^ 10) with 1024. rewrite Z.add_comm, Z.mod_add, Z.mod_small by lia. done.
Qed.

Lemma PTE2PA_range v : PTE2PA v mod PGSIZE = 0 /\ 0 <= PTE2PA v < 2 ^ 64.
Proof.
  unfold PTE2PA. rewrite Z.shiftl_mul_pow2 by lia. set (x := Z.shiftr v 10).
  split; [|apply u64_range]. unfold u64, PGSIZE. change (2 ^ 12) with 4096. zdm.
Qed.

(** ** Following paths *)

Lemma pt_page_app m p path path' :
  pt_page m p (path ++ path') = pt_page m p path ≫= fun q => pt_page m q path'.
Proof.
  revert p; induction path as [|i path IH]; intros p; [done|].
  cbn [pt_page app]. destruct (entry m p i); [|done]. apply IH.
Qed.

Lemma pt_page_snoc m p path i :
  pt_page m p (path ++ [i]) = pt_page m p path ≫= fun q => entry m q i.
Proof.
  rewrite pt_page_app. destruct (pt_page m p path) as [q|]; [|done]. cbn.
  by destruct (entry m q i).
Qed.

(** Only the entries read along the path matter. *)
Lemma pt_page_frame m m' root path :
  (forall q j q' p, path = q ++ j :: q' -> pt_page m root q = Some p ->
     ld64 m' (p + 8 * j) = ld64 m (p + 8 * j)) ->
  pt_page m' root path = pt_page m root path.
Proof.
  induction path as [|i path IH] using rev_ind; intros Hrd; [done|].
  rewrite !pt_page_snoc, IH.
  - destruct (pt_page m root path) as [p|] eqn:E; [|done]. cbn. unfold entry.
    by rewrite (Hrd path i [] p).
  - intros q j q' p -> Hp. apply (Hrd q j (q' ++ [i]) p); [|done]. by rewrite <- app_assoc.
Qed.

Lemma path_ok_app q q' : path_ok (q ++ q') -> path_ok q.
Proof. unfold path_ok. rewrite length_app, Forall_app. intros [? [? ?]]. split; [lia|done]. Qed.

Lemma path_ok_snoc path i : path_ok path -> (length path <= 1)%nat -> 0 <= i < 512 -> path_ok (path ++ [i]).
Proof.
  intros [_ Hf] Hl Hi. split; [rewrite length_app; simpl; lia|]. apply Forall_app. split; [done|].
  by apply Forall_singleton.
Qed.

Lemma path_ok_last path i : path_ok (path ++ [i]) -> 0 <= i < 512.
Proof. intros [_ Hf]. apply Forall_app in Hf as [_ Hf]. exact (proj1 (Forall_singleton _ _) Hf). Qed.

Lemma path_ok_nil : path_ok [].
Proof. split; [simpl; lia|done]. Qed.

(** Entry addresses of two tables, or of two indices, do not overlap. *)
Lemma entry_apart p q i j : p mod PGSIZE = 0 -> q mod PGSIZE = 0 -> 0 <= i < 512 -> 0 <= j < 512 ->
  p <> q \/ i <> j -> p + 8 * i + 8 <= q + 8 * j \/ q + 8 * j + 8 <= p + 8 * i.
Proof.
  intros Hp Hq Hi Hj Hne. destruct (decide (p = q)) as [->|Hpq]; [lia|].
  destruct (pages_apart p q Hp Hq Hpq); clia.
Qed.

(** ** Growing a page table

    [pt_step root s l s' l']: from [s] with free pages [l] to [s'] with free pages
    [l'], only the pages of the page table [root] and pages taken from the free
    list have changed, and every table page is still where it was. *)
Record pt_step (root : Z) (s : kstate) (l : list Z) (s' : kstate) (l' : list Z) : Prop := {
  step_state : s' = set_freelist (freelist s') (set_mem (mem s') s);
  step_alloc : alloc_inv s' l';
  step_pt : pt_inv (mem s') root l';
  step_free : exists used, l = used ++ l';
  step_used : forall q, q ∈ l -> q ∈ l' \/ exists path, path_ok path /\ pt_page (mem s') root path = Some q;
  step_keep : forall path p, path_ok path ->
    pt_page (mem s) root path = Some p -> pt_page (mem s') root path = Some p;
  step_new : forall path p, path_ok path ->
    pt_page (mem s') root path = Some p -> pt_page (mem s) root path = Some p \/ p ∈ l;
  step_frame : forall q, q mod PGSIZE = 0 -> q ∉ l ->
    (forall path, path_ok path -> pt_page (mem s) root path <> Some q) ->
    same_page (mem s) (mem s') q
}.

Lemma pt_step_refl root s l : alloc_inv s l -> pt_inv (mem s) root l -> pt_step root s l s l.
Proof.
  intros Ha Hp. split; [by destruct s|done|done|by exists []|by left|done|by left|done].
Qed.

Lemma pt_step_trans root s1 l1 s2 l2 s3 l3 :
  pt_step root s1 l1 s2 l2 -> pt_step root s2 l2 s3 l3 -> pt_step root s1 l1 s3 l3.
Proof.
  intros [E1 A1 P1 [u1 U1] W1 K1 N1 F1] [E2 A2 P2 [u2 U2] W2 K2 N2 F2].
  assert (Hin : forall q, q ∈ l2 -> q ∈ l1) by (intros q; rewrite U1, elem_of_app; by right).
  split; [|done|done| | |by auto| |].
  - rewrite E2, E1. by fields.
  - exists (u1 ++ u2). by rewrite U1, U2, app_assoc.
  - intros q Hq. destruct (W1 q Hq) as [|(path & Hok & Hp)]; [by auto|]. right. eauto.
  - intros path p Hok Hp. destruct (N2 path p Hok Hp) as [Hp'|]; [|by auto].
    by apply N1.
  - intros q Hq Hnl Hnp. eapply same_page_trans; [by apply F1|].
    apply F2; [done|by auto|]. intros path Hok Hp.
    destruct (N1 path q Hok Hp) as [Hp'|]; [|done]. by eapply Hnp.
Qed.

(** Linking the zeroed page [n] at entry [i] of the table [p]. *)
Record linked (m m' : memory) (p i n : Z) : Prop := {
  link_other : forall q, q mod PGSIZE = 0 -> q <> n -> q <> p -> same_page m m' q;
  link_rest : forall j, 0 <= j < 512 -> j <> i -> ld64 m' (p + 8 * j) = ld64 m (p + 8 * j);
  link_entry : entry m' p i = Some n;
  link_zero : forall j, 0 <= j < 512 -> ld64 m' (n + 8 * j) = 0
}.

Lemma zero_entry m p i : ld64 m (p + 8 * i) = 0 -> entry m p i = None.
Proof. unfold entry. intros ->. done. Qed.

Lemma ld64_entry_same m m' p i :
  same_page m m' p -> 0 <= i < 512 -> ld64 m' (p + 8 * i) = ld64 m (p + 8 * i).
Proof. intros Hs Hi. symmetry. apply (ld64_same_page m m' p _ (8 * i)); [done|done|lia|clia]. Qed.

Section Link.
Context (m m' : memory) (root : Z) (l : list Z) (path : list Z) (p i n : Z).
Hypothesis Hinv : pt_inv m root (n :: l).
Hypothesis Hok : path_ok (path ++ [i]).
Hypothesis Hp : pt_page m root path = Some p.
Hypothesis Hnone : entry m p i = None.
Hypothesis Hlink : linked m m' p i n.

Lemma Hok_path : path_ok path.
Proof. by eapply path_ok_app. Qed.

Lemma link_entry_other q p0 j : path_ok (q ++ [j]) -> pt_page m root q = Some p0 ->
  q ++ [j] <> path ++ [i] -> entry m' p0 j = entry m p0 j.
Proof.
  intros Hq Hp0 Hne. pose proof (path_ok_app _ _ Hq) as Hq0.
  pose proof (path_ok_last _ _ Hq) as Hj.
  destruct (pt_pages _ _ _ Hinv q p0 Hq0 Hp0) as [[Hal _] Hnl].
  unfold entry. destruct (decide (p0 = p)) as [->|Hpp].
  - assert (q = path) as -> by (eapply (pt_inj _ _ _ Hinv); eauto using Hok_path).
    rewrite (link_rest _ _ _ _ _ Hlink j); [done|done|]. by intros ->.
  - rewrite (ld64_entry_same m m' p0 j); [done| |done].
    apply (link_other _ _ _ _ _ Hlink); [done|set_solver|done].
Qed.

Lemma link_pages q : path_ok q ->
  pt_page m' root q = if decide (q = path ++ [i]) then Some n else pt_page m root q.
Proof.
  induction q as [|j q IH] using rev_ind; intros Hq.
  - rewrite decide_False; [done|]. by destruct path.
  - pose proof (path_ok_app _ _ Hq) as Hq0. rewrite !pt_page_snoc, IH by done.
    pose proof (path_ok_last _ _ Hq) as Hj.
    destruct (decide (q = path ++ [i])) as [->|Hqne].
    + rewrite decide_False; [|intros E; apply (f_equal length) in E; rewrite !length_app in E; simpl in E; lia].
      rewrite pt_page_snoc, Hp. cbn. rewrite Hnone. cbn.
      by apply zero_entry, (link_zero _ _ _ _ _ Hlink).
    + destruct (decide (q ++ [j] = path ++ [i])) as [E|Hne].
      * apply app_inj_tail in E as [-> ->]. rewrite Hp. cbn. apply (link_entry _ _ _ _ _ Hlink).
      * destruct (pt_page m root q) as [p0|] eqn:Hp0; [|done]. cbn. by eapply link_entry_other.
Qed.

Lemma link_pt_inv : page_ok n -> n ∉ l -> pt_inv m' root l.
Proof.
  intros Hn Hnl. split.
  - intros q q0 Hq. rewrite link_pages by done. destruct (decide _) as [->|].
    + by intros [= <-].
    + intros Hq0. destruct (pt_pages _ _ _ Hinv q q0 Hq Hq0). set_solver.
  - intros q q' x Hq Hq'. rewrite !link_pages by done.
    assert (Hfresh : forall r, path_ok r -> pt_page m root r <> Some n).
    { intros r Hr Hr'. destruct (pt_pages _ _ _ Hinv r n Hr Hr'). set_solver. }
    destruct (decide (q = _)) as [->|], (decide (q' = _)) as [->|]; intros E1 E2; simplify_eq;
      try done; try (by exfalso; eapply Hfresh; [|eauto]). by eapply (pt_inj _ _ _ Hinv).
Qed.

Lemma link_leaf va : (length path <= 1)%nat -> leaf_pte m' root va = leaf_pte m root va.
Proof.
  intros Hlen. assert (Hva : path_ok [PX 2 va; PX 1 va]).
  { split; [simpl; lia|]. repeat apply Forall_cons_2; try apply PX_range; try done; lia. }
  unfold leaf_pte, leaf_addr. rewrite link_pages by done.
  destruct (decide _) as [E|Hne].
  - rewrite E, pt_page_snoc, Hp. cbn. rewrite Hnone. cbn.
    apply (link_zero _ _ _ _ _ Hlink), PX_range. lia.
  - destruct (pt_page m root [PX 2 va; PX 1 va]) as [p0|] eqn:Hp0; [|done]. cbn [fmap option_fmap option_map].
    destruct (pt_pages _ _ _ Hinv _ p0 Hva Hp0) as [[Hal _] Hnl].
    apply (ld64_entry_same m m'); [|apply PX_range; lia].
    apply (link_other _ _ _ _ _ Hlink); [done|set_solver|]. intros ->.
    assert (E : [PX 2 va; PX 1 va] = path) by (eapply (pt_inj _ _ _ Hinv); eauto using Hok_path).
    rewrite <- E in Hlen. simpl in Hlen. lia.
Qed.
End Link.

Lemma page_ok_56 pa : image_ok -> page_ok pa -> 0 <= pa < 2 ^ 56.
Proof. intros Hi Hp. pose proof (page_ok_range pa Hi Hp). clia. Qed.

Lemma link_pte n : Z.lor (PA2PTE n) PTE_V = make_pte n 0.
Proof. unfold make_pte. by rewrite Z.lor_0_r. Qed.

Lemma ld64_memset_zero m p i : 0 <= i < 512 -> ld64 (memset m p 0 PGSIZE) (p + 8 * i) = 0.
Proof.
  intros Hi. rewrite (ld64_ext _ ∅ _ 0); [reflexivity|]. intros j Hj.
  rewrite ld8_memset by clia.
  destruct (Z.leb_spec p (p + 8 * i + j)), (Z.ltb_spec (p + 8 * i + j) (p + PGSIZE));
    cbn [andb]; try clia. reflexivity.
Qed.

Lemma same_page_entry m p i q v : p mod PGSIZE = 0 -> q mod PGSIZE = 0 -> p <> q -> 0 <= i < 512 ->
  same_page m (st64 m (p + 8 * i) v) q.
Proof.
  intros Hp Hq Hne Hi j Hj. destruct (pages_apart p q Hp Hq Hne); rewrite ld8_st64_out by clia; done.
Qed.

(** What [walk] does to memory when it adds a table. *)
Definition link_mem (m : memory) (p i n : Z) : memory :=
  st64 (memset (memset m n 5 PGSIZE) n 0 PGSIZE) (p + 8 * i) (make_pte n 0).

Lemma link_mem_other m p i n q : p mod PGSIZE = 0 -> n mod PGSIZE = 0 -> q mod PGSIZE = 0 ->
  0 <= i < 512 -> q <> n -> q <> p -> same_page m (link_mem m p i n) q.
Proof.
  intros. unfold link_mem. eapply same_page_trans; [apply (same_page_memset m n q 5); done|].
  eapply same_page_trans; [apply (same_page_memset _ n q 0); done|].
  by apply same_page_entry.
Qed.

Lemma link_mem_taken m p i n q : p mod PGSIZE = 0 -> n mod PGSIZE = 0 -> q mod PGSIZE = 0 ->
  0 <= i < 512 -> q <> n -> q <> p -> same_page (memset m n 5 PGSIZE) (link_mem m p i n) q.
Proof.
  intros. unfold link_mem. eapply same_page_trans; [apply (same_page_memset _ n q 0); done|].
  by apply same_page_entry.
Qed.

Lemma link_mem_linked m p i n : image_ok -> page_ok p -> page_ok n -> n <> p -> 0 <= i < 512 ->
  linked m (link_mem m p i n) p i n.
Proof.
  intros Hi [Hp Hpr] [Hn Hnr] Hne Hir.
  pose proof (page_ok_56 n Hi (conj Hn Hnr)) as Hn56.
  split.
  - intros q Hq Hqn Hqp. by apply link_mem_other.
  - intros j Hj Hji. unfold link_mem. rewrite ld64_st64_out by lia.
    symmetry. eapply (ld64_same_page _ _ p _ (8 * j)); [|done|lia|clia].
    eapply same_page_trans; apply same_page_memset; done.
  - unfold entry, link_mem. rewrite ld64_st64_same by (apply make_pte_range; lia).
    rewrite make_pte_valid, make_pte_pa by (done || lia). done.
  - intros j Hj. unfold link_mem.
    rewrite ld64_st64_out by (apply entry_apart; auto). by apply ld64_memset_zero.
Qed.

Lemma link_mem_bytes m p i n : mem_bytes m -> mem_bytes (link_mem m p i n).
Proof. intros. unfold link_mem. apply st64_bytes, memset_bytes, memset_bytes; (done || clia). Qed.

Lemma pt_step_link root s s' l path p i n :
  image_ok -> pt_inv (mem s) root (n :: l) -> alloc_inv s (n :: l) -> path_ok (path ++ [i]) ->
  pt_page (mem s) root path = Some p -> entry (mem s) p i = None ->
  page_ok n -> n ∉ l ->
  s' = set_freelist (freelist s') (set_mem (link_mem (mem s) p i n) s) -> alloc_inv s' l ->
  (length path <= 1)%nat ->
  pt_step root s (n :: l) s' l /\ pt_page (mem s') root (path ++ [i]) = Some n /\
  (forall va', leaf_pte (mem s') root va' = leaf_pte (mem s) root va').
Proof.
  intros Himg Hinv Halloc Hok Hp Hnone Hn Hnl Es Halloc' Hlen.
  destruct (pt_pages _ _ _ Hinv path p (path_ok_app _ _ Hok) Hp) as [Hpok Hpn].
  assert (Hlink : linked (mem s) (link_mem (mem s) p i n) p i n).
  { apply link_mem_linked; try done; [set_solver|by eapply path_ok_last]. }
  assert (Em : mem s' = link_mem (mem s) p i n) by (rewrite Es; by fields).
  assert (Hpg := link_pages _ _ _ _ _ _ _ _ Hinv Hok Hp Hnone Hlink). rewrite <- Em in Hlink, Hpg, Es.
  split; [|split; [by rewrite Hpg, decide_True|intros; by eapply link_leaf]].
  split; [done|done|by eapply link_pt_inv|by exists [n]| | | |].
  - intros q [->|Hq]%elem_of_cons; [right|by left]. exists (path ++ [i]). split; [done|].
    by rewrite Hpg, decide_True.
  - intros q q0 Hq Hq0. rewrite Hpg by done. destruct (decide _) as [->|]; [|done].
    rewrite pt_page_snoc, Hp in Hq0. cbn in Hq0. congruence.
  - intros q q0 Hq. rewrite Hpg by done. destruct (decide _); [|by left].
    intros [= <-]. right. by left.
  - intros q Hq Hql Hqp. apply (link_other _ _ _ _ _ Hlink); [done|intros ->; apply Hql; by left|].
    intros ->. by apply (Hqp path); [eapply path_ok_app|].
Qed.

Lemma wp_walk_level root s l path p level va :
  image_ok -> alloc_inv s l -> pt_inv (mem s) root l ->
  path_ok (path ++ [PX level va]) -> (length path <= 1)%nat -> pt_page (mem s) root path = Some p ->
  wp (walk_level p level va true) (fun r s' =>
    match r with
    | None => l = [] /\ s' = s
    | Some p' => exists l', pt_step root s l s' l' /\ (length l <= length l' + 1)%nat /\
        pt_page (mem s') root (path ++ [PX level va]) = Some p' /\
        (forall va', leaf_pte (mem s') root va' = leaf_pte (mem s) root va')
    end) s.
Proof.
  intros Himg Halloc Hinv Hok Hlen Hp. unfold walk_level, ldm64, stm64, modify_mem. wsteps.
  destruct (has (ld64 (mem s) (p + 8 * PX level va)) PTE_V) eqn:Hv.
  - wsteps. exists l. split; [by apply pt_step_refl|]. split; [lia|]. split; [|done].
    rewrite pt_page_snoc, Hp. cbn. unfold entry. by rewrite Hv.
  - cbn [negb]. wstep. assert (Hnone : entry (mem s) p (PX level va) = None) by (unfold entry; by rewrite Hv).
    destruct l as [|n l]; [by apply wp_kalloc_nil|].
    eapply wp_kalloc_cons; [done|exact Halloc|]. intros Ha Hn Hnl.
    rewrite (proj2 (Z.eqb_neq _ _) (page_ok_nonzero n Himg Hn)). wsteps. exists l. rewrite link_pte.
    destruct (pt_pages _ _ _ Hinv path p (path_ok_app _ _ Hok) Hp) as [[Hpal _] Hpn].
    match goal with |- pt_step _ _ _ ?t _ /\ _ => set (s' := t) end.
    assert (Em : mem s' = link_mem (mem s) p (PX level va) n) by (unfold s', link_mem; by fields).
    assert (Es : s' = set_freelist (freelist s') (set_mem (link_mem (mem s) p (PX level va) n) s))
      by (rewrite <- Em; unfold s'; by fields).
    assert (Es' : s' = set_mem (mem s') (set_freelist (ld64 (mem s) n)
        (set_mem (memset (mem s) n 5 PGSIZE) s))) by (unfold s'; by fields).
    clearbody s'.
    destruct (pt_step_link root s s' l path p (PX level va) n) as (Hst & Hpg & Hlf); try assumption.
    + rewrite Es'.
      apply alloc_inv_mem; [done|rewrite Em; apply link_mem_bytes, Halloc|].
      intros q Hq. rewrite Em. fields. destruct (proj1 (Forall_forall _ _) (alloc_pages _ _ Ha) q Hq) as [Hqal _].
      apply link_mem_taken; [done|apply Hn|done|by eapply path_ok_last| |].
      * intros ->. by apply Hnl.
      * intros ->. apply Hpn. by right.
    + split; [exact Hst|]. split; [simpl; lia|]. exact (conj Hpg Hlf).
Qed.

Lemma path_ok_va va : path_ok [PX 2 va; PX 1 va].
Proof. split; [simpl; lia|]. repeat apply Forall_cons_2; try apply PX_range; try done; lia. Qed.

Lemma leaf_addr_nonzero m root l va a :
  image_ok -> pt_inv m root l -> leaf_addr m root va = Some a -> a <> 0.
Proof.
  intros Himg Hinv Ha. unfold leaf_addr in Ha.
  apply fmap_Some in Ha as (p & Hp & ->).
  destruct (pt_pages _ _ _ Hinv _ p (path_ok_va va) Hp) as [Hok _].
  pose proof (page_ok_range p Himg Hok). pose proof (PX_range 0 va). clia.
Qed.

(** [walk] with allocation returns the entry's address and changes no mapping; it
    returns 0 only when the free pages are used up. *)
Lemma wp_walk_alloc root s l va :
  image_ok -> alloc_inv s l -> pt_inv (mem s) root l -> 0 <= va < MAXVA ->
  wp (walk root va true) (fun r s' => exists l',
    pt_step root s l s' l' /\
    (forall va', leaf_pte (mem s') root va' = leaf_pte (mem s) root va') /\
    ((r = 0 /\ l' = [] /\ (length l <= 1)%nat) \/
     (leaf_addr (mem s') root va = Some r /\ (length l <= length l' + 2)%nat))) s.
Proof.
  intros Himg Ha Hi Hva. unfold walk. rewrite (proj2 (Z.leb_gt _ _)) by lia. cbn [walk_loop].
  pose proof (path_ok_va va) as Hok. repeat wstep.
  eapply wp_mono; [apply (wp_walk_level root s l [] root 2 va); try done; [|simpl; lia]|].
  { split; [simpl; lia|]. apply Forall_singleton, PX_range. lia. }
  cbn [app]. intros [p1|] s1.
  - intros (l1 & Hst1 & Hc1 & Hp1 & Hlf1). wsteps.
    eapply wp_mono; [apply (wp_walk_level root s1 l1 [PX 2 va] p1 1 va); try done; try apply Hst1|].
    cbn [app]. intros [p0|] s2.
    + intros (l2 & Hst2 & Hc2 & Hp2 & Hlf2). wsteps. exists l2.
      split; [by eapply pt_step_trans|]. split; [intros; by rewrite Hlf2|].
      right. unfold leaf_addr. rewrite Hp2. split; [done|lia].
    + intros [-> ->]. wsteps. exists []. split; [done|]. split; [done|]. left. by simpl in Hc1.
  - intros [-> ->]. wsteps. exists []. split; [by apply pt_step_refl|]. split; [done|]. left. simpl; auto with lia.
Qed.

(** [walk] without allocation is a function of the memory. *)
Lemma walk_noalloc root va s : va < MAXVA ->
  walk root va false s = Ok (default 0 (leaf_addr (mem s) root va)) s.
Proof.
  intros Hva. unfold walk. rewrite (proj2 (Z.leb_gt _ _)) by lia.
  unfold leaf_addr. cbn [walk_loop pt_page]. unfold walk_level, ldm64, entry, bind, gets.
  destruct (has (ld64 (mem s) (root + 8 * PX 2 va)) PTE_V); [|done]. cbn.
  destruct (has (ld64 (mem s) (PTE2PA (ld64 (mem s) (root + 8 * PX 2 va)) + 8 * PX 1 va)) PTE_V); done.
Qed.

(** Storing a last-level entry changes the mapping of its page only. *)
Section Leaf.
Context (m : memory) (root : Z) (l : list Z) (va a v : Z).
Hypothesis Hinv : pt_inv m root l.
Hypothesis Ha : leaf_addr m root va = Some a.
Hypothesis Hv : 0 <= v < 2 ^ 64.

Lemma leaf_addr_page : exists p, pt_page m root [PX 2 va; PX 1 va] = Some p /\
  a = p + 8 * PX 0 va /\ page_ok p /\ p ∉ l.
Proof.
  unfold leaf_addr in Ha. apply fmap_Some in Ha as (p & Hp & ->). exists p.
  split; [done|]. split; [done|]. by apply (pt_pages _ _ _ Hinv) with (path := [PX 2 va; PX 1 va]);
    [apply path_ok_va|].
Qed.

Lemma leaf_store_pages q : path_ok q -> pt_page (st64 m a v) root q = pt_page m root q.
Proof.
  intros Hq. apply pt_page_frame. intros q1 j q2 p1 -> Hp1.
  destruct leaf_addr_page as (p & Hp & -> & [Hal _] & _).
  assert (Hq1 : path_ok (q1 ++ [j])).
  { apply (path_ok_app _ q2). by rewrite <- app_assoc. }
  destruct (pt_pages _ _ _ Hinv q1 p1 (path_ok_app _ _ Hq1) Hp1) as [[Hal1 _] _].
  apply ld64_st64_out. apply entry_apart; [done|done|by eapply path_ok_last|apply PX_range; lia|].
  left. intros ->. assert (E : q1 = [PX 2 va; PX 1 va]).
  { eapply (pt_inj _ _ _ Hinv); [by eapply path_ok_app|apply path_ok_va|done|done]. }
  destruct Hq1 as [Hlen _]. rewrite E in Hlen. simpl in Hlen. lia.
Qed.

Lemma leaf_store_inv : pt_inv (st64 m a v) root l.
Proof.
  split.
  - intros q p Hq. rewrite leaf_store_pages by done. by apply (pt_pages _ _ _ Hinv).
  - intros q q' p Hq Hq'. rewrite !leaf_store_pages by done. by apply (pt_inj _ _ _ Hinv).
Qed.

Lemma leaf_store_pte va' : 0 <= va < MAXVA -> 0 <= va' < MAXVA ->
  leaf_pte (st64 m a v) root va' =
  if va' / PGSIZE =? va / PGSIZE then v else leaf_pte m root va'.
Proof.
  intros Hva Hva'. unfold leaf_pte, leaf_addr at 1. rewrite leaf_store_pages by apply path_ok_va.
  destruct leaf_addr_page as (p & Hp & -> & [Hal _] & _).
  destruct (Z.eqb_spec (va' / PGSIZE) (va / PGSIZE)) as [E|Hne].
  - rewrite <- (PX_page 2 va'), <- (PX_page 1 va'), <- (PX_page 0 va'), E, !PX_page, Hp by lia.
    cbn. by apply ld64_st64_same.
  - unfold leaf_addr. destruct (pt_page m root [PX 2 va'; PX 1 va']) as [p'|] eqn:Hp'; [|done]. cbn.
    destruct (pt_pages _ _ _ Hinv _ p' (path_ok_va va') Hp') as [[Hal' _] _].
    apply ld64_st64_out, entry_apart; [done|done|apply PX_range; lia..|].
    destruct (decide (p' = p)) as [->|]; [|by left]. right. intros E.
    apply Hne. assert (El : [PX 2 va'; PX 1 va'] = [PX 2 va; PX 1 va])
      by (eapply (pt_inj _ _ _ Hinv); eauto using path_ok_va).
    apply PX_inj; congruence.
Qed.

Lemma leaf_store_frame q : q mod PGSIZE = 0 ->
  (forall path, path_ok path -> pt_page m root path <> Some q) -> same_page m (st64 m a v) q.
Proof.
  intros Hq Hnp. destruct leaf_addr_page as (p & Hp & -> & [Hal _] & _).
  apply same_page_entry; [done|done| |apply PX_range; lia].
  intros ->. by apply (Hnp [PX 2 va; PX 1 va]); [apply path_ok_va|].
Qed.
End Leaf.

Lemma pt_step_leaf root s l va a v :
  alloc_inv s l -> pt_inv (mem s) root l -> leaf_addr (mem s) root va = Some a ->
  pt_step root s l (set_mem (st64 (mem s) a v) s) l.
Proof.
  intros Hal Hinv Ha.
  pose proof (leaf_store_pages _ _ _ _ _ v Hinv Ha) as Hpg.
  pose proof (leaf_store_frame _ _ _ _ _ v Hinv Ha) as Hfr.
  split; fields; [done| |by eapply leaf_store_inv|by exists []|by left| | |].
  - apply alloc_inv_mem; [done|apply st64_bytes, Hal|]. intros q Hq. apply Hfr.
    + by apply (proj1 (Forall_forall _ _) (alloc_pages _ _ Hal) q Hq).
    + intros path Hok Hp. by destruct (pt_pages _ _ _ Hinv path q Hok Hp).
  - intros path p Hok. by rewrite Hpg.
  - intros path p Hok. rewrite Hpg by done. by left.
  - intros q Hq _ Hnp. by apply Hfr.
Qed.

(** ** Mapping a range

    [mapped pn n pa perm old] is the mapping [old] with the [n] pages from page
    number [pn] on mapped to consecutive pages from [pa] on. *)
Definition mapped (pn n pa perm : Z) (old : Z -> Z) (va : Z) : Z :=
  if (pn <=? va / PGSIZE) && (va / PGSIZE <? pn + n)
  then make_pte (pa + (va / PGSIZE - pn) * PGSIZE) perm else old va.

Lemma mapped_0 pn pa perm old va : mapped pn 0 pa perm old va = old va.
Proof.
  unfold mapped. destruct (Z.leb_spec pn (va / PGSIZE)), (Z.ltb_spec (va / PGSIZE) (pn + 0));
    cbn [andb]; (lia || done).
Qed.

Lemma mapped_S pn k pa perm old va : 0 <= k ->
  mapped pn (k + 1) pa perm old va =
  if va / PGSIZE =? pn + k then make_pte (pa + k * PGSIZE) perm else mapped pn k pa perm old va.
Proof.
  intros Hk. unfold mapped. destruct (Z.eqb_spec (va / PGSIZE) (pn + k)) as [->|].
  - rewrite (proj2 (Z.leb_le _ _)), (proj2 (Z.ltb_lt _ _)) by lia. cbn [andb]. f_equal. lia.
  - destruct (Z.leb_spec pn (va / PGSIZE)), (Z.ltb_spec (va / PGSIZE) (pn + (k + 1))),
      (Z.ltb_spec (va / PGSIZE) (pn + k)); cbn [andb]; (lia || done).
Qed.

(** What [mappages] promises after mapping [k] pages. *)
Record maps (root : Z) (s : kstate) (l : list Z) (pn k pa perm : Z) (s' : kstate) (l' : list Z) : Prop := {
  maps_step : pt_step root s l s' l';
  maps_leaf : forall va, 0 <= va < MAXVA ->
    leaf_pte (mem s') root va = mapped pn k pa perm (leaf_pte (mem s) root) va
}.

Lemma wp_map_page root s l pn k pa perm s1 l1 :
  image_ok -> maps root s l pn k pa perm s1 l1 -> Z.of_nat (length l) <= Z.of_nat (length l1) + 2 * k ->
  0 <= k -> 0 <= pn ->
  (pn + k) * PGSIZE < MAXVA -> 0 <= pa + k * PGSIZE < 2 ^ 56 -> 0 <= perm < 1024 ->
  has (leaf_pte (mem s) root ((pn + k) * PGSIZE)) PTE_V = false ->
  wp (map_page root ((pn + k) * PGSIZE) (pa + k * PGSIZE) perm) (fun r s' =>
    (r = -1 /\ maps root s l pn k pa perm s' [] /\ Z.of_nat (length l) <= 2 * k + 1) \/
    (r = 0 /\ exists l', maps root s l pn (k + 1) pa perm s' l' /\
       Z.of_nat (length l) <= Z.of_nat (length l') + 2 * (k + 1))) s1.
Proof.
  intros Himg [Hst Hlf] Hc Hk Hpn Hva Hpa Hperm Hun. unfold map_page.
  assert (Hva0 : 0 <= (pn + k) * PGSIZE < MAXVA) by clia. wstep.
  eapply wp_mono; [apply (wp_walk_alloc root s1 l1); try done; apply Hst|]. cbv beta.
  intros a s2 (l2 & Hst2 & Hlf2 & Hr). pose proof (pt_step_trans _ _ _ _ _ _ _ Hst Hst2) as Hst02.
  assert (Hl02 : forall va, 0 <= va < MAXVA ->
            leaf_pte (mem s2) root va = mapped pn k pa perm (leaf_pte (mem s) root) va)
    by (intros; rewrite Hlf2; auto).
  destruct Hr as [(-> & -> & Hc2)|[Ha Hc2]]; [apply wp_ret; left; split; [done|split; [done|lia]]|].
  rewrite (proj2 (Z.eqb_neq _ _)) by (eapply leaf_addr_nonzero; [done|apply Hst2|done]).
  unfold ldm64, stm64, modify_mem. wsteps.
  assert (E : ld64 (mem s2) a = leaf_pte (mem s) root ((pn + k) * PGSIZE)).
  { assert (leaf_pte (mem s2) root ((pn + k) * PGSIZE) = ld64 (mem s2) a) as <-
      by (unfold leaf_pte; by rewrite Ha).
    rewrite Hl02 by done. unfold mapped. rewrite Z.div_mul by clia.
    rewrite (proj2 (Z.ltb_ge (pn + k) (pn + k))), andb_false_r by lia. done. }
  rewrite E, Hun. wsteps. right. split; [done|]. exists l2. split; [|lia].
  change (Z.lor (Z.lor (PA2PTE (pa + k * PGSIZE)) perm) PTE_V) with (make_pte (pa + k * PGSIZE) perm).
  pose proof (pt_step_leaf root s2 l2 _ a (make_pte (pa + k * PGSIZE) perm)
                (step_alloc _ _ _ _ _ Hst2) (step_pt _ _ _ _ _ Hst2) Ha) as Hst3.
  split; [by eapply pt_step_trans|]. intros va Hva'. fields.
  rewrite (leaf_store_pte _ _ l2 ((pn + k) * PGSIZE) a _ (step_pt _ _ _ _ _ Hst2) Ha); try done.
  - rewrite Z.div_mul, mapped_S by clia. by rewrite Hl02.
  - by apply make_pte_range.
Qed.

(** The number of pages that [va, va + size) touches. *)
Definition span (va size : Z) : Z := (va + size - 1) / PGSIZE - va / PGSIZE + 1.

Lemma wp_mappages root s l va size pa perm :
  image_ok -> alloc_inv s l -> pt_inv (mem s) root l ->
  0 <= va -> 0 < size -> va + size <= MAXVA -> 0 <= pa -> pa + span va size * PGSIZE <= 2 ^ 56 ->
  0 <= perm < 1024 ->
  (forall va', 0 <= va' < MAXVA -> va / PGSIZE <= va' / PGSIZE < va / PGSIZE + span va size ->
     has (leaf_pte (mem s) root va') PTE_V = false) ->
  wp (mappages root va size pa perm) (fun r s' => exists l' k,
    maps root s l (va / PGSIZE) k pa perm s' l' /\
    ((r = 0 /\ k = span va size /\ Z.of_nat (length l) <= Z.of_nat (length l') + 2 * k) \/
     (r = -1 /\ l' = [] /\ 0 <= k < span va size /\ Z.of_nat (length l) < 2 * span va size))) s.
Proof.
  intros Himg Hal Hinv Hva Hsz Hmax Hpa Hpa' Hperm Hun. unfold mappages.
  rewrite (u64_id (va + size - 1)), !PGROUNDDOWN_spec by clia.
  set (pn := va / PGSIZE) in *. set (N := span va size) in *.
  assert (Hpn : 0 <= pn) by (unfold pn; consts; zdm).
  assert (HN : 0 < N /\ (va + size - 1) / PGSIZE = pn + (N - 1) /\ (pn + N - 1) * PGSIZE < MAXVA).
  { unfold N, span, pn. split; [|split; [lia|]]; consts; zdm. }
  destruct HN as (HN & -> & HNmax).
  rewrite (u64_id ((pn + (N - 1)) * PGSIZE - pn * PGSIZE)) by clia.
  replace ((pn + (N - 1)) * PGSIZE - pn * PGSIZE) with ((N - 1) * PGSIZE) by lia.
  rewrite Z.div_mul by clia.
  apply (wp_iter _ (fun '(a, pa') s' => exists k l', 0 <= k < N /\ a = (pn + k) * PGSIZE /\
            pa' = pa + k * PGSIZE /\ maps root s l pn k pa perm s' l' /\
            Z.of_nat (length l) <= Z.of_nat (length l') + 2 * k)
          _ (fun '(a, _) _ => Z.to_nat (pn + (N - 1) - a / PGSIZE))).
  - exists 0, l. split; [lia|]. split; [lia|]. split; [lia|].
    split; [|lia]. split; [by apply pt_step_refl|]. intros. by rewrite mapped_0.
  - rewrite Z.div_mul by clia. lia.
  - intros [a pa'] s1 (k & l1 & Hk & -> & -> & Hm & Hc). wstep.
    eapply wp_mono; [apply (wp_map_page root s l pn k pa perm s1 l1); try done; try clia|].
    { apply Hun; [clia|]. rewrite Z.div_mul by clia. lia. }
    cbv beta. intros r s2 [(-> & Hm2 & Hc2)|[-> (l2 & Hm2 & Hc2)]]; cbn [negb Z.eqb].
    + wsteps. exists [], k. split; [done|]. right. auto with lia.
    + destruct (Z.eqb_spec ((pn + k) * PGSIZE) ((pn + (N - 1)) * PGSIZE)) as [E|E]; wsteps.
      * exists l2, N. replace N with (k + 1) by clia. eauto.
      * assert (k <> N - 1) by (by intros ->). rewrite !u64_id by clia.
        replace ((pn + k) * PGSIZE + PGSIZE) with ((pn + (k + 1)) * PGSIZE) by lia.
        split; [|rewrite !Z.div_mul by clia; lia].
        exists (k + 1), l2. split; [lia|]. split; [done|]. split; [lia|done].
Qed.

Lemma walk_present root va s l a : image_ok -> pt_inv (mem s) root l -> va < MAXVA ->
  leaf_addr (mem s) root va = Some a -> walk root va true s = Ok a s.
Proof.
  intros Himg Hinv Hva Ha. rewrite <- (f_equal (default 0) Ha) at 1.
  rewrite <- walk_noalloc by done. unfold walk. rewrite (proj2 (Z.leb_gt _ _)) by lia.
  unfold leaf_addr in Ha. cbn [pt_page] in Ha. unfold entry in Ha. cbn [walk_loop].
  unfold walk_level, ldm64, bind, gets.
  destruct (has (ld64 (mem s) (root + 8 * PX 2 va)) PTE_V); [|done]. cbn in Ha |- *.
  destruct (has (ld64 (mem s) (PTE2PA (ld64 (mem s) (root + 8 * PX 2 va)) + 8 * PX 1 va)) PTE_V); done.
Qed.

(** ** Properties *)

(** C25: [mappages] on a range of pages that are not mapped either maps exactly
    the pages the range touches to consecutive physical pages with the given
    permissions and returns 0, or runs out of memory (there were fewer than two
    free pages for each page to map) and returns -1 with a proper prefix of them
    mapped; every other mapping of the page table, and every page
    that is neither free nor part of the page table, is unchanged. *)
Theorem mappages_spec (root : Z) (s : kstate) (l : list Z) (va size pa perm : Z) :
  image_ok -> alloc_inv s l -> pt_inv (mem s) root l ->
  0 <= va -> 0 < size -> va + size <= MAXVA -> 0 <= pa -> pa + span va size * PGSIZE <= 2 ^ 56 ->
  0 <= perm < 1024 ->
  (forall va', 0 <= va' < MAXVA -> va / PGSIZE <= va' / PGSIZE < va / PGSIZE + span va size ->
     has (leaf_pte (mem s) root va') PTE_V = false) ->
  exists r s' l' k, mappages root va size pa perm s = Ok r s' /\
    ((r = 0 /\ k = span va size) \/
     (r = -1 /\ l' = [] /\ 0 <= k < span va size /\ Z.of_nat (length l) < 2 * span va size)) /\
    (forall va', 0 <= va' < MAXVA ->
       leaf_pte (mem s') root va' = mapped (va / PGSIZE) k pa perm (leaf_pte (mem s) root) va') /\
    pt_inv (mem s') root l' /\ alloc_inv s' l' /\
    (forall q, q mod PGSIZE = 0 -> q ∉ l ->
       (forall path, path_ok path -> pt_page (mem s) root path <> Some q) ->
       same_page (mem s) (mem s') q).
Proof.
  intros. destruct (wp_run _ _ _ (wp_mappages root s l va size pa perm ltac:(done) ltac:(done)
    ltac:(done) ltac:(done) ltac:(done) ltac:(done) ltac:(done) ltac:(done) ltac:(done) ltac:(done)))
    as (r & s' & Hr & l' & k & [[] Hlf] & Hk).
  exists r, s', l', k. intuition auto.
Qed.

(** [mappages] never replaces a mapping: if the first page of the range is
    mapped already, it panics with "remap" before it writes anything. *)
Theorem mappages_remap (root : Z) (s : kstate) (l : list Z) (va size pa perm : Z) :
  image_ok -> pt_inv (mem s) root l -> 0 <= va < MAXVA ->
  has (leaf_pte (mem s) root va) PTE_V = true ->
  mappages root va size pa perm s = Panic "remap" s.
Proof.
  intros Himg Hinv Hva Hv. unfold mappages. cbn [iter]. apply bind_panic. apply bind_panic.
  rewrite PGROUNDDOWN_spec by clia. unfold leaf_pte in Hv.
  destruct (leaf_addr (mem s) root va) as [a|] eqn:Ha; [|done].
  assert (Ha' : leaf_addr (mem s) root (va / PGSIZE * PGSIZE) = Some a).
  { unfold leaf_addr in *. by rewrite !PX_page by lia. }
  unfold map_page. erewrite bind_ok; [|eapply walk_present; [done|done| |done]; consts; zdm].
  rewrite (proj2 (Z.eqb_neq _ _)) by (by eapply leaf_addr_nonzero).
  unfold ldm64, bind, gets. by rewrite Hv.
Qed.

(** An entry built from a page-aligned address and permission bits gives
    both back ([PTE2PA], [PTE_FLAGS]), and the three indices [walk] takes from a
    virtual address identify its page. *)
Theorem pte_roundtrip (pa perm va va' : Z) :
  0 <= pa < 2 ^ 56 -> pa mod PGSIZE = 0 -> 0 <= perm < 1024 ->
  0 <= va < MAXVA -> 0 <= va' < MAXVA ->
  let pte := Z.lor (Z.lor (PA2PTE pa) perm) PTE_V in
  PTE2PA pte = pa /\ PTE_FLAGS pte = Z.lor perm PTE_V /\
  ((PX 2 va = PX 2 va' /\ PX 1 va = PX 1 va' /\ PX 0 va = PX 0 va') <-> va / PGSIZE = va' / PGSIZE).
Proof.
  intros Hpa Hal Hperm Hva Hva' pte. split; [by apply make_pte_pa|].
  split; [by apply make_pte_flags|]. split.
  - intros (? & ? & ?). by apply PX_inj.
  - intros E. rewrite <- (PX_page 2 va), <- (PX_page 1 va), <- (PX_page 0 va), E, !PX_page by lia. done.
Qed.
End Vm.

(** ** A page table with an empty root and two free pages *)

Definition ex_root : Z := PHYSTOP - 4 * PGSIZE.
Definition ex_free : list Z := [PHYSTOP - PGSIZE; PHYSTOP - 2 * PGSIZE].
Definition ex_vm : kstate :=
  set_freelist (PHYSTOP - PGSIZE)
    (set_mem (st64 ∅ (PHYSTOP - PGSIZE) (PHYSTOP - 2 * PGSIZE)) zero_kstate).

Lemma empty_bytes : mem_bytes ∅.
Proof. intros a. vm_compute. split; congruence. Qed.

Lemma ex_vm_alloc : alloc_inv (H0 := ex_image) ex_vm ex_free.
Proof.
  split.
  - vm_compute. done.
  - repeat constructor; vm_compute; congruence.
  - apply NoDup_ListNoDup. repeat constructor; simpl; vm_compute; intuition congruence.
  - apply st64_bytes, empty_bytes.
  - exact settled_zero.
  - exists ""%string. reflexivity.
Qed.

Lemma ex_vm_entry i : 0 <= i < 512 -> entry (mem ex_vm) ex_root i = None.
Proof.
  intros Hi. apply zero_entry. unfold ex_vm. fields. rewrite ld64_st64_out by (left; unfold ex_root; clia).
  rewrite (ld64_ext _ ∅ _ 0); done.
Qed.

Lemma ex_vm_page path p : path_ok path -> pt_page (mem ex_vm) ex_root path = Some p -> path = [] /\ p = ex_root.
Proof.
  intros [_ Hf]. destruct path as [|i path]; [by intros [= <-]|].
  apply Forall_cons in Hf as [Hi _]. cbn [pt_page]. by rewrite ex_vm_entry.
Qed.

Lemma ex_vm_pt : pt_inv (H0 := ex_image) (mem ex_vm) ex_root ex_free.
Proof.
  split.
  - intros path p Hok Hp. destruct (ex_vm_page path p Hok Hp) as [_ ->].
    split; [vm_compute; intuition congruence|]. unfold ex_free.
    rewrite !not_elem_of_cons. split; [vm_compute; congruence|].
    split; [vm_compute; congruence|apply not_elem_of_nil].
  - intros path path' p Hok Hok' Hp Hp'. destruct (ex_vm_page path p Hok Hp) as [-> _].
    destruct (ex_vm_page path' p Hok' Hp') as [-> _]. done.
Qed.

Lemma ex_vm_leaf va : leaf_pte (mem ex_vm) ex_root va = 0.
Proof.
  unfold leaf_pte, leaf_addr. cbn [pt_page]. rewrite ex_vm_entry by (apply PX_range; lia). done.
Qed.

(** The same page table after both free pages were linked, and the page at virtual
    address [PGSIZE] mapped to the page [ex_user]. *)
Definition ex_user : Z := PHYSTOP - 3 * PGSIZE.
Definition ex_m1 : memory := link_mem (mem ex_vm) ex_root 0 (PHYSTOP - PGSIZE).
Definition ex_m2 : memory := link_mem ex_m1 (PHYSTOP - PGSIZE) 0 (PHYSTOP - 2 * PGSIZE).
Definition ex_m3 : memory :=
  st64 ex_m2 (PHYSTOP - 2 * PGSIZE + 8) (make_pte ex_user (Z.lor (Z.lor PTE_R PTE_W) PTE_U)).
Definition ex_mapped : kstate := set_mem ex_m3 zero_kstate.

Lemma ex_link1 : linked (mem ex_vm) ex_m1 ex_root 0 (PHYSTOP - PGSIZE).
Proof.
  apply (link_mem_linked (H0 := ex_image)); [exact ex_image_ok|..]; vm_compute; intuition congruence.
Qed.

Lemma ex_m1_page path : path_ok path ->
  pt_page ex_m1 ex_root path =
  if decide (path = [0]) then Some (PHYSTOP - PGSIZE) else pt_page (mem ex_vm) ex_root path.
Proof.
  intros Hok.
  apply (link_pages (H0 := ex_image) (mem ex_vm) ex_m1 ex_root [PHYSTOP - 2 * PGSIZE] [] ex_root 0 _
    ex_vm_pt); [|done|by apply ex_vm_entry|exact ex_link1|done].
  split; [simpl; lia|]. by apply Forall_singleton.
Qed.

Lemma ex_m1_pt : pt_inv (H0 := ex_image) ex_m1 ex_root [PHYSTOP - 2 * PGSIZE].
Proof.
  apply (link_pt_inv (H0 := ex_image) (mem ex_vm) ex_m1 ex_root [PHYSTOP - 2 * PGSIZE] [] ex_root 0
    (PHYSTOP - PGSIZE) ex_vm_pt); [|done|by apply ex_vm_entry|exact ex_link1|..].
  - split; [simpl; lia|]. by apply Forall_singleton.
  - vm_compute. intuition congruence.
  - rewrite list_elem_of_singleton. vm_compute. congruence.
Qed.

Lemma ex_m1_entry : entry ex_m1 (PHYSTOP - PGSIZE) 0 = None.
Proof. apply zero_entry, (link_zero _ _ _ _ _ ex_link1). lia. Qed.

Lemma ex_path_ok : path_ok [0; 0].
Proof. split; [simpl; lia|]. repeat (apply Forall_cons_2; [lia|]). apply Forall_nil_2. Qed.

Lemma ex_link2 : linked ex_m1 ex_m2 (PHYSTOP - PGSIZE) 0 (PHYSTOP - 2 * PGSIZE).
Proof.
  apply (link_mem_linked (H0 := ex_image)); [exact ex_image_ok|..]; vm_compute; intuition congruence.
Qed.

Lemma ex_m2_page path : path_ok path ->
  pt_page ex_m2 ex_root path =
  if decide (path = [0; 0]) then Some (PHYSTOP - 2 * PGSIZE) else pt_page ex_m1 ex_root path.
Proof.
  intros Hok.
  apply (link_pages (H0 := ex_image) ex_m1 ex_m2 ex_root [] [0] (PHYSTOP - PGSIZE) 0 _
    ex_m1_pt ex_path_ok); [|exact ex_m1_entry|exact ex_link2|done].
  rewrite ex_m1_page by apply (path_ok_app [0] [0]), ex_path_ok. done.
Qed.

Lemma ex_m2_pt : pt_inv (H0 := ex_image) ex_m2 ex_root [].
Proof.
  apply (link_pt_inv (H0 := ex_image) ex_m1 ex_m2 ex_root [] [0] (PHYSTOP - PGSIZE) 0
    (PHYSTOP - 2 * PGSIZE) ex_m1_pt ex_path_ok); [|exact ex_m1_entry|exact ex_link2|..].
  - rewrite ex_m1_page by apply (path_ok_app [0] [0]), ex_path_ok. done.
  - vm_compute. intuition congruence.
  - apply not_elem_of_nil.
Qed.

Lemma ex_leaf_addr : leaf_addr ex_m2 ex_root PGSIZE = Some (PHYSTOP - 2 * PGSIZE + 8).
Proof.
  unfold leaf_addr. change [PX 2 PGSIZE; PX 1 PGSIZE] with [0; 0].
  rewrite ex_m2_page by exact ex_path_ok. done.
Qed.

Lemma ex_m3_pt : pt_inv (H0 := ex_image) (mem ex_mapped) ex_root [].
Proof. exact (leaf_store_inv (H0 := ex_image) _ _ _ _ _ _ ex_m2_pt ex_leaf_addr). Qed.

Lemma ex_m3_leaf va : 0 <= va < MAXVA ->
  leaf_pte (mem ex_mapped) ex_root va =
  if va / PGSIZE =? 1 then make_pte ex_user (Z.lor (Z.lor PTE_R PTE_W) PTE_U) else 0.
Proof.
  intros Hva. change (mem ex_mapped) with ex_m3. unfold ex_m3.
  rewrite (leaf_store_pte (H0 := ex_image) _ _ _ _ _ _ ex_m2_pt ex_leaf_addr);
    [|split; vm_compute; congruence|split; vm_compute; congruence|done].
  change (PGSIZE / PGSIZE) with 1. destruct (va / PGSIZE =? 1); [done|].
  rewrite (link_leaf (H0 := ex_image) ex_m1 ex_m2 ex_root [] [0] (PHYSTOP - PGSIZE) 0 _ ex_m1_pt ex_path_ok).
  - rewrite (link_leaf (H0 := ex_image) (mem ex_vm) ex_m1 ex_root [PHYSTOP - 2 * PGSIZE] [] ex_root 0 _ ex_vm_pt);
      [by apply ex_vm_leaf|split; [simpl; lia|by apply Forall_singleton]|done|by apply ex_vm_entry|exact ex_link1|simpl; lia].
  - rewrite ex_m1_page by apply (path_ok_app [0] [0]), ex_path_ok. done.
  - exact ex_m1_entry.
  - exact ex_link2.
  - simpl. lia.
Qed.

(** Mapping one page of the empty table takes both free pages. *)
Lemma mappages_spec_witness :
  exists s' l',
    mappages (H := idle_world) ex_root 4096 PGSIZE KERNBASE (Z.lor PTE_R PTE_U) ex_vm = Ok 0 s' /\
    (forall va', 0 <= va' < MAXVA -> leaf_pte (mem s') ex_root va' =
       mapped 1 1 KERNBASE (Z.lor PTE_R PTE_U) (leaf_pte (mem ex_vm) ex_root) va') /\
    alloc_inv (H0 := ex_image) s' l'.
Proof.
  destruct (mappages_spec (H := idle_world) (H0 := ex_image) ex_root ex_vm ex_free
    4096 PGSIZE KERNBASE (Z.lor PTE_R PTE_U) ex_image_ok ex_vm_alloc ex_vm_pt)
    as (r & s' & l' & k & Hr & Hk & Hlf & _ & Ha & _).
  1-6: vm_compute; intuition congruence.
  - intros va' _ _. rewrite ex_vm_leaf. reflexivity.
  - destruct Hk as [[-> ->]|(_ & _ & _ & Hc)].
    + exists s', l'. split; [exact Hr|]. split; [exact Hlf|exact Ha].
    + exfalso. vm_compute in Hc. congruence.
Defined.

Lemma pte_roundtrip_witness :
  PTE2PA (Z.lor (Z.lor (PA2PTE KERNBASE) PTE_U) PTE_V) = KERNBASE.
Proof.
  apply (pte_roundtrip KERNBASE PTE_U 0 0); vm_compute; intuition congruence.
Defined.

Lemma mappages_remap_witness :
  mappages (H := idle_world) ex_root PGSIZE PGSIZE KERNBASE PTE_R ex_mapped = Panic "remap" ex_mapped.
Proof.
  apply (mappages_remap (H := idle_world) (H0 := ex_image) ex_root ex_mapped []).
  - exact ex_image_ok.
  - exact ex_m3_pt.
  - vm_compute. intuition congruence.
  - rewrite ex_m3_leaf by (vm_compute; intuition congruence). vm_compute. reflexivity.
Defined.
