(* ===== verification/Copy.v ===== *)
(** * kernel/vm.c: copying between user and kernel memory

    [copyout] takes the bytes it copies from; [copyin] and [copyinstr] return the
    bytes they stored beside their result (a prefix of the buffer when they fail
    half way).  The theorems describe the copies by the address translation of the
    page table: which bytes are read or written, and that nothing else is. *)

From stdpp Require Import gmap strings list fin_maps.
From Stdlib Require Import ZArith Lia.
From S2P Require Import Prelude Machine Str State Riscv Spinlock Kalloc Vm.
Open Scope Z_scope.

#[local] Opaque memset st64 ld64.

Section Copy.
Context `{World kstate} `{KernelImage}.

(** The number of pages [n] bytes can touch, plus one: iterations that are
    enough for the copy loops. *)
Definition copy_fuel (len : Z) : nat := S (S (Z.to_nat (len / PGSIZE + 1))).

(* @kernel/vm.c copyout *)
Definition copyout (pagetable dstva : Z) (src : list Z) (len : Z) : K Z :=
  iter (copy_fuel len) (fun '(dstva, src, len) =>
    if 0 <? len then
      let va0 := PGROUNDDOWN dstva in
      let* pa0 := walkaddr pagetable va0 in
      if pa0 =? 0 then ret (inr (-1))
      else
      let n := PGSIZE - (dstva - va0) in
      let n := if len <? n then len else n in
      modify_mem (fun m => stbytes m (pa0 + (dstva - va0)) (take (Z.to_nat n) src)) ;;;
      ret (inl (u64 (va0 + PGSIZE), drop (Z.to_nat n) src, len - n))
    else ret (inr 0)) (dstva, src, len).

(* @kernel/vm.c copyin *)
Definition copyin (pagetable srcva len : Z) : K (Z * list Z) :=
  iter (copy_fuel len) (fun '(srcva, dst, len) =>
    if 0 <? len then
      let va0 := PGROUNDDOWN srcva in
      let* pa0 := walkaddr pagetable va0 in
      if pa0 =? 0 then ret (inr (-1, dst))
      else
      let n := PGSIZE - (srcva - va0) in
      let n := if len <? n then len else n in
      let* bytes := gets (fun s => ldbytes (mem s) (pa0 + (srcva - va0)) (Z.to_nat n)) in
      ret (inl (u64 (va0 + PGSIZE), dst ++ bytes, len - n))
    else ret (inr (0, dst))) (srcva, [], len).

(** The inner loop of [copyinstr] over at most [n] bytes at [p]: the bytes stored
    and whether the NUL was found. *)
Fixpoint copyinstr_page (m : memory) (p : Z) (n : nat) : list Z * bool :=
  match n with
  | O => ([], false)
  | S n =>
    if ld8 m p =? 0 then ([0], true)
    else let '(l, b) := copyinstr_page m (p + 1) n in (ld8 m p :: l, b)
  end.

(* @kernel/vm.c copyinstr *)
Definition copyinstr (pagetable srcva max : Z) : K (Z * list Z) :=
  iter (copy_fuel max) (fun '(srcva, dst, max, got_null) =>
    if negb got_null && (0 <? max) then
      let va0 := PGROUNDDOWN srcva in
      let* pa0 := walkaddr pagetable va0 in
      if pa0 =? 0 then ret (inr (-1, dst))
      else
      let n := PGSIZE - (srcva - va0) in
      let n := if max <? n then max else n in
      let* r := gets (fun s => copyinstr_page (mem s) (pa0 + (srcva - va0)) (Z.to_nat n)) in
      let '(bytes, got_null) := r in
      ret (inl (u64 (va0 + PGSIZE), dst ++ bytes,
                max - (if got_null : bool then Z.of_nat (length bytes) - 1 else n), got_null))
    else ret (inr (if got_null : bool then 0 else -1, dst))) (srcva, [], max, false).

(** ** The page table seen by the copies *)

(** An address space: the page table, and the pages it gives the user are pages
    of RAM that are neither free nor part of the page table. *)
Record as_inv (m : memory) (root : Z) (l : list Z) : Prop := {
  as_pt : pt_inv m root l;
  as_user : forall va, 0 <= va < MAXVA -> user_page m root va <> 0 ->
    page_ok (user_page m root va) /\ (user_page m root va ∉ l) /\
    forall path, path_ok path -> pt_page m root path <> Some (user_page m root va)
}.

Lemma walkaddr_eq root l va s : image_ok -> pt_inv (mem s) root l ->
  walkaddr root va s = Ok (user_page (mem s) root va) s.
Proof.
  intros Himg Hinv. unfold walkaddr, user_page.
  destruct (Z.leb_spec MAXVA va) as [Hva|Hva].
  { by rewrite (proj2 (Z.ltb_ge _ _)). }
  rewrite (proj2 (Z.ltb_lt _ _)) by done. cbn [andb].
  unfold bind. rewrite walk_noalloc by done. unfold leaf_pte.
  destruct (leaf_addr (mem s) root va) as [a|] eqn:Ha; cbn [default id]; [|done].
  rewrite (proj2 (Z.eqb_neq _ _)) by (by eapply leaf_addr_nonzero).
  unfold ldm64, gets.
  destruct (has (ld64 (mem s) a) PTE_V), (has (ld64 (mem s) a) PTE_U); done.
Qed.

(** Writes outside the table pages change no translation. *)
Lemma pt_page_same m m' root q :
  (forall path p, path_ok path -> pt_page m root path = Some p -> same_page m m' p) ->
  path_ok q -> pt_page m' root q = pt_page m root q.
Proof.
  intros Hs Hq. apply pt_page_frame. intros q1 j q2 p -> Hp.
  assert (Hq1 : path_ok (q1 ++ [j])) by (apply (path_ok_app _ q2); by rewrite <- app_assoc).
  apply ld64_entry_same; [|by eapply path_ok_last]. eapply Hs; [by eapply path_ok_app|done].
Qed.

Lemma leaf_pte_same m m' root va :
  (forall path p, path_ok path -> pt_page m root path = Some p -> same_page m m' p) ->
  leaf_pte m' root va = leaf_pte m root va.
Proof.
  intros Hs. unfold leaf_pte, leaf_addr. rewrite (pt_page_same m m') by (done || apply path_ok_va).
  destruct (pt_page m root [PX 2 va; PX 1 va]) as [p|] eqn:Hp; [|done]. cbn.
  apply ld64_entry_same; [|apply PX_range; lia]. by eapply Hs; [apply path_ok_va|].
Qed.

Lemma as_inv_same m m' root l :
  (forall path p, path_ok path -> pt_page m root path = Some p -> same_page m m' p) ->
  as_inv m root l ->
  as_inv m' root l /\ forall va, user_page m' root va = user_page m root va.
Proof.
  intros Hs [[Hp Hj] Hu]. pose proof (fun va => leaf_pte_same m m' root va Hs) as Hl.
  pose proof (fun q => pt_page_same m m' root q Hs) as Hpg.
  assert (Hup : forall va, user_page m' root va = user_page m root va)
    by (intros va; unfold user_page; by rewrite Hl).
  split; [|done]. split; [split|].
  - intros path p Hok. rewrite Hpg by done. by apply Hp.
  - intros path path' p Hok Hok'. rewrite !Hpg by done. by apply Hj.
  - intros va Hva. rewrite Hup. intros Hnz. destruct (Hu va Hva Hnz) as (? & ? & Hno).
    split; [done|]. split; [done|]. intros path Hok. rewrite Hpg by done. by apply Hno.
Qed.

Lemma user_page_eq m root va va' : 0 <= va < 2 ^ 64 -> 0 <= va' < 2 ^ 64 ->
  va / PGSIZE = va' / PGSIZE -> user_page m root va = user_page m root va'.
Proof.
  intros Hv Hv' E. unfold user_page, leaf_pte, leaf_addr.
  assert (Em : (va <? MAXVA) = (va' <? MAXVA)).
  { revert E. consts. intros. bool_cases; try done; exfalso; zdm. }
  assert (EP : forall i, 0 <= i -> PX i va = PX i va').
  { intros i Hi. by rewrite <- (PX_page i va), <- (PX_page i va'), E. }
  by rewrite Em, !EP by lia.
Qed.

Lemma translate_off m root va i : 0 <= va -> 0 <= i -> va mod PGSIZE + i < PGSIZE -> va < MAXVA ->
  translate m root (va + i) =
  if user_page m root va =? 0 then None else Some (user_page m root va + va mod PGSIZE + i).
Proof.
  intros Hva Hi Hoff Hmax. unfold translate.
  rewrite (user_page_eq m root (va + i) va) by (revert Hoff Hmax; consts; zdm).
  destruct (_ =? 0); [done|]. f_equal. revert Hoff. consts. zdm.
Qed.

(** ** Reading user memory *)

(** The bytes the user sees from [va] on; [None] where nothing is mapped. *)
Definition user_bytes (m : memory) (root va : Z) (n : nat) : list (option Z) :=
  (fun i => ld8 m <$> translate m root (va + Z.of_nat i)) <$> seq 0 n.

Lemma user_bytes_lookup m root va n i : (i < n)%nat ->
  user_bytes m root va n !! i = Some (ld8 m <$> translate m root (va + Z.of_nat i)).
Proof. intros Hi. unfold user_bytes. by rewrite list_lookup_fmap, lookup_seq_lt. Qed.

Lemma user_bytes_app m root va n k :
  user_bytes m root va (n + k) = user_bytes m root va n ++ user_bytes m root (va + Z.of_nat n) k.
Proof.
  unfold user_bytes. rewrite seq_app, fmap_app. f_equal. rewrite Nat.add_0_l.
  apply list_eq. intros i. rewrite !list_lookup_fmap.
  destruct (decide (i < k)%nat) as [Hi|Hi].
  - rewrite !lookup_seq_lt by done. simpl. do 3 f_equal. lia.
  - rewrite !lookup_seq_ge by lia. done.
Qed.

(** Inside a page, the user's bytes are consecutive bytes of memory. *)
Lemma user_bytes_page m root va n :
  0 <= va < MAXVA -> user_page m root va <> 0 -> va mod PGSIZE + Z.of_nat n <= PGSIZE ->
  user_bytes m root va n = Some <$> ldbytes m (user_page m root va + va mod PGSIZE) n.
Proof.
  intros Hva Hnz Hn. apply list_eq. intros i. destruct (decide (i < n)%nat) as [Hi|Hi].
  - rewrite user_bytes_lookup, list_lookup_fmap, ldbytes_lookup by done. cbn.
    rewrite translate_off by lia. by rewrite (proj2 (Z.eqb_neq _ _) Hnz).
  - rewrite !lookup_ge_None_2; [done|rewrite length_fmap, length_ldbytes; lia|].
    unfold user_bytes. rewrite length_fmap, length_seq. lia.
Qed.

Lemma user_page_max m root va : user_page m root va <> 0 -> va < MAXVA.
Proof. unfold user_page. destruct (Z.ltb_spec va MAXVA); done. Qed.

(** The position of a copy loop: [k] of the [len] bytes from [va] are done, and
    the loop is at [cur] with [rest] bytes to go. *)
Record at_pos (va len cur rest : Z) (k : nat) : Prop := {
  pos_rest : rest = len - Z.of_nat k /\ 0 <= rest;
  pos_cur : 0 < rest -> cur = va + Z.of_nat k /\ (k = 0%nat \/ cur <= MAXVA);
  pos_off : rest = 0 -> 0 <= cur < 2 ^ 64
}.

Definition chunk (cur rest : Z) : Z :=
  let n := PGSIZE - (cur - PGROUNDDOWN cur) in if rest <? n then rest else n.

Lemma chunk_spec cur rest : 0 <= cur < 2 ^ 64 -> 0 < rest ->
  cur - PGROUNDDOWN cur = cur mod PGSIZE /\ 0 < chunk cur rest <= rest /\
  cur mod PGSIZE + chunk cur rest <= PGSIZE.
Proof.
  intros Hc Hr. unfold chunk. rewrite PGROUNDDOWN_spec by done.
  assert (cur - cur / PGSIZE * PGSIZE = cur mod PGSIZE) as -> by (consts; zdm).
  pose proof (Z.mod_pos_bound cur PGSIZE). split; [done|].
  destruct (Z.ltb_spec rest (PGSIZE - cur mod PGSIZE)); clia.
Qed.

(** Iterations a copy loop has left. *)
Definition copy_left (cur rest : Z) : nat := Z.to_nat ((cur mod PGSIZE + rest + PGSIZE - 1) / PGSIZE).

Lemma copy_left_fuel cur rest : 0 <= rest -> (copy_left cur rest < copy_fuel rest)%nat.
Proof.
  intros Hr. unfold copy_left, copy_fuel. pose proof (Z.mod_pos_bound cur PGSIZE).
  assert ((cur mod PGSIZE + rest + PGSIZE - 1) / PGSIZE <= rest / PGSIZE + 2); [|consts; zdm].
  set (o := cur mod PGSIZE) in *. clearbody o. consts. zdm.
Qed.

(** The next position after a chunk. *)
Lemma pos_next va len cur rest k : 0 <= va < 2 ^ 64 ->
  at_pos va len cur rest k -> 0 < rest -> cur < MAXVA ->
  let n := chunk cur rest in
  at_pos va len (u64 (PGROUNDDOWN cur + PGSIZE)) (rest - n) (k + Z.to_nat n) /\
  (copy_left (u64 (PGROUNDDOWN cur + PGSIZE)) (rest - n) < copy_left cur rest)%nat.
Proof.
  intros Hva [[Er _] Hc _] Hr Hmax n. destruct (Hc Hr) as [Ec _].
  assert (Hcur : 0 <= cur < 2 ^ 64) by clia.
  destruct (chunk_spec cur rest Hcur Hr) as (Eo & Hn & Hpg). fold n in Hn, Hpg.
  assert (Hdn : PGROUNDDOWN cur mod PGSIZE = 0).
  { rewrite PGROUNDDOWN_spec by done. apply Z.mod_mul. clia. }
  assert (Hd : 0 <= PGROUNDDOWN cur <= cur) by (rewrite PGROUNDDOWN_spec by done; consts; zdm).
  assert (Hdm : PGROUNDDOWN cur + PGSIZE <= MAXVA) by (revert Hdn; consts; zdm).
  rewrite u64_id by clia.
  assert (Hn' : n = rest \/ n = PGSIZE - cur mod PGSIZE /\ n < rest).
  { unfold n, chunk. rewrite Eo. destruct (Z.ltb_spec rest (PGSIZE - cur mod PGSIZE)); lia. }
  split; [split; [lia| |clia]|].
  - intros Hr'. split; [|right; done]. lia.
  - unfold copy_left.
    replace ((PGROUNDDOWN cur + PGSIZE) mod PGSIZE) with 0 by (revert Hdn; consts; zdm).
    set (o := cur mod PGSIZE) in *. clearbody o n. revert Hn Hn' Hpg. consts. intros. zdm.
Qed.

Lemma pos_start va len : 0 <= va < 2 ^ 64 -> 0 <= len -> at_pos va len va len 0.
Proof. intros. split; [lia|split; [lia|by left]|lia]. Qed.

Lemma pos_cur_range va len cur rest k : 0 <= va < 2 ^ 64 -> at_pos va len cur rest k -> 0 < rest ->
  cur = va + Z.of_nat k /\ 0 <= cur < 2 ^ 64.
Proof. intros Hva [_ Hc _] Hr. destruct (Hc Hr) as [-> Hk]. split; [done|]. clia. Qed.

Lemma user_page_down m root va : 0 <= va < 2 ^ 64 ->
  user_page m root (PGROUNDDOWN va) = user_page m root va.
Proof.
  intros Hva. rewrite PGROUNDDOWN_spec by done. apply user_page_eq; [|done|]; consts; zdm.
Qed.

Lemma translate_none m root va : user_page m root va = 0 -> translate m root va = None.
Proof. unfold translate. by intros ->. Qed.

(** What a read of [len] user bytes from [va] returns. *)
Definition user_read (m : memory) (root va len r : Z) (bytes : list Z) : Prop :=
  user_bytes m root va (length bytes) = Some <$> bytes /\
  ((r = 0 /\ Z.of_nat (length bytes) = len) \/
   (r = -1 /\ Z.of_nat (length bytes) < len /\
    translate m root (va + Z.of_nat (length bytes)) = None)).

(** The bytes of a prefix of a chunk extend what was read. *)
Lemma user_bytes_prefix m root va len cur rest dst j : 0 <= va < 2 ^ 64 ->
  at_pos va len cur rest (length dst) -> 0 < rest -> user_page m root cur <> 0 ->
  user_bytes m root va (length dst) = Some <$> dst -> Z.of_nat j <= chunk cur rest ->
  let bytes := ldbytes m (user_page m root cur + (cur - PGROUNDDOWN cur)) j in
  user_bytes m root va (length (dst ++ bytes)) = Some <$> (dst ++ bytes).
Proof.
  intros Hva Hpos Hr Hnz Hd Hj bytes. destruct (pos_cur_range _ _ _ _ _ Hva Hpos Hr) as [Ec Hc].
  destruct (chunk_spec cur rest Hc Hr) as (Eo & Hn & Hpg).
  rewrite length_app, user_bytes_app, fmap_app, Hd, <- Ec. f_equal.
  unfold bytes. rewrite length_ldbytes, Eo. apply user_bytes_page; [|done|lia].
  pose proof (user_page_max _ _ _ Hnz). lia.
Qed.

Lemma wp_copyin root l srcva len s :
  image_ok -> pt_inv (mem s) root l -> 0 <= srcva < 2 ^ 64 -> 0 <= len ->
  wp (copyin root srcva len) (fun '(r, bytes) s' => s' = s /\ user_read (mem s) root srcva len r bytes) s.
Proof.
  intros Himg Hpt Hva Hlen. unfold copyin.
  apply (wp_iter _ (fun '(cur, dst, rest) s' => s' = s /\ at_pos srcva len cur rest (length dst) /\
            user_bytes (mem s) root srcva (length dst) = Some <$> dst)
          _ (fun '(cur, _, rest) _ => copy_left cur rest)).
  - split; [done|]. split; [by apply pos_start|done].
  - by apply copy_left_fuel.
  - intros [[cur dst] rest] s' (-> & Hpos & Hd).
    destruct (Z.ltb_spec 0 rest) as [Hr|Hr].
    + destruct (pos_cur_range _ _ _ _ _ Hva Hpos Hr) as [Ec Hc]. wstep.
      eapply wp_intro; [by eapply walkaddr_eq|]. rewrite user_page_down by done.
      destruct (Z.eqb_spec (user_page (mem s) root cur) 0) as [Hz|Hnz]; wsteps.
      * split; [done|]. split; [done|]. right. split; [done|]. split; [destruct Hpos; lia|].
        rewrite <- Ec. by apply translate_none.
      * pose proof (user_page_max _ _ _ Hnz) as Hmax. fold (chunk cur rest).
        destruct (pos_next srcva len cur rest (length dst)) as [Hpos' Hdec]; try done.
        destruct (chunk_spec cur rest Hc Hr) as (_ & Hn & _).
        split; [|done]. split; [done|]. split; [|eapply user_bytes_prefix; (done || lia)].
        by rewrite length_app, length_ldbytes.
    + wsteps. split; [done|]. split; [done|]. left. destruct Hpos. lia.
Qed.

(** ** Writing user memory *)

(** Storing bytes one by one through a translation. *)
Fixpoint user_store (tr : Z -> option Z) (m : memory) (va : Z) (bytes : list Z) : memory :=
  match bytes with
  | [] => m
  | b :: bytes => user_store tr (match tr va with Some a => st8 m a b | None => m end) (va + 1) bytes
  end.

Lemma user_store_app tr m va l1 l2 :
  user_store tr m va (l1 ++ l2) = user_store tr (user_store tr m va l1) (va + Z.of_nat (length l1)) l2.
Proof.
  revert m va; induction l1 as [|b l1 IH]; intros m va; cbn [user_store app length].
  - f_equal. lia.
  - rewrite IH. f_equal. lia.
Qed.

Lemma user_store_page tr m va a bytes :
  (forall i, 0 <= i < Z.of_nat (length bytes) -> tr (va + i) = Some (a + i)) ->
  user_store tr m va bytes = stbytes m a bytes.
Proof.
  revert m va a; induction bytes as [|b bytes IH]; intros m va a Htr; [done|].
  cbn [user_store stbytes length] in *. pose proof (Htr 0 ltac:(lia)) as H0'.
  rewrite !Z.add_0_r in H0'. rewrite H0'. apply IH. intros i Hi.
  rewrite <- !Z.add_assoc. apply Htr. lia.
Qed.

(** A byte that no address of the range translates to is left alone. *)
Lemma user_store_out tr m va bytes x :
  (forall i, 0 <= i < Z.of_nat (length bytes) -> tr (va + i) <> Some x) ->
  ld8 (user_store tr m va bytes) x = ld8 m x.
Proof.
  revert m va; induction bytes as [|b bytes IH]; intros m va Hx; [done|].
  cbn [user_store length] in *. rewrite IH.
  - pose proof (Hx 0 ltac:(lia)) as H0'. rewrite Z.add_0_r in H0'.
    destruct (tr va) as [a|]; [|done]. rewrite ld8_st8.
    destruct (Z.eqb_spec a x); [congruence|done].
  - intros i Hi. rewrite <- Z.add_assoc. apply Hx. lia.
Qed.

Lemma user_store_bytes tr m va bytes :
  mem_bytes m -> Forall is_byte bytes -> mem_bytes (user_store tr m va bytes).
Proof.
  revert m va; induction bytes as [|b bytes IH]; intros m va Hm Hb; [done|].
  apply Forall_cons in Hb as [Hb Hbs]. cbn [user_store]. apply IH; [|done].
  destruct (tr va); [by apply st8_bytes|done].
Qed.

(** What was stored is read back when no two addresses share a byte. *)
Lemma user_store_read tr m va bytes i a b :
  (forall i j x, 0 <= i < Z.of_nat (length bytes) -> 0 <= j < Z.of_nat (length bytes) ->
     tr (va + i) = Some x -> tr (va + j) = Some x -> i = j) ->
  bytes !! i = Some b -> tr (va + Z.of_nat i) = Some a ->
  ld8 (user_store tr m va bytes) a = b.
Proof.
  revert m va i; induction bytes as [|c bytes IH]; intros m va i Hinj Hb Ha; [done|].
  cbn [user_store length] in *. destruct i as [|i].
  - simpl in Hb, Ha. simplify_eq. rewrite Z.add_0_r in Ha. rewrite Ha.
    rewrite user_store_out.
    + by rewrite ld8_st8, Z.eqb_refl.
    + intros j Hj Hx. assert (0 = j + 1); [|lia]. eapply (Hinj 0 (j + 1)); try lia.
      * rewrite Z.add_0_r. exact Ha.
      * by replace (va + (j + 1)) with (va + 1 + j) by lia.
  - apply (IH _ (va + 1) i); [|done|by replace (va + 1 + Z.of_nat i) with (va + Z.of_nat (S i)) by lia].
    intros j k x Hj Hk Hjx Hkx. assert (j + 1 = k + 1); [|lia].
    eapply (Hinj (j + 1) (k + 1) x); try lia.
    + by replace (va + (j + 1)) with (va + 1 + j) by lia.
    + by replace (va + (k + 1)) with (va + 1 + k) by lia.
Qed.

(** Kernel pages that no user address reaches: table pages and free pages. *)
Definition kernel_page (m : memory) (root : Z) (l : list Z) (q : Z) : Prop :=
  q mod PGSIZE = 0 /\ (q ∈ l \/ exists path, path_ok path /\ pt_page m root path = Some q).

Lemma translate_kernel m root l q va i : as_inv m root l -> kernel_page m root l q -> 0 <= va ->
  0 <= i < PGSIZE -> translate m root va <> Some (q + i).
Proof.
  intros [_ Hu] [Hal Hq] Hva Hi. unfold translate.
  destruct (Z.eqb_spec (user_page m root va) 0) as [|Hnz]; [done|]. intros [= E].
  destruct (Hu va) as ([Hpal _] & Hnl & Hnp); [pose proof (user_page_max _ _ _ Hnz); lia|done|].
  assert (Eq : user_page m root va = q).
  { pose proof (Z.mod_pos_bound va PGSIZE). destruct (decide (user_page m root va = q)) as [|Hne]; [done|].
    destruct (pages_apart _ _ Hpal Hal Hne); clia. }
  rewrite Eq in *. destruct Hq as [?|(path & Hok & Hp)]; [done|]. by apply (Hnp path).
Qed.

Lemma user_store_kernel m root l q va bytes : as_inv m root l -> kernel_page m root l q -> 0 <= va ->
  same_page m (user_store (translate m root) m va bytes) q.
Proof.
  intros Has Hq Hva i Hi. rewrite user_store_out; [done|].
  intros j Hj. eapply translate_kernel; try done. lia.
Qed.

Lemma user_store_as m root l va bytes : as_inv m root l -> 0 <= va ->
  let m' := user_store (translate m root) m va bytes in
  as_inv m' root l /\ forall va', user_page m' root va' = user_page m root va'.
Proof.
  intros Has Hva m'. apply as_inv_same; [|done]. intros path p Hok Hp.
  eapply user_store_kernel; [done| |done]. split; [|by right; exists path].
  by destruct (pt_pages _ _ _ (as_pt _ _ _ Has) path p Hok Hp) as [[? _] _].
Qed.

Lemma user_store_alloc s root l va bytes :
  as_inv (mem s) root l -> alloc_inv s l -> 0 <= va -> Forall is_byte bytes ->
  alloc_inv (set_mem (user_store (translate (mem s) root) (mem s) va bytes) s) l.
Proof.
  intros Has Hal Hva Hb. apply alloc_inv_mem; [done|apply user_store_bytes; [apply Hal|done]|].
  intros q Hq. eapply user_store_kernel; [done| |done]. split; [|by left].
  by apply (proj1 (Forall_forall _ _) (alloc_pages _ _ Hal) q Hq).
Qed.

(** What a write of [bytes] from user address [va] on does: the first [k] bytes
    are stored through the translation; all of them, or up to an address that is
    not mapped. *)
Definition user_write (s : kstate) (root va : Z) (bytes : list Z) (r : Z) (s' : kstate) : Prop :=
  exists k : nat,
    s' = set_mem (user_store (translate (mem s) root) (mem s) va (take k bytes)) s /\
    (forall i : nat, (i < k)%nat -> is_Some (translate (mem s) root (va + Z.of_nat i))) /\
    ((r = 0 /\ k = length bytes) \/
     (r = -1 /\ (k < length bytes)%nat /\ translate (mem s) root (va + Z.of_nat k) = None)).

(** One chunk of the copy continues the byte-wise store. *)
Lemma user_store_chunk m root l va len cur rest src k :
  as_inv m root l -> 0 <= va < 2 ^ 64 -> len = Z.of_nat (length src) ->
  at_pos va len cur rest k -> 0 < rest -> user_page m root cur <> 0 ->
  let n := Z.to_nat (chunk cur rest) in
  stbytes (user_store (translate m root) m va (take k src))
      (user_page m root cur + (cur - PGROUNDDOWN cur)) (take n (drop k src)) =
    user_store (translate m root) m va (take (k + n) src) /\
  (forall i, (k <= i < k + n)%nat -> is_Some (translate m root (va + Z.of_nat i))).
Proof.
  intros Has Hva -> Hpos Hr Hnz n. destruct (pos_cur_range _ _ _ _ _ Hva Hpos Hr) as [Ec Hc].
  destruct (chunk_spec cur rest Hc Hr) as (Eo & Hn & Hpg).
  pose proof (user_page_max _ _ _ Hnz) as Hmax.
  assert (Htr : forall i, 0 <= i < chunk cur rest ->
            translate m root (cur + i) = Some (user_page m root cur + cur mod PGSIZE + i)).
  { intros i Hi. rewrite translate_off by lia. by rewrite (proj2 (Z.eqb_neq _ _) Hnz). }
  assert (Hk : (k <= length src)%nat) by (destruct Hpos; lia).
  split.
  - rewrite <- take_take_drop, user_store_app, length_take_le, <- Ec by done.
    symmetry. rewrite Eo. apply user_store_page. intros i Hi. apply Htr.
    rewrite length_take in Hi. lia.
  - intros i Hi. replace (va + Z.of_nat i) with (cur + Z.of_nat (i - k)) by lia.
    rewrite Htr by lia. eauto.
Qed.

Lemma wp_copyout root l dstva src s :
  image_ok -> as_inv (mem s) root l -> 0 <= dstva < 2 ^ 64 ->
  wp (copyout root dstva src (Z.of_nat (length src))) (fun r s' => user_write s root dstva src r s') s.
Proof.
  intros Himg Has Hva. unfold copyout. set (len := Z.of_nat (length src)).
  set (store k := user_store (translate (mem s) root) (mem s) dstva (take k src)).
  apply (wp_iter _ (fun '(cur, src', rest) s' => exists k, at_pos dstva len cur rest k /\
            src' = drop k src /\ s' = set_mem (store k) s /\
            forall i : nat, (i < k)%nat -> is_Some (translate (mem s) root (dstva + Z.of_nat i)))
          _ (fun '(cur, _, rest) _ => copy_left cur rest)).
  - exists 0%nat. split; [apply pos_start; lia|]. split; [done|].
    split; [by destruct s|lia].
  - apply copy_left_fuel. lia.
  - intros [[cur src'] rest] s' (k & Hpos & -> & -> & Hdone).
    destruct (user_store_as (mem s) root l dstva (take k src) Has ltac:(lia)) as [Has' Hup].
    destruct (Z.ltb_spec 0 rest) as [Hr|Hr].
    + destruct (pos_cur_range _ _ _ _ _ Hva Hpos Hr) as [Ec Hc]. wstep.
      eapply wp_intro; [eapply (walkaddr_eq _ l); [done|fields; apply Has']|].
      fields. unfold store at 1. rewrite Hup, user_page_down by done.
      destruct (Z.eqb_spec (user_page (mem s) root cur) 0) as [Hz|Hnz]; unfold modify_mem; wsteps.
      * exists k. split; [done|]. split; [done|]. right. split; [done|].
        split; [destruct Hpos; lia|]. rewrite <- Ec. by apply translate_none.
      * pose proof (user_page_max _ _ _ Hnz) as Hmax. fold (chunk cur rest).
        destruct (pos_next dstva len cur rest k) as [Hpos' Hdec]; try done.
        destruct (user_store_chunk (mem s) root l dstva len cur rest src k) as [Hst Hnew]; try done.
        unfold store at 1. fields. rewrite Hup, user_page_down, Hst by done.
        split; [|done]. exists (k + Z.to_nat (chunk cur rest))%nat.
        split; [done|]. split; [by rewrite drop_drop|]. split; [done|].
        intros i Hi. destruct (decide (i < k)%nat); [by apply Hdone|]. apply Hnew. lia.
    + wsteps. exists k. split; [done|]. split; [done|]. left. split; [done|]. destruct Hpos. lia.
Qed.

(** ** Reading a string *)

Lemma copyinstr_page_spec m p n bytes b : copyinstr_page m p n = (bytes, b) ->
  bytes = ldbytes m p (length bytes) /\
  if b then (length bytes <= n)%nat /\ exists str, bytes = str ++ [0] /\ 0 ∉ str
  else length bytes = n /\ 0 ∉ bytes.
Proof.
  revert p bytes b; induction n as [|n IH]; intros p bytes b; cbn [copyinstr_page].
  { intros [= <- <-]. split; [done|]. split; [done|]. apply not_elem_of_nil. }
  destruct (Z.eqb_spec (ld8 m p) 0) as [Hz|Hnz].
  { intros [= <- <-]. cbn [ldbytes length]. rewrite Hz. split; [done|]. split; [lia|].
    exists []. split; [done|]. apply not_elem_of_nil. }
  destruct (copyinstr_page m (p + 1) n) as [bs b'] eqn:E. intros [= <- <-].
  destruct (IH _ _ _ E) as [Hbs Hb]. cbn [ldbytes length]. split; [by rewrite <- Hbs|].
  destruct b'.
  - destruct Hb as (Hlen & str & -> & Hstr). split; [lia|]. exists (ld8 m p :: str).
    split; [done|]. rewrite not_elem_of_cons. auto.
  - destruct Hb as [Hlen Hbs']. split; [lia|]. rewrite not_elem_of_cons. auto.
Qed.

(** What reading a string of fewer than [max] bytes at user address [va] returns. *)
Definition user_string (m : memory) (root va max r : Z) (bytes : list Z) : Prop :=
  user_bytes m root va (length bytes) = Some <$> bytes /\
  ((r = 0 /\ exists str, bytes = str ++ [0] /\ (0 ∉ str) /\ Z.of_nat (length str) < max) \/
   (r = -1 /\ (0 ∉ bytes) /\
    (Z.of_nat (length bytes) = max \/
     Z.of_nat (length bytes) < max /\ translate m root (va + Z.of_nat (length bytes)) = None))).

Lemma wp_copyinstr root l srcva max s :
  image_ok -> pt_inv (mem s) root l -> 0 <= srcva < 2 ^ 64 -> 0 <= max ->
  wp (copyinstr root srcva max) (fun '(r, bytes) s' => s' = s /\ user_string (mem s) root srcva max r bytes) s.
Proof.
  intros Himg Hpt Hva Hmax. unfold copyinstr.
  apply (wp_iter _ (fun '(cur, dst, rest, got) s' => s' = s /\
            if got : bool then user_string (mem s) root srcva max 0 dst
            else at_pos srcva max cur rest (length dst) /\ (0 ∉ dst) /\
              user_bytes (mem s) root srcva (length dst) = Some <$> dst)
          _ (fun '(cur, _, rest, got) _ => if got : bool then 0%nat else copy_left cur rest)).
  - split; [done|]. split; [by apply pos_start|]. split; [apply not_elem_of_nil|done].
  - by apply copy_left_fuel.
  - intros [[[cur dst] rest] [|]] s' (-> & Hinv); [by wsteps|].
    destruct Hinv as (Hpos & Hnz0 & Hd). cbn [negb andb].
    destruct (Z.ltb_spec 0 rest) as [Hr|Hr].
    + destruct (pos_cur_range _ _ _ _ _ Hva Hpos Hr) as [Ec Hc]. wstep.
      eapply wp_intro; [by eapply walkaddr_eq|]. rewrite user_page_down by done.
      destruct (Z.eqb_spec (user_page (mem s) root cur) 0) as [Hz|Hnz]; wsteps.
      * split; [done|]. split; [done|]. right. split; [done|]. split; [done|]. right.
        split; [destruct Hpos; lia|]. rewrite <- Ec. by apply translate_none.
      * pose proof (user_page_max _ _ _ Hnz) as Hm. fold (chunk cur rest).
        destruct (chunk_spec cur rest Hc Hr) as (_ & Hn & _).
        destruct (pos_next srcva max cur rest (length dst)) as [Hpos' Hdec]; try done.
        destruct (copyinstr_page _ _ _) as [bytes got] eqn:E. wsteps.
        destruct (copyinstr_page_spec _ _ _ _ _ E) as [Eb Hb].
        assert (Hub : (length bytes <= Z.to_nat (chunk cur rest))%nat -> user_bytes (mem s) root srcva (length (dst ++ bytes)) = Some <$> (dst ++ bytes))
          by (intros; rewrite Eb; eapply user_bytes_prefix; (done || lia)).
        destruct got.
        -- destruct Hb as (Hlen & str & -> & Hstr). split; [|lia]. split; [done|].
           split; [by apply Hub|]. left. split; [done|]. exists (dst ++ str).
           rewrite length_app in *. cbn [length] in *. destruct Hpos as [[-> ?] _ _].
           split; [by rewrite app_assoc|]. split; [set_solver|]. lia.
        -- destruct Hb as [Hlen Hb0]. split; [|done]. split; [done|]. split; [|split; [set_solver|by apply Hub; lia]].
           by rewrite length_app, Hlen.
    + wsteps. split; [done|]. split; [done|]. right. split; [done|]. split; [done|]. left.
      destruct Hpos. lia.
Qed.

(** ** Properties *)

(** C30: [copyout] stores its bytes through the user's translation, in order,
    until all are stored (it returns 0) or an address of the range is not mapped
    for the user (it returns -1).  No byte that the range does not translate to
    changes; in particular the page table, the translation and the free pages
    are left alone, whatever the user passes as [dstva]. *)
Theorem copyout_spec (root : Z) (l : list Z) (dstva : Z) (src : list Z) (s : kstate) :
  image_ok -> as_inv (mem s) root l -> alloc_inv s l -> Forall is_byte src -> 0 <= dstva < 2 ^ 64 ->
  exists r s', copyout root dstva src (Z.of_nat (length src)) s = Ok r s' /\
    user_write s root dstva src r s' /\
    (forall x, (forall i, 0 <= i < Z.of_nat (length src) -> translate (mem s) root (dstva + i) <> Some x) ->
       ld8 (mem s') x = ld8 (mem s) x) /\
    (forall va, translate (mem s') root va = translate (mem s) root va) /\
    as_inv (mem s') root l /\ alloc_inv s' l.
Proof.
  intros Himg Has Hal Hb Hva. destruct (wp_run _ _ _ (wp_copyout root l dstva src s Himg Has Hva))
    as (r & s' & Hr & Hw). exists r, s'. split; [done|]. split; [done|].
  destruct Hw as (k & -> & _). fields.
  destruct (user_store_as (mem s) root l dstva (take k src) Has ltac:(lia)) as [Has' Hup].
  split; [|split; [|split]].
  - intros x Hx. apply user_store_out. intros i Hi. apply Hx. rewrite length_take in Hi. lia.
  - intros va. unfold translate. by rewrite Hup.
  - done.
  - apply user_store_alloc; [done|done|lia|by apply Forall_take].
Qed.

(** C31: [copyin] returns the bytes the user sees: all [len] of them and 0, or -1
    and the bytes before the first address that is not mapped for the user.  It
    changes nothing. *)
Theorem copyin_spec (root : Z) (l : list Z) (srcva len : Z) (s : kstate) :
  image_ok -> pt_inv (mem s) root l -> 0 <= srcva < 2 ^ 64 -> 0 <= len ->
  exists r bytes, copyin root srcva len s = Ok (r, bytes) s /\ user_read (mem s) root srcva len r bytes.
Proof.
  intros Himg Hpt Hva Hlen. destruct (wp_run _ _ _ (wp_copyin root l srcva len s Himg Hpt Hva Hlen))
    as ([r bytes] & s' & Hr & -> & Hu). eauto.
Qed.

(** What [copyout] wrote, [copyin] reads back, when no two addresses of the
    range share a byte of memory. *)
Theorem copyout_copyin (root : Z) (l : list Z) (va : Z) (src : list Z) (s s' : kstate) :
  image_ok -> as_inv (mem s) root l -> 0 <= va < 2 ^ 64 ->
  (forall i j x, 0 <= i < Z.of_nat (length src) -> 0 <= j < Z.of_nat (length src) ->
     translate (mem s) root (va + i) = Some x -> translate (mem s) root (va + j) = Some x -> i = j) ->
  copyout root va src (Z.of_nat (length src)) s = Ok 0 s' ->
  copyin root va (Z.of_nat (length src)) s' = Ok (0, src) s'.
Proof.
  intros Himg Has Hva Hinj Hout.
  pose proof (wp_copyout root l va src s Himg Has Hva) as W. unfold wp in W. rewrite Hout in W.
  destruct W as (k & -> & Hsome & [[_ ->]|[? _]]); [|done]. rewrite firstn_all in *.
  destruct (user_store_as (mem s) root l va src Has ltac:(lia)) as [Has' Hup].
  set (m' := user_store (translate (mem s) root) (mem s) va src) in *.
  assert (Htr : forall x, translate m' root x = translate (mem s) root x)
    by (intros x; unfold translate; by rewrite Hup).
  destruct (wp_run _ _ _ (wp_copyin root l va (Z.of_nat (length src)) (set_mem m' s) Himg
    (as_pt _ _ _ Has') Hva ltac:(lia))) as ([r bytes] & s' & Hr & -> & Hub & Hcase).
  rewrite Hr. fields_in Hub. fields_in Hcase. destruct Hcase as [[-> Hlen]|(_ & Hlen & Hnone)].
  - assert (bytes = src) as ->; [|done]. apply list_eq. intros i.
    destruct (decide (i < length src)%nat) as [Hi|]; [|by rewrite !lookup_ge_None_2 by lia].
    destruct (lookup_lt_is_Some_2 src i Hi) as [b Hb], (Hsome i Hi) as [a Ha].
    apply (f_equal (fun l => l !! i)) in Hub.
    rewrite user_bytes_lookup, list_lookup_fmap, Htr, Ha in Hub by lia. cbn in Hub.
    unfold m' in Hub. rewrite (user_store_read _ _ _ _ i a b Hinj Hb Ha) in Hub.
    destruct (bytes !! i); simpl in Hub; congruence.
  - destruct (Hsome (length bytes)) as [a Ha]; [lia|]. rewrite Htr in Hnone. congruence.
Qed.

(** [copyinstr] returns 0 with a NUL-terminated string that the user sees at
    [srcva] and that fits in [max] bytes, or -1 when there is no NUL among the
    first [max] bytes or an address before it is not mapped for the user. *)
Theorem copyinstr_spec (root : Z) (l : list Z) (srcva max : Z) (s : kstate) :
  image_ok -> pt_inv (mem s) root l -> 0 <= srcva < 2 ^ 64 -> 0 <= max ->
  exists r bytes, copyinstr root srcva max s = Ok (r, bytes) s /\
    user_string (mem s) root srcva max r bytes.
Proof.
  intros Himg Hpt Hva Hmax. destruct (wp_run _ _ _ (wp_copyinstr root l srcva max s Himg Hpt Hva Hmax))
    as ([r bytes] & s' & Hr & -> & Hu). eauto.
Qed.
End Copy.

(** ** The address space with one user page *)

Lemma ex_user_page va : 0 <= va < MAXVA ->
  user_page (mem ex_mapped) ex_root va = if va / PGSIZE =? 1 then ex_user else 0.
Proof.
  intros Hva. unfold user_page. rewrite ex_m3_leaf by done.
  rewrite (proj2 (Z.ltb_lt _ _)) by lia. by destruct (va / PGSIZE =? 1).
Qed.

Lemma ex_as : as_inv (H0 := ex_image) (mem ex_mapped) ex_root [].
Proof.
  split; [exact ex_m3_pt|]. intros va Hva. rewrite ex_user_page by done.
  destruct (va / PGSIZE =? 1); [|done]. intros _. split; [vm_compute; intuition congruence|].
  split; [apply not_elem_of_nil|]. intros path Hok.
  change (mem ex_mapped) with ex_m3. unfold ex_m3.
  rewrite (leaf_store_pages (H0 := ex_image) _ _ _ _ _ _ ex_m2_pt ex_leaf_addr) by done.
  rewrite ex_m2_page, ex_m1_page by done.
  destruct (decide _); [vm_compute; congruence|]. destruct (decide _); [vm_compute; congruence|].
  intros Hp. destruct (ex_vm_page path _ Hok Hp) as [_ E]. vm_compute in E. congruence.
Qed.

Lemma ex_mapped_alloc : alloc_inv (H0 := ex_image) ex_mapped [].
Proof.
  apply (alloc_inv_mem (H0 := ex_image) zero_kstate); [exact zero_alloc_inv| |set_solver].
  apply st64_bytes, link_mem_bytes, link_mem_bytes, st64_bytes, empty_bytes.
Qed.

Lemma copyout_spec_witness :
  exists r s', copyout (H := idle_world) ex_root 4100 [104; 105] 2 ex_mapped = Ok r s' /\
    as_inv (H0 := ex_image) (mem s') ex_root [].
Proof.
  destruct (copyout_spec (H := idle_world) (H0 := ex_image) ex_root [] 4100 [104; 105] ex_mapped)
    as (r & s' & Hr & _ & _ & _ & Has & _).
  - exact ex_image_ok.
  - exact ex_as.
  - exact ex_mapped_alloc.
  - repeat (apply Forall_cons_2; [unfold is_byte; lia|]). apply Forall_nil_2.
  - lia.
  - exists r, s'. split; [exact Hr|exact Has].
Defined.

Lemma copyin_spec_witness :
  exists r bytes, copyin (H := idle_world) ex_root 8190 4 ex_mapped = Ok (r, bytes) ex_mapped /\
    user_read (mem ex_mapped) ex_root 8190 4 r bytes.
Proof.
  apply (copyin_spec (H := idle_world) (H0 := ex_image) ex_root [] 8190 4 ex_mapped).
  - exact ex_image_ok.
  - exact ex_m3_pt.
  - lia.
  - lia.
Defined.

Lemma copyinstr_spec_witness :
  exists r bytes, copyinstr (H := idle_world) ex_root 4096 128 ex_mapped = Ok (r, bytes) ex_mapped /\
    user_string (mem ex_mapped) ex_root 4096 128 r bytes.
Proof.
  apply (copyinstr_spec (H := idle_world) (H0 := ex_image) ex_root [] 4096 128 ex_mapped).
  - exact ex_image_ok.
  - exact ex_m3_pt.
  - lia.
  - lia.
Defined.

Lemma ex_translate i : 0 <= i < 2 -> translate (mem ex_mapped) ex_root (4100 + i) = Some (ex_user + 4 + i).
Proof.
  intros Hi. unfold translate. rewrite ex_user_page by clia.
  replace ((4100 + i) / PGSIZE) with 1 by (consts; zdm).
  replace ((4100 + i) mod PGSIZE) with (4 + i) by (consts; zdm).
  cbn [Z.eqb Pos.eqb]. rewrite (proj2 (Z.eqb_neq _ _)) by (vm_compute; congruence). f_equal. lia.
Qed.

Lemma ex_copyout : exists s', copyout (H := idle_world) ex_root 4100 [104; 105] 2 ex_mapped = Ok 0 s'.
Proof.
  destruct (wp_run _ _ _ (wp_copyout (H := idle_world) (H0 := ex_image) ex_root [] 4100 [104; 105]
    ex_mapped ex_image_ok ex_as ltac:(lia))) as (r & s' & Hr & k & _ & _ & [[-> _]|(_ & Hk & Hn)]).
  - by exists s'.
  - exfalso. simpl in Hk. rewrite ex_translate in Hn by lia. done.
Qed.

Lemma copyout_copyin_witness :
  exists s', copyout (H := idle_world) ex_root 4100 [104; 105] 2 ex_mapped = Ok 0 s' /\
    copyin (H := idle_world) ex_root 4100 2 s' = Ok (0, [104; 105]) s'.
Proof.
  destruct ex_copyout as [s' Hs']. exists s'. split; [exact Hs'|].
  apply (copyout_copyin (H := idle_world) (H0 := ex_image) ex_root [] 4100 [104; 105] ex_mapped s').
  - exact ex_image_ok.
  - exact ex_as.
  - lia.
  - intros i j x Hi Hj. simpl in Hi, Hj. rewrite !ex_translate by lia. intros Ex Ey. congruence || (injection Ex; injection Ey; lia).
  - exact Hs'.
Defined.
