(* ===== verification/Uvm.v ===== *)
(** * kernel/vm.c: user address spaces

    What [uvmunmap], [uvmcopy] and [uvmalloc] (the definitions are in [Vm]) do to
    an address space as a whole: which pages are mapped, where the pages come from
    and go back to, what they hold, and that nothing else in memory changes. *)

From stdpp Require Import gmap strings list fin_maps.
From Stdlib Require Import ZArith Lia.
From S2P Require Import Prelude Machine Str State Riscv Spinlock Kalloc Vm Copy.
Open Scope Z_scope.

#[local] Opaque memset st64 ld64 memmove.

#[local] Abbreviation zlen ps := (Z.of_nat (length ps)).

Section Uvm.
Context `{World kstate} `{KernelImage}.

(** [p] is no table page of [root]. *)
Definition no_table (m : memory) (root p : Z) : Prop :=
  forall path, path_ok path -> pt_page m root path <> Some p.

(** From [va] on, the page table [root] maps the pages [ps], with leaf entries. *)
Definition holds (m : memory) (root va : Z) (ps : list Z) : Prop :=
  forall (i : nat) p, ps !! i = Some p -> let v := leaf_pte m root (va + Z.of_nat i * PGSIZE) in
    has v PTE_V = true /\ PTE_FLAGS v <> PTE_V /\ PTE2PA v = p.

(** The mapping [old] without the [n] pages from page number [pn] on. *)
Definition without (pn n : Z) (old : Z -> Z) (va : Z) : Z :=
  if (pn <=? va / PGSIZE) && (va / PGSIZE <? pn + n) then 0 else old va.

Lemma without_0 pn old va : without pn 0 old va = old va.
Proof.
  unfold without. destruct (Z.leb_spec pn (va / PGSIZE)), (Z.ltb_spec (va / PGSIZE) (pn + 0));
    cbn [andb]; (lia || done).
Qed.

Lemma without_S pn k old va : 0 <= k ->
  without pn (k + 1) old va = if va / PGSIZE =? pn + k then 0 else without pn k old va.
Proof.
  intros Hk. unfold without. destruct (Z.eqb_spec (va / PGSIZE) (pn + k)) as [->|].
  - rewrite (proj2 (Z.leb_le _ _)), (proj2 (Z.ltb_lt _ _)) by lia. done.
  - destruct (Z.leb_spec pn (va / PGSIZE)), (Z.ltb_spec (va / PGSIZE) (pn + (k + 1))),
      (Z.ltb_spec (va / PGSIZE) (pn + k)); cbn [andb]; (lia || done).
Qed.

(** What freeing the pages [ps], mapped from [va] on, leaves. *)
Record unmapped (root : Z) (s : kstate) (l : list Z) (va : Z) (ps : list Z) (s' : kstate) : Prop := {
  un_state : s' = set_freelist (freelist s') (set_mem (mem s') s);
  un_alloc : alloc_inv s' (reverse ps ++ l);
  un_tables : forall path, path_ok path -> pt_page (mem s') root path = pt_page (mem s) root path;
  un_entry : forall path p i, path_ok path -> pt_page (mem s) root path = Some p -> 0 <= i < 512 ->
    ld64 (mem s') (p + 8 * i) = ld64 (mem s) (p + 8 * i) \/ ld64 (mem s') (p + 8 * i) = 0;
  un_leaf : forall va', 0 <= va' < MAXVA -> leaf_pte (mem s') root va' =
    without (va / PGSIZE) (zlen ps) (leaf_pte (mem s) root) va';
  un_frame : forall q, q mod PGSIZE = 0 -> q ∉ ps -> no_table (mem s) root q ->
    same_page (mem s) (mem s') q
}.

Lemma unmapped_nil root s l va : alloc_inv s l -> unmapped root s l va [] s.
Proof. intros Ha. split; try done; [by destruct s|by left|]. intros. by rewrite without_0. Qed.

Lemma pt_inv_tables m m' root l l' :
  pt_inv m root l -> (forall path, path_ok path -> pt_page m' root path = pt_page m root path) ->
  (forall p, p ∈ l' -> p ∈ l \/ no_table m root p) -> pt_inv m' root l'.
Proof.
  intros [Hp Hj] Ht Hl. split.
  - intros path p Hok. rewrite Ht by done. intros E. destruct (Hp path p Hok E) as [? Hn].
    split; [done|]. intros Hin. destruct (Hl p Hin) as [|Hnt]; [done|]. by apply (Hnt path).
  - intros path path' p Hok Hok'. rewrite !Ht by done. by apply Hj.
Qed.

Lemma un_inv root s l va ps s' : pt_inv (mem s) root l -> unmapped root s l va ps s' ->
  Forall (no_table (mem s) root) ps -> pt_inv (mem s') root (reverse ps ++ l).
Proof.
  intros Hi Hu Hn. rewrite Forall_forall in Hn. eapply pt_inv_tables; [done|apply Hu|].
  intros p. rewrite elem_of_app, elem_of_reverse. intros [?|?]; [right; by apply Hn|by left].
Qed.

(** Freeing one more page and clearing its entry. *)
Lemma unmapped_snoc root s l va ps p s1 e :
  pt_inv (mem s) root l -> unmapped root s l va ps s1 -> Forall (no_table (mem s) root) (ps ++ [p]) ->
  0 <= va -> va + zlen ps * PGSIZE < MAXVA -> page_ok p ->
  leaf_addr (mem s1) root (va + zlen ps * PGSIZE) = Some e ->
  alloc_inv (set_freelist p (set_mem (freed_mem s1 p) s1)) (p :: reverse ps ++ l) ->
  unmapped root s l va (ps ++ [p])
    (set_mem (st64 (freed_mem s1 p) e 0) (set_freelist p (set_mem (freed_mem s1 p) s1))).
Proof.
  intros Hinv Hu Hnt Hva Hmax [Hpal Hpr] He Ha2. set (a := va + zlen ps * PGSIZE) in *.
  pose proof Hnt as Hnt'. apply Forall_app in Hnt' as [Hnt1 Hpn]. apply Forall_inv in Hpn.
  pose proof (un_inv _ _ _ _ _ _ Hinv Hu Hnt1) as Hinv1.
  assert (Hs : forall path q, path_ok path -> pt_page (mem s1) root path = Some q ->
            same_page (mem s1) (freed_mem s1 p) q).
  { intros path q Hok Hq. apply freed_mem_same; [done|by apply (pt_pages _ _ _ Hinv1 path q)|].
    intros ->. rewrite (un_tables _ _ _ _ _ _ Hu) in Hq by done. by apply (Hpn path). }
  pose proof (fun q => pt_page_same _ _ root q Hs) as Hpg.
  assert (Hinv2 : pt_inv (freed_mem s1 p) root (p :: reverse ps ++ l)).
  { eapply pt_inv_tables; [exact Hinv1|done|]. intros q [->|Hq]%elem_of_cons; [right|by left].
    intros path Hok. rewrite (un_tables _ _ _ _ _ _ Hu) by done. by apply Hpn. }
  assert (He2 : leaf_addr (freed_mem s1 p) root a = Some e)
    by (unfold leaf_addr; rewrite Hpg by apply path_ok_va; exact He).
  assert (H0r : 0 <= 0 < 2 ^ 64) by lia.
  destruct (pt_step_leaf root _ _ a e 0 Ha2 Hinv2 He2) as [_ Hal3 _ _ _ _ _ Hfr].
  revert Hal3 Hfr. fields. intros Hal3 Hfr. split; fields.
  - rewrite (un_state _ _ _ _ _ _ Hu). by fields.
  - by rewrite reverse_snoc.
  - intros path Hok. erewrite leaf_store_pages by done. rewrite Hpg by done. by apply Hu.
  - intros path q i Hok Hq Hi. assert (Hq1 : pt_page (mem s1) root path = Some q)
      by (by rewrite (un_tables _ _ _ _ _ _ Hu)).
    destruct (leaf_addr_page _ _ _ _ _ Hinv2 He2) as (t & Ht & -> & [Htal _] & _).
    destruct (pt_pages _ _ _ Hinv1 path q Hok Hq1) as [[Hqal _] _].
    destruct (decide (q = t /\ i = PX 0 a)) as [[-> ->]|Hne]; [right; by apply ld64_st64_same|].
    assert (Hap : q <> t \/ i <> PX 0 a)
      by (clear - Hne; destruct (decide (q = t)), (decide (i = PX 0 a)); tauto).
    pose proof (entry_apart q t i (PX 0 a) Hqal Htal Hi (PX_range 0 a ltac:(lia)) Hap).
    rewrite ld64_st64_out by lia.
    rewrite (ld64_entry_same _ _ q i (Hs path q Hok Hq1) Hi). by apply (un_entry _ _ _ _ _ _ Hu path).
  - intros va' Hva'. rewrite (leaf_store_pte _ _ _ a e 0 Hinv2 He2) by clia.
    unfold a. rewrite Z.div_add, length_app, Nat2Z.inj_add, without_S by clia.
    rewrite (leaf_pte_same _ _ root va' Hs). by rewrite (un_leaf _ _ _ _ _ _ Hu).
  - intros q Hq Hqn Hqt. apply not_elem_of_app in Hqn as [Hq1 Hq2].
    eapply same_page_trans; [by apply Hu|]. eapply same_page_trans.
    + apply (freed_mem_same s1 p q); [done|done|intros ->; apply Hq2; by left].
    + eapply leaf_store_frame; [exact Hinv2|exact He2|done|]. intros path Hok.
      rewrite Hpg, (un_tables _ _ _ _ _ _ Hu) by done. by apply Hqt.
Qed.

(** One page of the loop. *)
Lemma wp_unmap_page root s l va ps p s1 :
  image_ok -> pt_inv (mem s) root l -> unmapped root s l va ps s1 ->
  0 <= va -> va mod PGSIZE = 0 -> va + zlen ps * PGSIZE < MAXVA ->
  holds (mem s) root va (ps ++ [p]) -> Forall (no_table (mem s) root) (ps ++ [p]) ->
  page_ok p -> p ∉ l -> p ∉ ps ->
  wp (let* pte := walk root (va + zlen ps * PGSIZE) false in
      if pte =? 0 then panic "uvmunmap: walk"
      else
      let* v := ldm64 pte in
      if negb (has v PTE_V) then panic "uvmunmap: not mapped"
      else if PTE_FLAGS v =? PTE_V then panic "uvmunmap: not a leaf"
      else
      when true (kfree (PTE2PA v)) ;;;
      stm64 pte 0) (fun _ s' => unmapped root s l va (ps ++ [p]) s') s1.
Proof.
  intros Himg Hinv Hu Hva Hal Hmax Hh Hnt Hp Hpl Hps. set (a := va + zlen ps * PGSIZE) in *.
  pose proof (un_inv _ _ _ _ _ _ Hinv Hu (proj1 (proj1 (Forall_app _ _ _) Hnt))) as Hinv1.
  assert (Ea : a / PGSIZE = va / PGSIZE + zlen ps) by (unfold a; apply Z.div_add; clia).
  assert (Ev : leaf_pte (mem s1) root a = leaf_pte (mem s) root a).
  { rewrite (un_leaf _ _ _ _ _ _ Hu) by clia. unfold without. rewrite Ea, (proj2 (Z.ltb_ge _ _)) by lia.
    by rewrite andb_false_r. }
  destruct (Hh (length ps) p (list_lookup_middle _ [] _ _ eq_refl)) as (Hv & Hf & Hpa).
  fold a in Hv, Hf, Hpa. rewrite <- Ev in Hv, Hf, Hpa.
  wstep. apply wp_ok. do 2 eexists. split; [apply walk_noalloc; lia|].
  destruct (leaf_addr (mem s1) root a) as [e|] eqn:He;
    [|unfold leaf_pte in Hv; rewrite He in Hv; by vm_compute in Hv].
  assert (El : leaf_pte (mem s1) root a = ld64 (mem s1) e) by (unfold leaf_pte; by rewrite He).
  cbn [from_option id].
  rewrite (proj2 (Z.eqb_neq _ _)) by (by eapply leaf_addr_nonzero).
  unfold ldm64, stm64, modify_mem. wsteps. rewrite <- El, Hv. cbn [negb].
  rewrite (proj2 (Z.eqb_neq _ _) Hf). cbn [when]. rewrite Hpa. wsteps.
  eapply wp_kfree; [done|apply Hu|done|by rewrite elem_of_app, elem_of_reverse; intros []|].
  intros Ha2. wsteps. by apply unmapped_snoc.
Qed.

(** The addresses a page loop still has to visit after [k] of [n] pages. *)
Definition pages_left (va k n : Z) : list Z := (fun i => va + i * PGSIZE) <$> seqZ k (n - k).

Lemma pages_left_cons va k n x l : 0 <= k <= n -> pages_left va k n = x :: l ->
  k < n /\ x = va + k * PGSIZE /\ l = pages_left va (k + 1) n.
Proof.
  intros Hk. unfold pages_left. destruct (decide (k = n)) as [->|].
  - by rewrite Z.sub_diag.
  - rewrite seqZ_cons by lia. cbn [fmap list_fmap]. intros [= <- <-].
    split; [lia|]. split; [done|]. f_equal. f_equal; lia.
Qed.

Lemma pages_left_nil va k n : 0 <= k <= n -> pages_left va k n = [] -> k = n.
Proof.
  intros Hk E. destruct (decide (k = n)) as [|]; [done|]. exfalso.
  unfold pages_left in E. by rewrite seqZ_cons in E by lia.
Qed.

Lemma wp_uvmunmap root s l va ps :
  image_ok -> alloc_inv s l -> pt_inv (mem s) root l ->
  0 <= va -> va mod PGSIZE = 0 -> va + zlen ps * PGSIZE <= MAXVA ->
  holds (mem s) root va ps -> Forall (no_table (mem s) root) ps ->
  Forall page_ok ps -> NoDup ps -> (forall p, p ∈ ps -> p ∉ l) ->
  wp (uvmunmap root va (zlen ps) true) (fun _ s' => unmapped root s l va ps s') s.
Proof.
  intros Himg Ha Hinv Hva Hal Hmax Hh Hnt Hok Hnd Hnl. unfold uvmunmap.
  rewrite (proj2 (Z.eqb_eq _ _) Hal). cbn [negb]. rewrite u64_id by clia.
  replace ((va + zlen ps * PGSIZE - va) / PGSIZE) with (zlen ps)
    by (rewrite Z.add_simpl_l, Z.div_mul by clia; done).
  eapply wp_mono; [eapply (wp_for_all _ _ (fun rest s' => exists k, (k <= length ps)%nat /\
    rest = pages_left va (Z.of_nat k) (zlen ps) /\ unmapped root s l va (take k ps) s'))|].
  - exists 0%nat. split; [lia|]. split; [unfold page_seq, pages_left; f_equal; f_equal; lia|].
    rewrite take_0. by apply unmapped_nil.
  - intros x rest s1 (k & Hk & E & Hu). symmetry in E.
    apply pages_left_cons in E as (Hlt & -> & ->); [|lia].
    destruct (lookup_lt_is_Some_2 ps k) as [p Hp]; [lia|].
    pose proof (take_S_r _ _ _ Hp) as Et. pose proof (list_elem_of_lookup_2 _ _ _ Hp) as Hin.
    assert (El : zlen (take k ps) = Z.of_nat k) by (rewrite length_take; lia).
    eapply wp_mono; [rewrite <- El; apply (wp_unmap_page root s l va (take k ps) p s1); try done|].
    + rewrite El. clia.
    + rewrite <- Et. intros i q Hq. apply Hh. by eapply lookup_take_Some.
    + rewrite <- Et. by apply Forall_take.
    + by apply (proj1 (Forall_forall _ _) Hok).
    + by apply Hnl.
    + intros (i & Hi)%list_elem_of_lookup. apply lookup_take_Some in Hi as [Hi Hik].
      pose proof (NoDup_lookup _ _ _ _ Hnd Hi Hp). lia.
    + cbv beta. intros _ s2 Hu2. exists (S k). rewrite Et. split; [lia|]. split; [f_equal; lia|done].
  - cbv beta. intros _ s' (k & Hk & E & Hu). symmetry in E. apply pages_left_nil in E; [|lia].
    rewrite take_ge in Hu by lia. done.
Qed.

(** ** Adding pages

    [grown s' l' ps]: from [s] with free pages [l], the pages [ps], taken from the
    free list, have been mapped from [va] on, the [i]-th with permissions [perm i]
    and contents [data i]; [l'] are the pages that are still free. *)
Section Grow.
Context (root : Z) (s : kstate) (l : list Z) (va : Z) (perm : nat -> Z) (data : nat -> Z -> Z).

Record grown (s' : kstate) (l' : list Z) (ps : list Z) : Prop := {
  gr_state : s' = set_freelist (freelist s') (set_mem (mem s') s);
  gr_alloc : alloc_inv s' l';
  gr_pt : pt_inv (mem s') root l';
  gr_free : forall q, q ∈ l' -> q ∈ l;
  gr_nodup : NoDup ps;
  gr_pages : forall p, p ∈ ps -> page_ok p /\ p ∈ l /\ (p ∉ l') /\ no_table (mem s') root p;
  gr_used : forall q, q ∈ l -> q ∈ l' \/ q ∈ ps \/
    exists path, path_ok path /\ pt_page (mem s') root path = Some q;
  gr_new : forall path p, path_ok path -> pt_page (mem s') root path = Some p ->
    pt_page (mem s) root path = Some p \/ p ∈ l;
  gr_leaf : forall i p va', ps !! i = Some p -> 0 <= va' < MAXVA ->
    va' / PGSIZE = va / PGSIZE + Z.of_nat i -> leaf_pte (mem s') root va' = make_pte p (perm i);
  gr_other : forall va', 0 <= va' < MAXVA ->
    ~ (va / PGSIZE <= va' / PGSIZE < va / PGSIZE + zlen ps) ->
    leaf_pte (mem s') root va' = leaf_pte (mem s) root va';
  gr_data : forall i p j, ps !! i = Some p -> 0 <= j < PGSIZE -> ld8 (mem s') (p + j) = data i j;
  gr_frame : forall q, q mod PGSIZE = 0 -> q ∉ l -> no_table (mem s) root q ->
    same_page (mem s) (mem s') q
}.

Lemma grown_nil : alloc_inv s l -> pt_inv (mem s) root l -> grown s l [].
Proof.
  intros Ha Hp. split; try done; [by destruct s|constructor|set_solver|by left|by left].
Qed.

(** A page taken from the free list and filled, before it is mapped. *)
Record taken (s1 : kstate) (l1 ps : list Z) (p : Z) (s2 : kstate) : Prop := {
  tk_page : page_ok p;
  tk_free : p ∉ l1;
  tk_state : s2 = set_freelist (freelist s2) (set_mem (mem s2) s1);
  tk_alloc : alloc_inv s2 l1;
  tk_frame : forall q, q mod PGSIZE = 0 -> q <> p -> same_page (mem s1) (mem s2) q
}.

Lemma taken_tables s1 l1 ps p s2 : grown s1 (p :: l1) ps -> taken s1 l1 ps p s2 ->
  pt_inv (mem s2) root l1 /\
  (forall path, path_ok path -> pt_page (mem s2) root path = pt_page (mem s1) root path) /\
  (forall va', leaf_pte (mem s2) root va' = leaf_pte (mem s1) root va') /\
  no_table (mem s2) root p.
Proof.
  intros Hg Ht.
  assert (Hnp : no_table (mem s1) root p).
  { intros path Hok E. destruct (pt_pages _ _ _ (gr_pt _ _ _ Hg) path p Hok E) as [_ Hn]. apply Hn. by left. }
  assert (Hs : forall path q, path_ok path -> pt_page (mem s1) root path = Some q ->
            same_page (mem s1) (mem s2) q).
  { intros path q Hok E. apply Ht; [by apply (pt_pages _ _ _ (gr_pt _ _ _ Hg) path q)|].
    intros ->. by apply (Hnp path). }
  pose proof (fun q => pt_page_same _ _ root q Hs) as Hpg. split; [|split; [done|split]].
  - eapply pt_inv_tables; [apply Hg|done|]. intros q Hq. left. by right.
  - intros va'. by apply leaf_pte_same.
  - intros path Hok. rewrite Hpg by done. by apply Hnp.
Qed.

(** What mapping it changes, in terms of the state before it was taken. *)
Lemma mapped_taken s1 l1 ps p s2 s3 l3 :
  grown s1 (p :: l1) ps -> taken s1 l1 ps p s2 -> pt_step root s2 l1 s3 l3 ->
  (forall path q, path_ok path -> pt_page (mem s3) root path = Some q ->
     pt_page (mem s) root path = Some q \/ q ∈ l) /\
  (forall q, q mod PGSIZE = 0 -> q <> p -> q ∉ l1 -> no_table (mem s1) root q ->
     same_page (mem s1) (mem s3) q) /\
  (forall q, q ∉ l1 -> no_table (mem s1) root q -> no_table (mem s3) root q).
Proof.
  intros Hg Ht Hst. destruct (taken_tables _ _ _ _ _ Hg Ht) as (_ & Hpg & _ & _).
  assert (Hl1 : forall q, q ∈ l1 -> q ∈ l) by (intros q Hq; apply (gr_free _ _ _ Hg); by right).
  split; [|split].
  - intros path q Hok E. destruct (step_new _ _ _ _ _ Hst path q Hok E) as [E'|]; [|by auto].
    rewrite Hpg in E' by done. by apply Hg.
  - intros q Hq Hqp Hql Hqt. eapply same_page_trans; [by apply Ht|].
    apply (step_frame _ _ _ _ _ Hst); [done|done|]. intros path Hok. rewrite Hpg by done. by apply Hqt.
  - intros q Hql Hqt path Hok E. destruct (step_new _ _ _ _ _ Hst path q Hok E) as [E'|]; [|done].
    rewrite Hpg in E' by done. by apply (Hqt path).
Qed.

(** A change that spares the pages outside [p], [l1] and the tables of [s1]
    spares the contents of [ps] and what is outside [l] and the tables of [s]. *)
Lemma spared s1 l1 ps p m :
  grown s1 (p :: l1) ps ->
  (forall q, q mod PGSIZE = 0 -> q <> p -> q ∉ l1 -> no_table (mem s1) root q ->
     same_page (mem s1) m q) ->
  (forall i q j, ps !! i = Some q -> 0 <= j < PGSIZE -> ld8 m (q + j) = data i j) /\
  (forall q, q mod PGSIZE = 0 -> q ∉ l -> no_table (mem s) root q -> same_page (mem s) m q).
Proof.
  intros Hg Hfr. split.
  - intros i q j Hi Hj. pose proof (list_elem_of_lookup_2 _ _ _ Hi) as Hq.
    destruct (gr_pages _ _ _ Hg q Hq) as ([Hqal _] & _ & Hq1 & Hqt). apply not_elem_of_cons in Hq1 as [Hqp Hq1].
    rewrite <- (Hfr q Hqal Hqp Hq1 Hqt j Hj). by apply Hg.
  - intros q Hq Hql Hqt. eapply same_page_trans; [by apply Hg|]. apply Hfr; [done|intros ->| |].
    + apply Hql, (gr_free _ _ _ Hg). by left.
    + intros Hq1. apply Hql, (gr_free _ _ _ Hg). by right.
    + intros path Hok E. destruct (gr_new _ _ _ Hg path q Hok E) as [E0|]; [|done]. by apply (Hqt path).
Qed.

(** The page is mapped: one more page of the address space. *)
Lemma grown_snoc s1 l1 ps p s2 s3 l3 :
  image_ok -> grown s1 (p :: l1) ps -> taken s1 l1 ps p s2 ->
  0 <= va -> va mod PGSIZE = 0 -> va + zlen ps * PGSIZE < MAXVA ->
  (forall j, 0 <= j < PGSIZE -> ld8 (mem s2) (p + j) = data (length ps) j) ->
  maps root s2 l1 (va / PGSIZE + zlen ps) 1 p (perm (length ps)) s3 l3 ->
  grown s3 l3 (ps ++ [p]).
Proof.
  intros Himg Hg Ht Hva Hal Hmax Hd [Hst Hlf].
  destruct (taken_tables _ _ _ _ _ Hg Ht) as (Hpt2 & Hpg & Hl2 & Hnp).
  destruct (mapped_taken _ _ _ _ _ _ _ Hg Ht Hst) as (Hnew & Hfr & Hnt).
  destruct (spared _ _ _ _ _ Hg Hfr) as [Hdata Hframe].
  destruct (step_free _ _ _ _ _ Hst) as [used Hused].
  assert (Hl3 : forall q, q ∈ l3 -> q ∈ l1) by (intros q Hq; rewrite Hused; by apply elem_of_app; right).
  assert (Hpl : p ∈ l) by (apply (gr_free _ _ _ Hg); by left).
  assert (Hpps : p ∉ ps) by (intros Hq; destruct (gr_pages _ _ _ Hg p Hq) as (_ & _ & Hn & _); apply Hn; by left).
  split.
  - rewrite (step_state _ _ _ _ _ Hst), (tk_state _ _ _ _ _ Ht), (gr_state _ _ _ Hg). by fields.
  - apply Hst.
  - apply Hst.
  - intros q Hq. apply (gr_free _ _ _ Hg). right. by apply Hl3.
  - apply NoDup_app. split; [apply Hg|]. split; [|apply NoDup_singleton].
    intros q Hq ->%list_elem_of_singleton. done.
  - intros q [Hq| ->%list_elem_of_singleton]%elem_of_app.
    + destruct (gr_pages _ _ _ Hg q Hq) as (Hok & Hql & Hq1 & Hqt). apply not_elem_of_cons in Hq1 as [_ Hq1].
      split; [done|]. split; [done|]. split; [by auto|]. by apply Hnt.
    + split; [apply Ht|]. split; [done|]. split; [intros Hq; by apply (tk_free _ _ _ _ _ Ht), Hl3|].
      apply Hnt; [apply (tk_free _ _ _ _ _ Ht)|]. intros path Hok. rewrite <- Hpg by done. by apply Hnp.
  - intros q Hq. rewrite elem_of_app, list_elem_of_singleton.
    destruct (gr_used _ _ _ Hg q Hq) as [[->|Hq1]%elem_of_cons|[Hq1|(path & Hok & E)]]; [by auto| |by auto|].
    + destruct (step_used _ _ _ _ _ Hst q Hq1); auto.
    + right. right. exists path. split; [done|]. apply (step_keep _ _ _ _ _ Hst); [done|]. by rewrite Hpg.
  - done.
  - intros i q va' [Hi|[Hi Hq]]%lookup_app_Some Hv E; rewrite (Hlf va' Hv); unfold mapped.
    + pose proof (lookup_lt_Some _ _ _ Hi). rewrite (proj2 (Z.leb_gt _ _)) by lia. cbn [andb].
      rewrite Hl2. by eapply (gr_leaf _ _ _ Hg).
    + apply list_lookup_singleton_Some in Hq as [Hi0 <-]. assert (i = length ps) as -> by lia.
      rewrite (proj2 (Z.leb_le _ _)), (proj2 (Z.ltb_lt _ _)) by lia. cbn [andb]. f_equal. lia.
  - intros va' Hv Hout. rewrite length_app, Nat2Z.inj_add in Hout. cbn [length] in Hout.
    rewrite (Hlf va' Hv). unfold mapped.
    destruct (Z.leb_spec (va / PGSIZE + zlen ps) (va' / PGSIZE)),
      (Z.ltb_spec (va' / PGSIZE) (va / PGSIZE + zlen ps + 1)); cbn [andb]; try lia;
      rewrite Hl2; apply Hg; (done || lia).
  - intros i q j [Hi|[Hi Hq]]%lookup_app_Some Hj.
    + by apply Hdata.
    + apply list_lookup_singleton_Some in Hq as [Hi0 <-]. assert (i = length ps) as -> by lia.
      rewrite <- Hd by done. symmetry.
      apply (step_frame _ _ _ _ _ Hst); [apply (tk_page _ _ _ _ _ Ht)|apply (tk_free _ _ _ _ _ Ht)|apply Hnp|done].
  - done.
Qed.

(** The page could not be mapped and is freed again. *)
Lemma grown_freed s1 l1 ps p s2 s3 :
  image_ok -> grown s1 (p :: l1) ps -> taken s1 l1 ps p s2 ->
  maps root s2 l1 (va / PGSIZE + zlen ps) 0 p (perm (length ps)) s3 [] ->
  alloc_inv (set_freelist p (set_mem (freed_mem s3 p) s3)) [p] ->
  grown (set_freelist p (set_mem (freed_mem s3 p) s3)) [p] ps.
Proof.
  intros Himg Hg Ht [Hst Hlf] Ha.
  destruct (taken_tables _ _ _ _ _ Hg Ht) as (Hpt2 & Hpg & Hl2 & Hnp).
  destruct (mapped_taken _ _ _ _ _ _ _ Hg Ht Hst) as (Hnew & Hfr & Hnt).
  pose proof (tk_page _ _ _ _ _ Ht) as [Hpal _].
  assert (Hpl : p ∈ l) by (apply (gr_free _ _ _ Hg); by left).
  assert (Hnp3 : no_table (mem s3) root p).
  { apply Hnt; [apply (tk_free _ _ _ _ _ Ht)|]. intros path Hok. rewrite <- Hpg by done. by apply Hnp. }
  assert (Hs : forall path q, path_ok path -> pt_page (mem s3) root path = Some q ->
            same_page (mem s3) (freed_mem s3 p) q).
  { intros path q Hok E. apply freed_mem_same; [done|by apply (pt_pages _ _ _ (step_pt _ _ _ _ _ Hst) path q)|].
    intros ->. by apply (Hnp3 path). }
  pose proof (fun q => pt_page_same _ _ root q Hs) as Hpg3.
  pose proof (fun va' => leaf_pte_same _ _ root va' Hs) as Hl3.
  assert (Hlf' : forall va', 0 <= va' < MAXVA -> leaf_pte (freed_mem s3 p) root va' = leaf_pte (mem s1) root va').
  { intros va' Hv. by rewrite Hl3, Hlf, mapped_0. }
  destruct (spared s1 l1 ps p (freed_mem s3 p) Hg) as [Hdata Hframe].
  { intros q Hq Hqp Hql Hqt. eapply same_page_trans; [by apply Hfr|]. by apply freed_mem_same. }
  split; fields.
  - rewrite (step_state _ _ _ _ _ Hst), (tk_state _ _ _ _ _ Ht), (gr_state _ _ _ Hg). by fields.
  - done.
  - eapply pt_inv_tables; [apply Hst|done|]. intros q ->%list_elem_of_singleton. by right.
  - by intros q ->%list_elem_of_singleton.
  - apply Hg.
  - intros q Hq. destruct (gr_pages _ _ _ Hg q Hq) as (Hok & Hql & Hq1 & Hqt).
    apply not_elem_of_cons in Hq1 as [Hqp Hq1]. split; [done|]. split; [done|].
    split; [by rewrite list_elem_of_singleton|]. intros path Hpo. rewrite Hpg3 by done. by apply Hnt.
  - intros q Hq. destruct (gr_used _ _ _ Hg q Hq) as [[->|Hq1]%elem_of_cons|[Hq1|(path & Hok & E)]].
    + left. by left.
    + destruct (step_used _ _ _ _ _ Hst q Hq1) as [[]%not_elem_of_nil|(path & Hok & E)].
      right. right. exists path. by rewrite Hpg3.
    + by auto.
    + right. right. exists path. split; [done|]. rewrite Hpg3 by done.
      apply (step_keep _ _ _ _ _ Hst); [done|]. by rewrite Hpg.
  - intros path q Hok. rewrite Hpg3 by done. by apply Hnew.
  - intros i q va' Hi Hv E. rewrite Hlf' by done. by eapply (gr_leaf _ _ _ Hg).
  - intros va' Hv Hout. rewrite Hlf' by done. by apply Hg.
  - done.
  - done.
Qed.

(** The common body of the two loops that add pages: [kalloc], fill, [mappages],
    with [fail] where the memory runs out: one page takes at most three, itself and
    two tables. *)
Lemma wp_grow_page {A} (s1 : kstate) l1 ps a pm (fill : memory -> Z -> memory) (fail done_ : K A) Q :
  image_ok -> grown s1 l1 ps -> zlen l <= zlen l1 + 3 * zlen ps ->
  0 <= va -> va mod PGSIZE = 0 -> a = va + zlen ps * PGSIZE -> a < MAXVA ->
  pm = perm (length ps) -> 0 <= pm < 1024 ->
  (forall va', 0 <= va' < MAXVA -> va' / PGSIZE = a / PGSIZE -> has (leaf_pte (mem s) root va') PTE_V = false) ->
  (forall m p, mem_bytes m -> mem_bytes (fill m p)) ->
  (forall m p q, p mod PGSIZE = 0 -> q mod PGSIZE = 0 -> q <> p -> same_page m (fill m p) q) ->
  (forall m p j, page_ok p -> p ∈ l -> (forall q, q mod PGSIZE = 0 -> q ∉ l -> no_table (mem s) root q ->
     same_page (mem s) m q) -> 0 <= j < PGSIZE -> ld8 (fill m p) (p + j) = data (length ps) j) ->
  (forall s2 l2, grown s2 l2 ps -> zlen l < 3 * (zlen ps + 1) -> wp fail Q s2) ->
  (forall s2 l2 p, grown s2 l2 (ps ++ [p]) -> zlen l <= zlen l2 + 3 * (zlen ps + 1) -> wp done_ Q s2) ->
  wp (let* mem := kalloc in
      if mem =? 0 then fail
      else
      modify_mem (fun m => fill m mem) ;;;
      let* r := mappages root a PGSIZE mem pm in
      if negb (r =? 0) then kfree mem ;;; fail
      else done_) Q s1.
Proof.
  intros Himg Hg Hc Hva Hal Ea Hmax Epm Hpm Hun Hfb Hff Hfd Hfail Hdone. wstep.
  destruct l1 as [|p l1]; [eapply wp_kalloc_nil; [apply Hg|]; cbn [Z.eqb]; eapply Hfail; [exact Hg|simpl in Hc; lia]|].
  eapply wp_kalloc_cons; [done|apply Hg|]. intros Ha2 Hp Hpl.
  rewrite (proj2 (Z.eqb_neq _ _) (page_ok_nonzero p Himg Hp)). unfold modify_mem. wsteps.
  set (s2 := set_mem _ _).
  assert (Ht : taken s1 l1 ps p s2).
  { split; [done|done|unfold s2; by fields| |].
    - apply alloc_inv_mem; [done|apply Hfb, Ha2|]. fields. intros q Hq.
      apply Hff; [apply Hp| |by intros ->].
      by apply (proj1 (Forall_forall _ _) (alloc_pages _ _ Ha2)).
    - intros q Hq Hqp. unfold s2. fields. eapply same_page_trans; [|apply Hff; [apply Hp|done|done]].
      apply same_page_memset; [apply Hp|done|by intros ->]. }
  assert (Hpin : p ∈ l) by (apply (gr_free _ _ _ Hg); by left).
  assert (Hd : forall j, 0 <= j < PGSIZE -> ld8 (mem s2) (p + j) = data (length ps) j).
  { intros j Hj. unfold s2. fields. apply Hfd; [done|done| |done]. intros q Hq Hql Hqt.
    eapply same_page_trans; [by apply Hg|]. apply same_page_memset; [apply Hp|done|by intros ->]. }
  clearbody s2. destruct (taken_tables _ _ _ _ _ Hg Ht) as (Hpt2 & _ & Hl2 & _).
  assert (Ea' : a / PGSIZE = va / PGSIZE + zlen ps) by (rewrite Ea; apply Z.div_add; clia).
  assert (Esp : span a PGSIZE = 1) by (unfold span; consts; zdm).
  pose proof (page_ok_range p Himg Hp). assert (a + PGSIZE <= MAXVA) by (consts; zdm).
  eapply wp_mono; [apply (wp_mappages root s2 l1); try done; try clia; [apply Ht|]|].
  { rewrite Esp. intros va' Hv Hpg. rewrite Hl2, (gr_other _ _ _ Hg) by (done || lia).
    apply Hun; [done|lia]. }
  cbv beta. rewrite Esp, Ea', Epm. intros r s3 (l3 & k & Hm & [(-> & -> & Hc3)|(-> & -> & Hk & Hc3)]); cbn [Z.eqb negb];
    cbn [length] in Hc.
  - eapply Hdone; [eapply grown_snoc; eauto with lia|lia].
  - assert (k = 0) as -> by lia. wsteps.
    eapply wp_kfree; [done|apply Hm|done|set_solver|]. intros Ha4. eapply Hfail; [eapply grown_freed; eauto|lia].
Qed.

(** The pages are unmapped and freed again: [n] pages from [va] on are not mapped,
    and every page that was free is free or a table page of [root]. *)
Record undone (n : Z) (s' : kstate) (l' : list Z) : Prop := {
  ud_state : s' = set_freelist (freelist s') (set_mem (mem s') s);
  ud_alloc : alloc_inv s' l';
  ud_pt : pt_inv (mem s') root l';
  ud_used : forall q, q ∈ l -> q ∈ l' \/ exists path, path_ok path /\ pt_page (mem s') root path = Some q;
  ud_leaf : forall va', 0 <= va' < MAXVA ->
    leaf_pte (mem s') root va' = without (va / PGSIZE) n (leaf_pte (mem s) root) va';
  ud_frame : forall q, q mod PGSIZE = 0 -> q ∉ l -> no_table (mem s) root q -> same_page (mem s) (mem s') q
}.

Lemma unmapped_undone s1 l1 ps s2 :
  grown s1 l1 ps -> unmapped root s1 l1 va ps s2 -> undone (zlen ps) s2 (reverse ps ++ l1).
Proof.
  intros Hg Hu. split.
  - rewrite (un_state _ _ _ _ _ _ Hu), (gr_state _ _ _ Hg). by fields.
  - apply Hu.
  - eapply un_inv; [apply Hg|done|]. apply Forall_forall. intros p Hp. by apply (gr_pages _ _ _ Hg).
  - intros q Hq. rewrite elem_of_app, elem_of_reverse.
    destruct (gr_used _ _ _ Hg q Hq) as [|[|(path & Hok & E)]]; [by auto..|].
    right. exists path. by rewrite (un_tables _ _ _ _ _ _ Hu).
  - intros va' Hv. rewrite (un_leaf _ _ _ _ _ _ Hu) by done. unfold without.
    destruct (Z.leb_spec (va / PGSIZE) (va' / PGSIZE)),
      (Z.ltb_spec (va' / PGSIZE) (va / PGSIZE + zlen ps)); cbn [andb]; [done|..]; apply Hg; (done || lia).
  - intros q Hq Hql Hqt. eapply same_page_trans; [by apply Hg|]. apply Hu; [done| |].
    + intros Hin. by destruct (gr_pages _ _ _ Hg q Hin) as (_ & ? & _).
    + intros path Hok E. destruct (gr_new _ _ _ Hg path q Hok E) as [E0|]; [|done]. by apply (Hqt path).
Qed.

Lemma wp_undo s1 l1 ps :
  image_ok -> grown s1 l1 ps ->
  0 <= va -> va mod PGSIZE = 0 -> va + zlen ps * PGSIZE <= MAXVA ->
  (forall i, (i < length ps)%nat -> 0 <= perm i < 1024 /\ Z.lor (perm i) PTE_V <> PTE_V) ->
  wp (uvmunmap root va (zlen ps) true) (fun _ s2 => exists l2, undone (zlen ps) s2 l2) s1.
Proof.
  intros Himg Hg Hva Hal Hmax Hperm.
  assert (Hps : forall p, p ∈ ps -> page_ok p /\ p ∈ l /\ (p ∉ l1) /\ no_table (mem s1) root p) by apply Hg.
  eapply wp_mono; [apply (wp_uvmunmap root s1 l1 va ps); try done; try apply Hg|].
  - intros i p Hi v. pose proof (lookup_lt_Some _ _ _ Hi) as Hlt. destruct (Hperm i Hlt) as [Hr Hf].
    destruct (Hps p (list_elem_of_lookup_2 _ _ _ Hi)) as (Hok & _).
    pose proof (page_ok_56 p Himg Hok) as H56. destruct Hok as [Hpal _].
    assert (v = make_pte p (perm i)) as ->.
    { apply (gr_leaf _ _ _ Hg i p); [done|clia|]. rewrite Z.div_add by clia. done. }
    rewrite make_pte_valid, make_pte_flags, make_pte_pa by done. done.
  - apply Forall_forall. intros p Hp. by apply Hps.
  - apply Forall_forall. intros p Hp. by apply Hps.
  - cbv beta. intros _ s2 Hu. exists (reverse ps ++ l1). by eapply unmapped_undone.
Qed.
End Grow.

(** ** Copying an address space *)
Section Fork.
Context (old new : Z) (s : kstate) (l : list Z) (n : Z).

(** What [uvmcopy] relies on: two page tables that share no table page; in the
    first, the first [n] pages are mapped, to pages that are neither free nor table
    pages of the second; in the second, they are not mapped. *)
Record forkable : Prop := {
  fk_old : pt_inv (mem s) old l;
  fk_new : pt_inv (mem s) new l;
  fk_apart : forall path p, path_ok path -> pt_page (mem s) old path = Some p -> no_table (mem s) new p;
  fk_pages : forall i, 0 <= i < n -> let v := leaf_pte (mem s) old (i * PGSIZE) in
    has v PTE_V = true /\ PTE_FLAGS v <> PTE_V /\ (PTE2PA v ∉ l) /\ no_table (mem s) new (PTE2PA v);
  fk_empty : forall va, 0 <= va < n * PGSIZE -> has (leaf_pte (mem s) new va) PTE_V = false
}.

Definition parent_perm (i : nat) : Z := PTE_FLAGS (leaf_pte (mem s) old (Z.of_nat i * PGSIZE)).
Definition parent_data (i : nat) (j : Z) : Z :=
  ld8 (mem s) (PTE2PA (leaf_pte (mem s) old (Z.of_nat i * PGSIZE)) + j).

Lemma parent_same m va : forkable ->
  (forall q, q mod PGSIZE = 0 -> q ∉ l -> no_table (mem s) new q -> same_page (mem s) m q) ->
  leaf_addr m old va = leaf_addr (mem s) old va /\ leaf_pte m old va = leaf_pte (mem s) old va.
Proof.
  intros Hf Hfr.
  assert (Hs : forall path p, path_ok path -> pt_page (mem s) old path = Some p -> same_page (mem s) m p).
  { intros path p Hok E. destruct (pt_pages _ _ _ (fk_old Hf) path p Hok E) as [[Hal _] Hl].
    apply Hfr; [done|done|]. by eapply fk_apart. }
  split; [|by apply leaf_pte_same]. unfold leaf_addr. by rewrite (pt_page_same _ _ _ _ Hs (path_ok_va va)).
Qed.

Lemma PTE_FLAGS_range v : 0 <= PTE_FLAGS v < 1024.
Proof. unfold PTE_FLAGS. change 1023 with (Z.ones 10). rewrite Z.land_ones by lia. apply Z.mod_pos_bound. lia. Qed.

Lemma flags_valid v : has v PTE_V = true -> Z.lor (PTE_FLAGS v) PTE_V = PTE_FLAGS v.
Proof.
  intros Hv. unfold has in Hv. apply negb_true_iff, Z.eqb_neq in Hv.
  change PTE_V with (Z.ones 1) in *. rewrite Z.land_ones in Hv by lia.
  apply Z.bits_inj'. intros i Hi. unfold PTE_FLAGS. rewrite Z.lor_spec, Z.land_spec.
  destruct (decide (i = 0)) as [->|].
  - rewrite Z.bit0_odd, Zodd_mod. change (2 ^ 1) with 2 in Hv.
    assert (v mod 2 = 1) as -> by (pose proof (Z.mod_pos_bound v 2); lia). done.
  - rewrite (Z.ones_spec_high 1 i), orb_false_r by lia. done.
Qed.

Lemma same_page_memmove m p q src :
  p mod PGSIZE = 0 -> q mod PGSIZE = 0 -> q <> p -> same_page m (memmove m p src PGSIZE) q.
Proof.
  intros Hp Hq Hne j Hj. rewrite ld8_memmove by clia.
  destruct (pages_apart p q Hp Hq) as [|]; [by auto|..];
    destruct (Z.leb_spec p (q + j)), (Z.ltb_spec (q + j) (p + PGSIZE)); cbn [andb]; (lia || done).
Qed.

(** The parent's entry, read while the child grows. *)
Lemma parent_entry m va : image_ok -> forkable -> has (leaf_pte (mem s) old va) PTE_V = true ->
  (forall q, q mod PGSIZE = 0 -> q ∉ l -> no_table (mem s) new q -> same_page (mem s) m q) ->
  exists e, leaf_addr m old va = Some e /\ e <> 0 /\ ld64 m e = leaf_pte (mem s) old va.
Proof.
  intros Himg Hf Hv Hfr. destruct (parent_same m va Hf Hfr) as [Ea Ev]. rewrite Ea, <- Ev.
  destruct (leaf_addr (mem s) old va) as [e|] eqn:He;
    [|unfold leaf_pte in Hv; rewrite He in Hv; by vm_compute in Hv].
  exists e. split; [done|]. split; [by eapply leaf_addr_nonzero; [|apply (fk_old Hf)|]|].
  unfold leaf_pte. by rewrite Ea.
Qed.

Lemma wp_uvmcopy sz :
  image_ok -> alloc_inv s l -> forkable -> n = (sz + PGSIZE - 1) / PGSIZE -> 0 <= sz <= MAXVA ->
  wp (uvmcopy old new sz) (fun r s' =>
    (r = 0 /\ exists l' ps, zlen ps = n /\ grown new s l 0 parent_perm parent_data s' l' ps) \/
    (r = -1 /\ zlen l < 3 * n /\ exists l' k, 0 <= k < n /\ undone new s l 0 k s' l')) s.
Proof.
  intros Himg Ha Hf En Hsz. unfold uvmcopy. rewrite <- En.
  assert (Hn : 0 <= n /\ n * PGSIZE <= MAXVA) by (rewrite En; consts; zdm). wstep.
  eapply (wp_for_each _ _ (fun rest s1 => exists ps l1, zlen ps <= n /\ rest = pages_left 0 (zlen ps) n /\
    grown new s l 0 parent_perm parent_data s1 l1 ps /\ zlen l <= zlen l1 + 3 * zlen ps)).
  - exists [], l. split; [simpl; lia|]. split; [unfold page_seq, pages_left; by rewrite Z.sub_0_r|].
    split; [apply grown_nil; [done|apply Hf]|simpl; lia].
  - intros a rest s1 (ps & l1 & Hps & E & Hg & Hc). symmetry in E.
    apply pages_left_cons in E as (Hlt & -> & ->); [|lia]. rewrite Z.add_0_l.
    destruct (fk_pages Hf (zlen ps)) as (Hv & Hfl & Hpl & Hpt); [lia|].
    destruct (parent_entry _ _ Himg Hf Hv (gr_frame _ _ _ _ _ _ _ _ _ Hg)) as (e & He & He0 & Ev).
    wstep. apply wp_ok. do 2 eexists. split; [apply walk_noalloc; clia|]. rewrite He. cbn [from_option id].
    rewrite (proj2 (Z.eqb_neq _ _) He0). unfold ldm64. wsteps. rewrite Ev, Hv. cbn [negb].
    eapply (wp_grow_page new s l 0 parent_perm parent_data s1 l1 ps _ _ (fun m p => memmove m p _ PGSIZE));
      try done; try clia.
    + apply PTE_FLAGS_range.
    + intros va' Hva'. rewrite Z.div_mul by clia. intros E. apply (fk_empty Hf). clear - Hva' E Hlt. consts. zdm.
    + intros m p Hm. by apply memmove_bytes; [clia|].
    + intros m p q. by apply same_page_memmove.
    + intros m p j Hp Hpin Hsame Hj. rewrite ld8_memmove by clia.
      rewrite (proj2 (Z.leb_le _ _)), (proj2 (Z.ltb_lt _ _)) by lia. cbn [andb]. rewrite Z.add_simpl_l.
      unfold parent_data. symmetry. apply Hsame; [apply PTE2PA_range|done|done|done].
    + intros s2 l2 Hg2 Hc2. wsteps. rewrite Z.div_mul by clia.
      eapply wp_mono; [eapply (wp_undo new s l 0 parent_perm parent_data s2 l2 ps); try done; try clia|].
      * intros i Hi. split; [apply PTE_FLAGS_range|]. destruct (fk_pages Hf (Z.of_nat i)) as (Hvi & Hfi & _); [lia|].
        unfold parent_perm. by rewrite flags_valid.
      * cbv beta. intros _ s3 [l3 Hu]. wsteps. right. split; [done|]. split; [lia|].
        exists l3, (zlen ps). split; [lia|done].
    + intros s2 l2 p Hg2 Hc2. wsteps. exists (ps ++ [p]), l2. rewrite length_app, Nat2Z.inj_add.
      cbn [length]. split; [lia|]. split; [done|]. split; [done|lia].
  - intros s1 (ps & l1 & Hps & E & Hg & Hc). wsteps. left. split; [done|]. exists l1, ps.
    split; [symmetry in E; by apply pages_left_nil in E; lia|done].
Qed.

Lemma leaf_pte_page m root va : leaf_pte m root (va / PGSIZE * PGSIZE) = leaf_pte m root va.
Proof. unfold leaf_pte, leaf_addr. by rewrite !PX_page by lia. Qed.

(** The child's page at [va], after a complete copy. *)
Lemma child_page s' l' ps va : image_ok -> forkable -> 0 <= n -> n * PGSIZE <= MAXVA -> zlen ps = n ->
  grown new s l 0 parent_perm parent_data s' l' ps -> 0 <= va < n * PGSIZE ->
  exists p, ps !! Z.to_nat (va / PGSIZE) = Some p /\ p ∈ l /\ (p ∉ l') /\
    PTE2PA (leaf_pte (mem s') new va) = p /\
    PTE_FLAGS (leaf_pte (mem s') new va) = PTE_FLAGS (leaf_pte (mem s) old va) /\
    forall j, 0 <= j < PGSIZE -> ld8 (mem s') (p + j) = ld8 (mem s) (PTE2PA (leaf_pte (mem s) old va) + j).
Proof.
  intros Himg Hf Hn Hmax Hlen Hg Hva. set (i := Z.to_nat (va / PGSIZE)).
  assert (Hi : Z.of_nat i = va / PGSIZE /\ va / PGSIZE < n) by (unfold i; split; consts; zdm).
  destruct Hi as [Hi Hin]. destruct (lookup_lt_is_Some_2 ps i) as [p Hp]; [lia|].
  destruct (gr_pages _ _ _ _ _ _ _ _ _ Hg p (list_elem_of_lookup_2 _ _ _ Hp)) as (Hok & Hpl & Hpl' & _).
  pose proof (page_ok_56 p Himg Hok) as H56. destruct Hok as [Hpal _].
  pose proof (PTE_FLAGS_range (leaf_pte (mem s) old va)) as Hfr.
  assert (E : leaf_pte (mem s') new va = make_pte p (PTE_FLAGS (leaf_pte (mem s) old va))).
  { rewrite (gr_leaf _ _ _ _ _ _ _ _ _ Hg i p va Hp) by (change (0 / PGSIZE) with 0; lia). unfold parent_perm. by rewrite Hi, leaf_pte_page. }
  exists p. split; [done|]. split; [done|]. split; [done|].
  rewrite E, make_pte_pa, make_pte_flags by done. split; [done|]. split.
  - apply flags_valid. destruct (fk_pages Hf (va / PGSIZE)) as [Hv _]; [lia|]. by rewrite leaf_pte_page in Hv.
  - intros j Hj. rewrite (gr_data _ _ _ _ _ _ _ _ _ Hg i p j Hp Hj). unfold parent_data.
    by rewrite Hi, leaf_pte_page.
Qed.
End Fork.

(** C12: [uvmcopy], as [fork] uses it, either gives the child a copy of the parent's
    address space or leaves it empty.  With result 0, every page of the parent
    below [sz] has a counterpart in the child with the same flags and the same
    bytes, in a page of its own that was free before and is not free now.  With
    result -1 there were fewer than three free pages for each page to copy, none of
    them is mapped in the child, and every page that was free is free again or a
    table page of the child.  In both cases the parent's mappings, the child's
    other mappings and every page that was neither free nor a table page of the
    child are unchanged. *)
Theorem uvmcopy_spec (old new : Z) (s : kstate) (l : list Z) (sz : Z) :
  let n := (sz + PGSIZE - 1) / PGSIZE in
  image_ok -> alloc_inv s l -> 0 <= sz <= MAXVA -> forkable old new s l n ->
  exists r s' l', uvmcopy old new sz s = Ok r s' /\ alloc_inv s' l' /\ pt_inv (mem s') new l' /\
    ((r = 0 /\
      (forall va, 0 <= va < n * PGSIZE ->
         let v := leaf_pte (mem s) old va in let v' := leaf_pte (mem s') new va in
         PTE_FLAGS v' = PTE_FLAGS v /\ PTE2PA v' ∈ l /\ (PTE2PA v' ∉ l') /\
         (forall j, 0 <= j < PGSIZE -> ld8 (mem s') (PTE2PA v' + j) = ld8 (mem s) (PTE2PA v + j))) /\
      (forall va va', 0 <= va < n * PGSIZE -> 0 <= va' < n * PGSIZE ->
         PTE2PA (leaf_pte (mem s') new va) = PTE2PA (leaf_pte (mem s') new va') ->
         va / PGSIZE = va' / PGSIZE)) \/
     (r = -1 /\ zlen l < 3 * n /\
      (forall va, 0 <= va < n * PGSIZE -> has (leaf_pte (mem s') new va) PTE_V = false) /\
      (forall q, q ∈ l -> q ∈ l' \/ exists path, path_ok path /\ pt_page (mem s') new path = Some q))) /\
    (forall va, leaf_pte (mem s') old va = leaf_pte (mem s) old va) /\
    (forall va, n * PGSIZE <= va < MAXVA -> leaf_pte (mem s') new va = leaf_pte (mem s) new va) /\
    (forall q, q mod PGSIZE = 0 -> q ∉ l -> no_table (mem s) new q -> same_page (mem s) (mem s') q).
Proof.
  intros n Himg Ha Hsz Hf.
  assert (Hn : 0 <= n /\ n * PGSIZE <= MAXVA) by (unfold n; consts; zdm). destruct Hn as [Hn Hmax].
  destruct (wp_run _ _ _ (wp_uvmcopy old new s l n sz Himg Ha Hf eq_refl Hsz)) as (r & s' & Hr & Hpost).
  destruct Hpost as [(-> & l' & ps & Hlen & Hg)|(-> & Hc & l' & k & Hk & Hu)].
  - exists 0, s', l'. split; [done|]. split; [apply Hg|]. split; [apply Hg|].
    pose proof (gr_frame _ _ _ _ _ _ _ _ _ Hg) as Hfr.
    pose proof (fun va => child_page old new s l n s' l' ps va Himg Hf Hn Hmax Hlen Hg) as Hch.
    split; [left; split; [done|split]|split; [|split; [|done]]].
    + intros va Hva v v'. destruct (Hch va Hva) as (p & _ & Hpl & Hpl' & Ep & Efl & Hd).
      unfold v, v'. rewrite Ep. done.
    + intros va va' Hva Hva' E. destruct (Hch va Hva) as (p & Hp & _ & _ & Ep & _).
      destruct (Hch va' Hva') as (p' & Hp' & _ & _ & Ep' & _). assert (p' = p) as -> by congruence.
      pose proof (NoDup_lookup _ _ _ _ (gr_nodup _ _ _ _ _ _ _ _ _ Hg) Hp Hp') as Ei.
      apply Z2Nat.inj; [apply Z.div_pos; clia..|done].
    + intros va. by apply (parent_same old new s l n).
    + intros va Hva. apply (gr_other _ _ _ _ _ _ _ _ _ Hg); [clia|]. change (0 / PGSIZE) with 0.
      rewrite Hlen. consts. zdm.
  - exists (-1), s', l'. split; [done|]. split; [apply Hu|]. split; [apply Hu|].
    pose proof (ud_frame _ _ _ _ _ _ _ Hu) as Hfr.
    split; [right; split; [done|split; [done|split; [|apply Hu]]]|split; [|split; [|done]]].
    + intros va Hva. rewrite (ud_leaf _ _ _ _ _ _ _ Hu) by clia. unfold without.
      destruct (_ && _); [done|]. by apply (fk_empty _ _ _ _ _ Hf).
    + intros va. by apply (parent_same old new s l n).
    + intros va Hva. rewrite (ud_leaf _ _ _ _ _ _ _ Hu) by clia. unfold without. change (0 / PGSIZE) with 0.
      rewrite (proj2 (Z.ltb_ge _ _)), andb_false_r by (consts; zdm). done.
Qed.

(** ** Growing and shrinking an address space *)
Definition user_perm : Z := Z.lor (Z.lor (Z.lor PTE_W PTE_X) PTE_R) PTE_U.

(** The number of pages [uvmalloc] adds. *)
Definition new_pages (oldsz newsz : Z) : Z := Z.max 0 ((newsz - PGROUNDUP oldsz + PGSIZE - 1) / PGSIZE).

Lemma wp_uvmdealloc_undo root s l va perm data s1 l1 ps :
  image_ok -> grown root s l va perm data s1 l1 ps ->
  0 <= va -> va mod PGSIZE = 0 -> va + zlen ps * PGSIZE <= MAXVA ->
  (forall i, (i < length ps)%nat -> 0 <= perm i < 1024 /\ Z.lor (perm i) PTE_V <> PTE_V) ->
  forall top low, PGROUNDUP top = va + zlen ps * PGSIZE -> PGROUNDUP low = va -> low <= top ->
  wp (uvmdealloc root top low) (fun r s2 => r = low /\ exists l2, undone root s l va (zlen ps) s2 l2) s1.
Proof.
  intros Himg Hg Hva Hal Hmax Hperm top low Etop Elow Hle. unfold uvmdealloc. rewrite Etop, Elow.
  assert (Hnil : ps = [] -> undone root s l va (zlen ps) s1 (reverse ps ++ l1)).
  { intros ->. eapply unmapped_undone; [done|]. apply unmapped_nil. apply Hg. }
  destruct (Z.leb_spec top low).
  - wsteps. assert (top = low) as -> by lia. split; [done|]. eexists. apply Hnil.
    assert (zlen ps = 0) by clia. by destruct ps.
  - destruct (Z.ltb_spec va (va + zlen ps * PGSIZE)); cbn [when]; wsteps.
    + replace (i32 ((va + zlen ps * PGSIZE - va) / PGSIZE)) with (zlen ps).
      * eapply wp_mono; [by eapply wp_undo|]. cbv beta. intros _ s2 Hu. wsteps. done.
      * rewrite Z.add_simpl_l, Z.div_mul by clia. symmetry. apply i32_id. clia.
    + split; [done|]. eexists. apply Hnil. assert (zlen ps = 0) by clia. by destruct ps.
Qed.

Lemma PGROUNDUP_page a : 0 <= a <= MAXVA -> a mod PGSIZE = 0 -> PGROUNDUP a = a.
Proof. intros Ha Hal. rewrite PGROUNDUP_spec by clia. consts. zdm. Qed.

Lemma PGROUNDUP_range a : 0 <= a <= MAXVA ->
  PGROUNDUP a mod PGSIZE = 0 /\ a <= PGROUNDUP a < a + PGSIZE /\ PGROUNDUP a <= MAXVA.
Proof. intros Ha. rewrite PGROUNDUP_spec by clia. consts. zdm. Qed.

Lemma user_perm_ok : 0 <= user_perm < 1024 /\ Z.lor user_perm PTE_V <> PTE_V.
Proof. split; [split|]; vm_compute; congruence. Qed.

Lemma wp_uvmalloc root s l oldsz newsz :
  let va := PGROUNDUP oldsz in let n := new_pages oldsz newsz in
  image_ok -> alloc_inv s l -> pt_inv (mem s) root l -> 0 <= oldsz <= newsz -> newsz <= MAXVA ->
  (forall va', va <= va' < va + n * PGSIZE -> has (leaf_pte (mem s) root va') PTE_V = false) ->
  wp (uvmalloc root oldsz newsz) (fun r s' =>
    (r = newsz /\ exists l' ps, zlen ps = n /\ grown root s l va (fun _ => user_perm) (fun _ _ => 0) s' l' ps) \/
    (r = 0 /\ zlen l < 3 * n /\ exists l' k, 0 <= k < n /\ undone root s l va k s' l')) s.
Proof.
  intros va n Himg Ha Hinv Hold Hnew Hun. unfold uvmalloc. rewrite (proj2 (Z.ltb_ge _ _)) by lia. fold va.
  destruct (PGROUNDUP_range oldsz) as (Hal & Hbd & Hmx); [lia|]. fold va in Hal, Hbd, Hmx.
  assert (Hn : 0 <= n /\ va + n * PGSIZE <= MAXVA /\
    forall k, 0 <= k <= n -> (va + k * PGSIZE < newsz <-> k < n)).
  { unfold n, new_pages. fold va. clearbody va. split; [lia|]. split; [consts; zdm|]. intros k Hk. consts. zdm. }
  destruct Hn as (Hn & Hmax & Hlt).
  assert (Hfuel : (Z.to_nat n <= Z.to_nat ((newsz - va + PGSIZE - 1) / PGSIZE))%nat)
    by (unfold n, new_pages; fold va; lia).
  clearbody n va.
  eapply (wp_iter _ (fun a s1 => exists ps l1, zlen ps <= n /\ a = va + zlen ps * PGSIZE /\
    grown root s l va (fun _ => user_perm) (fun _ _ => 0) s1 l1 ps /\ zlen l <= zlen l1 + 3 * zlen ps)
    _ (fun a _ => Z.to_nat (n - (a - va) / PGSIZE))).
  - exists [], l. split; [simpl; lia|]. split; [simpl; lia|]. split; [by apply grown_nil|simpl; lia].
  - rewrite Z.sub_diag. change (0 / PGSIZE) with 0. lia.
  - intros a s1 (ps & l1 & Hps & -> & Hg & Hc).
    destruct (Z.ltb_spec (va + zlen ps * PGSIZE) newsz) as [Hmore|Hdone].
    + apply Hlt in Hmore; [|lia].
      eapply (wp_grow_page root s l va (fun _ => user_perm) (fun _ _ => 0) s1 l1 ps _ _ (fun m p => memset m p 0 PGSIZE));
        [exact Himg|exact Hg|exact Hc|lia|exact Hal|reflexivity|clia|reflexivity|..].
      * apply user_perm_ok.
      * intros va' Hva'. rewrite Z.div_add by clia. intros E. apply Hun. clear - Hva' E Hmore Hal Hn. consts. zdm.
      * intros m p Hm. apply memset_bytes; [clia|done].
      * intros m p q Hp Hq Hne. by apply same_page_memset.
      * intros m p j Hp Hpl Hs Hj. rewrite ld8_memset by clia.
        by rewrite (proj2 (Z.leb_le _ _)), (proj2 (Z.ltb_lt _ _)) by lia.
      * intros s2 l2 Hg2 Hc2. wsteps.
        eapply wp_mono; [eapply wp_uvmdealloc_undo; [exact Himg|exact Hg2|lia|exact Hal|clia|..|clia]|].
        -- intros i Hi. apply user_perm_ok.
        -- apply PGROUNDUP_page; [clia|]. rewrite Z.mod_add by clia. exact Hal.
        -- apply PGROUNDUP_page; [clia|exact Hal].
        -- cbv beta. intros r s3 [_ [l3 Hu]]. wsteps. right. split; [done|]. split; [lia|]. exists l3, (zlen ps). auto with lia.
      * intros s2 l2 p Hg2 Hc2. wsteps. rewrite u64_id by clia. split.
        -- exists (ps ++ [p]), l2. rewrite length_app, Nat2Z.inj_add. cbn [length].
           split; [lia|]. split; [lia|]. split; [done|lia].
        -- replace (va + zlen ps * PGSIZE + PGSIZE - va) with ((zlen ps + 1) * PGSIZE) by lia.
           rewrite Z.add_simpl_l, !Z.div_mul by clia. lia.
    + wsteps. left. split; [done|]. exists l1, ps. split; [|done].
      destruct (decide (zlen ps = n)); [done|]. exfalso. assert (zlen ps < n) as Hl by lia. apply Hlt in Hl; lia.
Qed.

Lemma PGROUNDUP_new_pages oldsz newsz : 0 <= oldsz <= newsz -> newsz <= MAXVA ->
  PGROUNDUP newsz = PGROUNDUP oldsz + new_pages oldsz newsz * PGSIZE /\ PGROUNDUP newsz <= MAXVA.
Proof.
  intros Hold Hnew. unfold new_pages. rewrite !PGROUNDUP_spec by clia. consts. zdm.
Qed.

(** C26: growing an address space with [uvmalloc] either adds exactly the pages
    between the two sizes, each a page of its own from the free list, filled with
    zeros and accessible to the user, or returns 0 with none of them mapped and
    every page that was free back in the free list or a table page; it fails only
    when there were fewer than three free pages for each page to add.  After a
    success, [uvmdealloc] back to the old size takes all of the pages back. *)
Theorem uvmalloc_uvmdealloc (root : Z) (s : kstate) (l : list Z) (oldsz newsz : Z) :
  let va := PGROUNDUP oldsz in let n := new_pages oldsz newsz in
  image_ok -> alloc_inv s l -> pt_inv (mem s) root l -> 0 <= oldsz <= newsz -> newsz <= MAXVA ->
  (forall va', va <= va' < va + n * PGSIZE -> has (leaf_pte (mem s) root va') PTE_V = false) ->
  (exists s' l' ps, uvmalloc root oldsz newsz s = Ok newsz s' /\ zlen ps = n /\
     grown root s l va (fun _ => user_perm) (fun _ _ => 0) s' l' ps /\
     exists s'' l'', uvmdealloc root newsz oldsz s' = Ok oldsz s'' /\ undone root s l va n s'' l'') \/
  (zlen l < 3 * n /\
   exists s' l' k, uvmalloc root oldsz newsz s = Ok 0 s' /\ 0 <= k < n /\ undone root s l va k s' l').
Proof.
  intros va n Himg Ha Hinv Hold Hnew Hun.
  destruct (wp_run _ _ _ (wp_uvmalloc root s l oldsz newsz Himg Ha Hinv Hold Hnew Hun)) as (r & s' & Hr & Hpost).
  destruct Hpost as [(-> & l' & ps & Hlen & Hg)|(-> & Hc & l' & k & Hk & Hu)].
  - left. exists s', l', ps. split; [exact Hr|]. split; [exact Hlen|]. split; [exact Hg|].
    destruct (PGROUNDUP_range oldsz) as (Hal & Hbd & _); [lia|].
    destruct (PGROUNDUP_new_pages oldsz newsz Hold Hnew) as [Etop Htop]. rewrite <- Hlen in Etop.
    destruct (wp_run _ _ _ (wp_uvmdealloc_undo root s l va _ _ s' l' ps Himg Hg ltac:(unfold va; lia) Hal
      ltac:(unfold va; lia) (fun _ _ => user_perm_ok) newsz oldsz Etop eq_refl ltac:(lia)))
      as (r & s'' & Hr' & -> & l'' & Hu).
    exists s'', l''. split; [exact Hr'|]. unfold n. rewrite <- Hlen. exact Hu.
  - right. split; [exact Hc|]. exists s', l', k. split; [exact Hr|]. split; [exact Hk|exact Hu].
Qed.
End Uvm.

(** ** Two address spaces and three free pages

    The parent maps one user page at 0; the child's root table is empty. *)
Definition fork_image : KernelImage :=
  {| kend := PHYSTOP - 8 * PGSIZE; etext := KERNBASE + PGSIZE;
     trampoline := KERNBASE; forkret_pc := 0x80001000 |}.

Lemma fork_image_ok : image_ok (H0 := fork_image).
Proof. split; vm_compute; congruence. Qed.

Definition ex_page (k : Z) : Z := PHYSTOP - k * PGSIZE.
Definition ex_parent : Z := ex_page 1.
Definition ex_child : Z := ex_page 5.
Definition ex_pages : list Z := [ex_page 6; ex_page 7; ex_page 8].
Definition ex_fork : kstate :=
  set_freelist (ex_page 6)
    (set_mem
      (st64 (st64 (st64 (st64 (st64 ∅
        (ex_page 1) (make_pte (ex_page 2) 0))
        (ex_page 2) (make_pte (ex_page 3) 0))
        (ex_page 3) (make_pte (ex_page 4) user_perm))
        (ex_page 6) (ex_page 7))
        (ex_page 7) (ex_page 8)) zero_kstate).

Lemma ex_fork_alloc : alloc_inv (H0 := fork_image) ex_fork ex_pages.
Proof.
  split.
  - vm_compute. done.
  - repeat apply Forall_cons_2; try apply Forall_nil_2; (split; [reflexivity|vm_compute; split; congruence]).
  - apply NoDup_ListNoDup. repeat constructor; simpl; vm_compute; intuition congruence.
  - by repeat apply st64_bytes; apply empty_bytes.
  - exact settled_zero.
  - exists ""%string. reflexivity.
Qed.

(** The entries of the tables: only the first one of each of the parent's. *)
Lemma ex_entry_none k i : 1 <= k <= 8 -> 0 <= i < 512 -> i <> 0 -> ld64 (mem ex_fork) (ex_page k + 8 * i) = 0.
Proof.
  intros Hk Hi Hne. unfold ex_fork. fields. unfold ex_page.
  rewrite !ld64_st64_out by clia. rewrite (ld64_ext _ ∅ _ 0); done.
Qed.

(** A memory given by its doublewords. *)
Definition cells (L : list (Z * Z)) : memory := fold_right (fun '(a, v) m => st64 m a v) ∅ L.

Lemma cells_bytes L : mem_bytes (cells L).
Proof. induction L as [|[a v] L IH]; [apply empty_bytes|]. by apply st64_bytes. Qed.

Lemma cells_other L a : Forall (fun av : Z * Z => av.1 mod 8 = 0) L -> a mod 8 = 0 -> a ∉ L.*1 -> ld64 (cells L) a = 0.
Proof.
  intros HL Ha. induction HL as [|[b v] L Hb HL IH]; intros Hn; cbn [cells fold_right].
  - rewrite (ld64_ext _ ∅ _ 0); done.
  - cbn in Hb, Hn. apply not_elem_of_cons in Hn as [Hne Hn]. rewrite ld64_st64_out by zdm. by apply IH.
Qed.

(** A page table with one table on each level, each with its first entry. *)
Lemma chain_tables m p2 p1 p0 path :
  entry m p2 0 = Some p1 -> entry m p1 0 = Some p0 ->
  (forall i, 0 < i < 512 -> entry m p2 i = None /\ entry m p1 i = None) ->
  path_ok path -> pt_page m p2 path =
    if decide (path = []) then Some p2 else
    if decide (path = [0]) then Some p1 else
    if decide (path = [0; 0]) then Some p0 else None.
Proof.
  intros H2 H1 He [Hl Hf]. destruct path as [|i [|j [|? ?]]]; simpl in Hl; [done|..|lia]; cbn [pt_page];
    apply Forall_cons in Hf as [Hi Hf].
  - destruct (decide (i = 0)) as [->|Hne]; [by rewrite H2|]. rewrite (proj1 (He i ltac:(lia))).
    cbn [mbind option_bind]. by rewrite !decide_False by congruence.
  - apply Forall_cons in Hf as [Hj _]. destruct (decide (i = 0)) as [->|Hne].
    + rewrite H2. cbn [mbind option_bind]. destruct (decide (j = 0)) as [->|Hnj]; [by rewrite H1|].
      rewrite (proj2 (He j ltac:(lia))). cbn [mbind option_bind]. by rewrite !decide_False by congruence.
    + rewrite (proj1 (He i ltac:(lia))). cbn [mbind option_bind]. by rewrite !decide_False by congruence.
Qed.

Lemma ex_tables path : path_ok path -> pt_page (mem ex_fork) ex_parent path =
  if decide (path = []) then Some (ex_page 1) else
  if decide (path = [0]) then Some (ex_page 2) else
  if decide (path = [0; 0]) then Some (ex_page 3) else None.
Proof.
  apply chain_tables; [reflexivity|reflexivity|].
  intros i Hi. split; apply zero_entry, ex_entry_none; lia.
Qed.

Lemma ex_not_free k : 1 <= k <= 5 -> page_ok (H0 := fork_image) (ex_page k) /\ (ex_page k ∉ ex_pages).
Proof.
  intros Hk. split.
  - split; [unfold ex_page; consts; zdm|]. unfold ex_page, kend, fork_image. clia.
  - unfold ex_pages, ex_page. rewrite !not_elem_of_cons. repeat split; [clia..|apply not_elem_of_nil].
Qed.

Lemma ex_parent_pt : pt_inv (H0 := fork_image) (mem ex_fork) ex_parent ex_pages.
Proof.
  split.
  - intros path p Hok. rewrite ex_tables by done.
    repeat case_decide; intros [= <-]; by apply ex_not_free.
  - intros path path' p Hok Hok'. rewrite !ex_tables by done.
    repeat case_decide; subst; intros [= <-]; done.
Qed.

Lemma ex_child_pages path p : path_ok path -> pt_page (mem ex_fork) ex_child path = Some p -> path = [] /\ p = ex_child.
Proof.
  intros [_ Hf]. destruct path as [|i path]; [by intros [= <-]|]. apply Forall_cons in Hf as [Hi _]. cbn [pt_page].
  assert (entry (mem ex_fork) ex_child i = None) as ->; [|done].
  destruct (decide (i = 0)) as [->|]; [reflexivity|]. by apply zero_entry, ex_entry_none.
Qed.

Lemma ex_child_pt : pt_inv (H0 := fork_image) (mem ex_fork) ex_child ex_pages.
Proof.
  split.
  - intros path p Hok [_ ->]%ex_child_pages; [|done]. by apply ex_not_free.
  - intros path path' p Hok Hok' [-> _]%ex_child_pages [-> _]%ex_child_pages; done.
Qed.

Lemma ex_child_leaf va : leaf_pte (mem ex_fork) ex_child va = 0.
Proof.
  unfold leaf_pte, leaf_addr. destruct (pt_page _ _ _) as [p|] eqn:E; [|done].
  by apply ex_child_pages in E as [? _]; [|apply path_ok_va].
Qed.

Lemma ex_forkable : forkable (H0 := fork_image) ex_parent ex_child ex_fork ex_pages ((100 + PGSIZE - 1) / PGSIZE).
Proof.
  assert (Hnt : forall k, 1 <= k <= 4 -> no_table (mem ex_fork) ex_child (ex_page k)).
  { intros k Hk path Hok E. apply ex_child_pages in E as [_ E]; [|done]. unfold ex_child, ex_page in E. clia. }
  change ((100 + PGSIZE - 1) / PGSIZE) with 1. split.
  - exact ex_parent_pt.
  - exact ex_child_pt.
  - intros path p Hok. rewrite ex_tables by done. repeat case_decide; intros [= <-]; by apply Hnt.
  - intros i Hi. assert (i = 0) as -> by lia. cbv zeta.
    assert (E : leaf_pte (mem ex_fork) ex_parent (0 * PGSIZE) = make_pte (ex_page 4) user_perm) by reflexivity.
    rewrite E. split; [reflexivity|]. split; [vm_compute; congruence|].
    change (PTE2PA (make_pte (ex_page 4) user_perm)) with (ex_page 4). split; [apply ex_not_free; lia|apply Hnt; lia].
  - intros va _. by rewrite ex_child_leaf.
Qed.

Lemma uvmcopy_spec_witness : exists s',
  uvmcopy (H := idle_world) (H0 := fork_image) ex_parent ex_child 100 ex_fork = Ok 0 s' /\
  PTE_FLAGS (leaf_pte (mem s') ex_child 0) = Z.lor user_perm PTE_V /\
  PTE2PA (leaf_pte (mem s') ex_child 0) ∈ ex_pages.
Proof.
  destruct (uvmcopy_spec (H := idle_world) (H0 := fork_image) ex_parent ex_child ex_fork ex_pages 100
    fork_image_ok ex_fork_alloc ltac:(split; vm_compute; congruence) ex_forkable)
    as (r & s' & l' & Hr & _ & _ & [(-> & Hc & _)|(_ & Hc & _)] & _).
  - destruct (Hc 0) as (Hf & Hp & _); [vm_compute; split; congruence|].
    exists s'. split; [exact Hr|]. split; [exact Hf|exact Hp].
  - vm_compute in Hc. congruence.
Defined.

(** Three free pages are enough to give the child one page, and to take it back. *)
Lemma uvmalloc_uvmdealloc_witness : exists s' s'',
  uvmalloc (H := idle_world) (H0 := fork_image) ex_child 0 100 ex_fork = Ok 100 s' /\
  uvmdealloc (H := idle_world) (H0 := fork_image) ex_child 100 0 s' = Ok 0 s''.
Proof.
  destruct (uvmalloc_uvmdealloc (H := idle_world) (H0 := fork_image) ex_child ex_fork ex_pages 0 100
    fork_image_ok ex_fork_alloc ex_child_pt)
    as [(s' & l' & ps & Hr & _ & _ & s'' & l'' & Hr' & _)|[Hc _]].
  - lia.
  - vm_compute. congruence.
  - intros va' _. rewrite ex_child_leaf. reflexivity.
  - exists s', s''. split; [exact Hr|exact Hr'].
  - vm_compute in Hc. congruence.
Defined.

(** ** A process and the kernel

    Page 1 is the root of a process's table: it maps page 8 at 0, the trap frame,
    page 4, and the trampoline.  Page 5 is the root of the kernel's, with the
    trampoline.  The trap frame has the kernel's page table, stack and entry [pc]. *)
Definition sp_words (pc : Z) : list (Z * Z) :=
  [(ex_page 1 + 8 * 255, make_pte (ex_page 2) 0); (ex_page 2 + 8 * 511, make_pte (ex_page 3) 0);
   (ex_page 3 + 8 * 511, make_pte KERNBASE (Z.lor PTE_R PTE_X)); (ex_page 3 + 8 * 510, make_pte (ex_page 4) (Z.lor PTE_R PTE_W));
   (ex_page 5 + 8 * 255, make_pte (ex_page 6) 0); (ex_page 6 + 8 * 511, make_pte (ex_page 7) 0);
   (ex_page 7 + 8 * 511, make_pte KERNBASE (Z.lor PTE_R PTE_X));
   (ex_page 1 + 8 * 0, make_pte (ex_page 9) 0); (ex_page 9 + 8 * 0, make_pte (ex_page 10) 0);
   (ex_page 10 + 8 * 0, make_pte (ex_page 8) (Z.lor PTE_R (Z.lor PTE_X PTE_U)));
   (ex_page 4 + 8 * 0, MAKE_SATP (ex_page 5)); (ex_page 4 + 8 * 1, 0x3fffffd000 + PGSIZE); (ex_page 4 + 8 * 2, pc)].
Definition sp_mem (pc : Z) : memory := cells (sp_words pc).

Lemma sp_none pc k i : ex_page k + 8 * i ∉ (sp_words pc).*1 -> ld64 (sp_mem pc) (ex_page k + 8 * i) = 0.
Proof.
  intros Hn. apply cells_other; [|unfold ex_page; consts; zdm|exact Hn].
  repeat (apply Forall_cons_2; [reflexivity|]). apply Forall_nil_2.
Qed.

Definition sp_entries : list (Z * Z * Z) :=
  [(1, 0, ex_page 9); (1, 255, ex_page 2); (2, 511, ex_page 3); (3, 510, ex_page 4); (3, 511, KERNBASE);
   (5, 255, ex_page 6); (6, 511, ex_page 7); (7, 511, KERNBASE); (9, 0, ex_page 10); (10, 0, ex_page 8)].

Lemma sp_entry pc k i p : k ∈ [1; 2; 3; 5; 6; 7; 9; 10] -> 0 <= i < 512 -> entry (sp_mem pc) (ex_page k) i = Some p ->
  (k, i, p) ∈ sp_entries.
Proof.
  intros Hk Hi E.
  assert (Hin : ex_page k + 8 * i ∈ (sp_words pc).*1).
  { destruct (decide (ex_page k + 8 * i ∈ (sp_words pc).*1)) as [|Hn]; [done|]. by rewrite zero_entry in E by (by apply sp_none). }
  apply list_elem_of_fmap in Hin as (av & Ea & Hin). unfold sp_words in Hin.
  repeat (apply elem_of_cons in Hk as [->|Hk]; [repeat (apply elem_of_cons in Hin as [->|Hin];
    [cbn [fst] in Ea; unfold ex_page in Ea;
     first [exfalso; revert Ea; consts; lia
           |match type of Ea with _ = _ + 8 * ?j => assert (i = j) as -> by (revert Ea; consts; lia) end;
            vm_compute in E; injection E as <-; vm_compute; set_solver]|]); by apply not_elem_of_nil in Hin|]).
  by apply not_elem_of_nil in Hk.
Qed.

Definition sp_tables : list (Z * list Z * Z) :=
  [(1, [], ex_page 1); (1, [0], ex_page 9); (1, [255], ex_page 2); (1, [0; 0], ex_page 10); (1, [255; 511], ex_page 3);
   (5, [], ex_page 5); (5, [255], ex_page 6); (5, [255; 511], ex_page 7)].

Lemma sp_path pc k path q : k = 1 \/ k = 5 -> path_ok path -> pt_page (sp_mem pc) (ex_page k) path = Some q ->
  (k, path, q) ∈ sp_tables.
Proof.
  intros Hk [Hl Hf]. destruct path as [|i [|j [|? ?]]]; simpl in Hl; [|..|lia]; cbn [pt_page].
  - intros [= <-]. unfold sp_tables. destruct Hk as [-> | ->]; set_solver.
  - apply Forall_cons in Hf as [Hi _]. destruct (entry _ _ i) as [p|] eqn:E; [|done]. intros [= <-].
    apply sp_entry in E; [|destruct Hk as [-> | ->]; set_solver|done]. unfold sp_entries, sp_tables in *.
    destruct Hk as [-> | ->]; set_solver.
  - apply Forall_cons in Hf as [Hi [Hj _]%Forall_cons]. destruct (entry _ _ i) as [p|] eqn:E; [|done].
    cbn [mbind option_bind]. destruct (entry _ p j) as [p'|] eqn:E'; [|done]. intros [= <-].
    apply sp_entry in E; [|destruct Hk as [-> | ->]; set_solver|done].
    assert (Hp : (k, i, p) ∈ [(1, 0, ex_page 9); (1, 255, ex_page 2); (5, 255, ex_page 6)]).
    { unfold sp_entries in E. destruct Hk as [-> | ->]; set_solver. }
    repeat (apply elem_of_cons in Hp as [[= -> -> ->]|Hp];
      [apply sp_entry in E'; [|set_solver|done]; unfold sp_entries, sp_tables in *; set_solver|]).
    by apply not_elem_of_nil in Hp.
Qed.

(** The image these pages are above. *)
Definition sp_image : KernelImage :=
  {| kend := ex_page 10; etext := KERNBASE + PGSIZE; trampoline := KERNBASE; forkret_pc := 0x80001000 |}.

Lemma sp_page_ok k path q : (k, path, q) ∈ sp_tables -> page_ok (H0 := sp_image) q /\ q <> ex_page 4.
Proof.
  intros Hin. repeat (apply elem_of_cons in Hin as [[= -> -> ->]|Hin];
    [split; [split; [reflexivity|vm_compute; split; congruence]|discriminate]|]). by apply not_elem_of_nil in Hin.
Qed.
