(* ===== verification/Freewalk.v ===== *)
(** * kernel/vm.c: freeing a page table

    [freewalk] and [uvmfree] (the definitions are in [Vm]) give back every page of
    an address space: the table pages, listed in the order the recursion frees
    them, and the user pages. *)

From stdpp Require Import gmap strings list fin_maps.
From Stdlib Require Import ZArith Lia.
From S2P Require Import Prelude Machine Str State Riscv Spinlock Kalloc Vm Copy Uvm.
Open Scope Z_scope.

#[local] Opaque memset st64 ld64 memmove.
#[local] Abbreviation zlen ps := (Z.of_nat (length ps)).

Section Freewalk.
Context `{World kstate} `{KernelImage}.

Definition index (i : Z) : Prop := 0 <= i < 512.

(** The table pages of a page table with [d] levels, in post-order. *)
Fixpoint tables (m : memory) (d : nat) (p : Z) : list Z :=
  match d with
  | O => []
  | S d => (seqZ 0 512 ≫= fun i => match entry m p i with Some c => tables m d c | None => [] end) ++ [p]
  end.

Definition below (m : memory) (d : nat) (p i : Z) : list Z :=
  match entry m p i with Some c => tables m d c | None => [] end.

(** No user page is mapped: every valid entry above the last level points to a
    table, and no entry of the last level is valid. *)
Fixpoint clean (m : memory) (d : nat) (p : Z) : Prop :=
  match d with
  | O => False
  | S d => forall i, index i -> let v := ld64 m (p + 8 * i) in
      has v PTE_V = true -> Z.land v (Z.lor (Z.lor PTE_R PTE_W) PTE_X) = 0 /\ clean m d (PTE2PA v)
  end.

Lemma elem_tables m d p q : q ∈ tables m (S d) p <->
  exists path, (length path <= d)%nat /\ Forall index path /\ pt_page m p path = Some q.
Proof.
  revert p q. induction d as [|d IH]; intros p q; cbn [tables];
    rewrite elem_of_app, list_elem_of_singleton, list_elem_of_bind; split.
  - intros [(i & Hi & _)| ->]; [by destruct (entry m p i); apply not_elem_of_nil in Hi|]. by exists [].
  - intros ([|i path] & Hl & _ & E); simpl in Hl; [|lia]. right. by injection E.
  - intros [(i & Hi & Hidx)| ->]; [|by exists []; split; [simpl; lia|]].
    destruct (entry m p i) as [c|] eqn:Ei; [|by apply not_elem_of_nil in Hi].
    apply IH in Hi as (path & Hl & Hf & E). exists (i :: path). apply elem_of_seqZ in Hidx.
    split; [simpl; lia|]. split; [constructor; [unfold index; lia|done]|]. cbn [pt_page]. by rewrite Ei.
  - intros ([|i path] & Hl & Hf & E); cbn [pt_page] in E; [right; by injection E|]. left.
    apply Forall_cons in Hf as [Hi Hf]. exists i. unfold index in Hi. rewrite elem_of_seqZ. split; [|lia].
    destruct (entry m p i) as [c|] eqn:Ei; [|done]. apply IH. exists path. simpl in Hl. split; [lia|done].
Qed.

Lemma NoDup_tables m d p :
  (forall path path' q, (length path < d)%nat -> (length path' < d)%nat -> Forall index path -> Forall index path' ->
     pt_page m p path = Some q -> pt_page m p path' = Some q -> path = path') ->
  NoDup (tables m d p).
Proof.
  revert p. induction d as [|d IH]; intros p Hinj; [constructor|].
  cbn [tables]. apply NoDup_app.
  assert (Hin : forall i q, index i -> q ∈ below m d p i -> exists path, (length path < d)%nat /\ Forall index path /\
            pt_page m p (i :: path) = Some q).
  { intros i q Hi Hq. unfold below in Hq. cbn [pt_page].
    destruct (entry m p i) as [c|]; [|by apply not_elem_of_nil in Hq]. destruct d as [|d]; [by apply not_elem_of_nil in Hq|].
    apply elem_tables in Hq as (path & Hl & Hf & E). exists path. split; [lia|done]. }
  split; [|split; [|apply NoDup_singleton]].
  - apply NoDup_bind; [| |apply NoDup_seqZ].
    + intros i j q Hi Hj Hqi Hqj. apply elem_of_seqZ in Hi, Hj.
      destruct (Hin i q) as (pi & Hli & Hfi & Ei); [unfold index; lia|done|].
      destruct (Hin j q) as (pj & Hlj & Hfj & Ej); [unfold index; lia|done|].
      assert (i :: pi = j :: pj) as [=]; [|done].
      eapply Hinj; [simpl; lia|simpl; lia|by constructor; [unfold index; lia|]..|done|done].
    + intros i Hi. apply elem_of_seqZ in Hi. destruct (entry m p i) as [c|] eqn:Ei; [|constructor].
      apply IH. intros pa pb q Ha Hb Hfa Hfb Ea Eb.
      assert (i :: pa = i :: pb) as [=]; [|done].
      eapply (Hinj _ _ q); [simpl; lia|simpl; lia|by constructor; [unfold index; lia|]..| |]; cbn [pt_page]; by rewrite Ei.
  - intros q (i & Hq & Hi)%list_elem_of_bind ->%list_elem_of_singleton. apply elem_of_seqZ in Hi.
    destruct (Hin i p) as (path & Hl & Hf & E); [unfold index; lia|done|].
    assert (i :: path = []); [|done].
    eapply (Hinj _ _ p); [simpl; lia|simpl; lia|by constructor; [unfold index; lia|]|constructor|done|done].
Qed.

Lemma below_tables m d p i q : index i -> q ∈ below m d p i -> q ∈ tables m (S d) p.
Proof.
  intros Hi Hq. cbn [tables]. apply elem_of_app. left. apply list_elem_of_bind. exists i.
  split; [exact Hq|]. apply elem_of_seqZ. unfold index in Hi. lia.
Qed.

Lemma root_tables m d p : p ∈ tables m (S d) p.
Proof. cbn [tables]. apply elem_of_app. right. by left. Qed.

Lemma entry_same m m' p i : same_page m m' p -> index i -> entry m' p i = entry m p i.
Proof. intros Hs Hi. unfold entry. by rewrite (ld64_entry_same m m'). Qed.

Lemma tables_ext m m' d p : (forall q, q ∈ tables m d p -> same_page m m' q) -> tables m' d p = tables m d p.
Proof.
  revert p. induction d as [|d IH]; intros p Hs; [done|]. cbn [tables]. f_equal.
  apply Forall_bind_ext, Forall_forall. intros i Hi. apply elem_of_seqZ in Hi.
  assert (Hidx : index i) by (unfold index; lia).
  rewrite (entry_same m m') by (done || apply Hs, root_tables).
  destruct (entry m p i) as [c|] eqn:Ei; [|done]. apply IH. intros q Hq. apply Hs.
  apply (below_tables m d p i); [done|]. unfold below. by rewrite Ei.
Qed.

Lemma clean_ext m m' d p : (forall q, q ∈ tables m d p -> same_page m m' q) -> clean m d p -> clean m' d p.
Proof.
  revert p. induction d as [|d IH]; intros p Hs Hc; [done|]. cbn [clean] in Hc |- *. intros i Hi.
  rewrite (ld64_entry_same m m') by (done || apply Hs, root_tables). intros Hv.
  destruct (Hc i Hi Hv) as [Hr Hc']. split; [done|]. apply IH; [|done]. intros q Hq. apply Hs.
  apply (below_tables m d p i); [done|]. unfold below, entry. by rewrite Hv.
Qed.

(** The pages [T] have been freed, in this order, and nothing else has changed. *)
Record freed (s : kstate) (l : list Z) (T : list Z) (s' : kstate) : Prop := {
  fr_state : s' = set_freelist (freelist s') (set_mem (mem s') s);
  fr_alloc : alloc_inv s' (reverse T ++ l);
  fr_frame : forall q, q mod PGSIZE = 0 -> q ∉ T -> same_page (mem s) (mem s') q
}.

(** One table page: what the loop has done after [k] entries. *)
Section Table.
Context (s : kstate) (l : list Z) (d : nat) (p : Z).
Hypothesis Himg : image_ok.
Hypothesis Hclean : clean (mem s) (S d) p.
Hypothesis Hnodup : NoDup (tables (mem s) (S d) p).
Hypothesis Hpages : forall q, q ∈ tables (mem s) (S d) p -> page_ok q /\ q ∉ l.

Definition visited (k : Z) : list Z := seqZ 0 k ≫= below (mem s) d p.

Record walked (k : Z) (s1 : kstate) : Prop := {
  wk_state : s1 = set_freelist (freelist s1) (set_mem (mem s1) s);
  wk_alloc : alloc_inv s1 (reverse (visited k) ++ l);
  wk_rest : forall j, k <= j < 512 -> ld64 (mem s1) (p + 8 * j) = ld64 (mem s) (p + 8 * j);
  wk_frame : forall q, q mod PGSIZE = 0 -> q <> p -> q ∉ visited k -> same_page (mem s) (mem s1) q
}.

Lemma visited_S k : 0 <= k -> visited (k + 1) = visited k ++ below (mem s) d p k.
Proof.
  intros Hk. unfold visited. rewrite seqZ_app, bind_app by lia. f_equal.
  rewrite Z.add_0_l. change (seqZ k 1) with [k]. cbn. by rewrite app_nil_r.
Qed.

Lemma elem_visited k q : 0 <= k <= 512 -> q ∈ visited k -> exists i, 0 <= i < k /\ q ∈ below (mem s) d p i.
Proof.
  intros Hk (i & Hq & Hi)%list_elem_of_bind. apply elem_of_seqZ in Hi. exists i. split; [lia|done].
Qed.

(** The subtrees of different entries share no page, and the root is in none. *)
Lemma nodup_parts k : 0 <= k < 512 ->
  NoDup (below (mem s) d p k) /\ (p ∉ visited (k + 1)) /\ (forall q, q ∈ below (mem s) d p k -> q ∉ visited k).
Proof.
  intros Hk. pose proof Hnodup as Hn. cbn [tables] in Hn.
  change (seqZ 0 512 ≫= _) with (visited 512) in Hn.
  assert (E : visited 512 = visited (k + 1) ++ (seqZ (k + 1) (512 - (k + 1)) ≫= below (mem s) d p)).
  { unfold visited. replace 512 with ((k + 1) + (512 - (k + 1))) at 1 by lia.
    rewrite seqZ_app, bind_app by lia. done. }
  rewrite E, visited_S in Hn by lia. apply NoDup_app in Hn as (Hn & Hp & _).
  apply NoDup_app in Hn as (Hn & _ & _). apply NoDup_app in Hn as (Hn1 & Hd & Hn2).
  split; [done|]. split.
  - rewrite visited_S by lia. intros Hin. apply (Hp p); [|by left]. apply elem_of_app. by left.
  - intros q Hq Hq'. by apply (Hd q).
Qed.

Lemma below_page k q : 0 <= k < 512 -> q ∈ below (mem s) d p k -> page_ok q /\ q ∉ l.
Proof. intros Hk Hq. by apply Hpages, (below_tables _ _ _ k). Qed.

Lemma visited_page k q : 0 <= k <= 512 -> q ∈ visited k -> page_ok q /\ q ∉ l.
Proof.
  intros Hk Hq. destruct (elem_visited k q Hk Hq) as (i & Hi & Hq'). apply (below_page i); [lia|done].
Qed.

(** The subtree of entry [k] is still as it was when the loop reaches it. *)
Lemma walked_below k s1 : 0 <= k < 512 -> walked k s1 ->
  forall q, q ∈ below (mem s) d p k -> same_page (mem s) (mem s1) q.
Proof.
  intros Hk Hw q Hq. destruct (nodup_parts k Hk) as (_ & Hp & Hd).
  apply (wk_frame _ _ Hw); [by apply (below_page k)| |by apply Hd].
  intros ->. apply Hp. rewrite visited_S by lia. apply elem_of_app. by right.
Qed.

(** Clearing entry [k] after its subtree has been freed. *)
Lemma walked_clear k s1 s2 : 0 <= k < 512 -> walked k s1 ->
  freed s1 (reverse (visited k) ++ l) (below (mem s) d p k) s2 ->
  walked (k + 1) (set_mem (st64 (mem s2) (p + 8 * k) 0) s2).
Proof.
  intros Hk Hw [Es Ha Hfr]. destruct (nodup_parts k Hk) as (_ & Hp & _).
  destruct (Hpages p (root_tables _ _ _)) as [[Hpal _] Hpl].
  assert (Hpb : p ∉ below (mem s) d p k).
  { intros Hin. apply Hp. rewrite visited_S by lia. apply elem_of_app. by right. }
  assert (El : reverse (visited (k + 1)) ++ l = reverse (below (mem s) d p k) ++ reverse (visited k) ++ l)
    by (rewrite visited_S, reverse_app, <- app_assoc by lia; done).
  split; fields.
  - rewrite Es, (wk_state _ _ Hw). by fields.
  - rewrite El. apply alloc_inv_mem; [done|apply st64_bytes, Ha|]. intros q Hq.
    apply same_page_entry; [done|by apply (proj1 (Forall_forall _ _) (alloc_pages _ _ Ha))| |lia].
    intros <-. rewrite <- El, elem_of_app, elem_of_reverse in Hq. by destruct Hq.
  - intros j Hj. rewrite ld64_st64_out by lia. rewrite <- (wk_rest _ _ Hw) by lia.
    apply ld64_entry_same; [by apply Hfr|lia].
  - intros q Hq Hqp Hqv. rewrite visited_S, not_elem_of_app in Hqv by lia. destruct Hqv as [Hqv Hqb].
    eapply same_page_trans; [by apply (wk_frame _ _ Hw)|]. eapply same_page_trans; [by apply Hfr|].
    apply same_page_entry; [done|done|by intros ->|lia].
Qed.

Lemma walked_skip k s1 : 0 <= k < 512 -> walked k s1 -> below (mem s) d p k = [] -> walked (k + 1) s1.
Proof.
  intros Hk [Es Ha Hr Hfr] E. assert (Ev : visited (k + 1) = visited k) by (rewrite visited_S, E, app_nil_r by lia; done).
  split; rewrite ?Ev; [done|done|intros j Hj; apply Hr; lia|done].
Qed.

(** The page itself is freed last. *)
Lemma walked_free s1 : walked 512 s1 ->
  wp (kfree p) (fun _ s2 => freed s l (tables (mem s) (S d) p) s2) s1.
Proof.
  intros [Es Ha Hr Hfr]. destruct (Hpages p (root_tables _ _ _)) as [Hpok Hpl].
  assert (Hpv : p ∉ visited 512) by (apply (nodup_parts 511); lia).
  assert (Et : tables (mem s) (S d) p = visited 512 ++ [p]) by done.
  apply (wp_kfree s1 (reverse (visited 512) ++ l)); [done|done|done|by rewrite elem_of_app, elem_of_reverse; intros []|].
  intros Ha2. rewrite Et. split; fields.
  - rewrite Es. by fields.
  - by rewrite reverse_snoc.
  - intros q Hq. rewrite not_elem_of_app, list_elem_of_singleton. intros [Hqv Hqp].
    eapply same_page_trans; [by apply Hfr|]. apply freed_mem_same; [apply Hpok|done|by intros ->].
Qed.
End Table.

Lemma wp_freewalk d p s l :
  image_ok -> alloc_inv s l -> clean (mem s) d p -> NoDup (tables (mem s) d p) ->
  (forall q, q ∈ tables (mem s) d p -> page_ok q /\ q ∉ l) ->
  wp (freewalk d p) (fun _ s' => freed s l (tables (mem s) d p) s') s.
Proof.
  intros Himg. revert p s l. induction d as [|d IH]; intros p s l Ha Hc Hn Hp; [done|].
  cbn [freewalk]. wstep. eapply wp_mono; [eapply (wp_for_all _ _ (fun rest s1 =>
    exists k, 0 <= k <= 512 /\ rest = seqZ k (512 - k) /\ walked s l d p k s1))|].
  - exists 0. split; [lia|]. split; [done|]. by split; [destruct s| | |].
  - intros i rest s1 (k & Hk & E & Hw). destruct (decide (k = 512)) as [->|]; [done|].
    rewrite seqZ_cons in E by lia. injection E as -> ->. unfold ldm64, stm64, modify_mem. wsteps.
    rewrite (wk_rest _ _ _ _ _ _ Hw) by lia.
    assert (Hnext : forall s2, walked s l d p (k + 1) s2 -> exists k', 0 <= k' <= 512 /\
      seqZ (Z.succ k) (Z.pred (512 - k)) = seqZ k' (512 - k') /\ walked s l d p k' s2).
    { intros s2 Hw2. exists (k + 1). split; [lia|]. split; [f_equal; lia|done]. }
    set (v := ld64 (mem s) (p + 8 * k)) in *.
    destruct (has v PTE_V) eqn:Hv; cbn [andb].
    + destruct (Hc k) as [Hr Hcc]; [unfold index; lia|done|]. fold v in Hr, Hcc. rewrite Hr. cbn [Z.eqb]. wsteps.
      assert (Eb : below (mem s) d p k = tables (mem s) d (PTE2PA v)) by (unfold below, entry; fold v; by rewrite Hv).
      pose proof (walked_below s l d p Hn Hp k s1 ltac:(lia) Hw) as Hsame. rewrite Eb in Hsame.
      pose proof (tables_ext _ _ _ _ Hsame) as Et.
      destruct (nodup_parts s d p Hn k) as (Hnb & _ & Hdis); [lia|]. rewrite Eb in Hnb, Hdis.
      eapply wp_mono; [apply (IH (PTE2PA v) s1 (reverse (visited s d p k) ++ l)); [apply Hw|by eapply clean_ext|by rewrite Et|]|].
      * rewrite Et. intros q Hq. destruct (below_page s l d p Hp k q) as [Hok Hql]; [lia|by rewrite Eb|].
        split; [done|]. rewrite elem_of_app, elem_of_reverse. intros [Hqv|]; [by apply (Hdis q)|done].
      * cbv beta. intros _ s2 Hf. wsteps. apply Hnext. eapply walked_clear; [done..|lia|done|].
        by rewrite Eb, <- Et.
    + wsteps. apply Hnext, walked_skip; [lia|done|]. unfold below, entry. fold v. by rewrite Hv.
  - cbv beta. intros _ s1 (k & Hk & E & Hw). assert (k = 512) as ->.
    { destruct (decide (k = 512)); [done|]. by rewrite seqZ_cons in E by lia. }
    by apply walked_free.
Qed.

(** ** A whole address space *)

(** Every valid entry above the last level points to a table; those of the last
    level map the first [n] pages. *)
Record tidy (m : memory) (root n : Z) : Prop := {
  td_inner : forall path p i, (length path <= 1)%nat -> Forall index path -> index i ->
    pt_page m root path = Some p -> has (ld64 m (p + 8 * i)) PTE_V = true ->
    Z.land (ld64 m (p + 8 * i)) (Z.lor (Z.lor PTE_R PTE_W) PTE_X) = 0;
  td_leaf : forall path p i, length path = 2%nat -> Forall index path -> index i ->
    pt_page m root path = Some p -> has (ld64 m (p + 8 * i)) PTE_V = true ->
    exists k, 0 <= k < n /\ path = [PX 2 (k * PGSIZE); PX 1 (k * PGSIZE)] /\ i = PX 0 (k * PGSIZE)
}.

Lemma clean_paths m d p : (0 < d)%nat ->
  (forall path q i, (length path < d)%nat -> Forall index path -> index i -> pt_page m p path = Some q ->
     has (ld64 m (q + 8 * i)) PTE_V = true ->
     Z.land (ld64 m (q + 8 * i)) (Z.lor (Z.lor PTE_R PTE_W) PTE_X) = 0 /\ (S (length path) < d)%nat) ->
  clean m d p.
Proof.
  revert p. induction d as [|d IH]; intros p Hd Hv; [lia|]. cbn [clean]. intros i Hi HV. set (v := ld64 m (p + 8 * i)) in *.
  destruct (Hv [] p i) as [Hr Hl]; [simpl; lia|constructor|done|done|done|]. simpl in Hl.
  split; [done|]. apply IH; [lia|]. intros path q j Hlen Hf Hj Hq HVq.
  destruct (Hv (i :: path) q j) as [Hr' Hl']; [simpl; lia|by constructor|done| |done|].
  - cbn [pt_page]. unfold entry. fold v. by rewrite HV.
  - simpl in Hl'. split; [done|lia].
Qed.

Lemma path_index path : path_ok path <-> (length path <= 2)%nat /\ Forall index path.
Proof. done. Qed.

(** Unmapping the user pages leaves a table with no mapping. *)
Lemma unmapped_clean root s l ps s1 : tidy (mem s) root (zlen ps) -> unmapped root s l 0 ps s1 ->
  zlen ps * PGSIZE <= MAXVA -> clean (mem s1) 3 root.
Proof.
  intros Ht Hu Hmax. apply clean_paths; [lia|]. intros path q i Hlen Hf Hi Hq HV.
  assert (Hok : path_ok path) by (apply path_index; split; [lia|done]).
  pose proof Hq as Hq0. rewrite (un_tables _ _ _ _ _ _ Hu) in Hq0 by done.
  destruct (un_entry _ _ _ _ _ _ Hu path q i Hok Hq0 Hi) as [E|E]; [|by rewrite E in HV].
  rewrite E in HV |- *. destruct (decide (length path = 2%nat)) as [El|]; [exfalso|].
  - destruct (td_leaf _ _ _ Ht path q i El Hf Hi Hq0 HV) as (k & Hk & -> & ->).
    assert (Hz : leaf_pte (mem s1) root (k * PGSIZE) = 0).
    { rewrite (un_leaf _ _ _ _ _ _ Hu) by clia. unfold without. rewrite Z.div_mul by clia.
      change (0 / PGSIZE) with 0. by rewrite (proj2 (Z.leb_le _ _)), (proj2 (Z.ltb_lt _ _)) by lia. }
    unfold leaf_pte, leaf_addr in Hz. rewrite Hq in Hz. cbn in Hz. rewrite Hz in E. by rewrite <- E in HV.
  - split; [|lia]. by apply (td_inner _ _ _ Ht path q i); [lia|..].
Qed.

Lemma elem_table_pages m root q : q ∈ tables m 3 root <-> exists path, path_ok path /\ pt_page m root path = Some q.
Proof.
  rewrite elem_tables. split.
  - intros (path & Hl & Hf & E). exists path. done.
  - intros (path & [Hl Hf] & E). exists path. done.
Qed.

Section Uvmfree.
Context (root : Z) (s : kstate) (l ps : list Z) (sz : Z).
Hypothesis Himg : image_ok.
Hypothesis Halloc : alloc_inv s l.
Hypothesis Hinv : pt_inv (mem s) root l.
Hypothesis Hsz : 0 <= sz <= MAXVA.
Hypothesis Hlen : zlen ps = PGROUNDUP sz / PGSIZE.
Hypothesis Hholds : holds (mem s) root 0 ps.
Hypothesis Htidy : tidy (mem s) root (zlen ps).
Hypothesis Hnodup : NoDup ps.
Hypothesis Hpages : forall p, p ∈ ps -> page_ok p /\ (p ∉ l) /\ no_table (mem s) root p.

Lemma ps_bound : zlen ps * PGSIZE <= MAXVA /\ (sz = 0 -> ps = []).
Proof.
  destruct (PGROUNDUP_range sz Hsz) as (Hal & Hb & Hm).
  split; [rewrite Hlen; consts; zdm|]. intros ->. destruct ps; [done|]. exfalso.
  rewrite PGROUNDUP_page in Hlen by (done || clia). change (0 / PGSIZE) with 0 in Hlen. simpl in Hlen. lia.
Qed.

Lemma wp_uvmfree_unmap :
  wp (when (0 <? sz) (uvmunmap root 0 (PGROUNDUP sz / PGSIZE) true))
    (fun _ s1 => unmapped root s l 0 ps s1) s.
Proof.
  destruct ps_bound as [Hmax H0p]. destruct (Z.ltb_spec 0 sz); cbn [when].
  - rewrite <- Hlen. apply wp_uvmunmap; try done; [| |intros p Hp; by apply Hpages];
      apply Forall_forall; intros p Hp; by apply Hpages.
  - wsteps. rewrite H0p by lia. by apply unmapped_nil.
Qed.

Lemma wp_uvmfree :
  wp (uvmfree root sz) (fun _ s' => exists l', s' = set_freelist (freelist s') (set_mem (mem s') s) /\ alloc_inv s' l' /\
    (forall q, q ∈ l' <-> q ∈ l \/ q ∈ ps \/ exists path, path_ok path /\ pt_page (mem s) root path = Some q) /\
    (forall q, q mod PGSIZE = 0 -> q ∉ l' -> same_page (mem s) (mem s') q)) s.
Proof.
  unfold uvmfree. wstep. eapply wp_mono; [apply wp_uvmfree_unmap|]. cbv beta. intros _ s1 Hu.
  assert (Hnt : Forall (no_table (mem s) root) ps) by (apply Forall_forall; intros p Hp; by apply Hpages).
  pose proof (un_inv _ _ _ _ _ _ Hinv Hu Hnt) as Hinv1.
  assert (Htab : forall q, q ∈ tables (mem s1) 3 root <-> exists path, path_ok path /\ pt_page (mem s) root path = Some q).
  { intros q. rewrite elem_table_pages. split; intros (path & Hok & E); exists path; split; try done.
    - by rewrite <- (un_tables _ _ _ _ _ _ Hu).
    - by rewrite (un_tables _ _ _ _ _ _ Hu). }
  eapply wp_mono; [apply (wp_freewalk 3 root s1 (reverse ps ++ l)); [done|apply Hu| | |]|].
  - eapply unmapped_clean; [done|done|apply ps_bound].
  - apply NoDup_tables. intros pa pb q Ha Hb Hfa Hfb Ea Eb.
    by eapply (pt_inj _ _ _ Hinv1); [split; [lia|]..| |].
  - intros q (path & Hok & E)%elem_table_pages. by apply (pt_pages _ _ _ Hinv1 path).
  - cbv beta. intros _ s2 [Es Ha Hfr]. eexists. split; [rewrite Es at 1; by rewrite (un_state _ _ _ _ _ _ Hu)|]. split; [exact Ha|]. split.
    + intros q. rewrite !elem_of_app, !elem_of_reverse, Htab. tauto.
    + intros q Hq. rewrite !elem_of_app, !elem_of_reverse. intros Hn.
      eapply same_page_trans; [|apply Hfr; [done|tauto]]. apply Hu; [done|tauto|].
      intros path Hok E. apply Hn. left. apply Htab. by exists path.
Qed.
End Uvmfree.

(** C13: [uvmfree] of an address space whose mappings are the pages [ps] below [sz]
    returns, and the free list then holds exactly the pages that were free, the
    user pages and the table pages, each once: nothing is lost and nothing is
    freed twice.  No other page of memory has changed. *)
Theorem uvmfree_spec (root : Z) (s : kstate) (l ps : list Z) (sz : Z) :
  image_ok -> alloc_inv s l -> pt_inv (mem s) root l -> 0 <= sz <= MAXVA ->
  zlen ps = PGROUNDUP sz / PGSIZE -> holds (mem s) root 0 ps -> tidy (mem s) root (zlen ps) ->
  NoDup ps -> (forall p, p ∈ ps -> page_ok p /\ (p ∉ l) /\ no_table (mem s) root p) ->
  exists s' l', uvmfree root sz s = Ok tt s' /\
    s' = set_freelist (freelist s') (set_mem (mem s') s) /\ alloc_inv s' l' /\
    (forall q, q ∈ l' <-> q ∈ l \/ q ∈ ps \/ exists path, path_ok path /\ pt_page (mem s) root path = Some q) /\
    (forall q, q mod PGSIZE = 0 -> q ∉ l' -> same_page (mem s) (mem s') q).
Proof.
  intros. destruct (wp_run _ _ _ (wp_uvmfree root s l ps sz ltac:(done) ltac:(done) ltac:(done) ltac:(done)
    ltac:(done) ltac:(done) ltac:(done) ltac:(done) ltac:(done))) as ([] & s' & Hr & l' & Hpost).
  by exists s', l'.
Qed.
End Freewalk.

(** ** The parent of [Uvm], which maps one page *)
Lemma ex_tidy : tidy (mem ex_fork) ex_parent 1.
Proof.
  assert (Hz : forall k i, 1 <= k <= 8 -> index i -> has (ld64 (mem ex_fork) (ex_page k + 8 * i)) PTE_V = true -> i = 0).
  { intros k i Hk Hi Hv. destruct (decide (i = 0)); [done|]. rewrite ex_entry_none in Hv by (unfold index in Hi; lia). done. }
  split; intros path p i Hl Hf Hi; rewrite ex_tables by (split; [lia|exact Hf]); repeat case_decide; subst;
    try done; intros [= <-] Hv; apply Hz in Hv; try done; subst; try lia.
  - reflexivity.
  - reflexivity.
  - simpl in Hl. lia.
  - exists 0. done.
Qed.

Lemma uvmfree_spec_witness : exists s' l',
  uvmfree (H := idle_world) (H0 := fork_image) ex_parent 100 ex_fork = Ok tt s' /\
  alloc_inv (H0 := fork_image) s' l' /\ ex_page 1 ∈ l' /\ ex_page 4 ∈ l' /\ (ex_page 5 ∉ l').
Proof.
  destruct (uvmfree_spec (H := idle_world) (H0 := fork_image) ex_parent ex_fork ex_pages [ex_page 4] 100
    fork_image_ok ex_fork_alloc ex_parent_pt) as (s' & l' & Hr & _ & Ha & Hl & _).
  - vm_compute. split; congruence.
  - reflexivity.
  - intros i p Hi. apply list_lookup_singleton_Some in Hi as [-> <-].
    split; [reflexivity|]. split; [vm_compute; congruence|reflexivity].
  - exact ex_tidy.
  - apply NoDup_singleton.
  - intros p ->%list_elem_of_singleton. destruct (ex_not_free 4) as [Hok Hn]; [lia|]. split; [exact Hok|].
    split; [exact Hn|]. intros path Hpo. rewrite ex_tables by exact Hpo.
    repeat case_decide; intros [= E]; vm_compute in E; congruence.
  - exists s', l'. split; [exact Hr|]. split; [exact Ha|]. rewrite !Hl. split; [|split].
    + right. right. exists []. split; [exact path_ok_nil|reflexivity].
    + right. left. by left.
    + intros [Hin|[Hin|(path & Hpo & E)]].
      * destruct (ex_not_free 5) as [_ Hn]; [lia|]. exact (Hn Hin).
      * apply list_elem_of_singleton in Hin. vm_compute in Hin. congruence.
      * rewrite ex_tables in E by exact Hpo. revert E.
        repeat case_decide; intros [= E]; vm_compute in E; congruence.
Defined.
