(* ===== verification/Sched.v ===== *)
(** * kernel/proc.c: scheduling

    [swtch] leaves the kernel thread; what happens until the thread is switched
    back is the environment's step.  The loops over the process table take each
    process's lock in turn.

    The last part models the protocol of [sleep] and [wakeup] as interleaved steps
    of two kernel threads and proves that no wakeup is lost. *)

From stdpp Require Import gmap strings list fin_maps.
From Stdlib Require Import ZArith Lia.
From S2P Require Import Prelude Machine Str State Riscv Spinlock Kalloc Vm Copy.
Open Scope Z_scope.

Section Sched.
Context `{World kstate}.

(** The entries of [proc[]]. *)
Definition proc_ids : list nat := seq 0 (Z.to_nat NPROC).

(* @kernel/proc.c myproc *)
Definition myproc : K (option nat) :=
  push_off ;;;
  let* c := mycpu in
  let* p := get_cpu c c_proc in
  pop_off ;;;
  ret p.

(* @kernel/proc.c allocpid *)
Definition allocpid : K Z :=
  acquire L_pid ;;;
  let* pid := gets nextpid in
  modify (fun s => set_nextpid (i32 (nextpid s + 1)) s) ;;;
  release L_pid ;;;
  ret pid.

(** [swtch] (kernel/swtch.S) saves the registers and continues another thread. *)
Definition swtch : K unit := wait_world.

(* @kernel/proc.c sched *)
Definition sched : K unit :=
  let* p := myproc in
  let* p := deref p in
  let* h := holding (L_proc p) in
  if negb h then panic "sched p->lock"
  else
  let* c := mycpu in
  let* n := get_cpu c noff in
  if negb (n =? 1) then panic "sched locks"
  else
  let* st := get_proc p state in
  if bool_decide (st = RUNNING) then panic "sched running"
  else
  let* i := intr_get in
  if i : bool then panic "sched interruptible"
  else
  let* c := mycpu in
  let* e := get_cpu c intena in
  swtch ;;;
  let* c := mycpu in
  modify_cpu c (set_intena e).

(* @kernel/proc.c yield *)
Definition yield : K unit :=
  let* p := myproc in
  let* p := deref p in
  acquire (L_proc p) ;;;
  modify_proc p (set_state RUNNABLE) ;;;
  sched ;;;
  release (L_proc p).

(* @kernel/proc.c sleep *)
Definition sleep (ch : chanid) (lk : lockid) : K unit :=
  let* p := myproc in
  let* p := deref p in
  when (negb (bool_decide (lk = L_proc p)))
    (acquire (L_proc p) ;;; release lk) ;;;
  modify_proc p (set_chan (Some ch)) ;;;
  modify_proc p (set_state SLEEPING) ;;;
  sched ;;;
  modify_proc p (set_chan None) ;;;
  when (negb (bool_decide (lk = L_proc p)))
    (release (L_proc p) ;;; acquire lk).

(* @kernel/proc.c wakeup *)
Definition wakeup (ch : chanid) : K unit :=
  for_all proc_ids (fun p =>
    acquire (L_proc p) ;;;
    let* st := get_proc p state in
    let* c := get_proc p chan in
    when (bool_decide (st = SLEEPING) && bool_decide (c = Some ch))
      (modify_proc p (set_state RUNNABLE)) ;;;
    release (L_proc p)).

(* @kernel/proc.c wakeup1 *)
Definition wakeup1 (p : nat) : K unit :=
  let* h := holding (L_proc p) in
  if negb h then panic "wakeup1"
  else
  let* c := get_proc p chan in
  let* st := get_proc p state in
  when (bool_decide (c = Some (Ch_proc p)) && bool_decide (st = SLEEPING))
    (modify_proc p (set_state RUNNABLE)).

(* @kernel/proc.c kill *)
Definition kill (id : Z) : K Z :=
  let* r := for_each proc_ids (fun p =>
    acquire (L_proc p) ;;;
    let* pid := get_proc p pid in
    if pid =? id then
      modify_proc p (set_killed true) ;;;
      let* st := get_proc p state in
      when (bool_decide (st = SLEEPING)) (modify_proc p (set_state RUNNABLE)) ;;;
      release (L_proc p) ;;;
      ret (Some 0)
    else
      release (L_proc p) ;;;
      ret None) in
  ret (default (-1) r).

(** One round over the process table: whether a process was found. *)
Definition scheduler_round (c : nat) : K bool :=
  intr_on ;;;
  let* found := iter (S (Z.to_nat NPROC)) (fun '(ps, found) =>
    match ps with
    | [] => ret (inr found)
    | p :: ps =>
      acquire (L_proc p) ;;;
      let* st := get_proc p state in
      let* found :=
        (if bool_decide (st = RUNNABLE) then
           modify_proc p (set_state RUNNING) ;;;
           modify_cpu c (set_c_proc (Some p)) ;;;
           swtch ;;;
           modify_cpu c (set_c_proc None) ;;;
           ret true
         else ret found) in
      release (L_proc p) ;;;
      ret (inl (ps, found))
    end) (proc_ids, false) in
  when (negb found) intr_on ;;;
  ret found.

(** [scheduler] never returns; [rounds] of its loop are followed ([wfi] waits for
    an interrupt). *)
(* @kernel/proc.c scheduler *)
Definition scheduler (rounds : nat) : K unit :=
  let* c := mycpu in
  modify_cpu c (set_c_proc None) ;;;
  for_all (seq 0 rounds) (fun _ => let* found := scheduler_round c in ret tt).

(* @kernel/proc.c either_copyout *)
Definition either_copyout (user_dst : bool) (dst : Z) (src : list Z) (len : Z) : K Z :=
  let* p := myproc in
  if user_dst then
    let* p := deref p in
    let* pt := get_proc p pagetable in
    copyout pt dst src len
  else
    modify_mem (fun m => stbytes m dst (take (Z.to_nat len) src)) ;;;
    ret 0.

(* @kernel/proc.c either_copyin *)
Definition either_copyin (user_src : bool) (src len : Z) : K (Z * list Z) :=
  let* p := myproc in
  if user_src then
    let* p := deref p in
    let* pt := get_proc p pagetable in
    copyin pt src len
  else
    let* bytes := gets (fun s => ldbytes (mem s) src (Z.to_nat len)) in
    ret (0, bytes).

(** ** The current process *)

Lemma wp_myproc c (Q : option nat -> kstate -> Prop) s :
  settled s -> cpus s !! this_cpu s = Some c -> Q (c_proc c) s -> wp myproc Q s.
Proof.
  intros Hs Hc HQ. unfold myproc. wstep. eapply wp_push_off; [exact Hc|]. wstep.
  apply wp_mycpu. wstep.
  eapply wp_get_cpu; [fields; apply list_lookup_insert_eq; by eapply lookup_lt_Some|].
  wstep. eapply (wp_pop_restore _ s _ c); [done|done|by fields..|]. fields. wsteps.
  replace (c_proc (off_cpu c (intr s))) with (c_proc c)
    by (unfold off_cpu; by destruct (noff c =? 0)).
  by destruct s.
Qed.

Lemma wp_get_proc {A} i (f : proc -> A) p (Q : A -> kstate -> Prop) s :
  procs s !! i = Some p -> Q (f p) s -> wp (get_proc i f) Q s.
Proof. intros. unfold get_proc. wsteps. done. Qed.

Lemma wp_modify_proc i f p (Q : unit -> kstate -> Prop) s :
  procs s !! i = Some p -> Q tt (set_procs (<[i := f p]> (procs s)) s) -> wp (modify_proc i f) Q s.
Proof. intros. unfold modify_proc. wsteps. done. Qed.

Lemma elem_proc_ids i : i ∈ proc_ids <-> (i < 64)%nat.
Proof. unfold proc_ids. rewrite elem_of_seq. change (Z.to_nat NPROC) with 64%nat. lia. Qed.

(** ** What [wakeup] and [kill] do to the process table *)

Definition procs_free (s : kstate) : Prop :=
  settled s /\ (forall i, (i < 64)%nat -> lock_free (L_proc i) s) /\ length (procs s) = 64%nat.

Definition wake (ch : chanid) (p : proc) : proc :=
  if bool_decide (state p = SLEEPING) && bool_decide (chan p = Some ch)
  then set_state RUNNABLE p else p.

Lemma procs_free_set s ps : procs_free s -> length ps = 64%nat -> procs_free (set_procs ps s).
Proof. intros (Hs & Hl & _) Hps. by split; [|split]. Qed.

Lemma wp_wakeup ch (Q : unit -> kstate -> Prop) s :
  procs_free s -> Q tt (set_procs (wake ch <$> procs s) s) -> wp (wakeup ch) Q s.
Proof.
  intros Hf HQ. unfold wakeup.
  eapply wp_mono; [apply (wp_for_all _ _ (fun rest s' => exists k, rest = seq k (64 - k) /\
     (k <= 64)%nat /\ s' = set_procs (map_upto k (wake ch) (procs s)) s))|].
  - exists 0%nat. split; [done|]. split; [lia|]. by destruct s.
  - intros p rest s' (k & Er & Hk & ->).
    destruct (decide (k = 64%nat)) as [->|Hne]; [done|].
    replace (64 - k)%nat with (S (64 - S k)) in Er by lia. cbn [seq] in Er. injection Er as -> ->.
    destruct (procs_free_set s (map_upto k (wake ch) (procs s)) Hf) as (Hs & Hl & _);
      [rewrite length_map_upto; apply Hf|].
    destruct (lookup_lt_is_Some_2 (procs s) k) as [q Hq]; [destruct Hf as (_ & _ & ->); lia|].
    wstep. apply wp_acquire; [done|apply Hl; lia|].
    wstep. eapply wp_get_proc; [critical; rewrite map_upto_lookup; exact Hq|].
    wstep. eapply wp_get_proc; [critical; rewrite map_upto_lookup; exact Hq|].
    wstep. apply wp_when; intros E.
    + eapply wp_modify_proc; [critical; rewrite map_upto_lookup; exact Hq|].
      eapply (wp_release (L_proc k) _ (set_procs (map_upto k (wake ch) (procs s)) s)); [done|apply Hl; lia|done..|].
      exists (S k). split; [done|]. split; [lia|]. critical.
      rewrite <- (map_upto_step k (wake ch) (procs s) q Hq).
      replace (wake ch q) with (set_state RUNNABLE q) by (unfold wake; by rewrite E). done.
    + eapply (wp_release (L_proc k) _ (set_procs (map_upto k (wake ch) (procs s)) s)); [done|apply Hl; lia|done..|].
      exists (S k). split; [done|]. split; [lia|]. rewrite restore_acq.
      rewrite <- (map_upto_step k (wake ch) (procs s) q Hq).
      replace (wake ch q) with q by (unfold wake; by rewrite E).
      rewrite list_insert_id; [done|]. by rewrite map_upto_lookup.
  - intros [] s' (k & Er & Hk & ->). assert (k = 64%nat) as ->.
    { destruct (64 - k)%nat eqn:E; [lia|done]. }
    destruct Hf as (_ & _ & <-). by rewrite map_upto_all.
Qed.

(** The entry [kill] picks and what it does to it. *)
Definition kill_proc (p : proc) : proc :=
  let p := set_killed true p in
  if bool_decide (state p = SLEEPING) then set_state RUNNABLE p else p.

Definition find_pid (id : Z) (ps : list proc) : option (nat * proc) :=
  list_find (fun p => pid p = id) ps.

Lemma wp_kill id (Q : Z -> kstate -> Prop) s :
  procs_free s ->
  match find_pid id (procs s) with
  | Some (i, p) => Q 0 (set_procs (<[i := kill_proc p]> (procs s)) s)
  | None => Q (-1) s
  end -> wp (kill id) Q s.
Proof.
  intros (Hs & Hl & Hlen) HQ. unfold kill. wstep.
  apply (wp_for_each _ _ (fun rest s' => exists k, rest = seq k (64 - k) /\ (k <= 64)%nat /\ s' = s /\
            forall j p, (j < k)%nat -> procs s !! j = Some p -> pid p <> id)).
  - exists 0%nat. split; [done|]. split; [lia|]. split; [done|lia].
  - intros p rest s' (k & Er & Hk & -> & Hbef).
    destruct (decide (k = 64%nat)) as [->|Hne]; [done|].
    replace (64 - k)%nat with (S (64 - S k)) in Er by lia. cbn [seq] in Er. injection Er as -> ->.
    destruct (lookup_lt_is_Some_2 (procs s) k) as [q Hq]; [lia|].
    wstep. apply wp_acquire; [done|apply Hl; lia|]. wstep. eapply wp_get_proc; [exact Hq|].
    destruct (Z.eqb_spec (pid q) id) as [Hid|Hid].
    + assert (Hfind : find_pid id (procs s) = Some (k, q)).
      { apply list_find_Some. split; [done|]. split; [done|]. eauto. }
      rewrite Hfind in HQ. wstep. eapply wp_modify_proc; [exact Hq|].
      wstep. eapply wp_get_proc; [fields; apply list_lookup_insert_eq; by eapply lookup_lt_Some|].
      wstep. unfold kill_proc in HQ. apply wp_when; intros E; rewrite E in HQ.
      * eapply wp_modify_proc; [fields; apply list_lookup_insert_eq; by eapply lookup_lt_Some|].
        wstep. eapply (wp_release (L_proc k) _ s); [done|apply Hl; lia|done..|]. wsteps. critical.
        by rewrite list_insert_insert_eq.
      * wstep. eapply (wp_release (L_proc k) _ s); [done|apply Hl; lia|done..|]. wsteps. by critical.
    + wstep. eapply (wp_release (L_proc k) _ s); [done|apply Hl; lia|done..|]. wsteps.
      exists (S k). split; [done|]. split; [lia|]. split; [apply restore_acq|].
      intros j p Hj Hp. destruct (decide (j = k)) as [->|]; [congruence|]. apply (Hbef j); [lia|done].
  - intros s' (k & Er & Hk & -> & Hbef). assert (k = 64%nat) as ->.
    { destruct (64 - k)%nat eqn:E; [lia|done]. }
    wsteps. replace (find_pid id (procs s)) with (@None (nat * proc)) in HQ; [done|].
    symmetry. apply list_find_None, Forall_lookup. intros j p Hp.
    pose proof (lookup_lt_Some _ _ _ Hp). apply (Hbef j p); [lia|done].
Qed.

(** ** Properties *)

(** [wakeup] makes every process that sleeps on the channel runnable, and
    changes nothing else: no other process, lock, or interrupt state. *)
Theorem wakeup_spec (ch : chanid) (s : kstate) :
  procs_free s -> wakeup ch s = Ok tt (set_procs (wake ch <$> procs s) s).
Proof.
  intros Hf. destruct (wp_run_unit (wakeup ch) (fun s' => s' = set_procs (wake ch <$> procs s) s) s) as (s' & -> & ->);
    [by apply wp_wakeup|done].
Qed.

(** [kill] marks the first process with the given pid, wakes it if it
    sleeps and returns 0; it returns -1 and changes nothing when there is none. *)
Theorem kill_spec (id : Z) (s : kstate) :
  procs_free s ->
  kill id s =
  match find_pid id (procs s) with
  | Some (i, p) => Ok 0 (set_procs (<[i := kill_proc p]> (procs s)) s)
  | None => Ok (-1) s
  end.
Proof.
  intros Hf. destruct (wp_run (kill id) (fun r s' =>
    match find_pid id (procs s) with
    | Some (i, p) => r = 0 /\ s' = set_procs (<[i := kill_proc p]> (procs s)) s
    | None => r = -1 /\ s' = s
    end) s) as (r & s' & -> & Hr).
  - apply wp_kill; [done|]. by destruct (find_pid id (procs s)) as [[i p]|].
  - by destruct (find_pid id (procs s)) as [[i p]|], Hr as [-> ->].
Qed.
End Sched.

Lemma zero_procs_free : procs_free zero_kstate.
Proof.
  split; [exact settled_zero|]. split; [|done]. intros i Hi. exists ""%string.
  do 64 (destruct i as [|i]; [reflexivity|]). lia.
Qed.

Lemma wakeup_spec_witness :
  wakeup (H := idle_world) Ch_ticks zero_kstate = Ok tt (set_procs (wake Ch_ticks <$> procs zero_kstate) zero_kstate).
Proof. apply (wakeup_spec (H := idle_world) Ch_ticks zero_kstate). exact zero_procs_free. Defined.

Lemma kill_spec_witness : kill (H := idle_world) 7 zero_kstate = Ok (-1) zero_kstate.
Proof. apply (kill_spec (H := idle_world) 7 zero_kstate). exact zero_procs_free. Defined.

(** The same on the empty table: [kill] with pid 0 finds a slot that holds no
    process and marks it killed. *)
Lemma kill_zero : procs_free zero_kstate /\
  kill (H := idle_world) 0 zero_kstate =
  Ok 0 (set_procs (<[0%nat := set_killed true zero_proc]> (procs zero_kstate)) zero_kstate).
Proof.
  split; [exact zero_procs_free|].
  assert (W : wp (kill (H := idle_world) 0) (fun r s' => r = 0 /\
     s' = set_procs (<[0%nat := set_killed true zero_proc]> (procs zero_kstate)) zero_kstate) zero_kstate).
  { apply wp_kill; [exact zero_procs_free|]. done. }
  by destruct (wp_run _ _ _ W) as (r & s' & -> & -> & ->).
Qed.

(** ** No lost wakeup

    One process that waits for a condition and any number of kernel threads that
    set it, as interleaved steps.  Each step is one lock operation or one access of
    the code between two of them:
    - the waiter acquires [lk] and tests the condition; if it is false it runs
      [sleep(chan, lk)]: [acquire(&p->lock)], [release(lk)], set [chan] and
      [state], and [sched], which makes the scheduler release [p->lock]; when the
      process is run again it clears [chan], releases [p->lock] and acquires [lk];
    - a waker acquires [lk], sets the condition, runs [wakeup(chan)], which
      acquires [p->lock], tests [state] and [chan], and releases it, and then
      releases [lk]. *)
Module SleepWakeup.

Inductive wait_pc :=
| W_out            (* before acquire(lk) *)
| W_test           (* holds lk, about to test the condition *)
| W_sleep0         (* in sleep: holds lk, before acquire(&p->lock) *)
| W_sleep1         (* holds lk and p->lock, before release(lk) *)
| W_sleep2         (* holds p->lock, before setting chan and state *)
| W_sched          (* holds p->lock, SLEEPING, before the scheduler releases it *)
| W_off            (* switched out *)
| W_back           (* switched in again, holds p->lock *)
| W_again          (* p->lock released, before acquire(lk) *)
| W_done.          (* holds lk, the condition is true *)

Inductive wake_pc :=
| K_out            (* before acquire(lk) *)
| K_set            (* holds lk, about to set the condition *)
| K_call           (* holds lk, before acquire(&p->lock) in wakeup *)
| K_look           (* holds lk and p->lock, about to test state and chan *)
| K_unlock         (* holds lk and p->lock, before release(&p->lock) *)
| K_ret.           (* holds lk, before release(lk) *)

Inductive tid := Waiter | Waker (i : nat).

#[export] Instance tid_eq_dec : EqDecision tid.
Proof. solve_decision. Defined.

Record st := mk_st {
  lk : option tid;             (* who holds lk *)
  plock : option tid;          (* who holds p->lock *)
  cond : bool;
  sleeping : bool;             (* p->state == SLEEPING && p->chan == chan *)
  wpc : wait_pc;
  kpc : nat -> wake_pc
}.

Definition upd (f : nat -> wake_pc) (i : nat) (x : wake_pc) : nat -> wake_pc :=
  fun j => if decide (j = i) then x else f j.

(* @kernel/proc.c sleep *)
Inductive wait_step : st -> st -> Prop :=
| ws_acquire pl c sl k : wait_step (mk_st None pl c sl W_out k) (mk_st (Some Waiter) pl c sl W_test k)
| ws_true l pl sl k : wait_step (mk_st l pl true sl W_test k) (mk_st l pl true sl W_done k)
| ws_false l pl sl k : wait_step (mk_st l pl false sl W_test k) (mk_st l pl false sl W_sleep0 k)
| ws_plock l c sl k : wait_step (mk_st l None c sl W_sleep0 k) (mk_st l (Some Waiter) c sl W_sleep1 k)
| ws_unlk l pl c sl k : wait_step (mk_st l pl c sl W_sleep1 k) (mk_st None pl c sl W_sleep2 k)
| ws_mark l pl c sl k : wait_step (mk_st l pl c sl W_sleep2 k) (mk_st l pl c true W_sched k)
| ws_swtch l pl c sl k : wait_step (mk_st l pl c sl W_sched k) (mk_st l None c sl W_off k)
| ws_run l c k : wait_step (mk_st l None c false W_off k) (mk_st l (Some Waiter) c false W_back k)
| ws_unplock l pl c sl k : wait_step (mk_st l pl c sl W_back k) (mk_st l None c sl W_again k)
| ws_relock pl c sl k : wait_step (mk_st None pl c sl W_again k) (mk_st (Some Waiter) pl c sl W_test k)
| ws_use l pl c sl k : wait_step (mk_st l pl c sl W_done k) (mk_st None pl false sl W_out k).

(* @kernel/proc.c wakeup *)
Inductive wake_step (i : nat) : st -> st -> Prop :=
| ks_acquire pl c sl w k : k i = K_out ->
    wake_step i (mk_st None pl c sl w k) (mk_st (Some (Waker i)) pl c sl w (upd k i K_set))
| ks_set l pl c sl w k : k i = K_set ->
    wake_step i (mk_st l pl c sl w k) (mk_st l pl true sl w (upd k i K_call))
| ks_plock l c sl w k : k i = K_call ->
    wake_step i (mk_st l None c sl w k) (mk_st l (Some (Waker i)) c sl w (upd k i K_look))
| ks_look l pl c sl w k : k i = K_look ->
    wake_step i (mk_st l pl c sl w k) (mk_st l pl c false w (upd k i K_unlock))
| ks_unlock l pl c sl w k : k i = K_unlock ->
    wake_step i (mk_st l pl c sl w k) (mk_st l None c sl w (upd k i K_ret))
| ks_release l pl c sl w k : k i = K_ret ->
    wake_step i (mk_st l pl c sl w k) (mk_st None pl c sl w (upd k i K_out)).

Inductive step : st -> st -> Prop :=
| step_wait s s' : wait_step s s' -> step s s'
| step_wake i s s' : wake_step i s s' -> step s s'.

Definition init : st := mk_st None None false false W_out (fun _ => K_out).

Inductive reachable : st -> Prop :=
| reach_init : reachable init
| reach_step s s' : reachable s -> step s s' -> reachable s'.

(** Who holds which lock at each point of the code. *)
Definition wait_lk (w : wait_pc) : bool :=
  match w with W_test | W_sleep0 | W_sleep1 | W_done => true | _ => false end.
Definition wait_plock (w : wait_pc) : bool :=
  match w with W_sleep1 | W_sleep2 | W_sched | W_back => true | _ => false end.
Definition wake_lk (k : wake_pc) : bool := match k with K_out => false | _ => true end.
Definition wake_plock (k : wake_pc) : bool := match k with K_look | K_unlock => true | _ => false end.
(** The waker has set the condition and not yet looked at the process. *)
Definition pending (k : wake_pc) : bool := match k with K_call | K_look => true | _ => false end.

(** [owned o b f]: the lock with owner [o] is held by the waiter iff [b], and by
    exactly the wakers [f] says. *)
Definition owned (o : option tid) (b : bool) (f : nat -> bool) : Prop :=
  match o with
  | None => b = false /\ forall i, f i = false
  | Some Waiter => b = true /\ forall i, f i = false
  | Some (Waker i) => b = false /\ f i = true /\ forall j, j <> i -> f j = false
  end.

Record inv (s : st) : Prop := {
  inv_lk : owned (lk s) (wait_lk (wpc s)) (fun i => wake_lk (kpc s i));
  inv_pl : owned (plock s) (wait_plock (wpc s)) (fun i => wake_plock (kpc s i));
  (* a true condition with the waiter going to sleep or asleep: a waker will look *)
  inv_wake : cond s = true -> wpc s = W_sleep2 \/ sleeping s = true ->
    exists i, pending (kpc s i) = true;
  inv_test : cond s = true -> wpc s <> W_sleep0 /\ wpc s <> W_sleep1;
  inv_sleeping : sleeping s = true -> wpc s = W_sched \/ wpc s = W_off
}.

(** A thread at a point where it holds the lock is the owner. *)
Lemma owned_waiter o f : owned o true f -> o = Some Waiter /\ forall i, f i = false.
Proof. destruct o as [[|i]|]; simpl; [|intros [? _]; done..]. by intros [_ ?]. Qed.

Lemma owned_waker o b f i : owned o b f -> f i = true ->
  o = Some (Waker i) /\ b = false /\ forall j, j <> i -> f j = false.
Proof.
  destruct o as [[|j]|]; simpl; intros Ho Hi.
  - destruct Ho as [_ Hf]. by rewrite Hf in Hi.
  - destruct Ho as (Hb & Hj & Hf). destruct (decide (i = j)) as [->|Hne]; [done|].
    by rewrite Hf in Hi.
  - destruct Ho as [_ Hf]. by rewrite Hf in Hi.
Qed.

(** A step of waker [i] that changes what it holds, or not. *)
Lemma owned_upd o b (f : wake_pc -> bool) k i x :
  owned o b (fun j => f (k j)) -> f x = f (k i) -> owned o b (fun j => f (upd k i x j)).
Proof.
  intros Ho E. assert (Hf : forall j, f (upd k i x j) = f (k j)).
  { intros j. unfold upd. by case_decide; subst. }
  destruct o as [[|j]|]; simpl in *; destruct_and?; split_and?; try done; intros; by rewrite Hf; auto.
Qed.

Lemma owned_take b (f : wake_pc -> bool) k i x :
  owned None b (fun j => f (k j)) -> f x = true -> owned (Some (Waker i)) b (fun j => f (upd k i x j)).
Proof.
  intros [Hb Hf] Hx. simpl. split; [done|]. unfold upd. split; [by rewrite decide_True|].
  intros j Hj. by rewrite decide_False.
Qed.

Lemma owned_drop o b (f : wake_pc -> bool) k i x :
  owned o b (fun j => f (k j)) -> f (k i) = true -> f x = false ->
  owned None b (fun j => f (upd k i x j)).
Proof.
  intros Ho Hi Hx. destruct (owned_waker _ _ _ _ Ho Hi) as (-> & -> & Hj). split; [done|].
  intros j. unfold upd. case_decide; [done|]. by apply Hj.
Qed.

Lemma pending_upd k i x j : pending (k j) = true -> (j = i -> pending x = true) ->
  exists j', pending (upd k i x j') = true.
Proof.
  intros Hj Hx. exists j. unfold upd. case_decide; [by apply Hx|done].
Qed.

Lemma inv_wait_step s s' : inv s -> wait_step s s' -> inv s'.
Proof.
  intros [Hlk Hpl Hwk Ht Hsl] Hst. destruct Hst; simpl in *; split; simpl; try done;
    try (apply owned_waiter in Hlk as [-> Hf]); try (apply owned_waiter in Hpl as [-> Hg]);
    try done; try (by split; [|apply Hlk]); try (by split; [|apply Hpl]).
  all: try (by intros Hc [E|E]; [done|]; apply Hwk; auto).
  all: try (by intros E; destruct (Hsl E)).
  all: try (by intros Hc _; apply Hwk; auto).
  all: try (by intros; split).
  all: try (by intros Hc; destruct (Ht Hc)).
  all: try (by left). all: try (by right).
Qed.

Lemma inv_wake_step i s s' : inv s -> wake_step i s s' -> inv s'.
Proof.
  intros [Hlk Hpl Hwk Ht Hsl] Hst. destruct Hst as [pl c sl w k E|l pl c sl w k E|l c sl w k E
    |l pl c sl w k E|l pl c sl w k E|l pl c sl w k E]; simpl in *; split; simpl; try done.
  - by apply owned_take.
  - apply owned_upd; [done|by rewrite E].
  - intros Hc Hs. destruct (Hwk Hc Hs) as [j Hj]. apply (pending_upd _ _ _ j); [done|].
    intros ->. by rewrite E in Hj.
  - apply owned_upd; [done|by rewrite E].
  - apply owned_upd; [done|by rewrite E].
  - intros _ _. exists i. unfold upd. by rewrite decide_True.
  - intros _. destruct (owned_waker _ _ _ i Hlk) as (_ & Hw & _); [by rewrite E|].
    by split; intros ->.
  - apply owned_upd; [done|by rewrite E].
  - by apply owned_take.
  - intros Hc Hs. destruct (Hwk Hc Hs) as [j Hj]. by apply (pending_upd _ _ _ j).
  - apply owned_upd; [done|by rewrite E].
  - apply owned_upd; [done|by rewrite E].
  - intros Hc [->|?]; [|done]. exfalso.
    destruct (owned_waker _ _ _ i Hpl) as (_ & Hw & _); [by rewrite E|]. done.
  - apply owned_upd; [done|by rewrite E].
  - apply (owned_drop pl); [done|by rewrite E|done].
  - intros Hc Hs. destruct (Hwk Hc Hs) as [j Hj]. apply (pending_upd _ _ _ j); [done|].
    intros ->. by rewrite E in Hj.
  - apply (owned_drop l); [done|by rewrite E|done].
  - apply owned_upd; [done|by rewrite E].
  - intros Hc Hs. destruct (Hwk Hc Hs) as [j Hj]. apply (pending_upd _ _ _ j); [done|].
    intros ->. by rewrite E in Hj.
Qed.

Lemma wait_inv_reachable s : reachable s -> inv s.
Proof.
  induction 1 as [|s s' _ IH Hst]; [|destruct Hst; eauto using inv_wait_step, inv_wake_step].
  by split.
Qed.

(** Runs of the system. *)
Definition steps : st -> st -> Prop := rtc step.

Lemma pending_wakes i l pl c w k :
  inv (mk_st l pl c true w k) -> pending (k i) = true ->
  exists s', steps (mk_st l pl c true w k) s' /\ sleeping s' = false.
Proof.
  intros [Hlk Hpl _ _ Hsl] Hp. simpl in *.
  assert (Hki : k i = K_call \/ k i = K_look) by (destruct (k i); auto; done).
  destruct Hki as [E|E].
  - assert (Hfree : pl = None \/ (w = W_sched /\ pl = Some Waiter)).
    { destruct pl as [[|j]|]; [|exfalso|by left].
      - right. split; [|done]. destruct (Hsl eq_refl) as [->| ->]; [done|]. by destruct Hpl.
      - destruct Hpl as (_ & Hj & _). destruct (decide (j = i)) as [->|Hne]; [by rewrite E in Hj|].
        destruct (owned_waker _ _ _ i Hlk) as (_ & _ & Hu); [by rewrite E|].
        specialize (Hu j Hne). by destruct (k j). }
    destruct Hfree as [->|[-> ->]].
    + eexists. split; [|shelve]. eapply rtc_l; [eapply (step_wake i), ks_plock, E|].
      eapply rtc_l; [eapply (step_wake i), ks_look; unfold upd; by rewrite decide_True|].
      apply rtc_refl.
      Unshelve. done.
    + eexists. split; [|shelve]. eapply rtc_l; [eapply step_wait, ws_swtch|].
      eapply rtc_l; [eapply (step_wake i), ks_plock, E|].
      eapply rtc_l; [eapply (step_wake i), ks_look; unfold upd; by rewrite decide_True|].
      apply rtc_refl.
      Unshelve. done.
  - eexists. split; [|shelve]. eapply rtc_l; [eapply (step_wake i), ks_look, E|]. apply rtc_refl.
    Unshelve. done.
Qed.

(** C17: no wakeup is lost: whenever the process sleeps although the condition it
    waits for holds, some thread has set the condition and is still inside
    [wakeup] before the point where it looks at the process, and letting the
    threads go on makes the process runnable. *)
Theorem no_lost_wakeup (s : st) :
  reachable s -> cond s = true -> sleeping s = true ->
  (exists i, pending (kpc s i) = true) /\ (exists s', steps s s' /\ sleeping s' = false).
Proof.
  intros Hr Hc Hs. apply wait_inv_reachable in Hr as Hi. destruct (inv_wake _ Hi Hc (or_intror Hs)) as [i Hp].
  split; [by exists i|]. destruct s as [l pl c sl w k]. simpl in *. subst. by eapply pending_wakes.
Qed.
End SleepWakeup.

(** The waiter falls asleep while a waker waits for [p->lock]. *)
Lemma no_lost_wakeup_witness :
  exists s : SleepWakeup.st, SleepWakeup.reachable s /\ SleepWakeup.cond s = true /\
    SleepWakeup.sleeping s = true /\ exists s', SleepWakeup.steps s s' /\ SleepWakeup.sleeping s' = false.
Proof.
  set (k1 := SleepWakeup.upd (fun _ => SleepWakeup.K_out) 0 SleepWakeup.K_set).
  set (s := SleepWakeup.mk_st (Some (SleepWakeup.Waker 0)) (Some SleepWakeup.Waiter) true true
    SleepWakeup.W_sched (SleepWakeup.upd k1 0 SleepWakeup.K_call)).
  assert (Hr : SleepWakeup.reachable s).
  { eapply SleepWakeup.reach_step; [|apply SleepWakeup.step_wait, SleepWakeup.ws_mark].
    eapply SleepWakeup.reach_step; [|eapply (SleepWakeup.step_wake 0), SleepWakeup.ks_set; reflexivity].
    eapply SleepWakeup.reach_step; [|eapply (SleepWakeup.step_wake 0), SleepWakeup.ks_acquire; reflexivity].
    eapply SleepWakeup.reach_step; [|eapply SleepWakeup.step_wait, SleepWakeup.ws_unlk].
    eapply SleepWakeup.reach_step; [|eapply SleepWakeup.step_wait, SleepWakeup.ws_plock].
    eapply SleepWakeup.reach_step; [|eapply SleepWakeup.step_wait, SleepWakeup.ws_false].
    eapply SleepWakeup.reach_step; [|eapply SleepWakeup.step_wait, SleepWakeup.ws_acquire].
    apply SleepWakeup.reach_init. }
  exists s. split; [exact Hr|]. split; [reflexivity|]. split; [reflexivity|].
  apply (SleepWakeup.no_lost_wakeup s Hr); reflexivity.
Defined.
