(* ===== verification/Sleeplock.v ===== *)
(** * kernel/sleeplock.c

    Locks that put the process to sleep while they wait.  The specifications are
    for a thread that finds the kernel calm: no spin lock is held and no process
    sleeps on a sleep lock or on the log. *)

From stdpp Require Import gmap strings list fin_maps.
From Stdlib Require Import ZArith Lia.
From S2P Require Import Prelude Machine State Riscv Spinlock Sched.
Open Scope Z_scope.

Section Sleeplock.
Context `{World kstate}.

Definition get_slock {A} (l : slid) (f : sleeplock -> A) : K A :=
  let* lk := gets (fun s => slocks s !! l) in
  let* lk := deref lk in ret (f lk).
Definition put_slock (l : slid) (lk : sleeplock) : K unit :=
  modify (fun s => set_slocks (<[l := lk]> (slocks s)) s).

(** [myproc()->pid] *)
Definition mypid : K Z :=
  let* p := myproc in
  let* p := deref p in
  get_proc p pid.

(* @kernel/sleeplock.c initsleeplock *)
Definition initsleeplock (l : slid) (nm : string) : K unit :=
  initlock (L_sleep l) "sleep lock" ;;;
  put_slock l (mk_sleeplock 0 nm 0).

(* @kernel/sleeplock.c acquiresleep *)
Definition acquiresleep (l : slid) : K unit :=
  acquire (L_sleep l) ;;;
  iter (S world_fuel) (fun _ : unit =>
    let* lk := get_slock l sl_locked in
    if negb (lk =? 0) then sleep (Ch_sleeplock l) (L_sleep l) ;;; ret (inl tt)
    else ret (inr tt)) tt ;;;
  let* nm := get_slock l sl_name in
  let* pd := get_slock l sl_pid in
  put_slock l (mk_sleeplock 1 nm pd) ;;;
  let* pd := mypid in
  put_slock l (mk_sleeplock 1 nm pd) ;;;
  release (L_sleep l).

(* @kernel/sleeplock.c releasesleep *)
Definition releasesleep (l : slid) : K unit :=
  acquire (L_sleep l) ;;;
  let* nm := get_slock l sl_name in
  put_slock l (mk_sleeplock 0 nm 0) ;;;
  wakeup (Ch_sleeplock l) ;;;
  release (L_sleep l).

(* @kernel/sleeplock.c holdingsleep *)
Definition holdingsleep (l : slid) : K bool :=
  acquire (L_sleep l) ;;;
  let* lk := get_slock l id in
  let* r := (if negb (sl_locked lk =? 0) then
               let* pd := mypid in ret (sl_pid lk =? pd)
             else ret false) in
  release (L_sleep l) ;;;
  ret r.

(** ** A calm kernel *)

(** [p] does not wait for a sleep lock or for the log. *)
Definition not_waiting (p : proc) : Prop :=
  state p = SLEEPING -> forall l, chan p <> Some (Ch_sleeplock l) /\ chan p <> Some Ch_log.

Definition cur_proc (s : kstate) : option proc :=
  p ← (cpus s !! this_cpu s ≫= c_proc); procs s !! p.

Definition cur_pid (s : kstate) : Z := default 0 (pid <$> cur_proc s).

Record calm (s : kstate) : Prop := {
  calm_settled : settled s;
  calm_locks : forall l, l ∈ global_locks -> lock_free l s;
  calm_procs : length (procs s) = 64%nat;
  calm_cur : is_Some (cur_proc s);
  calm_waiting : Forall not_waiting (procs s)
}.

Lemma calm_procs_free s : calm s -> procs_free s.
Proof.
  intros [Hs Hl Hp _ _]. split; [done|]. split; [|done]. intros i Hi. apply Hl.
  unfold global_locks. rewrite !elem_of_app. right. left. apply list_elem_of_fmap.
  exists i. split; [done|]. apply elem_of_seq. lia.
Qed.

Lemma calm_ext s s' : hart s' = hart s -> cpus s' = cpus s -> locks s' = locks s ->
  procs s' = procs s -> calm s -> calm s'.
Proof.
  intros Hh Hc Hl Hp [Hs Hf Hn Hcur Hw].
  assert (Ht : this_cpu s' = this_cpu s) by (unfold this_cpu; by rewrite Hh).
  split.
  - unfold settled, intr in *. by rewrite Hc, Ht, Hh.
  - intros l Hin. unfold lock_free in *. rewrite Hl. by apply Hf.
  - by rewrite Hp.
  - unfold cur_proc in *. by rewrite Hc, Ht, Hp.
  - by rewrite Hp.
Qed.

Lemma wake_quiet ch ps : Forall not_waiting ps -> (ch = Ch_log \/ exists l, ch = Ch_sleeplock l) ->
  wake ch <$> ps = ps.
Proof.
  intros Hps Hch. induction Hps as [|p ps Hp _ IH]; [done|]. rewrite fmap_cons, IH. f_equal.
  unfold wake. destruct (bool_decide_reflect (state p = SLEEPING)) as [Hsl|]; [|done].
  destruct (bool_decide_reflect (chan p = Some ch)) as [Hc|]; [|done]. exfalso.
  destruct Hch as [->|[l ->]].
  - by destruct (Hp Hsl (SL_buf 0)).
  - by destruct (Hp Hsl l).
Qed.

(** The locks of a table entry are among the global locks. *)
Lemma slid_in_locks i : (i < 30)%nat -> L_sleep (SL_buf i) ∈ global_locks.
Proof.
  intros Hi. unfold global_locks. rewrite !elem_of_app. right. right. left.
  apply list_elem_of_fmap. exists i. split; [done|]. apply elem_of_seq. lia.
Qed.
Lemma slid_inode_in_locks i : (i < 50)%nat -> L_sleep (SL_inode i) ∈ global_locks.
Proof.
  intros Hi. unfold global_locks. rewrite !elem_of_app. right. right. right.
  apply list_elem_of_fmap. exists i. split; [done|]. apply elem_of_seq. lia.
Qed.

Lemma cur_proc_inv s : calm s -> exists c p P,
  cpus s !! this_cpu s = Some c /\ c_proc c = Some p /\ procs s !! p = Some P /\ pid P = cur_pid s.
Proof.
  intros Hs. pose proof (calm_cur _ Hs) as [P HP]. pose proof HP as HP'. unfold cur_proc in HP.
  destruct (cpus s !! this_cpu s) as [c|] eqn:Hc; [|done]. simpl in HP.
  destruct (c_proc c) as [p|] eqn:Hp; [|done]. simpl in HP.
  exists c, p, P. repeat split; try done. unfold cur_pid. by rewrite HP'.
Qed.

Lemma cur_proc_acq l s : cur_proc (acq l s) = cur_proc s.
Proof.
  unfold cur_proc. rewrite this_cpu_acq. change (procs (acq l s)) with (procs s). f_equal.
  unfold acq. fields. destruct (cpus s !! this_cpu s) as [c|] eqn:Hc.
  - rewrite list_lookup_alter_eq, Hc. simpl. unfold off_cpu. by destruct (noff c =? 0).
  - by rewrite list_lookup_alter_eq, Hc.
Qed.

(** [myproc()->pid] inside a critical section. *)
Lemma wp_mypid_acq l (Q : Z -> kstate -> Prop) s t :
  calm s -> lock_free l s -> hart t = hart (acq l s) -> cpus t = cpus (acq l s) -> procs t = procs s ->
  Q (cur_pid s) t -> wp mypid Q t.
Proof.
  intros Hs Hl Hh Hc Hp HQ. destruct (cur_proc_inv s Hs) as (c & p & P & Hcpu & Hcp & HP & Hpid).
  assert (Ht : this_cpu t = this_cpu s) by (unfold this_cpu; by rewrite Hh).
  assert (Hcpu' : cpus t !! this_cpu t = Some (off_cpu c (intr s))).
  { rewrite Hc, Ht. unfold acq. fields. by rewrite list_lookup_alter_eq, Hcpu. }
  unfold mypid. wstep. eapply (wp_myproc (off_cpu c (intr s))).
  - pose proof (settled_acq l s (calm_settled _ Hs)) as Hset. unfold settled, intr in *.
    rewrite Hc, Hh. unfold this_cpu in *. by rewrite Hh.
  - done.
  - replace (c_proc (off_cpu c (intr s))) with (Some p)
      by (unfold off_cpu; by destruct (noff c =? 0)).
    wsteps. eapply wp_get_proc; [rewrite Hp; exact HP|]. by rewrite Hpid.
Qed.

Lemma wp_get_slock {A} l (f : sleeplock -> A) lk (Q : A -> kstate -> Prop) s :
  slocks s !! l = Some lk -> Q (f lk) s -> wp (get_slock l f) Q s.
Proof. intros. unfold get_slock. wsteps. done. Qed.

(** ** Specifications *)

Lemma wp_acquiresleep l nm pd (Q : unit -> kstate -> Prop) s :
  calm s -> L_sleep l ∈ global_locks -> slocks s !! l = Some (mk_sleeplock 0 nm pd) ->
  Q tt (set_slocks (<[l := mk_sleeplock 1 nm (cur_pid s)]> (slocks s)) s) ->
  wp (acquiresleep l) Q s.
Proof.
  intros Hs Hin Hl HQ. pose proof (calm_locks _ Hs _ Hin) as Hf. unfold acquiresleep.
  wstep. apply wp_acquire; [apply Hs|done|]. wstep. cbn [iter]. wstep.
  wstep. eapply wp_get_slock; [exact Hl|]. cbn [sl_locked negb Z.eqb]. wsteps.
  eapply wp_get_slock; [exact Hl|]. wstep. eapply wp_get_slock; [exact Hl|].
  unfold put_slock. wsteps. cbn [sl_name sl_pid].
  eapply (wp_mypid_acq (L_sleep l) _ s); [done|done|by fields..|]. wsteps. fields.
  rewrite insert_insert_eq.
  eapply (wp_release (L_sleep l) _ s); [apply Hs|done|by fields..|]. critical. exact HQ.
Qed.

Lemma wp_holdingsleep l lk (Q : bool -> kstate -> Prop) s :
  calm s -> L_sleep l ∈ global_locks -> slocks s !! l = Some lk ->
  Q (negb (sl_locked lk =? 0) && (sl_pid lk =? cur_pid s)) s ->
  wp (holdingsleep l) Q s.
Proof.
  intros Hs Hin Hl HQ. pose proof (calm_locks _ Hs _ Hin) as Hf. unfold holdingsleep.
  wstep. apply wp_acquire; [apply Hs|done|]. wstep. eapply wp_get_slock; [exact Hl|].
  cbn [id]. wstep. destruct (negb (sl_locked lk =? 0)).
  - wstep. eapply (wp_mypid_acq (L_sleep l) _ s); [done|done|by fields..|]. wsteps.
    eapply (wp_release (L_sleep l) _ s); [apply Hs|done|by fields..|]. wsteps.
    rewrite restore_acq. exact HQ.
  - wsteps. eapply (wp_release (L_sleep l) _ s); [apply Hs|done|by fields..|]. wsteps.
    rewrite restore_acq. exact HQ.
Qed.

Lemma procs_free_acq l s : (forall i, l <> L_proc i) -> procs_free s -> procs_free (acq l s).
Proof.
  intros Hl (Hs & Hf & Hn). split; [by apply settled_acq|]. split; [|done].
  intros i Hi. apply lock_free_acq; [apply Hl|by apply Hf].
Qed.

Lemma wp_releasesleep l lk (Q : unit -> kstate -> Prop) s :
  calm s -> L_sleep l ∈ global_locks -> slocks s !! l = Some lk ->
  Q tt (set_slocks (<[l := mk_sleeplock 0 (sl_name lk) 0]> (slocks s)) s) ->
  wp (releasesleep l) Q s.
Proof.
  intros Hs Hin Hl HQ. pose proof (calm_locks _ Hs _ Hin) as Hf. unfold releasesleep.
  wstep. apply wp_acquire; [apply Hs|done|]. wstep. eapply wp_get_slock; [exact Hl|].
  unfold put_slock. wsteps.
  apply wp_wakeup; [by apply procs_free_acq, calm_procs_free|]. fields.
  eapply (wp_release (L_sleep l) _ s); [apply Hs|done|by fields..|]. critical.
  change (procs (acq (L_sleep l) s)) with (procs s).
  rewrite wake_quiet by (apply Hs || by right; eauto).
  replace (set_procs (procs s) _) with (set_slocks (<[l:=mk_sleeplock 0 (sl_name lk) 0]> (slocks s)) s)
    by (by destruct s). exact HQ.
Qed.
End Sleeplock.
