(* ===== verification/Bytes.v ===== *)
(** * Fields of a block

    A block is the list of its bytes; the structures the file system keeps in a
    block (log header, inodes, bitmap words, directory entries) are read and
    written at byte offsets. *)

From stdpp Require Import list.
From Stdlib Require Import ZArith Lia.
From S2P Require Import Prelude.
Open Scope Z_scope.

(** [bs] written over [d] at offset [off]. *)
Definition splice (d : list Z) (off : nat) (bs : list Z) : list Z :=
  take off d ++ bs ++ drop (off + length bs) d.

Definition field (d : list Z) (off n : nat) : list Z := take n (drop off d).

Definition get16 (d : list Z) (off : nat) : Z := le_decode (field d off 2).
Definition get32 (d : list Z) (off : nat) : Z := le_decode (field d off 4).
Definition put16 (d : list Z) (off : nat) (v : Z) : list Z := splice d off (le_encode 2 v).
Definition put32 (d : list Z) (off : nat) (v : Z) : list Z := splice d off (le_encode 4 v).

Lemma length_splice d off bs : (off + length bs <= length d)%nat -> length (splice d off bs) = length d.
Proof. intros. unfold splice. rewrite !length_app, length_take, length_drop. lia. Qed.

Lemma splice_lookup d off bs i : (off + length bs <= length d)%nat ->
  splice d off bs !! i =
  if decide (off <= i < off + length bs)%nat then bs !! (i - off)%nat else d !! i.
Proof.
  intros Hl. unfold splice. destruct (decide (i < off)%nat) as [Hi|Hi].
  - rewrite lookup_app_l by (rewrite length_take; lia). rewrite lookup_take_lt by done.
    rewrite decide_False by lia. done.
  - rewrite lookup_app_r by (rewrite length_take; lia). rewrite length_take, Nat.min_l by lia.
    case_decide.
    + rewrite lookup_app_l by lia. done.
    + rewrite lookup_app_r by lia. rewrite lookup_drop. f_equal. lia.
Qed.

Lemma field_lookup d off n i : (i < n)%nat -> field d off n !! i = d !! (off + i)%nat.
Proof. intros Hi. unfold field. by rewrite lookup_take_lt, lookup_drop. Qed.

Lemma length_field d off n : (off + n <= length d)%nat -> length (field d off n) = n.
Proof. intros. unfold field. rewrite length_take, length_drop. lia. Qed.

Lemma field_splice_same d off bs : (off + length bs <= length d)%nat ->
  field (splice d off bs) off (length bs) = bs.
Proof.
  intros Hl. apply list_eq. intros i. destruct (decide (i < length bs)%nat) as [Hi|Hi].
  - rewrite field_lookup, splice_lookup by lia. rewrite decide_True by lia. f_equal. lia.
  - rewrite !lookup_ge_None_2; [done|lia|]. rewrite length_field; [lia|]. rewrite length_splice; lia.
Qed.

Lemma field_splice_other d off bs off' n : (off + length bs <= length d)%nat ->
  (off' + n <= off \/ off + length bs <= off')%nat -> field (splice d off bs) off' n = field d off' n.
Proof.
  intros Hl Hd. apply list_eq. intros i. destruct (decide (i < n)%nat) as [Hi|Hi].
  - rewrite !field_lookup, splice_lookup by lia. rewrite decide_False by lia. done.
  - rewrite !lookup_ge_None_2; [done|unfold field; rewrite length_take; lia..].
Qed.

Lemma length_put32 d off v : (off + 4 <= length d)%nat -> length (put32 d off v) = length d.
Proof. intros. unfold put32. apply length_splice. rewrite length_le_encode. lia. Qed.
Lemma length_put16 d off v : (off + 2 <= length d)%nat -> length (put16 d off v) = length d.
Proof. intros. unfold put16. apply length_splice. rewrite length_le_encode. lia. Qed.

Lemma get32_put32 d off v : (off + 4 <= length d)%nat -> get32 (put32 d off v) off = v mod 2 ^ 32.
Proof.
  intros. unfold get32, put32. rewrite <- (length_le_encode 4 v) at 2.
  rewrite field_splice_same by (rewrite length_le_encode; lia). by rewrite le_decode_encode.
Qed.

Lemma get32_put32_other d off off' v : (off + 4 <= length d)%nat ->
  (off' + 4 <= off \/ off + 4 <= off')%nat -> get32 (put32 d off v) off' = get32 d off'.
Proof.
  intros. unfold get32, put32. f_equal. apply field_splice_other; rewrite length_le_encode; lia.
Qed.

Lemma get16_put16 d off v : (off + 2 <= length d)%nat -> get16 (put16 d off v) off = v mod 2 ^ 16.
Proof.
  intros. unfold get16, put16. rewrite <- (length_le_encode 2 v) at 2.
  rewrite field_splice_same by (rewrite length_le_encode; lia). by rewrite le_decode_encode.
Qed.

Lemma get16_put16_other d off off' v : (off + 2 <= length d)%nat ->
  (off' + 2 <= off \/ off + 2 <= off')%nat -> get16 (put16 d off v) off' = get16 d off'.
Proof.
  intros. unfold get16, put16. f_equal. apply field_splice_other; rewrite length_le_encode; lia.
Qed.

Lemma field_bytes d off n : Forall is_byte d -> Forall is_byte (field d off n).
Proof. intros. unfold field. by apply Forall_take, Forall_drop. Qed.

Lemma splice_bytes d off bs : Forall is_byte d -> Forall is_byte bs -> Forall is_byte (splice d off bs).
Proof. intros. unfold splice. rewrite !Forall_app. split; [by apply Forall_take|]. split; [done|by apply Forall_drop]. Qed.
