(* ===== verification/Bio.v ===== *)
(** * kernel/bio.c: the buffer cache

    The cache is the array [bcache.buf] and the list head, an entry of its own at
    index [HEAD]; the least-recently-used list runs through the [prev]/[next]
    indices of the entries as it does in the code.  The block device is an
    interface ([BlockDev]): the driver call [virtio_disk_rw] and what it promises.

    [ring] relates the pointers to the list of buffers in LRU order; [cache_inv]
    is the invariant of the cache, and [view] the contents of a block as a reader
    of the cache sees it. *)

From stdpp Require Import gmap strings list fin_maps.
From Stdlib Require Import ZArith Lia.
From S2P Require Import Prelude Machine State Riscv Spinlock Sched Sleeplock.
Open Scope Z_scope.

(* @kernel/fs.h BSIZE *)
Definition BSIZE : Z := 1024.

Definition zero_block : list Z := replicate (Z.to_nat BSIZE) 0.

(** A block of the disk that was never written holds zeros. *)
Definition disk_block (d : gmap Z (list Z)) (bno : Z) : list Z := default zero_block (d !! bno).

(** The index of [bcache.head]. *)
Definition HEAD : nat := Z.to_nat NBUF.

(** What a disk request does: a write stores the buffer's data as the contents of
    its block, a read loads the buffer's data. *)
Definition disk_rw (i : nat) (b : buf) (write : bool) (s : kstate) : kstate :=
  if write then
    set_disk (<[b_blockno b := b_data b]> (disk s))
      (set_dtrace ((b_blockno b, b_data b) :: dtrace s) s)
  else set_bcache (<[i := set_b_data (disk_block (disk s) (b_blockno b)) b]> (bcache s)) s.

(** The driver as the buffer cache uses it (kernel/virtio_disk.c). *)
Class BlockDev := {
  virtio_disk_rw : nat -> bool -> K unit;
  virtio_disk_rw_ok : forall s i b w,
    settled s -> lock_free L_vdisk s -> bcache s !! i = Some b ->
    virtio_disk_rw i w s = Ok tt (disk_rw i b w s)
}.

Section Bio.
Context `{World kstate} `{BlockDev}.

Definition get_buf {A} (i : nat) (f : buf -> A) : K A :=
  let* b := gets (fun s => bcache s !! i) in
  let* b := deref b in ret (f b).
Definition modify_buf (i : nat) (f : buf -> buf) : K unit :=
  let* b := gets (fun s => bcache s !! i) in
  let* b := deref b in
  modify (fun s => set_bcache (<[i := f b]> (bcache s)) s).

(* @kernel/bio.c binit *)
Definition binit : K unit :=
  initlock L_bcache "bcache" ;;;
  modify_buf HEAD (set_b_prev HEAD) ;;;
  modify_buf HEAD (set_b_next HEAD) ;;;
  for_all (seq 0 (Z.to_nat NBUF)) (fun b =>
    let* n := get_buf HEAD b_next in
    modify_buf b (set_b_next n) ;;;
    modify_buf b (set_b_prev HEAD) ;;;
    initsleeplock (SL_buf b) "buffer" ;;;
    let* n := get_buf HEAD b_next in
    modify_buf n (set_b_prev b) ;;;
    modify_buf HEAD (set_b_next b)).

(** [for(b = start; b != &bcache.head; b = next(b)) if(test(b)) return found(b);] *)
Definition bsearch (test : buf -> bool) (next : buf -> nat) (found : nat -> K (option nat))
    (start : nat) : K (option nat) :=
  iter (S HEAD) (fun b =>
    if bool_decide (b = HEAD) then ret (inr None)
    else
    let* e := get_buf b id in
    if test e then (let* r := found b in ret (inr r))
    else ret (inl (next e))) start.

(* @kernel/bio.c bget *)
Definition bget (dev blockno : Z) : K nat :=
  acquire L_bcache ;;;
  let* b := get_buf HEAD b_next in
  let* r := bsearch (fun e => (b_dev e =? dev) && (b_blockno e =? blockno)) b_next (fun b =>
      modify_buf b (fun e => set_b_refcnt (u32 (b_refcnt e + 1)) e) ;;;
      release L_bcache ;;;
      acquiresleep (SL_buf b) ;;;
      ret (Some b)) b in
  match r with
  | Some b => ret b
  | None =>
    let* b := get_buf HEAD b_prev in
    let* r := bsearch (fun e => b_refcnt e =? 0) b_prev (fun b =>
        modify_buf b (set_b_dev dev) ;;;
        modify_buf b (set_b_blockno blockno) ;;;
        modify_buf b (set_b_valid false) ;;;
        modify_buf b (set_b_refcnt 1) ;;;
        release L_bcache ;;;
        acquiresleep (SL_buf b) ;;;
        ret (Some b)) b in
    match r with
    | Some b => ret b
    | None => panic "bget: no buffers"
    end
  end.

(* @kernel/bio.c bread *)
Definition bread (dev blockno : Z) : K nat :=
  let* b := bget dev blockno in
  let* v := get_buf b b_valid in
  when (negb v)
    (virtio_disk_rw b false ;;;
     modify_buf b (set_b_valid true)) ;;;
  ret b.

(* @kernel/bio.c bwrite *)
Definition bwrite (b : nat) : K unit :=
  let* h := holdingsleep (SL_buf b) in
  if negb h then panic "bwrite"
  else virtio_disk_rw b true.

(* @kernel/bio.c brelse *)
Definition brelse (b : nat) : K unit :=
  let* h := holdingsleep (SL_buf b) in
  if negb h then panic "brelse"
  else
  releasesleep (SL_buf b) ;;;
  acquire L_bcache ;;;
  modify_buf b (fun e => set_b_refcnt (u32 (b_refcnt e - 1)) e) ;;;
  let* n := get_buf b b_refcnt in
  when (n =? 0)
    (let* nx := get_buf b b_next in
     let* pv := get_buf b b_prev in
     modify_buf nx (set_b_prev pv) ;;;
     let* pv := get_buf b b_prev in
     let* nx := get_buf b b_next in
     modify_buf pv (set_b_next nx) ;;;
     let* n := get_buf HEAD b_next in
     modify_buf b (set_b_next n) ;;;
     modify_buf b (set_b_prev HEAD) ;;;
     let* n := get_buf HEAD b_next in
     modify_buf n (set_b_prev b) ;;;
     modify_buf HEAD (set_b_next b)) ;;;
  release L_bcache.

(* @kernel/bio.c bpin *)
Definition bpin (b : nat) : K unit :=
  acquire L_bcache ;;;
  modify_buf b (fun e => set_b_refcnt (u32 (b_refcnt e + 1)) e) ;;;
  release L_bcache.

(* @kernel/bio.c bunpin *)
Definition bunpin (b : nat) : K unit :=
  acquire L_bcache ;;;
  modify_buf b (fun e => set_b_refcnt (u32 (b_refcnt e - 1)) e) ;;;
  release L_bcache.

Lemma wp_get_buf {A} i (f : buf -> A) b (Q : A -> kstate -> Prop) s :
  bcache s !! i = Some b -> Q (f b) s -> wp (get_buf i f) Q s.
Proof. intros. unfold get_buf. wsteps. done. Qed.

Lemma wp_modify_buf i f b (Q : unit -> kstate -> Prop) s :
  bcache s !! i = Some b -> Q tt (set_bcache (<[i := f b]> (bcache s)) s) -> wp (modify_buf i f) Q s.
Proof. intros. unfold modify_buf. wsteps. done. Qed.
End Bio.

(** ** The list through the pointers *)

Section Ring.
Implicit Types (nx pv : nat -> nat) (l : list nat).

(** From [a] the pointers lead through [l] to [z], and back. *)
Fixpoint chain nx pv (a : nat) l (z : nat) : Prop :=
  match l with
  | [] => nx a = z /\ pv z = a
  | b :: l => nx a = b /\ pv b = a /\ chain nx pv b l z
  end.

Definition upd (f : nat -> nat) (i x : nat) : nat -> nat := fun j => if decide (j = i) then x else f j.

Lemma upd_same f i x : upd f i x i = x.
Proof. unfold upd. by rewrite decide_True. Qed.
Lemma upd_other f i x j : j <> i -> upd f i x j = f j.
Proof. intros. unfold upd. by rewrite decide_False. Qed.

Lemma chain_split nx pv a l1 x l2 z :
  chain nx pv a (l1 ++ x :: l2) z <-> chain nx pv a l1 x /\ chain nx pv x l2 z.
Proof.
  revert a; induction l1 as [|b l1 IH]; intros a; cbn [chain app]; [tauto|].
  rewrite IH. tauto.
Qed.

(** Pointers of other nodes do not matter. *)
Lemma chain_ext nx pv nx' pv' a l z :
  (forall i, i = a \/ i ∈ l -> nx' i = nx i) -> (forall i, i ∈ l \/ i = z -> pv' i = pv i) ->
  chain nx pv a l z -> chain nx' pv' a l z.
Proof.
  revert a; induction l as [|b l IH]; intros a Hn Hp; cbn [chain].
  - intros [? ?]. rewrite Hn, Hp by auto. done.
  - intros (? & ? & ?). rewrite Hn by auto. rewrite Hp by (left; left). split; [done|].
    split; [done|]. apply IH; [..|done].
    + intros i [->|Hi]; apply Hn; right; [left|by right].
    + intros i [Hi| ->]; apply Hp; [left; by right|by right].
Qed.

(** Taking [x] out: its neighbours are linked to each other. *)
Lemma chain_unlink nx pv h o1 x o2 :
  NoDup (h :: o1 ++ x :: o2) -> chain nx pv h (o1 ++ x :: o2) h ->
  chain (upd nx (pv x) (nx x)) (upd pv (nx x) (pv x)) h (o1 ++ o2) h.
Proof.
  intros Hnd Hc. apply chain_split in Hc as [H1 H2].
  apply NoDup_cons in Hnd as [Hh Hnd]. rewrite NoDup_app, NoDup_cons in Hnd.
  destruct Hnd as (Hnd1 & Hdis & Hx & Hnd2).
  destruct o1 as [|p o1 _] using rev_ind; destruct o2 as [|n o2]; cbn [app] in *.
  - destruct H1 as [Ha ->], H2 as [-> Hb]. cbn [chain]. by rewrite !upd_same.
  - destruct H1 as [Ha ->], H2 as (-> & Hb & H2). cbn [chain]. rewrite !upd_same.
    split; [done|]. split; [done|]. eapply chain_ext; [..|exact H2].
    + intros i Hi. apply upd_other. set_solver.
    + intros i Hi. apply upd_other. apply NoDup_cons in Hnd2. set_solver.
  - apply chain_split in H1 as [H1 [Ha ->]]. destruct H2 as [-> Hb]. rewrite app_nil_r.
    apply chain_split. split; [|cbn [chain]; by rewrite !upd_same].
    eapply chain_ext; [..|exact H1]; intros i Hi; apply upd_other; [|set_solver].
    intros ->. destruct Hi as [->|Hi]; [set_solver|]. apply NoDup_app in Hnd1. set_solver.
  - apply chain_split in H1 as [H1 [Ha ->]]. destruct H2 as (-> & Hb & H2). rewrite <- app_assoc.
    apply chain_split. split; [|cbn [chain]; rewrite !upd_same; split; [done|split; [done|]]].
    + eapply chain_ext; [..|exact H1]; intros i Hi; apply upd_other; [|set_solver].
      intros ->. destruct Hi as [->|Hi]; [set_solver|]. apply NoDup_app in Hnd1. set_solver.
    + eapply chain_ext; [..|exact H2]; intros i Hi; apply upd_other; [set_solver|].
      apply NoDup_cons in Hnd2. set_solver.
Qed.

(** Putting [x] in front. *)
Lemma chain_push nx pv h o x :
  NoDup (h :: x :: o) -> chain nx pv h o h ->
  chain (upd (upd nx x (nx h)) h x) (upd (upd pv x h) (nx h) x) h (x :: o) h.
Proof.
  intros Hnd Hc. apply NoDup_cons in Hnd as [Hh Hnd]. apply NoDup_cons in Hnd as [Hx Hnd].
  cbn [chain]. rewrite upd_same. split; [done|]. destruct o as [|n o]; cbn [chain] in *.
  - destruct Hc as [-> Hb]. rewrite (upd_other _ h), !upd_same by set_solver.
    rewrite (upd_other _ h), upd_same by set_solver. done.
  - destruct Hc as (-> & Hb & Hc). rewrite (upd_other _ n), upd_same by set_solver. split; [done|].
    rewrite (upd_other _ h), !upd_same by set_solver. split; [done|]. split; [done|].
    apply NoDup_cons in Hnd as [Hn Hnd].
    eapply chain_ext; [..|exact Hc]; intros i Hi; rewrite !upd_other; set_solver.
Qed.

(** Following one direction only. *)
Fixpoint path (f : nat -> nat) (c : nat) l (z : nat) : Prop :=
  match l with
  | [] => c = z
  | i :: l => c = i /\ path f (f i) l z
  end.

Lemma path_next nx pv a l z : chain nx pv a l z -> path nx (nx a) l z.
Proof.
  revert a; induction l as [|b l IH]; intros a; cbn [chain path]; [by intros [? _]|].
  intros (-> & _ & Hc). split; [done|]. by apply IH.
Qed.

Lemma path_prev nx pv a l z : chain nx pv a l z -> path pv (pv z) (reverse l) a.
Proof.
  revert z; induction l as [|b l IH] using rev_ind; intros z; [by intros [_ ?]|].
  rewrite chain_split, reverse_app. intros [Hc [_ ->]]. cbn. split; [done|]. by apply IH.
Qed.
End Ring.

Definition bnx (bs : list buf) (i : nat) : nat := default i (b_next <$> bs !! i).
Definition bpv (bs : list buf) (i : nat) : nat := default i (b_prev <$> bs !! i).

Lemma bnx_insert bs i e j : (i < length bs)%nat -> bnx (<[i := e]> bs) j = upd (bnx bs) i (b_next e) j.
Proof.
  intros Hi. unfold bnx. destruct (decide (j = i)) as [->|Hne].
  - by rewrite upd_same, list_lookup_insert_eq.
  - by rewrite upd_other, list_lookup_insert_ne.
Qed.
Lemma bpv_insert bs i e j : (i < length bs)%nat -> bpv (<[i := e]> bs) j = upd (bpv bs) i (b_prev e) j.
Proof.
  intros Hi. unfold bpv. destruct (decide (j = i)) as [->|Hne].
  - by rewrite upd_same, list_lookup_insert_eq.
  - by rewrite upd_other, list_lookup_insert_ne.
Qed.

(** The LRU list [order] (most recently used first) runs through the buffers. *)
Record ring (bs : list buf) (order : list nat) : Prop := {
  ring_length : length bs = S HEAD;
  ring_nodup : NoDup order;
  ring_all : forall i, i ∈ order <-> (i < HEAD)%nat;
  ring_chain : chain (bnx bs) (bpv bs) HEAD order HEAD
}.

(** Changing other fields of an entry keeps the list. *)
Lemma lru_ring_insert bs order i b b' :
  bs !! i = Some b -> b_next b' = b_next b -> b_prev b' = b_prev b ->
  ring bs order -> ring (<[i := b']> bs) order.
Proof.
  intros Hb Hn Hp [Hl Hnd Ha Hc]. pose proof (lookup_lt_Some _ _ _ Hb). split; [by rewrite length_insert|done..|].
  eapply chain_ext; [..|exact Hc]; intros j _.
  - rewrite bnx_insert by done. unfold upd. case_decide; [|done]. subst. unfold bnx. by rewrite Hb, Hn.
  - rewrite bpv_insert by done. unfold upd. case_decide; [|done]. subst. unfold bpv. by rewrite Hb, Hp.
Qed.

Lemma ring_nodup_head bs order : ring bs order -> NoDup (HEAD :: order).
Proof. intros [_ Hnd Ha _]. apply NoDup_cons. split; [|done]. rewrite Ha. lia. Qed.

Lemma ring_lookup bs order i : ring bs order -> (i <= HEAD)%nat -> exists b, bs !! i = Some b.
Proof. intros Hr Hi. apply lookup_lt_is_Some_2. rewrite (ring_length _ _ Hr). lia. Qed.

(** What a reader of the cache sees in block [bno]: the cached copy, or the disk. *)
Definition is_copy (dev bno : Z) (b : buf) : Prop :=
  b_dev b = dev /\ b_blockno b = bno /\ b_valid b = true.
#[export] Instance is_copy_dec dev bno b : Decision (is_copy dev bno b).
Proof. unfold is_copy. apply _. Defined.

Definition bufs (s : kstate) : list buf := take HEAD (bcache s).

Definition view (s : kstate) (dev bno : Z) : list Z :=
  match list_find (is_copy dev bno) (bufs s) with
  | Some (_, b) => b_data b
  | None => disk_block (disk s) bno
  end.

(** The invariant: the LRU list is linked, a block of a device is in one buffer
    only, an unused valid buffer holds what is on disk, and all cached blocks are
    on the one disk there is. *)
Record cache_inv (s : kstate) (order : list nat) : Prop := {
  ci_ring : ring (bcache s) order;
  ci_unique : forall i j b b', bufs s !! i = Some b -> bufs s !! j = Some b' ->
    b_dev b <> 0 -> b_dev b = b_dev b' -> b_blockno b = b_blockno b' -> i = j;
  ci_clean : forall i b, bufs s !! i = Some b -> b_valid b = true -> b_refcnt b = 0 ->
    b_data b = disk_block (disk s) (b_blockno b);
  ci_locks : forall i b, bufs s !! i = Some b -> is_Some (slocks s !! SL_buf i);
  ci_refcnt : forall i b, bufs s !! i = Some b -> 0 <= b_refcnt b < 2 ^ 32;
  ci_dev : forall i b, bufs s !! i = Some b -> b_valid b = true \/ b_refcnt b <> 0 -> b_dev b = ROOTDEV
}.

Lemma bufs_lookup s i b : bufs s !! i = Some b <-> bcache s !! i = Some b /\ (i < HEAD)%nat.
Proof. unfold bufs. apply lookup_take_Some. Qed.

Lemma bufs_set s i b : (i < HEAD)%nat -> bufs (set_bcache (<[i := b]> (bcache s)) s) = <[i := b]> (bufs s).
Proof. intros Hi. unfold bufs. fields. by rewrite take_insert_lt. Qed.

(** With one buffer per block, the copy found is the copy. *)
Lemma view_copy s order i b : cache_inv s order -> bufs s !! i = Some b ->
  b_valid b = true -> b_dev b <> 0 -> view s (b_dev b) (b_blockno b) = b_data b.
Proof.
  intros Hinv Hb Hv Hd. unfold view.
  destruct (list_find _ _) as [[j b']|] eqn:Hf.
  - apply list_find_Some in Hf as (Hj & (Hd' & Hn' & _) & _).
    assert (i = j) as <- by (eapply (ci_unique _ _ Hinv); eauto; congruence). congruence.
  - apply list_find_None in Hf. rewrite Forall_lookup in Hf. destruct (Hf i b Hb). done.
Qed.

Lemma view_none s dev bno :
  (forall i b, bufs s !! i = Some b -> ~ is_copy dev bno b) -> view s dev bno = disk_block (disk s) bno.
Proof.
  intros Hn. unfold view. destruct (list_find _ _) as [[j b']|] eqn:Hf; [|done].
  apply list_find_Some in Hf as (Hj & Hc & _). by destruct (Hn j b').
Qed.

(** The view is determined by the copies and the disk. *)
Lemma view_eq s order dev bno v : cache_inv s order -> dev <> 0 ->
  (forall i b, bufs s !! i = Some b -> is_copy dev bno b -> b_data b = v) ->
  ((forall i b, bufs s !! i = Some b -> ~ is_copy dev bno b) -> disk_block (disk s) bno = v) ->
  view s dev bno = v.
Proof.
  intros Hinv Hdev Hc Hn. unfold view.
  destruct (list_find _ _) as [[j b']|] eqn:Hf.
  - apply list_find_Some in Hf as (Hj & Hcp & _). by eapply Hc.
  - apply list_find_None in Hf. rewrite Forall_lookup in Hf. by apply Hn.
Qed.

Section BioSpec.
Context `{World kstate} `{BlockDev}.

(** A search along the list: it stops at the first entry that passes the test. *)
Lemma wp_search_iter (test : buf -> bool) (next : buf -> nat) (f : nat -> nat)
    (found : nat -> K (option nat)) (Q : option nat -> kstate -> Prop) t l c fuel :
  (forall i b, bcache t !! i = Some b -> f i = next b) ->
  Forall (fun i => (i < HEAD)%nat /\ is_Some (bcache t !! i)) l ->
  path f c l HEAD -> (length l < fuel)%nat ->
  (forall l1 i l2 b, l = l1 ++ i :: l2 -> bcache t !! i = Some b -> test b = true ->
     (forall j b', j ∈ l1 -> bcache t !! j = Some b' -> test b' = false) -> wp (found i) Q t) ->
  ((forall j b', j ∈ l -> bcache t !! j = Some b' -> test b' = false) -> Q None t) ->
  wp (iter fuel (fun b =>
        if bool_decide (b = HEAD) then ret (inr None)
        else
        let* e := get_buf b id in
        if test e then (let* r := found b in ret (inr r)) else ret (inl (next e))) c) Q t.
Proof.
  intros Hf. revert c fuel. induction l as [|i l IH]; intros c fuel Hl Hp Hlen Hfound Hnone;
    (destruct fuel as [|fuel]; [simpl in Hlen; lia|]); cbn [iter path] in *.
  - subst c. wstep. rewrite bool_decide_eq_true_2 by done. wsteps. apply Hnone. set_solver.
  - destruct Hp as [-> Hp]. apply Forall_cons in Hl as [[Hi [b Hb]] Hl].
    wstep. rewrite bool_decide_eq_false_2 by lia. wstep.
    eapply wp_get_buf; [exact Hb|]. cbn [id]. destruct (test b) eqn:Ht.
    + wstep. eapply wp_mono; [by apply (Hfound [] i l b); [|..|set_solver]|].
      intros r s' HQ. by wsteps.
    + wsteps. rewrite <- (Hf i b Hb). apply IH; [done|done|simpl in Hlen; lia|..].
      * intros l1 j l2 b' -> Hb' Ht' Hbef. apply (Hfound (i :: l1) j l2 b'); try done.
        intros j' b'' Hj' Hb''. apply elem_of_cons in Hj' as [->|Hj']; [congruence|by eapply Hbef].
      * intros Hall. apply Hnone. intros j b' Hj Hb'. apply elem_of_cons in Hj as [->|Hj]; [congruence|by eapply Hall].
Qed.

Lemma ring_forall bs order : ring bs order ->
  Forall (fun i => (i < HEAD)%nat /\ is_Some (bs !! i)) order.
Proof.
  intros Hr. apply Forall_forall. intros i Hi. apply (ring_all _ _ Hr) in Hi. split; [done|].
  destruct (ring_lookup bs order i Hr) as [b ->]; [lia|eauto].
Qed.

Lemma ring_size bs order : ring bs order -> (length order <= HEAD)%nat.
Proof.
  intros Hr. rewrite <- (length_seq HEAD 0). apply submseteq_length, NoDup_submseteq; [apply Hr|].
  intros i Hi. apply elem_of_seq. apply (ring_all _ _ Hr) in Hi. lia.
Qed.

Lemma wp_search_next (test : buf -> bool) (found : nat -> K (option nat))
    (Q : option nat -> kstate -> Prop) t order c :
  ring (bcache t) order -> c = bnx (bcache t) HEAD ->
  (forall l1 i l2 b, order = l1 ++ i :: l2 -> bcache t !! i = Some b -> test b = true ->
     (forall j b', j ∈ l1 -> bcache t !! j = Some b' -> test b' = false) -> wp (found i) Q t) ->
  ((forall j b', (j < HEAD)%nat -> bcache t !! j = Some b' -> test b' = false) -> Q None t) ->
  wp (bsearch test b_next found c) Q t.
Proof.
  intros Hr -> Hf Hn. apply (wp_search_iter _ _ (bnx (bcache t)) _ _ _ order).
  - intros i b Hb. unfold bnx. by rewrite Hb.
  - by apply ring_forall.
  - eapply path_next, Hr.
  - apply ring_size in Hr. lia.
  - done.
  - intros Hall. apply Hn. intros j b' Hj. apply Hall, (ring_all _ _ Hr). done.
Qed.

Lemma wp_search_prev (test : buf -> bool) (found : nat -> K (option nat))
    (Q : option nat -> kstate -> Prop) t order c :
  ring (bcache t) order -> c = bpv (bcache t) HEAD ->
  (forall l1 i l2 b, reverse order = l1 ++ i :: l2 -> bcache t !! i = Some b -> test b = true ->
     (forall j b', j ∈ l1 -> bcache t !! j = Some b' -> test b' = false) -> wp (found i) Q t) ->
  ((forall j b', (j < HEAD)%nat -> bcache t !! j = Some b' -> test b' = false) -> Q None t) ->
  wp (bsearch test b_prev found c) Q t.
Proof.
  intros Hr -> Hf Hn. apply (wp_search_iter _ _ (bpv (bcache t)) _ _ _ (reverse order)).
  - intros i b Hb. unfold bpv. by rewrite Hb.
  - by apply Forall_reverse, ring_forall.
  - eapply path_prev, Hr.
  - rewrite length_reverse. apply ring_size in Hr. lia.
  - done.
  - intros Hall. apply Hn. intros j b' Hj. apply Hall, elem_of_reverse, (ring_all _ _ Hr). done.
Qed.

(** The state with buffer [i] replaced and its sleep lock taken. *)
Definition got (i : nat) (b : buf) (nm : string) (s : kstate) : kstate :=
  set_slocks (<[SL_buf i := mk_sleeplock 1 nm (cur_pid s)]> (slocks s))
    (set_bcache (<[i := b]> (bcache s)) s).

Lemma L_bcache_free s : calm s -> lock_free L_bcache s.
Proof. intros Hs. apply (calm_locks _ Hs). unfold global_locks. set_solver. Qed.

(** The end of [bget]: [bcache.lock] is released and the buffer's lock taken. *)
Lemma wp_bget_tail s i b nm pd (Q : option nat -> kstate -> Prop) t :
  calm s -> (i < HEAD)%nat -> slocks s !! SL_buf i = Some (mk_sleeplock 0 nm pd) ->
  t = set_bcache (<[i := b]> (bcache s)) (acq L_bcache s) -> Q (Some i) (got i b nm s) ->
  wp (release L_bcache ;;; acquiresleep (SL_buf i) ;;; ret (Some i)) Q t.
Proof.
  intros Hs Hi Hl -> HQ. wstep.
  eapply (wp_release L_bcache _ s); [apply Hs|by apply L_bcache_free|by fields..|]. critical.
  wstep. apply (wp_acquiresleep (SL_buf i) nm pd).
  - by eapply calm_ext; [..|exact Hs].
  - apply slid_in_locks. exact Hi.
  - exact Hl.
  - wsteps. exact HQ.
Qed.

Lemma bnx_head bs e : bs !! HEAD = Some e -> b_next e = bnx bs HEAD.
Proof. unfold bnx. by intros ->. Qed.
Lemma bpv_head bs e : bs !! HEAD = Some e -> b_prev e = bpv bs HEAD.
Proof. unfold bpv. by intros ->. Qed.

(** [bget] of a cached block takes another reference to its buffer. *)
Lemma wp_bget_hit s order dev bno i b nm pd (Q : nat -> kstate -> Prop) :
  calm s -> cache_inv s order -> dev <> 0 -> bufs s !! i = Some b ->
  b_dev b = dev -> b_blockno b = bno -> slocks s !! SL_buf i = Some (mk_sleeplock 0 nm pd) ->
  Q i (got i (set_b_refcnt (u32 (b_refcnt b + 1)) b) nm s) -> wp (bget dev bno) Q s.
Proof.
  intros Hs Hinv Hdev Hb Hd Hn Hl HQ. pose proof (ci_ring _ _ Hinv) as Hr.
  destruct (ring_lookup _ _ HEAD Hr) as [h Hh]; [done|].
  pose proof (proj1 (bufs_lookup s i b) Hb) as [Hbi Hi].
  unfold bget. wstep. apply wp_acquire; [apply Hs|by apply L_bcache_free|]. wstep.
  eapply wp_get_buf; [exact Hh|]. wstep.
  apply (wp_search_next _ _ _ (acq L_bcache s) order); [exact Hr|by apply bnx_head|..].
  - intros l1 j l2 b' El Hb' Ht _.
    assert (j = i) as ->.
    { assert (Hj : (j < HEAD)%nat) by (apply (ring_all _ _ Hr); rewrite El; set_solver).
      apply andb_true_iff in Ht as [E1%Z.eqb_eq E2%Z.eqb_eq].
      eapply (ci_unique _ _ Hinv j i b' b); [by apply bufs_lookup|done|congruence..]. }
    assert (b' = b) as -> by (change (bcache (acq L_bcache s)) with (bcache s) in Hb'; congruence).
    wstep. eapply wp_modify_buf; [exact Hbi|].
    eapply (wp_bget_tail s i); [done|done|exact Hl|reflexivity|]. by wsteps.
  - intros Hall. exfalso. pose proof (Hall i b Hi Hbi) as Ht. simpl in Ht.
    rewrite Hd, Hn, !Z.eqb_refl in Ht. done.
Qed.

(** [bget] of a block that is not cached recycles the least recently used buffer
    that is not in use. *)
Lemma wp_bget_miss s order dev bno l1 i l2 b nm pd (Q : nat -> kstate -> Prop) :
  calm s -> cache_inv s order ->
  (forall j b', bufs s !! j = Some b' -> ~ (b_dev b' = dev /\ b_blockno b' = bno)) ->
  reverse order = l1 ++ i :: l2 -> bufs s !! i = Some b -> b_refcnt b = 0 ->
  (forall j b', j ∈ l1 -> bufs s !! j = Some b' -> b_refcnt b' <> 0) ->
  slocks s !! SL_buf i = Some (mk_sleeplock 0 nm pd) ->
  Q i (got i (set_b_refcnt 1 (set_b_valid false (set_b_blockno bno (set_b_dev dev b)))) nm s) ->
  wp (bget dev bno) Q s.
Proof.
  intros Hs Hinv Hmiss Ho Hb Hz Hbef Hl HQ. pose proof (ci_ring _ _ Hinv) as Hr.
  destruct (ring_lookup _ _ HEAD Hr) as [h Hh]; [done|].
  pose proof (proj1 (bufs_lookup s i b) Hb) as [Hbi Hi]. pose proof (lookup_lt_Some _ _ _ Hbi) as Hlen.
  unfold bget. wstep. apply wp_acquire; [apply Hs|by apply L_bcache_free|]. wstep.
  eapply wp_get_buf; [exact Hh|]. wstep.
  apply (wp_search_next _ _ _ (acq L_bcache s) order); [exact Hr|by apply bnx_head|..].
  { intros l1' j l2' b' El Hb' Ht _. exfalso.
    apply andb_true_iff in Ht as [E1%Z.eqb_eq E2%Z.eqb_eq].
    assert (Hj : (j < HEAD)%nat) by (apply (ring_all _ _ Hr); rewrite El; set_solver).
    apply (Hmiss j b'); [by apply bufs_lookup|done]. }
  intros _. wstep. eapply wp_get_buf; [exact Hh|]. wstep.
  apply (wp_search_prev _ _ _ (acq L_bcache s) order); [exact Hr|by apply bpv_head|..].
  - intros l1' j l2' b' El Hb' Ht%Z.eqb_eq Hbef'.
    assert (j = i) as ->.
    { assert (Hj : (j < HEAD)%nat).
      { apply (ring_all _ _ Hr), elem_of_reverse. rewrite El. set_solver. }
      destruct (decide (j = i)) as [|Hne]; [done|exfalso].
      assert (Hin : j ∈ l1 \/ i ∈ l1').
      { rewrite Ho in El. destruct (app_eq_inv _ _ _ _ El) as [(k & -> & Ek)|(k & -> & Ek)];
          destruct k; simplify_eq/=; set_solver. }
      destruct Hin as [Hin|Hin].
      - by apply (Hbef j b' Hin); [apply bufs_lookup|].
      - pose proof (Hbef' i b Hin Hbi) as E. simpl in E. by rewrite Hz in E. }
    assert (b' = b) as -> by (change (bcache (acq L_bcache s)) with (bcache s) in Hb'; congruence).
    do 4 (wstep; eapply wp_modify_buf; [fields; (exact Hbi || by rewrite ?list_lookup_insert_eq by (by rewrite ?length_insert))|]).
    eapply (wp_bget_tail s i); [done|done|exact Hl| |].
    + fields. by rewrite !list_insert_insert_eq.
    + by wsteps.
  - intros Hall. exfalso. pose proof (Hall i b Hi Hbi) as Ht. simpl in Ht. by rewrite Hz in Ht.
Qed.

(** Buffer [b] may take the place of [b0] in slot [i]: it belongs to the same
    block, or to one that is not cached. *)
Definition replaces (s : kstate) (i : nat) (b0 b : buf) : Prop :=
  bufs s !! i = Some b0 /\ b_next b = b_next b0 /\ b_prev b = b_prev b0 /\
  b_refcnt b = b_refcnt b0 + 1 /\ b_refcnt b < 2 ^ 32 /\ b_dev b = ROOTDEV /\
  ((b_dev b = b_dev b0 /\ b_blockno b = b_blockno b0) \/
   (b_refcnt b0 = 0 /\ forall j b', bufs s !! j = Some b' ->
      ~ (b_dev b' = b_dev b /\ b_blockno b' = b_blockno b))).

Lemma bufs_got i b nm s : (i < HEAD)%nat -> bufs (got i b nm s) = <[i := b]> (bufs s).
Proof. apply bufs_set. Qed.

Lemma got_lookup i b nm s j x : (i < HEAD)%nat -> bufs s !! i <> None ->
  bufs (got i b nm s) !! j = Some x <-> (j = i /\ x = b) \/ (j <> i /\ bufs s !! j = Some x).
Proof.
  intros Hi Hb. rewrite bufs_got by done.
  destruct (bufs s !! i) as [b0|] eqn:E; [|done]. pose proof (lookup_lt_Some _ _ _ E).
  destruct (decide (j = i)) as [->|Hne].
  - rewrite list_lookup_insert_eq by done. split; [intros [= ->]; by left|]. by intros [[_ ->]|[? _]].
  - rewrite list_lookup_insert_ne by done. split; [by right|]. by intros [[? _]|[_ ?]].
Qed.

Lemma cache_inv_got s order i b0 b nm : cache_inv s order -> replaces s i b0 b ->
  cache_inv (got i b nm s) order.
Proof.
  intros Hinv (Hb0 & Hnx & Hpv & Hrc & Hmax & Hroot & Hid).
  pose proof (proj1 (bufs_lookup s i b0) Hb0) as [Hbi Hi].
  pose proof (ci_refcnt _ _ Hinv i b0 Hb0) as Hr0.
  assert (Hg : forall j x, bufs (got i b nm s) !! j = Some x <->
     (j = i /\ x = b) \/ (j <> i /\ bufs s !! j = Some x)) by (intros; apply got_lookup; [done|congruence]).
  split.
  - by eapply lru_ring_insert, Hinv.
  - intros j k x y Hj Hk Hd Hxy Hxy'. apply Hg in Hj, Hk.
    destruct Hj as [[-> ->]|[Hji Hj]], Hk as [[-> ->]|[Hki Hk]]; [done|..].
    + exfalso. destruct Hid as [[E1 E2]|[_ Hno]]; [|apply (Hno k y Hk); auto].
      apply Hki. eapply (ci_unique _ _ Hinv k i y b0); congruence.
    + exfalso. destruct Hid as [[E1 E2]|[_ Hno]]; [|apply (Hno j x Hj); auto].
      apply Hji. eapply (ci_unique _ _ Hinv j i x b0); congruence.
    + by eapply (ci_unique _ _ Hinv).
  - intros j x Hj Hv Hz. apply Hg in Hj. destruct Hj as [[-> ->]|[_ Hj]]; [lia|].
    by eapply (ci_clean _ _ Hinv).
  - intros j x Hj. apply Hg in Hj. unfold got. fields. destruct Hj as [[-> ->]|[Hji Hj]].
    + rewrite lookup_insert_eq. eauto.
    + rewrite lookup_insert_ne by congruence. by eapply (ci_locks _ _ Hinv).
  - intros j x Hj. apply Hg in Hj. destruct Hj as [[-> ->]|[_ Hj]]; [lia|].
    by apply (ci_refcnt _ _ Hinv j).
  - intros j x Hj Hv. apply Hg in Hj. destruct Hj as [[-> ->]|[_ Hj]]; [done|].
    by apply (ci_dev _ _ Hinv j).
Qed.

Lemma view_got s order i b0 b nm dev bno : cache_inv s order -> replaces s i b0 b -> dev <> 0 ->
  b_dev b <> 0 -> b_valid b = true -> b_data b = view s (b_dev b) (b_blockno b) ->
  view (got i b nm s) dev bno = view s dev bno.
Proof.
  intros Hinv Hrep Hdev Hbd Hv Hdata. pose proof (cache_inv_got _ _ _ _ _ nm Hinv Hrep) as Hinv'.
  destruct Hrep as (Hb0 & _ & _ & Hrc & _ & _ & Hid).
  pose proof (proj1 (bufs_lookup s i b0) Hb0) as [_ Hi].
  assert (Hg : forall j x, bufs (got i b nm s) !! j = Some x <->
     (j = i /\ x = b) \/ (j <> i /\ bufs s !! j = Some x)) by (intros; apply got_lookup; [done|congruence]).
  eapply view_eq; [exact Hinv'|done|..].
  - intros j x Hj (E1 & E2 & Hvx). apply Hg in Hj. destruct Hj as [[-> ->]|[_ Hj]].
    + by rewrite Hdata, E1, E2.
    + rewrite <- E1, <- E2. symmetry. eapply view_copy; [done..|]. congruence.
  - intros Hno. change (disk (got i b nm s)) with (disk s). symmetry.
    destruct (decide (is_copy dev bno b0)) as [(E1 & E2 & Hv0)|Hn0].
    + assert (Hz : b_refcnt b0 = 0).
      { destruct Hid as [[E3 E4]|[Hz _]]; [|done]. exfalso. apply (Hno i b); [apply Hg; by left|].
        split; [congruence|]. split; [congruence|done]. }
      rewrite <- E1, <- E2 at 1. rewrite (view_copy s order i b0) by congruence.
      rewrite (ci_clean _ _ Hinv i b0) by done. congruence.
    + apply view_none. intros j x Hj Hc. destruct (decide (j = i)) as [->|Hji]; [congruence|].
      apply (Hno j x); [apply Hg; by right|done].
Qed.

(** A buffer for the block can be had without waiting: its own, unlocked, or one
    that is not in use (and unused buffers are not locked). *)
Definition available (s : kstate) (dev bno : Z) : Prop :=
  (exists i b lk, bufs s !! i = Some b /\ b_dev b = dev /\ b_blockno b = bno /\
     slocks s !! SL_buf i = Some lk /\ sl_locked lk = 0 /\ b_refcnt b + 1 < 2 ^ 32) \/
  ((forall i b, bufs s !! i = Some b -> ~ (b_dev b = dev /\ b_blockno b = bno)) /\
   (exists i b, bufs s !! i = Some b /\ b_refcnt b = 0) /\
   forall i b, bufs s !! i = Some b -> b_refcnt b = 0 ->
     exists lk, slocks s !! SL_buf i = Some lk /\ sl_locked lk = 0).

(** What [bread] returns. *)
Record bread_post (s : kstate) (order : list nat) (dev bno : Z) (i : nat) (b0 b : buf) (nm : string) : Prop := {
  bp_replaces : replaces s i b0 b;
  bp_block : b_dev b = dev /\ b_blockno b = bno /\ b_valid b = true;
  bp_data : b_data b = view s dev bno;
  bp_unlocked : exists lk, slocks s !! SL_buf i = Some lk /\ sl_locked lk = 0
}.

Lemma refcnt_victim s order : cache_inv s order ->
  (exists i b, bufs s !! i = Some b /\ b_refcnt b = 0) ->
  exists l1 i l2 b, reverse order = l1 ++ i :: l2 /\ bufs s !! i = Some b /\ b_refcnt b = 0 /\
    forall j b', j ∈ l1 -> bufs s !! j = Some b' -> b_refcnt b' <> 0.
Proof.
  intros Hinv (i & b & Hb & Hz).
  destruct (list_find (fun j => (b_refcnt <$> bufs s !! j) = Some 0) (reverse order)) as [[k j]|] eqn:Hf.
  - apply list_find_Some in Hf as (Hk & Hj & Hbef).
    destruct (bufs s !! j) as [bj|] eqn:Ej; [|done]. simpl in Hj.
    exists (take k (reverse order)), j, (drop (S k) (reverse order)), bj.
    split; [by rewrite take_drop_middle|]. split; [done|]. split; [congruence|].
    intros j' b' Hj' Hb' Hz'. apply list_elem_of_lookup in Hj' as [k' Hk'].
    apply lookup_take_Some in Hk' as [Hk' Hlt]. apply (Hbef k' j' Hk' Hlt).
    rewrite Hb'. simpl. congruence.
  - exfalso. apply list_find_None in Hf. rewrite Forall_forall in Hf. apply (Hf i).
    + apply elem_of_reverse, (ring_all _ _ (ci_ring _ _ Hinv)). by apply bufs_lookup in Hb as [_ ?].
    + rewrite Hb. simpl. congruence.
Qed.

Lemma calm_got i b nm s : calm s -> calm (got i b nm s).
Proof. intros Hs. by eapply calm_ext; [..|exact Hs]. Qed.

(** The part of [bread] after [bget]: an invalid buffer is read from disk. *)
Lemma wp_bread_tail s i b nm (Q : nat -> kstate -> Prop) :
  calm s -> (i < HEAD)%nat -> (i < length (bcache s))%nat ->
  Q i (got i (if b_valid b then b
              else set_b_valid true (set_b_data (disk_block (disk s) (b_blockno b)) b)) nm s) ->
  wp (let* v := get_buf i b_valid in
      when (negb v) (virtio_disk_rw i false ;;; modify_buf i (set_b_valid true)) ;;; ret i)
     Q (got i b nm s).
Proof.
  intros Hs Hi Hlen HQ.
  assert (Hb : bcache (got i b nm s) !! i = Some b).
  { unfold got. fields. by apply list_lookup_insert_eq. }
  wstep. eapply wp_get_buf; [exact Hb|]. wstep.
  destruct (b_valid b); cbn [negb when]; [by wsteps|].
  wstep. eapply wp_intro; [apply (virtio_disk_rw_ok _ i b false)|].
  - apply calm_settled. by apply calm_got.
  - apply (calm_locks _ (calm_got i b nm s Hs)). unfold global_locks. set_solver.
  - exact Hb.
  - unfold disk_rw. eapply wp_modify_buf; [fields; apply list_lookup_insert_eq; unfold got; fields; by rewrite length_insert|].
    wsteps. unfold got in *. fields. rewrite !list_insert_insert_eq. exact HQ.
Qed.

Lemma wp_bread s order dev bno (Q : nat -> kstate -> Prop) :
  calm s -> cache_inv s order -> dev = ROOTDEV -> available s dev bno ->
  (forall i b0 b nm, bread_post s order dev bno i b0 b nm -> Q i (got i b nm s)) ->
  wp (bread dev bno) Q s.
Proof.
  intros Hs Hinv Hroot Hav HQ. assert (Hdev : dev <> 0) by (rewrite Hroot; done).
  unfold bread. wstep.
  destruct Hav as [(i & b0 & lk & Hb0 & Hd & Hn & Hlk & Hul & Hmax)|(Hmiss & Hfree & Hidle)].
  - pose proof (proj1 (bufs_lookup s i b0) Hb0) as [Hbi Hi]. pose proof (ci_refcnt _ _ Hinv i b0 Hb0) as Hr0.
    destruct lk as [lkd nm pd]. simpl in Hul. subst lkd.
    eapply (wp_bget_hit s order dev bno i b0 nm pd); try done.
    rewrite u32_id by lia. apply wp_bread_tail; [done|done|by eapply lookup_lt_Some|].
    apply (HQ i b0). split; [..|by eexists].
    + split; [done|]. destruct (b_valid _); (split; [done|]); (split; [done|]); (split; [done|]);
        (split; [by fields|]); (split; [by fields; congruence|]); left; done.
    + destruct (b_valid _) eqn:E; (split; [done|]); split; try done.
    + change (b_valid (set_b_refcnt (b_refcnt b0 + 1) b0)) with (b_valid b0).
      destruct (b_valid b0) eqn:Hv; fields; [rewrite <- Hd, <- Hn; symmetry; eapply view_copy; try done; congruence|].
      rewrite Hn. symmetry. apply view_none. intros j x Hj (E1 & E2 & Ev).
      assert (j = i) as -> by (eapply (ci_unique _ _ Hinv); [done|done|congruence..]). congruence.
  - destruct (refcnt_victim s order Hinv Hfree) as (l1 & i & l2 & b0 & Ho & Hb0 & Hz & Hbef).
    pose proof (proj1 (bufs_lookup s i b0) Hb0) as [Hbi Hi].
    destruct (Hidle i b0 Hb0 Hz) as ([lkd nm pd] & Hlk & Hul). simpl in Hul. subst lkd.
    eapply (wp_bget_miss s order dev bno l1 i l2 b0 nm pd); try done.
    apply wp_bread_tail; [done|done|by eapply lookup_lt_Some|]. cbn [b_valid set_b_refcnt set_b_valid].
    apply (HQ i b0). split; [..|by eexists].
    + split; [done|]. fields. split; [done|]. split; [done|]. split; [lia|]. split; [lia|]. split; [done|]. right. done.
    + by fields.
    + fields. symmetry. apply view_none. intros j x Hj (E1 & E2 & _). by apply (Hmiss j x).
Qed.

(** ** Writing, pinning and releasing *)

(** Buffer [i] is locked by the running process. *)
Definition locked_by_me (s : kstate) (i : nat) : Prop :=
  exists nm, slocks s !! SL_buf i = Some (mk_sleeplock 1 nm (cur_pid s)).

Lemma wp_bwrite s i b (Q : unit -> kstate -> Prop) :
  calm s -> bufs s !! i = Some b -> locked_by_me s i -> Q tt (disk_rw i b true s) -> wp (bwrite i) Q s.
Proof.
  intros Hs [Hb Hi]%bufs_lookup [nm Hl] HQ. unfold bwrite. wstep.
  eapply wp_holdingsleep; [done|by apply slid_in_locks|exact Hl|]. cbn [sl_locked sl_pid].
  rewrite Z.eqb_refl. cbn. eapply wp_intro; [|exact HQ].
  apply virtio_disk_rw_ok; [apply Hs| |done]. apply (calm_locks _ Hs). unfold global_locks. set_solver.
Qed.

Lemma wp_pin s i b d (Q : unit -> kstate -> Prop) :
  settled s -> lock_free L_bcache s -> bufs s !! i = Some b ->
  Q tt (set_bcache (<[i := set_b_refcnt (u32 (b_refcnt b + d)) b]> (bcache s)) s) ->
  wp (acquire L_bcache ;;; modify_buf i (fun e => set_b_refcnt (u32 (b_refcnt e + d)) e) ;;; release L_bcache) Q s.
Proof.
  intros Hs Hl [Hb Hi]%bufs_lookup HQ. wstep. apply wp_acquire; [done|done|].
  wstep. eapply wp_modify_buf; [exact Hb|].
  eapply (wp_release L_bcache _ s); [done|done|by fields..|]. critical. exact HQ.
Qed.

(** [bpin] also runs with other spin locks held ([log_write] holds the log's). *)
Lemma wp_bpin s i b (Q : unit -> kstate -> Prop) :
  settled s -> lock_free L_bcache s -> bufs s !! i = Some b ->
  Q tt (set_bcache (<[i := set_b_refcnt (u32 (b_refcnt b + 1)) b]> (bcache s)) s) -> wp (bpin i) Q s.
Proof. apply wp_pin. Qed.

Lemma wp_bunpin s i b (Q : unit -> kstate -> Prop) :
  settled s -> lock_free L_bcache s -> bufs s !! i = Some b ->
  Q tt (set_bcache (<[i := set_b_refcnt (u32 (b_refcnt b - 1)) b]> (bcache s)) s) -> wp (bunpin i) Q s.
Proof. apply (wp_pin s i b (-1)). Qed.

(** The pointer updates of [brelse] move the buffer to the front of the list. *)
Definition to_front (i : nat) (bs : list buf) : list buf :=
  let bs := alter (set_b_prev (bpv bs i)) (bnx bs i) bs in
  let bs := alter (set_b_next (bnx bs i)) (bpv bs i) bs in
  let bs := alter (set_b_next (bnx bs HEAD)) i bs in
  let bs := alter (set_b_prev HEAD) i bs in
  let bs := alter (set_b_prev i) (bnx bs HEAD) bs in
  alter (set_b_next i) HEAD bs.

Lemma wp_modify_alter i f (Q : unit -> kstate -> Prop) s :
  (i < length (bcache s))%nat -> Q tt (set_bcache (alter f i (bcache s)) s) -> wp (modify_buf i f) Q s.
Proof.
  intros [b Hb]%lookup_lt_is_Some_2 HQ. eapply wp_modify_buf; [exact Hb|].
  by rewrite (list_alter_insert _ _ _ _ Hb) in HQ.
Qed.

Lemma wp_get_next i (Q : nat -> kstate -> Prop) s :
  (i < length (bcache s))%nat -> Q (bnx (bcache s) i) s -> wp (get_buf i b_next) Q s.
Proof.
  intros [b Hb]%lookup_lt_is_Some_2 HQ. eapply wp_get_buf; [exact Hb|].
  unfold bnx in HQ. by rewrite Hb in HQ.
Qed.
Lemma wp_get_prev i (Q : nat -> kstate -> Prop) s :
  (i < length (bcache s))%nat -> Q (bpv (bcache s) i) s -> wp (get_buf i b_prev) Q s.
Proof.
  intros [b Hb]%lookup_lt_is_Some_2 HQ. eapply wp_get_buf; [exact Hb|].
  unfold bpv in HQ. by rewrite Hb in HQ.
Qed.

Lemma bnx_alter bs i v j : (i < length bs)%nat -> bnx (alter (set_b_next v) i bs) j = upd (bnx bs) i v j.
Proof.
  intros [b Hb]%lookup_lt_is_Some_2. rewrite (list_alter_insert _ _ _ _ Hb).
  rewrite bnx_insert by (by eapply lookup_lt_Some). done.
Qed.
Lemma bpv_alter bs i v j : (i < length bs)%nat -> bpv (alter (set_b_prev v) i bs) j = upd (bpv bs) i v j.
Proof.
  intros [b Hb]%lookup_lt_is_Some_2. rewrite (list_alter_insert _ _ _ _ Hb).
  rewrite bpv_insert by (by eapply lookup_lt_Some). done.
Qed.
Lemma bnx_alter_prev bs i v j : bnx (alter (set_b_prev v) i bs) j = bnx bs j.
Proof.
  unfold bnx. destruct (decide (j = i)) as [->|Hne].
  - rewrite list_lookup_alter_eq. by destruct (bs !! i).
  - by rewrite list_lookup_alter_ne.
Qed.
Lemma bpv_alter_next bs i v j : bpv (alter (set_b_next v) i bs) j = bpv bs j.
Proof.
  unfold bpv. destruct (decide (j = i)) as [->|Hne].
  - rewrite list_lookup_alter_eq. by destruct (bs !! i).
  - by rewrite list_lookup_alter_ne.
Qed.

Lemma chain_neq_next nx pv h o1 x o2 : NoDup (h :: o1 ++ x :: o2) ->
  chain nx pv h (o1 ++ x :: o2) h -> nx x <> x /\ nx x ∈ h :: o2 /\ pv x ∈ h :: o1.
Proof.
  intros Hnd [H1 H2]%chain_split. apply NoDup_cons in Hnd as [Hh Hnd].
  rewrite NoDup_app, NoDup_cons in Hnd. destruct Hnd as (_ & _ & Hx & _).
  assert (Hn : nx x ∈ h :: o2).
  { destruct o2; cbn [chain] in H2; [destruct H2 as [-> _]|destruct H2 as (-> & _)]; set_solver. }
  split; [|split; [done|]].
  - intros E. rewrite E in Hn. set_solver.
  - destruct o1 as [|p o1 _] using rev_ind; cbn [chain] in H1; [destruct H1 as [_ ->]; set_solver|].
    apply chain_split in H1 as [_ [_ ->]]. set_solver.
Qed.

(** What the list pointers do not touch. *)
Definition erase (b : buf) : buf := set_b_prev 0 (set_b_next 0 b).

Lemma erase_alter f (i : nat) (bs : list buf) : (forall b, erase (f b) = erase b) -> erase <$> alter f i bs = erase <$> bs.
Proof.
  intros Hf. apply list_eq. intros j. rewrite !list_lookup_fmap.
  destruct (decide (j = i)) as [->|Hne].
  - rewrite list_lookup_alter_eq. destruct (bs !! i); simpl; [by rewrite Hf|done].
  - by rewrite list_lookup_alter_ne.
Qed.

Lemma to_front_erase i bs : erase <$> to_front i bs = erase <$> bs.
Proof. unfold to_front. by rewrite !erase_alter by done. Qed.

Lemma ring_nodup_split o1 i o2 : NoDup (HEAD :: o1 ++ i :: o2) -> NoDup (HEAD :: i :: o1 ++ o2).
Proof.
  intros Hnd. eapply NoDup_Permutation_proper; [|exact Hnd]. constructor.
  apply Permutation_middle.
Qed.

Lemma to_front_ring bs o1 i o2 : ring bs (o1 ++ i :: o2) -> ring (to_front i bs) (i :: o1 ++ o2).
Proof.
  intros Hr. pose proof (ring_nodup_head _ _ Hr) as Hnd. destruct Hr as [Hl Hnd0 Ha Hc].
  assert (Hi : (i < HEAD)%nat) by (apply Ha; set_solver).
  destruct (chain_neq_next _ _ _ _ _ _ Hnd Hc) as (Hni & Hn & Hp).
  assert (Hlt : forall j, j ∈ HEAD :: o1 ++ i :: o2 -> (j < S HEAD)%nat).
  { intros j [->|Hj]%elem_of_cons; [lia|]. apply Ha in Hj. lia. }
  assert (Hln : (bnx bs i < length bs)%nat) by (rewrite Hl; apply Hlt; set_solver).
  assert (Hlp : (bpv bs i < length bs)%nat) by (rewrite Hl; apply Hlt; set_solver).
  pose proof (chain_unlink _ _ _ _ _ _ Hnd Hc) as Hc'.
  set (nx2 := upd (bnx bs) (bpv bs i) (bnx bs i)) in *.
  set (pv2 := upd (bpv bs) (bnx bs i) (bpv bs i)) in *.
  pose proof (chain_push _ _ _ _ _ (ring_nodup_split _ _ _ Hnd) Hc') as Hc''.
  assert (Hh : (nx2 HEAD < length bs)%nat).
  { rewrite Hl. destruct (o1 ++ o2) as [|x o] eqn:E; cbn [chain] in Hc'.
    - destruct Hc' as [-> _]. lia.
    - destruct Hc' as (-> & _). apply Hlt. assert (x ∈ o1 ++ o2) by (rewrite E; left). set_solver. }
  unfold to_front. set (bs1 := alter (set_b_prev (bpv bs i)) (bnx bs i) bs).
  set (bs2 := alter (set_b_next (bnx bs1 i)) (bpv bs1 i) bs1).
  assert (E1 : bpv bs1 i = bpv bs i) by (unfold bs1; by rewrite bpv_alter, upd_other by done).
  assert (E2 : bnx bs1 i = bnx bs i) by (unfold bs1; by rewrite bnx_alter_prev).
  assert (Hl2 : length bs2 = length bs) by (unfold bs2, bs1; by rewrite !length_alter).
  assert (Hnx2 : forall j, bnx bs2 j = nx2 j).
  { intros j. unfold bs2. rewrite E1, E2, bnx_alter by (unfold bs1; by rewrite length_alter).
    unfold nx2, upd. case_decide; [done|]. unfold bs1. by rewrite bnx_alter_prev. }
  assert (Hpv2 : forall j, bpv bs2 j = pv2 j).
  { intros j. unfold bs2. rewrite bpv_alter_next. unfold bs1. by rewrite bpv_alter. }
  split.
  - by rewrite !length_alter, Hl2.
  - by apply ring_nodup_split, NoDup_cons in Hnd as [_ ?].
  - intros j. rewrite <- Ha. set_solver.
  - eapply chain_ext; [..|exact Hc'']; intros j _.
    + rewrite bnx_alter by (rewrite !length_alter, Hl2; lia).
      destruct (decide (j = HEAD)) as [->|]; [by rewrite !upd_same|]. rewrite !(upd_other _ HEAD) by done.
      rewrite bnx_alter_prev, bnx_alter_prev, bnx_alter by (rewrite Hl2; lia).
      destruct (decide (j = i)) as [->|]; [by rewrite !upd_same, Hnx2|].
      rewrite !(upd_other _ i) by done. apply Hnx2.
    + rewrite bpv_alter_next.
      assert (E3 : bnx (alter (set_b_prev HEAD) i (alter (set_b_next (bnx bs2 HEAD)) i bs2)) HEAD = nx2 HEAD).
      { rewrite bnx_alter_prev, bnx_alter, upd_other by (rewrite ?Hl2; lia). apply Hnx2. }
      rewrite E3, bpv_alter by (rewrite !length_alter, Hl2; lia).
      destruct (decide (j = nx2 HEAD)) as [->|]; [by rewrite !upd_same|].
      rewrite !(upd_other _ (nx2 HEAD)) by done. rewrite bpv_alter by (rewrite !length_alter, Hl2; lia).
      destruct (decide (j = i)) as [->|]; [by rewrite !upd_same|].
      by rewrite !(upd_other _ i), bpv_alter_next, Hpv2 by done.
Qed.

(** Every pointer is the index of an entry. *)
Definition ptrs_ok (bs : list buf) : Prop :=
  forall j, (j < length bs)%nat -> (bnx bs j < length bs)%nat /\ (bpv bs j < length bs)%nat.

Lemma chain_in nx pv a l z : chain nx pv a l z ->
  (forall x, x ∈ a :: l -> nx x ∈ l ++ [z]) /\ (forall x, x ∈ l ++ [z] -> pv x ∈ a :: l).
Proof.
  revert a; induction l as [|b l IH]; intros a; cbn [chain app].
  - intros [Hn Hp]. split; intros x Hx; apply list_elem_of_singleton in Hx as ->; rewrite ?Hn, ?Hp; by left.
  - intros (Hn & Hp & Hc). destruct (IH b Hc) as [H1 H2]. split; intros x Hx.
    + apply elem_of_cons in Hx as [->|Hx]; [rewrite Hn; by left|]. right. by apply H1.
    + apply elem_of_cons in Hx as [->|Hx]; [rewrite Hp; by left|]. right. by apply H2.
Qed.

Lemma ring_ptrs_ok bs order : ring bs order -> ptrs_ok bs.
Proof.
  intros [Hl Hnd Ha Hc] j Hj. destruct (chain_in _ _ _ _ _ Hc) as [H1 H2].
  assert (Hin : forall x, x ∈ order ++ [HEAD] <-> (x < length bs)%nat).
  { intros x. rewrite elem_of_app, Ha, list_elem_of_singleton, Hl. lia. }
  split.
  - apply Hin, H1. rewrite elem_of_cons, Ha. lia.
  - assert (Hx : bpv bs j ∈ HEAD :: order) by (by apply H2, Hin).
    apply elem_of_cons in Hx as [->|Hx]; [lia|]. apply Ha in Hx. lia.
Qed.

Lemma ptrs_ok_next bs i v : ptrs_ok bs -> (i < length bs)%nat -> (v < length bs)%nat ->
  ptrs_ok (alter (set_b_next v) i bs).
Proof.
  intros Hp Hi Hv j. rewrite length_alter. intros Hj. rewrite bnx_alter, bpv_alter_next by done.
  destruct (Hp j Hj). unfold upd. by case_decide.
Qed.
Lemma ptrs_ok_prev bs i v : ptrs_ok bs -> (i < length bs)%nat -> (v < length bs)%nat ->
  ptrs_ok (alter (set_b_prev v) i bs).
Proof.
  intros Hp Hi Hv j. rewrite length_alter. intros Hj. rewrite bpv_alter, bnx_alter_prev by done.
  destruct (Hp j Hj). unfold upd. by case_decide.
Qed.

(** The list updates of [brelse]. *)
Lemma wp_to_front t i (Q : unit -> kstate -> Prop) :
  ptrs_ok (bcache t) -> length (bcache t) = S HEAD -> (i < HEAD)%nat ->
  Q tt (set_bcache (to_front i (bcache t)) t) ->
  wp (let* nx := get_buf i b_next in
      let* pv := get_buf i b_prev in
      modify_buf nx (set_b_prev pv) ;;;
      let* pv := get_buf i b_prev in
      let* nx := get_buf i b_next in
      modify_buf pv (set_b_next nx) ;;;
      let* n := get_buf HEAD b_next in
      modify_buf i (set_b_next n) ;;;
      modify_buf i (set_b_prev HEAD) ;;;
      let* n := get_buf HEAD b_next in
      modify_buf n (set_b_prev i) ;;;
      modify_buf HEAD (set_b_next i)) Q t.
Proof.
  intros Hp Hl Hi HQ. set (bs := bcache t) in *. unfold to_front in HQ. cbv zeta in HQ.
  assert (Hi' : (i < length bs)%nat) by lia. assert (HH : (HEAD < length bs)%nat) by lia.
  wstep. apply wp_get_next; [done|]. wstep. apply wp_get_prev; [done|]. wstep.
  destruct (Hp i Hi') as [Hn Hpv]. apply wp_modify_alter; [done|]. fold bs. set (bs1 := alter _ _ bs) in *.
  assert (Hp1 : ptrs_ok bs1) by (by apply ptrs_ok_prev).
  assert (Hl1 : length bs1 = length bs) by apply length_alter. clearbody bs1.
  wstep. apply wp_get_prev; [fields; lia|]. wstep. apply wp_get_next; [fields; lia|]. wstep. fields.
  destruct (Hp1 i ltac:(lia)) as [Hn1 Hpv1]. apply wp_modify_alter; [fields; lia|]. fields.
  set (bs2 := alter _ _ bs1) in *. assert (Hp2 : ptrs_ok bs2) by (by apply ptrs_ok_next).
  assert (Hl2 : length bs2 = length bs) by (unfold bs2; by rewrite length_alter). clearbody bs2.
  destruct (Hp2 HEAD ltac:(lia)) as [Hn2 _].
  wstep. apply wp_get_next; [fields; lia|]. wstep. fields. apply wp_modify_alter; [fields; lia|]. fields.
  wstep. apply wp_modify_alter; [fields; rewrite length_alter; lia|]. fields.
  set (bs4 := alter (set_b_prev HEAD) _ _) in *.
  assert (Hp4 : ptrs_ok bs4).
  { apply ptrs_ok_prev; rewrite ?length_alter; try lia. apply ptrs_ok_next; try lia. done. }
  assert (Hl4 : length bs4 = length bs) by (unfold bs4; by rewrite !length_alter). clearbody bs4.
  destruct (Hp4 HEAD ltac:(lia)) as [Hn4 _].
  wstep. apply wp_get_next; [fields; lia|]. wstep. fields. apply wp_modify_alter; [fields; lia|]. fields.
  apply wp_modify_alter; [fields; rewrite length_alter; lia|]. fields. exact HQ.
Qed.

(** The buffers after [brelse i]. *)
Definition released (i : nat) (b : buf) (bs : list buf) : list buf :=
  let n := u32 (b_refcnt b - 1) in
  let bs := <[i := set_b_refcnt n b]> bs in
  if n =? 0 then to_front i bs else bs.

Lemma wp_brelse s order i b nm (Q : unit -> kstate -> Prop) :
  calm s -> ring (bcache s) order -> bufs s !! i = Some b ->
  slocks s !! SL_buf i = Some (mk_sleeplock 1 nm (cur_pid s)) ->
  Q tt (set_slocks (<[SL_buf i := mk_sleeplock 0 nm 0]> (slocks s))
         (set_bcache (released i b (bcache s)) s)) ->
  wp (brelse i) Q s.
Proof.
  intros Hs Hr [Hb Hi]%bufs_lookup Hl HQ. pose proof (lookup_lt_Some _ _ _ Hb) as Hlen.
  unfold brelse. wstep.
  eapply wp_holdingsleep; [done|by apply slid_in_locks|exact Hl|]. cbn [sl_locked sl_pid].
  rewrite Z.eqb_refl. cbn [negb andb Z.eqb]. wstep.
  eapply wp_releasesleep; [done|by apply slid_in_locks|exact Hl|]. cbn [sl_name]. wstep.
  set (s1 := set_slocks _ s).
  assert (Hs1 : calm s1) by (by eapply calm_ext; [..|exact Hs]).
  apply wp_acquire; [apply Hs1|by apply L_bcache_free|]. wstep.
  eapply wp_modify_buf; [exact Hb|]. wstep.
  eapply wp_get_buf; [fields; by apply list_lookup_insert_eq|]. fields. wstep.
  change (bcache (acq L_bcache s1)) with (bcache s).
  unfold released in HQ. cbv zeta in HQ. fields.
  assert (Hr' : ring (<[i:=set_b_refcnt (u32 (b_refcnt b - 1)) b]> (bcache s)) order) by (by eapply lru_ring_insert).
  apply wp_when; intros E; rewrite E in HQ.
  - apply wp_to_front; [by eapply ring_ptrs_ok|by apply (ring_length _ _ Hr')|done|]. fields.
    eapply (wp_release L_bcache _ s1); [apply Hs1|by apply L_bcache_free|by fields..|]. critical.
    exact HQ.
  - eapply (wp_release L_bcache _ s1); [apply Hs1|by apply L_bcache_free|by fields..|]. critical.
    exact HQ.
Qed.
End BioSpec.
