(* ===== verification/Cache.v ===== *)
(** * The buffer cache as its clients see it

    A client of [Bio] knows, for each block, the contents a reader sees ([view]),
    how many references hold it in the cache ([pins]), and which buffers it has
    locked itself.  [cache s held] says that the kernel is calm, the cache is well
    formed and exactly the buffers of [held] are locked.  The rules below say what
    each operation of the cache does in these terms. *)

From stdpp Require Import gmap strings list fin_maps.
From Stdlib Require Import ZArith Lia.
From S2P Require Import Prelude Machine State Riscv Spinlock Sched Sleeplock Bio.
Open Scope Z_scope.

(** The buffer of a block. *)
Definition is_block (bno : Z) (b : buf) : Prop := b_dev b = ROOTDEV /\ b_blockno b = bno.
#[export] Instance is_block_dec bno b : Decision (is_block bno b).
Proof. unfold is_block. apply _. Defined.

Definition pins (s : kstate) (bno : Z) : Z :=
  match list_find (is_block bno) (bufs s) with
  | Some (_, b) => b_refcnt b
  | None => 0
  end.

Definition vw (s : kstate) (bno : Z) : list Z := view s ROOTDEV bno.

Lemma pins_slot s order i b : cache_inv s order -> bufs s !! i = Some b -> b_dev b = ROOTDEV ->
  pins s (b_blockno b) = b_refcnt b.
Proof.
  intros Hinv Hb Hd. unfold pins. destruct (list_find _ _) as [[j b']|] eqn:Hf.
  - apply list_find_Some in Hf as (Hj & [Hd' Hn'] & _).
    assert (i = j) as <-; [|congruence].
    eapply (ci_unique _ _ Hinv); [exact Hb|exact Hj| |congruence..]. rewrite Hd. done.
  - apply list_find_None in Hf. rewrite Forall_lookup in Hf. destruct (Hf i b Hb). done.
Qed.

Lemma pins_none s bno : (forall i b, bufs s !! i = Some b -> ~ is_block bno b) -> pins s bno = 0.
Proof.
  intros Hn. unfold pins. destruct (list_find _ _) as [[j b']|] eqn:Hf; [|done].
  apply list_find_Some in Hf as (Hj & Hc & _). by destruct (Hn j b').
Qed.

Lemma pins_eq s order bno v : cache_inv s order ->
  (forall i b, bufs s !! i = Some b -> is_block bno b -> b_refcnt b = v) ->
  ((forall i b, bufs s !! i = Some b -> ~ is_block bno b) -> 0 = v) -> pins s bno = v.
Proof.
  intros Hinv Hc Hn. unfold pins. destruct (list_find _ _) as [[j b']|] eqn:Hf.
  - apply list_find_Some in Hf as (Hj & Hcp & _). by eapply Hc.
  - apply list_find_None in Hf. rewrite Forall_lookup in Hf. by apply Hn.
Qed.

Lemma pins_pos s bno : pins s bno <> 0 ->
  exists i b, bufs s !! i = Some b /\ is_block bno b /\ b_refcnt b = pins s bno.
Proof.
  unfold pins. destruct (list_find _ _) as [[j b']|] eqn:Hf; [|done].
  apply list_find_Some in Hf as (Hj & Hcp & _). eauto.
Qed.

(** When fewer blocks than buffers are referenced, a buffer is unused. *)
Lemma free_buffer s order L : cache_inv s order -> (length L < HEAD)%nat ->
  (forall bno, pins s bno <> 0 -> bno ∈ L) -> exists i b, bufs s !! i = Some b /\ b_refcnt b = 0.
Proof.
  intros Hinv Hlen HL. destruct (decide (Exists (fun b => b_refcnt b = 0) (bufs s))) as [He|Hne].
  - apply Exists_exists in He as (b & Hin & Hz). apply list_elem_of_lookup in Hin as [i Hi]. eauto.
  - exfalso. rewrite <- Forall_Exists_neg in Hne.
    assert (Hdev : forall i b, bufs s !! i = Some b -> b_dev b = ROOTDEV /\ b_refcnt b <> 0).
    { intros i b Hb. rewrite Forall_lookup in Hne. pose proof (Hne i b Hb) as Hz. simpl in Hz.
      split; [|done]. apply (ci_dev _ _ Hinv i b Hb). by right. }
    assert (Hsub : b_blockno <$> bufs s ⊆+ L).
    { apply NoDup_submseteq.
      - apply NoDup_alt. intros i j x Hi Hj. rewrite list_lookup_fmap in Hi, Hj.
        destruct (bufs s !! i) as [b|] eqn:Eb; [|done]. destruct (bufs s !! j) as [b'|] eqn:Eb'; [|done].
        simpl in Hi, Hj. destruct (Hdev i b Eb) as [Hd _], (Hdev j b' Eb') as [Hd' _].
        eapply (ci_unique _ _ Hinv); [exact Eb|exact Eb'| |congruence..]. by rewrite Hd.
      - intros x Hx. apply list_elem_of_fmap in Hx as (b & -> & Hin).
        apply list_elem_of_lookup in Hin as [i Hi]. destruct (Hdev i b Hi) as [Hd Hz].
        apply HL. by rewrite (pins_slot s order i b). }
    apply submseteq_length in Hsub. rewrite length_fmap in Hsub. unfold bufs in Hsub.
    rewrite length_take, (ring_length _ _ (ci_ring _ _ Hinv)) in Hsub. lia.
Qed.

(** ** Changing one buffer in place *)

(** [s'] is [s] with buffer [i] (was [b]) replaced by [b'] of the same block, and
    the lock of [i] and the contents of this block on disk possibly changed. *)
Record updates (s : kstate) (i : nat) (b b' : buf) (s' : kstate) : Prop := {
  up_old : bufs s !! i = Some b;
  up_new : bcache s' = <[i := b']> (bcache s);
  up_links : b_next b' = b_next b /\ b_prev b' = b_prev b;
  up_block : b_dev b' = ROOTDEV /\ b_dev b = ROOTDEV /\ b_blockno b' = b_blockno b;
  up_range : 0 <= b_refcnt b' < 2 ^ 32;
  up_clean : b_valid b' = true -> b_refcnt b' = 0 ->
    b_data b' = disk_block (disk s') (b_blockno b);
  up_disk : forall bno, bno <> b_blockno b -> disk_block (disk s') bno = disk_block (disk s) bno;
  up_locks : forall j, j <> i -> slocks s' !! SL_buf j = slocks s !! SL_buf j;
  up_lock : is_Some (slocks s' !! SL_buf i)
}.

Lemma updates_lookup s i b b' s' j x : updates s i b b' s' ->
  bufs s' !! j = Some x <-> (j = i /\ x = b') \/ (j <> i /\ bufs s !! j = Some x).
Proof.
  intros [Hb Hn _ _ _ _ _ _ _]. apply bufs_lookup in Hb as [Hb Hi]. pose proof (lookup_lt_Some _ _ _ Hb).
  rewrite !bufs_lookup, Hn. destruct (decide (j = i)) as [->|Hne].
  - rewrite list_lookup_insert_eq by done. split; [intros [[= ->] _]; by left|].
    by intros [[_ ->]|[? _]].
  - rewrite list_lookup_insert_ne by done. split; [by right|]. by intros [[? _]|[_ ?]].
Qed.

Lemma updates_inv s order i b b' s' : cache_inv s order -> updates s i b b' s' -> cache_inv s' order.
Proof.
  intros Hinv Hup. pose proof (updates_lookup s i b b' s') as Hg.
  destruct Hup as [Hb Hn [Hnx Hpv] (Hd' & Hd & Hbn) Hr Hc Hdk Hls Hlk]. split.
  - rewrite Hn. apply bufs_lookup in Hb as [Hb _]. by eapply lru_ring_insert, Hinv.
  - intros j k x y Hj Hk Hdx Hxy Hxy'. apply Hg in Hj, Hk; [|by split..].
    destruct Hj as [[-> ->]|[Hji Hj]], Hk as [[-> ->]|[Hki Hk]]; [done|..].
    + exfalso. apply Hki. eapply (ci_unique _ _ Hinv k i y b); congruence.
    + exfalso. apply Hji. eapply (ci_unique _ _ Hinv j i x b); congruence.
    + by eapply (ci_unique _ _ Hinv).
  - intros j x Hj Hv Hz. apply Hg in Hj; [|by split]. destruct Hj as [[-> ->]|[Hji Hj]].
    + rewrite Hbn. by apply Hc.
    + rewrite Hdk; [by eapply (ci_clean _ _ Hinv)|]. intros E. apply Hji.
      pose proof (ci_dev _ _ Hinv j x Hj (or_introl Hv)) as Hdx.
      eapply (ci_unique _ _ Hinv j i x b); [done|done| |congruence..]. by rewrite Hdx.
  - intros j x Hj. apply Hg in Hj; [|by split]. destruct Hj as [[-> ->]|[Hji Hj]]; [done|].
    rewrite Hls by done. by eapply (ci_locks _ _ Hinv).
  - intros j x Hj. apply Hg in Hj; [|by split]. destruct Hj as [[-> ->]|[Hji Hj]]; [done|].
    by apply (ci_refcnt _ _ Hinv j).
  - intros j x Hj. apply Hg in Hj; [|by split]. destruct Hj as [[-> ->]|[Hji Hj]]; [done|].
    by apply (ci_dev _ _ Hinv j).
Qed.

Lemma updates_view s order i b b' s' bno : cache_inv s order -> updates s i b b' s' ->
  vw s' bno = if bno =? b_blockno b
              then (if b_valid b' then b_data b' else disk_block (disk s') bno) else vw s bno.
Proof.
  intros Hinv Hup. pose proof (updates_inv _ _ _ _ _ _ Hinv Hup) as Hinv'.
  pose proof (updates_lookup s i b b' s') as Hg. pose proof Hup as [Hb _ _ (Hd' & Hd & Hbn) _ _ Hdk _ _].
  assert (Hroot : ROOTDEV <> 0) by done.
  eapply view_eq; [exact Hinv'|done|..].
  - intros j x Hj (E1 & E2 & Hv). apply Hg in Hj; [|done]. destruct Hj as [[-> ->]|[Hji Hj]].
    + rewrite <- E2, Hbn, Z.eqb_refl, Hv. done.
    + destruct (Z.eqb_spec bno (b_blockno b)) as [->|Hne].
      * exfalso. apply Hji. eapply (ci_unique _ _ Hinv j i x b); [done|done| |congruence..]. by rewrite E1.
      * unfold vw. rewrite <- E1, <- E2. symmetry. eapply view_copy; [done..|]. by rewrite E1.
  - intros Hno. destruct (Z.eqb_spec bno (b_blockno b)) as [->|Hne].
    + destruct (b_valid b') eqn:Hv; [|done]. exfalso.
      apply (Hno i b'); [apply Hg; [done|by left]|done].
    + rewrite Hdk by done. symmetry. apply view_none. intros j x Hj Hc.
      destruct (decide (j = i)) as [->|Hji].
      * assert (x = b) as -> by congruence. by destruct Hc as (_ & E & _).
      * apply (Hno j x); [apply Hg; [done|by right]|done].
Qed.

Lemma updates_pins s order i b b' s' bno : cache_inv s order -> updates s i b b' s' ->
  pins s' bno = if bno =? b_blockno b then b_refcnt b' else pins s bno.
Proof.
  intros Hinv Hup. pose proof (updates_inv _ _ _ _ _ _ Hinv Hup) as Hinv'.
  pose proof (updates_lookup s i b b' s') as Hg. pose proof Hup as [Hb _ _ (Hd' & Hd & Hbn) _ _ _ _ _].
  eapply pins_eq; [exact Hinv'|..].
  - intros j x Hj [E1 E2]. apply Hg in Hj; [|done]. destruct Hj as [[-> ->]|[Hji Hj]].
    + by rewrite <- E2, Hbn, Z.eqb_refl.
    + destruct (Z.eqb_spec bno (b_blockno b)) as [->|Hne].
      * exfalso. apply Hji. eapply (ci_unique _ _ Hinv j i x b); [done|done| |congruence..]. by rewrite E1.
      * rewrite <- E2. symmetry. eapply pins_slot; eauto.
  - intros Hno. destruct (Z.eqb_spec bno (b_blockno b)) as [->|Hne].
    + exfalso. apply (Hno i b'); [apply Hg; [done|by left]|done].
    + symmetry. apply pins_none. intros j x Hj Hc. destruct (decide (j = i)) as [->|Hji].
      * assert (x = b) as -> by congruence. by destruct Hc.
      * apply (Hno j x); [apply Hg; [done|by right]|done].
Qed.

(** ** Reordering the list changes nothing a client sees *)

Lemma erase_fields b b' : erase b' = erase b ->
  b_valid b' = b_valid b /\ b_dev b' = b_dev b /\ b_blockno b' = b_blockno b /\
  b_refcnt b' = b_refcnt b /\ b_data b' = b_data b.
Proof. destruct b, b'. unfold erase. cbn. by intros [=]. Qed.

Section Reorder.
Context (s : kstate) (bs : list buf).
Hypothesis Hbs : erase <$> bs = erase <$> bcache s.

Lemma reorder_lookup j b' : bufs (set_bcache bs s) !! j = Some b' ->
  exists b, bufs s !! j = Some b /\ erase b' = erase b.
Proof.
  rewrite bufs_lookup. fields. intros [Hb' Hj]. pose proof (f_equal (fun l => l !! j) Hbs) as E.
  rewrite !list_lookup_fmap, Hb' in E. destruct (bcache s !! j) as [b|] eqn:Hb; [|done].
  apply (inj Some) in E.
  exists b. by rewrite bufs_lookup.
Qed.

Lemma reorder_lookup' j b : bufs s !! j = Some b ->
  exists b', bufs (set_bcache bs s) !! j = Some b' /\ erase b' = erase b.
Proof.
  rewrite bufs_lookup. intros [Hb Hj]. pose proof (f_equal (fun l => l !! j) Hbs) as E.
  rewrite !list_lookup_fmap, Hb in E. destruct (bs !! j) as [b'|] eqn:Hb'; [|done].
  apply (inj Some) in E.
  exists b'. rewrite bufs_lookup. fields. done.
Qed.

Lemma reorder_inv order order' : cache_inv s order -> ring bs order' ->
  cache_inv (set_bcache bs s) order'.
Proof.
  intros Hinv Hr. split; [done|..].
  - intros i j x y Hx Hy Hd E1 E2. apply reorder_lookup in Hx as (b & Hb & (_ & ? & ? & _)%erase_fields).
    apply reorder_lookup in Hy as (c & Hc & (_ & ? & ? & _)%erase_fields).
    eapply (ci_unique _ _ Hinv i j b c); congruence.
  - intros i x Hx Hv Hz. apply reorder_lookup in Hx as (b & Hb & (? & ? & Eb & ? & Ed)%erase_fields).
    rewrite Ed, Eb. eapply (ci_clean _ _ Hinv); [done|congruence..].
  - intros i x Hx. apply reorder_lookup in Hx as (b & Hb & _). by eapply (ci_locks _ _ Hinv).
  - intros i x Hx. apply reorder_lookup in Hx as (b & Hb & (_ & _ & _ & -> & _)%erase_fields).
    by apply (ci_refcnt _ _ Hinv i).
  - intros i x Hx. apply reorder_lookup in Hx as (b & Hb & (-> & -> & _ & -> & _)%erase_fields).
    by apply (ci_dev _ _ Hinv i).
Qed.

Lemma reorder_view order order' bno : cache_inv s order -> ring bs order' ->
  vw (set_bcache bs s) bno = vw s bno.
Proof.
  intros Hinv Hr. assert (Hroot : ROOTDEV <> 0) by done.
  eapply view_eq; [by eapply reorder_inv|done|..].
  - intros j x Hx (E1 & E2 & Hv). apply reorder_lookup in Hx as (b & Hb & (E3 & E4 & E5 & _ & ->)%erase_fields).
    unfold vw. rewrite <- E1, <- E2, E4, E5. symmetry. eapply view_copy; [done|done|congruence..].
  - intros Hno. fields. symmetry. apply view_none. intros j b Hb (E1 & E2 & Hv).
    apply reorder_lookup' in Hb as (x & Hx & (E3 & E4 & E5 & _)%erase_fields).
    apply (Hno j x Hx). split; [congruence|]. split; congruence.
Qed.

Lemma reorder_pins order order' bno : cache_inv s order -> ring bs order' ->
  pins (set_bcache bs s) bno = pins s bno.
Proof.
  intros Hinv Hr. eapply pins_eq; [by eapply reorder_inv|..].
  - intros j x Hx [E1 E2]. apply reorder_lookup in Hx as (b & Hb & (E3 & E4 & E5 & -> & _)%erase_fields).
    rewrite <- E2, E5. symmetry. eapply pins_slot; [done|done|congruence].
  - intros Hno. symmetry. apply pins_none. intros j b Hb [E1 E2].
    apply reorder_lookup' in Hb as (x & Hx & (E3 & E4 & E5 & _)%erase_fields).
    apply (Hno j x Hx). split; congruence.
Qed.
End Reorder.

(** ** The client's view of the cache *)

(** Block [bno] is in buffer [i], which the running process has locked. *)
Definition holds (s : kstate) (i : nat) (bno : Z) : Prop :=
  exists b, bufs s !! i = Some b /\ is_block bno b /\ b_valid b = true /\ locked_by_me s i.

(** [ex] lists locked buffers whose references were all dropped (only log
    recovery does that); it is empty otherwise. *)
Record cache_ex (ex : list nat) (s : kstate) (held : list (nat * Z)) : Prop := {
  cache_calm : calm s;
  cache_ok : exists order, cache_inv s order;
  cache_held : forall i bno, (i, bno) ∈ held -> holds s i bno;
  cache_free : forall i, (i < HEAD)%nat -> (forall bno, (i, bno) ∉ held) ->
    exists lk, slocks s !! SL_buf i = Some lk /\ sl_locked lk = 0;
  cache_used : forall i bno b, (i, bno) ∈ held -> i ∉ ex -> bufs s !! i = Some b -> b_refcnt b <> 0
}.

Abbreviation cache := (cache_ex []).

Lemma cache_perm ex s held held' : (forall y, y ∈ held' <-> y ∈ held) ->
  cache_ex ex s held -> cache_ex ex s held'.
Proof.
  intros Hp [A1 A2 A3 A4 A5]. split; [done|done|..].
  - intros i x Hx. by apply A3, Hp.
  - intros i Hi Hx. apply A4; [done|]. intros x Hx'. by apply (Hx x), Hp.
  - intros i x e Hx. by apply (A5 i x), Hp.
Qed.

(** Only the cache, the disk and the buffers' locks have changed. *)
Definition cache_step (s s' : kstate) : Prop :=
  s' = set_slocks (slocks s') (set_bcache (bcache s')
         (set_disk (disk s') (set_dtrace (dtrace s') s))) /\
  forall i, slocks s' !! SL_inode i = slocks s !! SL_inode i.

(** A state written out as an update of [s] is a step from [s]. *)
Ltac cache_stepped s :=
  split; [by destruct s|]; intros; try (by destruct s); cbn -[HEAD]; by rewrite lookup_insert_ne.

Lemma cache_step_refl s : cache_step s s.
Proof. split; [by destruct s|done]. Qed.
Lemma cache_step_trans s1 s2 s3 : cache_step s1 s2 -> cache_step s2 s3 -> cache_step s1 s3.
Proof. intros [E1 L1] [E2 L2]. split; [rewrite E2, E1; by fields|]. intros i. by rewrite L2, L1. Qed.

Lemma cache_step_calm s s' : cache_step s s' -> calm s -> calm s'.
Proof. intros [E _]. apply calm_ext; rewrite E; by fields. Qed.
Lemma cache_step_pid s s' : cache_step s s' -> cur_pid s' = cur_pid s.
Proof. intros [E _]. unfold cur_pid, cur_proc, this_cpu. rewrite E. by fields. Qed.

Section Client.
Context `{World kstate} `{BlockDev}.

Lemma holds_buf ex s held i bno : cache_ex ex s held -> (i, bno) ∈ held -> exists order b nm,
  cache_inv s order /\ bufs s !! i = Some b /\ is_block bno b /\ b_valid b = true /\
  slocks s !! SL_buf i = Some (mk_sleeplock 1 nm (cur_pid s)) /\
  pins s bno = b_refcnt b /\ vw s bno = b_data b /\ 0 <= b_refcnt b < 2 ^ 32 /\
  (i ∉ ex -> 1 <= b_refcnt b).
Proof.
  intros [_ [order Hinv] Hh _ Hu] Hin. destruct (Hh i bno Hin) as (b & Hb & [Hd Hn] & Hv & nm & Hl).
  exists order, b, nm. repeat (split; [done|]). split; [rewrite <- Hn; eapply pins_slot; eauto|].
  split; [unfold vw; rewrite <- Hd, <- Hn; eapply view_copy; eauto; by rewrite Hd|].
  pose proof (ci_refcnt _ _ Hinv i b Hb). split; [done|]. intros Hex.
  pose proof (Hu i bno b Hin Hex Hb). lia.
Qed.

(** The rule for the operations that change one held buffer in place. *)
Lemma cache_update ex s held i bno s' b b' :
  cache s held -> (i, bno) ∈ held -> (forall x, (i, x) ∈ held -> x = bno) ->
  bufs s !! i = Some b -> updates s i b b' s' -> cache_step s s' ->
  is_block bno b -> b_valid b' = true -> slocks s' !! SL_buf i = slocks s !! SL_buf i ->
  (i ∉ ex -> b_refcnt b' <> 0) -> cache_ex ex s' held.
Proof.
  intros [Hc [order Hinv] Hh Hf Hu] Hin Hone Hb Hup Hst [Hd Hn] Hv Hl Hr.
  pose proof (updates_inv _ _ _ _ _ _ Hinv Hup) as Hinv'. pose proof (cache_step_pid _ _ Hst) as Hpid.
  pose proof (updates_lookup s i b b' s') as Hg. pose proof Hup as [_ _ _ (Hd' & _ & Hn') _ _ _ Hls _].
  split; [by eapply cache_step_calm|by exists order|..].
  - intros j x Hj. destruct (Hh j x Hj) as (y & Hy & Hyb & Hyv & nm & Hyl).
    destruct (decide (j = i)) as [->|Hji].
    + rewrite (Hone x Hj). exists b'. split; [apply Hg; [done|by left]|].
      split; [split; congruence|]. split; [done|]. exists nm. by rewrite Hl, Hpid.
    + exists y. split; [apply Hg; [done|by right]|]. split; [done|]. split; [done|].
      exists nm. by rewrite Hls, Hpid.
  - intros j Hj Hnh. destruct (Hf j Hj Hnh) as (lk & Hlk & Hz). exists lk. split; [|done].
    destruct (decide (j = i)) as [->|Hji]; [by rewrite Hl|by rewrite Hls].
  - intros j x y Hj Hex Hy. apply Hg in Hy; [|done]. destruct Hy as [[-> ->]|[Hji Hy]]; [by apply Hr|].
    eapply Hu; [done|apply not_elem_of_nil|done].
Qed.

(** *** [bread] *)

Lemma wp_cache_bread s held bno (Q : nat -> kstate -> Prop) :
  cache s held -> (forall i, (i, bno) ∉ held) ->
  pins s bno + 1 < 2 ^ 32 ->
  (pins s bno <> 0 \/ exists i b, bufs s !! i = Some b /\ b_refcnt b = 0) ->
  (forall i s', cache s' ((i, bno) :: held) -> (forall x, (i, x) ∉ held) -> cache_step s s' ->
     disk s' = disk s -> dtrace s' = dtrace s -> (forall x, vw s' x = vw s x) ->
     (forall x, pins s' x = if x =? bno then pins s bno + 1 else pins s x) -> Q i s') ->
  wp (bread ROOTDEV bno) Q s.
Proof.
  intros Hc Hnh Hmax Hav HQ. pose proof Hc as [Hcalm [order Hinv] Hh Hf Hu].
  assert (Hroot : ROOTDEV <> 0) by done.
  assert (Hav' : available s ROOTDEV bno).
  { destruct (list_find (is_block bno) (bufs s)) as [[i b]|] eqn:Hfind.
    - apply list_find_Some in Hfind as (Hb & Hbk & _). pose proof Hbk as [Hd Hn]. left.
      destruct (Hf i) as (lk & Hlk & Hul).
      + by apply bufs_lookup in Hb as [_ ?].
      + intros x Hx. destruct (Hh i x Hx) as (b' & Hb' & [_ Hn'] & _).
        apply (Hnh i). by replace bno with x by congruence.
      + exists i, b, lk. repeat (split; [done|]). by rewrite <- (pins_slot s order i b), Hn.
    - apply list_find_None in Hfind. rewrite Forall_lookup in Hfind. right. split; [done|].
      split; [destruct Hav as [Hp|?]; [|done]; exfalso; apply Hp; by apply pins_none|].
      intros i b Hb Hz. apply Hf; [by apply bufs_lookup in Hb as [_ ?]|].
      intros x Hx. by apply (Hu i x b Hx (not_elem_of_nil _) Hb). }
  apply (wp_bread s order ROOTDEV bno); [done..|].
  intros i b0 b nm [Hrep (Hd & Hn & Hv) Hdata Hul].
  pose proof Hrep as (Hb0 & _ & _ & Hrc & Hrmax & _ & Hid).
  pose proof (proj1 (bufs_lookup s i b0) Hb0) as [_ Hi].
  assert (Hg : forall j x, bufs (got i b nm s) !! j = Some x <->
     (j = i /\ x = b) \/ (j <> i /\ bufs s !! j = Some x)) by (intros; apply got_lookup; [done|congruence]).
  assert (Hni : forall x, (i, x) ∉ held).
  { intros x Hx. destruct (Hh i x Hx) as (_ & _ & _ & _ & nm' & Hl'). destruct Hul as (lk & Hlk & Hz).
    rewrite Hl' in Hlk. by simplify_eq. }
  pose proof (cache_inv_got _ _ _ _ _ nm Hinv Hrep) as Hinv'.
  apply HQ; [|done|by cache_stepped s|done|done| |].
  - split; [by apply calm_got|by exists order|..].
    + intros j x Hj. apply elem_of_cons in Hj as [[= -> ->]|Hj].
      * exists b. split; [apply Hg; by left|]. split; [done|]. split; [done|]. exists nm.
        unfold got. fields. apply lookup_insert_eq.
      * destruct (Hh j x Hj) as (y & Hy & Hyb & Hyv & nm' & Hyl).
        assert (Hji : j <> i) by (intros ->; by apply (Hni x)).
        exists y. split; [apply Hg; by right|]. split; [done|]. split; [done|].
        exists nm'. unfold got. fields. by rewrite lookup_insert_ne by congruence.
    + intros j Hj Hnj. assert (Hji : j <> i) by (intros ->; apply (Hnj bno); by left).
      destruct (Hf j Hj) as (lk & Hlk & Hz); [intros x Hx; apply (Hnj x); by right|].
      exists lk. unfold got. fields. by rewrite lookup_insert_ne by congruence.
    + intros j x y Hj _ Hy. apply Hg in Hy. pose proof (ci_refcnt _ _ Hinv i b0 Hb0).
      destruct Hy as [[-> ->]|[Hji Hy]]; [lia|].
      apply elem_of_cons in Hj as [[= -> ->]|Hj]; [done|]. by eapply Hu; [|apply not_elem_of_nil|].
  - intros x. eapply view_got; try done; [by rewrite Hd|by rewrite Hd, Hn].
  - intros x. eapply pins_eq; [exact Hinv'|..].
    + intros j y Hj [E1 E2]. apply Hg in Hj. destruct Hj as [[-> ->]|[Hji Hj]].
      * rewrite <- E2, Hn, Z.eqb_refl, Hrc. f_equal. destruct Hid as [[E3 E4]|[Hz Hno]].
        -- rewrite <- (pins_slot s order i b0) by congruence. congruence.
        -- rewrite Hz. symmetry. apply pins_none. intros k z Hk [? ?]. apply (Hno k z Hk). split; congruence.
      * destruct (Z.eqb_spec x bno) as [->|Hne]; [|rewrite <- E2; symmetry; eapply pins_slot; eauto].
        exfalso. apply Hji. eapply (ci_unique _ _ Hinv' j i y b);
          [apply Hg; by right|apply Hg; by left|by rewrite E1|congruence..].
    + intros Hno. destruct (Z.eqb_spec x bno) as [->|Hne].
      * exfalso. apply (Hno i b); [apply Hg; by left|done].
      * destruct (decide (is_block x b0)) as [[E1 E2]|Hnb].
        -- rewrite <- E2, (pins_slot s order i b0) by done.
           destruct Hid as [[E3 E4]|[Hz _]]; [congruence|done].
        -- symmetry. apply pins_none. intros j y Hj Hy. destruct (decide (j = i)) as [->|Hji]; [congruence|].
           apply (Hno j y); [apply Hg; by right|done].
Qed.

(** A buffer is locked once. *)
Definition held_ok (held : list (nat * Z)) (i : nat) (bno : Z) : Prop :=
  (i, bno) ∈ held /\ forall x, (i, x) ∈ held -> x = bno.

Lemma held_ok_head held i bno : (forall x, (i, x) ∉ held) -> held_ok ((i, bno) :: held) i bno.
Proof.
  intros Hn. split; [by left|]. intros x [[=]|Hx]%elem_of_cons; [done|]. by destruct (Hn x).
Qed.

Lemma held_ok_tail held i bno j x : held_ok held i bno -> j <> i -> held_ok ((j, x) :: held) i bno.
Proof.
  intros [Hin Hone] Hne. split; [by right|]. intros y [[=]|Hy]%elem_of_cons; [done|]. by apply Hone.
Qed.

Lemma updates_same_lock s i b b' d :
  bufs s !! i = Some b -> b_next b' = b_next b -> b_prev b' = b_prev b ->
  b_dev b' = ROOTDEV -> b_dev b = ROOTDEV -> b_blockno b' = b_blockno b -> 1 <= b_refcnt b' < 2 ^ 32 ->
  (forall bno, bno <> b_blockno b -> disk_block d bno = disk_block (disk s) bno) ->
  is_Some (slocks s !! SL_buf i) ->
  updates s i b b' (set_bcache (<[i := b']> (bcache s)) (set_disk d s)).
Proof.
  intros Hb Hn Hp Hd' Hd Hbn Hr Hdk [lk Hlk].
  split; fields; [done|done|done|done|lia|lia|done|done|]. eauto.
Qed.

(** *** Changing the data of a held buffer *)

Lemma wp_cache_modify s held i bno f (Q : unit -> kstate -> Prop) :
  cache s held -> held_ok held i bno ->
  (forall s', cache s' held -> cache_step s s' -> disk s' = disk s -> dtrace s' = dtrace s ->
     (forall x, vw s' x = if x =? bno then f (vw s bno) else vw s x) ->
     (forall x, pins s' x = pins s x) -> Q tt s') ->
  wp (modify_buf i (fun b => set_b_data (f (b_data b)) b)) Q s.
Proof.
  intros Hc [Hin Hone] HQ. destruct (holds_buf [] s held i bno Hc Hin) as (order & b & nm & Hinv & Hb & [Hd Hn] & Hv & Hl & Hpins & Hvw & Hr0 & Hr). specialize (Hr (not_elem_of_nil _)).
  pose proof (proj1 (bufs_lookup s i b) Hb) as [Hbi _].
  assert (Hr' : 1 <= b_refcnt b < 2 ^ 32) by lia.
  eapply wp_modify_buf; [exact Hbi|]. set (b' := set_b_data (f (b_data b)) b).
  assert (Hup : updates s i b b' (set_bcache (<[i := b']> (bcache s)) (set_disk (disk s) s)))
    by (by apply updates_same_lock; eauto).
  replace (set_disk (disk s) s) with s in Hup by (by destruct s).
  apply HQ; [|by cache_stepped s|done|done|..].
  - eapply cache_update; try done; try (by cache_stepped s). intros _. unfold b'. fields. lia.
  - intros x. rewrite (updates_view _ _ _ _ _ _ x Hinv Hup), Hn. unfold b'. fields. rewrite Hv.
    destruct (x =? bno); [by rewrite Hvw|done].
  - intros x. rewrite (updates_pins _ _ _ _ _ _ x Hinv Hup), Hn. unfold b'. fields.
    destruct (Z.eqb_spec x bno) as [->|]; [by rewrite Hpins|done].
Qed.

(** *** [bwrite] *)

Lemma wp_cache_bwrite s held i bno (Q : unit -> kstate -> Prop) :
  cache s held -> held_ok held i bno ->
  (forall s', cache s' held -> cache_step s s' ->
     disk s' = <[bno := vw s bno]> (disk s) -> dtrace s' = (bno, vw s bno) :: dtrace s ->
     (forall x, vw s' x = vw s x) -> (forall x, pins s' x = pins s x) -> Q tt s') ->
  wp (bwrite i) Q s.
Proof.
  intros Hc [Hin Hone] HQ. destruct (holds_buf [] s held i bno Hc Hin) as (order & b & nm & Hinv & Hb & [Hd Hn] & Hv & Hl & Hpins & Hvw & Hr0 & Hr). specialize (Hr (not_elem_of_nil _)).
  apply (wp_bwrite s i b); [apply Hc|done|by exists nm|]. set (s' := disk_rw i b true s).
  assert (Hup : updates s i b b s').
  { pose proof (proj1 (bufs_lookup s i b) Hb) as [Hbi _].
    assert (E : bcache s' = <[i := b]> (bcache s)) by (rewrite list_insert_id; done).
    split; [done|done|done|done|lia|lia| |done|].
    - intros x Hx. unfold s', disk_rw, disk_block. fields. by rewrite lookup_insert_ne.
    - change (slocks s') with (slocks s). rewrite Hl. eauto. }
  assert (Hst : cache_step s s') by (by cache_stepped s).
  apply HQ; [eapply cache_update; try done; intros _; lia|done|..].
  - unfold s', disk_rw. fields. by rewrite Hn, Hvw.
  - unfold s', disk_rw. fields. by rewrite Hn, Hvw.
  - intros x. rewrite (updates_view _ _ _ _ _ _ x Hinv Hup), Hn, Hv.
    destruct (Z.eqb_spec x bno) as [->|]; [by rewrite Hvw|done].
  - intros x. rewrite (updates_pins _ _ _ _ _ _ x Hinv Hup), Hn.
    destruct (Z.eqb_spec x bno) as [->|]; [by rewrite Hpins|done].
Qed.

(** *** [bpin], [bunpin] *)

Lemma cache_pin s held i bno b (n : Z) (Q : unit -> kstate -> Prop) :
  cache s held -> held_ok held i bno -> bufs s !! i = Some b -> 1 <= n < 2 ^ 32 ->
  (forall s', cache s' held -> cache_step s s' -> disk s' = disk s -> dtrace s' = dtrace s ->
     (forall x, vw s' x = vw s x) ->
     (forall x, pins s' x = if x =? bno then n else pins s x) -> Q tt s') ->
  Q tt (set_bcache (<[i := set_b_refcnt n b]> (bcache s)) s).
Proof.
  intros Hc [Hin Hone] Hb Hr' HQ. destruct (holds_buf [] s held i bno Hc Hin)
    as (order & b2 & nm & Hinv & Hb2 & [Hd Hn] & Hv & Hl & Hpins & Hvw & Hr0 & Hr). specialize (Hr (not_elem_of_nil _)).
  assert (b2 = b) as -> by congruence. set (b' := set_b_refcnt n b).
  assert (Hup : updates s i b b' (set_bcache (<[i := b']> (bcache s)) (set_disk (disk s) s)))
    by (by apply updates_same_lock; eauto).
  replace (set_disk (disk s) s) with s in Hup by (by destruct s).
  apply HQ; [|by cache_stepped s|done|done|..].
  - eapply cache_update; try done; try (by cache_stepped s). intros _. unfold b'. fields. lia.
  - intros x. rewrite (updates_view _ _ _ _ _ _ x Hinv Hup), Hn. unfold b'. fields. rewrite Hv.
    destruct (Z.eqb_spec x bno) as [->|]; [by rewrite Hvw|done].
  - intros x. rewrite (updates_pins _ _ _ _ _ _ x Hinv Hup), Hn. done.
Qed.

Lemma wp_cache_bpin s held i bno (Q : unit -> kstate -> Prop) :
  cache s held -> held_ok held i bno -> pins s bno + 1 < 2 ^ 32 ->
  (forall s', cache s' held -> cache_step s s' -> disk s' = disk s -> dtrace s' = dtrace s ->
     (forall x, vw s' x = vw s x) ->
     (forall x, pins s' x = if x =? bno then pins s bno + 1 else pins s x) -> Q tt s') ->
  wp (bpin i) Q s.
Proof.
  intros Hc Hh Hmax HQ. destruct (holds_buf [] s held i bno Hc (proj1 Hh))
    as (order & b & nm & Hinv & Hb & _ & _ & _ & Hpins & _ & Hr0 & Hr). specialize (Hr (not_elem_of_nil _)).
  eapply wp_bpin; [apply Hc|apply L_bcache_free, Hc|done|]. rewrite u32_id, <- Hpins by lia.
  eapply cache_pin; [done|done|done|lia|done].
Qed.

Lemma wp_cache_bunpin s held i bno (Q : unit -> kstate -> Prop) :
  cache s held -> held_ok held i bno -> 2 <= pins s bno ->
  (forall s', cache s' held -> cache_step s s' -> disk s' = disk s -> dtrace s' = dtrace s ->
     (forall x, vw s' x = vw s x) ->
     (forall x, pins s' x = if x =? bno then pins s bno - 1 else pins s x) -> Q tt s') ->
  wp (bunpin i) Q s.
Proof.
  intros Hc Hh Hmin HQ. destruct (holds_buf [] s held i bno Hc (proj1 Hh))
    as (order & b & nm & Hinv & Hb & _ & _ & _ & Hpins & _ & Hr0 & Hr). specialize (Hr (not_elem_of_nil _)).
  eapply wp_bunpin; [apply Hc|apply L_bcache_free, Hc|done|]. rewrite u32_id, <- Hpins by lia.
  eapply cache_pin; [done|done|done|lia|done].
Qed.

(** [bunpin] that drops the last reference of a buffer that is still locked. *)
Lemma wp_cache_bunpin_last s held i bno (Q : unit -> kstate -> Prop) :
  cache s held -> held_ok held i bno -> pins s bno = 1 -> vw s bno = disk_block (disk s) bno ->
  (forall s', cache_ex [i] s' held -> cache_step s s' -> disk s' = disk s -> dtrace s' = dtrace s ->
     (forall x, vw s' x = vw s x) ->
     (forall x, pins s' x = if x =? bno then 0 else pins s x) -> Q tt s') ->
  wp (bunpin i) Q s.
Proof.
  intros Hc [Hin Hone] Hone' Hclean HQ. destruct (holds_buf [] s held i bno Hc Hin)
    as (order & b & nm & Hinv & Hb & [Hd Hn] & Hv & Hl & Hpins & Hvw & Hr0 & _).
  eapply wp_bunpin; [apply Hc|apply L_bcache_free, Hc|done|]. replace (b_refcnt b - 1) with 0 by lia.
  change (u32 0) with 0. set (b' := set_b_refcnt 0 b).
  set (s' := set_bcache (<[i := b']> (bcache s)) s).
  assert (Hup : updates s i b b' s').
  { split; [done|done|done|done|done| |done|done|by exists (mk_sleeplock 1 nm (cur_pid s))].
    intros _ _. unfold b', s'. fields. by rewrite <- Hvw, Hclean, Hn. }
  apply HQ; [|by cache_stepped s|done|done|..].
  - eapply cache_update; try done; try (by cache_stepped s). intros Hex. exfalso. apply Hex. by left.
  - intros x. rewrite (updates_view _ _ _ _ _ _ x Hinv Hup), Hn. unfold b'. fields. rewrite Hv.
    destruct (Z.eqb_spec x bno) as [->|]; [by rewrite Hvw|done].
  - intros x. rewrite (updates_pins _ _ _ _ _ _ x Hinv Hup), Hn. done.
Qed.

(** *** [brelse] *)

(** Releasing the lock of [i] and changing its reference count, in place. *)
Lemma cache_unlock ex s held i bno b n nm s1 :
  cache_ex ex s ((i, bno) :: held) -> (forall x, (i, x) ∉ held) ->
  updates s i b (set_b_refcnt n b) s1 -> cache_step s s1 ->
  slocks s1 = <[SL_buf i := mk_sleeplock 0 nm 0]> (slocks s) ->
  cache_ex (filter (fun j => j <> i) ex) s1 held.
Proof.
  intros [Hc [order Hinv] Hh Hf Hu] Hni Hup Hst Hl.
  pose proof (fun j x => updates_lookup s i b _ s1 j x Hup) as Hg. pose proof (cache_step_pid _ _ Hst) as Hpid.
  assert (Hne : forall j x, (j, x) ∈ held -> j <> i) by (intros j x Hx ->; by apply (Hni x)).
  split; [by eapply cache_step_calm|exists order; by eapply updates_inv|..].
  - intros j x Hj. destruct (Hh j x) as (y & Hy & Hyb & Hyv & nm' & Hyl); [by right|].
    pose proof (Hne j x Hj) as Hji.
    exists y. split; [apply Hg; by right|]. split; [done|]. split; [done|].
    exists nm'. by rewrite Hl, Hpid, lookup_insert_ne by congruence.
  - intros j Hj Hnj. rewrite Hl. destruct (decide (j = i)) as [->|Hji].
    + eexists. by rewrite lookup_insert_eq.
    + rewrite lookup_insert_ne by congruence. apply Hf; [done|].
      intros x [[= -> _]|Hx]%elem_of_cons; [done|]. by apply (Hnj x).
  - intros j x y Hj Hex Hy. pose proof (Hne j x Hj) as Hji. apply Hg in Hy as [[-> _]|[_ Hy]]; [done|].
    apply (Hu j x y); [by right| |done]. intros Hj'. apply Hex. by apply list_elem_of_filter.
Qed.

Lemma cache_reorder ex s held bs order : cache_ex ex s held -> erase <$> bs = erase <$> bcache s ->
  ring bs order -> cache_ex ex (set_bcache bs s) held.
Proof.
  intros [Hc [order0 Hinv] Hh Hf Hu] He Hr. split; [|exists order; by eapply reorder_inv|..].
  - by eapply calm_ext; [..|exact Hc].
  - intros j x Hj. destruct (Hh j x Hj) as (y & Hy & [Hd Hn] & Hyv & nm' & Hyl).
    destruct (reorder_lookup' s bs He j y Hy) as (y' & Hy' & (E1 & E2 & E3 & _)%erase_fields).
    exists y'. split; [done|]. split; [split; congruence|]. split; [congruence|]. by exists nm'.
  - done.
  - intros j x y Hj Hex Hy. destruct (reorder_lookup s bs He j y Hy) as (y' & Hy' & (_ & _ & _ & -> & _)%erase_fields).
    by apply (Hu j x).
Qed.

(** What [brelse] does when the count becomes [n]. *)
Lemma wp_cache_brelse_gen ex s held i bno n (Q : unit -> kstate -> Prop) :
  cache_ex ex s ((i, bno) :: held) -> (forall x, (i, x) ∉ held) -> n = u32 (pins s bno - 1) ->
  (n = 0 -> vw s bno = disk_block (disk s) bno) ->
  (forall s', cache_ex (filter (fun j => j <> i) ex) s' held -> cache_step s s' ->
     disk s' = disk s -> dtrace s' = dtrace s -> (forall x, vw s' x = vw s x) ->
     (forall x, pins s' x = if x =? bno then n else pins s x) -> Q tt s') ->
  wp (brelse i) Q s.
Proof.
  intros Hc Hni En Hclean HQ. destruct (holds_buf ex s _ i bno Hc ltac:(left))
    as (order & b & nm & Hinv & Hb & [Hd Hn] & Hv & Hl & Hpins & Hvw & Hr & _).
  pose proof (proj1 (bufs_lookup s i b) Hb) as [Hbi Hi]. rewrite Hpins in En.
  eapply (wp_brelse s order i b nm); [apply Hc|apply Hinv|done|done|].
  unfold released. cbv zeta. rewrite <- En. pose proof (u32_range (b_refcnt b - 1)) as Hrn. rewrite <- En in Hrn.
  set (b1 := set_b_refcnt n b).
  set (s1 := set_slocks (<[SL_buf i := mk_sleeplock 0 nm 0]> (slocks s))
               (set_bcache (<[i := b1]> (bcache s)) s)).
  assert (Hup : updates s i b b1 s1).
  { unfold s1, b1. split; fields; [done|done|done|done|done| |done|..].
    - intros _ Hz. rewrite <- Hvw, Hn. by apply Hclean.
    - intros j Hji. by rewrite lookup_insert_ne by congruence.
    - rewrite lookup_insert_eq. eauto. }
  assert (Hst : cache_step s s1) by (by cache_stepped s).
  assert (Hc1 : cache_ex (filter (fun j => j <> i) ex) s1 held) by (by eapply cache_unlock).
  pose proof (updates_inv _ _ _ _ _ _ Hinv Hup) as Hinv1.
  assert (Hvw1 : forall x, vw s1 x = vw s x).
  { intros x. rewrite (updates_view _ _ _ _ _ _ x Hinv Hup), Hn. unfold b1. fields. rewrite Hv.
    destruct (Z.eqb_spec x bno) as [->|]; [by rewrite Hvw|done]. }
  assert (Hp1 : forall x, pins s1 x = if x =? bno then n else pins s x).
  { intros x. rewrite (updates_pins _ _ _ _ _ _ x Hinv Hup), Hn. done. }
  destruct (Z.eqb_spec n 0) as [Hz|Hz]; [|by apply HQ].
  assert (Hin : i ∈ order) by (by apply (ring_all _ _ (ci_ring _ _ Hinv))).
  apply list_elem_of_split in Hin as (o1 & o2 & ->).
  pose proof (to_front_ring _ _ _ _ (ci_ring _ _ Hinv1)) as Hring.
  pose proof (to_front_erase i (bcache s1)) as He.
  change (set_slocks _ (set_bcache (to_front i _) s)) with (set_bcache (to_front i (bcache s1)) s1).
  apply HQ; [by eapply cache_reorder|by cache_stepped s|done|done|..].
  - intros x. by erewrite reorder_view.
  - intros x. by erewrite reorder_pins.
Qed.

Lemma wp_cache_brelse s held i bno (Q : unit -> kstate -> Prop) :
  cache s ((i, bno) :: held) -> (forall x, (i, x) ∉ held) ->
  2 <= pins s bno \/ vw s bno = disk_block (disk s) bno ->
  (forall s', cache s' held -> cache_step s s' -> disk s' = disk s -> dtrace s' = dtrace s ->
     (forall x, vw s' x = vw s x) ->
     (forall x, pins s' x = if x =? bno then pins s bno - 1 else pins s x) -> Q tt s') ->
  wp (brelse i) Q s.
Proof.
  intros Hc Hni Hclean HQ. destruct (holds_buf [] s _ i bno Hc ltac:(left))
    as (order & b & nm & Hinv & Hb & _ & _ & _ & Hpins & _ & Hr0 & Hr). specialize (Hr (not_elem_of_nil _)).
  eapply (wp_cache_brelse_gen [] s held i bno (pins s bno - 1)); [done|done| | |done].
  - rewrite u32_id; [done|]. rewrite Hpins. lia.
  - intros Hz. destruct Hclean as [?|]; [lia|done].
Qed.
End Client.

(** ** Initialization *)

Section Binit.
Context `{World kstate}.

Lemma NoDup_rev_seq n : NoDup (reverse (seq 0 n)).
Proof. rewrite reverse_Permutation. apply NoDup_seq. Qed.

(** The pointer updates of one iteration of [binit]. *)
Lemma binit_push bs o b : length bs = S HEAD -> (b < HEAD)%nat -> NoDup (HEAD :: b :: o) ->
  Forall (fun i => (i < HEAD)%nat) o -> chain (bnx bs) (bpv bs) HEAD o HEAD ->
  let bs := alter (set_b_next (bnx bs HEAD)) b bs in
  let bs := alter (set_b_prev HEAD) b bs in
  let bs := alter (set_b_prev b) (bnx bs HEAD) bs in
  let bs := alter (set_b_next b) HEAD bs in
  chain (bnx bs) (bpv bs) HEAD (b :: o) HEAD.
Proof.
  intros Hl Hb Hnd Ho Hc. cbv zeta. set (bs2 := alter (set_b_prev HEAD) b _).
  assert (Hn : bnx bs2 HEAD = bnx bs HEAD).
  { unfold bs2. rewrite bnx_alter_prev, bnx_alter, upd_other by lia. done. }
  assert (Hr : (bnx bs HEAD < length bs)%nat).
  { destruct o as [|x o]; cbn [chain] in Hc; [destruct Hc as [-> _]; lia|].
    destruct Hc as (-> & _). apply Forall_cons in Ho as [? _]. lia. }
  eapply chain_ext; [..|apply (chain_push _ _ _ _ _ Hnd Hc)]; intros j _.
  - rewrite bnx_alter by (unfold bs2; rewrite !length_alter; lia). destruct (decide (j = HEAD)) as [->|]; [by rewrite !upd_same|].
    rewrite !(upd_other _ HEAD) by done. unfold bs2. rewrite !bnx_alter_prev, bnx_alter by lia. done.
  - rewrite bpv_alter_next, Hn, bpv_alter by (unfold bs2; rewrite !length_alter; lia).
    destruct (decide (j = bnx bs HEAD)) as [->|]; [by rewrite !upd_same|].
    rewrite !(upd_other _ (bnx bs HEAD)) by done. unfold bs2. rewrite bpv_alter by (rewrite length_alter; lia).
    destruct (decide (j = b)) as [->|]; [by rewrite !upd_same|]. by rewrite !(upd_other _ b), bpv_alter_next by done.
Qed.

(** The state of the loop of [binit] when [k] buffers are linked. *)
Record binit_inv (s : kstate) (k : nat) (s' : kstate) : Prop := {
  bi_chain : chain (bnx (bcache s')) (bpv (bcache s')) HEAD (reverse (seq 0 k)) HEAD;
  bi_erase : erase <$> bcache s' = erase <$> bcache s;
  bi_locks : forall i, (i < k)%nat -> slocks s' !! SL_buf i = Some (mk_sleeplock 0 "buffer" 0) /\
    lock_free (L_sleep (SL_buf i)) s';
  bi_bcache : lock_free L_bcache s'
}.

Lemma erase_length bs bs' : erase <$> bs = erase <$> bs' -> length bs = length bs'.
Proof. intros E. by rewrite <- (length_fmap erase bs), E, length_fmap. Qed.

Lemma wp_binit_body s k s' : length (bcache s) = S HEAD -> (k < HEAD)%nat -> binit_inv s k s' ->
  wp (let* n := get_buf HEAD b_next in
      modify_buf k (set_b_next n) ;;;
      modify_buf k (set_b_prev HEAD) ;;;
      initsleeplock (SL_buf k) "buffer" ;;;
      let* n := get_buf HEAD b_next in
      modify_buf n (set_b_prev k) ;;;
      modify_buf HEAD (set_b_next k)) (fun _ s'' => binit_inv s (S k) s'') s'.
Proof.
  intros Hl Hk [Hc He Hls Hb]. pose proof (erase_length _ _ He) as Hl'.
  assert (Hlen : length (bcache s') = S HEAD) by congruence.
  assert (Ho : Forall (fun i => (i < HEAD)%nat) (reverse (seq 0 k))).
  { apply Forall_reverse, Forall_forall. intros i Hi%elem_of_seq. lia. }
  assert (Hnd : NoDup (HEAD :: k :: reverse (seq 0 k))).
  { repeat apply NoDup_cons_2; [..|apply NoDup_rev_seq]; rewrite ?elem_of_cons, elem_of_reverse, elem_of_seq; lia. }
  pose proof (binit_push _ _ k Hlen Hk Hnd Ho Hc) as Hc'. cbv zeta in Hc'.
  wstep. apply wp_get_next; [lia|]. wstep. apply wp_modify_alter; [lia|]. wstep. fields.
  apply wp_modify_alter; [fields; rewrite length_alter; lia|]. wstep. fields.
  unfold initsleeplock, initlock, put_lock, put_slock. wsteps. fields.
  apply wp_get_next; [fields; rewrite !length_alter; lia|]. wstep. fields.
  set (bs2 := alter (set_b_prev HEAD) k _) in *.
  apply wp_modify_alter.
  { fields. unfold bs2 at 2. rewrite !length_alter, Hlen. unfold bs2. rewrite bnx_alter_prev, bnx_alter, upd_other by lia.
    clear Hc'. destruct (reverse (seq 0 k)) as [|x o]; cbn [chain] in Hc; [destruct Hc as [-> _]; lia|].
    destruct Hc as (-> & _). apply Forall_cons in Ho as [? _]. lia. }
  fields. apply wp_modify_alter; [fields; unfold bs2; rewrite !length_alter; lia|]. fields.
  split; fields.
  - rewrite seq_S, reverse_app. exact Hc'.
  - unfold bs2. by rewrite !erase_alter.
  - intros i Hi. destruct (decide (i = k)) as [->|Hne].
    + split; [apply lookup_insert_eq|]. exists "sleep lock"%string. fields. apply lookup_insert_eq.
    + destruct (Hls i) as [H1 [nm H2]]; [lia|]. split; [by rewrite lookup_insert_ne by congruence|].
      exists nm. fields. by rewrite lookup_insert_ne by congruence.
  - destruct Hb as [nm Hb]. exists nm. fields. by rewrite lookup_insert_ne.
Qed.

(** [binit] links all buffers into the LRU list (the last one first), leaves
    the rest of each buffer alone and initializes every lock of the cache. *)
Theorem binit_spec (s : kstate) :
  length (bcache s) = S HEAD ->
  exists s', binit s = Ok tt s' /\ ring (bcache s') (reverse (seq 0 HEAD)) /\
    erase <$> bcache s' = erase <$> bcache s /\ lock_free L_bcache s' /\
    forall i, (i < HEAD)%nat -> slocks s' !! SL_buf i = Some (mk_sleeplock 0 "buffer" 0) /\
      lock_free (L_sleep (SL_buf i)) s'.
Proof.
  intros Hl. apply wp_run_unit. unfold binit, initlock, put_lock. wsteps.
  apply wp_modify_alter; [fields; lia|]. wstep. fields. apply wp_modify_alter; [fields; rewrite length_alter; lia|]. fields.
  eapply wp_mono; [apply (wp_for_all _ _ (fun rest s' => exists k, rest = seq k (HEAD - k) /\ (k <= HEAD)%nat /\ binit_inv s k s'))|].
  - exists 0%nat. split; [done|]. split; [lia|]. split; fields.
    + change (reverse (seq 0 0)) with (@nil nat). cbn [chain]. rewrite bnx_alter, upd_same by (rewrite length_alter; lia).
      rewrite bpv_alter_next, bpv_alter, upd_same by lia. done.
    + by rewrite !erase_alter.
    + lia.
    + exists "bcache"%string. fields. apply lookup_insert_eq.
  - intros b rest s' (k & Er & Hk & Hi). destruct (decide (k = HEAD)) as [->|]; [done|].
    replace (HEAD - k)%nat with (S (HEAD - S k)) in Er by lia. cbn [seq] in Er. injection Er as -> ->.
    eapply wp_mono; [apply (wp_binit_body s k s'); [done|lia|done]|]. intros [] s'' Hi'. exists (S k). split; [done|]. split; [lia|done].
  - intros [] s' (k & Er & Hk & [Hc He Hls Hb]). assert (k = HEAD) as -> by (destruct (HEAD - k)%nat eqn:E; [lia|done]).
    split; [|done]. split; [by rewrite (erase_length _ _ He)|apply NoDup_rev_seq| |done].
    intros i. rewrite elem_of_reverse, elem_of_seq. lia.
Qed.
End Binit.

(** ** Properties of the cache *)

Section Properties.
Context `{World kstate} `{BlockDev}.

(** C35: [bread] returns a locked buffer with the contents of the block: the cached
    copy if there is one, what is on disk otherwise.  It takes a reference, and
    changes neither the disk, nor the contents seen of any block, nor the
    references of any other block, although it may have recycled a buffer. *)
Theorem bread_spec (s : kstate) (held : list (nat * Z)) (bno : Z) :
  cache s held -> (forall i, (i, bno) ∉ held) -> pins s bno + 1 < 2 ^ 32 ->
  (pins s bno <> 0 \/ exists i b, bufs s !! i = Some b /\ b_refcnt b = 0) ->
  exists i s' b, bread ROOTDEV bno s = Ok i s' /\ cache s' ((i, bno) :: held) /\
    bufs s' !! i = Some b /\ is_block bno b /\ b_valid b = true /\ b_data b = vw s bno /\
    disk s' = disk s /\ (forall x, vw s' x = vw s x) /\
    (forall x, pins s' x = if x =? bno then pins s bno + 1 else pins s x).
Proof.
  intros Hc Hn Hmax Hav.
  destruct (wp_run (bread ROOTDEV bno) (fun i s' => cache s' ((i, bno) :: held) /\ disk s' = disk s /\
     (forall x, vw s' x = vw s x) /\
     (forall x, pins s' x = if x =? bno then pins s bno + 1 else pins s x)) s) as (i & s' & Hr & Hc' & D & V & P).
  { apply (wp_cache_bread s held bno); eauto 10. }
  destruct (holds_buf [] s' _ i bno Hc' ltac:(left)) as (order & b & nm & _ & Hb & Hk & Hv & _ & _ & Hvw & _).
  exists i, s', b. rewrite V in Hvw. auto 10.
Qed.

(** When the last reference is dropped, [brelse] moves the buffer to the front
    of the LRU list: the doubly linked list then runs through the buffer first and
    the others in their old order, and no buffer's contents have changed. *)
Theorem brelse_lru (s : kstate) (o1 : list nat) (i : nat) (o2 : list nat) (b : buf) (nm : string) :
  calm s -> ring (bcache s) (o1 ++ i :: o2) -> bufs s !! i = Some b -> b_refcnt b = 1 ->
  slocks s !! SL_buf i = Some (mk_sleeplock 1 nm (cur_pid s)) ->
  exists s', brelse i s = Ok tt s' /\ ring (bcache s') (i :: o1 ++ o2) /\
    slocks s' !! SL_buf i = Some (mk_sleeplock 0 nm 0) /\
    erase <$> bcache s' = erase <$> <[i := set_b_refcnt 0 b]> (bcache s).
Proof.
  intros Hs Hr Hb H1 Hl. apply wp_run_unit. eapply wp_brelse; [done..|].
  pose proof (proj1 (bufs_lookup s i b) Hb) as [Hbi _].
  unfold released. rewrite H1. change (u32 (1 - 1)) with 0. cbn [Z.eqb]. fields.
  split; [|split; [apply lookup_insert_eq|apply to_front_erase]].
  apply to_front_ring. by eapply lru_ring_insert.
Qed.

(** [bget] of a block that is not cached recycles the least recently used
    buffer without references: the last one of the LRU list that has none. *)
Theorem bget_recycles_lru (s : kstate) (order : list nat) (dev bno : Z) :
  calm s -> cache_inv s order ->
  (forall j b, bufs s !! j = Some b -> ~ (b_dev b = dev /\ b_blockno b = bno)) ->
  (exists i b, bufs s !! i = Some b /\ b_refcnt b = 0) ->
  (forall i b, bufs s !! i = Some b -> b_refcnt b = 0 ->
     exists lk, slocks s !! SL_buf i = Some lk /\ sl_locked lk = 0) ->
  exists l1 i l2 b b' s', bget dev bno s = Ok i s' /\ order = l1 ++ i :: l2 /\
    bufs s !! i = Some b /\ b_refcnt b = 0 /\
    (forall j c, j ∈ l2 -> bufs s !! j = Some c -> b_refcnt c <> 0) /\
    bufs s' !! i = Some b' /\ b_dev b' = dev /\ b_blockno b' = bno /\ b_refcnt b' = 1 /\ b_valid b' = false.
Proof.
  intros Hs Hinv Hmiss Hfree Hidle.
  destruct (refcnt_victim s order Hinv Hfree) as (l1 & i & l2 & b & Ho & Hb & Hz & Hbef).
  destruct (Hidle i b Hb Hz) as ([lkd nm pd] & Hlk & Hul). simpl in Hul. subst lkd.
  set (b' := set_b_refcnt 1 (set_b_valid false (set_b_blockno bno (set_b_dev dev b)))).
  destruct (wp_run (bget dev bno) (fun j s' => j = i /\ s' = got i b' nm s) s) as (j & s' & Hr & -> & ->).
  { by eapply (wp_bget_miss s order dev bno l1 i l2 b nm pd). }
  exists (reverse l2), i, (reverse l1), b, b', (got i b' nm s).
  split; [done|]. split; [by rewrite <- (reverse_involutive order), Ho, reverse_app, reverse_cons, <- app_assoc|].
  split; [done|]. split; [done|]. split; [intros j c Hj; exact (Hbef j c (proj1 (elem_of_reverse _ _) Hj))|].
  split; [|done]. apply bufs_lookup in Hb as Hb'. destruct Hb' as [_ Hi]. rewrite bufs_got by done.
  apply list_lookup_insert_eq. by eapply lookup_lt_Some.
Qed.
End Properties.

(** ** A concrete cache

    Thirty unused buffers in a ring, and the process in slot 0 running. *)

(** A device that completes each request at once. *)
Definition sync_rw (i : nat) (w : bool) : K unit := fun s =>
  match bcache s !! i with
  | Some b => Ok tt (disk_rw i b w s)
  | None => Fault "dereference" s
  end.
#[export] Program Instance sync_dev : BlockDev := {| virtio_disk_rw := sync_rw |}.
Next Obligation. intros s i b w _ _ Hb. unfold sync_rw. by rewrite Hb. Qed.

(** The first buffers hold the blocks [c], given by number, references and contents. *)
Definition ex_buf (c : list (Z * Z * list Z)) (i : nat) : buf :=
  let prev := if decide (i = 0)%nat then HEAD else (i - 1)%nat in
  let next := if decide (i = HEAD) then 0%nat else S i in
  match c !! i with
  | Some (bno, refs, d) => mk_buf true false ROOTDEV bno refs prev next d
  | None => mk_buf false false 0 0 0 prev next []
  end.

Definition ex_cached (c : list (Z * Z * list Z)) (d : gmap Z (list Z)) (L : log_t) : kstate :=
  set_klog L (set_disk d
    (set_bcache (ex_buf c <$> seq 0 (S HEAD))
      (set_cpus (<[0%nat := set_c_proc (Some 0%nat) zero_cpu]> (cpus zero_kstate)) zero_kstate))).
Abbreviation ex_fs := (ex_cached []).

Lemma zero_locks l : l ∈ global_locks -> lock_free l zero_kstate.
Proof.
  intros Hl. exists ""%string. unfold zero_kstate. cbn [locks].
  apply elem_of_list_to_map_1'.
  - intros y Hy. by apply list_elem_of_fmap in Hy as (x & [= -> ->] & _).
  - apply list_elem_of_fmap. by exists l.
Qed.

Section Example.
Context (c : list (Z * Z * list Z)) (d : gmap Z (list Z)) (L : log_t).
Hypothesis c_nodup : NoDup (c.*1).*1.
Hypothesis c_refs : forall i bno r v, c !! i = Some (bno, r, v) -> 0 < r < 2 ^ 32.

Lemma ex_calm : calm (ex_cached c d L).
Proof.
  split.
  - exists (set_c_proc (Some 0%nat) zero_cpu). split; [reflexivity|]. repeat split; done.
  - intros l Hl. exact (zero_locks l Hl).
  - reflexivity.
  - by exists zero_proc.
  - unfold ex_cached. fields. apply Forall_replicate. done.
Qed.

Lemma ex_bufs i b : bufs (ex_cached c d L) !! i = Some b -> b = ex_buf c i /\ (i < HEAD)%nat.
Proof.
  rewrite bufs_lookup. unfold ex_cached. fields. rewrite list_lookup_fmap. intros [Hb Hi].
  rewrite lookup_seq_lt in Hb by lia. simpl in Hb. by simplify_eq.
Qed.

Lemma ex_bufs_in i bno r v : c !! i = Some (bno, r, v) -> (i < HEAD)%nat ->
  bufs (ex_cached c d L) !! i = Some (ex_buf c i).
Proof.
  intros _ Hi. rewrite bufs_lookup. split; [|done]. unfold ex_cached. fields.
  rewrite list_lookup_fmap, lookup_seq_lt by lia. done.
Qed.

Lemma ex_links (P : buf -> nat) i (HP : forall v v' x x' y y' r r' p n w w',
    P (mk_buf v false x y r p n w) = P (mk_buf v' false x' y' r' p n w')) :
  P (ex_buf c i) = P (ex_buf [] i).
Proof. unfold ex_buf. rewrite lookup_nil. destruct (c !! i) as [[[? ?] ?]|]; apply HP. Qed.

Lemma ex_ring : ring (ex_buf c <$> seq 0 (S HEAD)) (seq 0 HEAD).
Proof.
  split.
  - reflexivity.
  - apply NoDup_seq.
  - intros i. rewrite elem_of_seq. lia.
  - assert (H0 : chain (bnx (ex_buf [] <$> seq 0 (S HEAD))) (bpv (ex_buf [] <$> seq 0 (S HEAD))) HEAD (seq 0 HEAD) HEAD)
      by (vm_compute; repeat split).
    eapply chain_ext; [..|exact H0]; intros j _; unfold bnx, bpv; rewrite !list_lookup_fmap;
      destruct (seq 0 (S HEAD) !! j) as [k|]; [|done| |done]; cbn [fmap option_fmap option_map].
    + by apply (ex_links b_next).
    + by apply (ex_links b_prev).
Qed.

Lemma ex_inv : cache_inv (ex_cached c d L) (seq 0 HEAD).
Proof.
  split.
  - exact ex_ring.
  - intros i j b b' Hb Hb' Hd Hdd Hbn. apply ex_bufs in Hb as [-> _], Hb' as [-> _]. unfold ex_buf in *.
    destruct (c !! i) as [[[x r] v]|] eqn:Ei; [|by destruct Hd].
    destruct (c !! j) as [[[x' r'] v']|] eqn:Ej; [|done]. simpl in Hbn. subst x'.
    eapply (proj1 (NoDup_alt _) c_nodup); rewrite !list_lookup_fmap, ?Ei, ?Ej; done.
  - intros i b Hb Hv Hz. apply ex_bufs in Hb as [-> _]. unfold ex_buf in *.
    destruct (c !! i) as [[[x r] v]|] eqn:Ei; [|done]. simpl in Hz. apply c_refs in Ei. lia.
  - intros i b Hb. apply ex_bufs in Hb as [_ Hi]. exists (mk_sleeplock 0 "" 0).
    change HEAD with 30%nat in Hi. do 30 (destruct i as [|i]; [reflexivity|]). lia.
  - intros i b Hb. apply ex_bufs in Hb as [-> _]. unfold ex_buf.
    destruct (c !! i) as [[[x r] v]|] eqn:Ei; [|done]. apply c_refs in Ei. simpl. lia.
  - intros i b Hb Hr. apply ex_bufs in Hb as [-> _]. unfold ex_buf in *.
    destruct (c !! i) as [[[x r] v]|] eqn:Ei; [done|]. by destruct Hr.
Qed.

Lemma ex_unlocked i : (i < HEAD)%nat -> slocks (ex_cached c d L) !! SL_buf i = Some (mk_sleeplock 0 "" 0).
Proof. intros Hi. change HEAD with 30%nat in Hi. do 30 (destruct i as [|i]; [reflexivity|]). lia. Qed.

Lemma ex_cache : cache (ex_cached c d L) [].
Proof.
  split.
  - apply ex_calm.
  - exists (seq 0 HEAD). apply ex_inv.
  - intros i bno Hin. by apply not_elem_of_nil in Hin.
  - intros i Hi _. exists (mk_sleeplock 0 "" 0). split; [by apply ex_unlocked|done].
  - intros i bno b Hin. by apply not_elem_of_nil in Hin.
Qed.

Lemma ex_pins_out x : x ∉ (c.*1).*1 -> pins (ex_cached c d L) x = 0.
Proof.
  intros Hx. apply pins_none. intros i b Hb [Hd Hn]. apply ex_bufs in Hb as [-> _]. unfold ex_buf in *.
  destruct (c !! i) as [[[y r] v]|] eqn:Ei; [|done]. simpl in Hn. subst y. apply Hx.
  apply (list_elem_of_lookup_2 _ i). by rewrite !list_lookup_fmap, Ei.
Qed.

Lemma ex_pins i x r v : c !! i = Some (x, r, v) -> (i < HEAD)%nat -> pins (ex_cached c d L) x = r.
Proof.
  intros Ei Hi. pose proof (ex_bufs_in _ _ _ _ Ei Hi) as Hb.
  assert (Eb : ex_buf c i = mk_buf true false ROOTDEV x r (b_prev (ex_buf c i)) (b_next (ex_buf c i)) v)
    by (unfold ex_buf; by rewrite Ei).
  pose proof (pins_slot _ _ _ _ ex_inv Hb) as E. rewrite Eb in E. by apply E.
Qed.

Lemma ex_view_out x : x ∉ (c.*1).*1 -> vw (ex_cached c d L) x = disk_block d x.
Proof.
  intros Hx. apply view_none. intros i b Hb (Hd & Hn & _). apply ex_bufs in Hb as [-> _]. unfold ex_buf in *.
  destruct (c !! i) as [[[y r] v]|] eqn:Ei; [|done]. simpl in Hn. subst y. apply Hx.
  apply (list_elem_of_lookup_2 _ i). by rewrite !list_lookup_fmap, Ei.
Qed.
End Example.

Lemma ex_free d L : exists i b, bufs (ex_fs d L) !! i = Some b /\ b_refcnt b = 0.
Proof. exists 0%nat, (ex_buf [] 0). done. Qed.

Lemma ex_fs_cache d L : cache (ex_fs d L) [].
Proof. apply ex_cache; [constructor|done]. Qed.

Lemma bread_spec_witness :
  exists i s' b, bread (H := idle_world) (H0 := sync_dev) ROOTDEV 7 (ex_fs ∅ zero_log) = Ok i s' /\
    bufs s' !! i = Some b /\ b_data b = vw (ex_fs ∅ zero_log) 7.
Proof.
  destruct (bread_spec (H := idle_world) (H0 := sync_dev) (ex_fs ∅ zero_log) [] 7) as (i & s' & b & Hr & _ & Hb & _ & _ & Hd & _).
  - apply ex_fs_cache.
  - intros i Hi. by apply not_elem_of_nil in Hi.
  - rewrite ex_pins_out by apply not_elem_of_nil. lia.
  - right. apply ex_free.
  - exists i, s', b. split; [exact Hr|]. split; [exact Hb|exact Hd].
Defined.

Lemma bget_recycles_lru_witness :
  exists i s', bget (H := idle_world) ROOTDEV 7 (ex_fs ∅ zero_log) = Ok i s'.
Proof.
  destruct (bget_recycles_lru (H := idle_world) (ex_fs ∅ zero_log) (seq 0 HEAD) ROOTDEV 7)
    as (l1 & i & l2 & b & b' & s' & Hr & _).
  - apply ex_calm.
  - apply ex_inv; [constructor|done].
  - intros j b Hb. apply ex_bufs in Hb as [-> _]. intros [Hd _]. discriminate.
  - apply ex_free.
  - intros i b Hb _. apply ex_bufs in Hb as [_ Hi]. exists (mk_sleeplock 0 "" 0).
    split; [by apply ex_unlocked|reflexivity].
  - exists i, s'. exact Hr.
Defined.

(** The running process holds buffer 3 with one reference. *)
Definition ex_held : kstate :=
  set_slocks (<[SL_buf 3 := mk_sleeplock 1 "" 0]> (slocks (ex_fs ∅ zero_log)))
    (set_bcache (<[3%nat := set_b_refcnt 1 (ex_buf [] 3)]> (bcache (ex_fs ∅ zero_log))) (ex_fs ∅ zero_log)).

Lemma brelse_lru_witness :
  exists s', brelse (H := idle_world) 3 ex_held = Ok tt s' /\
    ring (bcache s') (3%nat :: seq 0 3 ++ seq 4 26).
Proof.
  destruct (brelse_lru (H := idle_world) ex_held (seq 0 3) 3 (seq 4 26) (set_b_refcnt 1 (ex_buf [] 3)) "")
    as (s' & Hr & Hring & _).
  - by eapply calm_ext; [..|apply (ex_calm [] ∅ zero_log)].
  - apply (lru_ring_insert _ _ 3 (ex_buf [] 3)); [reflexivity..|exact (ex_ring [])].
  - reflexivity.
  - reflexivity.
  - reflexivity.
  - exists s'. split; [exact Hr|exact Hring].
Defined.

Lemma binit_spec_witness :
  exists s', binit (set_bcache (replicate 31 (ex_buf [] 0)) zero_kstate) = Ok tt s' /\
    ring (bcache s') (reverse (seq 0 HEAD)).
Proof.
  destruct (binit_spec (set_bcache (replicate 31 (ex_buf [] 0)) zero_kstate)) as (s' & Hr & Hring & _).
  - reflexivity.
  - exists s'. split; [exact Hr|exact Hring].
Defined.
