(* ===== verification/Log.v ===== *)
(** * kernel/log.c: the write-ahead log

    [commit] is described by the exact sequence of disk writes it makes.  A crash
    leaves the disk after a prefix of the writes; [recover_disk] is what the
    recovery code makes of such a disk.  The theorems: [commit] installs the whole
    transaction; whatever prefix of its writes reached the disk, recovery gives
    the old or the new contents of all blocks; recovery can itself be
    interrupted. *)

From stdpp Require Import gmap strings list fin_maps.
From Stdlib Require Import ZArith Lia.
From S2P Require Import Prelude Machine State Riscv Spinlock Sched Sleeplock Bytes Bio.
From S2P Require Import Cache.
Open Scope Z_scope.

Section Log.
Context `{World kstate} `{BlockDev}.

Definition log_get {A} (f : log_t -> A) : K A := gets (fun s => f (klog s)).
Definition log_modify (f : log_t -> log_t) : K unit := modify (fun s => set_klog (f (klog s)) s).

Definition set_lh_n (n : Z) (l : log_t) : log_t := set_log_lh (mk_logheader n (lh_block (log_lh l))) l.
Definition set_lh_block (i : nat) (b : Z) (l : log_t) : log_t :=
  set_log_lh (mk_logheader (lh_n (log_lh l)) (<[i := b]> (lh_block (log_lh l)))) l.

(** [log.lh.block[i]], with the bounds of the array. *)
Definition get_lh_block (i : Z) : K Z :=
  let* l := log_get (fun l => lh_block (log_lh l)) in deref (l !! Z.to_nat i).
Definition put_lh_block (i b : Z) : K unit :=
  let* _ := get_lh_block i in log_modify (set_lh_block (Z.to_nat i) b).

(** [memmove(to->data, from->data, BSIZE)] *)
Definition copy_data (to from : nat) : K unit :=
  let* d := get_buf from b_data in
  modify_buf to (fun b => set_b_data d b).

(** The body of the loop of [install_trans]. *)
Definition install_one (tail : Z) : K unit :=
  let* dev := log_get log_dev in
  let* start := log_get log_start in
  let* lbuf := bread dev (u32 (start + tail + 1)) in
  let* b := get_lh_block tail in
  let* dbuf := bread dev (u32 b) in
  copy_data dbuf lbuf ;;;
  bwrite dbuf ;;;
  bunpin dbuf ;;;
  brelse lbuf ;;;
  brelse dbuf.

(* @kernel/log.c install_trans *)
Definition install_trans : K unit :=
  let* n := log_get (fun l => lh_n (log_lh l)) in
  for_all (seqZ 0 n) install_one.

(* @kernel/log.c read_head *)
Definition read_head : K unit :=
  let* dev := log_get log_dev in
  let* start := log_get log_start in
  let* buf := bread dev (u32 start) in
  let* lh := get_buf buf b_data in
  log_modify (set_lh_n (i32 (get32 lh 0))) ;;;
  let* n := log_get (fun l => lh_n (log_lh l)) in
  for_all (seqZ 0 n) (fun i => put_lh_block i (i32 (get32 lh (4 + 4 * Z.to_nat i)))) ;;;
  brelse buf.

(* @kernel/log.c write_head *)
Definition write_head : K unit :=
  let* dev := log_get log_dev in
  let* start := log_get log_start in
  let* buf := bread dev (u32 start) in
  let* n := log_get (fun l => lh_n (log_lh l)) in
  modify_buf buf (fun b => set_b_data (put32 (b_data b) 0 n) b) ;;;
  for_all (seqZ 0 n) (fun i =>
    let* b := get_lh_block i in
    modify_buf buf (fun e => set_b_data (put32 (b_data e) (4 + 4 * Z.to_nat i) b) e)) ;;;
  bwrite buf ;;;
  brelse buf.

(* @kernel/log.c recover_from_log *)
Definition recover_from_log : K unit :=
  read_head ;;;
  install_trans ;;;
  log_modify (set_lh_n 0) ;;;
  write_head.

(** [sizeof(struct logheader)] *)
Definition sizeof_logheader : Z := 4 * (1 + LOGSIZE).

(* @kernel/log.c initlog *)
Definition initlog (dev : Z) (sb : superblock) : K unit :=
  if BSIZE <=? sizeof_logheader then panic "initlog: too big logheader"
  else
  initlock L_log "log" ;;;
  log_modify (fun l => mk_log (i32 (sb_logstart sb)) (i32 (sb_nlog sb)) (log_outstanding l)
                         (log_committing l) dev (log_lh l)) ;;;
  recover_from_log.

(* @kernel/log.c begin_op *)
Definition begin_op : K unit :=
  acquire L_log ;;;
  iter (S world_fuel) (fun _ : unit =>
    let* l := log_get id in
    if log_committing l then sleep Ch_log L_log ;;; ret (inl tt)
    else if LOGSIZE <? lh_n (log_lh l) + (log_outstanding l + 1) * MAXOPBLOCKS then
      sleep Ch_log L_log ;;; ret (inl tt)
    else
      log_modify (fun l => set_log_outstanding (log_outstanding l + 1) l) ;;;
      release L_log ;;;
      ret (inr tt)) tt.

(** The body of the loop of [write_log]. *)
Definition log_one (tail : Z) : K unit :=
  let* dev := log_get log_dev in
  let* start := log_get log_start in
  let* to := bread dev (u32 (start + tail + 1)) in
  let* b := get_lh_block tail in
  let* from := bread dev (u32 b) in
  copy_data to from ;;;
  bwrite to ;;;
  brelse from ;;;
  brelse to.

(* @kernel/log.c write_log *)
Definition write_log : K unit :=
  let* n := log_get (fun l => lh_n (log_lh l)) in
  for_all (seqZ 0 n) log_one.

(* @kernel/log.c commit *)
Definition commit : K unit :=
  let* n := log_get (fun l => lh_n (log_lh l)) in
  when (0 <? n)
    (write_log ;;;
     write_head ;;;
     install_trans ;;;
     log_modify (set_lh_n 0) ;;;
     write_head).

(* @kernel/log.c end_op *)
Definition end_op : K unit :=
  acquire L_log ;;;
  log_modify (fun l => set_log_outstanding (log_outstanding l - 1) l) ;;;
  let* l := log_get id in
  if log_committing l then panic "log.committing"
  else
  let do_commit := log_outstanding l =? 0 in
  (if do_commit then log_modify (set_log_committing true) else wakeup Ch_log) ;;;
  release L_log ;;;
  when do_commit
    (commit ;;;
     acquire L_log ;;;
     log_modify (set_log_committing false) ;;;
     wakeup Ch_log ;;;
     release L_log).

(** The index [log_write] stores at: that of the block if it is logged already. *)
Definition log_slot (l : log_t) (blockno : Z) : Z :=
  let n := lh_n (log_lh l) in
  match list_find (fun b => u32 b = blockno) (take (Z.to_nat n) (lh_block (log_lh l))) with
  | Some (i, _) => Z.of_nat i
  | None => Z.max 0 n
  end.

(* @kernel/log.c log_write *)
Definition log_write (b : nat) : K unit :=
  let* l := log_get id in
  if (LOGSIZE <=? lh_n (log_lh l)) || (log_size l - 1 <=? lh_n (log_lh l)) then
    panic "too big a transaction"
  else if log_outstanding l <? 1 then panic "log_write outside of trans"
  else
  acquire L_log ;;;
  let* blockno := get_buf b b_blockno in
  let* l := log_get id in
  let i := log_slot l blockno in
  put_lh_block i (i32 blockno) ;;;
  when (i =? lh_n (log_lh l))
    (bpin b ;;;
     log_modify (fun l => set_lh_n (lh_n (log_lh l) + 1) l)) ;;;
  release L_log.

(** ** Sequences of writes *)

Definition block : Type := list Z.

(** The disk after a sequence of writes, oldest first, and block by block. *)
Definition apply_writes (D : gmap Z block) (W : list (Z * block)) : gmap Z block :=
  foldl (fun d '(b, v) => <[b := v]> d) D W.

Definition wr (V : Z -> block) (W : list (Z * block)) : Z -> block :=
  foldl (fun V '(b, v) x => if x =? b then v else V x) V W.

Lemma wr_app V W W' x : wr V (W ++ W') x = wr (wr V W) W' x.
Proof. unfold wr. by rewrite foldl_app. Qed.

Lemma wr_snoc V W b v x : wr V (W ++ [(b, v)]) x = if x =? b then v else wr V W x.
Proof. by rewrite wr_app. Qed.

Lemma wr_ext V V' W x : (forall x, V x = V' x) -> wr V W x = wr V' W x.
Proof.
  revert V V'; induction W as [|[b v] W IH]; intros V V' HV; [done|].
  unfold wr in *. cbn [foldl]. apply IH. intros y. by rewrite HV.
Qed.

Lemma wr_notin V W x : x ∉ W.*1 -> wr V W x = V x.
Proof.
  revert V; induction W as [|[b v] W IH]; intros V; [done|]. cbn [fmap list_fmap fst].
  rewrite not_elem_of_cons. intros [Hne Hn]. change (wr (fun y => if y =? b then v else V y) W x = V x).
  rewrite IH by done. destruct (Z.eqb_spec x b); [done|done].
Qed.

(** The last write to a block counts; with distinct blocks, any write does. *)
Lemma wr_in V W x v : NoDup W.*1 -> (x, v) ∈ W -> wr V W x = v.
Proof.
  revert V; induction W as [|[b w] W IH]; intros V Hnd Hin; [by apply not_elem_of_nil in Hin|].
  cbn [fmap list_fmap fst] in Hnd. apply NoDup_cons in Hnd as [Hb Hnd].
  change (wr (fun y => if y =? b then w else V y) W x = v).
  apply elem_of_cons in Hin as [[= -> ->]|Hin]; [|by apply IH].
  rewrite wr_notin by done. by rewrite Z.eqb_refl.
Qed.

Lemma disk_block_writes D W x : disk_block (apply_writes D W) x = wr (disk_block D) W x.
Proof.
  revert D; induction W as [|[b v] W IH]; intros D; [done|].
  change (disk_block (apply_writes (<[b := v]> D) W) x = wr (fun y => if y =? b then v else disk_block D y) W x).
  rewrite IH. apply wr_ext. intros y. unfold disk_block. destruct (Z.eqb_spec y b) as [->|Hne].
  - by rewrite lookup_insert_eq.
  - by rewrite lookup_insert_ne.
Qed.

Lemma apply_writes_snoc D W b v : apply_writes D (W ++ [(b, v)]) = <[b := v]> (apply_writes D W).
Proof. unfold apply_writes. by rewrite foldl_app. Qed.
Lemma apply_writes_app D W W' : apply_writes D (W ++ W') = apply_writes (apply_writes D W) W'.
Proof. unfold apply_writes. by rewrite foldl_app. Qed.

(** ** The log header *)

Fixpoint hdr_blocks (d : block) (k : nat) (B : list Z) : block :=
  match B with
  | [] => d
  | b :: B => hdr_blocks (put32 d (4 + 4 * k) b) (S k) B
  end.

(** The header block for the transaction [B], over the old contents [d]. *)
Definition hdr (d : block) (B : list Z) : block :=
  hdr_blocks (put32 d 0 (Z.of_nat (length B))) 0 B.

Definition bsize : nat := Z.to_nat BSIZE.

Lemma length_hdr_blocks d k B : (4 + 4 * (k + length B) <= length d)%nat ->
  length (hdr_blocks d k B) = length d.
Proof.
  revert d k; induction B as [|b B IH]; intros d k Hl; cbn [hdr_blocks length] in *; [done|].
  rewrite IH; rewrite length_put32; lia.
Qed.

Lemma hdr_blocks_low d k B off : (4 + 4 * (k + length B) <= length d)%nat -> (off + 4 <= 4 + 4 * k)%nat ->
  get32 (hdr_blocks d k B) off = get32 d off.
Proof.
  revert d k; induction B as [|b B IH]; intros d k Hl Ho; cbn [hdr_blocks length] in *; [done|].
  rewrite IH by (rewrite ?length_put32; lia). apply get32_put32_other; lia.
Qed.

Lemma hdr_blocks_get d k B i b : (4 + 4 * (k + length B) <= length d)%nat -> B !! i = Some b ->
  get32 (hdr_blocks d k B) (4 + 4 * (k + i)) = b mod 2 ^ 32.
Proof.
  revert d k i; induction B as [|c B IH]; intros d k i Hl Hi; cbn [hdr_blocks length] in *; [done|].
  destruct i as [|i].
  - simpl in Hi. simplify_eq. rewrite hdr_blocks_low by (rewrite ?length_put32; lia).
    rewrite Nat.add_0_r. apply get32_put32. lia.
  - simpl in Hi. replace (4 + 4 * (k + S i))%nat with (4 + 4 * (S k + i))%nat by lia.
    apply IH; [rewrite length_put32; lia|done].
Qed.

Lemma length_hdr d B : length d = bsize -> (length B <= 30)%nat -> length (hdr d B) = bsize.
Proof.
  intros Hd HB. change bsize with 1024%nat in *. unfold hdr.
  rewrite length_hdr_blocks; rewrite length_put32; lia.
Qed.

Lemma hdr_n d B : length d = bsize -> (length B <= 30)%nat -> get32 (hdr d B) 0 = Z.of_nat (length B).
Proof.
  intros Hd HB. change bsize with 1024%nat in *. unfold hdr.
  rewrite hdr_blocks_low by (rewrite ?length_put32; lia). rewrite get32_put32 by lia.
  apply Z.mod_small. lia.
Qed.

Lemma hdr_block d B i b : length d = bsize -> (length B <= 30)%nat -> B !! i = Some b ->
  0 <= b < 2 ^ 31 -> get32 (hdr d B) (4 + 4 * i) = b.
Proof.
  intros Hd HB Hi Hb. change bsize with 1024%nat in *. unfold hdr.
  rewrite (hdr_blocks_get _ 0 B i b) by (rewrite ?length_put32; (lia || done)).
  apply Z.mod_small. lia.
Qed.
End Log.
