(* ===== verification/Commit.v ===== *)
(** * Commit and recovery of the log (kernel/log.c)

    The writes [commit] makes, in order; what recovery makes of any disk; and the
    atomicity of a transaction at every crash point. *)

From stdpp Require Import gmap strings list fin_maps.
From Stdlib Require Import ZArith Lia.
From S2P Require Import Prelude Machine State Riscv Spinlock Sched Sleeplock Bytes Bio.
From S2P Require Import Cache Log.
Open Scope Z_scope.

(** A transaction of the blocks [B] fits the log and lies outside of it. *)
Record tx (L : log_t) (B : list Z) : Prop := {
  tx_dev : log_dev L = ROOTDEV;
  tx_n : lh_n (log_lh L) = Z.of_nat (length B);
  tx_blocks : forall k b, B !! k = Some b -> lh_block (log_lh L) !! k = Some b;
  tx_area : 0 < log_start L /\ log_start L + log_size L < 2 ^ 31;
  tx_fit : Z.of_nat (length B) < log_size L /\ (length B < HEAD)%nat;
  tx_nodup : NoDup B;
  tx_home : forall b, b ∈ B -> 0 <= b < 2 ^ 31 /\ ~ (log_start L <= b < log_start L + log_size L)
}.

(** From [s] to [s'] the blocks [W] were written, in this order. *)
Record writes (s s' : kstate) (W : list (Z * block)) : Prop := {
  wt_disk : disk s' = apply_writes (disk s) W;
  wt_trace : dtrace s' = reverse W ++ dtrace s;
  wt_view : forall x, vw s' x = wr (vw s) W x
}.

Lemma writes_nil s s' : disk s' = disk s -> dtrace s' = dtrace s -> (forall x, vw s' x = vw s x) ->
  writes s s' [].
Proof. by intros; split. Qed.

Lemma writes_trans s1 s2 s3 W1 W2 : writes s1 s2 W1 -> writes s2 s3 W2 -> writes s1 s3 (W1 ++ W2).
Proof.
  intros [D1 T1 V1] [D2 T2 V2]. split.
  - by rewrite D2, D1, apply_writes_app.
  - by rewrite T2, T1, reverse_app, app_assoc.
  - intros x. rewrite V2, wr_app. by apply wr_ext.
Qed.

(** The pinned blocks are those of the transaction, once each. *)
Definition only_pinned (s : kstate) (B : list Z) : Prop :=
  forall x, pins s x = if decide (x ∈ B) then 1 else 0.

Lemma only_pinned_free s B order : cache_inv s order -> only_pinned s B -> (length B < HEAD)%nat ->
  exists i b, bufs s !! i = Some b /\ b_refcnt b = 0.
Proof.
  intros Hinv Hp Hl. eapply (free_buffer s order B); [done|done|]. intros x. rewrite Hp.
  by case_decide.
Qed.

Lemma seqZ_split k n : 0 <= k < n -> seqZ k (n - k) = k :: seqZ (k + 1) (n - (k + 1)).
Proof. intros. rewrite seqZ_cons_lt by lia. do 2 f_equal. lia. Qed.

(** Chain the steps of the cache. *)
Ltac cache_steps :=
  repeat first [ eassumption | eapply cache_step_trans; [eassumption|] ].

Section Commit.
Context `{World kstate} `{BlockDev}.

Lemma wp_get_lh_block s k b (Q : Z -> kstate -> Prop) :
  lh_block (log_lh (klog s)) !! Z.to_nat k = Some b -> Q b s -> wp (get_lh_block k) Q s.
Proof. intros Hb HQ. unfold get_lh_block, log_get. wsteps. done. Qed.

Lemma cache_step_klog s s' : cache_step s s' -> klog s' = klog s.
Proof. intros [-> _]. by fields. Qed.

(** [memmove] between two held buffers. *)
Lemma wp_copy_data s held to from bt bf (Q : unit -> kstate -> Prop) :
  cache s held -> held_ok held to bt -> held_ok held from bf ->
  (forall s', cache s' held -> cache_step s s' -> disk s' = disk s -> dtrace s' = dtrace s ->
     (forall x, vw s' x = if x =? bt then vw s bf else vw s x) ->
     (forall x, pins s' x = pins s x) -> Q tt s') ->
  wp (copy_data to from) Q s.
Proof.
  intros Hc Ht [Hf _] HQ. destruct (holds_buf [] s held from bf Hc Hf)
    as (order & b & nm & _ & Hb & _ & _ & _ & _ & Hvw & _).
  unfold copy_data. wstep. eapply wp_get_buf; [by apply bufs_lookup in Hb as [Hb _]; exact Hb|].
  rewrite <- Hvw. apply (wp_cache_modify s held to bt (fun _ => vw s bf)); done.
Qed.

(** A loop over the blocks of the transaction. *)
Lemma wp_tx_loop n (body : Z -> K unit) (I : Z -> kstate -> Prop) (Q : unit -> kstate -> Prop) s :
  0 <= n -> I 0 s -> (forall k s', 0 <= k < n -> I k s' -> wp (body k) (fun _ s'' => I (k + 1) s'') s') ->
  (forall s', I n s' -> Q tt s') -> wp (for_all (seqZ 0 n) body) Q s.
Proof.
  intros Hn HI0 Hb HQ. eapply wp_mono.
  - apply (wp_for_all _ _ (fun rest s' => exists k, rest = seqZ k (n - k) /\ 0 <= k <= n /\ I k s')).
    + exists 0. rewrite Z.sub_0_r. done.
    + intros x rest s' (k & Er & Hk & HI). destruct (decide (k = n)) as [->|Hne].
      { by rewrite Z.sub_diag in Er. }
      rewrite seqZ_split in Er by lia. injection Er as -> ->.
      eapply wp_mono; [apply Hb; [lia|done]|]. intros [] s'' HI'. exists (k + 1). split; [done|]. split; [lia|done].
  - intros [] s' (k & Er & Hk & HI). apply HQ. assert (k = n) as <-; [|done].
    destruct (decide (k = n)); [done|]. rewrite seqZ_split in Er by lia. done.
Qed.

(** ** Writing the log *)

Definition log_block (L : log_t) (k : nat) : Z := log_start L + Z.of_nat k + 1.

Lemma log_block_out L B k b : tx L B -> (k < length B)%nat -> b ∈ B -> log_block L k <> b.
Proof.
  intros Ht Hk Hb. destruct (tx_home _ _ Ht b Hb) as [_ Hn]. destruct (tx_fit _ _ Ht) as [Hf _].
  intros <-. apply Hn. unfold log_block. lia.
Qed.

Lemma log_block_u32 L B k : tx L B -> (k < length B)%nat ->
  u32 (log_start L + Z.of_nat k + 1) = log_block L k.
Proof.
  intros Ht Hk. destruct (tx_area _ _ Ht), (tx_fit _ _ Ht). apply u32_id. unfold log_block. lia.
Qed.

Lemma home_u32 L B b : tx L B -> b ∈ B -> u32 b = b.
Proof. intros Ht Hb. destruct (tx_home _ _ Ht b Hb) as [Hr _]. apply u32_id. lia. Qed.

(** Copying block [b] to the log block [k]. *)
Lemma wp_write_log_body s B k b (Q : unit -> kstate -> Prop) :
  cache s [] -> tx (klog s) B -> only_pinned s B -> B !! k = Some b ->
  (forall s', cache s' [] -> cache_step s s' -> only_pinned s' B ->
     writes s s' [(log_block (klog s) k, vw s b)] -> Q tt s') ->
  wp (log_one (Z.of_nat k)) Q s.
Proof.
  intros Hc Ht Hp Hk HQ. pose proof (list_elem_of_lookup_2 _ _ _ Hk) as Hb. pose proof (lookup_lt_Some _ _ _ Hk) as Hlt.
  pose proof (log_block_out _ _ _ _ Ht Hlt Hb) as Hne. pose proof (cache_ok _ _ _ Hc) as [order Hinv].
  unfold log_one, log_get. wsteps. rewrite (tx_dev _ _ Ht), (log_block_u32 _ _ _ Ht Hlt).
  set (lb := log_block (klog s) k) in *.
  assert (Hlb0 : pins s lb = 0).
  { rewrite Hp. rewrite decide_False; [done|]. intros Hin. by apply (log_block_out _ _ _ _ Ht Hlt Hin). }
  apply (wp_cache_bread s [] lb); [done|set_solver|lia|right; eapply only_pinned_free; eauto; apply Ht|].
  intros to s1 Hc1 Hto Hst1 D1 T1 V1 P1. wstep.
  eapply wp_get_lh_block; [rewrite (cache_step_klog _ _ Hst1), Nat2Z.id; by apply (tx_blocks _ _ Ht)|]. wstep.
  rewrite (home_u32 _ _ _ Ht Hb). assert (Hpb : pins s1 b = 1).
  { rewrite P1, (proj2 (Z.eqb_neq b lb)), Hp, decide_True by done. done. }
  eapply (wp_cache_bread s1 _ b); [exact Hc1|set_solver|lia|left; lia|].
  intros from s2 Hc2 Hfr Hst2 D2 T2 V2 P2. assert (Hft : from <> to) by (intros ->; apply (Hfr lb); by left).
  wstep. eapply (wp_copy_data s2 _ to from lb b); [exact Hc2|by apply held_ok_tail; [apply held_ok_head|]|by apply held_ok_head|].
  intros s3 Hc3 Hst3 D3 T3 V3 P3. wstep.
  eapply (wp_cache_bwrite s3 _ to lb); [exact Hc3|by apply held_ok_tail; [apply held_ok_head|]|].
  intros s4 Hc4 Hst4 D4 T4 V4 P4. wstep.
  eapply (wp_cache_brelse s4 _ from b); [exact Hc4|exact Hfr|left; rewrite P4, P3, P2, Z.eqb_refl; lia|].
  intros s5 Hc5 Hst5 D5 T5 V5 P5.
  assert (Hvl : vw s3 lb = vw s b) by (by rewrite V3, Z.eqb_refl, V2, V1).
  eapply (wp_cache_brelse s5 _ to lb); [exact Hc5|set_solver| |].
  { right. rewrite V5, V4, D5, D4. unfold disk_block. by rewrite lookup_insert_eq. }
  intros s6 Hc6 Hst6 D6 T6 V6 P6. apply HQ; [done|by cache_steps| |].
  - intros x. rewrite <- Hp, P6, !P5, !P4, !P3, !P2, !P1. bool_cases; subst; (done || lia).
  - split.
    + rewrite D6, D5, D4, D3, D2, D1, Hvl. done.
    + rewrite T6, T5, T4, T3, T2, T1, Hvl. done.
    + intros x. rewrite V6, V5, V4, V3, !V2, !V1. done.
Qed.

Definition log_writes (L : log_t) (V : Z -> block) (B : list Z) : list (Z * block) :=
  imap (fun k b => (log_block L k, V b)) B.
Definition home_writes (V : Z -> block) (B : list Z) : list (Z * block) := (fun b => (b, V b)) <$> B.

Lemma log_writes_lookup L V B k : log_writes L V B !! k = (fun b => (log_block L k, V b)) <$> B !! k.
Proof. unfold log_writes. by rewrite list_lookup_imap. Qed.

Lemma log_writes_fst L V B x : x ∈ (log_writes L V B).*1 -> exists k, (k < length B)%nat /\ x = log_block L k.
Proof.
  intros Hx. apply list_elem_of_lookup in Hx as [k Hk]. rewrite list_lookup_fmap, log_writes_lookup in Hk.
  destruct (B !! k) as [b|] eqn:Hb; [|done]. simpl in Hk. simplify_eq.
  exists k. split; [by eapply lookup_lt_Some|done].
Qed.

Lemma log_writes_home L V B b : tx L B -> b ∈ B -> b ∉ (log_writes L V B).*1.
Proof.
  intros Ht Hb Hin. apply log_writes_fst in Hin as (k & Hk & E).
  by apply (log_block_out _ _ _ _ Ht Hk Hb).
Qed.

Lemma fst_take_sub (W : list (Z * block)) k x : x ∈ (take k W).*1 -> x ∈ W.*1.
Proof.
  intros Hx. apply list_elem_of_fmap in Hx as (y & -> & Hy). apply list_elem_of_fmap.
  exists y. split; [done|]. by eapply subseteq_take.
Qed.

Lemma wp_write_log s B (Q : unit -> kstate -> Prop) :
  cache s [] -> tx (klog s) B -> only_pinned s B ->
  (forall s', cache s' [] -> cache_step s s' -> only_pinned s' B ->
     writes s s' (log_writes (klog s) (vw s) B) -> Q tt s') ->
  wp write_log Q s.
Proof.
  intros Hc Ht Hp HQ. unfold write_log, log_get at 1. wsteps. rewrite (tx_n _ _ Ht).
  set (W := log_writes (klog s) (vw s) B). assert (HlW : length W = length B) by apply length_imap.
  apply (wp_tx_loop _ _ (fun k s' => cache s' [] /\ cache_step s s' /\ only_pinned s' B /\
     writes s s' (take (Z.to_nat k) W))).
  - lia.
  - split; [done|]. split; [apply cache_step_refl|]. split; [done|by apply writes_nil].
  - intros k s' Hk (Hc' & Hst & Hp' & Hw). pose proof (cache_step_klog _ _ Hst) as El.
    destruct (lookup_lt_is_Some_2 B (Z.to_nat k)) as [b Hb]; [lia|].
    rewrite <- (Z2Nat.id k) by lia. set (j := Z.to_nat k) in *.
    apply (wp_write_log_body s' B j b); [done|by rewrite El|done|done|].
    intros s2 Hc2 Hst2 Hp2 Hw2. split; [done|]. split; [by eapply cache_step_trans|]. split; [done|].
    replace (Z.to_nat (Z.of_nat j + 1)) with (S j) by lia.
    rewrite (take_S_r _ _ (log_block (klog s) j, vw s b)).
    + rewrite El in Hw2. replace (vw s b) with (vw s' b); [by eapply writes_trans|].
      rewrite (wt_view _ _ _ Hw), wr_notin; [done|]. intros Hin%fst_take_sub.
      eapply log_writes_home; [exact Ht|by eapply list_elem_of_lookup_2|exact Hin].
    + unfold W. by rewrite log_writes_lookup, Hb.
  - intros s' (Hc' & Hst & Hp' & Hw). apply HQ; [done..|].
    by rewrite Nat2Z.id, <- HlW, firstn_all in Hw.
Qed.

(** ** Writing the header *)

Lemma hdr_blocks_snoc d k B b :
  hdr_blocks d k (B ++ [b]) = put32 (hdr_blocks d k B) (4 + 4 * (k + length B)) b.
Proof.
  revert d k; induction B as [|c B IH]; intros d k; cbn [hdr_blocks app length].
  - by rewrite Nat.add_0_r.
  - rewrite IH. f_equal. lia.
Qed.

Lemma wp_write_head s B (Q : unit -> kstate -> Prop) :
  cache s [] -> log_dev (klog s) = ROOTDEV -> 0 < log_start (klog s) < 2 ^ 31 ->
  lh_n (log_lh (klog s)) = Z.of_nat (length B) ->
  (forall k b, B !! k = Some b -> lh_block (log_lh (klog s)) !! k = Some b) ->
  pins s (log_start (klog s)) = 0 -> (exists i b, bufs s !! i = Some b /\ b_refcnt b = 0) ->
  (forall s', cache s' [] -> cache_step s s' -> (forall x, pins s' x = pins s x) ->
     writes s s' [(log_start (klog s), hdr (vw s (log_start (klog s))) B)] -> Q tt s') ->
  wp write_head Q s.
Proof.
  intros Hc Hdev Hstart Hn HB Hp0 Hfree HQ. unfold write_head, log_get. wsteps.
  rewrite Hdev. set (st := log_start (klog s)) in *. rewrite u32_id by lia.
  apply (wp_cache_bread s [] st); [done|set_solver|lia|by right|].
  intros i s1 Hc1 Hi Hst1 D1 T1 V1 P1. wsteps. rewrite (cache_step_klog _ _ Hst1), Hn.
  assert (Hok : held_ok [(i, st)] i st) by (by apply held_ok_head).
  eapply (wp_cache_modify s1 _ i st (fun d => put32 d 0 (Z.of_nat (length B)))); [exact Hc1|done|].
  intros s2 Hc2 Hst2 D2 T2 V2 P2. wstep.
  set (d0 := put32 (vw s st) 0 (Z.of_nat (length B))).
  apply (wp_tx_loop _ _ (fun k s' => cache s' [(i, st)] /\ cache_step s s' /\ disk s' = disk s /\
     dtrace s' = dtrace s /\ (forall x, pins s' x = pins s1 x) /\
     forall x, vw s' x = if x =? st then hdr_blocks d0 0 (take (Z.to_nat k) B) else vw s x)).
  - lia.
  - split; [done|]. split; [by cache_steps|]. split; [congruence|]. split; [congruence|]. split; [done|].
    intros x. rewrite V2, !V1. by destruct (x =? st).
  - intros k s' Hk (Hc' & Hst & D & T & P & V).
    destruct (lookup_lt_is_Some_2 B (Z.to_nat k)) as [b Hb]; [lia|]. wstep.
    eapply wp_get_lh_block; [rewrite (cache_step_klog _ _ Hst); by apply HB|].
    eapply (wp_cache_modify s' _ i st (fun d => put32 d (4 + 4 * Z.to_nat k) b)); [exact Hc'|done|].
    intros s3 Hc3 Hst3 D3 T3 V3 P3. split; [done|]. split; [by cache_steps|].
    split; [congruence|]. split; [congruence|]. split; [intros x; by rewrite P3|].
    intros x. rewrite V3, !V, Z.eqb_refl. destruct (x =? st); [|done].
    replace (Z.to_nat (k + 1)) with (S (Z.to_nat k)) by lia.
    rewrite (take_S_r _ _ b Hb), hdr_blocks_snoc, length_take_le; [done|].
    pose proof (lookup_lt_Some _ _ _ Hb). lia.
  - intros s3 (Hc3 & Hst3 & D3 & T3 & P3 & V3). rewrite Nat2Z.id, firstn_all in V3. wstep.
    eapply (wp_cache_bwrite s3 _ i st); [exact Hc3|done|]. intros s4 Hc4 Hst4 D4 T4 V4 P4.
    eapply (wp_cache_brelse s4 [] i st); [exact Hc4|set_solver| |].
    { right. rewrite V4, D4. unfold disk_block. by rewrite lookup_insert_eq. }
    assert (Hvh : vw s3 st = hdr (vw s st) B) by (rewrite V3, Z.eqb_refl; done).
    intros s5 Hc5 Hst5 D5 T5 V5 P5. apply HQ; [done|by cache_steps| |].
    + intros x. rewrite P5, !P4, !P3, !P1. bool_cases; subst; (done || lia).
    + split.
      * by rewrite D5, D4, D3, Hvh.
      * by rewrite T5, T4, T3, Hvh.
      * intros x. rewrite V5, V4, V3. cbn. destruct (x =? st); [|done]. by rewrite <- Hvh, V3, Z.eqb_refl.
Qed.

(** ** Installing the transaction *)

(** The first half of an iteration of [install_trans]: up to the write of the home
    block; [rest] is what drops the references. *)
Lemma wp_install_front s B k b (rest : nat -> nat -> K unit) (Q : unit -> kstate -> Prop) :
  cache s [] -> tx (klog s) B -> B !! k = Some b -> pins s (log_block (klog s) k) = 0 ->
  (exists i e, bufs s !! i = Some e /\ b_refcnt e = 0) -> 0 <= pins s b <= 1 ->
  (pins s b <> 0 \/ exists L, (S (length L) < HEAD)%nat /\ forall x, pins s x <> 0 -> x ∈ L) ->
  (forall lbuf dbuf s', let lb := log_block (klog s) k in
     cache s' [(dbuf, b); (lbuf, lb)] -> dbuf <> lbuf -> cache_step s s' ->
     disk s' = <[b := vw s lb]> (disk s) -> dtrace s' = (b, vw s lb) :: dtrace s ->
     (forall x, vw s' x = if x =? b then vw s lb else vw s x) ->
     (forall x, pins s' x = if x =? b then pins s b + 1 else if x =? lb then 1 else pins s x) ->
     wp (rest lbuf dbuf) Q s') ->
  wp (let* dev := log_get log_dev in
      let* start := log_get log_start in
      let* lbuf := bread dev (u32 (start + Z.of_nat k + 1)) in
      let* b := get_lh_block (Z.of_nat k) in
      let* dbuf := bread dev (u32 b) in
      copy_data dbuf lbuf ;;;
      bwrite dbuf ;;;
      rest lbuf dbuf) Q s.
Proof.
  intros Hc Ht Hk Hlb0 Hfree Hpb Hfree2 HQ. pose proof (list_elem_of_lookup_2 _ _ _ Hk) as Hb.
  pose proof (lookup_lt_Some _ _ _ Hk) as Hlt. pose proof (log_block_out _ _ _ _ Ht Hlt Hb) as Hne.
  unfold log_get. wsteps. rewrite (tx_dev _ _ Ht), (log_block_u32 _ _ _ Ht Hlt).
  set (lb := log_block (klog s) k) in *.
  apply (wp_cache_bread s [] lb); [done|set_solver|lia|by right|].
  intros lbuf s1 Hc1 Hlb Hst1 D1 T1 V1 P1. wstep.
  eapply wp_get_lh_block; [rewrite (cache_step_klog _ _ Hst1), Nat2Z.id; by apply (tx_blocks _ _ Ht)|]. wstep.
  rewrite (home_u32 _ _ _ Ht Hb). assert (Hpb1 : pins s1 b = pins s b) by (rewrite P1, (proj2 (Z.eqb_neq b lb)) by done; done).
  eapply (wp_cache_bread s1 _ b); [exact Hc1|set_solver|lia| |].
  { rewrite Hpb1. destruct Hfree2 as [|(L & HL & Hall)]; [by left|right].
    destruct (cache_ok _ _ _ Hc1) as [order1 Hinv1]. apply (free_buffer s1 order1 (lb :: L)); [done|simpl; lia|].
    intros x. rewrite P1. destruct (Z.eqb_spec x lb) as [->|]; [by left|]. intros Hx. right. by apply Hall. }
  intros dbuf s2 Hc2 Hdb Hst2 D2 T2 V2 P2. assert (Hdl : dbuf <> lbuf) by (intros ->; apply (Hdb lb); by left).
  assert (Hok : held_ok [(dbuf, b); (lbuf, lb)] dbuf b) by (by apply held_ok_head).
  wstep. eapply (wp_copy_data s2 _ dbuf lbuf b lb); [exact Hc2|done|by apply held_ok_tail; [apply held_ok_head|]|].
  intros s3 Hc3 Hst3 D3 T3 V3 P3. wstep.
  eapply (wp_cache_bwrite s3 _ dbuf b); [exact Hc3|done|]. intros s4 Hc4 Hst4 D4 T4 V4 P4.
  assert (Hv3 : vw s3 b = vw s lb) by (by rewrite V3, Z.eqb_refl, V2, V1).
  apply HQ; [done|done|by cache_steps|by rewrite D4, D3, D2, D1, Hv3|by rewrite T4, T3, T2, T1, Hv3|..].
  - intros x. rewrite V4, V3, !V2, !V1. done.
  - intros x. rewrite P4, P3, P2, Hpb1, P1, Hlb0. by destruct (x =? b), (x =? lb).
Qed.

(** In a commit the home block is pinned: its references are dropped one by one. *)
Lemma wp_install_body s B k b (Q : unit -> kstate -> Prop) :
  cache s [] -> tx (klog s) B -> only_pinned s (drop k B) -> B !! k = Some b ->
  vw s (log_block (klog s) k) = disk_block (disk s) (log_block (klog s) k) ->
  (forall s', cache s' [] -> cache_step s s' -> only_pinned s' (drop (S k) B) ->
     writes s s' [(b, vw s (log_block (klog s) k))] -> Q tt s') ->
  wp (install_one (Z.of_nat k)) Q s.
Proof.
  intros Hc Ht Hp Hk Hclean HQ. pose proof (list_elem_of_lookup_2 _ _ _ Hk) as Hb.
  pose proof (lookup_lt_Some _ _ _ Hk) as Hlt. pose proof (log_block_out _ _ _ _ Ht Hlt Hb) as Hne.
  assert (Hdrop : drop k B = b :: drop (S k) B) by (by apply drop_S).
  assert (Hpb : pins s b = 1) by (rewrite Hp, Hdrop, decide_True by (by left); done).
  assert (Hnd : b ∉ drop (S k) B).
  { pose proof (tx_nodup _ _ Ht) as Hnd. rewrite <- (take_drop k B), Hdrop in Hnd.
    apply NoDup_app in Hnd as (_ & _ & Hnd). by apply NoDup_cons in Hnd as [? _]. }
  apply (wp_install_front s B k b (fun lbuf dbuf => bunpin dbuf ;;; brelse lbuf ;;; brelse dbuf)); try done.
  - rewrite Hp, decide_False; [done|]. intros Hin. eapply log_block_out; [exact Ht|exact Hlt| |reflexivity].
    eapply subseteq_drop, Hin.
  - destruct (cache_ok _ _ _ Hc) as [order Hinv]. eapply only_pinned_free; eauto.
    destruct (tx_fit _ _ Ht). rewrite length_drop. lia.
  - lia.
  - left. lia.
  - intros lbuf dbuf s4 lb Hc4 Hdl Hst4 D4 T4 V4 P4. wstep.
    assert (Hnl : forall x, (dbuf, x) ∉ [(lbuf, lb)]) by set_solver.
    eapply (wp_cache_bunpin s4 _ dbuf b); [exact Hc4|by apply held_ok_head|rewrite P4, Z.eqb_refl; lia|].
    intros s5 Hc5 Hst5 D5 T5 V5 P5. wstep.
    assert (Hc5' : cache s5 [(lbuf, lb); (dbuf, b)]).
    { eapply cache_perm; [|exact Hc5]. set_solver. }
    eapply (wp_cache_brelse s5 _ lbuf lb); [exact Hc5'|set_solver| |].
    { right. rewrite V5, V4, D5, D4, (proj2 (Z.eqb_neq lb b)) by done. unfold disk_block.
      by rewrite lookup_insert_ne by done. }
    intros s6 Hc6 Hst6 D6 T6 V6 P6.
    eapply (wp_cache_brelse s6 _ dbuf b); [exact Hc6|set_solver| |].
    { right. rewrite V6, V5, V4, Z.eqb_refl, D6, D5, D4. unfold disk_block. by rewrite lookup_insert_eq. }
    intros s7 Hc7 Hst7 D7 T7 V7 P7. apply HQ; [done|by cache_steps| |].
    + intros x. rewrite P7, !P6, !P5, !P4, Z.eqb_refl. pose proof (Hp x) as Hx. rewrite Hdrop in Hx.
      destruct (Z.eqb_spec x b) as [->|Hxb].
      * rewrite (proj2 (Z.eqb_neq b lb)), decide_False by done. lia.
      * destruct (Z.eqb_spec x lb) as [->|Hxl].
        -- rewrite (proj2 (Z.eqb_neq lb b)), Z.eqb_refl by done. rewrite decide_False; [lia|].
           intros Hin. eapply log_block_out; [exact Ht|exact Hlt| |reflexivity]. eapply subseteq_drop, Hin.
        -- rewrite Hx. repeat case_decide; set_solver.
    + split; [by rewrite D7, D6, D5, D4|by rewrite T7, T6, T5, T4|].
      intros x. rewrite V7, V6, V5, V4. done.
Qed.

(** The writes of [install_trans]: each home block gets the contents of its log block. *)
Definition install_writes (L : log_t) (V : Z -> block) (B : list Z) : list (Z * block) :=
  imap (fun k b => (b, V (log_block L k))) B.

Lemma install_writes_lookup L V B k :
  install_writes L V B !! k = (fun b => (b, V (log_block L k))) <$> B !! k.
Proof. unfold install_writes. by rewrite list_lookup_imap. Qed.

Lemma install_writes_fst L V B : (install_writes L V B).*1 = B.
Proof.
  apply list_eq. intros k. rewrite list_lookup_fmap, install_writes_lookup. by destruct (B !! k).
Qed.

Lemma log_block_notin L B k W : tx L B -> (k < length B)%nat -> (forall x, x ∈ W.*1 -> x ∈ B) ->
  forall V, wr V W (log_block L k) = V (log_block L k).
Proof.
  intros Ht Hk HW V. apply wr_notin. intros Hin%HW. by eapply log_block_out.
Qed.

(** The loop of [install_trans], for any account [P k] of the references after [k]
    blocks that an iteration keeps. *)
Lemma wp_install_loop (P : nat -> kstate -> Prop) s B (Q : unit -> kstate -> Prop) :
  cache s [] -> tx (klog s) B -> P 0%nat s ->
  (forall k, (k < length B)%nat -> vw s (log_block (klog s) k) = disk_block (disk s) (log_block (klog s) k)) ->
  (forall s1 k b, cache s1 [] -> tx (klog s1) B -> P k s1 -> B !! k = Some b ->
     vw s1 (log_block (klog s1) k) = disk_block (disk s1) (log_block (klog s1) k) ->
     wp (install_one (Z.of_nat k)) (fun _ s2 => cache s2 [] /\ cache_step s1 s2 /\ P (S k) s2 /\
       writes s1 s2 [(b, vw s1 (log_block (klog s1) k))]) s1) ->
  (forall s', cache s' [] -> cache_step s s' -> P (length B) s' ->
     writes s s' (install_writes (klog s) (vw s) B) -> Q tt s') ->
  wp install_trans Q s.
Proof.
  intros Hc Ht Hp Hcl Hbody HQ. unfold install_trans, log_get at 1. wsteps. rewrite (tx_n _ _ Ht).
  set (W := install_writes (klog s) (vw s) B). assert (HlW : length W = length B) by apply length_imap.
  assert (Hsub : forall j x, x ∈ (take j W).*1 -> x ∈ B).
  { intros j x Hx%fst_take_sub. unfold W in Hx. by rewrite install_writes_fst in Hx. }
  apply (wp_tx_loop _ _ (fun k s' => cache s' [] /\ cache_step s s' /\ P (Z.to_nat k) s' /\
     writes s s' (take (Z.to_nat k) W))).
  - lia.
  - split; [done|]. split; [apply cache_step_refl|]. split; [done|by apply writes_nil].
  - intros k s' Hk (Hc' & Hst & Hp' & Hw). pose proof (cache_step_klog _ _ Hst) as El.
    destruct (lookup_lt_is_Some_2 B (Z.to_nat k)) as [b Hb]; [lia|].
    rewrite <- (Z2Nat.id k) by lia. set (j := Z.to_nat k) in *.
    assert (Hj : (j < length B)%nat) by lia.
    eapply wp_mono; [apply (Hbody s' j b); [done|by rewrite El|done|done|]|].
    { rewrite El, (wt_view _ _ _ Hw), (wt_disk _ _ _ Hw), disk_block_writes.
      rewrite !(log_block_notin _ B) by eauto. by apply Hcl. }
    cbv beta. intros [] s2 (Hc2 & Hst2 & Hp2 & Hw2). split; [done|]. split; [by eapply cache_step_trans|].
    replace (Z.to_nat (Z.of_nat j + 1)) with (S j) by lia. split; [done|].
    rewrite (take_S_r _ _ (b, vw s (log_block (klog s) j))).
    + rewrite El, (wt_view _ _ _ Hw), (log_block_notin _ B) in Hw2 by eauto. by eapply writes_trans.
    + unfold W. by rewrite install_writes_lookup, Hb.
  - intros s' (Hc' & Hst & Hp' & Hw). rewrite Nat2Z.id in Hp', Hw.
    rewrite <- HlW, firstn_all in Hw. by apply HQ.
Qed.

Lemma wp_install_trans s B (Q : unit -> kstate -> Prop) :
  cache s [] -> tx (klog s) B -> only_pinned s B ->
  (forall k, (k < length B)%nat -> vw s (log_block (klog s) k) = disk_block (disk s) (log_block (klog s) k)) ->
  (forall s', cache s' [] -> cache_step s s' -> only_pinned s' [] ->
     writes s s' (install_writes (klog s) (vw s) B) -> Q tt s') ->
  wp install_trans Q s.
Proof.
  intros Hc Ht Hp Hcl HQ. apply (wp_install_loop (fun k s' => only_pinned s' (drop k B)) s B); [done..| |].
  - intros s1 k b Hc1 Ht1 Hp1 Hb Hcl1. by apply (wp_install_body s1 B k b).
  - intros s' Hc' Hst Hp' Hw. rewrite drop_all in Hp'. by apply HQ.
Qed.

(** ** Commit *)

(** The writes of [commit] for the transaction [B]: the log blocks, the header (the
    commit point), the home blocks, and the empty header. *)
Definition commit_writes (L : log_t) (V : Z -> block) (B : list Z) : list (Z * block) :=
  log_writes L V B ++ [(log_start L, hdr (V (log_start L)) B)] ++ home_writes V B ++
  [(log_start L, hdr (hdr (V (log_start L)) B) [])].

Lemma start_not_home L B : tx L B -> log_start L ∉ B.
Proof.
  intros Ht Hin. destruct (tx_home _ _ Ht _ Hin) as [_ Hn], (tx_fit _ _ Ht). apply Hn. lia.
Qed.

Lemma start_not_log L V B : log_start L ∉ (log_writes L V B).*1.
Proof. intros (k & _ & E)%log_writes_fst. unfold log_block in E. lia. Qed.

Lemma log_writes_nodup L V B : NoDup (log_writes L V B).*1.
Proof.
  apply NoDup_alt. intros i j x Hi Hj. rewrite !list_lookup_fmap, !log_writes_lookup in Hi, Hj.
  destruct (B !! i), (B !! j); simplify_eq/=. unfold log_block in *. lia.
Qed.

Lemma log_writes_in L V B k b : B !! k = Some b -> (log_block L k, V b) ∈ log_writes L V B.
Proof. intros Hb. apply (list_elem_of_lookup_2 _ k). by rewrite log_writes_lookup, Hb. Qed.

(** After the log and the header are written the log blocks hold the transaction. *)
Lemma log_view L V V0 B k b d : B !! k = Some b ->
  wr V0 (log_writes L V B ++ [(log_start L, d)]) (log_block L k) = V b.
Proof.
  intros Hb. rewrite wr_snoc. rewrite (proj2 (Z.eqb_neq _ _)) by (unfold log_block; lia).
  apply wr_in; [apply log_writes_nodup|by apply log_writes_in].
Qed.

Lemma install_home L V V' B :
  (forall k b, B !! k = Some b -> V' (log_block L k) = V b) -> install_writes L V' B = home_writes V B.
Proof.
  intros HV. apply list_eq. intros k. rewrite install_writes_lookup. unfold home_writes.
  rewrite list_lookup_fmap. destruct (B !! k) as [b|] eqn:Hb; [|done]. simpl. by rewrite (HV k b).
Qed.

Lemma cache_klog ex s held L : cache_ex ex s held -> cache_ex ex (set_klog L s) held.
Proof. intros [A1 A2 A3 A4 A5]. split; [by eapply calm_ext; [..|exact A1]|..|done|done].
  - destruct A2 as [order [? ? ? ? ? ?]]. exists order. by split.
  - intros i x Hx. destruct (A3 i x Hx) as (b & Hb & Hk & Hv & nm & Hl). exists b.
    split; [done|]. split; [done|]. split; [done|]. by exists nm.
Qed.

Lemma cache_step_set_klog s s' L : cache_step s s' -> cache_step (set_klog L s) (set_klog L s').
Proof. intros [-> Hl]. split; [by fields|exact Hl]. Qed.

Lemma wp_commit s B (Q : unit -> kstate -> Prop) :
  cache s [] -> tx (klog s) B -> B <> [] -> only_pinned s B ->
  (forall s', cache s' [] -> klog s' = set_lh_n 0 (klog s) -> cache_step (set_klog (klog s') s) s' ->
     only_pinned s' [] -> writes s s' (commit_writes (klog s) (vw s) B) -> Q tt s') ->
  wp commit Q s.
Proof.
  intros Hc Ht HB Hp HQ. unfold commit, log_get. wsteps. rewrite (tx_n _ _ Ht).
  assert (HBl : (0 < length B)%nat) by (destruct B; simpl; [done|lia]).
  rewrite (proj2 (Z.ltb_lt _ _)) by lia. cbn [when]. wstep.
  destruct (tx_area _ _ Ht) as [Hs0 Hs1], (tx_fit _ _ Ht) as [Hf1 Hf2].
  apply (wp_write_log s B); [done..|]. intros s1 Hc1 Hst1 Hp1 Hw1. pose proof (cache_step_klog _ _ Hst1) as E1.
  destruct (cache_ok _ _ _ Hc1) as [order1 Hinv1]. wstep.
  apply (wp_write_head s1 B); rewrite ?E1; [done|apply Ht|lia|apply Ht|apply Ht| |by eapply only_pinned_free|].
  { rewrite Hp1, decide_False; [done|]. by apply start_not_home. }
  intros s2 Hc2 Hst2 Hp2 Hw2. pose proof (cache_step_klog _ _ Hst2) as E2. rewrite E1 in E2. wstep.
  rewrite (wt_view _ _ _ Hw1), wr_notin in Hw2 by apply start_not_log.
  pose proof (writes_trans _ _ _ _ _ Hw1 Hw2) as Hw12.
  apply (wp_install_trans s2 B); rewrite ?E2; [done|done|intros x; by rewrite Hp2| |].
  { intros k Hk. destruct (lookup_lt_is_Some_2 B k Hk) as [b Hb].
    rewrite (wt_view _ _ _ Hw12), (wt_disk _ _ _ Hw12), disk_block_writes, !(log_view _ _ _ _ k b) by done. done. }
  intros s3 Hc3 Hst3 Hp3 Hw3. pose proof (cache_step_klog _ _ Hst3) as E3. rewrite E2 in E3.
  rewrite (install_home _ (vw s)) in Hw3 by (intros k b Hb; rewrite (wt_view _ _ _ Hw12); by apply log_view).
  unfold log_modify. wsteps. rewrite E3. set (s3' := set_klog _ s3).
  assert (Hc3' : cache s3' []) by (by apply cache_klog).
  destruct (cache_ok _ _ _ Hc3') as [order3 Hinv3].
  apply (wp_write_head s3' []); change (log_start (klog s3')) with (log_start (klog s));
    [done|apply Ht|lia|done|done|by apply (Hp3 (log_start (klog s)))| |].
  { eapply (only_pinned_free s3' []); [exact Hinv3|exact Hp3|simpl; lia]. }
  intros s4 Hc4 Hst4 Hp4 Hw4. pose proof (cache_step_klog _ _ Hst4) as E4.
  apply HQ; [done|done| |intros x; rewrite Hp4; by apply Hp3|].
  - rewrite E4. eapply cache_step_trans; [|exact Hst4]. apply cache_step_set_klog. by cache_steps.
  - unfold commit_writes. rewrite app_assoc. eapply writes_trans; [exact Hw12|]. eapply writes_trans; [exact Hw3|].
    assert (Hv : vw s3' (log_start (klog s)) = hdr (vw s (log_start (klog s))) B).
    { change (vw s3 (log_start (klog s)) = hdr (vw s (log_start (klog s))) B).
      rewrite (wt_view _ _ _ Hw3), wr_notin, (wt_view _ _ _ Hw12), wr_snoc, Z.eqb_refl; [done|].
      unfold home_writes. rewrite <- list_fmap_compose. cbn. rewrite list_fmap_id. by apply start_not_home. }
    rewrite Hv in Hw4. destruct Hw4 as [D T V]. by split.
Qed.

(** ** Recovery *)

(** The transaction recorded in a header block. *)
Definition hdr_tx (h : block) : list Z :=
  (fun k => u32 (i32 (get32 h (4 + 4 * k)))) <$> seq 0 (Z.to_nat (i32 (get32 h 0))).

(** The writes recovery makes on a disk whose log starts at [start], and the disk
    it leaves. *)
Definition recover_writes (start : Z) (D : gmap Z block) : list (Z * block) :=
  imap (fun k b => (b, disk_block D (start + Z.of_nat k + 1))) (hdr_tx (disk_block D start)) ++
  [(start, hdr (disk_block D start) [])].
Definition recover_disk (start : Z) (D : gmap Z block) : gmap Z block :=
  apply_writes D (recover_writes start D).

Lemma u32_i32 b : 0 <= b < 2 ^ 31 -> u32 (i32 b) = b.
Proof. intros. rewrite i32_id, u32_id by lia. done. Qed.

Lemma hdr_tx_hdr d B : length d = bsize -> (length B <= 30)%nat ->
  (forall b, b ∈ B -> 0 <= b < 2 ^ 31) -> hdr_tx (hdr d B) = B.
Proof.
  intros Hd HB Hr. unfold hdr_tx. rewrite hdr_n, i32_id, Nat2Z.id by (done || lia).
  apply list_eq. intros k. rewrite list_lookup_fmap. destruct (B !! k) as [b|] eqn:Hb.
  - rewrite lookup_seq_lt by (by eapply lookup_lt_Some). cbn [fmap option_fmap option_map]. rewrite Nat.add_0_l.
    assert (Hbr : 0 <= b < 2 ^ 31) by (apply Hr; by eapply list_elem_of_lookup_2).
    rewrite (hdr_block d B k b), u32_i32 by done. done.
  - apply lookup_ge_None in Hb. by rewrite lookup_seq_ge.
Qed.

Lemma hdr_tx_empty h : get32 h 0 = 0 -> hdr_tx h = [].
Proof. intros E. unfold hdr_tx. by rewrite E. Qed.

(** A block of the file system proper. *)
Definition in_log (L : log_t) (x : Z) : Prop := log_start L <= x < log_start L + log_size L.

(** Recovery when the header is empty changes the header only. *)
Lemma recover_empty L D B x : tx L B -> get32 (disk_block D (log_start L)) 0 = 0 -> ~ in_log L x ->
  disk_block (recover_disk (log_start L) D) x = disk_block D x.
Proof.
  intros Ht Hn Hx. unfold recover_disk, recover_writes. rewrite disk_block_writes, hdr_tx_empty by done. cbn.
  destruct (Z.eqb_spec x (log_start L)) as [->|]; [|done].
  exfalso. apply Hx. destruct (tx_fit _ _ Ht). unfold in_log. lia.
Qed.

(** Recovery of a committed transaction installs it. *)
Lemma recover_committed L D B V d x : tx L B -> length d = bsize ->
  disk_block D (log_start L) = hdr d B ->
  (forall k b, B !! k = Some b -> disk_block D (log_block L k) = V b) ->
  (forall y, y ∉ B -> ~ in_log L y -> disk_block D y = V y) -> ~ in_log L x ->
  disk_block (recover_disk (log_start L) D) x = V x.
Proof.
  intros Ht Hd Hh HV Hrest Hx. destruct (tx_fit _ _ Ht) as [Hf1 Hf2].
  assert (HB : (length B <= 30)%nat) by (change HEAD with 30%nat in Hf2; lia).
  unfold recover_disk, recover_writes. rewrite disk_block_writes, Hh, hdr_tx_hdr by
    (try done; intros b Hb; by destruct (tx_home _ _ Ht b Hb)).
  rewrite wr_snoc, (proj2 (Z.eqb_neq x (log_start L))) by (intros ->; apply Hx; unfold in_log; lia).
  change (wr (disk_block D) (install_writes L (disk_block D) B) x = V x).
  rewrite (install_home L V) by done. destruct (decide (x ∈ B)) as [Hin|Hnin].
  - apply wr_in.
    + unfold home_writes. rewrite <- list_fmap_compose. cbn. rewrite list_fmap_id. apply Ht.
    + unfold home_writes. apply list_elem_of_fmap. eauto.
  - rewrite wr_notin; [by apply Hrest|]. unfold home_writes. rewrite <- list_fmap_compose. cbn. by rewrite list_fmap_id.
Qed.

(** The contents after the transaction. *)
Definition after_tx (V0 V : Z -> block) (B : list Z) (x : Z) : block :=
  if decide (x ∈ B) then V x else V0 x.

Lemma home_fst V B : (home_writes V B).*1 = B.
Proof. unfold home_writes. rewrite <- list_fmap_compose. cbn. apply list_fmap_id. Qed.

Lemma wr_home V0 V B x : NoDup B -> wr V0 (home_writes V B) x = after_tx V0 V B x.
Proof.
  intros Hnd. unfold after_tx. case_decide as Hx.
  - apply wr_in; [by rewrite home_fst|]. unfold home_writes. apply list_elem_of_fmap. eauto.
  - apply wr_notin. by rewrite home_fst.
Qed.

(** The points at which a sequence of writes can be cut. *)
Lemma cut_cases {A} (P W X Z' : list A) (h h' : A) : P ++ W = X ++ [h] ++ Z' ++ [h'] ->
  P `prefix_of` X \/ (exists Q, Q `prefix_of` Z' /\ P = X ++ [h] ++ Q) \/ P = X ++ [h] ++ Z' ++ [h'].
Proof.
  intros E. apply app_eq_inv in E as [(Q & -> & E)|(Q & -> & E)].
  - destruct Q as [|q Q]; [left; by exists []; rewrite !app_nil_r|].
    right. cbn [app] in E. injection E as <- E. symmetry in E.
    apply app_eq_inv in E as [(R & -> & E)|(R & -> & E)].
    + destruct R as [|r R]; [left; exists Z'; split; [done|by rewrite app_nil_r]|].
      cbn in E. injection E as <- E. symmetry in E. apply app_eq_nil in E as [-> ->]. by right.
    + left. exists Q. split; [by exists R|done].
  - left. by exists Q.
Qed.

Section Crash.
Context (L : log_t) (B : list Z) (V : Z -> block) (D : gmap Z block).
Hypothesis Ht : tx L B.
Hypothesis Hlen : length (V (log_start L)) = bsize.
Hypothesis Hclean : V (log_start L) = disk_block D (log_start L).
Hypothesis Hempty : get32 (disk_block D (log_start L)) 0 = 0.

Let recovered (P : list (Z * block)) : Z -> block :=
  disk_block (recover_disk (log_start L) (apply_writes D P)).

Lemma log_out x : ~ in_log L x -> x ∉ (log_writes L V B).*1.
Proof.
  intros Hx (k & Hk & ->)%log_writes_fst. apply Hx. destruct (tx_fit _ _ Ht). unfold in_log, log_block. lia.
Qed.

Lemma start_out x : ~ in_log L x -> x <> log_start L.
Proof. intros Hx ->. apply Hx. destruct (tx_fit _ _ Ht). unfold in_log. lia. Qed.

Lemma prefix_fst (P W : list (Z * block)) x : P `prefix_of` W -> x ∈ P.*1 -> x ∈ W.*1.
Proof. intros [Q ->]. rewrite fmap_app, elem_of_app. by left. Qed.

(** The header is not written yet. *)
Lemma crash_before P x : P `prefix_of` log_writes L V B -> ~ in_log L x -> recovered P x = disk_block D x.
Proof.
  intros HP Hx. unfold recovered. rewrite (recover_empty L _ B); [|done| |done]; rewrite disk_block_writes, wr_notin; try done.
  - intros Hin. eapply log_out; [exact Hx|by eapply prefix_fst].
  - intros Hin. eapply start_not_log. by eapply prefix_fst.
Qed.

(** The header is written, and some of the home blocks. *)
Lemma crash_committed Q x : Q `prefix_of` home_writes V B -> ~ in_log L x ->
  recovered (log_writes L V B ++ [(log_start L, hdr (V (log_start L)) B)] ++ Q) x =
  after_tx (disk_block D) V B x.
Proof.
  intros HQ Hx. assert (HQB : forall y, y ∈ Q.*1 -> y ∈ B).
  { intros y Hy. rewrite <- (home_fst V B). by eapply prefix_fst. }
  eapply (recover_committed L _ B (after_tx (disk_block D) V B) (V (log_start L))); try done.
  - rewrite disk_block_writes, app_assoc, wr_app, wr_notin, wr_snoc, Z.eqb_refl; [done|].
    intros Hin%HQB. by eapply start_not_home.
  - intros k b Hb. pose proof (lookup_lt_Some _ _ _ Hb).
    rewrite disk_block_writes, app_assoc, wr_app, (log_block_notin L B), (log_view _ _ _ _ k b) by done.
    unfold after_tx. rewrite decide_True by (by eapply list_elem_of_lookup_2). done.
  - intros y Hy Hyl. unfold after_tx. rewrite decide_False by done. rewrite disk_block_writes.
    apply wr_notin. rewrite !fmap_app, !elem_of_app. intros [Hin|[Hin|Hin]].
    + by eapply log_out.
    + apply list_elem_of_singleton in Hin. by apply (start_out y).
    + by apply Hy, HQB.
Qed.

(** The transaction is erased from the log. *)
Lemma crash_after x : ~ in_log L x -> recovered (commit_writes L V B) x = after_tx (disk_block D) V B x.
Proof.
  intros Hx. destruct (tx_fit _ _ Ht) as [_ Hf]. change HEAD with 30%nat in Hf. unfold recovered.
  rewrite (recover_empty L _ B); [|done| |done]; rewrite disk_block_writes; unfold commit_writes; rewrite !app_assoc, wr_snoc.
  - rewrite (proj2 (Z.eqb_neq _ _)) by (by apply start_out). rewrite wr_app, wr_home by apply Ht.
    unfold after_tx. case_decide; [done|]. rewrite wr_snoc, (proj2 (Z.eqb_neq _ _)) by (by apply start_out).
    by apply wr_notin, log_out.
  - rewrite Z.eqb_refl, hdr_n; [done|apply length_hdr; [done|lia]|simpl; lia].
Qed.

(** After any prefix of the commit's writes, recovery gives all old or all new
    contents. *)
Lemma crash_prefix P W : commit_writes L V B = P ++ W ->
  (forall x, ~ in_log L x -> recovered P x = disk_block D x) \/
  (forall x, ~ in_log L x -> recovered P x = after_tx (disk_block D) V B x).
Proof.
  intros HW. symmetry in HW. destruct (cut_cases _ _ _ _ _ _ HW) as [HP|[(Q & HQ & ->)| ->]].
  - left. intros x. by apply crash_before.
  - right. intros x. by apply crash_committed.
  - right. intros x. apply crash_after.
Qed.
End Crash.

(** *** The code of recovery *)

Lemma i32_home x : u32 (i32 x) < 2 ^ 31 -> i32 x = u32 (i32 x).
Proof.
  intros Hx. pose proof (i32_range x) as Hr. unfold u32 in *.
  destruct (Z.leb_spec 0 (i32 x)); [by rewrite Z.mod_small by lia|].
  exfalso. rewrite <- (Z.mod_add _ 1), Z.mod_small in Hx by lia. lia.
Qed.

(** What recovery finds on disk: a log area and a transaction that fits it. *)
Record recoverable (L : log_t) (h : block) : Prop := {
  rv_dev : log_dev L = ROOTDEV;
  rv_area : 0 < log_start L /\ log_start L + log_size L < 2 ^ 31;
  rv_array : length (lh_block (log_lh L)) = 30%nat;
  rv_n : 0 <= i32 (get32 h 0);
  rv_fit : Z.of_nat (length (hdr_tx h)) < log_size L /\ (length (hdr_tx h) < HEAD)%nat;
  rv_nodup : NoDup (hdr_tx h);
  rv_home : forall b, b ∈ hdr_tx h -> 0 <= b < 2 ^ 31 /\ ~ in_log L b
}.

Lemma length_hdr_tx h : length (hdr_tx h) = Z.to_nat (i32 (get32 h 0)).
Proof. unfold hdr_tx. by rewrite length_fmap, length_seq. Qed.

(** The in-memory header after [read_head]. *)
Lemma recoverable_tx L h n l : recoverable L h -> n = i32 (get32 h 0) ->
  (forall j, (j < length (hdr_tx h))%nat -> l !! j = Some (i32 (get32 h (4 + 4 * j)))) ->
  tx (set_log_lh (mk_logheader n l) L) (hdr_tx h).
Proof.
  intros Hr -> Hl. split.
  - apply Hr.
  - change (i32 (get32 h 0) = Z.of_nat (length (hdr_tx h))). rewrite length_hdr_tx.
    pose proof (rv_n _ _ Hr). lia.
  - intros k b Hb. change (l !! k = Some b). rewrite Hl by (by eapply lookup_lt_Some). f_equal.
    destruct (rv_home _ _ Hr b (list_elem_of_lookup_2 _ _ _ Hb)) as [Hbr _].
    pose proof (lookup_lt_Some _ _ _ Hb) as Hk. rewrite length_hdr_tx in Hk.
    unfold hdr_tx in Hb. rewrite list_lookup_fmap, lookup_seq_lt in Hb by done.
    cbn [fmap option_fmap option_map] in Hb. rewrite Nat.add_0_l in Hb. injection Hb as <-.
    apply i32_home. lia.
  - apply Hr.
  - apply Hr.
  - apply Hr.
  - apply Hr.
Qed.

Lemma wp_read_head s (Q : unit -> kstate -> Prop) :
  let h := vw s (log_start (klog s)) in
  cache s [] -> recoverable (klog s) h -> only_pinned s [] -> h = disk_block (disk s) (log_start (klog s)) ->
  (forall s', cache s' [] -> tx (klog s') (hdr_tx h) -> log_start (klog s') = log_start (klog s) ->
     log_size (klog s') = log_size (klog s) -> length (lh_block (log_lh (klog s'))) = 30%nat ->
     cache_step (set_klog (klog s') s) s' -> only_pinned s' [] -> writes s s' [] -> Q tt s') ->
  wp read_head Q s.
Proof.
  intros h Hc Hr Hp Hcl HQ. destruct (rv_area _ _ Hr) as [Ha1 Ha2].
  destruct (rv_fit _ _ Hr) as [Hf1 Hf2]. unfold read_head, log_get. wsteps. rewrite (rv_dev _ _ Hr), u32_id by lia.
  set (st := log_start (klog s)) in *. destruct (cache_ok _ _ _ Hc) as [order Hinv].
  apply (wp_cache_bread s [] st); [done|set_solver|rewrite Hp; simpl; lia|right; eapply (only_pinned_free s []); [exact Hinv|done|simpl; lia]|].
  intros i s1 Hc1 Hi Hst1 D1 T1 V1 P1. pose proof (cache_step_klog _ _ Hst1) as E1.
  destruct (holds_buf [] s1 _ i st Hc1 ltac:(left)) as (_ & b & nm & _ & Hb & _ & _ & _ & _ & Hvb & _).
  wstep. eapply wp_get_buf; [by apply bufs_lookup in Hb as [Hb _]; exact Hb|]. rewrite <- Hvb, V1. fold h.
  unfold log_modify. wsteps. set (n := i32 (get32 h 0)) in *.
  pose proof (rv_n _ _ Hr) as Hn0. fold n in Hn0. pose proof (length_hdr_tx h) as Hlen. fold n in Hlen.
  change (lh_n (log_lh (klog (set_klog (set_lh_n n (klog s1)) s1)))) with n.
  apply (wp_tx_loop n _ (fun k s' => exists l, length l = 30%nat /\
     (forall j, (j < Z.to_nat k)%nat -> l !! j = Some (i32 (get32 h (4 + 4 * j)))) /\
     s' = set_klog (set_log_lh (mk_logheader n l) (klog s1)) s1)).
  - done.
  - exists (lh_block (log_lh (klog s1))). split; [rewrite E1; apply Hr|]. split; [lia|done].
  - intros k s' Hk (l & Hl & Hj & ->). change HEAD with 30%nat in Hf2.
    destruct (lookup_lt_is_Some_2 l (Z.to_nat k)) as [x Hx]; [lia|]. unfold put_lh_block. wstep.
    eapply wp_get_lh_block; [exact Hx|]. unfold log_modify. wsteps.
    exists (<[Z.to_nat k := i32 (get32 h (4 + 4 * Z.to_nat k))]> l).
    split; [by rewrite length_insert|]. split; [|done]. intros j Hjk.
    destruct (decide (j = Z.to_nat k)) as [->|Hne]; [by rewrite list_lookup_insert_eq by lia|].
    rewrite list_lookup_insert_ne by done. apply Hj. lia.
  - intros s2 (l & Hl & Hj & ->). set (L' := set_log_lh _ _). assert (Hc2 : cache (set_klog L' s1) [(i, st)]) by (by apply cache_klog).
    eapply (wp_cache_brelse _ [] i st); [exact Hc2|set_solver|right; change (vw s1 st = disk_block (disk s1) st); by rewrite V1, D1|].
    intros s3 Hc3 Hst3 D3 T3 V3 P3. pose proof (cache_step_klog _ _ Hst3) as E3. change (klog (set_klog L' s1)) with L' in E3.
    apply HQ; rewrite ?E3; [done| |change (log_start (klog s1) = st); by rewrite E1
      |change (log_size (klog s1) = log_size (klog s)); by rewrite E1|done| | |].
    + unfold L'. rewrite E1. by apply recoverable_tx; [done|done|rewrite Hlen].
    + eapply cache_step_trans; [|exact Hst3]. by apply cache_step_set_klog.
    + intros x. rewrite P3. change (pins (set_klog L' s1)) with (pins s1). rewrite !P1, Z.eqb_refl, !Hp.
      by destruct (x =? st).
    + apply writes_nil; [by rewrite D3|by rewrite T3|]. intros x. rewrite V3. apply V1.
Qed.

(** Recovery runs [install_trans] on blocks that were never pinned.  Each home
    block that was installed keeps a reference count of [-1], as a 32-bit number. *)
Definition leaked (s : kstate) (B : list Z) : Prop :=
  forall x, pins s x = if decide (x ∈ B) then 2 ^ 32 - 1 else 0.

Lemma leaked_in s B x : leaked s B -> pins s x <> 0 -> x ∈ B.
Proof. intros Hl. rewrite Hl. by case_decide. Qed.

Lemma wp_recover_body s B k b (Q : unit -> kstate -> Prop) :
  cache s [] -> tx (klog s) B -> leaked s (take k B) -> B !! k = Some b ->
  vw s (log_block (klog s) k) = disk_block (disk s) (log_block (klog s) k) ->
  (forall s', cache s' [] -> cache_step s s' -> leaked s' (take (S k) B) ->
     writes s s' [(b, vw s (log_block (klog s) k))] -> Q tt s') ->
  wp (install_one (Z.of_nat k)) Q s.
Proof.
  intros Hc Ht Hp Hk Hclean HQ. pose proof (list_elem_of_lookup_2 _ _ _ Hk) as Hb.
  pose proof (lookup_lt_Some _ _ _ Hk) as Hlt. pose proof (log_block_out _ _ _ _ Ht Hlt Hb) as Hne.
  destruct (tx_fit _ _ Ht) as [_ Hf]. assert (Hlt' : (length (take k B) < length B)%nat) by (rewrite length_take; lia).
  assert (Hbk : b ∉ take k B).
  { pose proof (tx_nodup _ _ Ht) as Hnd. rewrite <- (take_drop k B), (drop_S _ _ _ Hk) in Hnd.
    apply NoDup_app in Hnd as (_ & Hdis & _). intros Hin. apply (Hdis b Hin). by left. }
  assert (Hpb : pins s b = 0) by (by rewrite Hp, decide_False).
  assert (Hpl : pins s (log_block (klog s) k) = 0).
  { rewrite Hp, decide_False; [done|]. intros Hin. eapply log_block_out; [exact Ht|exact Hlt| |reflexivity].
    eapply subseteq_take, Hin. }
  apply (wp_install_front s B k b (fun lbuf dbuf => bunpin dbuf ;;; brelse lbuf ;;; brelse dbuf)); try done.
  - destruct (cache_ok _ _ _ Hc) as [order Hinv]. eapply (free_buffer s order (take k B)); [done|lia|].
    intros x. by apply leaked_in.
  - lia.
  - right. exists (take k B). split; [lia|]. intros x. by apply leaked_in.
  - intros lbuf dbuf s4 lb Hc4 Hdl Hst4 D4 T4 V4 P4. wstep.
    eapply (wp_cache_bunpin_last s4 _ dbuf b); [exact Hc4|apply held_ok_head; set_solver|rewrite P4, Z.eqb_refl; lia| |].
    { rewrite V4, Z.eqb_refl, D4. unfold disk_block. by rewrite lookup_insert_eq. }
    intros s5 Hc5 Hst5 D5 T5 V5 P5. wstep.
    assert (Hc5' : cache_ex [dbuf] s5 [(lbuf, lb); (dbuf, b)]) by (eapply cache_perm; [|exact Hc5]; set_solver).
    eapply (wp_cache_brelse_gen [dbuf] s5 _ lbuf lb 0); [exact Hc5'|set_solver| | |].
    { rewrite P5, P4, (proj2 (Z.eqb_neq lb b)), Z.eqb_refl by done. done. }
    { intros _. rewrite V5, V4, D5, D4, (proj2 (Z.eqb_neq lb b)) by done. unfold disk_block.
      by rewrite lookup_insert_ne by done. }
    intros s6 Hc6 Hst6 D6 T6 V6 P6. rewrite filter_cons_True, filter_nil in Hc6 by done.
    eapply (wp_cache_brelse_gen [dbuf] s6 _ dbuf b (2 ^ 32 - 1)); [exact Hc6|set_solver| |done|].
    { rewrite P6, P5, (proj2 (Z.eqb_neq b lb)), Z.eqb_refl by done. done. }
    intros s7 Hc7 Hst7 D7 T7 V7 P7. rewrite filter_cons_False, filter_nil in Hc7 by (intros []; done).
    apply HQ; [done|by cache_steps| |].
    + intros x. rewrite P7, P6, P5, P4, (take_S_r _ _ _ Hk). pose proof (Hp x) as Hx.
      destruct (Z.eqb_spec x b) as [->|Hxb]; [by rewrite decide_True by set_solver|].
      destruct (Z.eqb_spec x lb) as [->|Hxl].
      * fold lb in Hpl. rewrite decide_False; [done|]. rewrite Hpl in Hx.
        intros [Hin|Hin%list_elem_of_singleton]%elem_of_app; [|done]. by rewrite decide_True in Hx.
      * rewrite Hx. repeat case_decide; set_solver.
    + split; [by rewrite D7, D6, D5, D4|by rewrite T7, T6, T5, T4|].
      intros x. rewrite V7, V6, V5, V4. done.
Qed.

Lemma wp_recover_install s B (Q : unit -> kstate -> Prop) :
  cache s [] -> tx (klog s) B -> only_pinned s [] ->
  (forall k, (k < length B)%nat -> vw s (log_block (klog s) k) = disk_block (disk s) (log_block (klog s) k)) ->
  (forall s', cache s' [] -> cache_step s s' -> leaked s' B ->
     writes s s' (install_writes (klog s) (vw s) B) -> Q tt s') ->
  wp install_trans Q s.
Proof.
  intros Hc Ht Hp Hcl HQ. apply (wp_install_loop (fun k s' => leaked s' (take k B)) s B); [done|done| |done|..].
  - intros x. by rewrite Hp.
  - intros s1 k b Hc1 Ht1 Hp1 Hb Hcl1. by apply (wp_recover_body s1 B k b).
  - intros s' Hc' Hst Hp' Hw. rewrite firstn_all in Hp'. by apply HQ.
Qed.

(** [recover_from_log] on a disk with a well-formed log. *)
Lemma wp_recover s (Q : unit -> kstate -> Prop) :
  let st := log_start (klog s) in
  cache s [] -> only_pinned s [] -> (forall x, vw s x = disk_block (disk s) x) ->
  recoverable (klog s) (disk_block (disk s) st) ->
  (forall s', cache s' [] -> leaked s' (hdr_tx (disk_block (disk s) st)) ->
     lh_n (log_lh (klog s')) = 0 -> cache_step (set_klog (klog s') s) s' ->
     writes s s' (recover_writes st (disk s)) -> Q tt s') ->
  wp recover_from_log Q s.
Proof.
  intros st Hc Hp Hcl Hr HQ. unfold recover_from_log. wstep. destruct (rv_area _ _ Hr) as [Ha1 Ha2].
  set (B := hdr_tx (disk_block (disk s) st)) in *.
  apply (wp_read_head s); fold st; rewrite ?Hcl; [done|done|done|done|]. fold B.
  intros s1 Hc1 Ht1 E1 E1' _ Hst1 Hp1 Hw1. wstep. destruct (tx_fit _ _ Ht1) as [Hf1 Hf2].
  assert (Hcl1 : forall x, vw s1 x = disk_block (disk s1) x).
  { intros x. by rewrite (wt_view _ _ _ Hw1), (wt_disk _ _ _ Hw1), <- Hcl. }
  apply (wp_recover_install s1 B); [done|done|done|by intros; apply Hcl1|].
  intros s2 Hc2 Hst2 Hp2 Hw2. pose proof (cache_step_klog _ _ Hst2) as E2.
  unfold log_modify. wsteps. set (s2' := set_klog _ s2).
  assert (Est : log_start (klog s2') = st) by (change (log_start (klog s2) = st); by rewrite E2, E1).
  assert (Hdev : log_dev (klog s2') = ROOTDEV) by (change (log_dev (klog s2) = ROOTDEV); rewrite E2; apply Ht1).
  destruct (cache_ok _ _ _ Hc2) as [order2 Hinv2].
  apply (wp_write_head s2' []); rewrite ?Est; [by apply cache_klog|done|unfold st in *; lia|done|done| |..].
  { change (pins s2 st = 0). rewrite Hp2, decide_False; [done|]. rewrite <- E1. by apply start_not_home. }
  { change (exists i b, bufs s2 !! i = Some b /\ b_refcnt b = 0).
    eapply (free_buffer s2 order2 B); [done|done|]. intros x. by apply leaked_in. }
  intros s3 Hc3 Hst3 Hp3 Hw3. pose proof (cache_step_klog _ _ Hst3) as E3.
  apply HQ; [done|intros x; rewrite Hp3; apply Hp2|by rewrite E3| |].
  - rewrite E3. eapply cache_step_trans; [|exact Hst3].
    exact (cache_step_set_klog _ _ (klog s2') (cache_step_trans _ _ _ Hst1 Hst2)).
  - assert (Hv1 : forall x, vw s1 x = disk_block (disk s) x) by (intros x; rewrite (wt_view _ _ _ Hw1); apply Hcl).
    assert (Hv2 : vw s2' st = disk_block (disk s) st).
    { change (vw s2 st = disk_block (disk s) st). rewrite (wt_view _ _ _ Hw2), wr_notin; [apply Hv1|].
      rewrite install_writes_fst, <- E1. by apply start_not_home. }
    rewrite Hv2 in Hw3.
    assert (Ei : install_writes (klog s1) (vw s1) B =
                 imap (fun k b => (b, disk_block (disk s) (st + Z.of_nat k + 1))) B).
    { apply list_eq. intros k. rewrite install_writes_lookup, list_lookup_imap. unfold log_block.
      rewrite E1, Hv1. done. }
    rewrite Ei in Hw2. pose proof (writes_trans _ _ _ _ _ Hw1 Hw2) as Hw12.
    assert (Hw12' : writes s s2' (imap (fun k b => (b, disk_block (disk s) (st + Z.of_nat k + 1))) B))
      by (destruct Hw12 as [D T V]; by split).
    exact (writes_trans _ _ _ _ _ Hw12' Hw3).
Qed.
End Commit.
