(* ===== verification/Atomic.v ===== *)
(** * Crash atomicity of the log (kernel/log.c)

    The writes of [Commit] put together with the code of recovery: whatever prefix
    of the writes of [commit] reached the disk before a crash, running
    [recover_from_log] after the reboot leaves the transaction done or not done;
    and recovery may itself be cut short and run again. *)

From stdpp Require Import gmap strings list fin_maps.
From Stdlib Require Import ZArith Lia.
From S2P Require Import Prelude Machine State Riscv Spinlock Sched Sleeplock Bytes Bio.
From S2P Require Import Cache Log Commit.
Open Scope Z_scope.

(** A machine that has just booted from the disk [D]: nothing is cached, and the
    log is where it was. *)
Record rebooted (L : log_t) (D : gmap Z block) (r : kstate) : Prop := {
  rb_cache : cache r [];
  rb_pins : only_pinned r [];
  rb_view : forall x, vw r x = disk_block D x;
  rb_disk : disk r = D;
  rb_log : log_start (klog r) = log_start L /\ log_size (klog r) = log_size L /\ log_dev (klog r) = log_dev L;
  rb_array : length (lh_block (log_lh (klog r))) = 30%nat
}.

Lemma recoverable_empty L B h : tx L B -> length (lh_block (log_lh L)) = 30%nat -> get32 h 0 = 0 -> recoverable L h.
Proof.
  intros Ht Ha Hz. pose proof (tx_area _ _ Ht). pose proof (tx_fit _ _ Ht).
  split; try rewrite (hdr_tx_empty h Hz); try rewrite Hz.
  - apply Ht.
  - done.
  - done.
  - done.
  - change (length []) with 0%nat. lia.
  - constructor.
  - intros b Hb. by apply not_elem_of_nil in Hb.
Qed.

Lemma recoverable_hdr L B d : tx L B -> length (lh_block (log_lh L)) = 30%nat -> length d = bsize ->
  recoverable L (hdr d B).
Proof.
  intros Ht Ha Hd. pose proof (tx_fit _ _ Ht) as [Hf1 Hf2]. change HEAD with 30%nat in *.
  assert (E : hdr_tx (hdr d B) = B)
    by (apply hdr_tx_hdr; [done|lia|]; intros b Hb; by destruct (tx_home _ _ Ht b Hb)).
  split; rewrite ?E; [apply Ht|apply Ht|done| |apply Ht..]. rewrite hdr_n, i32_id by (done || lia). lia.
Qed.

Lemma recoverable_ext L L' h : recoverable L h -> log_start L' = log_start L -> log_size L' = log_size L ->
  log_dev L' = log_dev L -> length (lh_block (log_lh L')) = 30%nat -> recoverable L' h.
Proof.
  intros [A1 A2 A3 A4 A5 A6 A7] E1 E2 E3 E4. split; unfold in_log in *; rewrite ?E1, ?E2, ?E3; done.
Qed.

(** The header on disk at each crash point. *)
Lemma crash_recoverable L B V D P W : tx L B -> length (lh_block (log_lh L)) = 30%nat ->
  length (V (log_start L)) = bsize -> get32 (disk_block D (log_start L)) 0 = 0 ->
  commit_writes L V B = P ++ W ->
  recoverable L (disk_block (apply_writes D P) (log_start L)).
Proof.
  intros Ht Ha Hd Hz HW. pose proof (tx_fit _ _ Ht) as [Hf1 Hf2]. change HEAD with 30%nat in *.
  symmetry in HW. rewrite disk_block_writes.
  destruct (cut_cases _ _ _ _ _ _ HW) as [HP|[(Q & HQ & ->)| ->]].
  - rewrite wr_notin by (intros Hin; eapply start_not_log, prefix_fst; eauto).
    by eapply recoverable_empty.
  - rewrite app_assoc, wr_app, wr_notin, wr_snoc, Z.eqb_refl; [by apply recoverable_hdr|].
    intros Hin. eapply start_not_home; [exact Ht|]. rewrite <- (home_fst V B). by eapply prefix_fst.
  - rewrite !app_assoc, wr_snoc, Z.eqb_refl. eapply recoverable_empty; [done|done|].
    rewrite hdr_n; [done|apply length_hdr; [done|lia]|simpl; lia].
Qed.

(** *** Interrupted recovery *)

Lemma wr_indep V V' W x : x ∈ W.*1 -> wr V W x = wr V' W x.
Proof.
  revert V V'; induction W as [|[b v] W IH]; intros V V' Hx; [by apply not_elem_of_nil in Hx|].
  destruct (decide (x ∈ W.*1)) as [Hin|Hnin]; [by apply (IH _ _ Hin)|].
  cbn [fmap list_fmap fst] in Hx. apply elem_of_cons in Hx as [->|Hx]; [|done].
  change (wr (fun y => if y =? b then v else V y) W b = wr (fun y => if y =? b then v else V' y) W b).
  by rewrite !wr_notin, Z.eqb_refl by done.
Qed.

(** Making a prefix of the writes first changes nothing. *)
Lemma wr_again V P W x : P `prefix_of` W -> wr (wr V P) W x = wr V W x.
Proof.
  intros HP. destruct (decide (x ∈ W.*1)) as [Hin|Hnin]; [by apply wr_indep|].
  rewrite (wr_notin (wr V P) W), (wr_notin V W) by done. apply wr_notin. intros Hin. by eapply Hnin, prefix_fst.
Qed.

Definition replay (st : Z) (D : gmap Z block) : list (Z * block) :=
  imap (fun k b => (b, disk_block D (st + Z.of_nat k + 1))) (hdr_tx (disk_block D st)).

Lemma replay_fst st D : (replay st D).*1 = hdr_tx (disk_block D st).
Proof.
  apply list_eq. intros k. unfold replay. rewrite list_lookup_fmap, list_lookup_imap.
  by destruct (hdr_tx (disk_block D st) !! k).
Qed.

(** While home blocks are installed, the log stays as it is. *)
Lemma replay_again L D P : recoverable L (disk_block D (log_start L)) -> P `prefix_of` replay (log_start L) D ->
  disk_block (apply_writes D P) (log_start L) = disk_block D (log_start L) /\
  replay (log_start L) (apply_writes D P) = replay (log_start L) D.
Proof.
  intros Hr HP. pose proof (rv_fit _ _ Hr) as [Hf _].
  assert (Hlog : forall x, in_log L x -> disk_block (apply_writes D P) x = disk_block D x).
  { intros x Hx. rewrite disk_block_writes. apply wr_notin. intros Hin.
    pose proof (prefix_fst _ _ _ HP Hin) as Hin'. rewrite replay_fst in Hin'.
    by destruct (rv_home _ _ Hr x Hin'). }
  assert (E : disk_block (apply_writes D P) (log_start L) = disk_block D (log_start L))
    by (apply Hlog; unfold in_log; lia).
  split; [done|]. unfold replay. rewrite E. apply list_eq. intros k. rewrite !list_lookup_imap.
  destruct (hdr_tx _ !! k) as [b|] eqn:Hk; [|done]. apply lookup_lt_Some in Hk. cbn.
  rewrite Hlog by (unfold in_log; lia). done.
Qed.

Lemma prefix_snoc {A} (P X : list A) h : P `prefix_of` X ++ [h] -> P `prefix_of` X \/ P = X ++ [h].
Proof.
  intros [W HW]. destruct (app_eq_inv _ _ _ _ HW) as [(Q & HP & E)|(Q & -> & E)]; [left; by exists Q|].
  destruct Q as [|q Q]; [left; by rewrite app_nil_r|]. right. cbn [app] in E. injection E as <- E.
  symmetry in E. by apply app_eq_nil in E as [-> ->].
Qed.

Lemma recoverable_cleared L h h' : recoverable L h -> get32 h' 0 = 0 -> recoverable L h'.
Proof.
  intros [A1 A2 A3 A4 A5 A6 A7] Hn. split; try rewrite (hdr_tx_empty _ Hn); try rewrite Hn; try done.
  - change (length []) with 0%nat. lia.
  - constructor.
  - intros b Hb. by apply not_elem_of_nil in Hb.
Qed.

Lemma recover_prefix L D P : recoverable L (disk_block D (log_start L)) ->
  length (disk_block D (log_start L)) = bsize -> P `prefix_of` recover_writes (log_start L) D ->
  recoverable L (disk_block (apply_writes D P) (log_start L)) /\
  forall x, ~ in_log L x ->
    disk_block (recover_disk (log_start L) (apply_writes D P)) x = disk_block (recover_disk (log_start L) D) x.
Proof.
  intros Hr Hd HP. pose proof (rv_fit _ _ Hr) as [Hf1 Hf2]. set (st := log_start L) in *.
  unfold recover_writes in HP. fold (replay st D) in HP.
  destruct (prefix_snoc _ _ _ HP) as [HP'| ->].
  - destruct (replay_again L D P Hr HP') as [E1 E2]. fold st in E1, E2. split; [by rewrite E1|].
    intros x Hx. unfold recover_disk, recover_writes. fold (replay st (apply_writes D P)) (replay st D).
    rewrite E1, E2, !disk_block_writes, <- (wr_again (disk_block D) P (replay st D ++ _)) by exact HP.
    apply wr_ext. intros y. apply disk_block_writes.
  - assert (E0 : disk_block (apply_writes D (replay st D ++ [(st, hdr (disk_block D st) [])])) st = hdr (disk_block D st) [])
      by (by rewrite disk_block_writes, wr_snoc, Z.eqb_refl).
    assert (Hn : get32 (hdr (disk_block D st) []) 0 = 0) by (rewrite hdr_n; [done|done|simpl; lia]).
    rewrite E0. split; [by eapply recoverable_cleared|].
    intros x Hx. unfold recover_disk at 1, recover_writes. rewrite E0, (hdr_tx_empty _ Hn). cbn [imap app].
    rewrite disk_block_writes, wr_notin; [done|]. cbn. rewrite list_elem_of_singleton. intros ->.
    apply Hx. unfold in_log. fold st. lia.
Qed.

Section Atomic.
Context `{World kstate} `{BlockDev}.

Lemma run_recover L D r : rebooted L D r -> recoverable L (disk_block D (log_start L)) ->
  exists r', recover_from_log r = Ok tt r' /\ cache r' [] /\ lh_n (log_lh (klog r')) = 0 /\
    leaked r' (hdr_tx (disk_block D (log_start L))) /\
    writes r r' (recover_writes (log_start L) D) /\ disk r' = recover_disk (log_start L) D.
Proof.
  intros [Hc Hp Hv <- (E1 & E2 & E3) Ha] Hr. apply wp_run_unit.
  assert (Hr' : recoverable (klog r) (disk_block (disk r) (log_start (klog r)))).
  { rewrite E1. by eapply recoverable_ext. }
  apply (wp_recover r); [done..|]. rewrite !E1. intros r' Hc' Hl Hn _ Hw.
  repeat (split; [done|]). apply Hw.
Qed.

Lemma run_commit s B : cache s [] -> tx (klog s) B -> only_pinned s B ->
  exists s' W, commit s = Ok tt s' /\ cache s' [] /\ only_pinned s' [] /\ klog s' = set_lh_n 0 (klog s) /\
    writes s s' W /\ (W = commit_writes (klog s) (vw s) B \/ (B = [] /\ W = [])).
Proof.
  intros Hc Ht Hp. destruct (decide (B = [])) as [->|HB].
  - exists s, []. unfold commit, log_get. pose proof (tx_n _ _ Ht) as Hn. simpl in Hn.
    split; [unfold bind, gets; by rewrite Hn|]. split; [done|]. split; [done|].
    split; [by destruct (klog s) as [? ? ? ? ? []]; simpl in *; subst|].
    split; [by apply writes_nil|by right].
  - destruct (wp_run_unit commit (fun s' => cache s' [] /\ only_pinned s' [] /\ klog s' = set_lh_n 0 (klog s) /\
      writes s s' (commit_writes (klog s) (vw s) B)) s) as (s' & Hr & Hc' & Hp' & El & Hw).
    { by apply (wp_commit s B). }
    exists s', (commit_writes (klog s) (vw s) B). auto 10.
Qed.

(** C1: a transaction is atomic.  [commit] runs to completion, unpins the blocks of
    the transaction and leaves each of them on disk with its cached contents; and
    if the machine stops after any prefix [P] of the disk writes [commit] makes,
    then [recover_from_log], run on a rebooted machine, runs to completion and
    leaves outside of the log either the disk as it was before the commit, or the
    disk with the whole transaction. *)
Theorem commit_atomic (s : kstate) (B : list Z) :
  cache s [] -> tx (klog s) B -> length (lh_block (log_lh (klog s))) = 30%nat -> only_pinned s B ->
  vw s (log_start (klog s)) = disk_block (disk s) (log_start (klog s)) ->
  length (vw s (log_start (klog s))) = bsize -> get32 (disk_block (disk s) (log_start (klog s))) 0 = 0 ->
  exists s' W, commit s = Ok tt s' /\ cache s' [] /\ only_pinned s' [] /\ lh_n (log_lh (klog s')) = 0 /\
    dtrace s' = reverse W ++ dtrace s /\
    (forall x, ~ in_log (klog s) x -> disk_block (disk s') x = after_tx (disk_block (disk s)) (vw s) B x) /\
    forall P r, P `prefix_of` W -> rebooted (klog s) (apply_writes (disk s) P) r ->
      exists r', recover_from_log r = Ok tt r' /\ lh_n (log_lh (klog r')) = 0 /\
        ((forall x, ~ in_log (klog s) x -> disk_block (disk r') x = disk_block (disk s) x) \/
         (forall x, ~ in_log (klog s) x -> disk_block (disk r') x = after_tx (disk_block (disk s)) (vw s) B x)).
Proof.
  intros Hc Ht Ha Hp Hcl Hlen Hz. destruct (run_commit s B Hc Ht Hp) as (s' & W & Hr & Hc' & Hp' & El & Hw & HW).
  exists s', W. split; [done|]. split; [done|]. split; [done|]. split; [by rewrite El|]. split; [apply Hw|]. split.
  - intros x Hx. rewrite (wt_disk _ _ _ Hw), disk_block_writes. destruct HW as [->|[-> ->]]; [|done].
    rewrite <- (crash_after (klog s) B (vw s) (disk s)) by done.
    rewrite <- disk_block_writes. symmetry. eapply (recover_empty (klog s) _ B); [done| |done].
    rewrite disk_block_writes. unfold commit_writes. rewrite !app_assoc, wr_snoc, Z.eqb_refl.
    pose proof (tx_fit _ _ Ht) as [_ Hf]. change HEAD with 30%nat in Hf.
    rewrite hdr_n; [done|apply length_hdr; [done|lia]|simpl; lia].
  - intros P r [W' ->] Hrb. destruct HW as [HW|[-> HW]].
    + destruct (run_recover _ _ r Hrb) as (r' & Hr' & _ & Hn' & _ & _ & Hd'); [by eapply crash_recoverable|].
      exists r'. split; [done|]. split; [done|]. rewrite Hd'. by eapply crash_prefix.
    + apply app_eq_nil in HW as [-> ->].
      destruct (run_recover _ _ r Hrb) as (r' & Hr' & _ & Hn' & _ & _ & Hd'); [by eapply recoverable_empty|].
      exists r'. split; [done|]. split; [done|]. left. intros x Hx. rewrite Hd'. by eapply (recover_empty (klog s) _ []).
Qed.

(** recovery installs the transaction recorded in the log and nothing else: each
    block listed in the header gets the contents of its slot in the log, all other
    blocks but the header stay as they were.  If recovery is itself interrupted
    after any prefix of its writes, running it again after the next reboot
    completes and gives the same blocks outside of the log. *)
Theorem recover_restart (L : log_t) (D : gmap Z block) (r : kstate) :
  rebooted L D r -> recoverable L (disk_block D (log_start L)) -> length (disk_block D (log_start L)) = bsize ->
  exists r' W, recover_from_log r = Ok tt r' /\ dtrace r' = reverse W ++ dtrace r /\
    get32 (disk_block (disk r') (log_start L)) 0 = 0 /\
    (forall k b, hdr_tx (disk_block D (log_start L)) !! k = Some b ->
       disk_block (disk r') b = disk_block D (log_block L k)) /\
    (forall x, x ∉ hdr_tx (disk_block D (log_start L)) -> x <> log_start L ->
       disk_block (disk r') x = disk_block D x) /\
    forall P r2, P `prefix_of` W -> rebooted L (apply_writes D P) r2 ->
      exists r2', recover_from_log r2 = Ok tt r2' /\
        forall x, ~ in_log L x -> disk_block (disk r2') x = disk_block (disk r') x.
Proof.
  intros Hrb Hr Hd. destruct (run_recover _ _ r Hrb Hr) as (r' & Hrun & _ & _ & _ & Hw & Hdk).
  exists r', (recover_writes (log_start L) D). split; [done|]. split; [apply Hw|].
  pose proof (rv_fit _ _ Hr) as [Hf _]. rewrite Hdk. unfold recover_disk at 1 2 3, recover_writes.
  fold (replay (log_start L) D). split; [|split; [|split]].
  - rewrite disk_block_writes, wr_snoc, Z.eqb_refl, hdr_n; [done|done|simpl; lia].
  - intros k b Hb. pose proof (list_elem_of_lookup_2 _ _ _ Hb) as Hin.
    assert (b <> log_start L) by (intros ->; destruct (rv_home _ _ Hr _ Hin) as [_ Hn]; apply Hn; unfold in_log; lia).
    rewrite disk_block_writes, wr_snoc, (proj2 (Z.eqb_neq _ _)) by done.
    apply wr_in; [rewrite replay_fst; apply Hr|]. apply (list_elem_of_lookup_2 _ k).
    unfold replay. by rewrite list_lookup_imap, Hb.
  - intros x Hx Hne. rewrite disk_block_writes, wr_snoc, (proj2 (Z.eqb_neq _ _)) by done.
    apply wr_notin. by rewrite replay_fst.
  - intros P r2 HP Hrb2. destruct (recover_prefix L D P Hr Hd HP) as [Hr2 Hsame].
    destruct (run_recover _ _ r2 Hrb2 Hr2) as (r2' & Hrun2 & _ & _ & _ & _ & Hdk2).
    exists r2'. split; [done|]. by rewrite Hdk2.
Qed.

(** C40: recovery leaks references.  [install_trans] unpins every block it installs,
    but during recovery none of them was pinned: afterwards the reference count of
    each installed block is the unsigned [-1] instead of 0. *)
Theorem recover_leaks (L : log_t) (D : gmap Z block) (r : kstate) (b : Z) :
  rebooted L D r -> recoverable L (disk_block D (log_start L)) -> b ∈ hdr_tx (disk_block D (log_start L)) ->
  exists r' i e, recover_from_log r = Ok tt r' /\ bufs r' !! i = Some e /\ is_block b e /\
    b_refcnt e = 2 ^ 32 - 1 /\ pins r b = 0.
Proof.
  intros Hrb Hr Hb. destruct (run_recover _ _ r Hrb Hr) as (r' & Hrun & _ & _ & Hl & _).
  assert (Hp : pins r' b = 2 ^ 32 - 1) by (rewrite Hl; by rewrite decide_True).
  destruct (pins_pos r' b) as (i & e & He & Hk & Hc); [by rewrite Hp|].
  exists r', i, e. rewrite Hc. split; [done|]. split; [done|]. split; [done|]. split; [done|].
  rewrite (rb_pins _ _ _ Hrb). by case_decide as Hin; [apply not_elem_of_nil in Hin|].
Qed.
End Atomic.

(** ** A concrete log

    The log is at blocks 2 to 31, as mkfs lays it out. *)
Definition ex_log (n : Z) (l : list Z) : log_t :=
  mk_log 2 30 0 false ROOTDEV (mk_logheader n (l ++ replicate (30 - length l) 0)).

(** Block 50 is changed in the cache, logged and pinned. *)
Definition ex_logged : kstate := ex_cached [(50, 1, replicate 1024 7)] ∅ (ex_log 1 [50]).

(** The disk of a machine that stopped right after the commit point. *)
Definition ex_committed : gmap Z block := {[2 := hdr zero_block [50]; 3 := replicate 1024 7]}.

Lemma ex_tx : tx (ex_log 1 [50]) [50].
Proof.
  split.
  - reflexivity.
  - reflexivity.
  - intros [|k] b Hb; [exact Hb|discriminate].
  - split; reflexivity.
  - split; [reflexivity|change HEAD with 30%nat; simpl; lia].
  - apply NoDup_singleton.
  - intros b ->%list_elem_of_singleton. simpl. lia.
Qed.

Lemma ex_rebooted D : rebooted (ex_log 1 [50]) D (ex_fs D (ex_log 0 [])).
Proof.
  split.
  - apply ex_fs_cache.
  - intros x. by rewrite ex_pins_out by apply not_elem_of_nil.
  - intros x. by rewrite ex_view_out by apply not_elem_of_nil.
  - reflexivity.
  - done.
  - reflexivity.
Qed.

Lemma ex_zero_len : length zero_block = bsize.
Proof. reflexivity. Qed.

Lemma ex_header : disk_block ex_committed (log_start (ex_log 1 [50])) = hdr zero_block [50].
Proof. reflexivity. Qed.

Lemma ex_recoverable : recoverable (ex_log 1 [50]) (disk_block ex_committed (log_start (ex_log 1 [50]))).
Proof. rewrite ex_header. apply recoverable_hdr; [exact ex_tx|reflexivity|exact ex_zero_len]. Qed.

Lemma ex_hdr_tx : hdr_tx (disk_block ex_committed (log_start (ex_log 1 [50]))) = [50].
Proof. vm_compute. reflexivity. Qed.

Lemma ex_refs i bno r v : [(50, 1, replicate 1024 7)] !! i = Some (bno, r, v) -> 0 < r < 2 ^ 32.
Proof. destruct i as [|i]; [|done]. intros [= <- <- <-]. lia. Qed.

Lemma ex_logged_pins : only_pinned ex_logged [50].
Proof.
  intros x. case_decide as Hx.
  - apply list_elem_of_singleton in Hx as ->. eapply (ex_pins _ _ _ (NoDup_singleton 50 : NoDup ([(50, 1, replicate 1024 7)].*1).*1) ex_refs 0); [reflexivity|change HEAD with 30%nat; lia].
  - by apply ex_pins_out.
Qed.

Lemma ex_logged_cache : cache ex_logged [].
Proof. apply ex_cache; [apply NoDup_singleton|exact ex_refs]. Qed.

Lemma ex_logged_view : vw ex_logged 2 = zero_block.
Proof. apply ex_view_out. cbn. rewrite list_elem_of_singleton. done. Qed.

Lemma commit_atomic_witness :
  exists s' W, commit (H := idle_world) (H0 := sync_dev) ex_logged = Ok tt s' /\
    disk_block (disk s') 50 = after_tx (disk_block ∅) (vw ex_logged) [50] 50 /\
    forall P, P `prefix_of` W -> exists r',
      recover_from_log (H := idle_world) (H0 := sync_dev) (ex_fs (apply_writes ∅ P) (ex_log 0 [])) = Ok tt r'.
Proof.
  destruct (commit_atomic (H := idle_world) (H0 := sync_dev) ex_logged [50])
    as (s' & W & Hr & _ & _ & _ & _ & Hd & HP).
  - exact ex_logged_cache.
  - exact ex_tx.
  - reflexivity.
  - exact ex_logged_pins.
  - exact ex_logged_view.
  - change (length (vw ex_logged 2) = bsize). rewrite ex_logged_view. exact ex_zero_len.
  - reflexivity.
  - exists s', W. split; [exact Hr|]. split.
    + apply (Hd 50). unfold in_log. simpl. lia.
    + intros P HPW. destruct (HP P _ HPW (ex_rebooted _)) as (r' & Hr' & _). exists r'. exact Hr'.
Defined.

Lemma recover_restart_witness :
  exists r', recover_from_log (H := idle_world) (H0 := sync_dev) (ex_fs ex_committed (ex_log 0 [])) = Ok tt r' /\
    disk_block (disk r') 50 = replicate 1024 7.
Proof.
  destruct (recover_restart (H := idle_world) (H0 := sync_dev) (ex_log 1 [50]) ex_committed (ex_fs ex_committed (ex_log 0 [])))
    as (r' & W & Hr & _ & _ & Hk & _).
  - apply ex_rebooted.
  - exact ex_recoverable.
  - rewrite ex_header. apply length_hdr; [exact ex_zero_len|simpl; lia].
  - exists r'. split; [exact Hr|]. rewrite (Hk 0%nat 50); [reflexivity|by rewrite ex_hdr_tx].
Defined.

Lemma recover_leaks_witness :
  exists r' i e, recover_from_log (H := idle_world) (H0 := sync_dev) (ex_fs ex_committed (ex_log 0 [])) = Ok tt r' /\
    bufs r' !! i = Some e /\ b_refcnt e = 2 ^ 32 - 1.
Proof.
  destruct (recover_leaks (H := idle_world) (H0 := sync_dev) (ex_log 1 [50]) ex_committed (ex_fs ex_committed (ex_log 0 [])) 50)
    as (r' & i & e & Hr & He & _ & Hc & _).
  - apply ex_rebooted.
  - exact ex_recoverable.
  - rewrite ex_hdr_tx. by apply list_elem_of_singleton.
  - exists r', i, e. split; [exact Hr|]. split; [exact He|exact Hc].
Defined.
