(* ===== verification/Op.v ===== *)
(** * File system operations inside a transaction

    Between [begin_op] and [end_op] the code of the file system reads and changes
    blocks through the buffer cache and registers each changed block with
    [log_write].  [in_op s held B] says that the thread is inside a transaction:
    the blocks [B] are logged (and pinned), the buffers [held] are locked, and
    nothing else is referenced.  The rules below describe the operations by what
    they do to the contents of the blocks ([vw]) and to [B]; no disk block changes
    before the commit. *)

From stdpp Require Import gmap strings list fin_maps.
From Stdlib Require Import ZArith Lia.
From S2P Require Import Prelude Machine State Riscv Spinlock Sched Sleeplock Bytes Bio.
From S2P Require Import Cache Log Commit.
Open Scope Z_scope.

(** The logged blocks after [log_write] of block [b]. *)
Definition add_tx (B : list Z) (b : Z) : list Z := if decide (b ∈ B) then B else B ++ [b].

Definition one (P : Prop) `{Decision P} : Z := if decide P then 1 else 0.

Record in_op (s : kstate) (held : list (nat * Z)) (B : list Z) : Prop := {
  op_cache : cache s held;
  op_tx : tx (klog s) B;
  op_array : length (lh_block (log_lh (klog s))) = 30%nat;
  op_out : 1 <= log_outstanding (klog s);
  op_pins : forall x, pins s x = one (x ∈ B) + one (x ∈ held.*2);
  op_nodup : NoDup held.*2
}.

(** Only the cache, the locks of its buffers and the log header have changed. *)
Definition op_step (s s' : kstate) : Prop :=
  s' = set_klog (set_log_lh (log_lh (klog s')) (klog s))
         (set_slocks (slocks s') (set_bcache (bcache s') s)) /\
  forall i, slocks s' !! SL_inode i = slocks s !! SL_inode i.

Lemma op_step_refl s : op_step s s.
Proof. split; [by destruct s as [? ? ? ? ? ? ? ? ? ? ? ? ? ? ? ? [] ? ? ? ? ? ? ? ? ? ?]|done]. Qed.

Lemma op_step_trans s1 s2 s3 : op_step s1 s2 -> op_step s2 s3 -> op_step s1 s3.
Proof. intros [E1 L1] [E2 L2]. split; [rewrite E2, E1; by fields|]. intros i. by rewrite L2, L1. Qed.

Lemma op_step_cache s s' : cache_step s s' -> disk s' = disk s -> dtrace s' = dtrace s -> op_step s s'.
Proof.
  intros [E L] D T. split; [|done]. rewrite E at 1. rewrite D, T.
  replace (klog s') with (klog s) by (rewrite E; by fields).
  by destruct s as [? ? ? ? ? ? ? ? ? ? ? ? ? ? ? ? [] ? ? ? ? ? ? ? ? ? ?].
Qed.

(** A field of the state outside of the cache and the log. *)
Lemma op_step_field {A} (p : kstate -> A) s s' :
  (forall L sl bs t, p (set_klog L (set_slocks sl (set_bcache bs t))) = p t) -> op_step s s' -> p s' = p s.
Proof. intros Hp [E _]. rewrite E. apply Hp. Qed.

Lemma op_step_log {A} (p : log_t -> A) s s' :
  (forall h L, p (set_log_lh h L) = p L) -> op_step s s' -> p (klog s') = p (klog s).
Proof. intros Hp [E _]. rewrite E. fields. apply Hp. Qed.

(** A block outside of the log, with a number the log header can hold. *)
Definition home (L : log_t) (b : Z) : Prop := 0 <= b < 2 ^ 31 /\ ~ in_log L b.

(** [n] more blocks fit the log. *)
Definition room (L : log_t) (B : list Z) (n : nat) : Prop :=
  Z.of_nat (length B + n) < log_size L /\ (length B + n < HEAD)%nat.

Lemma room_le L B n m : (n <= m)%nat -> room L B m -> room L B n.
Proof. unfold room. lia. Qed.

Lemma length_add_tx B b : (length B <= length (add_tx B b) <= S (length B))%nat.
Proof. unfold add_tx. case_decide; [lia|]. rewrite length_app. simpl. lia. Qed.

Lemma room_add L B b n : room L B (S n) -> room L (add_tx B b) n.
Proof. unfold room. pose proof (length_add_tx B b). lia. Qed.

Lemma room_step s s' B n : op_step s s' -> room (klog s) B n -> room (klog s') B n.
Proof. intros Hst. unfold room. by rewrite (op_step_log log_size _ _ ltac:(done) Hst). Qed.

Lemma home_step s s' b : op_step s s' -> home (klog s) b -> home (klog s') b.
Proof.
  intros Hst. unfold home, in_log.
  by rewrite (op_step_log log_size _ _ ltac:(done) Hst), (op_step_log log_start _ _ ltac:(done) Hst).
Qed.

Lemma add_tx_in B b : b ∈ add_tx B b.
Proof. unfold add_tx. case_decide; [done|]. apply elem_of_app. right. by left. Qed.

Lemma one_true P `{Decision P} : P -> one P = 1.
Proof. intros. unfold one. by rewrite decide_True. Qed.
Lemma one_false P `{Decision P} : ~ P -> one P = 0.
Proof. intros. unfold one. by rewrite decide_False. Qed.
Lemma one_range P `{Decision P} : 0 <= one P <= 1.
Proof. unfold one. case_decide; lia. Qed.

Lemma one_iff P P' `{Decision P} `{Decision P'} : (P <-> P') -> one P = one P'.
Proof. unfold one. intros E. repeat case_decide; tauto. Qed.

Section Op.
Context `{World kstate} `{BlockDev}.

(** Some buffer is unused. *)
Lemma op_free s held B : in_op s held B -> (length B + length held < HEAD)%nat ->
  exists i b, bufs s !! i = Some b /\ b_refcnt b = 0.
Proof.
  intros Ho Hl. destruct (cache_ok _ _ _ (op_cache _ _ _ Ho)) as [order Hinv].
  eapply (free_buffer s order (B ++ held.*2)); [done|by rewrite length_app, length_fmap|].
  intros x Hx. rewrite (op_pins _ _ _ Ho) in Hx. rewrite elem_of_app. unfold one in Hx.
  repeat case_decide; tauto.
Qed.

(** An unreferenced block reads as it is on disk. *)
Lemma op_clean s held B x : in_op s held B -> x ∉ B -> x ∉ held.*2 -> vw s x = disk_block (disk s) x.
Proof.
  intros Ho HB Hh. destruct (cache_ok _ _ _ (op_cache _ _ _ Ho)) as [order Hinv].
  pose proof (op_pins _ _ _ Ho x) as Hp. rewrite !one_false in Hp by done.
  eapply (view_eq s order ROOTDEV x); [done|done| |done].
  intros i b Hb (Hd & Hn & Hv). rewrite <- Hn. eapply (ci_clean _ _ Hinv); [exact Hb|done|].
  rewrite <- (pins_slot s order i b) by done. by rewrite Hn, Hp.
Qed.

Lemma wp_op_data s held B i bno (Q : list Z -> kstate -> Prop) :
  in_op s held B -> (i, bno) ∈ held -> Q (vw s bno) s -> wp (get_buf i b_data) Q s.
Proof.
  intros Ho Hin HQ. destruct (holds_buf [] s held i bno (op_cache _ _ _ Ho) Hin)
    as (order & b & nm & _ & Hb & _ & _ & _ & _ & Hvw & _).
  apply bufs_lookup in Hb as [Hb _]. eapply wp_get_buf; [exact Hb|]. by rewrite <- Hvw.
Qed.

Lemma wp_op_bread s held B bno (Q : nat -> kstate -> Prop) :
  in_op s held B -> bno ∉ held.*2 -> (length B + length held < HEAD)%nat ->
  (forall i s', in_op s' ((i, bno) :: held) B -> (forall x, (i, x) ∉ held) -> op_step s s' ->
     (forall x, vw s' x = vw s x) -> Q i s') ->
  wp (bread ROOTDEV bno) Q s.
Proof.
  intros Ho Hn Hl HQ. pose proof (op_pins _ _ _ Ho bno) as Hp. rewrite (one_false (bno ∈ held.*2)) in Hp by done.
  pose proof (one_range (bno ∈ B)).
  apply (wp_cache_bread s held bno); [apply Ho| |lia|right; by eapply op_free|].
  { intros i Hi. apply Hn, list_elem_of_fmap. by exists (i, bno). }
  intros i s' Hc Hi Hst D T V P. pose proof (cache_step_klog _ _ Hst) as El.
  apply HQ; [|done|by apply op_step_cache|done]. split.
  - done.
  - rewrite El. apply Ho.
  - rewrite El. apply Ho.
  - rewrite El. apply Ho.
  - intros x. rewrite P. cbn [fmap list_fmap snd]. destruct (Z.eqb_spec x bno) as [->|Hne].
    + rewrite Hp, (one_true (bno ∈ bno :: _)) by left. lia.
    + rewrite (op_pins _ _ _ Ho x). f_equal. apply one_iff. rewrite elem_of_cons. tauto.
  - cbn [fmap list_fmap snd]. apply NoDup_cons. split; [done|apply Ho].
Qed.

Lemma wp_op_modify s held B i bno f (Q : unit -> kstate -> Prop) :
  in_op s held B -> held_ok held i bno ->
  (forall s', in_op s' held B -> op_step s s' ->
     (forall x, vw s' x = if x =? bno then f (vw s bno) else vw s x) -> Q tt s') ->
  wp (modify_buf i (fun b => set_b_data (f (b_data b)) b)) Q s.
Proof.
  intros Ho Hh HQ. apply (wp_cache_modify s held i bno); [apply Ho|done|].
  intros s' Hc Hst D T V P. pose proof (cache_step_klog _ _ Hst) as El.
  apply HQ; [|by apply op_step_cache|done]. split; rewrite ?El; try apply Ho; [done|].
  intros x. rewrite P. apply Ho.
Qed.

Lemma wp_op_brelse s held B i bno (Q : unit -> kstate -> Prop) :
  in_op s ((i, bno) :: held) B -> (forall x, (i, x) ∉ held) ->
  bno ∈ B \/ vw s bno = disk_block (disk s) bno ->
  (forall s', in_op s' held B -> op_step s s' -> (forall x, vw s' x = vw s x) -> Q tt s') ->
  wp (brelse i) Q s.
Proof.
  intros Ho Hi Hcl HQ. pose proof (op_nodup _ _ _ Ho) as Hnd. cbn [fmap list_fmap snd] in Hnd.
  apply NoDup_cons in Hnd as [Hnin Hnd].
  apply (wp_cache_brelse s held i bno); [apply Ho|done| |].
  { destruct Hcl as [Hin|Hcl]; [left|by right]. rewrite (op_pins _ _ _ Ho), !one_true; [lia|left|done]. }
  intros s' Hc Hst D T V P. pose proof (cache_step_klog _ _ Hst) as El.
  apply HQ; [|by apply op_step_cache|done]. split; rewrite ?El; try apply Ho; [done| |done].
  intros x. rewrite P, !(op_pins _ _ _ Ho). cbn [fmap list_fmap snd]. destruct (Z.eqb_spec x bno) as [->|Hne].
  - rewrite (one_true (bno ∈ bno :: _)), (one_false (bno ∈ held.*2)) by (left || done). lia.
  - f_equal. apply one_iff. rewrite elem_of_cons. tauto.
Qed.

(** *** [log_write] *)

Lemma tx_take L B : tx L B -> take (length B) (lh_block (log_lh L)) = B.
Proof.
  intros Ht. apply list_eq. intros k. destruct (decide (k < length B)%nat) as [Hk|Hk].
  - rewrite lookup_take_lt by done. destruct (lookup_lt_is_Some_2 B k Hk) as [b Hb].
    by rewrite (tx_blocks _ _ Ht k b Hb), Hb.
  - rewrite !lookup_ge_None_2; [done|lia|rewrite length_take; lia].
Qed.

Lemma log_slot_old L B bno : tx L B -> bno ∈ B -> exists k, log_slot L bno = Z.of_nat k /\ B !! k = Some bno.
Proof.
  intros Ht Hin. unfold log_slot. rewrite (tx_n _ _ Ht), Nat2Z.id, (tx_take _ _ Ht).
  destruct (list_find (fun b => u32 b = bno) B) as [[k b]|] eqn:Hf.
  - apply list_find_Some in Hf as (Hb & Hu & _). rewrite (home_u32 _ _ _ Ht) in Hu by (by eapply list_elem_of_lookup_2).
    subst b. eauto.
  - apply list_find_None in Hf. rewrite Forall_forall in Hf. exfalso. apply (Hf bno Hin). by eapply home_u32.
Qed.

Lemma log_slot_new L B bno : tx L B -> bno ∉ B -> log_slot L bno = Z.of_nat (length B).
Proof.
  intros Ht Hin. unfold log_slot. rewrite (tx_n _ _ Ht), Nat2Z.id, (tx_take _ _ Ht).
  destruct (list_find (fun b => u32 b = bno) B) as [[k b]|] eqn:Hf; [|lia].
  apply list_find_Some in Hf as (Hb & Hu & _). apply list_elem_of_lookup_2 in Hb.
  rewrite (home_u32 _ _ _ Ht) in Hu by done. by subst b.
Qed.

(** The header with one more block. *)
Definition log_add (L : log_t) (bno : Z) : log_t :=
  set_log_lh (mk_logheader (lh_n (log_lh L) + 1)
    (<[Z.to_nat (lh_n (log_lh L)) := bno]> (lh_block (log_lh L)))) L.

Lemma log_add_tx L B bno : tx L B -> room L B 1 -> home L bno -> bno ∉ B ->
  length (lh_block (log_lh L)) = 30%nat -> tx (log_add L bno) (B ++ [bno]).
Proof.
  intros Ht [Hr1 Hr2] [Hh1 Hh2] Hn Ha. change HEAD with 30%nat in Hr2. pose proof (tx_n _ _ Ht) as Hln.
  split; cbn [log_add set_log_lh log_dev log_start log_size log_lh lh_n lh_block].
  - apply Ht.
  - rewrite length_app, Hln. simpl. lia.
  - intros k b Hb. rewrite Hln, Nat2Z.id. destruct (decide (k = length B)) as [->|Hk].
    + rewrite lookup_app_r, Nat.sub_diag in Hb by lia. simpl in Hb. simplify_eq.
      apply list_lookup_insert_eq. lia.
    + rewrite list_lookup_insert_ne by done. apply Ht. rewrite lookup_app_l in Hb; [done|].
      apply lookup_lt_Some in Hb. rewrite length_app in Hb. simpl in Hb. lia.
  - apply Ht.
  - rewrite length_app. simpl. change HEAD with 30%nat. lia.
  - apply NoDup_app. split; [apply Ht|]. split; [|apply NoDup_singleton].
    intros x Hx ->%list_elem_of_singleton. done.
  - intros b [Hb| ->%list_elem_of_singleton]%elem_of_app; [by apply Ht|done].
Qed.

Lemma wp_put_lh_block s k v (Q : unit -> kstate -> Prop) :
  (k < length (lh_block (log_lh (klog s))))%nat -> Q tt (set_klog (set_lh_block k v (klog s)) s) ->
  wp (put_lh_block (Z.of_nat k) v) Q s.
Proof.
  intros Hk HQ. destruct (lookup_lt_is_Some_2 _ _ Hk) as [x Hx]. unfold put_lh_block. wstep.
  eapply wp_get_lh_block; [rewrite Nat2Z.id; exact Hx|]. unfold log_modify. wsteps. by rewrite Nat2Z.id.
Qed.

Lemma L_log_free s : calm s -> lock_free L_log s.
Proof. intros Hs. apply (calm_locks _ Hs). unfold global_locks. set_solver. Qed.

Lemma set_lh_block_same L k b : lh_block (log_lh L) !! k = Some b -> set_lh_block k b L = L.
Proof.
  intros Hb. unfold set_lh_block. rewrite list_insert_id by done. by destruct L as [? ? ? ? ? []].
Qed.

Lemma wp_op_log_write s held B i bno (Q : unit -> kstate -> Prop) :
  in_op s held B -> held_ok held i bno -> home (klog s) bno -> room (klog s) B 1 ->
  (forall s', in_op s' held (add_tx B bno) -> op_step s s' -> (forall x, vw s' x = vw s x) -> Q tt s') ->
  wp (log_write i) Q s.
Proof.
  intros Ho Hh Hhome Hroom HQ. pose proof Ho as [Hc Ht Ha Hout Hp Hnd]. pose proof (cache_calm _ _ _ Hc) as Hs.
  destruct (holds_buf [] s held i bno Hc (proj1 Hh)) as (order & b & nm & _ & Hb & [_ Hbn] & _ & _ & Hpb & _ & Hr0 & Hr).
  pose proof (proj1 (bufs_lookup s i b) Hb) as [Hbi Hi].
  destruct Hroom as [Hr1 Hr2]. pose proof (tx_n _ _ Ht) as Hln. pose proof (tx_fit _ _ Ht) as [_ Hf].
  change HEAD with 30%nat in Hr2, Hf. destruct Hhome as [Hh1 Hh2].
  unfold log_write, log_get. wsteps. cbn [id].
  rewrite Hln, (proj2 (Z.leb_gt LOGSIZE _)), (proj2 (Z.leb_gt (log_size (klog s) - 1) _)) by (unfold LOGSIZE, MAXOPBLOCKS; lia).
  cbn [orb]. rewrite (proj2 (Z.ltb_ge _ 1)) by lia. wstep.
  apply wp_acquire; [apply Hs|by apply L_log_free|]. wstep. eapply wp_get_buf; [exact Hbi|]. wsteps.
  rewrite Hbn. change (klog (acq L_log s)) with (klog s). cbn [id]. rewrite i32_id by lia.
  unfold add_tx in HQ. case_decide as Hin.
  - destruct (log_slot_old _ _ _ Ht Hin) as (k & -> & Hk). pose proof (lookup_lt_Some _ _ _ Hk).
    apply wp_put_lh_block; [change (klog (acq L_log s)) with (klog s); lia|].
    change (klog (acq L_log s)) with (klog s). rewrite set_lh_block_same by (by apply Ht).
    rewrite Hln, (proj2 (Z.eqb_neq _ _)) by lia. cbn [when]. wsteps.
    eapply (wp_release L_log _ s); [apply Hs|by apply L_log_free|by fields..|]. critical.
    replace (set_klog (klog s) s) with s by (by destruct s).
    apply HQ; [done|apply op_step_refl|done].
  - rewrite (log_slot_new _ _ _ Ht Hin). apply wp_put_lh_block; [change (klog (acq L_log s)) with (klog s); lia|].
    rewrite Hln, Z.eqb_refl. cbn [when]. wstep. wstep.
    eapply wp_bpin; [|by apply lock_free_acq; [|apply L_bcache_free]|exact Hb|].
    { apply settled_acq, Hs. }
    unfold log_modify. wsteps. eapply (wp_release L_log _ s); [apply Hs|by apply L_log_free|by fields..|].
    change (klog (acq L_log s)) with (klog s). change (bcache (acq L_log s)) with (bcache s). critical.
    replace (u32 (b_refcnt b + 1)) with (pins s bno + 1) by (rewrite u32_id; [lia|]; rewrite <- Hpb, Hp; pose proof (one_range (bno ∈ B)); pose proof (one_range (bno ∈ held.*2)); lia).
    apply (cache_pin s held i bno b (pins s bno + 1) (fun _ t => Q tt (set_klog _ t))); [done|done|done| |].
    { rewrite Hp, (one_false (bno ∈ B)) by done. pose proof (one_range (bno ∈ held.*2)). lia. }
    intros t Hc' Hst D T V P. pose proof (cache_step_klog _ _ Hst) as El.
    assert (EL : set_lh_n (lh_n (log_lh (set_lh_block (length B) bno (klog s))) + 1) (set_lh_block (length B) bno (klog s)) = log_add (klog s) bno).
    { unfold set_lh_n, set_lh_block, log_add. rewrite Hln, Nat2Z.id. done. }
    rewrite EL. apply HQ; [|..|exact V].
    + split; fields; [by apply cache_klog|by apply log_add_tx|by cbn; rewrite length_insert|done| |done].
      intros x. change (pins t x = one (x ∈ B ++ [bno]) + one (x ∈ held.*2)). rewrite P.
      destruct (Z.eqb_spec x bno) as [->|Hne].
      * rewrite Hp, (one_false (bno ∈ B)), (one_true (bno ∈ B ++ [bno])) by (done || (apply elem_of_app; right; by left)). lia.
      * rewrite Hp. f_equal. apply one_iff. rewrite elem_of_app, list_elem_of_singleton. tauto.
    + split; [|exact (proj2 Hst)]. rewrite (proj1 Hst) at 1. rewrite D, T. fields. by destruct s.
Qed.

(** *** Common sequences *)

Lemma wp_op_log_release s held B i bno (Q : unit -> kstate -> Prop) :
  in_op s ((i, bno) :: held) B -> (forall x, (i, x) ∉ held) -> home (klog s) bno -> room (klog s) B 1 ->
  (forall s', in_op s' held (add_tx B bno) -> op_step s s' -> (forall x, vw s' x = vw s x) -> Q tt s') ->
  wp (log_write i ;;; brelse i) Q s.
Proof.
  intros Ho Hi Hh Hr HQ. wstep. eapply wp_op_log_write; [exact Ho|by apply held_ok_head|done|done|].
  intros s1 Ho1 St1 V1. eapply wp_op_brelse; [exact Ho1|done|left; apply add_tx_in|].
  intros s2 Ho2 St2 V2. apply HQ; [done|by eapply op_step_trans|]. intros x. by rewrite V2.
Qed.

Lemma wp_op_log_release_then {A} s held B i bno (k : K A) (Q : A -> kstate -> Prop) :
  in_op s ((i, bno) :: held) B -> (forall x, (i, x) ∉ held) -> home (klog s) bno -> room (klog s) B 1 ->
  (forall s', in_op s' held (add_tx B bno) -> op_step s s' -> (forall x, vw s' x = vw s x) -> wp k Q s') ->
  wp (log_write i ;;; brelse i ;;; k) Q s.
Proof.
  intros Ho Hi Hh Hr HQ. unfold wp. rewrite <- (bind_assoc (log_write i) (fun _ => brelse i) (fun _ => k)).
  apply wp_bind. by eapply wp_op_log_release.
Qed.

(** Releasing a buffer that was only read since [s0]. *)
Lemma wp_op_brelse_read s0 B0 held0 s held B i bno (Q : unit -> kstate -> Prop) :
  in_op s0 held0 B0 -> bno ∉ held0.*2 -> (bno ∈ B0 -> bno ∈ B) -> op_step s0 s -> vw s bno = vw s0 bno ->
  in_op s ((i, bno) :: held) B -> (forall x, (i, x) ∉ held) ->
  (forall s', in_op s' held B -> op_step s s' -> (forall x, vw s' x = vw s x) -> Q tt s') ->
  wp (brelse i) Q s.
Proof.
  intros Ho0 Hn0 HB Hst HV Ho Hi HQ. eapply wp_op_brelse; [done|done| |done].
  destruct (decide (bno ∈ B0)) as [Hin|Hnin]; [left; by apply HB|right].
  rewrite HV, (op_step_field disk _ _ ltac:(done) Hst). by eapply op_clean.
Qed.
End Op.
