(* ===== verification/Inode.v ===== *)
(** * kernel/fs.c: blocks and inodes

    The block allocator, the inode cache and the map from the blocks of a file to
    the blocks of the disk.  A [struct inode *] is an index of [icache.inode], null
    is [None]; a [struct dinode] is 64 bytes of a block. *)

From stdpp Require Import gmap strings list fin_maps.
From Stdlib Require Import ZArith Lia.
From S2P Require Import Prelude Machine State Riscv Spinlock Sched Sleeplock Bytes Bio.
From S2P Require Import Log.
Open Scope Z_scope.

(* @kernel/fs.h ROOTINO *)
Definition ROOTINO : Z := 1.
(* @kernel/fs.h FSMAGIC *)
Definition FSMAGIC : Z := 0x10203040.
(* @kernel/fs.h NDIRECT *)
Definition NDIRECT : Z := 12.
(* @kernel/fs.h NINDIRECT *)
Definition NINDIRECT : Z := BSIZE / 4.
(* @kernel/fs.h MAXFILE *)
Definition MAXFILE : Z := NDIRECT + NINDIRECT.
(* @kernel/fs.h DIRSIZ *)
Definition DIRSIZ : Z := 14.
(* @kernel/stat.h T_DIR *)
Definition T_DIR : Z := 1.
(* @kernel/stat.h T_FILE *)
Definition T_FILE : Z := 2.
(* @kernel/stat.h T_DEVICE *)
Definition T_DEVICE : Z := 3.

(* @kernel/fs.h dinode *)
Record dinode := mk_dinode {
  di_type : Z;
  di_major : Z;
  di_minor : Z;
  di_nlink : Z;
  di_size : Z;
  di_addrs : list Z
}.

(** [sizeof(struct dinode)] *)
Definition sizeof_dinode : Z := 64.

(* @kernel/fs.h IPB *)
Definition IPB : Z := BSIZE / sizeof_dinode.
(* @kernel/fs.h IBLOCK *)
Definition IBLOCK (i : Z) (sb : superblock) : Z := u32 (i / IPB + sb_inodestart sb).
(* @kernel/fs.h BPB *)
Definition BPB : Z := BSIZE * 8.
(* @kernel/fs.h BBLOCK *)
Definition BBLOCK (b : Z) (sb : superblock) : Z := u32 (b / BPB + sb_bmapstart sb).

(* @kernel/stat.h stat *)
Record stat := mk_stat {
  st_dev : Z;
  st_ino : Z;
  st_type : Z;
  st_nlink : Z;
  st_size : Z
}.

(** The [k]-th [struct dinode] of a block. *)
Definition dinode_off (k : Z) : nat := Z.to_nat (k * sizeof_dinode).

Definition get_dinode (d : list Z) (k : Z) : dinode :=
  let o := dinode_off k in
  mk_dinode (i16 (get16 d o)) (i16 (get16 d (o + 2))) (i16 (get16 d (o + 4))) (i16 (get16 d (o + 6)))
    (get32 d (o + 8)) ((fun j => get32 d (o + 12 + 4 * j)) <$> seq 0 13).

(** Storing the address array. *)
Fixpoint put_addrs (d : list Z) (o : nat) (l : list Z) : list Z :=
  match l with
  | [] => d
  | a :: l => put_addrs (put32 d o a) (o + 4) l
  end.

Definition put_dinode (d : list Z) (k : Z) (di : dinode) : list Z :=
  let o := dinode_off k in
  let d := put16 d o (di_type di) in
  let d := put16 d (o + 2) (di_major di) in
  let d := put16 d (o + 4) (di_minor di) in
  let d := put16 d (o + 6) (di_nlink di) in
  let d := put32 d (o + 8) (di_size di) in
  put_addrs d (o + 12) (di_addrs di).

Definition zero_dinode : dinode := mk_dinode 0 0 0 0 0 (replicate 13 0).

Section Inode.
Context `{World kstate} `{BlockDev}.

(** [ip->field], and an assignment to it. *)
Definition get_inode {A} (ip : nat) (f : inode -> A) : K A :=
  let* i := gets (fun s => icache s !! ip) in
  let* i := deref i in ret (f i).
Definition modify_inode (ip : nat) (f : inode -> inode) : K unit :=
  let* i := gets (fun s => icache s !! ip) in
  let* i := deref i in
  modify (fun s => set_icache (<[ip := f i]> (icache s)) s).

(** An assignment to bytes of [bp->data]. *)
Definition modify_data (bp : nat) (f : list Z -> list Z) : K unit :=
  modify_buf bp (fun b => set_b_data (f (b_data b)) b).

(** *** The super block *)

Definition get_superblock (d : list Z) : superblock :=
  mk_superblock (get32 d 0) (get32 d 4) (get32 d 8) (get32 d 12) (get32 d 16)
    (get32 d 20) (get32 d 24) (get32 d 28).

(* @kernel/fs.c readsb *)
Definition readsb (dev : Z) : K superblock :=
  let* bp := bread (u32 dev) 1 in
  let* d := get_buf bp b_data in
  brelse bp ;;;
  ret (get_superblock d).

(* @kernel/fs.c fsinit *)
Definition fsinit (dev : Z) : K unit :=
  let* b := readsb dev in
  modify (fun s => set_sb b s) ;;;
  if negb (sb_magic b =? FSMAGIC) then panic "invalid file system"
  else initlog dev b.

(** *** Blocks *)

(* @kernel/fs.c bzero *)
Definition bzero (dev bno : Z) : K unit :=
  let* bp := bread (u32 dev) (u32 bno) in
  modify_data bp (fun _ => zero_block) ;;;
  log_write bp ;;;
  brelse bp.

(** Bit [bi] of the bitmap block [d]. *)
Definition bit_mask (bi : Z) : Z := Z.shiftl 1 (bi mod 8).
Definition bit_clear (d : list Z) (bi : Z) : bool :=
  match d !! Z.to_nat (bi / 8) with
  | Some x => Z.land x (bit_mask bi) =? 0
  | None => false
  end.
Definition set_bit (d : list Z) (bi : Z) : list Z :=
  alter (fun x => u8 (Z.lor x (bit_mask bi))) (Z.to_nat (bi / 8)) d.
Definition clear_bit (d : list Z) (bi : Z) : list Z :=
  alter (fun x => u8 (Z.land x (Z.lnot (bit_mask bi)))) (Z.to_nat (bi / 8)) d.

(** The values of [b] in [for(b = 0; b < sb.size; b += BPB)]. *)
Definition bitmap_starts (size : Z) : list Z :=
  (fun k => k * BPB) <$> seqZ 0 ((size + BPB - 1) / BPB).

(* @kernel/fs.c balloc *)
Definition balloc (dev : Z) : K Z :=
  let* size := gets (fun s => sb_size (sb s)) in
  let* r := for_each (bitmap_starts size) (fun b =>
    let* blk := gets (fun s => BBLOCK b (sb s)) in
    let* bp := bread dev blk in
    let* r := for_each (seqZ 0 (Z.min BPB (size - b))) (fun bi =>
      let* d := get_buf bp b_data in
      if bit_clear d bi then
        modify_data bp (fun d => set_bit d bi) ;;;
        log_write bp ;;;
        brelse bp ;;;
        bzero dev (b + bi) ;;;
        ret (Some (b + bi))
      else ret None) in
    match r with
    | Some a => ret (Some a)
    | None => brelse bp ;;; ret None
    end) in
  match r with
  | Some a => ret (u32 a)
  | None => panic "balloc: out of blocks"
  end.

(* @kernel/fs.c bfree *)
Definition bfree (dev b : Z) : K unit :=
  let* blk := gets (fun s => BBLOCK b (sb s)) in
  let* bp := bread (u32 dev) blk in
  let bi := b mod BPB in
  let* d := get_buf bp b_data in
  if bit_clear d bi then panic "freeing free block"
  else
  modify_data bp (fun d => clear_bit d bi) ;;;
  log_write bp ;;;
  brelse bp.

(** *** Inodes *)

(* @kernel/fs.c iinit *)
Definition iinit : K unit :=
  initlock L_icache "icache" ;;;
  for_all (seq 0 (Z.to_nat NINODE)) (fun i => initsleeplock (SL_inode i) "inode").

(** The loop of [iget]: [inl ip] for a cached inode, else the first empty slot. *)
Fixpoint iget_scan (dev inum : Z) (l : list nat) (empty : option nat) : K (nat + option nat) :=
  match l with
  | [] => ret (inr empty)
  | ip :: l =>
    let* i := get_inode ip id in
    if (0 <? i_ref i) && (i_dev i =? dev) && (i_inum i =? inum) then ret (inl ip)
    else
    iget_scan dev inum l
      (match empty with
       | None => if i_ref i =? 0 then Some ip else None
       | Some _ => empty
       end)
  end.

(* @kernel/fs.c iget *)
Definition iget (dev inum : Z) : K nat :=
  acquire L_icache ;;;
  let* r := iget_scan dev inum (seq 0 (Z.to_nat NINODE)) None in
  match r with
  | inl ip =>
    modify_inode ip (fun i => set_i_ref (i32 (i_ref i + 1)) i) ;;;
    release L_icache ;;;
    ret ip
  | inr None => panic "iget: no inodes"
  | inr (Some ip) =>
    modify_inode ip (set_i_dev dev) ;;;
    modify_inode ip (set_i_inum inum) ;;;
    modify_inode ip (set_i_ref 1) ;;;
    modify_inode ip (set_i_valid false) ;;;
    release L_icache ;;;
    ret ip
  end.

(* @kernel/fs.c ialloc *)
Definition ialloc (dev type : Z) : K nat :=
  let* n := gets (fun s => sb_ninodes (sb s)) in
  let* r := for_each (seqZ 1 (n - 1)) (fun inum =>
    let* blk := gets (fun s => IBLOCK inum (sb s)) in
    let* bp := bread dev blk in
    let* d := get_buf bp b_data in
    if di_type (get_dinode d (inum mod IPB)) =? 0 then
      modify_data bp (fun d => put_dinode d (inum mod IPB) zero_dinode) ;;;
      modify_data bp (fun d => put16 d (dinode_off (inum mod IPB)) type) ;;;
      log_write bp ;;;
      brelse bp ;;;
      let* ip := iget dev (u32 inum) in
      ret (Some ip)
    else
      brelse bp ;;;
      ret None) in
  match r with
  | Some ip => ret ip
  | None => panic "ialloc: no inodes"
  end.

(* @kernel/fs.c iupdate *)
Definition iupdate (ip : nat) : K unit :=
  let* i := get_inode ip id in
  let* blk := gets (fun s => IBLOCK (i_inum i) (sb s)) in
  let* bp := bread (i_dev i) blk in
  let* i := get_inode ip id in
  modify_data bp (fun d => put_dinode d (i_inum i mod IPB)
    (mk_dinode (i_type i) (i_major i) (i_minor i) (i_nlink i) (i_size i) (i_addrs i))) ;;;
  log_write bp ;;;
  brelse bp.

(* @kernel/fs.c idup *)
Definition idup (ip : nat) : K nat :=
  acquire L_icache ;;;
  modify_inode ip (fun i => set_i_ref (i32 (i_ref i + 1)) i) ;;;
  release L_icache ;;;
  ret ip.

(* @kernel/fs.c ilock *)
Definition ilock (ip : option nat) : K unit :=
  match ip with
  | None => panic "ilock"
  | Some ip =>
    let* r := get_inode ip i_ref in
    if r <? 1 then panic "ilock"
    else
    acquiresleep (SL_inode ip) ;;;
    let* v := get_inode ip i_valid in
    when (negb v)
      (let* i := get_inode ip id in
       let* blk := gets (fun s => IBLOCK (i_inum i) (sb s)) in
       let* bp := bread (i_dev i) blk in
       let* d := get_buf bp b_data in
       let di := get_dinode d (i_inum i mod IPB) in
       modify_inode ip (set_i_type (di_type di)) ;;;
       modify_inode ip (set_i_major (di_major di)) ;;;
       modify_inode ip (set_i_minor (di_minor di)) ;;;
       modify_inode ip (set_i_nlink (di_nlink di)) ;;;
       modify_inode ip (set_i_size (di_size di)) ;;;
       modify_inode ip (set_i_addrs (di_addrs di)) ;;;
       brelse bp ;;;
       modify_inode ip (set_i_valid true) ;;;
       let* t := get_inode ip i_type in
       if t =? 0 then panic "ilock: no type" else ret tt)
  end.

(* @kernel/fs.c iunlock *)
Definition iunlock (ip : option nat) : K unit :=
  match ip with
  | None => panic "iunlock"
  | Some ip =>
    let* h := holdingsleep (SL_inode ip) in
    if negb h then panic "iunlock"
    else
    let* r := get_inode ip i_ref in
    if r <? 1 then panic "iunlock"
    else releasesleep (SL_inode ip)
  end.

(** *** Inode content *)

(** [ip->addrs[k]] *)
Definition get_addr (ip : nat) (k : nat) : K Z :=
  let* l := get_inode ip i_addrs in deref (l !! k).
Definition put_addr (ip : nat) (k : nat) (a : Z) : K unit :=
  let* _ := get_addr ip k in
  modify_inode ip (fun i => set_i_addrs (<[k := a]> (i_addrs i)) i).

(* @kernel/fs.c bmap *)
Definition bmap (ip : nat) (bn : Z) : K Z :=
  if bn <? NDIRECT then
    let* addr := get_addr ip (Z.to_nat bn) in
    if addr =? 0 then
      let* dev := get_inode ip i_dev in
      let* addr := balloc dev in
      put_addr ip (Z.to_nat bn) addr ;;;
      ret addr
    else ret addr
  else
  let bn := bn - NDIRECT in
  if bn <? NINDIRECT then
    let* addr := get_addr ip (Z.to_nat NDIRECT) in
    let* addr :=
      (if addr =? 0 then
         let* dev := get_inode ip i_dev in
         let* addr := balloc dev in
         put_addr ip (Z.to_nat NDIRECT) addr ;;;
         ret addr
       else ret addr) in
    let* dev := get_inode ip i_dev in
    let* bp := bread dev addr in
    let* a := get_buf bp b_data in
    let addr := get32 a (4 * Z.to_nat bn) in
    let* addr :=
      (if addr =? 0 then
         let* dev := get_inode ip i_dev in
         let* addr := balloc dev in
         modify_data bp (fun a => put32 a (4 * Z.to_nat bn) addr) ;;;
         log_write bp ;;;
         ret addr
       else ret addr) in
    brelse bp ;;;
    ret addr
  else panic "bmap: out of range".

(* @kernel/fs.c itrunc *)
Definition itrunc (ip : nat) : K unit :=
  for_all (seq 0 (Z.to_nat NDIRECT)) (fun i =>
    let* addr := get_addr ip i in
    when (negb (addr =? 0))
      (let* dev := get_inode ip i_dev in
       bfree dev addr ;;;
       put_addr ip i 0)) ;;;
  let* addr := get_addr ip (Z.to_nat NDIRECT) in
  when (negb (addr =? 0))
    (let* dev := get_inode ip i_dev in
     let* bp := bread dev addr in
     for_all (seq 0 (Z.to_nat NINDIRECT)) (fun j =>
       let* a := get_buf bp b_data in
       let aj := get32 a (4 * j) in
       when (negb (aj =? 0))
         (let* dev := get_inode ip i_dev in
          bfree dev aj)) ;;;
     brelse bp ;;;
     let* dev := get_inode ip i_dev in
     let* addr := get_addr ip (Z.to_nat NDIRECT) in
     bfree dev addr ;;;
     put_addr ip (Z.to_nat NDIRECT) 0) ;;;
  modify_inode ip (set_i_size 0) ;;;
  iupdate ip.

(* @kernel/fs.c iput *)
Definition iput (ip : nat) : K unit :=
  acquire L_icache ;;;
  let* i := get_inode ip id in
  when ((i_ref i =? 1) && i_valid i && (i_nlink i =? 0))
    (acquiresleep (SL_inode ip) ;;;
     release L_icache ;;;
     itrunc ip ;;;
     modify_inode ip (set_i_type 0) ;;;
     iupdate ip ;;;
     modify_inode ip (set_i_valid false) ;;;
     releasesleep (SL_inode ip) ;;;
     acquire L_icache) ;;;
  modify_inode ip (fun i => set_i_ref (i32 (i_ref i - 1)) i) ;;;
  release L_icache.

(* @kernel/fs.c iunlockput *)
Definition iunlockput (ip : nat) : K unit :=
  iunlock (Some ip) ;;;
  iput ip.

(* @kernel/fs.c stati *)
Definition stati (ip : nat) : K stat :=
  let* i := get_inode ip id in
  ret (mk_stat (i32 (i_dev i)) (i_inum i) (i_type i) (i_nlink i) (i_size i)).
End Inode.
