(* ===== verification/Dir.v ===== *)
(** * kernel/fs.c: file contents, directories and path names

    [readi] and [writei] copy between the blocks of a file and memory; the kernel
    side of a copy is a user address, a kernel address, or a variable of the caller
    (a directory entry, an ELF header), in which case the bytes themselves are
    passed or returned.  A name is the array of its [DIRSIZ] bytes; a path is the
    list of its bytes up to the terminating NUL. *)

From stdpp Require Import gmap strings list fin_maps.
From Stdlib Require Import ZArith Lia.
From S2P Require Import Prelude Machine Str State Riscv Spinlock Sched Sleeplock Bytes.
From S2P Require Import Bio Log Inode.
Open Scope Z_scope.

(** Destination of [readi] and source of [writei]. *)
Inductive dest := ToUser (va : Z) | ToKernel (pa : Z) | ToLocal.
Inductive source := FromUser (va : Z) | FromKernel (pa : Z) | FromLocal (bytes : list Z).

Section Dir.
Context `{World kstate} `{BlockDev}.

(** [either_copyout(user_dst, dst, data, m)] with [dst] advanced by [tot]. *)
Definition copy_to (dst : dest) (tot : Z) (data : list Z) (m : Z) : K Z :=
  match dst with
  | ToUser va => either_copyout true (u64 (va + tot)) data m
  | ToKernel pa => either_copyout false (u64 (pa + tot)) data m
  | ToLocal => let* _ := myproc in ret 0
  end.

(** [either_copyin(data, user_src, src, m)] with [src] advanced by [tot]: the
    status and the bytes stored. *)
Definition copy_from (src : source) (tot m : Z) : K (Z * list Z) :=
  match src with
  | FromUser va => either_copyin true (u64 (va + tot)) m
  | FromKernel pa => either_copyin false (u64 (pa + tot)) m
  | FromLocal bytes => let* _ := myproc in ret (0, field bytes (Z.to_nat tot) (Z.to_nat m))
  end.

(** Iterations of a loop that goes through [n] bytes block by block. *)
Definition rw_fuel (n : Z) : nat := Z.to_nat (n / BSIZE) + 3.

(** The loop returns the number of bytes read and the bytes. *)
(* @kernel/fs.c readi *)
Definition readi (ip : nat) (dst : dest) (off n : Z) : K (Z * list Z) :=
  let* size := get_inode ip i_size in
  if (size <? off) || (u32 (off + n) <? off) then ret (0, [])
  else
  let n := if size <? u32 (off + n) then size - off else n in
  iter (rw_fuel n) (fun '(tot, off, bytes) =>
    if tot <? n then
      let* dev := get_inode ip i_dev in
      let* a := bmap ip (off / BSIZE) in
      let* bp := bread dev a in
      let m := Z.min (n - tot) (BSIZE - off mod BSIZE) in
      let* d := get_buf bp b_data in
      let chunk := field d (Z.to_nat (off mod BSIZE)) (Z.to_nat m) in
      let* r := copy_to dst tot chunk m in
      if r =? -1 then
        brelse bp ;;;
        ret (inr (tot, bytes))
      else
        brelse bp ;;;
        ret (inl (tot + m, u32 (off + m), bytes ++ chunk))
    else ret (inr (tot, bytes))) (0, off, []).

(* @kernel/fs.c writei *)
Definition writei (ip : nat) (src : source) (off n : Z) : K Z :=
  let* size := get_inode ip i_size in
  if (size <? off) || (u32 (off + n) <? off) then ret (-1)
  else if MAXFILE * BSIZE <? u32 (off + n) then ret (-1)
  else
  let* off := iter (rw_fuel n) (fun '(tot, off) =>
    if tot <? n then
      let* dev := get_inode ip i_dev in
      let* a := bmap ip (off / BSIZE) in
      let* bp := bread dev a in
      let m := Z.min (n - tot) (BSIZE - off mod BSIZE) in
      let* r := copy_from src tot m in
      let '(r, bytes) := r in
      modify_data bp (fun d => splice d (Z.to_nat (off mod BSIZE)) bytes) ;;;
      if r =? -1 then
        brelse bp ;;;
        ret (inr off)
      else
        log_write bp ;;;
        brelse bp ;;;
        ret (inl (tot + m, u32 (off + m)))
    else ret (inr off)) (0, off) in
  when (0 <? n)
    (let* size := get_inode ip i_size in
     when (size <? off) (modify_inode ip (set_i_size off)) ;;;
     iupdate ip) ;;;
  ret (i32 n).

(** ** Directories *)

(** The arrays [s] and [t] at distinct addresses. *)
Definition two_arrays (s t : list Z) : memory := stbytes (stbytes ∅ 0 s) 4096 t.

(* @kernel/fs.c namecmp *)
Definition namecmp (s t : list Z) : Z := strncmp (two_arrays s t) 0 4096 DIRSIZ.

(* @kernel/fs.h dirent *)
Record dirent := mk_dirent {
  d_inum : Z;
  d_name : list Z
}.

(** [sizeof(struct dirent)], and its bytes. *)
Definition sizeof_dirent : Z := 16.
Definition get_dirent (d : list Z) : dirent := mk_dirent (get16 d 0) (field d 2 14).
Definition dirent_bytes (de : dirent) : list Z := le_encode 2 (d_inum de) ++ d_name de.

(** The offsets of [for(off = start; off < size; off += sizeof(de))]. *)
Definition dirent_offs (start size : Z) : list Z :=
  (fun k => start + k * sizeof_dirent) <$> seqZ 0 ((size - start + sizeof_dirent - 1) / sizeof_dirent).

(** The inode found and the offset of its entry ([poff]). *)
(* @kernel/fs.c dirlookup *)
Definition dirlookup (dp : nat) (name : list Z) : K (option (nat * Z)) :=
  let* type := get_inode dp i_type in
  if negb (type =? T_DIR) then panic "dirlookup not DIR"
  else
  let* size := get_inode dp i_size in
  for_each (dirent_offs 0 size) (fun off =>
    let* r := readi dp ToLocal off sizeof_dirent in
    let '(n, bytes) := r in
    if negb (n =? sizeof_dirent) then panic "dirlookup read"
    else
    let de := get_dirent bytes in
    if d_inum de =? 0 then ret None
    else if namecmp name (d_name de) =? 0 then
      let* dev := get_inode dp i_dev in
      let* ip := iget dev (d_inum de) in
      ret (Some (ip, off))
    else ret None).

(** [strncpy(de.name, name, DIRSIZ)] into the array [old]. *)
Definition name_copy (old name : list Z) : list Z :=
  ldbytes (strncpy (two_arrays old name) 0 4096 DIRSIZ) 0 (Z.to_nat DIRSIZ).

(** The entry is written over the first free one, or at the end; [strncpy] fills
    all of [de.name], whatever it held. *)
(* @kernel/fs.c dirlink *)
Definition dirlink (dp : nat) (name : list Z) (inum : Z) : K Z :=
  let* r := dirlookup dp name in
  match r with
  | Some (ip, _) =>
    iput ip ;;;
    ret (-1)
  | None =>
    let* size := get_inode dp i_size in
    let* r := for_each (dirent_offs 0 size) (fun off =>
      let* r := readi dp ToLocal off sizeof_dirent in
      let '(n, bytes) := r in
      if negb (n =? sizeof_dirent) then panic "dirlink read"
      else if d_inum (get_dirent bytes) =? 0 then ret (Some off)
      else ret None) in
    let off := match r with
               | Some off => off
               | None => (size + sizeof_dirent - 1) / sizeof_dirent * sizeof_dirent
               end in
    let de := mk_dirent (u16 inum) (name_copy (replicate (Z.to_nat DIRSIZ) 0) name) in
    let* n := writei dp (FromLocal (dirent_bytes de)) off sizeof_dirent in
    if negb (n =? sizeof_dirent) then panic "dirlink"
    else ret 0
  end.

(** ** Paths *)

Definition SLASH : Z := 47.

(** [while( *path == '/') path++] *)
Fixpoint skip_slashes (path : list Z) : list Z :=
  match path with
  | c :: rest => if c =? SLASH then skip_slashes rest else path
  | [] => []
  end.

(** [while( *path != '/' && *path != 0) path++]: the bytes passed and the rest. *)
Fixpoint span_elem (path : list Z) : list Z * list Z :=
  match path with
  | c :: rest =>
    if c =? SLASH then ([], path)
    else let '(e, r) := span_elem rest in (c :: e, r)
  | [] => ([], [])
  end.

(** The new contents of [name] and the rest of the path. *)
(* @kernel/fs.c skipelem *)
Definition skipelem (path name : list Z) : option (list Z * list Z) :=
  let path := skip_slashes path in
  match path with
  | [] => None
  | _ =>
    let '(s, path) := span_elem path in
    let name := if DIRSIZ <=? Z.of_nat (length s) then splice name 0 (take (Z.to_nat DIRSIZ) s)
                else splice name 0 (s ++ [0]) in
    Some (name, skip_slashes path)
  end.

(** [nameiparent] also returns the final path element. *)
(* @kernel/fs.c namex *)
Definition namex (path : list Z) (nameiparent : bool) (name : list Z) : K (option nat * list Z) :=
  let* ip :=
    (match path with
     | c :: _ => if c =? SLASH then iget ROOTDEV ROOTINO
                 else let* p := myproc in let* p := deref p in
                      let* d := get_proc p cwd in let* d := deref d in idup d
     | [] => let* p := myproc in let* p := deref p in
             let* d := get_proc p cwd in let* d := deref d in idup d
     end) in
  iter (S (length path)) (fun '(path, name, ip) =>
    match skipelem path name with
    | None =>
      if nameiparent : bool then iput ip ;;; ret (inr (None, name))
      else ret (inr (Some ip, name))
    | Some (name, path) =>
      ilock (Some ip) ;;;
      let* type := get_inode ip i_type in
      if negb (type =? T_DIR) then
        iunlockput ip ;;;
        ret (inr (None, name))
      else if nameiparent && bool_decide (path = []) then
        iunlock (Some ip) ;;;
        ret (inr (Some ip, name))
      else
        let* r := dirlookup ip name in
        match r with
        | None =>
          iunlockput ip ;;;
          ret (inr (None, name))
        | Some (next, _) =>
          iunlockput ip ;;;
          ret (inl (path, name, next))
        end
    end) (path, name, ip).

(* @kernel/fs.c namei *)
Definition namei (path : list Z) : K (option nat) :=
  let* r := namex path false (replicate (Z.to_nat DIRSIZ) 0) in
  ret (fst r).

(** The parent and the final path element, written over the array [name]. *)
(* @kernel/fs.c nameiparent *)
Definition nameiparent (path name : list Z) : K (option nat * list Z) := namex path true name.
End Dir.
