(* ===== verification/Balloc.v ===== *)
(** * The block allocator of kernel/fs.c

    [balloc] takes the least free block of the bitmap and zeroes it; [bfree] gives
    a block back.  The specifications say what happens to the contents of every
    block and which blocks the transaction logs. *)

From stdpp Require Import gmap strings list fin_maps.
From Stdlib Require Import ZArith Lia.
From S2P Require Import Prelude Machine State Riscv Spinlock Sched Sleeplock Bytes Bio.
From S2P Require Import Cache Log Commit Op Inode.
Open Scope Z_scope.

(** ** Bits of a bitmap block *)

Lemma land_bit x k : 0 <= k -> (Z.land x (Z.shiftl 1 k) =? 0) = negb (Z.testbit x k).
Proof.
  intros Hk. rewrite Z.shiftl_1_l. destruct (Z.testbit x k) eqn:E; cbn [negb].
  - apply Z.eqb_neq. intros H0. assert (Hb : Z.testbit (Z.land x (2 ^ k)) k = true).
    { rewrite Z.land_spec, Z.pow2_bits_true by lia. by rewrite E. }
    rewrite H0, Z.bits_0 in Hb. done.
  - apply Z.eqb_eq, Z.bits_inj'. intros n Hn. rewrite Z.land_spec, Z.pow2_bits_eqb, Z.bits_0 by lia.
    destruct (Z.eqb_spec k n) as [->|]; [by rewrite E|by rewrite andb_false_r].
Qed.

Lemma u8_testbit x k : 0 <= k < 8 -> Z.testbit (u8 x) k = Z.testbit x k.
Proof. intros. unfold u8. by rewrite Z.mod_pow2_bits_low by lia. Qed.

Lemma bit_clear_eq d bi x : d !! Z.to_nat (bi / 8) = Some x -> bit_clear d bi = negb (Z.testbit x (bi mod 8)).
Proof. intros Hx. unfold bit_clear. rewrite Hx. apply land_bit. apply Z.mod_pos_bound. lia. Qed.

Lemma same_bit bi bj : 0 <= bi -> 0 <= bj -> Z.to_nat (bi / 8) = Z.to_nat (bj / 8) ->
  bi mod 8 = bj mod 8 -> bi = bj.
Proof.
  intros Hi Hj E1 E2. pose proof (Z.div_pos bi 8 Hi ltac:(lia)). pose proof (Z.div_pos bj 8 Hj ltac:(lia)).
  rewrite (Z.div_mod bi 8), (Z.div_mod bj 8) by lia. lia.
Qed.

Section Bits.
Context (d : list Z) (bi : Z).
Hypothesis Hbi : 0 <= bi < 8 * Z.of_nat (length d).

Lemma bit_byte bj : 0 <= bj < 8 * Z.of_nat (length d) -> exists x, d !! Z.to_nat (bj / 8) = Some x.
Proof. intros Hj. apply lookup_lt_is_Some_2. apply Nat2Z.inj_lt. rewrite Z2Nat.id; zdm. Qed.

Lemma bit_clear_set bj : 0 <= bj < 8 * Z.of_nat (length d) ->
  bit_clear (set_bit d bi) bj = if bj =? bi then false else bit_clear d bj.
Proof.
  intros Hj. destruct (bit_byte bj Hj) as [x Hx]. destruct (bit_byte bi Hbi) as [y Hy].
  pose proof (Z.mod_pos_bound bi 8 ltac:(lia)). pose proof (Z.mod_pos_bound bj 8 ltac:(lia)).
  unfold set_bit. destruct (decide (Z.to_nat (bi / 8) = Z.to_nat (bj / 8))) as [E|E].
  - rewrite (bit_clear_eq _ bj (u8 (Z.lor x (bit_mask bi)))) by (by rewrite E, list_lookup_alter_eq, Hx).
    rewrite u8_testbit, Z.lor_spec by lia. unfold bit_mask. rewrite Z.shiftl_1_l, Z.pow2_bits_eqb by lia.
    rewrite (bit_clear_eq _ _ _ Hx). destruct (Z.eqb_spec bj bi) as [->|Hne].
    + by rewrite Z.eqb_refl, orb_true_r.
    + rewrite (proj2 (Z.eqb_neq (bi mod 8) _)), orb_false_r; [done|]. intros E'. apply Hne. symmetry. by apply same_bit; [lia..|done|].
  - rewrite (bit_clear_eq _ _ x), (bit_clear_eq _ _ _ Hx) by (by rewrite list_lookup_alter_ne).
    destruct (Z.eqb_spec bj bi) as [->|]; [done|done].
Qed.

Lemma bit_clear_clear bj : 0 <= bj < 8 * Z.of_nat (length d) ->
  bit_clear (clear_bit d bi) bj = (bj =? bi) || bit_clear d bj.
Proof.
  intros Hj. destruct (bit_byte bj Hj) as [x Hx]. destruct (bit_byte bi Hbi) as [y Hy].
  pose proof (Z.mod_pos_bound bi 8 ltac:(lia)). pose proof (Z.mod_pos_bound bj 8 ltac:(lia)).
  unfold clear_bit. destruct (decide (Z.to_nat (bi / 8) = Z.to_nat (bj / 8))) as [E|E].
  - rewrite (bit_clear_eq _ bj (u8 (Z.land x (Z.lnot (bit_mask bi))))) by (by rewrite E, list_lookup_alter_eq, Hx).
    rewrite u8_testbit, Z.land_spec, Z.lnot_spec by lia. unfold bit_mask. rewrite Z.shiftl_1_l, Z.pow2_bits_eqb by lia.
    rewrite (bit_clear_eq _ _ _ Hx). destruct (Z.eqb_spec bj bi) as [->|Hne].
    + by rewrite Z.eqb_refl, andb_false_r.
    + rewrite (proj2 (Z.eqb_neq (bi mod 8) _)), andb_true_r; [done|]. intros E'. apply Hne. symmetry. by apply same_bit; [lia..|done|].
  - rewrite (bit_clear_eq _ _ x), (bit_clear_eq _ _ _ Hx) by (by rewrite list_lookup_alter_ne).
    destruct (Z.eqb_spec bj bi) as [->|]; [done|done].
Qed.

(** Freeing what was just taken restores the block. *)
Lemma clear_set_bit : Forall is_byte d -> bit_clear d bi = true -> clear_bit (set_bit d bi) bi = d.
Proof.
  intros Hd Hc. destruct (bit_byte bi Hbi) as [y Hy]. rewrite (bit_clear_eq _ _ _ Hy) in Hc. apply negb_true_iff in Hc.
  pose proof (Z.mod_pos_bound bi 8 ltac:(lia)). pose proof (proj1 (Forall_lookup _ _) Hd _ _ Hy) as Hb. unfold is_byte in Hb.
  unfold clear_bit, set_bit. rewrite (list_alter_insert _ d _ y Hy).
  rewrite (list_alter_insert _ _ _ (u8 (Z.lor y (bit_mask bi)))), list_insert_insert_eq
    by (apply list_lookup_insert_eq; by eapply lookup_lt_Some).
  apply list_insert_id. rewrite Hy. f_equal. apply Z.bits_inj'. intros n Hn. unfold u8.
  destruct (Z.ltb_spec n 8).
  - rewrite !Z.mod_pow2_bits_low, Z.land_spec, Z.mod_pow2_bits_low, Z.lor_spec, Z.lnot_spec by lia.
    unfold bit_mask. rewrite Z.shiftl_1_l, Z.pow2_bits_eqb by lia.
    destruct (Z.eqb_spec (bi mod 8) n) as [<-|]; [by rewrite Hc|by rewrite orb_false_r, andb_true_r].
  - rewrite Z.mod_pow2_bits_high by lia. rewrite <- (Z.mod_small y (2 ^ 8)) by lia. by rewrite Z.mod_pow2_bits_high by lia.
Qed.
End Bits.

Lemma length_set_bit d bi : length (set_bit d bi) = length d.
Proof. unfold set_bit. apply length_alter. Qed.
Lemma length_clear_bit d bi : length (clear_bit d bi) = length d.
Proof. unfold clear_bit. apply length_alter. Qed.

(** ** The bitmap *)

(** Block [b] is free. *)
Definition is_free (V : Z -> list Z) (sb : superblock) (b : Z) : bool :=
  bit_clear (V (BBLOCK b sb)) (b mod BPB).

(** The bitmap lies outside of the log, and so do all free blocks; no block of the
    bitmap is itself free. *)
Record bitmap_ok (s : kstate) : Prop := {
  bm_size : 0 <= sb_size (sb s) < 2 ^ 31;
  bm_start : 0 <= sb_bmapstart (sb s) < 2 ^ 31;
  bm_home : forall b, 0 <= b < sb_size (sb s) -> home (klog s) (BBLOCK b (sb s));
  bm_len : forall b, 0 <= b < sb_size (sb s) -> length (vw s (BBLOCK b (sb s))) = bsize;
  bm_free : forall b, 0 <= b < sb_size (sb s) -> is_free (vw s) (sb s) b = true ->
    home (klog s) b /\ forall c, 0 <= c < sb_size (sb s) -> BBLOCK c (sb s) <> b
}.

Lemma op_step_sb s s' : op_step s s' -> sb s' = sb s.
Proof. by apply (op_step_field sb). Qed.

Section Balloc.
Context `{World kstate} `{BlockDev}.

Lemma wp_modify_data s held B i bno f (Q : unit -> kstate -> Prop) :
  in_op s held B -> held_ok held i bno ->
  (forall s', in_op s' held B -> op_step s s' ->
     (forall x, vw s' x = if x =? bno then f (vw s bno) else vw s x) -> Q tt s') ->
  wp (modify_data i f) Q s.
Proof. apply wp_op_modify. Qed.

Lemma wp_bzero s held B b (Q : unit -> kstate -> Prop) :
  in_op s held B -> b ∉ held.*2 -> home (klog s) b -> room (klog s) B (S (length held)) ->
  (forall s', in_op s' held (add_tx B b) -> op_step s s' ->
     (forall x, vw s' x = if x =? b then zero_block else vw s x) -> Q tt s') ->
  wp (bzero ROOTDEV b) Q s.
Proof.
  intros Ho Hn Hh Hr HQ. unfold bzero. change (u32 ROOTDEV) with ROOTDEV. rewrite u32_id by (destruct Hh; lia). wstep.
  apply (wp_op_bread s held B b); [done|done|unfold room in Hr; lia|]. intros i s1 Ho1 Hi St1 V1. wstep.
  eapply wp_modify_data; [exact Ho1|by apply held_ok_head|]. intros s2 Ho2 St2 V2.
  pose proof (op_step_trans _ _ _ St1 St2) as St12.
  eapply wp_op_log_release; [exact Ho2|done|by eapply home_step|eapply room_step, room_le; [exact St12| |exact Hr]; lia|].
  intros s3 Ho3 St3 V3. apply HQ; [done|by eapply op_step_trans|]. intros x. rewrite V3, V2.
  destruct (x =? b); [done|apply V1].
Qed.

(** The values of [b] and [bi] at which the search stops. *)
Lemma bitmap_starts_at size b : 0 <= b < size ->
  exists l2, bitmap_starts size = (fun k => k * BPB) <$> seqZ 0 (b / BPB) ++ (b / BPB) :: l2.
Proof.
  intros Hb. unfold bitmap_starts. exists (seqZ (b / BPB + 1) ((size + BPB - 1) / BPB - b / BPB - 1)).
  f_equal. apply (seqZ_at 0). unfold BPB, BSIZE. zdm.
Qed.

Lemma BBLOCK_start b sbk : BBLOCK (b / BPB * BPB) sbk = BBLOCK b sbk.
Proof. unfold BBLOCK. by rewrite Z.div_mul by done. Qed.

Lemma BPB_split b : b / BPB * BPB + b mod BPB = b.
Proof. pose proof (Z.div_mod b BPB ltac:(done)). lia. Qed.

(** What [balloc] does to the blocks when it takes [b]. *)
Definition after_balloc (V : Z -> list Z) (sbk : superblock) (b x : Z) : list Z :=
  if x =? b then zero_block
  else if x =? BBLOCK b sbk then set_bit (V (BBLOCK b sbk)) (b mod BPB) else V x.

Lemma is_free_at V sbk k bi : 0 <= bi < BPB -> is_free V sbk (k * BPB + bi) = bit_clear (V (BBLOCK (k * BPB) sbk)) bi.
Proof.
  intros Hb. unfold is_free, BBLOCK. rewrite Z.div_add_l, (Z.div_small bi), Z.add_0_r, Z.div_mul by (done || lia).
  by rewrite (Z.add_comm (k * BPB) bi), Z.mod_add, Z.mod_small by (done || lia).
Qed.

(** While the search goes on, nothing has changed but the cache. *)
Definition searching (s : kstate) (held : list (nat * Z)) (B : list Z) (s' : kstate) : Prop :=
  in_op s' held B /\ op_step s s' /\ forall x, vw s' x = vw s x.

(** The inner loop passes over the bits that are set. *)
Lemma wp_balloc_skip s held B i k bi (body : K (option Z)) (t : kstate) :
  searching s ((i, BBLOCK (k * BPB) (sb s)) :: held) B t -> 0 <= bi < BPB ->
  is_free (vw s) (sb s) (k * BPB + bi) = false ->
  wp (let* d := get_buf i b_data in if bit_clear d bi then body else ret None)
    (fun r t' => r = None /\ searching s ((i, BBLOCK (k * BPB) (sb s)) :: held) B t') t.
Proof.
  intros (Ho & St & V) Hbi Hf. wstep. eapply wp_op_data; [exact Ho|left|].
  rewrite V. rewrite is_free_at in Hf by done. rewrite Hf. by wsteps.
Qed.

(** A block of the bitmap without a free bit. *)
Lemma wp_balloc_block s held B k (body : nat -> Z -> K (option Z)) n s' :
  in_op s held B -> searching s held B s' -> BBLOCK (k * BPB) (sb s) ∉ held.*2 -> (length B + length held < HEAD)%nat ->
  n <= BPB -> (forall bi, 0 <= bi < n -> is_free (vw s) (sb s) (k * BPB + bi) = false) ->
  wp (let* bp := bread ROOTDEV (BBLOCK (k * BPB) (sb s)) in
      let* r := for_each (seqZ 0 n) (fun bi =>
        let* d := get_buf bp b_data in if bit_clear d bi then body bp bi else ret None) in
      match r with Some a => ret (Some a) | None => brelse bp ;;; ret None end)
    (fun r t => r = None /\ searching s held B t) s'.
Proof.
  intros Ho (Ho' & St & V) Hheld Hl Hn Hf. wstep.
  apply (wp_op_bread s' held B); [done|done|done|]. intros i s1 Ho1 Hi St1 V1. wstep.
  apply (wp_for_each_none _ _ (searching s ((i, BBLOCK (k * BPB) (sb s)) :: held) B)).
  - split; [done|]. split; [by eapply op_step_trans|]. intros x. by rewrite V1.
  - intros bi t Hbi Hs. apply elem_of_seqZ in Hbi. apply wp_balloc_skip; [done|lia|apply Hf; lia].
  - intros t (Ho2 & St2 & V2). wstep. apply (wp_op_brelse_read s B held t held B _ (BBLOCK (k * BPB) (sb s))); [done..|].
    intros t' Ho3 St3 V3. wsteps. split; [done|]. split; [done|]. split; [by eapply op_step_trans|]. intros x. by rewrite V3.
Qed.

Lemma wp_balloc s held B b (Q : Z -> kstate -> Prop) :
  in_op s held B -> bitmap_ok s -> room (klog s) B (2 + length held) ->
  (forall c, 0 <= c < sb_size (sb s) -> BBLOCK c (sb s) ∉ held.*2) -> b ∉ held.*2 ->
  0 <= b < sb_size (sb s) -> is_free (vw s) (sb s) b = true ->
  (forall c, 0 <= c < b -> is_free (vw s) (sb s) c = false) ->
  (forall s', in_op s' held (add_tx (add_tx B (BBLOCK b (sb s))) b) -> op_step s s' ->
     (forall x, vw s' x = after_balloc (vw s) (sb s) b x) -> Q b s') ->
  wp (balloc ROOTDEV) Q s.
Proof.
  intros Ho Hbm Hr Hheld Hbh Hb Hfree Hleast HQ. destruct (bm_free _ Hbm b Hb Hfree) as [Hhb Hnb].
  pose proof (bm_size _ Hbm) as Hsz. pose proof (bm_home _ Hbm b Hb) as Hhbm.
  pose proof (BPB_split b) as Hsplit. pose proof (Z.mod_pos_bound b BPB ltac:(done)) as Hmod.
  assert (Hdiv : 0 <= b / BPB * BPB) by (unfold BPB, BSIZE in *; zdm).
  destruct (bitmap_starts_at _ _ Hb) as [l2 Hl]. unfold balloc. wsteps. rewrite Hl, fmap_app, fmap_cons.
  apply (wp_for_each_find _ _ _ _ (searching s held B)).
  - split; [done|]. split; [apply op_step_refl|done].
  - intros y s' (k & -> & Hk)%list_elem_of_fmap Hs'. pose proof Hs' as (Ho' & St & V). apply elem_of_seqZ in Hk.
    assert (Hkb : 0 <= k * BPB /\ k * BPB + BPB <= b) by (unfold BPB, BSIZE in *; zdm). wstep. wstep. rewrite (op_step_sb _ _ St).
    rewrite Z.min_l by lia. apply (wp_balloc_block s held B k (fun bp bi => modify_data bp (fun d => set_bit d bi) ;;; log_write bp ;;; brelse bp ;;; bzero ROOTDEV (k * BPB + bi) ;;; ret (Some (k * BPB + bi)))); [done|done|apply Hheld; lia|unfold room in Hr; lia|done|].
    intros bi Hbi. apply Hleast. lia.
  - intros s' (Ho' & St & V). wsteps. rewrite (op_step_sb _ _ St).
    assert (Eblk : BBLOCK (b / BPB * BPB) (sb s) = BBLOCK b (sb s)) by apply BBLOCK_start.
    apply (wp_op_bread s' held B); [done|rewrite Eblk; by apply Hheld|unfold room in Hr; lia|].
    intros i s1 Ho1 Hi St1 V1. wstep.
    rewrite (seqZ_at 0 _ (b mod BPB)), Z.add_0_l by lia.
    apply (wp_for_each_find _ _ _ _ (searching s ((i, BBLOCK (b / BPB * BPB) (sb s)) :: held) B)).
    + split; [done|]. split; [by eapply op_step_trans|]. intros x. by rewrite V1.
    + intros bi t Hbi Hs. apply elem_of_seqZ in Hbi. apply wp_balloc_skip; [done|lia|apply Hleast; lia].
    + rewrite Eblk. intros t (Ho2 & St2 & V2). wstep. eapply wp_op_data; [exact Ho2|left|]. rewrite V2.
      change (bit_clear (vw s (BBLOCK b (sb s))) (b mod BPB)) with (is_free (vw s) (sb s) b). rewrite Hfree. wstep.
      eapply wp_modify_data; [exact Ho2|by apply held_ok_head|]. intros s3 Ho3 St3 V3.
      pose proof (op_step_trans _ _ _ St2 St3) as St23.
      eapply wp_op_log_release_then; [exact Ho3|done|by eapply home_step|eapply room_step, room_le; [exact St23| |exact Hr]; lia|].
      intros s4 Ho4 St4 V4. pose proof (op_step_trans _ _ _ St23 St4) as St24. rewrite Hsplit. wstep.
      eapply wp_bzero; [exact Ho4|done|by eapply home_step|eapply room_step; [exact St24|]; apply room_add; exact Hr|].
      intros s5 Ho5 St5 V5. wsteps. split; [by eexists|]. wsteps. split; [by eexists|]. wsteps.
      rewrite u32_id by lia. apply HQ; [done|by eapply op_step_trans|].
      intros x. unfold after_balloc. rewrite V5, V4, V3, !V2. done.
Qed.

(** ** Theorems *)

Lemma BBLOCK_inj s b c : bitmap_ok s -> 0 <= b < sb_size (sb s) -> 0 <= c < sb_size (sb s) ->
  BBLOCK b (sb s) = BBLOCK c (sb s) -> b / BPB = c / BPB.
Proof.
  intros Hbm Hb Hc. pose proof (bm_size _ Hbm). pose proof (bm_start _ Hbm). unfold BBLOCK.
  rewrite !u32_id by (unfold BPB, BSIZE in *; zdm). lia.
Qed.

Lemma bit_in_block s b : bitmap_ok s -> 0 <= b < sb_size (sb s) ->
  forall c, 0 <= c mod BPB < 8 * Z.of_nat (length (vw s (BBLOCK b (sb s)))).
Proof.
  intros Hbm Hb c. rewrite (bm_len _ Hbm b Hb). change (8 * Z.of_nat bsize) with BPB.
  apply Z.mod_pos_bound. done.
Qed.

(** The free blocks after [balloc] of [b]. *)
Lemma balloc_free s b c : bitmap_ok s -> 0 <= b < sb_size (sb s) -> is_free (vw s) (sb s) b = true ->
  0 <= c < sb_size (sb s) ->
  is_free (after_balloc (vw s) (sb s) b) (sb s) c = negb (c =? b) && is_free (vw s) (sb s) c.
Proof.
  intros Hbm Hb Hf Hc. destruct (bm_free _ Hbm b Hb Hf) as [_ Hnb]. unfold is_free, after_balloc.
  rewrite (proj2 (Z.eqb_neq _ b)) by (by apply Hnb).
  destruct (Z.eqb_spec (BBLOCK c (sb s)) (BBLOCK b (sb s))) as [E|E].
  - rewrite bit_clear_set by (by apply bit_in_block). rewrite E. apply BBLOCK_inj in E; [|done..].
    destruct (Z.eqb_spec (c mod BPB) (b mod BPB)) as [E'|E'].
    + assert (c = b) as -> by (pose proof (BPB_split b); pose proof (BPB_split c); congruence). by rewrite Z.eqb_refl.
    + destruct (Z.eqb_spec c b) as [->|]; [done|done].
  - destruct (Z.eqb_spec c b) as [->|]; [done|done].
Qed.

(** Without a free block, [balloc] panics. *)
Lemma balloc_full s held B :
  in_op s held B -> bitmap_ok s -> room (klog s) B (2 + length held) ->
  (forall c, 0 <= c < sb_size (sb s) -> BBLOCK c (sb s) ∉ held.*2) ->
  (forall c, 0 <= c < sb_size (sb s) -> is_free (vw s) (sb s) c = false) ->
  exists s', balloc ROOTDEV s = Panic "balloc: out of blocks" s'.
Proof.
  intros Ho Hbm Hr Hheld Hnone. destruct (wp_run (for_each (bitmap_starts (sb_size (sb s))) (fun b =>
      let* blk := gets (fun s => BBLOCK b (sb s)) in
      let* bp := bread ROOTDEV blk in
      let* r := for_each (seqZ 0 (Z.min BPB (sb_size (sb s) - b))) (fun bi =>
        let* d := get_buf bp b_data in
        if bit_clear d bi then
          modify_data bp (fun d => set_bit d bi) ;;; log_write bp ;;; brelse bp ;;;
          bzero ROOTDEV (b + bi) ;;; ret (Some (b + bi))
        else ret None) in
      match r with Some a => ret (Some a) | None => brelse bp ;;; ret None end)) (fun r _ => r = None) s)
      as (r & s' & Hrun & ->).
  - apply (wp_for_each_none _ _ (searching s held B)); [split; [done|split; [apply op_step_refl|done]]| |done].
      intros y s' (k & -> & Hk)%list_elem_of_fmap Hs'. pose proof Hs' as (_ & St & _). apply elem_of_seqZ in Hk.
      assert (Hkb : 0 <= k * BPB < sb_size (sb s)) by (unfold BPB, BSIZE in *; zdm).
      wstep. wstep. rewrite (op_step_sb _ _ St).
      apply (wp_balloc_block s held B k (fun bp bi => modify_data bp (fun d => set_bit d bi) ;;; log_write bp ;;; brelse bp ;;;
        bzero ROOTDEV (k * BPB + bi) ;;; ret (Some (k * BPB + bi))));
        [done|done|by apply Hheld|unfold room in Hr; lia|lia|]. intros bi Hbi. apply Hnone. lia.
  - exists s'. unfold balloc. unfold bind at 1. cbn [gets]. by rewrite (bind_ok _ _ _ _ _ Hrun).
Qed.

(** C28: [balloc] takes the least free block.  When the bitmap has a free block it
    returns the least one, marks exactly this one as used, fills it with zeros and
    leaves every other block alone; the two changed blocks are in the log and
    nothing is written to disk yet.  When there is none, it panics. *)
Theorem balloc_spec (s : kstate) (held : list (nat * Z)) (B : list Z) :
  in_op s held B -> bitmap_ok s -> room (klog s) B (2 + length held) ->
  (forall c, 0 <= c < sb_size (sb s) -> BBLOCK c (sb s) ∉ held.*2) ->
  (forall c, 0 <= c < sb_size (sb s) -> is_free (vw s) (sb s) c = true -> c ∉ held.*2) ->
  ((exists c, 0 <= c < sb_size (sb s) /\ is_free (vw s) (sb s) c = true) ->
   exists b s', balloc ROOTDEV s = Ok b s' /\ 0 <= b < sb_size (sb s) /\ is_free (vw s) (sb s) b = true /\
     (forall c, 0 <= c < sb_size (sb s) -> is_free (vw s) (sb s) c = true -> b <= c) /\
     (forall c, 0 <= c < sb_size (sb s) ->
        is_free (vw s') (sb s') c = negb (c =? b) && is_free (vw s) (sb s) c) /\
     (forall x, vw s' x = after_balloc (vw s) (sb s) b x) /\
     in_op s' held (add_tx (add_tx B (BBLOCK b (sb s))) b) /\ disk s' = disk s) /\
  ((forall c, 0 <= c < sb_size (sb s) -> is_free (vw s) (sb s) c = false) ->
   exists s', balloc ROOTDEV s = Panic "balloc: out of blocks" s').
Proof.
  intros Ho Hbm Hr Hheld Hfh. split.
  - intros (f & Hf & Hff). destruct (least_Z (is_free (vw s) (sb s)) f ltac:(lia) Hff) as (b & Hb & Hbf & Hleast).
    destruct (wp_run (balloc ROOTDEV) (fun r s' => r = b /\ in_op s' held (add_tx (add_tx B (BBLOCK b (sb s))) b) /\
      op_step s s' /\ forall x, vw s' x = after_balloc (vw s) (sb s) b x) s) as (r & s' & Hrun & -> & Ho' & St & V).
    { eapply (wp_balloc s held B b); [done..|apply Hfh; [lia|done]|lia|done|done|auto]. }
    exists b, s'. split; [done|]. split; [lia|]. split; [done|]. split.
    { intros c Hc Hcf. destruct (Z.le_gt_cases b c) as [|Hlt]; [done|]. rewrite Hleast in Hcf by lia. done. }
    split; [|split; [done|split; [done|by apply (op_step_field disk)]]].
    intros c Hc. rewrite (op_step_sb _ _ St), <- (balloc_free s b c) by (done || lia). unfold is_free. by rewrite V.
  - intros Hnone. by eapply balloc_full.
Qed.

Lemma wp_bfree s held B b (Q : unit -> kstate -> Prop) :
  in_op s held B -> home (klog s) (BBLOCK b (sb s)) -> room (klog s) B (1 + length held) ->
  BBLOCK b (sb s) ∉ held.*2 -> is_free (vw s) (sb s) b = false ->
  (forall s', in_op s' held (add_tx B (BBLOCK b (sb s))) -> op_step s s' ->
     (forall x, vw s' x = if x =? BBLOCK b (sb s) then clear_bit (vw s (BBLOCK b (sb s))) (b mod BPB) else vw s x) ->
     Q tt s') ->
  wp (bfree ROOTDEV b) Q s.
Proof.
  intros Ho Hh Hr Hn Hf HQ. unfold bfree. change (u32 ROOTDEV) with ROOTDEV. wstep. wstep. wstep.
  apply (wp_op_bread s held B); [done|done|unfold room in Hr; lia|]. intros i s1 Ho1 Hi St1 V1. wstep.
  eapply wp_op_data; [exact Ho1|left|]. rewrite V1. unfold is_free in Hf. rewrite Hf. wstep.
  eapply wp_modify_data; [exact Ho1|by apply held_ok_head|]. intros s2 Ho2 St2 V2.
  pose proof (op_step_trans _ _ _ St1 St2) as St12.
  eapply wp_op_log_release; [exact Ho2|done|by eapply home_step|eapply room_step, room_le; [exact St12| |exact Hr]; lia|].
  intros s3 Ho3 St3 V3. apply HQ; [done|by eapply op_step_trans|]. intros x. by rewrite V3, V2, !V1.
Qed.

Lemma bfree_panic s held B b : in_op s held B -> BBLOCK b (sb s) ∉ held.*2 -> (length B + length held < HEAD)%nat ->
  is_free (vw s) (sb s) b = true -> exists s', bfree ROOTDEV b s = Panic "freeing free block" s'.
Proof.
  intros Ho Hn Hl Hf. unfold bfree. change (u32 ROOTDEV) with ROOTDEV.
  destruct (wp_run (let* bp := bread ROOTDEV (BBLOCK b (sb s)) in let* d := get_buf bp b_data in ret (bp, d))
    (fun '(_, d) _ => d = vw s (BBLOCK b (sb s))) s) as ([bp d] & s' & Hrun & ->).
  { wstep. apply (wp_op_bread s held B); [done..|]. intros i s1 Ho1 Hi St1 V1. wstep.
    eapply wp_op_data; [exact Ho1|left|]. wsteps. apply V1. }
  apply bind_inv in Hrun as (i & s1 & Hb & Hrun). apply bind_inv in Hrun as (d & s2 & Hd & Hrun). injection Hrun as -> -> ->.
  exists s'. unfold bind at 1. cbn [gets]. rewrite (bind_ok _ _ _ _ _ Hb), (bind_ok _ _ _ _ _ Hd).
  unfold is_free in Hf. by rewrite Hf.
Qed.

Lemma held_free_bitmap s b c : bitmap_ok s -> 0 <= b < sb_size (sb s) -> 0 <= c < sb_size (sb s) ->
  is_free (vw s) (sb s) b = true -> (BBLOCK c (sb s) =? b) = false.
Proof. intros Hbm Hb Hc Hf. apply Z.eqb_neq. by apply (bm_free _ Hbm b Hb Hf). Qed.

(** [bfree] undoes [balloc].  The block [balloc] returned can be freed, which
    restores the bitmap (the block itself stays zeroed, nothing else changed);
    freeing it a second time panics. *)
Theorem bfree_balloc (s : kstate) (held : list (nat * Z)) (B : list Z) :
  in_op s held B -> bitmap_ok s -> room (klog s) B (4 + length held) ->
  (forall c, 0 <= c < sb_size (sb s) -> BBLOCK c (sb s) ∉ held.*2) ->
  (forall c, 0 <= c < sb_size (sb s) -> is_free (vw s) (sb s) c = true -> c ∉ held.*2) ->
  (forall c, 0 <= c < sb_size (sb s) -> Forall is_byte (vw s (BBLOCK c (sb s)))) ->
  (exists c, 0 <= c < sb_size (sb s) /\ is_free (vw s) (sb s) c = true) ->
  exists b s' s'', balloc ROOTDEV s = Ok b s' /\ bfree ROOTDEV b s' = Ok tt s'' /\
    (forall x, vw s'' x = if x =? b then zero_block else vw s x) /\
    exists s3, bfree ROOTDEV b s'' = Panic "freeing free block" s3.
Proof.
  intros Ho Hbm Hr Hheld Hfh Hbytes (f & Hf & Hff).
  destruct (least_Z (is_free (vw s) (sb s)) f ltac:(lia) Hff) as (b & Hb & Hbf & Hleast).
  assert (Hbs : 0 <= b < sb_size (sb s)) by lia. pose proof (held_free_bitmap s b b Hbm Hbs Hbs Hbf) as Hne.
  destruct (wp_run (let* a := balloc ROOTDEV in ret a) (fun r s' => r = b /\ in_op s' held (add_tx (add_tx B (BBLOCK b (sb s))) b) /\
      op_step s s' /\ forall x, vw s' x = after_balloc (vw s) (sb s) b x) s) as (r & s' & Hrun & -> & Ho' & St & V).
  { wstep. eapply (wp_balloc s held B b); [done|done|by eapply room_le; [|exact Hr]; lia|done|by apply Hfh|done..|by auto]. }
  apply bind_inv in Hrun as (r & s0 & Hrun & [= -> ->]).
  assert (Hroom : room (klog s') (add_tx (add_tx B (BBLOCK b (sb s))) b) (1 + length held)).
  { eapply room_step; [exact St|]. apply room_add, room_add. eapply room_le; [|exact Hr]. lia. }
  assert (Hv : vw s' (BBLOCK b (sb s)) = set_bit (vw s (BBLOCK b (sb s))) (b mod BPB)).
  { rewrite V. unfold after_balloc. by rewrite Hne, Z.eqb_refl. }
  destruct (wp_run_unit (bfree ROOTDEV b) (fun s'' => in_op s'' held (add_tx (add_tx (add_tx B (BBLOCK b (sb s))) b) (BBLOCK b (sb s))) /\
    op_step s' s'' /\ forall x, vw s'' x = if x =? b then zero_block else vw s x) s') as (s'' & Hrun2 & Ho2 & St2 & V2).
  { eapply (wp_bfree s' held _ b); rewrite ?(op_step_sb _ _ St); [exact Ho'|by eapply home_step; [|apply bm_home]|done|by apply Hheld|..].
    - unfold is_free. rewrite Hv, bit_clear_set, Z.eqb_refl by (by apply bit_in_block). done.
    - intros s'' Ho2 St2 V2. split; [done|]. split; [done|]. intros x. rewrite V2, Hv, clear_set_bit by (exact Hbf || by apply bit_in_block || by apply Hbytes).
      rewrite V. unfold after_balloc. destruct (Z.eqb_spec x (BBLOCK b (sb s))) as [->|]; [by rewrite Hne|done]. }
  exists b, s', s''. split; [done|]. split; [done|]. split; [done|].
  apply (bfree_panic s'' held (add_tx (add_tx (add_tx B (BBLOCK b (sb s))) b) (BBLOCK b (sb s)))); rewrite ?(op_step_sb _ _ St2), ?(op_step_sb _ _ St);
    [done|by apply Hheld| |].
  - pose proof (length_add_tx (add_tx (add_tx B (BBLOCK b (sb s))) b) (BBLOCK b (sb s))).
    pose proof (length_add_tx (add_tx B (BBLOCK b (sb s))) b). pose proof (length_add_tx B (BBLOCK b (sb s))). unfold room in Hr. lia.
  - unfold is_free. rewrite V2, Hne. exact Hbf.
Qed.
End Balloc.

(** ** A concrete file system

    Forty blocks: the log at 2 to 11, a block of inodes (12), the bitmap (14); the
    first sixteen blocks are in use. *)
Definition ex_sb : superblock := mk_superblock FSMAGIC 40 24 16 10 2 12 14.
Definition ex_disk : gmap Z (list Z) := {[14 := 255 :: 255 :: replicate 1022 0]}.
Definition ex_oplog : log_t := mk_log 2 10 1 false ROOTDEV (mk_logheader 0 (replicate 30 0)).
Definition ex_op : kstate := set_sb ex_sb (ex_fs ex_disk ex_oplog).

Lemma cache_set_sb ex s held b : cache_ex ex s held -> cache_ex ex (set_sb b s) held.
Proof.
  intros [A1 [order [C1 C2 C3 C4 C5 C6]] A3 A4 A5].
  split; [by eapply calm_ext; [..|exact A1]|exists order; by split| |done|done].
  intros i x Hx. destruct (A3 i x Hx) as (e & He & Hk & Hv & nm & Hl). exists e.
  split; [done|]. split; [done|]. split; [done|]. by exists nm.
Qed.

Lemma ex_op_tx : tx ex_oplog [].
Proof.
  split.
  - reflexivity.
  - reflexivity.
  - intros k b Hb. rewrite lookup_nil in Hb. discriminate.
  - split; reflexivity.
  - split; [reflexivity|change HEAD with 30%nat; simpl; lia].
  - constructor.
  - intros b Hb. by apply not_elem_of_nil in Hb.
Qed.

Lemma ex_op_in : in_op ex_op [] [].
Proof.
  split.
  - apply cache_set_sb, ex_fs_cache.
  - exact ex_op_tx.
  - reflexivity.
  - change (1 <= 1). lia.
  - intros x. change (pins (ex_fs ex_disk ex_oplog) x = one (x ∈ []) + one (x ∈ [])).
    rewrite ex_pins_out by apply not_elem_of_nil. by rewrite !one_false by apply not_elem_of_nil.
  - constructor.
Qed.

Lemma ex_op_view x : vw ex_op x = disk_block ex_disk x.
Proof. change (vw (ex_fs ex_disk ex_oplog) x = disk_block ex_disk x). apply ex_view_out. apply not_elem_of_nil. Qed.

Lemma ex_BBLOCK c : 0 <= c < 40 -> BBLOCK c ex_sb = 14.
Proof. intros Hc. unfold BBLOCK. rewrite Z.div_small by (unfold BPB, BSIZE; lia). reflexivity. Qed.

Lemma ex_bitmap : disk_block ex_disk 14 = 255 :: 255 :: replicate 1022 0.
Proof. reflexivity. Qed.

Lemma ex_free_bits c : 0 <= c < 40 -> is_free (vw ex_op) ex_sb c = (16 <=? c).
Proof.
  intros Hc. unfold is_free. rewrite ex_BBLOCK, ex_op_view, ex_bitmap, Z.mod_small by (unfold BPB, BSIZE; lia).
  assert (Hall : Forall (fun c => bit_clear (255 :: 255 :: replicate 1022 0) c = (16 <=? c)) (seqZ 0 40)).
  { apply Forall_forall. intros y Hy. apply elem_of_seqZ in Hy. unfold bit_clear.
    assert (Hk : (Z.to_nat (y / 8) < 5)%nat) by (apply Nat2Z.inj_lt; rewrite Z2Nat.id; zdm).
    change (255 :: 255 :: replicate 1022 0) with ([255; 255] ++ replicate 1022 0).
    destruct (decide (Z.to_nat (y / 8) < 2)%nat) as [H2|H2].
    - assert (Hx : ([255; 255] ++ replicate 1022 0) !! Z.to_nat (y / 8) = Some (Z.ones 8))
        by (rewrite lookup_app_l by done; by destruct (Z.to_nat (y / 8)) as [|[|k]]; [..|lia]).
      rewrite Hx. unfold bit_mask. rewrite land_bit, Z.ones_spec_low by (apply Z.mod_pos_bound; lia).
      symmetry. apply Z.leb_gt. zdm.
    - rewrite lookup_app_r, lookup_replicate_2 by (cbn [length]; lia). rewrite Z.land_0_l. symmetry. apply Z.leb_le. zdm. }
  rewrite Forall_forall in Hall. apply Hall, elem_of_seqZ. lia.
Qed.

Lemma ex_op_bitmap : bitmap_ok ex_op.
Proof.
  split.
  - change (0 <= 40 < 2 ^ 31). lia.
  - change (0 <= 14 < 2 ^ 31). lia.
  - intros b Hb. change (home ex_oplog (BBLOCK b ex_sb)). rewrite ex_BBLOCK by exact Hb. split; [lia|]. unfold in_log. simpl. lia.
  - intros b Hb. change (length (vw ex_op (BBLOCK b ex_sb)) = bsize). rewrite ex_BBLOCK, ex_op_view by exact Hb. reflexivity.
  - intros b Hb Hf. change (is_free (vw ex_op) ex_sb b = true) in Hf. change (0 <= b < 40) in Hb. rewrite ex_free_bits in Hf by done.
    apply Z.leb_le in Hf. split; [split; [lia|]; unfold in_log; simpl; lia|].
    intros c Hc. change (BBLOCK c ex_sb <> b). rewrite ex_BBLOCK by exact Hc. lia.
Qed.

Lemma ex_op_room n : (n < 10)%nat -> room (klog ex_op) [] n.
Proof. intros Hn. split; [change (Z.of_nat n < 10); lia|change HEAD with 30%nat; simpl; lia]. Qed.

Lemma balloc_spec_witness :
  exists b s', balloc (H := idle_world) (H0 := sync_dev) ROOTDEV ex_op = Ok b s' /\ 16 <= b /\ vw s' b = zero_block.
Proof.
  destruct (balloc_spec (H := idle_world) (H0 := sync_dev) ex_op [] []) as [Hok _].
  - exact ex_op_in.
  - exact ex_op_bitmap.
  - apply ex_op_room. simpl. lia.
  - intros c _. apply not_elem_of_nil.
  - intros c _ _. apply not_elem_of_nil.
  - destruct Hok as (b & s' & Hr & Hb & Hfree & _ & _ & Hv & _).
    + exists 20. split; [change (0 <= 20 < 40); lia|]. apply (ex_free_bits 20). lia.
    + exists b, s'. split; [exact Hr|]. split.
      * apply Z.leb_le. rewrite <- Hfree. symmetry. by apply ex_free_bits.
      * rewrite Hv. unfold after_balloc. by rewrite Z.eqb_refl.
Defined.

Lemma bfree_balloc_witness :
  exists b s' s'', balloc (H := idle_world) (H0 := sync_dev) ROOTDEV ex_op = Ok b s' /\
    bfree (H := idle_world) (H0 := sync_dev) ROOTDEV b s' = Ok tt s''.
Proof.
  destruct (bfree_balloc (H := idle_world) (H0 := sync_dev) ex_op [] []) as (b & s' & s'' & Hr & Hr' & _).
  - exact ex_op_in.
  - exact ex_op_bitmap.
  - apply ex_op_room. simpl. lia.
  - intros c _. apply not_elem_of_nil.
  - intros c _ _. apply not_elem_of_nil.
  - intros c Hc. change (Forall is_byte (vw ex_op (BBLOCK c ex_sb))). rewrite ex_BBLOCK, ex_op_view, ex_bitmap by exact Hc.
    constructor; [split; lia|]. constructor; [split; lia|]. apply Forall_replicate. split; lia.
  - exists 20. split; [change (0 <= 20 < 40); lia|]. apply (ex_free_bits 20). lia.
  - exists b, s', s''. split; [exact Hr|exact Hr'].
Defined.
