(* ===== verification/Content.v ===== *)
(** * Inodes and file contents (kernel/fs.c)

    The on-disk inode as bytes, the inode cache as a write-through copy of it, and
    the contents of a file as [readi] and [writei] see them. *)

From stdpp Require Import gmap strings list fin_maps.
From Stdlib Require Import ZArith Lia.
From S2P Require Import Prelude Machine State Riscv Spinlock Kalloc Vm Copy Sched Sleeplock Bytes Bio.
From S2P Require Import Cache Log Commit Op Inode Dir Balloc.
Open Scope Z_scope.

(** ** The bytes of a [struct dinode] *)

Lemma field_put16_other d o v off n : (o + 2 <= length d)%nat -> (off + n <= o \/ o + 2 <= off)%nat ->
  field (put16 d o v) off n = field d off n.
Proof. intros. unfold put16. apply field_splice_other; rewrite length_le_encode; lia. Qed.
Lemma field_put32_other d o v off n : (o + 4 <= length d)%nat -> (off + n <= o \/ o + 4 <= off)%nat ->
  field (put32 d o v) off n = field d off n.
Proof. intros. unfold put32. apply field_splice_other; rewrite length_le_encode; lia. Qed.

Lemma length_put_addrs d o l : (o + 4 * length l <= length d)%nat -> length (put_addrs d o l) = length d.
Proof.
  revert d o; induction l as [|a l IH]; intros d o Hl; cbn [put_addrs length] in *; [done|].
  rewrite IH; rewrite length_put32; lia.
Qed.

Lemma field_put_addrs_other d o l off n : (o + 4 * length l <= length d)%nat ->
  (off + n <= o \/ o + 4 * length l <= off)%nat -> field (put_addrs d o l) off n = field d off n.
Proof.
  revert d o; induction l as [|a l IH]; intros d o Hl Ho; cbn [put_addrs length] in *; [done|].
  rewrite IH by (rewrite ?length_put32; lia). apply field_put32_other; lia.
Qed.

Lemma get32_put_addrs d o l j a : (o + 4 * length l <= length d)%nat -> l !! j = Some a ->
  get32 (put_addrs d o l) (o + 4 * j) = a mod 2 ^ 32.
Proof.
  revert d o j; induction l as [|c l IH]; intros d o j Hl Hj; cbn [put_addrs length] in *; [done|].
  destruct j as [|j]; simpl in Hj.
  - simplify_eq. unfold get32. rewrite field_put_addrs_other by (rewrite ?length_put32; lia).
    rewrite Nat.add_0_r. apply get32_put32. lia.
  - replace (o + 4 * S j)%nat with (o + 4 + 4 * j)%nat by lia. apply IH; [rewrite length_put32; lia|done].
Qed.

Lemma i16_mod x : - 2 ^ 15 <= x < 2 ^ 15 -> i16 (x mod 2 ^ 16) = x.
Proof.
  intros Hx. unfold i16. destruct (Z.leb_spec 0 x).
  - rewrite (Z.mod_small x) by lia. rewrite Z.mod_small; lia.
  - rewrite <- (Z.mod_add x 1), (Z.mod_small (x + 1 * 2 ^ 16)) by lia.
    rewrite <- (Z.mod_add _ (-1)) by lia. rewrite Z.mod_small; lia.
Qed.

(** The values the fields of a [struct dinode] hold. *)
Record dinode_wf (di : dinode) : Prop := {
  wf_type : - 2 ^ 15 <= di_type di < 2 ^ 15;
  wf_major : - 2 ^ 15 <= di_major di < 2 ^ 15;
  wf_minor : - 2 ^ 15 <= di_minor di < 2 ^ 15;
  wf_nlink : - 2 ^ 15 <= di_nlink di < 2 ^ 15;
  wf_size : 0 <= di_size di < 2 ^ 32;
  wf_addrs : length (di_addrs di) = 13%nat /\ Forall (fun a => 0 <= a < 2 ^ 32) (di_addrs di)
}.

Section Dinode.
Context (d : list Z) (k : Z) (di : dinode).
Hypothesis Hd : length d = bsize.
Hypothesis Hk : 0 <= k < IPB.
Hypothesis Hlen : length (di_addrs di) = 13%nat.

Lemma dinode_fits : (dinode_off k + 64 <= 1024)%nat.
Proof using Hk. clear Hd Hlen. unfold dinode_off, sizeof_dinode. change IPB with 16 in Hk. lia. Qed.

Lemma length_put_dinode : length (put_dinode d k di) = length d.
Proof.
  pose proof dinode_fits. unfold put_dinode. rewrite Hd. change bsize with 1024%nat in *.
  rewrite length_put_addrs; rewrite ?Hlen, length_put32; repeat rewrite length_put16; lia.
Qed.

(** Peel off the stores that do not touch the field that is read. *)
Ltac lens := repeat first [rewrite length_put32 | rewrite length_put16]; lia.
Ltac peel :=
  pose proof dinode_fits; change bsize with 1024%nat in *;
  repeat first
    [ rewrite field_put_addrs_other by (rewrite ?Hlen; lens)
    | rewrite field_put32_other by lens
    | rewrite field_put16_other by lens ].

Lemma get_put_dinode : dinode_wf di -> get_dinode (put_dinode d k di) k = di.
Proof.
  intros [H1 H2 H3 H4 H5 [_ H6]].
  transitivity (mk_dinode (di_type di) (di_major di) (di_minor di) (di_nlink di) (di_size di) (di_addrs di)); [|by destruct di].
  unfold get_dinode. set (ty := di_type di) in *. set (mj := di_major di) in *. set (mn := di_minor di) in *.
  set (nl := di_nlink di) in *. set (sz := di_size di) in *. set (ad := di_addrs di) in *.
  pose proof dinode_fits as Hfit. change bsize with 1024%nat in Hd.
  assert (Hl5 : length (put32 (put16 (put16 (put16 (put16 d (dinode_off k) ty) (dinode_off k + 2) mj)
    (dinode_off k + 4) mn) (dinode_off k + 6) nl) (dinode_off k + 8) sz) = 1024%nat).
  { rewrite length_put32; repeat rewrite length_put16; lia. }
  unfold put_dinode. fold ty mj mn nl sz ad. f_equal.
  - unfold get16. peel. fold (get16 (put16 d (dinode_off k) ty) (dinode_off k)). rewrite get16_put16 by lia. by apply i16_mod.
  - unfold get16. peel. match goal with |- context [le_decode (field (put16 ?x ?o mj) _ _)] => fold (get16 (put16 x o mj) o) end.
    rewrite get16_put16 by (rewrite ?length_put16; lia). by apply i16_mod.
  - unfold get16. peel. match goal with |- context [le_decode (field (put16 ?x ?o mn) _ _)] => fold (get16 (put16 x o mn) o) end.
    rewrite get16_put16 by (repeat rewrite length_put16; lia). by apply i16_mod.
  - unfold get16. peel. match goal with |- context [le_decode (field (put16 ?x ?o nl) _ _)] => fold (get16 (put16 x o nl) o) end.
    rewrite get16_put16 by (repeat rewrite length_put16; lia). by apply i16_mod.
  - unfold get32 at 1. peel. match goal with |- context [le_decode (field (put32 ?x ?o sz) _ _)] => fold (get32 (put32 x o sz) o) end.
    rewrite get32_put32 by (repeat rewrite length_put16; lia). by apply Z.mod_small.
  - apply list_eq. intros j. rewrite list_lookup_fmap. destruct (ad !! j) as [a|] eqn:Hj.
    + pose proof (lookup_lt_Some _ _ _ Hj). rewrite lookup_seq_lt by lia. cbn [fmap option_fmap option_map]. rewrite Nat.add_0_l.
      rewrite (get32_put_addrs _ _ _ j a) by (done || lia). f_equal. apply Z.mod_small.
      by apply (proj1 (Forall_lookup _ _) H6 j a).
    + apply lookup_ge_None in Hj. by rewrite lookup_seq_ge by lia.
Qed.

(** The other inodes of the block are not affected. *)
Lemma get_put_dinode_other k' : 0 <= k' < IPB -> k' <> k -> get_dinode (put_dinode d k di) k' = get_dinode d k'.
Proof.
  intros Hk' Hne. pose proof dinode_fits. unfold get_dinode, put_dinode, get16, get32.
  assert (Hdis : (dinode_off k' + 64 <= dinode_off k \/ dinode_off k + 64 <= dinode_off k')%nat)
    by (unfold dinode_off, sizeof_dinode; change IPB with 16 in *; lia).
  f_equal; try (peel; done). apply list_fmap_ext. intros i j Hj. apply lookup_seq in Hj as [-> Hj]. peel. done.
Qed.
End Dinode.

(** ** The inode cache *)

(** The on-disk part of a cached inode. *)
Definition dinode_of (i : inode) : dinode :=
  mk_dinode (i_type i) (i_major i) (i_minor i) (i_nlink i) (i_size i) (i_addrs i).

(** A cached inode [j] with the fields of [di] loaded. *)
Definition loaded (di : dinode) (j : inode) : inode :=
  mk_inode (i_dev j) (i_inum j) (i_ref j) true (di_type di) (di_major di) (di_minor di)
    (di_nlink di) (di_size di) (di_addrs di).

Lemma cache_inode_lock ex s held ip lk :
  cache_ex ex s held -> cache_ex ex (set_slocks (<[SL_inode ip := lk]> (slocks s)) s) held.
Proof.
  intros [A1 [order [C1 C2 C3 C4 C5 C6]] A3 A4 A5].
  split; [by eapply calm_ext; [..|exact A1]|exists order; split; try done| | |done]; fields.
  - intros i b Hb. rewrite lookup_insert_ne by done. by eapply C4.
  - intros i x Hx. destruct (A3 i x Hx) as (e & He & Hk & Hv & nm & Hl). exists e.
    split; [done|]. split; [done|]. split; [done|]. exists nm. fields. by rewrite lookup_insert_ne.
  - intros i Hi Hn. rewrite lookup_insert_ne by done. by apply A4.
Qed.

Lemma cache_icache ex s held l : cache_ex ex s held -> cache_ex ex (set_icache l s) held.
Proof.
  intros [A1 [order [C1 C2 C3 C4 C5 C6]] A3 A4 A5].
  split; [by eapply calm_ext; [..|exact A1]|exists order; by split| |done|done].
  intros i x Hx. destruct (A3 i x Hx) as (e & He & Hk & Hv & nm & Hl). exists e.
  split; [done|]. split; [done|]. split; [done|]. by exists nm.
Qed.

Lemma in_op_icache s held B l : in_op s held B -> in_op (set_icache l s) held B.
Proof. intros [A1 A2 A3 A4 A5 A6]. split; [by apply cache_icache|done..]. Qed.

Lemma in_op_inode_lock s held B ip lk :
  in_op s held B -> in_op (set_slocks (<[SL_inode ip := lk]> (slocks s)) s) held B.
Proof. intros [A1 A2 A3 A4 A5 A6]. split; [by apply cache_inode_lock|done..]. Qed.

Lemma cache_mem ex s held m : cache_ex ex s held -> cache_ex ex (set_mem m s) held.
Proof.
  intros [A1 [order [C1 C2 C3 C4 C5 C6]] A3 A4 A5].
  split; [by eapply calm_ext; [..|exact A1]|exists order; by split| |done|done].
  intros i x Hx. destruct (A3 i x Hx) as (e & He & Hk & Hv & nm & Hl). exists e.
  split; [done|]. split; [done|]. split; [done|]. by exists nm.
Qed.

Lemma in_op_mem s held B m : in_op s held B -> in_op (set_mem m s) held B.
Proof. intros [A1 A2 A3 A4 A5 A6]. split; [by apply cache_mem|done..]. Qed.

Lemma op_step_mem m s s' : op_step s s' -> op_step (set_mem m s) (set_mem m s').
Proof. intros [E L]. split; [rewrite E at 1; by fields|done]. Qed.

Lemma op_step_icache l s s' : op_step s s' -> op_step (set_icache l s) (set_icache l s').
Proof. intros [E L]. split; [rewrite E at 1; by fields|done]. Qed.

(** ** The contents of a file *)

(** The disk block of block [bn] of the file, 0 if there is none. *)
Definition file_addr (V : Z -> list Z) (i : inode) (bn : Z) : Z :=
  if bn <? NDIRECT then default 0 (i_addrs i !! Z.to_nat bn)
  else get32 (V (default 0 (i_addrs i !! Z.to_nat NDIRECT))) (4 * Z.to_nat (bn - NDIRECT)).

Definition file_byte (V : Z -> list Z) (i : inode) (off : Z) : Z :=
  default 0 (V (file_addr V i (off / BSIZE)) !! Z.to_nat (off mod BSIZE)).

Definition file_bytes (V : Z -> list Z) (i : inode) (off n : Z) : list Z :=
  file_byte V i <$> seqZ off n.

(** Block [bn] of the file is allocated, and no buffer of it is held. *)
Record block_ok (V : Z -> list Z) (held : list (nat * Z)) (i : inode) (bn : Z) : Prop := {
  bo_range : 0 <= bn < MAXFILE;
  bo_addrs : length (i_addrs i) = 13%nat;
  bo_some : file_addr V i bn <> 0;
  bo_held : file_addr V i bn ∉ held.*2;
  bo_len : length (V (file_addr V i bn)) = bsize;
  bo_ind : NDIRECT <= bn -> exists ind, i_addrs i !! Z.to_nat NDIRECT = Some ind /\ ind <> 0 /\ ind ∉ held.*2
}.

Lemma file_bytes_app V i off a b : 0 <= a -> 0 <= b ->
  file_bytes V i off (a + b) = file_bytes V i off a ++ file_bytes V i (off + a) b.
Proof. intros. unfold file_bytes. by rewrite seqZ_app, fmap_app by lia. Qed.

(** The part of a block that lies in a file. *)
Lemma file_chunk V i off m : 0 <= off -> 0 <= m <= BSIZE - off mod BSIZE ->
  length (V (file_addr V i (off / BSIZE))) = bsize ->
  field (V (file_addr V i (off / BSIZE))) (Z.to_nat (off mod BSIZE)) (Z.to_nat m) = file_bytes V i off m.
Proof.
  intros Hoff Hm Hl. pose proof (Z.mod_pos_bound off BSIZE ltac:(done)) as Hmod.
  change bsize with (Z.to_nat BSIZE) in Hl. apply list_eq. intros k.
  unfold file_bytes. rewrite list_lookup_fmap. destruct (decide (Z.of_nat k < m)) as [Hk|Hk].
  - rewrite field_lookup by lia. rewrite (proj2 (lookup_seqZ off m k (off + Z.of_nat k))) by lia.
    cbn [fmap option_fmap option_map]. unfold file_byte.
    assert (E1 : (off + Z.of_nat k) / BSIZE = off / BSIZE) by (unfold BSIZE in *; zdm).
    assert (E2 : (off + Z.of_nat k) mod BSIZE = off mod BSIZE + Z.of_nat k) by (unfold BSIZE in *; zdm).
    rewrite E1, E2, Z2Nat.inj_add, Nat2Z.id by lia.
    destruct (lookup_lt_is_Some_2 (V (file_addr V i (off / BSIZE))) (Z.to_nat (off mod BSIZE) + k)) as [x Hx]; [lia|].
    by rewrite Hx.
  - rewrite lookup_ge_None_2 by (rewrite length_field by lia; lia).
    rewrite lookup_seqZ_ge by lia. done.
Qed.

(** The first [nb] blocks of a file are allocated, distinct, and outside of the log
    and of the file's indirect block. *)
Record file_ok (V : Z -> list Z) (L : log_t) (held : list (nat * Z)) (i : inode) (nb : Z) : Prop := {
  fo_block : forall bn, 0 <= bn < nb -> block_ok V held i bn;
  fo_inj : forall b c, 0 <= b < nb -> 0 <= c < nb -> file_addr V i b = file_addr V i c -> b = c;
  fo_ind : forall b, 0 <= b < nb -> file_addr V i b <> default 0 (i_addrs i !! Z.to_nat NDIRECT);
  fo_home : forall b, 0 <= b < nb -> home L (file_addr V i b)
}.

(** Storing [chunk] into the block at offset [o] changes these bytes of the file
    only. *)
Section Splice.
Context (V V' : Z -> list Z) (L : log_t) (held : list (nat * Z)) (i : inode) (nb o : Z) (chunk : list Z).
Hypothesis Hf : file_ok V L held i nb.
Hypothesis Ho : 0 <= o.
Hypothesis Hnb : o / BSIZE < nb.
Hypothesis Hc : o mod BSIZE + Z.of_nat (length chunk) <= BSIZE.
Hypothesis HV : forall x, V' x = if x =? file_addr V i (o / BSIZE)
  then splice (V (file_addr V i (o / BSIZE))) (Z.to_nat (o mod BSIZE)) chunk else V x.

Lemma splice_pos : 0 <= o / BSIZE < nb.
Proof. split; [apply Z.div_pos; [done|done]|done]. Qed.

Lemma splice_addr b : 0 <= b < nb -> file_addr V' i b = file_addr V i b.
Proof.
  intros Hb. unfold file_addr at 1 2. destruct (b <? NDIRECT); [done|]. f_equal. rewrite HV.
  rewrite (proj2 (Z.eqb_neq _ _)); [done|]. intros E. by apply (fo_ind _ _ _ _ _ Hf (o / BSIZE) splice_pos).
Qed.

Lemma splice_len : length (V (file_addr V i (o / BSIZE))) = Z.to_nat BSIZE.
Proof. apply (fo_block _ _ _ _ _ Hf _ splice_pos). Qed.

Lemma splice_block b : 0 <= b < nb -> length (V' (file_addr V' i b)) = length (V (file_addr V i b)).
Proof.
  intros Hb. rewrite splice_addr by done. rewrite HV. destruct (Z.eqb_spec (file_addr V i b) (file_addr V i (o / BSIZE))) as [E|]; [|done].
  rewrite E, length_splice; [done|]. rewrite splice_len. pose proof (Z.mod_pos_bound o BSIZE ltac:(done)). lia.
Qed.

Lemma splice_ok : file_ok V' L held i nb.
Proof.
  destruct Hf as [F1 F2 F3 F4]. split.
  - intros b Hb. destruct (F1 b Hb) as [C1 C2 C3 C4 C5 C6].
    split; [done|done|by rewrite splice_addr|by rewrite splice_addr|by rewrite splice_block|done].
  - intros b c Hb Hc'. rewrite !splice_addr by done. by apply F2.
  - intros b Hb. rewrite splice_addr by done. by apply F3.
  - intros b Hb. rewrite splice_addr by done. by apply F4.
Qed.

Lemma splice_byte q : 0 <= q -> q / BSIZE < nb ->
  file_byte V' i q = if decide (o <= q < o + Z.of_nat (length chunk)) then default 0 (chunk !! Z.to_nat (q - o))
                     else file_byte V i q.
Proof.
  intros Hq Hqn. assert (Hqb : 0 <= q / BSIZE < nb) by (split; [apply Z.div_pos; done|done]).
  pose proof (Z.mod_pos_bound o BSIZE ltac:(done)). pose proof (Z.mod_pos_bound q BSIZE ltac:(done)).
  unfold file_byte. rewrite splice_addr, HV by done.
  destruct (Z.eqb_spec (file_addr V i (q / BSIZE)) (file_addr V i (o / BSIZE))) as [E|E].
  - apply (fo_inj _ _ _ _ _ Hf) in E; [|done|exact splice_pos]. rewrite splice_lookup by (rewrite splice_len; lia).
    rewrite E. pose proof (Z.div_mod q BSIZE ltac:(done)). pose proof (Z.div_mod o BSIZE ltac:(done)).
    repeat case_decide; try lia; try done. do 2 f_equal. lia.
  - rewrite decide_False; [done|]. intros Hin. apply E. f_equal. unfold BSIZE in *. zdm.
Qed.
End Splice.

(** Blocks left to read or write at offset [off] of an access that ends at [e]. *)
Definition blocks_left (off e : Z) : nat :=
  if off <? e then Z.to_nat ((e - 1) / BSIZE - off / BSIZE + 1) else 0%nat.

Lemma blocks_left_fuel off n : 0 <= off -> 0 <= n -> (blocks_left off (off + n) < rw_fuel n)%nat.
Proof.
  intros. unfold blocks_left, rw_fuel. destruct (Z.ltb_spec off (off + n)); [|lia].
  unfold BSIZE. zdm.
Qed.

Lemma blocks_left_dec off m e : 0 <= off -> off < e -> m = Z.min (e - off) (BSIZE - off mod BSIZE) ->
  (blocks_left (off + m) e < blocks_left off e)%nat.
Proof.
  intros. unfold blocks_left. rewrite (proj2 (Z.ltb_lt off e)) by done.
  destruct (Z.ltb_spec (off + m) e); unfold BSIZE in *; zdm.
Qed.

Section Content.
Context `{World kstate} `{BlockDev}.

Lemma wp_get_inode {A} ip (f : inode -> A) i (Q : A -> kstate -> Prop) s :
  icache s !! ip = Some i -> Q (f i) s -> wp (get_inode ip f) Q s.
Proof. intros Hi HQ. unfold get_inode. by wsteps. Qed.

Lemma wp_modify_inode ip f i (Q : unit -> kstate -> Prop) s :
  icache s !! ip = Some i -> Q tt (set_icache (<[ip := f i]> (icache s)) s) -> wp (modify_inode ip f) Q s.
Proof. intros Hi HQ. unfold modify_inode. by wsteps. Qed.

Lemma wp_idup ip i (Q : nat -> kstate -> Prop) s :
  settled s -> lock_free L_icache s -> icache s !! ip = Some i -> 0 <= i_ref i < 2 ^ 31 - 1 ->
  Q ip (set_icache (<[ip := set_i_ref (i_ref i + 1) i]> (icache s)) s) -> wp (idup ip) Q s.
Proof.
  intros Hs Hl Hi Hr HQ. unfold idup. wstep. apply wp_acquire; [done..|]. wstep.
  eapply wp_modify_inode; [exact Hi|]. wstep. eapply (wp_release L_icache _ s); [done..|]. wsteps.
  rewrite i32_id by lia. critical. exact HQ.
Qed.

Lemma wp_iupdate s held B ip i (Q : unit -> kstate -> Prop) :
  let blk := IBLOCK (i_inum i) (sb s) in
  in_op s held B -> icache s !! ip = Some i -> i_dev i = ROOTDEV -> blk ∉ held.*2 ->
  home (klog s) blk -> room (klog s) B (1 + length held) ->
  (forall s', in_op s' held (add_tx B blk) -> op_step s s' ->
     (forall x, vw s' x = if x =? blk then put_dinode (vw s blk) (i_inum i mod IPB) (dinode_of i) else vw s x) ->
     Q tt s') ->
  wp (iupdate ip) Q s.
Proof.
  intros blk Ho Hi Hd Hn Hh Hr HQ. unfold iupdate. wstep. eapply wp_get_inode; [exact Hi|]. cbn [id].
  wstep. wstep. wstep. rewrite Hd. fold blk.
  apply (wp_op_bread s held B blk); [done|done|unfold room in Hr; lia|]. intros b s1 Ho1 Hb St1 V1. wstep.
  eapply wp_get_inode; [by rewrite (op_step_field icache _ _ ltac:(done) St1)|]. cbn [id]. wstep.
  eapply wp_modify_data; [exact Ho1|by apply held_ok_head|]. intros s2 Ho2 St2 V2.
  pose proof (op_step_trans _ _ _ St1 St2) as St12.
  eapply wp_op_log_release; [exact Ho2|done|by eapply home_step|eapply room_step, room_le; [exact St12| |exact Hr]; lia|].
  intros s3 Ho3 St3 V3. apply HQ; [done|by eapply op_step_trans|]. intros x. by rewrite V3, V2, !V1.
Qed.

Lemma sl_inode_ok s ip nm pd : calm s -> (ip < 50)%nat -> slocks s !! SL_inode ip = Some (mk_sleeplock 0 nm pd) ->
  forall (Q : unit -> kstate -> Prop),
  Q tt (set_slocks (<[SL_inode ip := mk_sleeplock 1 nm (cur_pid s)]> (slocks s)) s) -> wp (acquiresleep (SL_inode ip)) Q s.
Proof. intros Hs Hip Hl Q HQ. eapply wp_acquiresleep; [done|by apply slid_inode_in_locks|exact Hl|done]. Qed.

(** [ilock] of an entry that was not read from disk yet. *)
Lemma wp_ilock_load s held B ip j nm pd (Q : unit -> kstate -> Prop) :
  let blk := IBLOCK (i_inum j) (sb s) in
  let di := get_dinode (vw s blk) (i_inum j mod IPB) in
  in_op s held B -> (ip < 50)%nat -> icache s !! ip = Some j -> i_dev j = ROOTDEV -> i_valid j = false -> 1 <= i_ref j ->
  slocks s !! SL_inode ip = Some (mk_sleeplock 0 nm pd) -> blk ∉ held.*2 -> (length B + length held < HEAD)%nat ->
  di_type di <> 0 ->
  (forall s', in_op s' held B -> icache s' = <[ip := loaded di j]> (icache s) ->
     (forall x, vw s' x = vw s x) -> sb s' = sb s -> cur_pid s' = cur_pid s ->
     (forall k, slocks s' !! SL_inode k = if decide (k = ip) then Some (mk_sleeplock 1 nm (cur_pid s)) else slocks s !! SL_inode k) ->
     Q tt s') ->
  wp (ilock (Some ip)) Q s.
Proof.
  intros blk di Ho Hip Hj Hd Hv Hr Hl Hn Hlen Hty HQ. pose proof (cache_calm _ _ _ (op_cache _ _ _ Ho)) as Hs.
  pose proof (lookup_lt_Some _ _ _ Hj) as Hlt.
  unfold ilock. wstep. eapply wp_get_inode; [exact Hj|]. rewrite (proj2 (Z.ltb_ge _ 1)) by lia. wstep.
  eapply sl_inode_ok; [done|done|exact Hl|]. set (s1 := set_slocks _ s). wstep.
  eapply wp_get_inode; [exact Hj|]. rewrite Hv. cbn [negb when]. wstep. eapply wp_get_inode; [exact Hj|]. cbn [id].
  wstep. wstep. wstep. rewrite Hd. change (sb s1) with (sb s). fold blk.
  assert (Ho1 : in_op s1 held B) by (by apply in_op_inode_lock).
  apply (wp_op_bread s1 held B blk); [done..|]. intros b s2 Ho2 Hb St2 V2. wstep.
  eapply wp_op_data; [exact Ho2|left|]. rewrite V2. change (vw s1 blk) with (vw s blk). fold di.
  pose proof (op_step_field icache _ _ ltac:(done) St2) as Ei. change (icache s1) with (icache s) in Ei.
  wstep. eapply wp_modify_inode; [rewrite Ei; exact Hj|]. rewrite Ei.
  do 5 (wstep; eapply wp_modify_inode; [fields; by apply list_lookup_insert_eq; rewrite ?length_insert|]; fields; rewrite list_insert_insert_eq).
  wstep. set (s3 := set_icache _ _).
  eapply (wp_op_brelse s3 held B b blk); [by apply in_op_icache|done| |].
  { destruct (decide (blk ∈ B)) as [|HnB]; [by left|right]. change (vw s2 blk = disk_block (disk s2) blk).
    rewrite V2, (op_step_field disk _ _ ltac:(done) St2). by eapply op_clean. }
  intros s4 Ho4 St4 V4. pose proof (op_step_field icache _ _ ltac:(done) St4) as Ei4.
  assert (Hj4 : icache s4 !! ip = Some (set_i_valid false (loaded di j))).
  { rewrite Ei4. unfold s3. fields. rewrite list_lookup_insert_eq by done. f_equal. destruct j. simpl in Hv. by subst. }
  wstep. eapply wp_modify_inode; [exact Hj4|]. wstep.
  eapply wp_get_inode; [fields; apply list_lookup_insert_eq; by eapply lookup_lt_Some|].
  change (i_type (set_i_valid true (set_i_valid false (loaded di j)))) with (di_type di).
  rewrite (proj2 (Z.eqb_neq _ 0)) by done. wsteps. apply HQ.
  - by apply in_op_icache.
  - fields. rewrite Ei4. unfold s3. fields. by rewrite list_insert_insert_eq.
  - intros x. change (vw s4 x = vw s x). rewrite V4. change (vw s2 x = vw s x). apply V2.
  - fields. rewrite (op_step_sb _ _ St4). unfold s3. fields. by rewrite (op_step_sb _ _ St2).
  - transitivity (cur_pid s4); [done|]. etransitivity; [by apply (op_step_field cur_pid _ _ ltac:(done) St4)|].
    transitivity (cur_pid s2); [done|]. exact (op_step_field cur_pid _ _ ltac:(done) St2).
  - intros k. fields. rewrite (proj2 St4). unfold s3. fields. rewrite (proj2 St2). unfold s1. fields.
    case_decide; [subst; apply lookup_insert_eq|apply lookup_insert_ne; congruence].
Qed.

(** the inode cache is write-through.  After [iupdate] the in-memory copy of an
    inode may be discarded: whatever the cache entry holds then, as long as it is
    for the same inode and marked invalid, [ilock] loads exactly the type, device
    numbers, link count, size and addresses that were written. *)
Theorem iupdate_ilock (s : kstate) (B : list Z) (ip : nat) (i : inode) (nm : string) (pd : Z) :
  let blk := IBLOCK (i_inum i) (sb s) in
  in_op s [] B -> (ip < 50)%nat -> icache s !! ip = Some i -> i_dev i = ROOTDEV -> 0 <= i_inum i ->
  dinode_wf (dinode_of i) -> i_type i <> 0 -> length (vw s blk) = bsize ->
  home (klog s) blk -> room (klog s) B 1 -> slocks s !! SL_inode ip = Some (mk_sleeplock 0 nm pd) ->
  exists s', iupdate ip s = Ok tt s' /\
    forall j, i_dev j = ROOTDEV -> i_inum j = i_inum i -> i_valid j = false -> 1 <= i_ref j ->
      exists s'', ilock (Some ip) (set_icache (<[ip := j]> (icache s')) s') = Ok tt s'' /\
        icache s'' !! ip = Some (loaded (dinode_of i) j).
Proof.
  intros blk Ho Hip Hi Hd Hnum Hwf Hty Hlen Hh Hr Hl.
  destruct (wp_run_unit (iupdate ip) (fun s' => in_op s' [] (add_tx B blk) /\ op_step s s' /\
    forall x, vw s' x = if x =? blk then put_dinode (vw s blk) (i_inum i mod IPB) (dinode_of i) else vw s x) s)
    as (s' & Hrun & Ho' & St & V).
  { apply (wp_iupdate s [] B ip i); [done..|set_solver|done|done|auto]. }
  exists s'. split; [done|]. intros j Hjd Hjn Hjv Hjr. pose proof (op_step_field icache _ _ ltac:(done) St) as Ei.
  pose proof (lookup_lt_Some _ _ _ Hi) as Hlt. set (s1 := set_icache _ s').
  assert (Hdi : get_dinode (vw s1 (IBLOCK (i_inum j) (sb s1))) (i_inum j mod IPB) = dinode_of i).
  { change (vw s1) with (vw s'). change (sb s1) with (sb s'). rewrite (op_step_sb _ _ St), Hjn. fold blk. rewrite V, Z.eqb_refl.
    apply get_put_dinode; [done|apply Z.mod_pos_bound; done|apply Hwf|done]. }
  apply wp_run_unit. eapply (wp_ilock_load s1 [] (add_tx B blk) ip j nm pd).
  - by apply in_op_icache.
  - done.
  - unfold s1. fields. apply list_lookup_insert_eq. by rewrite Ei.
  - done.
  - done.
  - done.
  - change (slocks s1) with (slocks s'). by rewrite (proj2 St).
  - set_solver.
  - pose proof (length_add_tx B blk). destruct Hr. simpl. lia.
  - by rewrite Hdi.
  - intros s'' _ Ei'' _ _ _ _. rewrite Ei'', Hdi. apply list_lookup_insert_eq. unfold s1. fields. by rewrite length_insert, Ei.
Qed.

(** *** [bmap] of an allocated block *)

Lemma wp_get_addr ip k i a (Q : Z -> kstate -> Prop) s :
  icache s !! ip = Some i -> i_addrs i !! k = Some a -> Q a s -> wp (get_addr ip k) Q s.
Proof. intros Hi Ha HQ. unfold get_addr. wstep. eapply wp_get_inode; [exact Hi|]. by wsteps. Qed.

Lemma wp_bmap s held B ip i bn (Q : Z -> kstate -> Prop) :
  in_op s held B -> icache s !! ip = Some i -> i_dev i = ROOTDEV -> block_ok (vw s) held i bn ->
  (length B + length held < HEAD)%nat ->
  (forall s', in_op s' held B -> op_step s s' -> (forall x, vw s' x = vw s x) -> Q (file_addr (vw s) i bn) s') ->
  wp (bmap ip bn) Q s.
Proof.
  intros Ho Hi Hd [Hr Ha Hs Hh Hl Hind] Hlen HQ. unfold bmap. unfold file_addr in Hs, HQ.
  change NDIRECT with 12 in *. change NINDIRECT with 256. change MAXFILE with 268 in Hr.
  destruct (Z.ltb_spec bn 12) as [Hlt|Hge].
  - destruct (lookup_lt_is_Some_2 (i_addrs i) (Z.to_nat bn)) as [a Hx]; [lia|]. rewrite Hx in Hs, HQ. cbn [default id] in Hs, HQ.
    wstep. eapply wp_get_addr; [exact Hi|exact Hx|]. rewrite (proj2 (Z.eqb_neq a 0)) by done. wsteps.
    apply HQ; [done|apply op_step_refl|done].
  - destruct (Hind Hge) as (ind & Hx & Hnz & Hih). rewrite Hx in Hs, HQ. cbn [default id] in Hs, HQ.
    rewrite (proj2 (Z.ltb_lt (bn - 12) 256)) by lia. wstep. eapply wp_get_addr; [exact Hi|exact Hx|]. wstep.
    rewrite (proj2 (Z.eqb_neq ind 0)) by done. wsteps. eapply wp_get_inode; [exact Hi|]. rewrite Hd. wstep.
    apply (wp_op_bread s held B ind); [done..|]. intros b s1 Ho1 Hb St1 V1. wstep.
    eapply wp_op_data; [exact Ho1|left|]. rewrite V1. wstep. rewrite (proj2 (Z.eqb_neq _ 0)) by done. wsteps.
    eapply (wp_op_brelse_read s B held s1 held B b ind); [done..|apply V1|done|done|].
    intros s2 Ho2 St2 V2. wsteps. apply HQ; [done|by eapply op_step_trans|]. intros x. by rewrite V2.
Qed.

Lemma wp_myproc_calm s (Q : option nat -> kstate -> Prop) :
  calm s -> (forall p, Q (Some p) s) -> wp myproc Q s.
Proof.
  intros Hs HQ. destruct (cur_proc_inv s Hs) as (c & p & P & Hc & Hp & _).
  eapply wp_myproc; [apply Hs|exact Hc|]. rewrite Hp. apply HQ.
Qed.

(** *** [readi] *)

(** A destination: [dm bytes] is the memory after [bytes] were copied to it. *)
Definition takes (s : kstate) (dst : dest) (n : Z) (dm : list Z -> memory) : Prop :=
  dm [] = mem s /\
  forall s' got chunk (Q : Z -> kstate -> Prop), op_step (set_mem (dm got) s) s' -> calm s' ->
    Z.of_nat (length (got ++ chunk)) <= n -> Q 0 (set_mem (dm (got ++ chunk)) s') ->
    wp (copy_to dst (Z.of_nat (length got)) chunk (Z.of_nat (length chunk))) Q s'.

Lemma length_file_bytes V i off n : 0 <= n -> Z.of_nat (length (file_bytes V i off n)) = n.
Proof. intros. unfold file_bytes. rewrite length_fmap, length_seqZ. lia. Qed.

Lemma wp_readi_to s held B ip i dst dm off n (Q : Z * list Z -> kstate -> Prop) :
  let m := Z.min n (i_size i - off) in
  in_op s held B -> icache s !! ip = Some i -> i_dev i = ROOTDEV ->
  0 <= off <= i_size i -> 0 <= n -> off + n < 2 ^ 32 -> i_size i < 2 ^ 32 -> (length B + length held < HEAD)%nat ->
  (forall bn, 0 <= bn -> bn * BSIZE < i_size i -> block_ok (vw s) held i bn) -> takes s dst m dm ->
  (forall s', in_op s' held B -> op_step (set_mem (dm (file_bytes (vw s) i off m)) s) s' ->
     (forall x, vw s' x = vw s x) -> Q (m, file_bytes (vw s) i off m) s') ->
  wp (readi ip dst off n) Q s.
Proof.
  intros m Ho Hi Hd Hoff Hn Hon Hsz Hlen Hok [Hd0 Hdm] HQ. unfold readi. wstep. eapply wp_get_inode; [exact Hi|].
  rewrite u32_id, (proj2 (Z.ltb_ge (i_size i) off)), (proj2 (Z.ltb_ge (off + n) off)) by lia. cbn [orb].
  assert (Em : (if i_size i <? off + n then i_size i - off else n) = m)
    by (unfold m; destruct (Z.ltb_spec (i_size i) (off + n)); lia). rewrite Em.
  apply (wp_iter _ (fun '(tot, o, bytes) s' => in_op s' held B /\ op_step (set_mem (dm bytes) s) s' /\
      (forall x, vw s' x = vw s x) /\ 0 <= tot <= m /\ o = off + tot /\ bytes = file_bytes (vw s) i off tot)
    _ (fun '(_, o, _) _ => blocks_left o (off + m))).
  - split; [done|]. split; [rewrite Hd0; replace (set_mem (mem s) s) with s by (by destruct s); apply op_step_refl|].
    split; [done|]. split; [unfold m; lia|]. split; [lia|done].
  - apply blocks_left_fuel; unfold m; lia.
  - intros [[tot o] bytes] s' (Ho' & St & V & Ht & -> & ->). destruct (Z.ltb_spec tot m) as [Hlt|Hge].
    2: { wsteps. assert (tot = m) as -> by lia. by apply HQ. }
    pose proof (op_step_field icache _ _ ltac:(done) St) as Ei. fields_in Ei.
    assert (Hbn : block_ok (vw s) held i ((off + tot) / BSIZE)).
    { apply Hok; [apply Z.div_pos; [lia|done]|]. unfold m, BSIZE in *. zdm. }
    pose proof (Z.mod_pos_bound (off + tot) BSIZE ltac:(done)) as Hmod.
    wstep. eapply wp_get_inode; [rewrite Ei; exact Hi|]. wstep.
    assert (HV : file_addr (vw s') i ((off + tot) / BSIZE) = file_addr (vw s) i ((off + tot) / BSIZE))
      by (unfold file_addr; by rewrite V).
    apply (wp_bmap s' held B ip i); [done|by rewrite Ei|done| |done|].
    { destruct Hbn as [C1 C2 C3 C4 C5 C6]. split; rewrite ?HV, ?V; done. }
    intros s1 Ho1 St1 V1. rewrite HV, Hd. wstep.
    apply (wp_op_bread s1 held B); [done|apply Hbn|done|]. intros b s2 Ho2 Hb St2 V2. wstep.
    eapply wp_op_data; [exact Ho2|left|]. rewrite V2, V1, V. wstep. set (c := Z.min (m - tot) _).
    assert (Hc : 0 <= c <= BSIZE - (off + tot) mod BSIZE) by (unfold c; lia).
    rewrite file_chunk by (lia || done || apply Hbn).
    set (got := file_bytes (vw s) i off tot) in *. set (chunk := file_bytes (vw s) i (off + tot) c).
    assert (Hgot : Z.of_nat (length got) = tot) by (apply length_file_bytes; lia).
    assert (Hch : Z.of_nat (length chunk) = c) by (apply length_file_bytes; lia).
    assert (Hall : got ++ chunk = file_bytes (vw s) i off (tot + c)) by (by rewrite file_bytes_app by lia).
    rewrite <- Hgot at 1. rewrite <- Hch at 1.
    apply (Hdm s2 got chunk); [by eauto using op_step_trans|apply Ho2|rewrite length_app; unfold c in *; lia|].
    cbn [Z.eqb Pos.eqb]. wstep. set (m' := dm (got ++ chunk)).
    eapply (wp_op_brelse_read (set_mem m' s1) B held (set_mem m' s2) held B b);
      [by apply in_op_mem|apply Hbn|done|by apply op_step_mem|apply V2|by apply in_op_mem|done|].
    intros s3 Ho3 St3 V3. wsteps. rewrite u32_id by (unfold c, m in *; lia). split.
    + rewrite Hall in *. split; [done|]. split.
      * eapply op_step_trans; [|exact St3]. rewrite <- Hall. fold m'.
        assert (E : op_step (set_mem (dm got) s) s2) by (eauto using op_step_trans).
        apply (op_step_mem m') in E. by fields_in E.
      * split; [intros x; rewrite V3; change (vw s2 x = vw s x); by rewrite V2, V1|]. split; [unfold c; lia|]. split; [lia|done].
    + apply blocks_left_dec; [lia|lia|unfold c; f_equal; lia].
Qed.

(** A variable of the kernel: memory is left alone. *)
Lemma takes_local s n : takes s ToLocal n (fun _ => mem s).
Proof.
  split; [done|]. intros s' got chunk Q St Hs _ HQ. unfold copy_to. wstep. apply wp_myproc_calm; [done|]. intros p. wsteps.
  assert (Em : mem s' = mem s) by (by rewrite (op_step_field mem _ _ ltac:(done) St)).
  rewrite <- Em in HQ. by replace (set_mem (mem s') s') with s' in HQ by (by destruct s').
Qed.

Lemma wp_readi s held B ip i off n (Q : Z * list Z -> kstate -> Prop) :
  in_op s held B -> icache s !! ip = Some i -> i_dev i = ROOTDEV ->
  0 <= off <= i_size i -> 0 <= n -> off + n < 2 ^ 32 -> i_size i < 2 ^ 32 -> (length B + length held < HEAD)%nat ->
  (forall bn, 0 <= bn -> bn * BSIZE < i_size i -> block_ok (vw s) held i bn) ->
  let m := Z.min n (i_size i - off) in
  (forall s', in_op s' held B -> op_step s s' -> (forall x, vw s' x = vw s x) -> Q (m, file_bytes (vw s) i off m) s') ->
  wp (readi ip ToLocal off n) Q s.
Proof.
  intros Ho Hi Hd Hoff Hn Hon Hsz Hlen Hok m HQ.
  eapply (wp_readi_to s held B ip i); [done..|apply takes_local|]. intros s' Ho' St HV. apply HQ; [done| |done].
  by replace (set_mem (mem s) s) with s in St by (by destruct s).
Qed.

(** *** [writei] over allocated blocks *)

(** The contents after [bytes] were written at [off]: the bytes of the file, and
    the blocks of the disk that are none of its data blocks. *)
Record written (V : Z -> list Z) (i : inode) (nb off : Z) (bytes : list Z) (V' : Z -> list Z) : Prop := {
  wn_addr : forall b, 0 <= b < nb -> file_addr V' i b = file_addr V i b;
  wn_byte : forall q, 0 <= q -> q / BSIZE < nb ->
    file_byte V' i q = if decide (off <= q < off + Z.of_nat (length bytes))
                       then default 0 (bytes !! Z.to_nat (q - off)) else file_byte V i q;
  wn_other : forall x, (forall b, 0 <= b < nb -> x <> file_addr V i b) -> V' x = V x
}.

Lemma written_nil V i nb off V' : (forall x, V' x = V x) -> written V i nb off [] V'.
Proof.
  intros E. assert (Ea : forall b, file_addr V' i b = file_addr V i b) by (intros; unfold file_addr; by rewrite E).
  split; [done| |done]. intros q Hq Hqn. rewrite decide_False by (simpl; lia). unfold file_byte. by rewrite Ea, E.
Qed.

(** One more block. *)
Lemma written_step V i nb off bytes V1 L held o chunk V2 :
  written V i nb off bytes V1 -> file_ok V1 L held i nb -> 0 <= off -> o = off + Z.of_nat (length bytes) ->
  o / BSIZE < nb -> o mod BSIZE + Z.of_nat (length chunk) <= BSIZE ->
  (forall x, V2 x = if x =? file_addr V1 i (o / BSIZE)
     then splice (V1 (file_addr V1 i (o / BSIZE))) (Z.to_nat (o mod BSIZE)) chunk else V1 x) ->
  written V i nb off (bytes ++ chunk) V2 /\ file_ok V2 L held i nb.
Proof.
  intros [W1 W2 W3] Hf Hoff Eo Hob Hch HV. assert (Ho : 0 <= o) by lia.
  split; [|by eapply (splice_ok V1 V2 L held i nb o chunk)].
  split.
  - intros b Hb. rewrite (splice_addr V1 V2 L held i nb o chunk) by done. by apply W1.
  - intros q Hq Hqn. rewrite (splice_byte V1 V2 L held i nb o chunk) by done. rewrite length_app. case_decide.
    + rewrite decide_True by lia. rewrite lookup_app_r by lia. do 2 f_equal. lia.
    + rewrite W2 by done. case_decide.
      * rewrite decide_True by lia. rewrite lookup_app_l by lia. done.
      * rewrite decide_False by lia. done.
  - intros x Hx. rewrite HV, (proj2 (Z.eqb_neq _ _)); [by apply W3|].
    assert (Hb : 0 <= o / BSIZE < nb) by (split; [apply Z.div_pos; done|done]). rewrite W1 by done. by apply Hx.
Qed.

Definition write_inv (s : kstate) held i nb off bytes n '(tot, o) (s' : kstate) : Prop :=
  exists B', in_op s' held B' /\ op_step s s' /\ 0 <= tot <= n /\ o = off + tot /\
    room (klog s) B' (blocks_left o (off + n) + 1 + length held) /\ file_ok (vw s') (klog s) held i nb /\
    written (vw s) i nb off (take (Z.to_nat tot) bytes) (vw s').

(** A source from which [bytes] can be read. *)
Definition gives (s : kstate) (src : source) (bytes : list Z) : Prop :=
  forall s' tot m (Q : Z * list Z -> kstate -> Prop), op_step s s' -> calm s' ->
    0 <= tot -> 0 <= m -> tot + m <= Z.of_nat (length bytes) ->
    Q (0, field bytes (Z.to_nat tot) (Z.to_nat m)) s' -> wp (copy_from src tot m) Q s'.

Lemma gives_local s bytes : gives s (FromLocal bytes) bytes.
Proof. intros s' tot m Q _ Hs _ _ _ HQ. unfold copy_from. wstep. apply wp_myproc_calm; [done|]. intros p. by wsteps. Qed.

(** The loop of [writei]. *)
Lemma wp_writei_loop s held B ip i nb src off bytes n (Q : Z -> kstate -> Prop) :
  in_op s held B -> icache s !! ip = Some i -> i_dev i = ROOTDEV -> 0 <= off -> n = Z.of_nat (length bytes) ->
  off + n < 2 ^ 32 -> off + n <= nb * BSIZE -> room (klog s) B (rw_fuel n + 1 + length held) ->
  file_ok (vw s) (klog s) held i nb -> gives s src bytes ->
  (forall s' B', in_op s' held B' -> op_step s s' -> room (klog s) B' (1 + length held) ->
     file_ok (vw s') (klog s) held i nb -> written (vw s) i nb off bytes (vw s') -> Q (off + n) s') ->
  wp (iter (rw_fuel n) (fun '(tot, off) =>
    if tot <? n then
      let* dev := get_inode ip i_dev in
      let* a := bmap ip (off / BSIZE) in
      let* bp := bread dev a in
      let m := Z.min (n - tot) (BSIZE - off mod BSIZE) in
      let* r := copy_from src tot m in
      let '(r, bytes) := r in
      modify_data bp (fun d => splice d (Z.to_nat (off mod BSIZE)) bytes) ;;;
      if r =? -1 then
        brelse bp ;;;
        ret (inr off)
      else
        log_write bp ;;;
        brelse bp ;;;
        ret (inl (tot + m, u32 (off + m)))
    else ret (inr off)) (0, off)) Q s.
Proof.
  intros Ho Hi Hd Hoff En Hon Hnb Hr Hf Hsrc HQ.
  pose proof (blocks_left_fuel off n Hoff ltac:(lia)) as Hfuel.
  apply (wp_iter _ (write_inv s held i nb off bytes n) _ (fun '(_, o) _ => blocks_left o (off + n))).
  - exists B. split; [done|]. split; [apply op_step_refl|]. split; [lia|]. split; [lia|].
    split; [eapply room_le; [|exact Hr]; lia|]. split; [done|]. by apply written_nil.
  - done.
  - intros [tot o] s' (B' & Ho' & St & Ht & -> & Hr' & Hf' & Hw). destruct (Z.ltb_spec tot n) as [Hlt|Hge].
    2: { wsteps. assert (tot = n) as -> by lia. rewrite take_ge in Hw by lia.
         apply (HQ s' B'); [done|done|eapply room_le; [|exact Hr']; lia|done|done]. }
    pose proof (op_step_field icache _ _ ltac:(done) St) as Ei.
    assert (Hbn : 0 <= (off + tot) / BSIZE < nb) by (unfold BSIZE in *; zdm).
    pose proof (fo_block _ _ _ _ _ Hf' _ Hbn) as Hbo. pose proof (Z.mod_pos_bound (off + tot) BSIZE ltac:(done)) as Hmod.
    assert (Hbl : (1 <= blocks_left (off + tot) (off + n))%nat).
    { unfold blocks_left. rewrite (proj2 (Z.ltb_lt _ _)) by lia. unfold BSIZE in *. zdm. }
    wstep. eapply wp_get_inode; [rewrite Ei; exact Hi|]. wstep.
    apply (wp_bmap s' held B' ip i); [done|by rewrite Ei|done|done|unfold room in Hr'; lia|].
    intros s1 Ho1 St1 V1. rewrite Hd. wstep. set (a := file_addr (vw s') i ((off + tot) / BSIZE)) in *.
    apply (wp_op_bread s1 held B' a); [done|apply Hbo|unfold room in Hr'; lia|]. intros b s2 Ho2 Hb St2 V2. cbv zeta. wstep.
    set (m := Z.min (n - tot) (BSIZE - (off + tot) mod BSIZE)).
    apply Hsrc; [by eauto using op_step_trans|apply Ho2|lia|unfold m; lia|unfold m; lia|]. wsteps. set (chunk := field bytes (Z.to_nat tot) (Z.to_nat m)).
    assert (Hcl : Z.of_nat (length chunk) = m) by (unfold chunk; rewrite length_field; unfold m; lia).
    eapply wp_modify_data; [exact Ho2|by apply held_ok_head|]. intros s3 Ho3 St3 V3. cbn [Z.eqb Pos.eqb].
    assert (St' : op_step s s3) by (eauto using op_step_trans).
    eapply wp_op_log_release_then; [exact Ho3|done|eapply home_step; [exact St'|by apply Hf']|eapply room_step; [exact St'|eapply room_le; [|exact Hr']; lia]|].
    intros s4 Ho4 St4 V4. wsteps. rewrite u32_id by (unfold m; lia).
    pose proof (blocks_left_dec (off + tot) m (off + n) ltac:(lia) ltac:(lia) ltac:(unfold m; f_equal; lia)) as Hdec.
    split; [|exact Hdec].
    destruct (written_step (vw s) i nb off (take (Z.to_nat tot) bytes) (vw s') (klog s) held (off + tot) chunk (vw s4)) as [Hw4 Hf4];
      [done|done|done|rewrite length_take; lia|apply Hbn|unfold m in Hcl; lia| |].
    { intros x. rewrite V4, V3, !V2, !V1. done. }
    exists (add_tx B' a). split; [done|]. split; [by eapply op_step_trans|]. split; [unfold m; lia|]. split; [lia|].
    split; [|split; [done|]].
    + apply room_add. eapply room_le; [|exact Hr']. lia.
    + rewrite Z2Nat.inj_add, <- (take_drop (Z.to_nat tot) bytes) at 1 by (unfold m; lia).
      replace (take (Z.to_nat tot + Z.to_nat m) _) with (take (Z.to_nat tot) bytes ++ chunk); [done|].
      rewrite take_drop. unfold chunk, field. by rewrite take_take_drop.
Qed.

(** The inode after a write that ends at [e]. *)
Definition grown (i : inode) (e : Z) : inode := set_i_size (Z.max (i_size i) e) i.

Lemma file_addr_grown V i e b : file_addr V (grown i e) b = file_addr V i b.
Proof. done. Qed.

(** Updating the block of the inode does not touch the file. *)
Lemma file_ok_inode V V' L held i nb blk d : file_ok V L held i nb ->
  (forall b, 0 <= b < nb -> file_addr V i b <> blk) -> blk <> default 0 (i_addrs i !! Z.to_nat NDIRECT) ->
  (forall x, V' x = if x =? blk then d else V x) ->
  (forall b, file_addr V' i b = file_addr V i b) /\ file_ok V' L held i nb /\
  forall q, 0 <= q -> q / BSIZE < nb -> file_byte V' i q = file_byte V i q.
Proof.
  intros [F1 F2 F3 F4] Hne Hind HV.
  assert (Ea : forall b, file_addr V' i b = file_addr V i b).
  { intros b. unfold file_addr. destruct (b <? NDIRECT); [done|]. by rewrite HV, (proj2 (Z.eqb_neq _ blk)). }
  assert (Eb : forall b, 0 <= b < nb -> V' (file_addr V i b) = V (file_addr V i b)).
  { intros b Hb. rewrite HV, (proj2 (Z.eqb_neq _ _)); [done|]. by apply Hne. }
  split; [done|]. split.
  - split.
    + intros b Hb. destruct (F1 b Hb) as [C1 C2 C3 C4 C5 C6]. split; rewrite ?Ea, ?Eb by done; done.
    + intros b c Hb Hc. rewrite !Ea. by apply F2.
    + intros b Hb. rewrite Ea. by apply F3.
    + intros b Hb. rewrite Ea. by apply F4.
  - intros q Hq Hqn. unfold file_byte. rewrite Ea, Eb; [done|]. split; [by apply Z.div_pos|done].
Qed.

Lemma wp_writei_from s held B ip i nb src off bytes (Q : Z -> kstate -> Prop) :
  let n := Z.of_nat (length bytes) in
  let blk := IBLOCK (i_inum i) (sb s) in
  in_op s held B -> icache s !! ip = Some i -> i_dev i = ROOTDEV -> 0 <= off <= i_size i -> 0 < n < 2 ^ 31 ->
  off + n <= nb * BSIZE -> nb <= MAXFILE -> room (klog s) B (rw_fuel n + 1 + length held) ->
  file_ok (vw s) (klog s) held i nb -> home (klog s) blk -> blk ∉ held.*2 ->
  (forall b, 0 <= b < nb -> file_addr (vw s) i b <> blk) -> blk <> default 0 (i_addrs i !! Z.to_nat NDIRECT) ->
  gives s src bytes ->
  (forall s' B', in_op s' held B' -> op_step (set_icache (icache s') s) s' -> icache s' = <[ip := grown i (off + n)]> (icache s) -> sb s' = sb s ->
     file_ok (vw s') (klog s) held i nb ->
     (forall q, 0 <= q -> q / BSIZE < nb -> file_byte (vw s') i q =
        if decide (off <= q < off + n) then default 0 (bytes !! Z.to_nat (q - off)) else file_byte (vw s) i q) ->
     Q n s') ->
  wp (writei ip src off n) Q s.
Proof.
  intros n blk Ho Hi Hd Hoff Hn Hnb Hmax Hr Hf Hh Hbh Hnd Hni Hsrc HQ. pose proof (lookup_lt_Some _ _ _ Hi) as Hlt.
  assert (Hon : off + n <= MAXFILE * BSIZE) by (unfold BSIZE in *; lia). change (MAXFILE * BSIZE) with 274432 in Hon.
  unfold writei. wstep. eapply wp_get_inode; [exact Hi|].
  rewrite u32_id, (proj2 (Z.ltb_ge (i_size i) off)), (proj2 (Z.ltb_ge (off + n) off)) by lia. cbn [orb].
  rewrite (proj2 (Z.ltb_ge (MAXFILE * BSIZE) _)) by (change (MAXFILE * BSIZE) with 274432; lia). wstep.
  apply (wp_writei_loop s held B ip i nb src off bytes n); [done|done|done|lia|done|lia|done|done|done|done|].
  intros s1 B1 Ho1 St1 Hr1 Hf1 [W1 W2 W3]. pose proof (op_step_field icache _ _ ltac:(done) St1) as Ei. wstep.
  rewrite (proj2 (Z.ltb_lt 0 n)) by lia. cbn [when]. wstep. eapply wp_get_inode; [rewrite Ei; exact Hi|]. wstep.
  set (s2 := set_icache (<[ip := grown i (off + n)]> (icache s)) s1).
  apply (wp_mono _ (fun _ t => t = s2)).
  { apply wp_when; intros Hc; [apply Z.ltb_lt in Hc|apply Z.ltb_ge in Hc].
    - eapply wp_modify_inode; [rewrite Ei; exact Hi|]. unfold s2, grown. by rewrite Ei, Z.max_r by lia.
    - unfold s2, grown. rewrite Z.max_l, <- Ei by lia. replace (set_i_size (i_size i) i) with i by (by destruct i).
      rewrite list_insert_id by (rewrite Ei; exact Hi). by destruct s1. }
  intros [] t ->. assert (Ho2 : in_op s2 held B1) by (by apply in_op_icache).
  eapply (wp_iupdate s2 held B1 ip (grown i (off + n))); change (sb s2) with (sb s1); change (klog s2) with (klog s1); rewrite ?(op_step_sb _ _ St1);
    change (i_inum (grown i (off + n))) with (i_inum i); fold blk; [done| |done|done|by eapply home_step|by eapply (room_step s)|].
  { unfold s2. fields. by apply list_lookup_insert_eq. }
  intros s3 Ho3 St3 V3. wsteps. rewrite i32_id by lia.
  destruct (file_ok_inode (vw s1) (vw s3) (klog s) held i nb blk (put_dinode (vw s1 blk) (i_inum i mod IPB) (dinode_of (grown i (off + n)))))
    as (Ea & Hf3 & Eb); [done|intros b Hb; rewrite W1 by done; by apply Hnd|done|done|].
  apply (HQ s3 (add_tx B1 blk)); [done| | | |done|].
  - rewrite (op_step_field icache _ _ ltac:(done) St3). eapply op_step_trans; [|exact St3]. unfold s2. fields. by apply op_step_icache.
  - by rewrite (op_step_field icache _ _ ltac:(done) St3).
  - by rewrite (op_step_sb _ _ St3), <- (op_step_sb _ _ St1).
  - intros q Hq Hqn. rewrite Eb by done. by apply W2.
Qed.

Lemma wp_writei s held B ip i nb off bytes (Q : Z -> kstate -> Prop) :
  let n := Z.of_nat (length bytes) in
  let blk := IBLOCK (i_inum i) (sb s) in
  in_op s held B -> icache s !! ip = Some i -> i_dev i = ROOTDEV -> 0 <= off <= i_size i -> 0 < n < 2 ^ 31 ->
  off + n <= nb * BSIZE -> nb <= MAXFILE -> room (klog s) B (rw_fuel n + 1 + length held) ->
  file_ok (vw s) (klog s) held i nb -> home (klog s) blk -> blk ∉ held.*2 ->
  (forall b, 0 <= b < nb -> file_addr (vw s) i b <> blk) -> blk <> default 0 (i_addrs i !! Z.to_nat NDIRECT) ->
  (forall s' B', in_op s' held B' -> icache s' = <[ip := grown i (off + n)]> (icache s) -> sb s' = sb s ->
     file_ok (vw s') (klog s) held i nb ->
     (forall q, 0 <= q -> q / BSIZE < nb -> file_byte (vw s') i q =
        if decide (off <= q < off + n) then default 0 (bytes !! Z.to_nat (q - off)) else file_byte (vw s) i q) ->
     Q n s') ->
  wp (writei ip (FromLocal bytes) off n) Q s.
Proof.
  intros n blk Ho Hi Hd Hoff Hn Hnb Hmax Hr Hf Hh Hbh Hnd Hni HQ.
  eapply (wp_writei_from s held B ip i nb); [done..|apply gives_local|]. intros s' B' H1 _ H2 H3 H4 H5. by eapply HQ.
Qed.

End Content.

(** ** Sources and destinations *)

(** The page table of the running process. *)
Definition cur_root (s : kstate) : Z := default 0 (pagetable <$> cur_proc s).

Section Transfer.
Context `{HW : World kstate} `{HK : KernelImage} `{HD : BlockDev}.

(** What a source holds: a variable of the kernel, kernel memory, or user memory of
    the running process that is mapped. *)
Definition source_holds (s : kstate) (src : source) (bytes : list Z) : Prop :=
  match src with
  | FromLocal b => b = bytes
  | FromKernel pa => 0 <= pa /\ pa + Z.of_nat (length bytes) <= 2 ^ 64 /\ ldbytes (mem s) pa (length bytes) = bytes
  | FromUser va => 0 <= va < 2 ^ 64 /\ (exists l, pt_inv (mem s) (cur_root s) l) /\
      user_bytes (mem s) (cur_root s) va (length bytes) = Some <$> bytes
  end.

(** [n] bytes fit a destination: user memory has to be mapped. *)
Definition dest_ok (s : kstate) (dst : dest) (n : Z) : Prop :=
  match dst with
  | ToLocal => True
  | ToKernel pa => 0 <= pa /\ pa + n <= 2 ^ 64
  | ToUser va => 0 <= va < 2 ^ 64 /\ (exists l, as_inv (mem s) (cur_root s) l) /\
      forall k, 0 <= k < n -> is_Some (translate (mem s) (cur_root s) (va + k))
  end.

(** Memory after [bytes] were copied to a destination. *)
Definition dest_mem (s : kstate) (dst : dest) (bytes : list Z) : memory :=
  match dst with
  | ToLocal => mem s
  | ToKernel pa => stbytes (mem s) pa bytes
  | ToUser va => user_store (translate (mem s) (cur_root s)) (mem s) va bytes
  end.

Lemma cur_root_step s s' : op_step s s' -> cur_root s' = cur_root s.
Proof. apply (op_step_field cur_root). done. Qed.

Lemma wp_cur_root {A} (f : Z -> K A) s (Q : A -> kstate -> Prop) : calm s -> wp (f (cur_root s)) Q s ->
  wp (let* p := myproc in let* p := deref p in let* pt := get_proc p pagetable in f pt) Q s.
Proof.
  intros Hs HQ. destruct (cur_proc_inv s Hs) as (c & p & P & Hc & Hp & HP & _).
  assert (E : cur_root s = pagetable P) by (unfold cur_root, cur_proc; rewrite Hc; cbn; rewrite Hp; cbn; by rewrite HP).
  wstep. eapply wp_myproc; [apply Hs|exact Hc|]. rewrite Hp. wsteps. eapply wp_get_proc; [exact HP|]. by rewrite <- E.
Qed.

Lemma translate_lt m root va a : translate m root va = Some a -> va < MAXVA.
Proof.
  intros Ht. apply (user_page_max m root). intros E. unfold translate in Ht. by rewrite E in Ht.
Qed.

Lemma ldbytes_field m a l k n : ldbytes m a (length l) = l -> (k + n <= length l)%nat ->
  ldbytes m (a + Z.of_nat k) n = field l k n.
Proof.
  intros E Hk. unfold field. rewrite <- E. replace (length l) with (k + (n + (length l - k - n)))%nat at 1 by lia.
  rewrite ldbytes_app, drop_app_length' by (by rewrite length_ldbytes).
  rewrite ldbytes_app, take_app_length' by (by rewrite length_ldbytes). done.
Qed.

Lemma user_bytes_field m root va l k n : user_bytes m root va (length l) = Some <$> l -> (k + n <= length l)%nat ->
  user_bytes m root (va + Z.of_nat k) n = Some <$> field l k n.
Proof.
  intros E Hk. unfold field. rewrite fmap_take, fmap_drop, <- E.
  replace (length l) with (k + (n + (length l - k - n)))%nat by lia.
  assert (Hlen : forall j x, length (user_bytes m root x j) = j) by (intros; unfold user_bytes; by rewrite length_fmap, length_seq).
  rewrite user_bytes_app, drop_app_length' by (by rewrite Hlen). rewrite user_bytes_app, take_app_length' by (by rewrite Hlen). done.
Qed.

Lemma source_gives s src bytes : image_ok -> source_holds s src bytes -> gives s src bytes.
Proof.
  intros Himg Hsrc. destruct src as [va|pa|b]; [| |destruct Hsrc; apply gives_local];
    intros s' tot m Q St Hs Ht Hm Hle HQ; pose proof (op_step_field mem _ _ ltac:(done) St) as Em; unfold copy_from, either_copyin.
  - destruct Hsrc as (Hva & [l Hpt] & Hub). apply wp_cur_root; [done|]. rewrite (cur_root_step _ _ St).
    set (root := cur_root s) in *. eapply wp_mono;
      [apply (wp_copyin root l (u64 (va + tot)) m s' Himg); [by rewrite Em|unfold u64; apply Z.mod_pos_bound; lia|done]|].
    intros [r bs] t [-> [Hbs Hr]]. rewrite Em in Hbs, Hr.
    pose proof (user_bytes_field (mem s) root va bytes (Z.to_nat tot) (Z.to_nat m) Hub ltac:(lia)) as Hf. rewrite Z2Nat.id in Hf by lia.
    assert (Hmap : forall k, (k < Z.to_nat m)%nat -> exists a x, translate (mem s) root (va + tot + Z.of_nat k) = Some a /\
      field bytes (Z.to_nat tot) (Z.to_nat m) !! k = Some x /\ ld8 (mem s) a = x).
    { intros k Hk. apply (f_equal (fun l => l !! k)) in Hf. rewrite user_bytes_lookup, list_lookup_fmap in Hf by done.
      destruct (field bytes (Z.to_nat tot) (Z.to_nat m) !! k) as [x|]; [|done]. cbn in Hf. injection Hf as Hf.
      destruct (translate (mem s) root (va + tot + Z.of_nat k)) as [a|]; [|done]. cbn in Hf. injection Hf as Hf. eauto. }
    assert (Hlen : length (field bytes (Z.to_nat tot) (Z.to_nat m)) = Z.to_nat m) by (apply length_field; lia).
    destruct (decide (m = 0)) as [->|Hm0].
    { destruct Hr as [[-> Hl]|(_ & Hl & _)]; [|lia]. destruct bs; [|simpl in Hl; lia].
      by replace (field bytes (Z.to_nat tot) (Z.to_nat 0)) with (@nil Z) in HQ by (symmetry; by apply nil_length_inv). }
    destruct (Hmap 0%nat ltac:(lia)) as (a0 & _ & Ha0 & _). apply translate_lt in Ha0.
    rewrite u64_id in Hbs, Hr by (change MAXVA with (2 ^ 38) in Ha0; lia).
    destruct Hr as [[-> Hl]|(_ & Hl & Hn)].
    + assert (bs = field bytes (Z.to_nat tot) (Z.to_nat m)) as ->; [|done].
      replace (length bs) with (Z.to_nat m) in Hbs by lia. rewrite Hf in Hbs. by apply (inj (fmap Some)) in Hbs.
    + destruct (Hmap (length bs) ltac:(lia)) as (a & _ & Ha & _). congruence.
  - destruct Hsrc as (Hpa & Hpe & Hb). wstep. apply wp_myproc_calm; [done|]. intros p. wsteps.
    rewrite Em. destruct (decide (m = 0)) as [->|Hm0]; [done|]. rewrite u64_id by lia.
    replace (pa + tot) with (pa + Z.of_nat (Z.to_nat tot)) by lia. by rewrite (ldbytes_field _ _ bytes) by (done || lia).
Qed.

Lemma user_store_ext tr tr' m va l : (forall k, 0 <= k < Z.of_nat (length l) -> tr (va + k) = tr' (va + k)) ->
  user_store tr m va l = user_store tr' m va l.
Proof.
  revert m va; induction l as [|x l IH]; intros m va Ht; [done|]. cbn [user_store length] in *.
  pose proof (Ht 0 ltac:(lia)) as H0'. rewrite Z.add_0_r in H0'. rewrite H0'. apply IH. intros k Hk.
  rewrite <- Z.add_assoc. apply Ht. lia.
Qed.

(** What was stored through the translation, the user sees. *)
Lemma user_bytes_store m root l va bs : as_inv m root l -> 0 <= va ->
  (forall i j x, 0 <= i < Z.of_nat (length bs) -> 0 <= j < Z.of_nat (length bs) ->
     translate m root (va + i) = Some x -> translate m root (va + j) = Some x -> i = j) ->
  (forall k, 0 <= k < Z.of_nat (length bs) -> is_Some (translate m root (va + k))) ->
  user_bytes (user_store (translate m root) m va bs) root va (length bs) = Some <$> bs.
Proof.
  intros Has Hva Hinj Hmap. destruct (user_store_as m root l va bs Has Hva) as [_ Hup].
  apply list_eq. intros k. rewrite list_lookup_fmap. destruct (decide (k < length bs)%nat) as [Hk|Hk].
  - destruct (lookup_lt_is_Some_2 bs k Hk) as [x Hx], (Hmap (Z.of_nat k) ltac:(lia)) as [a Ha].
    rewrite user_bytes_lookup, Hx by done.
    replace (translate (user_store (translate m root) m va bs) root (va + Z.of_nat k)) with (Some a)
      by (rewrite <- Ha; unfold translate at 1 2; by rewrite Hup).
    cbn. do 2 f_equal. by eapply user_store_read.
  - rewrite !lookup_ge_None_2; [done|lia|]. unfold user_bytes. rewrite length_fmap, length_seq. lia.
Qed.

Lemma stbytes_app m a l1 l2 : stbytes m a (l1 ++ l2) = stbytes (stbytes m a l1) (a + Z.of_nat (length l1)) l2.
Proof.
  revert m a; induction l1 as [|x l1 IH]; intros m a; cbn [stbytes app length]; [f_equal; lia|].
  rewrite IH. f_equal. lia.
Qed.

Lemma dest_takes s dst n : image_ok -> dest_ok s dst n -> takes s dst n (dest_mem s dst).
Proof.
  intros Himg Hd. destruct dst as [va|pa|]; [| |apply takes_local]; (split; [done|]);
    intros s' got chunk Q St Hs Hle HQ; pose proof (op_step_field mem _ _ ltac:(done) St) as Em; fields_in Em;
    rewrite length_app in Hle; unfold copy_to, either_copyout; cbn [dest_mem] in *.
  - destruct Hd as (Hva & [l Has] & Hmap). apply wp_cur_root; [done|].
    assert (Er : cur_root s' = cur_root s) by (by rewrite (cur_root_step _ _ St)). rewrite Er. set (root := cur_root s) in *.
    destruct (user_store_as (mem s) root l va got Has ltac:(lia)) as [Has' Hup]. rewrite <- Em in Has', Hup.
    assert (Htr : forall x, translate (mem s') root x = translate (mem s) root x) by (intros; unfold translate; by rewrite Hup).
    assert (Hgo : chunk <> [] -> u64 (va + Z.of_nat (length got)) = va + Z.of_nat (length got)).
    { intros Hne. destruct (Hmap (Z.of_nat (length got))) as [a Ha]; [destruct chunk; [done|simpl in Hle; lia]|].
      apply translate_lt in Ha. change MAXVA with (2 ^ 38) in Ha. apply u64_id. lia. }
    eapply wp_mono; [apply (wp_copyout root l _ chunk s' Himg Has'); unfold u64; apply Z.mod_pos_bound; lia|].
    intros r t (k & -> & _ & Hr). destruct (decide (chunk = [])) as [->|Hne].
    { destruct Hr as [[-> ->]|(_ & Hk & _)]; [|simpl in Hk; lia]. rewrite app_nil_r in HQ. cbn [user_store take length].
      by rewrite Em. }
    rewrite Hgo in Hr |- * by done. destruct Hr as [[-> ->]|(_ & Hk & Hn)].
    + rewrite firstn_all, Em, (user_store_ext _ (translate (mem s) root)) by (intros; by rewrite <- Em).
      rewrite <- user_store_app. exact HQ.
    + rewrite Htr in Hn. destruct (Hmap (Z.of_nat (length got) + Z.of_nat k)) as [a Ha]; [lia|].
      rewrite Z.add_assoc in Ha. congruence.
  - destruct Hd as [Hpa Hpe]. wstep. apply wp_myproc_calm; [done|]. intros p. unfold modify_mem. wsteps.
    rewrite Nat2Z.id, firstn_all, Em. destruct (decide (chunk = [])) as [->|Hne]; [by rewrite app_nil_r in HQ|].
    rewrite u64_id by (destruct chunk; [done|simpl in Hle; lia]). rewrite <- stbytes_app. exact HQ.
Qed.

(** The bytes of a file after [bytes] were written at [off], in and outside of the range. *)
Lemma bytes_written V V' i nb off bytes :
  let n := Z.of_nat (length bytes) in
  0 <= off -> off + n <= nb * BSIZE ->
  (forall q, 0 <= q -> q / BSIZE < nb -> file_byte V' i q =
     if decide (off <= q < off + n) then default 0 (bytes !! Z.to_nat (q - off)) else file_byte V i q) ->
  file_bytes V' i off n = bytes.
Proof.
  intros n Hoff Hnb Hby. apply list_eq. intros k. unfold file_bytes. rewrite list_lookup_fmap.
  destruct (decide (k < length bytes)%nat) as [Hk|Hk].
  - rewrite (proj2 (lookup_seqZ off n k (off + Z.of_nat k))) by lia. cbn [fmap option_fmap option_map].
    rewrite Hby, decide_True by (unfold BSIZE in *; zdm || lia). rewrite Z.add_simpl_l, Nat2Z.id.
    by destruct (lookup_lt_is_Some_2 bytes k Hk) as [x ->].
  - rewrite lookup_seqZ_ge by lia. symmetry. by apply lookup_ge_None_2; lia.
Qed.

Lemma bytes_kept V V' i nb off n (f : Z -> Z) o m :
  (forall q, 0 <= q -> q / BSIZE < nb -> file_byte V' i q = if decide (off <= q < off + n) then f q else file_byte V i q) ->
  0 <= o -> o + m <= nb * BSIZE -> o + m <= off \/ off + n <= o -> file_bytes V' i o m = file_bytes V i o m.
Proof.
  intros Hby Ho Hm Hd. apply list_fmap_ext. intros k q Hq. apply lookup_seqZ in Hq as [-> Hq].
  rewrite Hby, decide_False by (unfold BSIZE in *; zdm || lia). done.
Qed.

(** C2: what is written is read back, and nothing else changes.  [writei] is called
    inside of a transaction that has room for the blocks it touches, on a range that
    starts in the file or at its end and lies in allocated blocks (data blocks outside
    of the log, distinct from each other and from the inode's block), with a source all
    bytes of which can be read: a variable of the kernel, kernel memory, or mapped user
    memory of the running process.  It writes all bytes, changes no memory, and sets the
    size to the end of the write if the file was shorter.  A [readi] of the same range
    then delivers exactly the bytes written, and a [readi] of a range of the old file
    that does not meet it the bytes of before, to any destination: to a variable of the
    kernel, to kernel memory, or through the page table to mapped user memory. *)
Theorem writei_readi (s : kstate) (B : list Z) (ip : nat) (i : inode) (nb off : Z) (src : source) (bytes : list Z) :
  let n := Z.of_nat (length bytes) in
  let blk := IBLOCK (i_inum i) (sb s) in
  image_ok -> in_op s [] B -> icache s !! ip = Some i -> i_dev i = ROOTDEV -> 0 <= off <= i_size i -> 0 < n < 2 ^ 31 ->
  off + n <= nb * BSIZE -> i_size i <= nb * BSIZE -> nb <= MAXFILE -> room (klog s) B (rw_fuel n + 1) ->
  file_ok (vw s) (klog s) [] i nb -> home (klog s) blk ->
  (forall b, 0 <= b < nb -> file_addr (vw s) i b <> blk) -> blk <> default 0 (i_addrs i !! Z.to_nat NDIRECT) ->
  source_holds s src bytes ->
  exists s', writei ip src off n s = Ok n s' /\ mem s' = mem s /\
    icache s' !! ip = Some (grown i (off + n)) /\
    (forall dst, dest_ok s dst n ->
       exists r, readi ip dst off n s' = Ok (n, bytes) r /\ mem r = dest_mem s dst bytes) /\
    forall dst o m, dest_ok s dst m -> 0 <= o -> 0 <= m -> o + m <= i_size i -> o + m <= off \/ off + n <= o ->
      exists r, readi ip dst o m s' = Ok (m, file_bytes (vw s) i o m) r /\ mem r = dest_mem s dst (file_bytes (vw s) i o m).
Proof.
  intros n blk Himg Ho Hi Hd Hoff Hn Hnb Hsz Hmax Hr Hf Hh Hnd Hni Hsrc. pose proof (lookup_lt_Some _ _ _ Hi) as Hlt.
  assert (Hbig : nb * BSIZE <= 274432) by (change MAXFILE with 268 in Hmax; unfold BSIZE; lia).
  destruct (wp_run (writei ip src off n) (fun r s' => r = n /\ exists B', in_op s' [] B' /\
     op_step (set_icache (icache s') s) s' /\
     icache s' = <[ip := grown i (off + n)]> (icache s) /\ file_ok (vw s') (klog s) [] i nb /\
     forall q, 0 <= q -> q / BSIZE < nb -> file_byte (vw s') i q =
        if decide (off <= q < off + n) then default 0 (bytes !! Z.to_nat (q - off)) else file_byte (vw s) i q) s)
    as (r & s' & Hrun & -> & B' & Ho' & St & Ei & Hf' & Hby).
  { eapply (wp_writei_from s [] B ip i nb src off bytes); eauto; [by rewrite Nat.add_0_r|set_solver|by apply source_gives|].
    intros s' B' ? ? ? _ ? ?. eauto 10. }
  assert (Hi' : icache s' !! ip = Some (grown i (off + n))) by (by rewrite Ei, list_lookup_insert_eq).
  assert (Em : mem s' = mem s) by (by rewrite (op_step_field mem _ _ ltac:(done) St)).
  assert (Er : cur_root s' = cur_root s) by (by rewrite (cur_root_step _ _ St)).
  assert (Edm : forall dst l, dest_mem s' dst l = dest_mem s dst l) by (intros [] l; cbn [dest_mem]; by rewrite ?Em, ?Er).
  assert (Hread : forall dst o m, dest_ok s dst m -> 0 <= o -> 0 <= m -> o + m <= Z.max (i_size i) (off + n) ->
    exists r, readi ip dst o m s' = Ok (m, file_bytes (vw s') i o m) r /\ mem r = dest_mem s dst (file_bytes (vw s') i o m)).
  { intros dst o m Hdst H1 H2 H3.
    assert (Em' : Z.min m (Z.max (i_size i) (off + n) - o) = m) by lia.
    destruct (wp_run (readi ip dst o m) (fun r t => r = (m, file_bytes (vw s') i o m) /\
      mem t = dest_mem s dst (file_bytes (vw s') i o m)) s') as (r & s2 & Hr2 & -> & Hm2); [|by eauto].
    apply (wp_readi_to s' [] B' ip (grown i (off + n)) dst (dest_mem s' dst) o m); cbn [grown set_i_size i_size];
      [done|done|done|lia|lia|lia|lia| | | |].
    - pose proof (tx_fit _ _ (op_tx _ _ _ Ho')). simpl. lia.
    - intros bn Hbn Hbs. destruct (fo_block _ _ _ _ _ Hf' bn) as [C1 C2 C3 C4 C5 C6]; [unfold BSIZE in *; lia|by split].
    - rewrite Em'. apply dest_takes; [done|]. destruct dst; cbn [dest_ok] in *; by rewrite ?Em, ?Er.
    - intros s2 _ St2 _. rewrite Em' in *. split; [done|]. rewrite (op_step_field mem _ _ ltac:(done) St2). fields. apply Edm. }
  exists s'. split; [done|]. split; [done|]. split; [done|]. split.
  - intros dst Hdst. destruct (Hread dst off n Hdst ltac:(lia) ltac:(lia) ltac:(lia)) as (r & Hr2 & Hm2).
    assert (E : file_bytes (vw s') i off n = bytes) by (apply (bytes_written (vw s) (vw s') i nb off bytes); [lia|done|done]). rewrite E in *. by eauto.
  - intros dst o m Hdst H1 H2 H3 H4. destruct (Hread dst o m Hdst ltac:(lia) ltac:(lia) ltac:(lia)) as (r & Hr2 & Hm2).
    assert (E : file_bytes (vw s') i o m = file_bytes (vw s) i o m) by (apply (bytes_kept (vw s) (vw s') i nb off n _ o m Hby); lia). rewrite E in *. by eauto.
Qed.

(** A copy from user memory whose first byte is not mapped copies nothing. *)
Lemma wp_copy_unmapped s l va m (Q : Z * list Z -> kstate -> Prop) :
  image_ok -> calm s -> 0 <= va < 2 ^ 64 -> pt_inv (mem s) (cur_root s) l ->
  translate (mem s) (cur_root s) va = None -> 0 < m -> Q (-1, []) s -> wp (copy_from (FromUser va) 0 m) Q s.
Proof.
  intros Himg Hs Hva Hpt Hnone Hm HQ. unfold copy_from, either_copyin. apply wp_cur_root; [done|].
  rewrite Z.add_0_r, u64_id by done. eapply wp_mono; [apply (wp_copyin (cur_root s) l va m s Himg); [done|done|lia]|].
  intros [r bs] t [-> [Hbs Hcase]].
  assert (bs = []) as ->.
  { destruct bs as [|x bs]; [done|]. apply (f_equal (fun l => l !! 0%nat)) in Hbs.
    rewrite user_bytes_lookup in Hbs by (simpl; lia). rewrite Z.add_0_r, Hnone in Hbs. done. }
  by destruct Hcase as [[_ Hl]|[-> _]]; [simpl in Hl; lia|].
Qed.

End Transfer.

(** ** A concrete file

    Inode 1, a file of 100 bytes in block 20. *)
Definition ex_inode : inode := mk_inode ROOTDEV 1 1 true T_FILE 0 0 1 100 (20 :: replicate 12 0).
Definition ex_file : kstate := set_icache (<[0%nat := ex_inode]> (icache ex_op)) ex_op.

Lemma ex_file_op : in_op ex_file [] [].
Proof. apply in_op_icache, ex_op_in. Qed.

Lemma ex_file_view x : vw ex_file x = disk_block ex_disk x.
Proof. exact (ex_op_view x). Qed.

Lemma ex_file_entry : icache ex_file !! 0%nat = Some ex_inode.
Proof. reflexivity. Qed.

Lemma ex_file_iblock : IBLOCK (i_inum ex_inode) (sb ex_file) = 12.
Proof. reflexivity. Qed.

Lemma ex_home b : 12 <= b < 40 -> home (klog ex_file) b.
Proof. intros Hb. split; [lia|]. unfold in_log. change (~ 2 <= b < 12). lia. Qed.

Lemma ex_zero_block_len x : x <> 14 -> length (vw ex_file x) = bsize.
Proof.
  intros Hx. rewrite ex_file_view. unfold disk_block, ex_disk. rewrite lookup_singleton_ne by done. reflexivity.
Qed.

Lemma ex_file_ok : file_ok (vw ex_file) (klog ex_file) [] ex_inode 1.
Proof.
  assert (E : forall b, 0 <= b < 1 -> file_addr (vw ex_file) ex_inode b = 20)
    by (intros b Hb; replace b with 0 by lia; reflexivity).
  split.
  - intros b Hb. split; rewrite ?E by done.
    + change MAXFILE with 268. lia.
    + reflexivity.
    + done.
    + apply not_elem_of_nil.
    + by apply ex_zero_block_len.
    + change NDIRECT with 12. lia.
  - intros b c Hb Hc _. lia.
  - intros b Hb. by rewrite E.
  - intros b Hb. rewrite E by done. apply ex_home. lia.
Qed.

Lemma ex_dinode_wf : dinode_wf (dinode_of ex_inode).
Proof.
  split; cbn; unfold T_FILE; try lia. split; [reflexivity|]. repeat constructor; lia.
Qed.

Lemma iupdate_ilock_witness :
  exists s', iupdate (H := idle_world) (H0 := sync_dev) 0 ex_file = Ok tt s' /\
    exists s'', ilock (H := idle_world) (H0 := sync_dev) (Some 0%nat)
        (set_icache (<[0%nat := set_i_valid false (set_i_size 7 ex_inode)]> (icache s')) s') = Ok tt s'' /\
      icache s'' !! 0%nat = Some ex_inode.
Proof.
  destruct (iupdate_ilock (H := idle_world) (H0 := sync_dev) ex_file [] 0 ex_inode "" 0) as (s' & Hr & Hl).
  - exact ex_file_op.
  - lia.
  - exact ex_file_entry.
  - reflexivity.
  - cbn. lia.
  - exact ex_dinode_wf.
  - done.
  - rewrite ex_file_iblock. by apply ex_zero_block_len.
  - rewrite ex_file_iblock. apply ex_home. lia.
  - apply ex_op_room. lia.
  - reflexivity.
  - exists s'. split; [exact Hr|].
    destruct (Hl (set_i_valid false (set_i_size 7 ex_inode))) as (s'' & Hr' & Hi'); [reflexivity..|cbn; lia|].
    exists s''. split; [exact Hr'|exact Hi'].
Defined.

(** *** User memory to copy from and to

    The running process has the page table of [ex_mapped], with the two bytes "hi" at
    the user address 4100; nothing is mapped at 0. *)
Definition ex_user_mem : memory :=
  user_store (translate (mem ex_mapped) ex_root) (mem ex_mapped) 4100 [104; 105].
Definition ex_user_file : kstate :=
  set_mem ex_user_mem (set_procs (<[0%nat := set_pagetable ex_root zero_proc]> (procs ex_file)) ex_file).

Lemma cache_pagetable s p P root : cache s [] -> procs s !! p = Some P ->
  cache (set_procs (<[p := set_pagetable root P]> (procs s)) s) [].
Proof.
  intros [[Hs Hl Hn Hc Hw] [order [C1 C2 C3 C4 C5 C6]] _ A4 _] HP.
  split; [|exists order; by split|intros i x Hx; by apply not_elem_of_nil in Hx|done|intros i x b Hx; by apply not_elem_of_nil in Hx].
  split; [done|done|fields; by rewrite length_insert| |].
  - destruct Hc as [P' HP']. unfold cur_proc in *. fields. change (this_cpu _) with (this_cpu s).
    destruct (cpus s !! this_cpu s) as [c|]; [|done]. cbn in *. destruct (c_proc c) as [q|]; [|done]. cbn in *.
    rewrite list_lookup_insert by (by eapply lookup_lt_Some). case_decide; eauto.
  - fields. apply Forall_insert; [done|]. eapply Forall_lookup_1 in Hw; [|exact HP]. exact Hw.
Qed.

Lemma ex_user_op : in_op ex_user_file [] [].
Proof.
  apply in_op_mem. destruct ex_file_op as [A1 A2 A3 A4 A5 A6].
  split; [apply (cache_pagetable ex_file 0 zero_proc); [done|reflexivity]|done..].
Qed.

Lemma ex_user_root : cur_root ex_user_file = ex_root.
Proof. reflexivity. Qed.

Lemma ex_user_as : as_inv (H0 := ex_image) ex_user_mem ex_root [] /\
  forall va, translate ex_user_mem ex_root va = translate (mem ex_mapped) ex_root va.
Proof.
  destruct (user_store_as (H0 := ex_image) (mem ex_mapped) ex_root [] 4100 [104; 105] ex_as ltac:(lia)) as [Has Hup].
  split; [exact Has|]. intros va. unfold translate. by rewrite Hup.
Qed.

Lemma ex_user_data : user_bytes ex_user_mem ex_root 4100 2 = Some <$> [104; 105].
Proof.
  apply (user_bytes_store (HK := ex_image) (mem ex_mapped) ex_root [] 4100 [104; 105]); [exact ex_as|lia|..].
  - intros i j x Hi Hj. simpl in Hi, Hj. rewrite !ex_translate by lia. intros Ex Ey. congruence || (injection Ex; injection Ey; lia).
  - intros k Hk. simpl in Hk. rewrite ex_translate by lia. eauto.
Qed.

(** The two bytes are written to the file from user memory and read back to it. *)
Lemma writei_readi_witness :
  exists s', writei (H := idle_world) (H0 := sync_dev) 0 (FromUser 4100) 100 2 ex_user_file = Ok 2 s' /\
    exists r, readi (H := idle_world) (H0 := sync_dev) 0 (ToUser 4100) 100 2 s' = Ok (2, [104; 105]) r.
Proof.
  destruct (writei_readi (HW := idle_world) (HK := ex_image) (HD := sync_dev) ex_user_file [] 0 ex_inode 1 100 (FromUser 4100) [104; 105])
    as (s' & Hr & _ & _ & Hrd & _).
  - exact ex_image_ok.
  - exact ex_user_op.
  - reflexivity.
  - reflexivity.
  - cbn. lia.
  - cbn. lia.
  - unfold BSIZE. cbn. lia.
  - unfold BSIZE. cbn. lia.
  - change MAXFILE with 268. lia.
  - apply ex_op_room. vm_compute. lia.
  - exact ex_file_ok.
  - change (home (klog ex_file) 12). apply ex_home. lia.
  - intros b Hb. replace b with 0 by lia. done.
  - done.
  - split; [lia|]. split; [exists []; apply ex_user_as|]. exact ex_user_data.
  - exists s'. split; [exact Hr|]. destruct (Hrd (ToUser 4100)) as (r & Hr' & _).
    + split; [lia|]. split; [exists []; apply ex_user_as|]. intros k Hk. change (length [104; 105]) with 2%nat in Hk.
      rewrite ex_user_root. change (mem ex_user_file) with ex_user_mem. destruct ex_user_as as [_ Ht]. rewrite Ht, ex_translate by lia. eauto.
    + exists r. exact Hr'.
Defined.

