(* ===== verification/Pipe.v ===== *)
(** * kernel/pipe.c: reading, writing and closing pipes

    A pipe lives in a page from [kalloc] and is named by the address of the page.
    The theorems refine the ring buffer and its two 32-bit counters to a queue of
    bytes: a read takes from the front, a write appends at the back, also when the
    counters wrap.  [pipealloc] is in File.v, beside the file table it fills. *)

From stdpp Require Import gmap strings list fin_maps.
From Stdlib Require Import ZArith Lia.
From S2P Require Import Prelude Machine Str State Riscv Spinlock Kalloc Vm Copy Sched.
From S2P Require Import Sleeplock.
Open Scope Z_scope.

#[local] Opaque memset st64 ld64.

(* @kernel/pipe.c PIPESIZE *)
Definition PIPESIZE : Z := 512.

Section Pipe.
Context `{World kstate} `{KernelImage}.

Definition get_pipe {A} (pi : Z) (f : pipe -> A) : K A :=
  let* p := gets (fun s => pipes s !! pi) in
  let* p := deref p in
  ret (f p).
Definition modify_pipe (pi : Z) (f : pipe -> pipe) : K unit :=
  let* p := gets (fun s => pipes s !! pi) in
  let* p := deref p in
  modify (fun s => set_pipes (<[pi := f p]> (pipes s)) s).

(** [pr->field] for the result of [myproc]. *)
Definition get_pr {A} (pr : option nat) (f : proc -> A) : K A :=
  let* p := deref pr in
  get_proc p f.

(* @kernel/pipe.c pipeclose *)
Definition pipeclose (pi : Z) (writable : bool) : K unit :=
  acquire (L_pipe pi) ;;;
  (if writable then
     modify_pipe pi (set_writeopen false) ;;;
     wakeup (Ch_pipe_nread pi)
   else
     modify_pipe pi (set_readopen false) ;;;
     wakeup (Ch_pipe_nwrite pi)) ;;;
  let* ro := get_pipe pi readopen in
  let* wo := get_pipe pi writeopen in
  if negb ro && negb wo then
    release (L_pipe pi) ;;;
    modify (fun s => set_pipes (delete pi (pipes s)) s) ;;;
    kfree pi
  else
    release (L_pipe pi).

(** The loop at [pipewrite-full]: true when the writer gives up. *)
(* @kernel/pipe.c pipewrite *)
Definition pipewrite_full (pi : Z) (pr : option nat) : K bool :=
  iter (S world_fuel) (fun _ : unit =>
    let* nw := get_pipe pi nwrite in
    let* nr := get_pipe pi nread in
    if nw =? u32 (nr + PIPESIZE) then
      let* ro := get_pipe pi readopen in
      let* kl := (if negb ro then ret true else get_pr pr killed) in
      if kl : bool then
        release (L_pipe pi) ;;;
        ret (inr true)
      else
        wakeup (Ch_pipe_nread pi) ;;;
        sleep (Ch_pipe_nwrite pi) (L_pipe pi) ;;;
        ret (inl tt)
    else ret (inr false)) tt.

(** The [for] loop: [None] when the writer gave up, otherwise the final [i]. *)
(* @kernel/pipe.c pipewrite *)
Definition pipewrite_loop (pi : Z) (pr : option nat) (addr n : Z) : K (option Z) :=
  iter (S (Z.to_nat n)) (fun i =>
    if i <? n then
      let* gave_up := pipewrite_full pi pr in
      if gave_up : bool then ret (inr None)
      else
      let* pt := get_pr pr pagetable in
      let* (r, ch) := copyin pt (u64 (addr + i)) 1 in
      if r =? -1 then ret (inr (Some i))
      else
      let* nw := get_pipe pi nwrite in
      modify_pipe pi (fun p =>
        set_p_data (<[Z.to_nat (nw mod PIPESIZE) := default 0 (head ch)]> (p_data p))
          (set_nwrite (u32 (nw + 1)) p)) ;;;
      ret (inl (i + 1))
    else ret (inr (Some i))) 0.

(* @kernel/pipe.c pipewrite *)
Definition pipewrite (pi addr n : Z) : K Z :=
  let* pr := myproc in
  acquire (L_pipe pi) ;;;
  let* r := pipewrite_loop pi pr addr n in
  match r with
  | None => ret (-1)
  | Some i =>
    wakeup (Ch_pipe_nread pi) ;;;
    release (L_pipe pi) ;;;
    ret i
  end.

(** The loop at [pipe-empty]: true when the reader was killed. *)
(* @kernel/pipe.c piperead *)
Definition piperead_empty (pi : Z) (pr : option nat) : K bool :=
  iter (S world_fuel) (fun _ : unit =>
    let* nr := get_pipe pi nread in
    let* nw := get_pipe pi nwrite in
    let* wo := get_pipe pi writeopen in
    if (nr =? nw) && wo then
      let* kl := get_pr pr killed in
      if kl : bool then
        release (L_pipe pi) ;;;
        ret (inr true)
      else
        sleep (Ch_pipe_nread pi) (L_pipe pi) ;;;
        ret (inl tt)
    else ret (inr false)) tt.

(* @kernel/pipe.c piperead *)
Definition piperead_loop (pi : Z) (pr : option nat) (addr n : Z) : K Z :=
  iter (S (Z.to_nat n)) (fun i =>
    if i <? n then
      let* nr := get_pipe pi nread in
      let* nw := get_pipe pi nwrite in
      if nr =? nw then ret (inr i)
      else
      let* data := get_pipe pi p_data in
      let* ch := deref (data !! Z.to_nat (nr mod PIPESIZE)) in
      modify_pipe pi (set_nread (u32 (nr + 1))) ;;;
      let* pt := get_pr pr pagetable in
      let* r := copyout pt (u64 (addr + i)) [ch] 1 in
      if r =? -1 then ret (inr i)
      else ret (inl (i + 1))
    else ret (inr i)) 0.

(* @kernel/pipe.c piperead *)
Definition piperead (pi addr n : Z) : K Z :=
  let* pr := myproc in
  acquire (L_pipe pi) ;;;
  let* gave_up := piperead_empty pi pr in
  if gave_up : bool then ret (-1)
  else
  let* i := piperead_loop pi pr addr n in
  wakeup (Ch_pipe_nwrite pi) ;;;
  release (L_pipe pi) ;;;
  ret i.

(** ** The queue of a pipe *)

(** The number of bytes in the pipe; the counters are [uint]s and may have wrapped. *)
Definition count (p : pipe) : Z := u32 (nwrite p - nread p).

Definition queue (p : pipe) : list Z := ring (p_data p) PIPESIZE (nread p) (count p).

Record pipe_ok (p : pipe) : Prop := {
  ok_data : length (p_data p) = Z.to_nat PIPESIZE;
  ok_nread : 0 <= nread p < 2 ^ 32;
  ok_nwrite : 0 <= nwrite p < 2 ^ 32;
  ok_count : count p <= PIPESIZE
}.

Lemma length_queue p : length (queue p) = Z.to_nat (count p).
Proof. apply length_ring. Qed.

Lemma count_nonneg p : 0 <= count p.
Proof. unfold count. pose proof (u32_range (nwrite p - nread p)). lia. Qed.

Lemma Z_length_queue p : Z.of_nat (length (queue p)) = count p.
Proof. rewrite length_queue. pose proof (count_nonneg p). lia. Qed.

(** The two tests of the code: the pipe is empty, the pipe is full. *)
Lemma pipe_empty p : pipe_ok p -> (nread p =? nwrite p) = (count p =? 0).
Proof. intros [_ Hr Hw _]. unfold count, u32. bool_cases; try done; zdm. Qed.

Lemma pipe_full p : pipe_ok p -> (nwrite p =? u32 (nread p + PIPESIZE)) = (count p =? PIPESIZE).
Proof. intros [_ Hr Hw _]. revert Hr Hw. unfold count, u32, PIPESIZE. intros. bool_cases; try done; zdm. Qed.

Definition pop (p : pipe) : pipe := set_nread (u32 (nread p + 1)) p.
Definition push (p : pipe) (ch : Z) : pipe :=
  set_p_data (<[Z.to_nat (nwrite p mod PIPESIZE) := ch]> (p_data p)) (set_nwrite (u32 (nwrite p + 1)) p).

Lemma pop_queue p : pipe_ok p -> 0 < count p ->
  pipe_ok (pop p) /\ exists ch, p_data p !! Z.to_nat (nread p mod PIPESIZE) = Some ch /\ queue p = ch :: queue (pop p).
Proof.
  intros [Hd Hr Hw Hc] Hpos.
  assert (Ec : count (pop p) = count p - 1).
  { revert Hpos. unfold count, pop, u32. fields. intros. zdm. }
  split; [split; [done|apply u32_range|done|lia]|].
  destruct (lookup_lt_is_Some_2 (p_data p) (Z.to_nat (nread p mod PIPESIZE))) as [ch Hch].
  { rewrite Hd. revert Hr. unfold PIPESIZE. intros. zdm. }
  exists ch. split; [done|]. unfold queue. rewrite ring_cons, Ec by lia. f_equal.
  - by apply list_lookup_total_correct.
  - unfold pop. fields. symmetry. apply ring_u32; [done|]. by exists (2 ^ 23).
Qed.

Lemma push_queue p ch : pipe_ok p -> count p < PIPESIZE ->
  pipe_ok (push p ch) /\ queue (push p ch) = queue p ++ [ch].
Proof.
  intros [Hd Hr Hw Hc] Hroom. pose proof (count_nonneg p) as Hc0.
  assert (Ec : count (push p ch) = count p + 1).
  { revert Hroom Hc0. unfold count, push, u32, PIPESIZE. fields. intros. zdm. }
  split.
  { split; [unfold push; fields; by rewrite length_insert|done|apply u32_range|lia]. }
  unfold queue. rewrite Ec, ring_snoc by lia. unfold push. fields. f_equal.
  - apply ring_insert; [done| |unfold PIPESIZE; zdm].
    intros k Hk. revert Hk Hroom. unfold count, u32, PIPESIZE. intros. zdm.
  - replace ((nread p + count p) mod PIPESIZE) with (nwrite p mod PIPESIZE)
      by (unfold count, u32, PIPESIZE; zdm).
    f_equal. apply list_lookup_total_insert_eq. rewrite Hd. unfold PIPESIZE. zdm.
Qed.

(** ** What the running process sees *)

(** The process that runs is [p], its page table and the pipe are in order, and
    nobody holds the locks the operations take. *)
Record pipe_ready (s : kstate) (pi : Z) (P : pipe) (p : proc) (fl : list Z) : Prop := {
  pr_settled : settled s;
  pr_lock : lock_free (L_pipe pi) s;
  pr_procs : procs_free s;
  pr_cur : cur_proc s = Some p;
  pr_space : as_inv (mem s) (pagetable p) fl;
  pr_pipe : pipes s !! pi = Some P;
  pr_ok : pipe_ok P
}.

Lemma wp_get_pipe {A} pi (f : pipe -> A) P (Q : A -> kstate -> Prop) s :
  pipes s !! pi = Some P -> Q (f P) s -> wp (get_pipe pi f) Q s.
Proof. intros. unfold get_pipe. wsteps. done. Qed.

Lemma wp_modify_pipe pi f P (Q : unit -> kstate -> Prop) s :
  pipes s !! pi = Some P -> Q tt (set_pipes (<[pi := f P]> (pipes s)) s) -> wp (modify_pipe pi f) Q s.
Proof. intros. unfold modify_pipe. wsteps. done. Qed.

Lemma cur_proc_me s p : cur_proc s = Some p ->
  exists c me, cpus s !! this_cpu s = Some c /\ c_proc c = Some me /\ procs s !! me = Some p.
Proof.
  unfold cur_proc. destruct (cpus s !! this_cpu s) as [c|] eqn:Hc; [|done]. simpl.
  destruct (c_proc c) as [me|] eqn:Hme; [|done]. simpl. eauto.
Qed.

Lemma wp_get_pr {A} me p (f : proc -> A) (Q : A -> kstate -> Prop) s :
  procs s !! me = Some p -> Q (f p) s -> wp (get_pr (Some me) f) Q s.
Proof. intros. unfold get_pr. wstep. wstep. by eapply wp_get_proc. Qed.

Lemma translate_max m root va a : translate m root va = Some a -> va < MAXVA.
Proof.
  unfold translate. destruct (Z.eqb_spec (user_page m root va) 0); [done|]. intros _. by eapply user_page_max.
Qed.

(** After the bytes before it were translated, the next address has not wrapped. *)
Lemma next_addr m root addr i : 0 <= addr < 2 ^ 64 ->
  (forall j : nat, (j < i)%nat -> is_Some (translate m root (addr + Z.of_nat j))) ->
  0 <= addr + Z.of_nat i < 2 ^ 64.
Proof.
  intros Ha Hj. destruct i as [|i]; [lia|]. destruct (Hj i) as [x Hx]; [lia|].
  apply translate_max in Hx. revert Hx. consts. lia.
Qed.

Lemma user_page_translate m m' root : (forall va, user_page m' root va = user_page m root va) ->
  forall va, translate m' root va = translate m root va.
Proof. intros E va. unfold translate. by rewrite E. Qed.

(** [copyout] of one byte. *)
Lemma wp_copyout1 root fl va ch s (Q : Z -> kstate -> Prop) :
  image_ok -> as_inv (mem s) root fl -> 0 <= va < 2 ^ 64 ->
  match translate (mem s) root va with
  | Some a => Q 0 (set_mem (st8 (mem s) a ch) s)
  | None => Q (-1) s
  end -> wp (copyout root va [ch] 1) Q s.
Proof.
  intros Himg Has Hva HQ. eapply wp_mono; [exact (wp_copyout root fl va [ch] s Himg Has Hva)|].
  intros r s' (k & -> & Hs & [[-> ->]|(-> & Hk & Hn)]).
  - destruct (Hs 0%nat) as [a Ha]; [simpl; lia|]. rewrite Z.add_0_r in Ha. rewrite Ha in HQ.
    cbn [length firstn user_store]. by rewrite Ha.
  - assert (k = 0%nat) as -> by (simpl in Hk; lia). rewrite Z.add_0_r in Hn. rewrite Hn in HQ.
    cbn [firstn user_store]. by destruct s.
Qed.

(** [copyin] of one byte. *)
Lemma wp_copyin1 root fl va s (Q : Z * list Z -> kstate -> Prop) :
  image_ok -> pt_inv (mem s) root fl -> 0 <= va < 2 ^ 64 ->
  match translate (mem s) root va with
  | Some a => Q (0, [ld8 (mem s) a]) s
  | None => Q (-1, []) s
  end -> wp (copyin root va 1) Q s.
Proof.
  intros Himg Hpt Hva HQ. eapply wp_mono; [exact (wp_copyin root fl va 1 s Himg Hpt Hva ltac:(lia))|].
  intros [r bytes] s' [-> [Hb [[-> Hl]|(-> & Hl & Hn)]]].
  - destruct bytes as [|b [|]]; [done| |simpl in Hl; lia]. cbn in Hb. rewrite Z.add_0_r in Hb.
    destruct (translate (mem s) root va) as [a|]; [|done]. cbn in Hb. injection Hb as <-. exact HQ.
  - destruct bytes; [|simpl in Hl; lia]. simpl in Hn. rewrite Z.add_0_r in Hn. by rewrite Hn in HQ.
Qed.

(** ** The abstract pipe: a bounded queue with two ends *)

Record fifo := mk_fifo { content : list Z; rd_open : bool; wr_open : bool }.

Definition fifo_of (p : pipe) : fifo := mk_fifo (queue p) (readopen p) (writeopen p).

Inductive fifo_event := Get (bytes : list Z) | Put (bytes : list Z).

Inductive fifo_step : fifo -> fifo_event -> fifo -> Prop :=
| fifo_get bytes q r w : fifo_step (mk_fifo (bytes ++ q) r w) (Get bytes) (mk_fifo q r w)
| fifo_put bytes q r w : Z.of_nat (length (q ++ bytes)) <= PIPESIZE ->
    fifo_step (mk_fifo q r w) (Put bytes) (mk_fifo (q ++ bytes) r w).

Lemma fifo_get_inv p bytes p' : fifo_step (fifo_of p) (Get bytes) (fifo_of p') -> queue p = bytes ++ queue p'.
Proof. unfold fifo_of. intros Hst. inversion Hst. congruence. Qed.

(** The two ends of the pipe are as they were. *)
Definition same_ends (p p' : pipe) : Prop := readopen p' = readopen p /\ writeopen p' = writeopen p.

Section Ops.
Context (s : kstate) (pi : Z) (P : pipe) (p : proc) (fl : list Z) (addr n : Z) (me : nat).
Hypothesis Himg : image_ok.
Hypothesis Hrdy : pipe_ready s pi P p fl.
Hypothesis Haddr : 0 <= addr < 2 ^ 64.
Hypothesis Hme : procs s !! me = Some p.

Let tr := translate (mem s) (pagetable p).
Let q := queue P.

(** The state inside the critical section after [k] bytes were delivered. *)
Definition reading (k : nat) (P' : pipe) : kstate :=
  set_mem (user_store tr (mem s) addr (take k q)) (set_pipes (<[pi := P']> (pipes s)) (acq (L_pipe pi) s)).

Lemma reading_start : reading 0 P = acq (L_pipe pi) s.
Proof.
  unfold reading. rewrite insert_id by apply Hrdy. cbn [firstn user_store].
  by destruct s.
Qed.

Definition translated (k : nat) : Prop := forall j : nat, (j < k)%nat -> is_Some (tr (addr + Z.of_nat j)).

Lemma translated_S k a : translated k -> tr (addr + Z.of_nat k) = Some a -> translated (S k).
Proof. intros Hk Ha j Hj. destruct (decide (j = k)) as [->|]; [by eexists|]. apply Hk. lia. Qed.

(** What the copy loop of [piperead] leaves. *)
Definition read_loop_post (r : Z) (t : kstate) : Prop :=
  exists (k c : nat) P', r = Z.of_nat k /\ t = reading k P' /\ pipe_ok P' /\ same_ends P P' /\
    queue P' = drop c q /\ translated k /\
    let m := Z.to_nat (Z.min n (count P)) in
    (k = m /\ c = m \/ (k < m)%nat /\ c = S k /\ tr (addr + Z.of_nat k) = None).

Lemma wp_piperead_empty :
  0 < count P \/ writeopen P = false \/ killed p = true ->
  wp (piperead_empty pi (Some me)) (fun r t =>
    if (count P =? 0) && writeopen P then r = true /\ t = s
    else r = false /\ t = acq (L_pipe pi) s) (acq (L_pipe pi) s).
Proof.
  intros Hnb. assert (HP : pipes (acq (L_pipe pi) s) !! pi = Some P) by apply Hrdy.
  unfold piperead_empty. cbn [iter]. wstep.
  wstep. eapply wp_get_pipe; [exact HP|]. wstep. eapply wp_get_pipe; [exact HP|].
  wstep. eapply wp_get_pipe; [exact HP|]. rewrite pipe_empty by apply Hrdy.
  destruct (Z.eqb_spec (count P) 0) as [Hz|Hz]; cbn [andb]; [|by wsteps].
  destruct (writeopen P) eqn:Hwo; [|by wsteps].
  destruct Hnb as [?|[?|Hk]]; [lia|congruence|].
  wstep. eapply wp_get_pr; [exact Hme|]. rewrite Hk. wstep.
  eapply (wp_release (L_pipe pi) _ s); [apply Hrdy..|done|done|done|]. wsteps.
  split; [done|apply restore_acq].
Qed.

Lemma wp_piperead_loop : wp (piperead_loop pi (Some me) addr n) read_loop_post (acq (L_pipe pi) s).
Proof.
  unfold piperead_loop. rewrite <- reading_start. pose proof (Z_length_queue P) as Hlq. fold q in Hlq.
  apply (wp_iter _ (fun i t => exists (k : nat) P', i = Z.of_nat k /\ t = reading k P' /\ pipe_ok P' /\
      same_ends P P' /\ queue P' = drop k q /\ translated k /\ (k <= Z.to_nat (Z.min n (count P)))%nat)
    _ (fun i _ => Z.to_nat (n - i))).
  - exists 0%nat, P. split_and!; try done; [apply Hrdy|intros j Hj; lia|lia].
  - lia.
  - intros i t (k & P' & -> & -> & Hok & He & Hq & Htr & Hk).
    assert (Hc : count P' = count P - Z.of_nat k).
    { rewrite <- Z_length_queue, Hq, length_drop. lia. }
    assert (HP : pipes (reading k P') !! pi = Some P') by (unfold reading; fields; by rewrite lookup_insert_eq).
    destruct (Z.ltb_spec (Z.of_nat k) n) as [Hn|Hn].
    2: { wsteps. exists k, k, P'. split_and!; try done. left. lia. }
    wstep. eapply wp_get_pipe; [exact HP|]. wstep. eapply wp_get_pipe; [exact HP|].
    rewrite pipe_empty by done. destruct (Z.eqb_spec (count P') 0) as [Hz|Hz].
    { wsteps. exists k, k, P'. split_and!; try done. left. lia. }
    pose proof (count_nonneg P'). destruct (pop_queue P' Hok ltac:(lia)) as (Hok' & ch & Hch & Hpop).
    assert (Hqk : q !! k = Some ch /\ queue (pop P') = drop (S k) q).
    { rewrite Hq in Hpop. assert (Hqk : q !! k = Some ch).
      { rewrite <- (Nat.add_0_r k), <- lookup_drop, Hpop. done. }
      split; [done|]. rewrite (drop_S _ _ _ Hqk) in Hpop. by injection Hpop. }
    destruct Hqk as [Hqk Hq'].
    wstep. eapply wp_get_pipe; [exact HP|]. wstep. eapply wp_deref; [exact Hch|].
    wstep. eapply wp_modify_pipe; [exact HP|]. wstep. fold (pop P').
    eapply wp_get_pr; [exact Hme|]. wstep.
    assert (Ht : set_pipes (<[pi := pop P']> (pipes (reading k P'))) (reading k P') = reading k (pop P')).
    { unfold reading. fields. by rewrite insert_insert_eq. }
    rewrite Ht. pose proof (next_addr _ _ _ _ Haddr Htr) as Hnext. rewrite u64_id by done.
    destruct (user_store_as _ _ _ addr (take k q) (pr_space _ _ _ _ _ Hrdy) ltac:(lia)) as [Has Hup].
    eapply wp_copyout1; [done|exact Has|done|].
    change (mem (reading k (pop P'))) with (user_store tr (mem s) addr (take k q)).
    rewrite (user_page_translate _ _ _ Hup). fold tr.
    destruct (tr (addr + Z.of_nat k)) as [a|] eqn:Ha; cbn [Z.eqb]; wsteps.
    + split; [|lia]. exists (S k), (pop P'). split; [lia|]. split.
      { unfold reading. fields. rewrite (take_S_r _ _ _ Hqk), user_store_app. cbn [user_store].
        rewrite length_take_le by (apply lookup_lt_Some in Hqk; lia). by rewrite Ha. }
      split_and!; try done; [by eapply translated_S|lia].
    + exists k, (S k), (pop P'). split_and!; try done. right. split_and!; [lia|done..].
Qed.

(** The state inside the critical section after the writer changed the pipe. *)
Definition writing (P' : pipe) : kstate := set_pipes (<[pi := P']> (pipes s)) (acq (L_pipe pi) s).

(** What the copy loop of [pipewrite] leaves; [None]: the lock was released. *)
Definition write_loop_post (r : option Z) (t : kstate) : Prop :=
  exists bytes P', let k := length bytes in
    pipe_ok P' /\ same_ends P P' /\ queue P' = q ++ bytes /\
    user_bytes (mem s) (pagetable p) addr k = Some <$> bytes /\
    let m := Z.to_nat (Z.min n (PIPESIZE - count P)) in
    match r with
    | Some i => i = Z.of_nat k /\ t = writing P' /\
        (k = m /\ n <= Z.of_nat m \/ (k < m)%nat /\ tr (addr + Z.of_nat k) = None)
    | None => t = set_pipes (<[pi := P']> (pipes s)) s /\ k = m /\ Z.of_nat m < n
    end.

Lemma wp_pipewrite_full P' :
  pipe_ok P' -> same_ends P P' -> (count P' < PIPESIZE \/ readopen P = false \/ killed p = true) ->
  wp (pipewrite_full pi (Some me)) (fun r t =>
    if count P' =? PIPESIZE then r = true /\ t = set_pipes (<[pi := P']> (pipes s)) s
    else r = false /\ t = writing P') (writing P').
Proof.
  intros Hok [He _] Hnb. unfold pipewrite_full. cbn [iter].
  assert (HP : pipes (writing P') !! pi = Some P') by (unfold writing; fields; by rewrite lookup_insert_eq).
  wstep. wstep. eapply wp_get_pipe; [exact HP|]. wstep. eapply wp_get_pipe; [exact HP|].
  rewrite pipe_full by done. destruct (Z.eqb_spec (count P') PIPESIZE) as [Hf|Hf]; [|by wsteps].
  assert (Hend : forall body, wp (bind (release (L_pipe pi)) (fun _ => ret (inr (A := unit) true)))
            (fun x t => wp match x with inl st => iter world_fuel body st | inr r => ret r end
               (fun r t => r = true /\ t = set_pipes (<[pi := P']> (pipes s)) s) t) (writing P')).
  { intros body. wstep. eapply (wp_release (L_pipe pi) _ s); [apply Hrdy..|done|done|done|]. wsteps.
    split; [done|]. unfold writing. by critical. }
  wstep. eapply wp_get_pipe; [exact HP|]. rewrite He. wstep.
  destruct (readopen P) eqn:Hro; cbn [negb].
  - destruct Hnb as [?|[?|Hk]]; [lia|done|]. eapply wp_get_pr; [exact Hme|]. rewrite Hk. apply Hend.
  - wstep. apply Hend.
Qed.

Lemma user_bytes_snoc bytes a : user_bytes (mem s) (pagetable p) addr (length bytes) = Some <$> bytes ->
  tr (addr + Z.of_nat (length bytes)) = Some a ->
  user_bytes (mem s) (pagetable p) addr (length (bytes ++ [ld8 (mem s) a])) = Some <$> (bytes ++ [ld8 (mem s) a]).
Proof.
  intros Hb Ha. rewrite length_app, user_bytes_app, Hb, fmap_app. f_equal. cbn. rewrite Z.add_0_r.
  fold tr. by rewrite Ha.
Qed.

Lemma user_bytes_translated bytes :
  user_bytes (mem s) (pagetable p) addr (length bytes) = Some <$> bytes -> translated (length bytes).
Proof.
  intros Hb j Hj. pose proof (user_bytes_lookup (mem s) (pagetable p) addr _ j Hj) as Hl.
  rewrite Hb, list_lookup_fmap in Hl. fold tr in Hl.
  destruct (bytes !! j); [|done]. simpl in Hl. destruct (tr _); [by eexists|done].
Qed.

Lemma wp_pipewrite_loop :
  n <= PIPESIZE - count P \/ readopen P = false \/ killed p = true ->
  wp (pipewrite_loop pi (Some me) addr n) write_loop_post (acq (L_pipe pi) s).
Proof.
  intros Hnb. unfold pipewrite_loop. pose proof (Z_length_queue P) as Hlq. fold q in Hlq.
  assert (Hcap : count P <= PIPESIZE) by apply Hrdy.
  apply (wp_iter _ (fun i t => exists bytes P', i = Z.of_nat (length bytes) /\ t = writing P' /\ pipe_ok P' /\
      same_ends P P' /\ queue P' = q ++ bytes /\
      user_bytes (mem s) (pagetable p) addr (length bytes) = Some <$> bytes /\
      (length bytes <= Z.to_nat (Z.min n (PIPESIZE - count P)))%nat)
    _ (fun i _ => Z.to_nat (n - i))).
  - exists [], P. split_and!; try done; [|apply Hrdy|by rewrite app_nil_r|simpl; lia].
    unfold writing. rewrite insert_id by apply Hrdy. by destruct s.
  - lia.
  - intros i t (bytes & P' & -> & -> & Hok & He & Hq & Hb & Hk).
    assert (Hc : count P' = count P + Z.of_nat (length bytes)).
    { rewrite <- Z_length_queue, Hq, length_app. lia. }
    destruct (Z.ltb_spec (Z.of_nat (length bytes)) n) as [Hn|Hn].
    2: { wsteps. exists bytes, P'. cbv zeta. split_and!; try done. left. lia. }
    wstep. eapply wp_mono; [apply (wp_pipewrite_full P' Hok He)|].
    { destruct Hnb as [Hr|Hr]; [left; lia|by right]. }
    intros gave t Hg. destruct (Z.eqb_spec (count P') PIPESIZE) as [Hf|Hf]; destruct Hg as [-> ->].
    { wsteps. exists bytes, P'. cbv zeta. split_and!; try done; lia. }
    assert (Hroom : count P' < PIPESIZE) by (destruct Hok; lia).
    wstep. eapply wp_get_pr; [exact Hme|]. wstep.
    pose proof (next_addr _ _ _ _ Haddr (user_bytes_translated _ Hb)) as Hnext. rewrite u64_id by done.
    eapply wp_copyin1; [done|apply (as_pt _ _ _ (pr_space _ _ _ _ _ Hrdy))|done|].
    change (mem (writing P')) with (mem s). fold tr.
    destruct (tr (addr + Z.of_nat (length bytes))) as [a|] eqn:Ha; cbn [Z.eqb].
    2: { wsteps. exists bytes, P'. cbv zeta. split_and!; try done. right. split; [lia|done]. }
    assert (HP : pipes (writing P') !! pi = Some P') by (unfold writing; fields; by rewrite lookup_insert_eq).
    wstep. eapply wp_get_pipe; [exact HP|]. wstep. eapply wp_modify_pipe; [exact HP|]. wsteps.
    cbn [head default id]. fold (push P' (ld8 (mem s) a)).
    destruct (push_queue P' (ld8 (mem s) a) Hok Hroom) as [Hok' Hq'].
    split; [|lia]. exists (bytes ++ [ld8 (mem s) a]), (push P' (ld8 (mem s) a)).
    split_and!; try done.
    + rewrite length_app. simpl. lia.
    + unfold writing. fields. by rewrite insert_insert_eq.
    + by rewrite Hq', Hq, <- app_assoc.
    + by apply user_bytes_snoc.
    + rewrite length_app. simpl. lia.
Qed.
End Ops.

(** ** Properties *)

(** Take the lock of the pipe, for the process that runs. *)
Lemma wp_pipe_enter {A} (f : option nat -> K A) s pi P p fl (Q : A -> kstate -> Prop) :
  pipe_ready s pi P p fl ->
  (forall me, procs s !! me = Some p -> wp (f (Some me)) Q (acq (L_pipe pi) s)) ->
  wp (let* pr := myproc in acquire (L_pipe pi) ;;; f pr) Q s.
Proof.
  intros Hr Hf. destruct (cur_proc_me s p (pr_cur _ _ _ _ _ Hr)) as (c & me & Hc & Hme & Hp).
  wstep. eapply (wp_myproc c); [apply Hr|done|]. rewrite Hme.
  wstep. apply wp_acquire; [apply Hr..|]. by apply Hf.
Qed.

(** Wake the other end and release the lock. *)
Lemma wp_pipe_leave s pi P p fl ch r t (Q : Z -> kstate -> Prop) :
  pipe_ready s pi P p fl -> hart t = hart (acq (L_pipe pi) s) -> cpus t = cpus (acq (L_pipe pi) s) ->
  locks t = locks (acq (L_pipe pi) s) -> procs t = procs s ->
  Q r (restore s (set_procs (wake ch <$> procs s) t)) ->
  wp (wakeup ch ;;; release (L_pipe pi) ;;; ret r) Q t.
Proof.
  intros Hr Hh Hc Hl Hp HQ. wstep. apply wp_wakeup.
  - destruct (procs_free_acq (L_pipe pi) s) as (Hs & Hf & Hlen); [done|apply Hr|]. split; [|split].
    + unfold settled, intr, this_cpu in *. by rewrite Hc, Hh.
    + intros i Hi. unfold lock_free in *. rewrite Hl. by apply Hf.
    + by rewrite Hp.
  - wstep. eapply (wp_release (L_pipe pi) _ s); [apply Hr..|by fields|by fields|by fields|].
    wsteps. by rewrite Hp.
Qed.

(** C14: [piperead] is a [Get] of the queue: with [m] the smaller of [n] and the bytes
    there are, it delivers the first [m] bytes in order to user addresses [addr],
    [addr+1], ..., takes them from the pipe, wakes the writers and returns [m]; at
    the first address that is not mapped it stops and returns the bytes delivered so
    far, but the byte it could not deliver is gone from the pipe.  On an empty pipe
    that can still be written a killed reader gets -1 and nothing changes. *)
Theorem piperead_refines (s : kstate) (pi : Z) (P : pipe) (p : proc) (fl : list Z) (addr n : Z) :
  let tr := translate (mem s) (pagetable p) in
  let m := Z.to_nat (Z.min n (count P)) in
  image_ok -> pipe_ready s pi P p fl -> 0 <= addr < 2 ^ 64 ->
  0 < count P \/ writeopen P = false \/ killed p = true ->
  if (count P =? 0) && writeopen P then piperead pi addr n s = Ok (-1) s
  else exists (k : nat) bytes P',
    piperead pi addr n s = Ok (Z.of_nat k)
      (set_procs (wake (Ch_pipe_nwrite pi) <$> procs s) (set_pipes (<[pi := P']> (pipes s))
        (set_mem (user_store tr (mem s) addr (take k bytes)) s))) /\
    pipe_ok P' /\ fifo_step (fifo_of P) (Get bytes) (fifo_of P') /\
    (forall j : nat, (j < k)%nat -> is_Some (tr (addr + Z.of_nat j))) /\
    (k = m /\ length bytes = m \/
     (k < m)%nat /\ length bytes = S k /\ tr (addr + Z.of_nat k) = None).
Proof.
  intros tr m Himg Hr Ha Hnb. pose proof (Z_length_queue P) as Hlq.
  destruct ((count P =? 0) && writeopen P) eqn:E.
  - assert (Hw : wp (piperead pi addr n) (fun r t => r = -1 /\ t = s) s).
    { unfold piperead. eapply wp_pipe_enter; [done|]. intros me Hme. wstep.
      eapply wp_mono; [by eapply wp_piperead_empty|]. rewrite E. intros r t [-> ->]. by wsteps. }
    destruct (wp_run _ _ _ Hw) as (r & t & -> & -> & ->). done.
  - assert (Hw : wp (piperead pi addr n) (fun r t => exists (k c : nat) P',
        (r = Z.of_nat k /\ t = set_procs (wake (Ch_pipe_nwrite pi) <$> procs s)
          (set_pipes (<[pi := P']> (pipes s)) (set_mem (user_store tr (mem s) addr (take k (queue P))) s))) /\
        pipe_ok P' /\ same_ends P P' /\ queue P' = drop c (queue P) /\ translated s p addr k /\
        (k = m /\ c = m \/ (k < m)%nat /\ c = S k /\ tr (addr + Z.of_nat k) = None)) s).
    { unfold piperead. eapply wp_pipe_enter; [done|]. intros me Hme. wstep.
      eapply wp_mono; [by eapply wp_piperead_empty|]. rewrite E. intros r t [-> ->]. wstep.
      eapply wp_mono; [by apply (wp_piperead_loop s pi P p fl addr n me)|].
      intros r t (k & c & P' & -> & -> & Hok & He & Hq & Htr & Hkc).
      eapply wp_pipe_leave; [done|done..|]. exists k, c, P'. split; [|by split_and!].
      split; [done|]. unfold reading. critical. by destruct s. }
    destruct (wp_run _ _ _ Hw) as (r & t & Hrun & k & c & P' & [-> ->] & Hok & [He1 He2] & Hq & Htr & Hkc).
    exists k, (take c (queue P)), P'. rewrite Hrun, take_take, Nat.min_l by (destruct Hkc; lia).
    split_and!; try done.
    + unfold fifo_of. rewrite He1, He2, Hq. rewrite <- (take_drop c (queue P)) at 1. constructor.
    + destruct Hkc as [[-> ->]|(Hk & -> & Hn)]; [left|right; split_and!; try done];
        rewrite ?length_take; unfold m in *; lia.
Qed.

(** C15: [pipewrite] is a [Put] of the queue: it appends the bytes at user addresses
    [addr], [addr+1], ... in order and never more than [PIPESIZE] stay in the pipe.
    When there is room for [n] bytes, or the reader is gone or the writer killed, it
    does not wait: it returns the number of bytes appended and wakes the readers,
    stopping at the first address that is not mapped; when the pipe fills up before,
    it returns -1 with the bytes appended so far left in the pipe. *)
Theorem pipewrite_refines (s : kstate) (pi : Z) (P : pipe) (p : proc) (fl : list Z) (addr n : Z) :
  let m := Z.to_nat (Z.min n (PIPESIZE - count P)) in
  image_ok -> pipe_ready s pi P p fl -> 0 <= addr < 2 ^ 64 ->
  n <= PIPESIZE - count P \/ readopen P = false \/ killed p = true ->
  exists bytes P', let k := length bytes in
    pipe_ok P' /\ fifo_step (fifo_of P) (Put bytes) (fifo_of P') /\
    user_bytes (mem s) (pagetable p) addr k = Some <$> bytes /\
    (k = m /\ Z.of_nat m < n /\ pipewrite pi addr n s = Ok (-1) (set_pipes (<[pi := P']> (pipes s)) s) \/
     (k = m /\ n <= Z.of_nat m \/ (k < m)%nat /\ translate (mem s) (pagetable p) (addr + Z.of_nat k) = None) /\
     pipewrite pi addr n s = Ok (Z.of_nat k)
       (set_procs (wake (Ch_pipe_nread pi) <$> procs s) (set_pipes (<[pi := P']> (pipes s)) s))).
Proof.
  intros m Himg Hr Ha Hnb.
  assert (Hw : wp (pipewrite pi addr n) (fun r t => exists bytes P', let k := length bytes in
      pipe_ok P' /\ same_ends P P' /\ queue P' = queue P ++ bytes /\
      user_bytes (mem s) (pagetable p) addr k = Some <$> bytes /\
      (k = m /\ Z.of_nat m < n /\ r = -1 /\ t = set_pipes (<[pi := P']> (pipes s)) s \/
       (k = m /\ n <= Z.of_nat m \/ (k < m)%nat /\ translate (mem s) (pagetable p) (addr + Z.of_nat k) = None) /\
       r = Z.of_nat k /\
       t = set_procs (wake (Ch_pipe_nread pi) <$> procs s) (set_pipes (<[pi := P']> (pipes s)) s))) s).
  { unfold pipewrite. eapply wp_pipe_enter; [done|]. intros me Hme. wstep.
    eapply wp_mono; [by apply (wp_pipewrite_loop s pi P p fl addr n me)|].
    intros [i|] t (bytes & P' & Hok & He & Hq & Hb & Hr').
    - destruct Hr' as (-> & -> & Hk). eapply wp_pipe_leave; [done|done..|]. exists bytes, P'. cbv zeta.
      split_and!; try done. right. split; [exact Hk|]. split; [done|]. unfold writing. critical. by destruct s.
    - destruct Hr' as (-> & Hk & Hn). wsteps. exists bytes, P'. cbv zeta. split_and!; try done. by left. }
  destruct (wp_run _ _ _ Hw) as (r & t & Hrun & bytes & P' & Hok & [He1 He2] & Hq & Hb & Hr').
  exists bytes, P'. cbv zeta. rewrite Hrun. split_and!; try done.
  - unfold fifo_of. rewrite He1, He2, Hq. constructor. rewrite <- Hq, Z_length_queue. apply Hok.
  - destruct Hr' as [(? & ? & -> & ->)|(? & -> & ->)]; [left|right]; done.
Qed.
End Pipe.

(** ** A concrete pipe

    Its counters are about to wrap; process 0 runs on the page table of Vm.v. *)
Definition ex_pi : Z := 0x87000000.
Definition ex_pipe : pipe := mk_pipe (replicate 511 7 ++ [5]) (2 ^ 32 - 1) 1 true true.
Definition ex_proc : proc := set_state RUNNING (set_pagetable ex_root zero_proc).
Definition ex_piped : kstate :=
  set_pipes {[ex_pi := ex_pipe]}
    (set_locks (<[L_pipe ex_pi := mk_spinlock 0 "pipe" None]> (locks zero_kstate))
      (set_procs (<[0%nat := ex_proc]> (procs zero_kstate))
        (set_cpus (<[0%nat := set_c_proc (Some 0%nat) zero_cpu]> (cpus zero_kstate)) ex_mapped))).

Lemma ex_pipe_queue : queue ex_pipe = [5; 7].
Proof. reflexivity. Qed.

Lemma ex_piped_mem : mem ex_piped = mem ex_mapped.
Proof. unfold ex_piped. by fields. Qed.

Lemma ex_proc_root : pagetable ex_proc = ex_root.
Proof. unfold ex_proc. by fields. Qed.

Lemma ex_pipe_ready : pipe_ready (H0 := ex_image) ex_piped ex_pi ex_pipe ex_proc [].
Proof.
  assert (Hs : settled ex_piped) by (exists (set_c_proc (Some 0%nat) zero_cpu); repeat split; done).
  split.
  - exact Hs.
  - by exists "pipe".
  - split; [exact Hs|]. split; [|done]. intros i Hi. destruct zero_procs_free as (_ & Hf & _).
    destruct (Hf i Hi) as [nm Hnm]. exists nm. unfold ex_piped. fields. by rewrite lookup_insert_ne.
  - reflexivity.
  - rewrite ex_piped_mem, ex_proc_root. exact ex_as.
  - reflexivity.
  - split; [reflexivity|cbn; lia|cbn; lia|]. change (2 <= 512). lia.
Qed.

Lemma piperead_refines_witness : exists P',
  piperead (H := idle_world) ex_pi 4100 10 ex_piped = Ok 2
    (set_procs (wake (Ch_pipe_nwrite ex_pi) <$> procs ex_piped) (set_pipes (<[ex_pi := P']> (pipes ex_piped))
      (set_mem (user_store (translate (mem ex_piped) ex_root) (mem ex_piped) 4100 [5; 7]) ex_piped))) /\
  queue P' = [].
Proof.
  destruct (piperead_refines (H := idle_world) (H0 := ex_image) ex_piped ex_pi ex_pipe ex_proc [] 4100 10)
    as (k & bytes & P' & Hr & Hok & Hst & Htr & Hk).
  - exact ex_image_ok.
  - exact ex_pipe_ready.
  - lia.
  - left. reflexivity.
  - assert (Hk2 : k = 2%nat /\ length bytes = 2%nat).
    { destruct Hk as [[-> Hl]|(Hk & _ & Hn)]; [by split|].
      change (k < 2)%nat in Hk. rewrite ex_piped_mem, ex_proc_root in Hn. rewrite ex_translate in Hn by lia. discriminate Hn. }
    destruct Hk2 as [-> Hl]. exists P'. apply fifo_get_inv in Hst as Hq. rewrite ex_pipe_queue in Hq.
    assert (Hbq : bytes = [5; 7] /\ queue P' = []).
    { clear - Hl Hq. destruct bytes as [|x [|y [|]]]; try done. by injection Hq as <- <- ->. }
    destruct Hbq as [-> Hq']. split; [exact Hr|exact Hq'].
Defined.

Lemma ex_user_bytes : user_bytes (mem ex_piped) (pagetable ex_proc) 4100 2 = [Some 0; Some 0].
Proof.
  unfold user_bytes. cbn [seq fmap list_fmap]. rewrite ex_piped_mem, ex_proc_root.
  rewrite !ex_translate by lia. vm_compute. reflexivity.
Qed.

Lemma pipewrite_refines_witness : exists P',
  fifo_step (fifo_of ex_pipe) (Put [0; 0]) (fifo_of P') /\
  pipewrite (H := idle_world) ex_pi 4100 2 ex_piped = Ok 2
    (set_procs (wake (Ch_pipe_nread ex_pi) <$> procs ex_piped) (set_pipes (<[ex_pi := P']> (pipes ex_piped)) ex_piped)).
Proof.
  destruct (pipewrite_refines (H := idle_world) (H0 := ex_image) ex_piped ex_pi ex_pipe ex_proc [] 4100 2)
    as (bytes & P' & Hok & Hst & Hb & Hk).
  - exact ex_image_ok.
  - exact ex_pipe_ready.
  - lia.
  - left. change (2 <= 512 - 2). lia.
  - destruct Hk as [(_ & Hn & _)|[[[Hl _]|[Hl Hn]] Hrun]].
    + change (2 < 2) in Hn. lia.
    + change (length bytes = 2%nat) in Hl. rewrite Hl in Hb, Hrun.
      rewrite ex_user_bytes in Hb. assert (bytes = [0; 0]) as ->.
      { clear - Hb Hl. destruct bytes as [|x [|y [|]]]; try done. by injection Hb as <- <-. }
      exists P'. split; [exact Hst|exact Hrun].
    + change (length bytes < 2)%nat in Hl. rewrite ex_piped_mem, ex_proc_root in Hn. rewrite ex_translate in Hn by lia. discriminate Hn.
Defined.
