(* ===== verification/Console.v ===== *)
(** * kernel/uart.c, kernel/printf.c, kernel/console.c

    The UART is hardware: the class [Uart] gives what a read and a write of one of
    its registers do, [Uart16550] the documented behaviour the driver relies on.  A
    format string is the list of its bytes before the NUL, its arguments a list of
    typed values.

    The theorems about the input side show that [consoleintr] is a line editor: the
    ring buffer and its three 32-bit indices refine a list of completed input and a
    line being edited. *)

From stdpp Require Import gmap strings list fin_maps.
From Stdlib Require Import ZArith Lia Ascii.
From S2P Require Import Prelude Machine Str State Riscv Spinlock Kalloc Vm Copy Sched.
From S2P Require Import Sleeplock.
Open Scope Z_scope.
Open Scope list_scope.

(** ** Registers of the 16550 *)

(* @kernel/uart.c RHR *)
Definition RHR : Z := 0.
(* @kernel/uart.c THR *)
Definition THR : Z := 0.
(* @kernel/uart.c IER *)
Definition IER : Z := 1.
(* @kernel/uart.c IER_TX_ENABLE *)
Definition IER_TX_ENABLE : Z := Z.shiftl 1 0.
(* @kernel/uart.c IER_RX_ENABLE *)
Definition IER_RX_ENABLE : Z := Z.shiftl 1 1.
(* @kernel/uart.c FCR *)
Definition FCR : Z := 2.
(* @kernel/uart.c FCR_FIFO_ENABLE *)
Definition FCR_FIFO_ENABLE : Z := Z.shiftl 1 0.
(* @kernel/uart.c FCR_FIFO_CLEAR *)
Definition FCR_FIFO_CLEAR : Z := Z.shiftl 3 1.
(* @kernel/uart.c LCR *)
Definition LCR : Z := 3.
(* @kernel/uart.c LCR_EIGHT_BITS *)
Definition LCR_EIGHT_BITS : Z := Z.shiftl 3 0.
(* @kernel/uart.c LCR_BAUD_LATCH *)
Definition LCR_BAUD_LATCH : Z := Z.shiftl 1 7.
(* @kernel/uart.c LSR *)
Definition LSR : Z := 5.
(* @kernel/uart.c LSR_RX_READY *)
Definition LSR_RX_READY : Z := Z.shiftl 1 0.
(* @kernel/uart.c LSR_TX_IDLE *)
Definition LSR_TX_IDLE : Z := Z.shiftl 1 5.
(* @kernel/uart.c UART_TX_BUF_SIZE *)
Definition UART_TX_BUF_SIZE : Z := 32.

(* @kernel/file.h CONSOLE *)
Definition CONSOLE : Z := 1.
(* @kernel/console.c BACKSPACE *)
Definition BACKSPACE : Z := 0x100.
(* @kernel/console.c C *)
Definition C (x : Z) : Z := x - 64.
(* @kernel/console.c INPUT_BUF *)
Definition INPUT_BUF : Z := 128.

(** What reading and writing a register does to the device, and the number of
    polls after which the transmitter is idle. *)
Class Uart := {
  uart_read : Z -> uart_hw -> Z * uart_hw;
  uart_write : Z -> Z -> uart_hw -> uart_hw;
  uart_patience : nat
}.

(** The bytes of a string literal. *)
Definition str_bytes (s : string) : list Z :=
  (fun c => Z.of_nat (nat_of_ascii c)) <$> String.list_ascii_of_string s.

(** The C string at [a], when it ends within [n] bytes. *)
Fixpoint cstr (m : memory) (a : Z) (n : nat) : option (list Z) :=
  match n with
  | O => None
  | S n => if ld8 m a =? 0 then Some [] else (fun l => ld8 m a :: l) <$> cstr m (a + 1) n
  end.

Section Console.
Context `{World kstate} `{KernelImage} `{Uart}.

(* @kernel/uart.c ReadReg *)
Definition ReadReg (reg : Z) : K Z :=
  let* (v, h) := gets (fun s => uart_read reg (uart_dev s)) in
  modify (set_uart_dev h) ;;;
  ret v.
(* @kernel/uart.c WriteReg *)
Definition WriteReg (reg v : Z) : K unit :=
  modify (fun s => set_uart_dev (uart_write reg (u8 v) (uart_dev s)) s).

(* @kernel/uart.c uartinit *)
Definition uartinit : K unit :=
  WriteReg IER 0 ;;;
  WriteReg LCR LCR_BAUD_LATCH ;;;
  WriteReg 0 3 ;;;
  WriteReg 1 0 ;;;
  WriteReg LCR LCR_EIGHT_BITS ;;;
  WriteReg FCR (Z.lor FCR_FIFO_ENABLE FCR_FIFO_CLEAR) ;;;
  WriteReg IER (Z.lor IER_TX_ENABLE IER_RX_ENABLE) ;;;
  initlock L_uart "uart".

(** [if(panicked) for(;;);] *)
Definition stop_if_panicked : K unit :=
  let* p := gets panicked in
  if p : bool then (fun s => Blocked s) else ret tt.

Definition modify_uart (f : uart_t -> uart_t) : K unit := modify (fun s => set_uart (f (uart s)) s).

(** Each turn that does not return takes a byte from the buffer. *)
(* @kernel/uart.c uartstart *)
Definition uartstart : K unit :=
  iter (S (Z.to_nat UART_TX_BUF_SIZE)) (fun _ : unit =>
    let* u := gets uart in
    if tx_w u =? tx_r u then ret (inr tt)
    else
    let* lsr := ReadReg LSR in
    if Z.land lsr LSR_TX_IDLE =? 0 then ret (inr tt)
    else
    let* c := deref (tx_buf u !! Z.to_nat (tx_r u)) in
    modify_uart (fun u => set_tx_r (Z.rem (tx_r u + 1) UART_TX_BUF_SIZE) u) ;;;
    wakeup Ch_uart_tx_r ;;;
    WriteReg THR c ;;;
    ret (inl tt)) tt.

(* @kernel/uart.c uartputc *)
Definition uartputc (c : Z) : K unit :=
  acquire L_uart ;;;
  stop_if_panicked ;;;
  iter (S world_fuel) (fun _ : unit =>
    let* u := gets uart in
    if Z.rem (tx_w u + 1) UART_TX_BUF_SIZE =? tx_r u then
      sleep Ch_uart_tx_r L_uart ;;;
      ret (inl tt)
    else
      let* _ := deref (tx_buf u !! Z.to_nat (tx_w u)) in
      modify_uart (fun u => set_tx_buf (<[Z.to_nat (tx_w u) := u8 c]> (tx_buf u)) u) ;;;
      modify_uart (fun u => set_tx_w (Z.rem (tx_w u + 1) UART_TX_BUF_SIZE) u) ;;;
      uartstart ;;;
      release L_uart ;;;
      ret (inr tt)) tt.

(* @kernel/uart.c uartputc_sync *)
Definition uartputc_sync (c : Z) : K unit :=
  push_off ;;;
  stop_if_panicked ;;;
  iter (S uart_patience) (fun _ : unit =>
    let* lsr := ReadReg LSR in
    if Z.land lsr LSR_TX_IDLE =? 0 then ret (inl tt) else ret (inr tt)) tt ;;;
  WriteReg THR c ;;;
  pop_off.

(* @kernel/uart.c uartgetc *)
Definition uartgetc : K Z :=
  let* lsr := ReadReg LSR in
  if negb (Z.land lsr 1 =? 0) then ReadReg RHR else ret (-1).

(* @kernel/console.c consputc *)
Definition consputc (c : Z) : K unit :=
  if c =? BACKSPACE then
    uartputc_sync 8 ;;; uartputc_sync 32 ;;; uartputc_sync 8
  else uartputc_sync c.

(** ** printf *)

(** An argument of [printf]; a string is its bytes, [None] the null pointer. *)
Inductive parg := AInt (x : Z) | APtr (x : Z) | AStr (s : option (list Z)).

(* @kernel/printf.c:26-26 digits *)
Definition digits : list Z := str_bytes "0123456789abcdef".

(** The [do ... while] loop of [printint]: the digits, the last one first. *)
Fixpoint printint_loop (fuel : nat) (x base : Z) : list Z :=
  match fuel with
  | O => []
  | S fuel =>
    digits !!! Z.to_nat (x mod base) ::
    (if x / base =? 0 then [] else printint_loop fuel (x / base) base)
  end.

(** The contents of [buf]; the 32 bits of [x] give at most 32 digits. *)
(* @kernel/printf.c printint *)
Definition printint_buf (xx base : Z) (sign : bool) : list Z :=
  let sign := sign && (xx <? 0) in
  let x := if sign then u32 (- xx) else u32 xx in
  printint_loop 32 x base ++ (if sign then [45] else []).

(* @kernel/printf.c printint *)
Definition printint (xx base : Z) (sign : bool) : K unit :=
  for_all (rev (printint_buf xx base sign)) consputc.

(* @kernel/printf.c printptr *)
Definition printptr (x : Z) : K unit :=
  consputc 48 ;;;
  consputc 120 ;;;
  for_all (seq 0 16) (fun i =>
    consputc (digits !!! Z.to_nat (Z.shiftr (u64 (Z.shiftl x (4 * Z.of_nat i))) 60))).

(* @kernel/printf.c printf *)
Fixpoint printf_loop (fmt : list Z) (ap : list parg) : K unit :=
  match fmt with
  | [] => ret tt
  | c :: fmt =>
    if negb (c =? 37) then consputc c ;;; printf_loop fmt ap
    else
    match fmt with
    | [] => ret tt
    | c :: fmt =>
      if c =? 100 then
        match ap with
        | AInt x :: ap => printint x 10 true ;;; printf_loop fmt ap
        | _ => fault "va_arg"
        end
      else if c =? 120 then
        match ap with
        | AInt x :: ap => printint x 16 true ;;; printf_loop fmt ap
        | _ => fault "va_arg"
        end
      else if c =? 112 then
        match ap with
        | APtr x :: ap => printptr x ;;; printf_loop fmt ap
        | _ => fault "va_arg"
        end
      else if c =? 115 then
        match ap with
        | AStr s :: ap => for_all (default (str_bytes "(null)") s) consputc ;;; printf_loop fmt ap
        | _ => fault "va_arg"
        end
      else if c =? 37 then consputc 37 ;;; printf_loop fmt ap
      else consputc 37 ;;; consputc c ;;; printf_loop fmt ap
    end
  end.

(* @kernel/printf.c printf *)
Definition printf (fmt : list Z) (ap : list parg) : K unit :=
  let* locking := gets pr_locking in
  when locking (acquire L_pr) ;;;
  printf_loop fmt ap ;;;
  when locking (release L_pr).

(** [panic] prints its message and stops; the model stops in [Panic]. *)
(* @kernel/printf.c panic *)
Definition panic_print {A} (msg : string) : K A :=
  modify (set_pr_locking false) ;;;
  printf (str_bytes "panic: ") [] ;;;
  printf (str_bytes msg) [] ;;;
  printf [10] [] ;;;
  modify (set_panicked true) ;;;
  panic msg.

(* @kernel/printf.c printfinit *)
Definition printfinit : K unit :=
  initlock L_pr "pr" ;;;
  modify (set_pr_locking true).

(* @kernel/proc.c:674-680 states *)
Definition states (st : procstate) : list Z :=
  str_bytes match st with
  | UNUSED => "unused" | SLEEPING => "sleep " | RUNNABLE => "runble"
  | RUNNING => "run   " | ZOMBIE => "zombie"
  end.

(* @kernel/proc.c procdump *)
Definition procdump : K unit :=
  printf [10] [] ;;;
  for_all proc_ids (fun p =>
    let* st := get_proc p state in
    if bool_decide (st = UNUSED) then ret tt
    else
    let* pd := get_proc p pid in
    let* a := get_proc p name in
    let* nm := gets (fun s => cstr (mem s) a 16) in
    let* nm := deref nm in
    printf (str_bytes "%d %s %s") [AInt pd; AStr (Some (states st)); AStr (Some nm)] ;;;
    printf [10] []).

(** ** The console device *)

Definition modify_cons (f : console -> console) : K unit := modify (fun s => set_cons (f (cons s)) s).

(* @kernel/console.c consolewrite *)
Definition consolewrite (user_src : bool) (src n : Z) : K Z :=
  acquire L_cons ;;;
  let* i := iter (S (Z.to_nat n)) (fun i =>
    if i <? n then
      let* (r, c) := either_copyin user_src (u64 (src + i)) 1 in
      if r =? -1 then ret (inr i)
      else uartputc (default 0 (head c)) ;;; ret (inl (i + 1))
    else ret (inr i)) 0 in
  release L_cons ;;;
  ret i.

(** The loop that waits for input: true when the reader was killed. *)
(* @kernel/console.c consoleread *)
Definition consoleread_wait : K bool :=
  iter (S world_fuel) (fun _ : unit =>
    let* c := gets cons in
    if cons_r c =? cons_w c then
      let* p := myproc in
      let* p := deref p in
      let* kl := get_proc p killed in
      if kl : bool then release L_cons ;;; ret (inr true)
      else sleep Ch_cons_r L_cons ;;; ret (inl tt)
    else ret (inr false)) tt.

(** The [while] loop: [None] when the reader was killed, otherwise the final [n]. *)
(* @kernel/console.c consoleread *)
Definition consoleread_loop (user_dst : bool) (dst n : Z) : K (option Z) :=
  let target := u32 n in
  iter (S (Z.to_nat n)) (fun '(dst, n) =>
    if 0 <? n then
      let* k := consoleread_wait in
      if k : bool then ret (inr None)
      else
      let* cs := gets cons in
      let* c := deref (cons_buf cs !! Z.to_nat (cons_r cs mod INPUT_BUF)) in
      modify_cons (fun cs => set_cons_r (u32 (cons_r cs + 1)) cs) ;;;
      if c =? C 68 then
        when (u32 n <? target) (modify_cons (fun cs => set_cons_r (u32 (cons_r cs - 1)) cs)) ;;;
        ret (inr (Some n))
      else
      let* r := either_copyout user_dst dst [c] 1 in
      if r =? -1 then ret (inr (Some n))
      else if c =? 10 then ret (inr (Some (n - 1)))
      else ret (inl (u64 (dst + 1), n - 1))
    else ret (inr (Some n))) (dst, n).

(* @kernel/console.c consoleread *)
Definition consoleread (user_dst : bool) (dst n : Z) : K Z :=
  acquire L_cons ;;;
  let* r := consoleread_loop user_dst dst n in
  match r with
  | None => ret (-1)
  | Some n' =>
    release L_cons ;;;
    ret (i32 (u32 n - n'))
  end.

(** [case C('U')]: each turn takes a character from the line. *)
(* @kernel/console.c consoleintr *)
Definition kill_line : K unit :=
  iter (S (Z.to_nat INPUT_BUF)) (fun _ : unit =>
    let* cs := gets cons in
    if negb (cons_e cs =? cons_w cs) then
      let* ch := deref (cons_buf cs !! Z.to_nat (u32 (cons_e cs - 1) mod INPUT_BUF)) in
      if negb (ch =? 10) then
        modify_cons (fun cs => set_cons_e (u32 (cons_e cs - 1)) cs) ;;;
        consputc BACKSPACE ;;;
        ret (inl tt)
      else ret (inr tt)
    else ret (inr tt)) tt.

(* @kernel/console.c consoleintr *)
Definition cons_input (c : Z) : K unit :=
  let* cs := gets cons in
  when (negb (c =? 0) && (u32 (cons_e cs - cons_r cs) <? INPUT_BUF))
    (let c := if c =? 13 then 10 else c in
     consputc c ;;;
     modify_cons (fun cs =>
       set_cons_buf (<[Z.to_nat (cons_e cs mod INPUT_BUF) := u8 c]> (cons_buf cs))
         (set_cons_e (u32 (cons_e cs + 1)) cs)) ;;;
     let* cs := gets cons in
     when ((c =? 10) || (c =? C 68) || (cons_e cs =? u32 (cons_r cs + INPUT_BUF)))
       (modify_cons (fun cs => set_cons_w (cons_e cs) cs) ;;;
        wakeup Ch_cons_r)).

(* @kernel/console.c consoleintr *)
Definition consoleintr (c : Z) : K unit :=
  acquire L_cons ;;;
  (if c =? C 80 then procdump
   else if c =? C 85 then kill_line
   else if (c =? C 72) || (c =? 127) then
     let* cs := gets cons in
     when (negb (cons_e cs =? cons_w cs))
       (modify_cons (fun cs => set_cons_e (u32 (cons_e cs - 1)) cs) ;;;
        consputc BACKSPACE)
   else cons_input c) ;;;
  release L_cons.

(* @kernel/console.c consoleinit *)
Definition consoleinit : K unit :=
  initlock L_cons "cons" ;;;
  uartinit ;;;
  modify (fun s => set_devsw_read (<[Z.to_nat CONSOLE := true]> (devsw_read s)) s) ;;;
  modify (fun s => set_devsw_write (<[Z.to_nat CONSOLE := true]> (devsw_write s)) s).

(** The input loop runs until the receiver is empty; [S uart_patience] bytes of it
    are followed. *)
(* @kernel/uart.c uartintr *)
Definition uartintr : K unit :=
  iter (S uart_patience) (fun _ : unit =>
    let* c := uartgetc in
    if c =? -1 then ret (inr tt)
    else consoleintr c ;;; ret (inl tt)) tt ;;;
  acquire L_uart ;;;
  uartstart ;;;
  release L_uart.
End Console.

(** ** What the driver relies on

    [sent h h' out]: the device went from [h] to [h'] and sent [out]. *)
Definition sent (h h' : uart_hw) (out : list Z) : Prop :=
  hw_tx h' = rev out ++ hw_tx h /\ hw_rx h' = hw_rx h /\ hw_dlab h' = hw_dlab h.

Lemma sent_trans h h' h'' out out' : sent h h' out -> sent h' h'' out' -> sent h h'' (out ++ out').
Proof.
  intros (E1 & E2 & E3) (F1 & F2 & F3). split; [|by rewrite F2, F3].
  by rewrite F1, E1, rev_app_distr, app_assoc.
Qed.

(** The 16550 with the divisor latch off: reading the line status changes nothing
    that is sent or received, and shows an idle transmitter after at most
    [uart_patience] polls; a byte written to the transmit register is sent; the
    receive register yields the bytes received in order. *)
Class Uart16550 `{Uart} := {
  uart_busy : uart_hw -> nat;
  uart_busy_bound h : (uart_busy h <= uart_patience)%nat;
  lsr_keeps h : sent h (snd (uart_read LSR h)) [];
  lsr_idle h : Z.land (fst (uart_read LSR h)) LSR_TX_IDLE = 0 ->
    (uart_busy (snd (uart_read LSR h)) < uart_busy h)%nat;
  lsr_ready h : Z.land (fst (uart_read LSR h)) 1 = 0 <-> hw_rx h = [];
  thr_sends h c : hw_dlab h = false -> sent h (uart_write THR c h) [c];
  rhr_takes h c rest : hw_dlab h = false -> hw_rx h = c :: rest ->
    exists h', uart_read RHR h = (c, h') /\ hw_tx h' = hw_tx h /\ hw_rx h' = rest /\ hw_dlab h' = false
}.

Section Output.
Context `{World kstate} `{Uart16550}.

Lemma settled_uart s h : settled s -> settled (set_uart_dev h s).
Proof. done. Qed.

(** The states in which the console can print. *)
Definition printable (s : kstate) : Prop :=
  settled s /\ panicked s = false /\ hw_dlab (uart_dev s) = false.

Lemma wp_uartputc_sync c (Q : unit -> kstate -> Prop) s :
  printable s -> (forall h, sent (uart_dev s) h [u8 c] -> Q tt (set_uart_dev h s)) ->
  wp (uartputc_sync c) Q s.
Proof.
  intros (Hs & Hp & Hd) HQ. pose proof Hs as (cp & Hc & _). unfold uartputc_sync.
  wstep. eapply wp_push_off; [exact Hc|].
  set (t := set_cpus _ _). wstep. unfold stop_if_panicked. wsteps. change (panicked t) with (panicked s). rewrite Hp. wsteps.
  eapply (wp_mono _ (fun _ t' => exists h, sent (uart_dev s) h [] /\ t' = set_uart_dev h t)).
  - apply (wp_iter _ (fun _ t' => exists h, sent (uart_dev s) h [] /\ t' = set_uart_dev h t)
      _ (fun _ t' => uart_busy (uart_dev t'))).
    + exists (uart_dev s). split; [done|]. by destruct s.
    + pose proof (uart_busy_bound (uart_dev t)). lia.
    + intros [] t' (h & Hh & ->). unfold ReadReg. wsteps. fields.
      destruct (uart_read LSR h) as [v h'] eqn:E. wsteps. fields.
      pose proof (lsr_keeps h) as Hk. rewrite E in Hk. pose proof (sent_trans _ _ _ _ _ Hh Hk) as Hh'.
      destruct (Z.eqb_spec (Z.land v LSR_TX_IDLE) 0) as [Hz|Hz]; wsteps.
      * split; [by exists h'|]. pose proof (lsr_idle h) as Hi. rewrite E in Hi. by apply Hi.
      * by exists h'.
  - intros _ t' (h & Hh & ->). cbv beta. unfold WriteReg. wstep. wstep. fields.
    eapply (wp_pop_restore _ s _ cp); [done|done|by fields..|]. fields.
    replace (set_hart _ _) with (set_uart_dev (uart_write THR (u8 c) h) s) by (by destruct s).
    apply HQ. apply (sent_trans _ _ _ _ _ Hh). apply thr_sends. destruct Hh as (_ & _ & ->). done.
Qed.

Lemma printable_sent s h out : printable s -> sent (uart_dev s) h out -> printable (set_uart_dev h s).
Proof. intros (Hs & Hp & Hd) (_ & _ & E). split; [done|]. split; [done|]. by rewrite <- Hd. Qed.

(** What [consputc] sends. *)
Definition put_bytes (c : Z) : list Z := if c =? BACKSPACE then [8; 32; 8] else [u8 c].

Lemma wp_consputc c (Q : unit -> kstate -> Prop) s :
  printable s -> (forall h, sent (uart_dev s) h (put_bytes c) -> Q tt (set_uart_dev h s)) ->
  wp (consputc c) Q s.
Proof.
  intros Hp HQ. unfold consputc, put_bytes in *. destruct (c =? BACKSPACE).
  - wstep. apply wp_uartputc_sync; [done|]. intros h1 H1'.
    wstep. apply wp_uartputc_sync; [by eapply printable_sent|]. intros h2 H2.
    apply wp_uartputc_sync; [by eapply printable_sent, H2; eapply printable_sent|]. intros h3 H3.
    fields_in H2. fields_in H3. fields. apply HQ.
    exact (sent_trans _ _ _ _ _ (sent_trans _ _ _ _ _ H1' H2) H3).
  - by apply wp_uartputc_sync.
Qed.
End Output.

(** ** The input buffer as a line editor *)

(** Input that [consoleread] may take, and the line being typed. *)
Record input := mk_input { ready : list Z; line : list Z }.

Definition ready_of (c : console) : list Z := ring (cons_buf c) INPUT_BUF (cons_r c) (u32 (cons_w c - cons_r c)).
Definition line_of (c : console) : list Z := ring (cons_buf c) INPUT_BUF (cons_w c) (u32 (cons_e c - cons_w c)).
Definition input_of (c : console) : input := mk_input (ready_of c) (line_of c).

Record cons_ring (c : console) : Prop := {
  cons_len : length (cons_buf c) = Z.to_nat INPUT_BUF;
  cons_r_range : 0 <= cons_r c < 2 ^ 32;
  cons_w_range : 0 <= cons_w c < 2 ^ 32;
  cons_e_range : 0 <= cons_e c < 2 ^ 32;
  cons_order : u32 (cons_w c - cons_r c) <= u32 (cons_e c - cons_r c) <= INPUT_BUF
}.

(** The indices are in order and the line being typed has no newline. *)
Definition cons_ok (c : console) : Prop := cons_ring c /\ (10 ∉ line_of c).

(** The editor: [^U] drops the line, [^H] and DEL its last character; another
    character is appended while there is room, and a newline, a [^D] or a full
    buffer hands the line over. *)
Definition is_full (i : input) : bool := INPUT_BUF <=? Z.of_nat (length (ready i) + length (line i)).
Definition hand_over (c : Z) (i : input) : bool := (c =? 10) || (c =? C 68) || is_full i.

Definition typed (c : Z) : Z := if c =? 13 then 10 else c.

Definition edit (c : Z) (i : input) : input :=
  if c =? C 85 then mk_input (ready i) []
  else if (c =? C 72) || (c =? 127) then mk_input (ready i) (removelast (line i))
  else if (c =? 0) || is_full i then i
  else
    let i := mk_input (ready i) (line i ++ [typed c]) in
    if hand_over (typed c) i then mk_input (ready i ++ line i) [] else i.

(** Whether a reader is woken, and what is echoed. *)
Definition wakes (c : Z) (i : input) : bool :=
  negb ((c =? C 85) || (c =? C 72) || (c =? 127) || (c =? 0) || is_full i) &&
  hand_over (typed c) (mk_input (ready i) (line i ++ [typed c])).

Definition echo (c : Z) (i : input) : list Z :=
  if c =? C 85 then mjoin (replicate (length (line i)) [8; 32; 8])
  else if (c =? C 72) || (c =? 127) then if decide (line i = []) then [] else [8; 32; 8]
  else if (c =? 0) || is_full i then [] else [typed c].

Lemma cons_counts c : cons_ring c ->
  u32 (cons_e c - cons_r c) = u32 (cons_w c - cons_r c) + u32 (cons_e c - cons_w c) /\
  0 <= u32 (cons_w c - cons_r c) /\ 0 <= u32 (cons_e c - cons_w c) <= INPUT_BUF.
Proof.
  intros [_ Hr Hw He Ho]. revert Ho. unfold u32, INPUT_BUF. intros. zdm.
Qed.

Lemma length_ready c : Z.of_nat (length (ready_of c)) = u32 (cons_w c - cons_r c).
Proof. unfold ready_of. rewrite length_ring. pose proof (u32_range (cons_w c - cons_r c)). lia. Qed.
Lemma length_line c : Z.of_nat (length (line_of c)) = u32 (cons_e c - cons_w c).
Proof. unfold line_of. rewrite length_ring. pose proof (u32_range (cons_e c - cons_w c)). lia. Qed.

(** The tests of the code. *)
Lemma line_empty c : cons_ok c -> (cons_e c =? cons_w c) = bool_decide (line_of c = []).
Proof.
  intros Hok. pose proof (length_line c) as Hl. destruct Hok as [[_ _ Hw He _] _].
  destruct (bool_decide_reflect (line_of c = [])) as [E|E].
  - rewrite E in Hl. apply Z.eqb_eq. revert Hl. unfold u32. simpl. intros. zdm.
  - apply Z.eqb_neq. intros Hew. apply E, length_zero_iff_nil. rewrite Hew, Z.sub_diag in Hl.
    change (u32 0) with 0 in Hl. lia.
Qed.

Lemma input_full c : cons_ring c -> (u32 (cons_e c - cons_r c) <? INPUT_BUF) = negb (is_full (input_of c)).
Proof.
  intros Hok. destruct (cons_counts c Hok) as (E & _). unfold is_full. simpl.
  rewrite Nat2Z.inj_add, length_ready, length_line, <- E. rewrite <- Z.ltb_antisym. done.
Qed.

(** Erasing the last character. *)
Definition erase (c : console) : console := set_cons_e (u32 (cons_e c - 1)) c.

Lemma erase_line c : cons_ok c -> line_of c <> [] ->
  cons_ok (erase c) /\ ready_of (erase c) = ready_of c /\
  exists ch, cons_buf c !! Z.to_nat (u32 (cons_e c - 1) mod INPUT_BUF) = Some ch /\
    line_of c = line_of (erase c) ++ [ch].
Proof.
  intros [Hok Hnl] Hne. destruct (cons_counts c Hok) as (E & H1 & H2). pose proof (length_line c) as Hl.
  assert (Hpos : 0 < u32 (cons_e c - cons_w c)).
  { destruct (decide (u32 (cons_e c - cons_w c) = 0)) as [Hz|]; [|lia]. rewrite Hz in Hl.
    destruct (line_of c); [done|simpl in Hl; lia]. }
  destruct Hok as [Hlen Hr Hw He Ho].
  assert (En : u32 (cons_e (erase c) - cons_w (erase c)) = u32 (cons_e c - cons_w c) - 1).
  { revert Hpos. unfold erase, u32. fields. intros. zdm. }
  destruct (lookup_lt_is_Some_2 (cons_buf c) (Z.to_nat (u32 (cons_e c - 1) mod INPUT_BUF))) as [ch Hch].
  { rewrite Hlen. unfold INPUT_BUF. zdm. }
  assert (Eline : line_of c = line_of (erase c) ++ [ch]).
  { unfold line_of. rewrite En. replace (u32 (cons_e c - cons_w c)) with (u32 (cons_e c - cons_w c) - 1 + 1) at 1 by lia.
    rewrite ring_snoc by lia. f_equal. f_equal. apply list_lookup_total_correct. rewrite <- Hch. do 2 f_equal.
    revert Hpos. unfold u32, INPUT_BUF. intros. zdm. }
  split; [|split; [done|by exists ch]]. split.
  - split; try done; [apply u32_range|]. revert Ho Hpos. unfold erase, u32, INPUT_BUF. fields. intros. zdm.
  - intros Hin. apply Hnl. rewrite Eline. apply elem_of_app. by left.
Qed.

(** Storing a character at the end of the line. *)
Definition store (x : Z) (c : console) : console :=
  set_cons_buf (<[Z.to_nat (cons_e c mod INPUT_BUF) := u8 x]> (cons_buf c)) (set_cons_e (u32 (cons_e c + 1)) c).

Lemma store_line x c : cons_ring c -> is_full (input_of c) = false -> 0 <= x < 256 ->
  cons_ring (store x c) /\ ready_of (store x c) = ready_of c /\ line_of (store x c) = line_of c ++ [x] /\
  u32 (cons_e (store x c) - cons_r c) = u32 (cons_e c - cons_r c) + 1.
Proof.
  intros Hok Hf Hx. destruct (cons_counts c Hok) as (E & H1 & H2).
  assert (Hroom : u32 (cons_e c - cons_r c) < INPUT_BUF).
  { apply Z.ltb_lt. by rewrite input_full, Hf. }
  destruct Hok as [Hlen Hr Hw He Ho].
  assert (Hslot : forall start n k, 0 <= k < n -> u32 (cons_e c - start) = n -> n < INPUT_BUF -> 0 <= start < 2 ^ 32 ->
    (start + k) mod INPUT_BUF <> cons_e c mod INPUT_BUF) by (unfold u32, INPUT_BUF; intros; zdm).
  split_and!.
  - split; unfold store; fields; [by rewrite length_insert|done|done|apply u32_range|].
    revert Ho Hroom. unfold u32, INPUT_BUF. intros. zdm.
  - unfold ready_of, store. fields. apply ring_insert; [done| |unfold INPUT_BUF; zdm].
    intros k Hk. eapply (Hslot _ _ k); [|reflexivity|done|done]. lia.
  - unfold line_of, store. fields.
    replace (u32 (u32 (cons_e c + 1) - cons_w c)) with (u32 (cons_e c - cons_w c) + 1)
      by (revert H2 Hroom; rewrite E; unfold u32, INPUT_BUF; intros; zdm).
    rewrite ring_snoc by lia. f_equal.
    + apply ring_insert; [done| |unfold INPUT_BUF; zdm]. intros k Hk.
      eapply (Hslot _ _ k); [exact Hk|reflexivity|lia|done].
    + f_equal. replace ((cons_w c + u32 (cons_e c - cons_w c)) mod INPUT_BUF) with (cons_e c mod INPUT_BUF)
        by (unfold u32, INPUT_BUF; zdm).
      rewrite list_lookup_total_insert_eq; [by apply u8_id|]. rewrite Hlen. unfold INPUT_BUF. zdm.
  - unfold store. fields. revert Hroom. unfold u32, INPUT_BUF. intros. zdm.
Qed.

(** Handing the line over. *)
Definition commit_line (c : console) : console := set_cons_w (cons_e c) c.

Lemma commit_line_input c : cons_ring c ->
  cons_ok (commit_line c) /\ ready_of (commit_line c) = ready_of c ++ line_of c /\ line_of (commit_line c) = [].
Proof.
  intros Hok. destruct (cons_counts c Hok) as (E & H1 & H2). destruct Hok as [Hlen Hr Hw He Ho].
  assert (El : line_of (commit_line c) = []).
  { unfold line_of, commit_line. fields. rewrite Z.sub_diag. done. }
  split_and!; [split; [split; try done|]| |done].
  - unfold commit_line. fields. lia.
  - rewrite El. apply not_elem_of_nil.
  - unfold ready_of, line_of, commit_line. fields. rewrite E, ring_app by lia. f_equal.
    rewrite <- (ring_u32 _ _ (cons_r c + _)) by (done || by exists (2 ^ 25)). f_equal. unfold u32. zdm.
Qed.

Section Editing.
Context `{World kstate} `{Uart16550}.
Context (s : kstate).
Hypothesis Hprint : printable s.
Hypothesis Hlock : lock_free L_cons s.
Hypothesis Hprocs : procs_free s.

(** The state inside [consoleintr]. *)
Definition inside (cs : console) (h : uart_hw) : kstate := set_cons cs (set_uart_dev h (acq L_cons s)).

Lemma cons_inside cs h : cons (inside cs h) = cs.
Proof. done. Qed.

Lemma inside_printable cs h out : sent (uart_dev s) h out -> printable (inside cs h).
Proof.
  intros (_ & _ & E). destruct Hprint as (Hs & Hp & Hd). split; [exact (settled_acq L_cons s Hs)|].
  split; [done|]. unfold inside. fields. congruence.
Qed.

Lemma wp_inside_putc cs h out c (Q : unit -> kstate -> Prop) :
  sent (uart_dev s) h out ->
  (forall h', sent (uart_dev s) h' (out ++ put_bytes c) -> Q tt (inside cs h')) ->
  wp (consputc c) Q (inside cs h).
Proof.
  intros Hh HQ. apply wp_consputc; [by eapply inside_printable|]. unfold inside. intros h' Hh'. fields.
  fields_in Hh'. replace (set_uart_dev h' _) with (inside cs h') by reflexivity.
  apply HQ. by eapply sent_trans.
Qed.

Lemma mjoin_replicate_S (n : nat) (l : list Z) : mjoin (replicate (S n) l) = mjoin (replicate n l) ++ l.
Proof.
  induction n as [|n IH]; [simpl; by rewrite app_nil_r|].
  change (l ++ mjoin (replicate (S n) l) = (l ++ mjoin (replicate n l)) ++ l). by rewrite IH, app_assoc.
Qed.

Lemma wp_kill_line cs h (Q : unit -> kstate -> Prop) :
  cons_ok cs -> sent (uart_dev s) h [] ->
  (forall cs' h', cons_ok cs' -> ready_of cs' = ready_of cs -> line_of cs' = [] ->
     sent (uart_dev s) h' (mjoin (replicate (length (line_of cs)) [8; 32; 8])) -> Q tt (inside cs' h')) ->
  wp kill_line Q (inside cs h).
Proof.
  intros Hok Hh HQ. unfold kill_line.
  apply (wp_iter _ (fun _ t => exists cs' h' k, t = inside cs' h' /\ cons_ok cs' /\ ready_of cs' = ready_of cs /\
      length (line_of cs) = (k + length (line_of cs'))%nat /\ sent (uart_dev s) h' (mjoin (replicate k [8; 32; 8])))
    _ (fun _ t => length (line_of (cons t)))).
  - by exists cs, h, 0%nat.
  - pose proof (length_line cs). destruct (cons_counts cs (proj1 Hok)) as (_ & _ & Hc). rewrite cons_inside. lia.
  - clear h Hh. intros [] t (cs' & h & k & -> & Hok' & Er & El & Hh). wsteps. rewrite !cons_inside.
    rewrite line_empty by done. destruct (bool_decide_reflect (line_of cs' = [])) as [Hn|Hn]; cbn [negb].
    { wsteps. apply HQ; try done. rewrite El, Hn. simpl. by rewrite Nat.add_0_r. }
    destruct (erase_line cs' Hok' Hn) as (Hok'' & Er' & ch & Hch & Eline).
    wstep. eapply wp_deref; [exact Hch|].
    assert (ch <> 10).
    { intros ->. apply (proj2 Hok'). rewrite Eline. apply elem_of_app. right. by left. }
    rewrite (proj2 (Z.eqb_neq ch 10)) by done. cbn [negb]. unfold modify_cons. wsteps.
    replace (set_cons _ (inside cs' h)) with (inside (erase cs') h) by reflexivity.
    eapply wp_inside_putc; [exact Hh|]. intros h' Hh'. wsteps. split.
    + exists (erase cs'), h', (S k). split_and!; try done; [rewrite El, Eline, length_app; simpl; lia|].
      by rewrite mjoin_replicate_S.
    + rewrite cons_inside, Eline, length_app. simpl. lia.
Qed.

Lemma wp_erase cs h (Q : unit -> kstate -> Prop) :
  cons_ok cs -> sent (uart_dev s) h [] ->
  (forall cs' h', cons_ok cs' -> ready_of cs' = ready_of cs -> line_of cs' = removelast (line_of cs) ->
     sent (uart_dev s) h' (if decide (line_of cs = []) then [] else [8; 32; 8]) -> Q tt (inside cs' h')) ->
  wp (let* cs := gets cons in
      when (negb (cons_e cs =? cons_w cs))
        (modify_cons (fun cs => set_cons_e (u32 (cons_e cs - 1)) cs) ;;; consputc BACKSPACE)) Q (inside cs h).
Proof.
  intros Hok Hh HQ. wsteps. rewrite !cons_inside, line_empty by done.
  destruct (decide (line_of cs = [])) as [Hn|Hn].
  - rewrite bool_decide_eq_true_2 by done. wsteps. apply HQ; try done. by rewrite Hn.
  - rewrite bool_decide_eq_false_2 by done. cbn [negb when]. unfold modify_cons. wsteps.
    replace (set_cons _ (inside cs h)) with (inside (erase cs) h) by reflexivity.
    destruct (erase_line cs Hok Hn) as (Hok' & Er & ch & _ & Eline).
    eapply wp_inside_putc; [exact Hh|]. intros h' Hh'. apply HQ; try done. by rewrite Eline, removelast_last.
Qed.

(** Waking the readers. *)
Definition woken (w : bool) (t : kstate) : kstate :=
  set_procs (if w then wake Ch_cons_r <$> procs s else procs s) t.

Lemma woken_no t : procs t = procs s -> woken false t = t.
Proof. unfold woken. intros <-. by destruct t. Qed.

Lemma typed_byte c : 0 <= c < 256 -> 0 <= typed c < 256.
Proof. unfold typed. destruct (c =? 13); lia. Qed.

Lemma put_typed c : 0 <= c < 256 -> put_bytes (typed c) = [typed c].
Proof.
  intros Hc. pose proof (typed_byte c Hc). unfold put_bytes.
  rewrite (proj2 (Z.eqb_neq _ _)) by (change BACKSPACE with 256; lia). by rewrite u8_id by lia.
Qed.

(** The test for a full buffer after a character was stored. *)
Lemma store_full x c : cons_ring c -> is_full (input_of c) = false -> 0 <= x < 256 ->
  (cons_e (store x c) =? u32 (cons_r c + INPUT_BUF)) = is_full (mk_input (ready_of c) (line_of c ++ [x])).
Proof.
  intros Hok Hf Hx. destruct (store_line x c Hok Hf Hx) as (Hok' & Er & El & _).
  pose proof (input_full _ Hok') as Hi. unfold input_of in Hi. rewrite Er, El in Hi.
  rewrite <- (negb_involutive (is_full _)), <- Hi. destruct Hok' as [_ Hr _ He Ho].
  change (cons_r (store x c)) with (cons_r c) in *. revert Ho Hr He.
  generalize (cons_e (store x c)) (cons_r c). clear. intros e r. unfold u32, INPUT_BUF. intros.
  destruct (Z.ltb_spec ((e - r) mod 2 ^ 32) 128) as [Hlt|Hlt]; cbn [negb]; [apply Z.eqb_neq|apply Z.eqb_eq]; zdm.
Qed.

Lemma wp_cons_input c cs h (Q : unit -> kstate -> Prop) :
  cons_ok cs -> sent (uart_dev s) h [] -> 0 <= c < 256 ->
  let i := input_of cs in
  let i' := mk_input (ready i) (line i ++ [typed c]) in
  let skip := (c =? 0) || is_full i in
  let w := negb skip && hand_over (typed c) i' in
  (forall cs' h', cons_ok cs' ->
     input_of cs' = (if skip then i else if hand_over (typed c) i' then mk_input (ready i' ++ line i') [] else i') ->
     sent (uart_dev s) h' (if skip then [] else [typed c]) -> Q tt (woken w (inside cs' h'))) ->
  wp (cons_input c) Q (inside cs h).
Proof.
  intros [Hok Hnl] Hh Hc i i' skip w HQ. unfold cons_input. wsteps. rewrite cons_inside, input_full by done.
  replace (negb (c =? 0) && negb (is_full (input_of cs))) with (negb skip) by (unfold skip; by rewrite negb_orb).
  unfold w in HQ. clear w. destruct skip eqn:Hskip; cbn [negb andb when] in *.
  { wsteps. rewrite <- (woken_no (inside cs h)) by done. by apply HQ. }
  apply orb_false_elim in Hskip as [_ Hf]. fold (typed c). cbv zeta. wstep.
  pose proof (typed_byte c Hc) as Ht. eapply wp_inside_putc; [exact Hh|]. rewrite put_typed by done.
  intros h' Hh'. unfold modify_cons. wsteps.
  replace (set_cons _ (inside cs h')) with (inside (store (typed c) cs) h') by reflexivity.
  rewrite cons_inside. destruct (store_line _ cs Hok Hf Ht) as (Hok' & Er & El & _).
  change (cons_r (store (typed c) cs)) with (cons_r cs). rewrite store_full by done.
  change ((typed c =? 10) || (typed c =? C 68) || is_full (mk_input (ready_of cs) (line_of cs ++ [typed c])))
    with (hand_over (typed c) i').
  destruct (hand_over (typed c) i') eqn:Hho; cbn [when].
  - wsteps. replace (set_cons _ _) with (inside (commit_line (store (typed c) cs)) h') by reflexivity.
    destruct (commit_line_input _ Hok') as (Hc1 & Hc2 & Hc3).
    apply wp_wakeup; [by apply (procs_free_acq L_cons)|].
    change (procs (inside _ h')) with (procs s). apply HQ; [done| |exact Hh'].
    unfold input_of. by rewrite Hc2, Hc3, Er, El.
  - wsteps. rewrite <- (woken_no (inside _ h')) by done. apply HQ; [|unfold input_of; by rewrite Er, El|exact Hh'].
    split; [done|]. rewrite El, elem_of_app, list_elem_of_singleton. intros [?|E]; [done|].
    unfold hand_over in Hho. by rewrite <- E in Hho.
Qed.
End Editing.

(** C27: the console's input interrupt handler is the line editor [edit]: for every
    character but [^P] it changes the completed input and the line being typed as
    [edit] does, keeps the invariant of the ring buffer (its indices in order, at
    most [INPUT_BUF] characters, no newline in the line being typed, also when the
    indices wrap), echoes [echo], wakes the readers exactly when it hands a line
    over, and changes nothing else. *)
Theorem consoleintr_edits `{World kstate} `{Uart16550} (c : Z) (s : kstate) :
  let i := input_of (cons s) in
  printable s -> lock_free L_cons s -> procs_free s -> cons_ok (cons s) -> 0 <= c < 256 -> c <> C 80 ->
  exists cs' h',
    consoleintr c s = Ok tt (set_procs (if wakes c i then wake Ch_cons_r <$> procs s else procs s)
      (set_cons cs' (set_uart_dev h' s))) /\
    cons_ok cs' /\ input_of cs' = edit c i /\ sent (uart_dev s) h' (echo c i).
Proof.
  intros i Hp Hl Hpr Hok Hc Hne.
  destruct (wp_run_unit (consoleintr c) (fun t => exists cs' h',
    t = woken s (wakes c i) (set_cons cs' (set_uart_dev h' s)) /\
    cons_ok cs' /\ input_of cs' = edit c i /\ sent (uart_dev s) h' (echo c i)) s) as (t & -> & cs' & h' & -> & Hpost);
    [|by exists cs', h'].
  unfold consoleintr. wstep. apply wp_acquire; [apply Hp|done|]. rewrite (proj2 (Z.eqb_neq _ _) Hne).
  assert (Hin : acq L_cons s = inside s (cons s) (uart_dev s)) by (by destruct s). rewrite Hin.
  assert (Hrel : forall cs' h' w, cons_ok cs' /\ input_of cs' = edit c i /\ sent (uart_dev s) h' (echo c i) ->
    w = wakes c i -> wp (release L_cons) (fun _ t => exists cs' h',
      t = woken s (wakes c i) (set_cons cs' (set_uart_dev h' s)) /\
      cons_ok cs' /\ input_of cs' = edit c i /\ sent (uart_dev s) h' (echo c i)) (woken s w (inside s cs' h'))).
  { intros cs' h' w Hpost ->. eapply (wp_release L_cons _ s); [apply Hp|done|done|done|done|].
    exists cs', h'. split; [|done]. unfold woken, inside. by critical. }
  wstep. unfold edit, echo, wakes in *. destruct (c =? C 85); cbn [orb negb andb] in *.
  { eapply wp_kill_line; [done..|]. intros cs' h' Hok' Er El Hh'.
    rewrite <- (woken_no s (inside s cs' h')) by done. apply Hrel; [|done].
    split; [done|]. split; [unfold input_of; by rewrite Er, El|done]. }
  destruct ((c =? C 72) || (c =? 127)) eqn:Ebs; cbn [orb negb andb] in *.
  { eapply wp_erase; [done..|]. intros cs' h' Hok' Er El Hh'.
    rewrite <- (woken_no s (inside s cs' h')) by done. apply Hrel; [|done].
    split; [done|]. split; [unfold input_of; by rewrite Er, El|done]. }
  eapply wp_cons_input; [done..|]. intros cs' h' Hok' Ei Hh'. by apply Hrel.
Qed.

(** ** A device

    A 16550 that is always ready to send. *)
#[export] Instance ideal_uart : Uart := {|
  uart_read reg h :=
    if reg =? LSR then (if bool_decide (hw_rx h = []) then LSR_TX_IDLE else Z.lor LSR_TX_IDLE LSR_RX_READY, h)
    else if reg =? RHR then
      match hw_rx h with
      | [] => (0, h)
      | c :: rest => (c, mk_uart_hw (hw_tx h) rest (hw_idle h) (hw_dlab h))
      end
    else (0, h);
  uart_write reg v h :=
    if (reg =? THR) && negb (hw_dlab h) then mk_uart_hw (v :: hw_tx h) (hw_rx h) (hw_idle h) (hw_dlab h)
    else if reg =? LCR then mk_uart_hw (hw_tx h) (hw_rx h) (hw_idle h) (Z.testbit v 7)
    else h;
  uart_patience := 10
|}.

#[export] Program Instance ideal_16550 : Uart16550 := {| uart_busy _ := 0%nat |}.
Next Obligation. intros h. simpl. lia. Qed.
Next Obligation. intros h. simpl. done. Qed.
Next Obligation. intros h. simpl. by destruct (bool_decide _). Qed.
Next Obligation. intros h. simpl. by destruct (bool_decide_reflect (hw_rx h = [])). Qed.
Next Obligation. intros h c Hd. simpl. rewrite Hd. done. Qed.
Next Obligation. intros h c rest Hd Hr. simpl. rewrite Hr. eexists. split; [reflexivity|]. by repeat split. Qed.

(** "hi" was typed; the indices are about to wrap. *)
Definition ex_console : kstate :=
  set_cons (mk_console (replicate 126 0 ++ [104; 105]) (2 ^ 32 - 2) (2 ^ 32 - 2) 0) zero_kstate.

Lemma ex_console_ok : cons_ok (cons ex_console).
Proof.
  split; [|vm_compute; set_solver]. split; [reflexivity|cbn; lia|cbn; lia|cbn; lia|].
  vm_compute. split; congruence.
Qed.

Lemma consoleintr_edits_witness : exists cs' h',
  consoleintr (H := idle_world) 13 ex_console = Ok tt (set_procs (wake Ch_cons_r <$> procs ex_console)
    (set_cons cs' (set_uart_dev h' ex_console))) /\
  input_of cs' = mk_input [104; 105; 10] [] /\ hw_tx h' = [10].
Proof.
  destruct (consoleintr_edits (H := idle_world) 13 ex_console) as (cs' & h' & Hr & Hok & Hi & Ho & _ & _).
  - split; [exact settled_zero|]. split; reflexivity.
  - by exists EmptyString.
  - exact zero_procs_free.
  - exact ex_console_ok.
  - lia.
  - vm_compute. congruence.
  - exists cs', h'. split; [exact Hr|]. split; [exact Hi|exact Ho].
Defined.
