(* ===== verification/File.v ===== *)
(** * kernel/file.c and pipealloc of kernel/pipe.c

    The file table: open files are entries with a reference count, and reading,
    writing and closing dispatch on what the file is (a pipe, an inode, a device). *)

From stdpp Require Import gmap strings list fin_maps.
From Stdlib Require Import ZArith Lia.
From S2P Require Import Prelude Machine Str State Riscv Spinlock Kalloc Vm Copy Sched.
From S2P Require Import Sleeplock Bytes Bio Cache Log Inode Dir Pipe Console.
Open Scope Z_scope.

#[local] Opaque memset st64 ld64.

(** [sizeof(struct stat)] and its bytes; [pad] is the padding before [size]. *)
Definition sizeof_stat : Z := 24.
Definition stat_bytes (st : stat) (pad : list Z) : list Z :=
  le_encode 4 (st_dev st) ++ le_encode 4 (st_ino st) ++ le_encode 2 (st_type st) ++
  le_encode 2 (st_nlink st) ++ pad ++ le_encode 8 (st_size st).

Section File.
Context `{World kstate} `{KernelImage} `{Uart} `{BlockDev}.

Definition file_ids : list nat := seq 0 (Z.to_nat NFILE).

Definition get_file {A} (f : nat) (g : file -> A) : K A :=
  let* x := gets (fun s => ftable s !! f) in
  let* x := deref x in
  ret (g x).
Definition modify_file (f : nat) (g : file -> file) : K unit :=
  let* x := gets (fun s => ftable s !! f) in
  let* x := deref x in
  modify (fun s => set_ftable (<[f := g x]> (ftable s)) s).

(* @kernel/file.c fileinit *)
Definition fileinit : K unit := initlock L_ftable "ftable".

(* @kernel/file.c filealloc *)
Definition filealloc : K (option nat) :=
  acquire L_ftable ;;;
  let* r := for_each file_ids (fun f =>
    let* ref := get_file f f_ref in
    if ref =? 0 then
      modify_file f (set_f_ref 1) ;;;
      release L_ftable ;;;
      ret (Some f)
    else ret None) in
  match r with
  | Some f => ret (Some f)
  | None =>
    release L_ftable ;;;
    ret None
  end.

(* @kernel/file.c filedup *)
Definition filedup (f : nat) : K nat :=
  acquire L_ftable ;;;
  let* ref := get_file f f_ref in
  if ref <? 1 then panic "filedup"
  else
  modify_file f (set_f_ref (i32 (ref + 1))) ;;;
  release L_ftable ;;;
  ret f.

(* @kernel/file.c fileclose *)
Definition fileclose (f : nat) : K unit :=
  acquire L_ftable ;;;
  let* ref := get_file f f_ref in
  if ref <? 1 then panic "fileclose"
  else
  modify_file f (set_f_ref (ref - 1)) ;;;
  if 0 <? ref - 1 then release L_ftable
  else
  let* ff := get_file f id in
  modify_file f (set_f_ref 0) ;;;
  modify_file f (set_f_type FD_NONE) ;;;
  release L_ftable ;;;
  match f_type ff with
  | FD_PIPE => pipeclose (f_pipe ff) (writable ff)
  | FD_INODE | FD_DEVICE =>
    begin_op ;;;
    let* ip := deref (f_ip ff) in
    iput ip ;;;
    end_op
  | FD_NONE => ret tt
  end.

(** [pad]: what the padding of the local [struct stat] held. *)
(* @kernel/file.c filestat *)
Definition filestat (pad : list Z) (f : nat) (addr : Z) : K Z :=
  let* p := myproc in
  let* type := get_file f f_type in
  if bool_decide (type = FD_INODE) || bool_decide (type = FD_DEVICE) then
    let* ip := get_file f f_ip in
    ilock ip ;;;
    let* i := deref ip in
    let* st := stati i in
    iunlock ip ;;;
    let* pt := get_pr p pagetable in
    let* r := copyout pt addr (stat_bytes st pad) sizeof_stat in
    if r <? 0 then ret (-1) else ret 0
  else ret (-1).

(** [devsw[major]] is set, and only the console sets it. *)
Definition dev_ok (major : Z) (table : list bool) : bool :=
  negb (major <? 0) && negb (NDEV <=? major) && default false (table !! Z.to_nat major).

(* @kernel/file.c fileread *)
Definition fileread (f : nat) (addr n : Z) : K Z :=
  let* rd := get_file f readable in
  if negb rd then ret (-1)
  else
  let* ff := get_file f id in
  match f_type ff with
  | FD_PIPE => piperead (f_pipe ff) addr n
  | FD_DEVICE =>
    let* table := gets devsw_read in
    if negb (dev_ok (f_major ff) table) then ret (-1)
    else consoleread true addr n
  | FD_INODE =>
    ilock (f_ip ff) ;;;
    let* ip := deref (f_ip ff) in
    let* off := get_file f f_off in
    let* (r, _) := readi ip (ToUser addr) off (u32 n) in
    when (0 <? i32 r) (modify_file f (fun x => set_f_off (u32 (f_off x + i32 r)) x)) ;;;
    iunlock (f_ip ff) ;;;
    ret (i32 r)
  | FD_NONE => panic "fileread"
  end.

(** [max] of [filewrite]. *)
Definition write_max : Z := (MAXOPBLOCKS - 1 - 1 - 2) / 2 * BSIZE.

(** The loop over the chunks of a write: the final [i]. *)
(* @kernel/file.c filewrite *)
Definition filewrite_inode (f : nat) (addr n : Z) : K Z :=
  iter (S (Z.to_nat n)) (fun i =>
    if i <? n then
      let n1 := if write_max <? n - i then write_max else n - i in
      begin_op ;;;
      let* ip := get_file f f_ip in
      ilock ip ;;;
      let* i' := deref ip in
      let* off := get_file f f_off in
      let* r := writei i' (FromUser (u64 (addr + i))) off n1 in
      when (0 <? r) (modify_file f (fun x => set_f_off (u32 (f_off x + r)) x)) ;;;
      iunlock ip ;;;
      end_op ;;;
      if r <? 0 then ret (inr i)
      else if negb (r =? n1) then panic "short filewrite"
      else ret (inl (i + r))
    else ret (inr i)) 0.

(* @kernel/file.c filewrite *)
Definition filewrite (f : nat) (addr n : Z) : K Z :=
  let* wr := get_file f writable in
  if negb wr then ret (-1)
  else
  let* ff := get_file f id in
  match f_type ff with
  | FD_PIPE => pipewrite (f_pipe ff) addr n
  | FD_DEVICE =>
    let* table := gets devsw_write in
    if negb (dev_ok (f_major ff) table) then ret (-1)
    else consolewrite true addr n
  | FD_INODE =>
    let* i := filewrite_inode f addr n in
    ret (if i =? n then n else -1)
  | FD_NONE => panic "filewrite"
  end.

(** The [bad] exit of [pipealloc]. *)
(* @kernel/pipe.c pipealloc *)
Definition pipealloc_bad (f0 f1 : option nat) : K (Z * option nat * option nat) :=
  match f0 with Some f => fileclose f | None => ret tt end ;;;
  match f1 with Some f => fileclose f | None => ret tt end ;;;
  ret (-1, f0, f1).

(** The structure at the start of the page: the lock takes 24 bytes, then comes
    [data], which keeps what the page held. *)
Definition pipe_data (m : memory) (pi : Z) : list Z := ldbytes m (pi + 24) (Z.to_nat PIPESIZE).

(** The status and the two files stored through [f0] and [f1].  The page comes last,
    so that the [bad] exit never has one to free. *)
(* @kernel/pipe.c pipealloc *)
Definition pipealloc : K (Z * option nat * option nat) :=
  let* f0 := filealloc in
  match f0 with
  | None => pipealloc_bad None None
  | Some a =>
    let* f1 := filealloc in
    match f1 with
    | None => pipealloc_bad (Some a) None
    | Some b =>
      let* pi := kalloc in
      if pi =? 0 then pipealloc_bad (Some a) (Some b)
      else
      modify (fun s => set_pipes (<[pi := mk_pipe (pipe_data (mem s) pi) 0 0 true true]> (pipes s)) s) ;;;
      initlock (L_pipe pi) "pipe" ;;;
      modify_file a (set_f_type FD_PIPE) ;;;
      modify_file a (set_readable true) ;;;
      modify_file a (set_writable false) ;;;
      modify_file a (set_f_pipe pi) ;;;
      modify_file b (set_f_type FD_PIPE) ;;;
      modify_file b (set_readable false) ;;;
      modify_file b (set_writable true) ;;;
      modify_file b (set_f_pipe pi) ;;;
      ret (0, Some a, Some b)
    end
  end.

(** ** Allocating files and pipes *)

Lemma wp_get_file {A} f (g : file -> A) x (Q : A -> kstate -> Prop) s :
  ftable s !! f = Some x -> Q (g x) s -> wp (get_file f g) Q s.
Proof. intros. unfold get_file. wsteps. done. Qed.

Lemma wp_modify_file f g x (Q : unit -> kstate -> Prop) s :
  ftable s !! f = Some x -> Q tt (set_ftable (<[f := g x]> (ftable s)) s) -> wp (modify_file f g) Q s.
Proof. intros. unfold modify_file. wsteps. done. Qed.

(** The entry [filealloc] takes. *)
Definition first_free (ft : list file) : option (nat * file) := list_find (fun x => f_ref x = 0) ft.

Lemma wp_filealloc (Q : option nat -> kstate -> Prop) s :
  settled s -> lock_free L_ftable s -> length (ftable s) = 100%nat ->
  match first_free (ftable s) with
  | Some (i, x) => Q (Some i) (set_ftable (<[i := set_f_ref 1 x]> (ftable s)) s)
  | None => Q None s
  end -> wp filealloc Q s.
Proof.
  intros Hs Hl Hlen HQ. unfold filealloc. wstep. apply wp_acquire; [done..|]. wstep.
  apply (wp_for_each _ _ (fun rest t => exists k, rest = seq k (100 - k) /\ (k <= 100)%nat /\ t = acq L_ftable s /\
            forall j x, (j < k)%nat -> ftable s !! j = Some x -> f_ref x <> 0)).
  - exists 0%nat. split; [done|]. split; [lia|]. split; [done|lia].
  - intros f rest t (k & Er & Hk & -> & Hbef). destruct (decide (k = 100%nat)) as [->|Hne]; [done|].
    replace (100 - k)%nat with (S (100 - S k)) in Er by lia. cbn [seq] in Er. injection Er as -> ->.
    destruct (lookup_lt_is_Some_2 (ftable s) k) as [x Hx]; [lia|].
    wstep. eapply wp_get_file; [exact Hx|]. destruct (Z.eqb_spec (f_ref x) 0) as [Hz|Hz].
    + assert (Hf : first_free (ftable s) = Some (k, x)).
      { apply list_find_Some. split; [done|]. split; [done|]. eauto. }
      rewrite Hf in HQ. wstep. eapply wp_modify_file; [exact Hx|]. wstep.
      eapply (wp_release L_ftable _ s); [done|done|done..|]. wsteps. critical. exact HQ.
    + wsteps. exists (S k). split; [done|]. split; [lia|]. split; [done|].
      intros j y Hj Hy. destruct (decide (j = k)) as [->|]; [congruence|]. apply (Hbef j); [lia|done].
  - intros t (k & Er & Hk & -> & Hbef). assert (k = 100%nat) as ->.
    { destruct (100 - k)%nat eqn:E; [lia|done]. }
    wstep. eapply (wp_release L_ftable _ s); [done|done|done..|]. wsteps. rewrite restore_acq.
    replace (first_free (ftable s)) with (@None (nat * file)) in HQ; [done|].
    symmetry. apply list_find_None, Forall_lookup. intros j x Hx.
    pose proof (lookup_lt_Some _ _ _ Hx). apply (Hbef j x); [lia|done].
Qed.

(** Closing a file that was just allocated. *)
Lemma wp_fileclose_new f x (Q : unit -> kstate -> Prop) s :
  settled s -> lock_free L_ftable s -> ftable s !! f = Some (set_f_ref 1 x) -> f_type x = FD_NONE -> f_ref x = 0 ->
  Q tt (set_ftable (<[f := x]> (ftable s)) s) -> wp (fileclose f) Q s.
Proof.
  intros Hs Hl Hx Ht Hr HQ. unfold fileclose. wstep. apply wp_acquire; [done..|].
  wstep. eapply wp_get_file; [exact Hx|]. fields. change (1 <? 1) with false. cbn iota.
  wstep. eapply wp_modify_file; [exact Hx|]. change (0 <? 1 - 1) with false. cbn iota.
  pose proof (lookup_lt_Some _ _ _ Hx) as Hlt.
  wstep. eapply wp_get_file; [fields; by apply list_lookup_insert_eq|].
  wstep. eapply wp_modify_file; [fields; by apply list_lookup_insert_eq|]. fields.
  wstep. eapply wp_modify_file; [fields; apply list_lookup_insert_eq; by rewrite length_insert|]. fields.
  rewrite !list_insert_insert_eq. wstep. eapply (wp_release L_ftable _ s); [done|done|done..|].
  cbn [id]. fields. rewrite Ht. wsteps. critical.
  replace (set_f_type FD_NONE _) with x; [exact HQ|]. destruct x. simpl in *. by subst.
Qed.

(** Free entries have no type. *)
Definition ftable_ok (s : kstate) : Prop :=
  length (ftable s) = 100%nat /\ forall i x, ftable s !! i = Some x -> f_ref x = 0 -> f_type x = FD_NONE.

(** The two ends of a pipe as files. *)
Definition pipe_end (pi : Z) (w : bool) (x : file) : file :=
  set_f_pipe pi (set_writable w (set_readable (negb w) (set_f_type FD_PIPE (set_f_ref 1 x)))).

(** Why [pipealloc] fails. *)
Definition no_two_files (ft : list file) : Prop :=
  first_free ft = None \/
  exists a x, first_free ft = Some (a, x) /\ first_free (<[a := set_f_ref 1 x]> ft) = None.

Lemma first_free_some ft i x : first_free ft = Some (i, x) -> ft !! i = Some x /\ f_ref x = 0.
Proof. intros (? & ? & _)%list_find_Some. done. Qed.

Lemma pipe_data_length m pi : length (pipe_data m pi) = Z.to_nat PIPESIZE.
Proof. apply length_ldbytes. Qed.

(** The last steps: the pipe and its two files. *)
Lemma wp_pipealloc_fill a b x y pi (Q : Z * option nat * option nat -> kstate -> Prop) s :
  a <> b -> ftable s !! a = Some (set_f_ref 1 x) -> ftable s !! b = Some (set_f_ref 1 y) ->
  Q (0, Some a, Some b)
    (set_ftable (<[b := pipe_end pi true y]> (<[a := pipe_end pi false x]> (ftable s)))
      (set_locks (<[L_pipe pi := mk_spinlock 0 "pipe" None]> (locks s))
        (set_pipes (<[pi := mk_pipe (pipe_data (mem s) pi) 0 0 true true]> (pipes s)) s))) ->
  wp (modify (fun s => set_pipes (<[pi := mk_pipe (pipe_data (mem s) pi) 0 0 true true]> (pipes s)) s) ;;;
      initlock (L_pipe pi) "pipe" ;;;
      modify_file a (set_f_type FD_PIPE) ;;; modify_file a (set_readable true) ;;;
      modify_file a (set_writable false) ;;; modify_file a (set_f_pipe pi) ;;;
      modify_file b (set_f_type FD_PIPE) ;;; modify_file b (set_readable false) ;;;
      modify_file b (set_writable true) ;;; modify_file b (set_f_pipe pi) ;;;
      ret (0, Some a, Some b)) Q s.
Proof.
  intros Hab Ha Hb HQ. pose proof (lookup_lt_Some _ _ _ Ha). pose proof (lookup_lt_Some _ _ _ Hb).
  unfold initlock, put_lock. do 5 wstep.
  do 4 (eapply wp_modify_file; [fields; first [exact Ha | apply list_lookup_insert_eq; rewrite ?length_insert; done]|];
        fields; rewrite ?list_insert_insert_eq; wstep).
  do 4 (eapply wp_modify_file; [fields; first [rewrite list_lookup_insert_ne by done; exact Hb
          | apply list_lookup_insert_eq; rewrite ?length_insert; done]|];
        fields; rewrite ?list_insert_insert_eq; wstep).
  exact HQ.
Qed.

Lemma set_ftable_same s ft ft' : ft = ftable s -> set_ftable ft (set_ftable ft' s) = s.
Proof. intros ->. by destruct s. Qed.

(** The [bad] exit after one or two files were allocated. *)
Lemma wp_pipealloc_bad1 a x (Q : Z * option nat * option nat -> kstate -> Prop) s :
  settled s -> lock_free L_ftable s -> ftable s !! a = Some x -> f_type x = FD_NONE -> f_ref x = 0 ->
  Q (-1, Some a, None) s ->
  wp (pipealloc_bad (Some a) None) Q (set_ftable (<[a := set_f_ref 1 x]> (ftable s)) s).
Proof.
  intros Hs Hl Hx Ht Hr HQ. pose proof (lookup_lt_Some _ _ _ Hx). unfold pipealloc_bad. wstep.
  eapply (wp_fileclose_new a x); [done|done|fields; by apply list_lookup_insert_eq|done|done|].
  rewrite set_ftable_same; [by wsteps|]. fields. rewrite list_insert_insert_eq. by apply list_insert_id.
Qed.

Lemma wp_pipealloc_bad2 a b x y (Q : Z * option nat * option nat -> kstate -> Prop) s :
  settled s -> lock_free L_ftable s -> a <> b ->
  ftable s !! a = Some x -> f_type x = FD_NONE -> f_ref x = 0 ->
  ftable s !! b = Some y -> f_type y = FD_NONE -> f_ref y = 0 ->
  Q (-1, Some a, Some b) s ->
  wp (pipealloc_bad (Some a) (Some b)) Q
    (set_ftable (<[b := set_f_ref 1 y]> (<[a := set_f_ref 1 x]> (ftable s))) s).
Proof.
  intros Hs Hl Hab Hx Htx Hrx Hy Hty Hry HQ. pose proof (lookup_lt_Some _ _ _ Hx). pose proof (lookup_lt_Some _ _ _ Hy).
  unfold pipealloc_bad. wstep.
  eapply (wp_fileclose_new a x); [done|done|fields|done|done|].
  { rewrite list_lookup_insert_ne by done. by apply list_lookup_insert_eq. }
  wstep. eapply (wp_fileclose_new b y); [done|done|fields|done|done|].
  { rewrite list_lookup_insert_ne by done. apply list_lookup_insert_eq. by rewrite length_insert. }
  match goal with |- wp _ _ ?t => assert (Ht : t = s) end; [|rewrite Ht; by wsteps].
  fields. rewrite (list_insert_insert_ne _ b a), list_insert_insert_eq, (list_insert_insert_ne _ a b) by done.
  rewrite list_insert_insert_eq, (list_insert_id _ a x Hx), (list_insert_id _ b y Hy). by destruct s.
Qed.

Lemma alloc_inv_ftable s fl ft : alloc_inv s fl -> alloc_inv (set_ftable ft s) fl.
Proof. intros [? ? ? ? ? ?]. by split. Qed.

(** A pipe was made: two distinct free files became the ends of an empty, open
    and unlocked pipe in a page taken from the free pages. *)
Definition pipe_made (s : kstate) (fl : list Z) (f0 f1 : option nat) (s' : kstate) : Prop :=
  exists a b x y pi fl' P,
    f0 = Some a /\ f1 = Some b /\ a <> b /\ fl = pi :: fl' /\ alloc_inv s' fl' /\
    ftable s !! a = Some x /\ f_ref x = 0 /\ ftable s !! b = Some y /\ f_ref y = 0 /\
    ftable s' = <[b := pipe_end pi true y]> (<[a := pipe_end pi false x]> (ftable s)) /\
    pipes s' !! pi = Some P /\ pipe_ok P /\ fifo_of P = mk_fifo [] true true /\ lock_free (L_pipe pi) s'.

Lemma pipe_made_intro a b x y pi fl s t :
  a <> b -> ftable s !! a = Some x -> f_ref x = 0 -> ftable s !! b = Some y -> f_ref y = 0 ->
  ftable t = <[b := set_f_ref 1 y]> (<[a := set_f_ref 1 x]> (ftable s)) -> alloc_inv t fl ->
  pipe_made s (pi :: fl) (Some a) (Some b)
    (set_ftable (<[b := pipe_end pi true y]> (<[a := pipe_end pi false x]> (ftable t)))
      (set_locks (<[L_pipe pi := mk_spinlock 0 "pipe" None]> (locks t))
        (set_pipes (<[pi := mk_pipe (pipe_data (mem t) pi) 0 0 true true]> (pipes t)) t))).
Proof.
  intros Hab Ha Hra Hb Hrb Hft Hal. exists a, b, x, y, pi, fl, (mk_pipe (pipe_data (mem t) pi) 0 0 true true).
  split; [done|]. split; [done|]. split; [done|]. split; [done|]. split.
  { destruct Hal as [? ? ? ? ? [nm Hnm]]. split; [done..|]. exists nm. fields. by rewrite lookup_insert_ne. }
  do 4 (split; [done|]). split.
  { fields. by rewrite Hft, (list_insert_insert_ne _ a b), !list_insert_insert_eq by done. }
  split; [fields; by rewrite lookup_insert_eq|]. split.
  { split; [apply pipe_data_length|cbn; lia|cbn; lia|]. unfold count. cbn [nwrite nread]. vm_compute. congruence. }
  split; [done|]. exists "pipe"%string. fields. by rewrite lookup_insert_eq.
Qed.

(** C29: [pipealloc] either makes a pipe or changes nothing.  It succeeds when two
    files and a page are free: the two files are distinct, the first one reads and
    the second one writes, both refer to the page taken from the allocator, which
    holds an empty pipe that is open at both ends and unlocked.  Otherwise it returns
    -1, and the file table, the free pages and everything else are as before: what
    it had allocated is given back. *)
Theorem pipealloc_spec (s : kstate) (fl : list Z) :
  image_ok -> alloc_inv s fl -> ftable_ok s -> lock_free L_ftable s ->
  exists r f0 f1 s', pipealloc s = Ok (r, f0, f1) s' /\
    (r = -1 /\ s' = s /\ (no_two_files (ftable s) \/ fl = []) \/
     r = 0 /\ pipe_made s fl f0 f1 s').
Proof.
  intros Himg Hal [Hlen Hty] Hl. pose proof (alloc_settled _ _ Hal) as Hs.
  cut (wp pipealloc (fun '(r, f0, f1) s' => r = -1 /\ s' = s /\ (no_two_files (ftable s) \/ fl = []) \/
     r = 0 /\ pipe_made s fl f0 f1 s') s).
  { intros Hw. destruct (wp_run _ _ _ Hw) as ([[r f0] f1] & s' & Hr & HP). eauto 10. }
  unfold pipealloc. wstep. apply wp_filealloc; [done..|].
  destruct (first_free (ftable s)) as [[a x]|] eqn:Ea.
  2: { unfold pipealloc_bad. wsteps. left. split; [done|]. split; [done|]. left. by left. }
  destruct (first_free_some _ _ _ Ea) as [Ha Hra]. pose proof (lookup_lt_Some _ _ _ Ha).
  wstep. apply wp_filealloc; [done|done|fields; by rewrite length_insert|]. fields.
  destruct (first_free (<[a := set_f_ref 1 x]> (ftable s))) as [[b y]|] eqn:Eb.
  2: { apply wp_pipealloc_bad1; [done|done|done|by eapply Hty|done|]. left. split; [done|]. split; [done|].
       left. right. eauto. }
  destruct (first_free_some _ _ _ Eb) as [Hb Hrb].
  assert (Hab : a <> b).
  { intros <-. rewrite list_lookup_insert_eq in Hb by done. injection Hb as <-. done. }
  rewrite list_lookup_insert_ne in Hb by done.
  wstep. destruct fl as [|pi fl].
  - apply wp_kalloc_nil; [by do 2 apply alloc_inv_ftable|]. cbn [Z.eqb]. fields.
    apply wp_pipealloc_bad2; try done; try (by eapply Hty). left. split; [done|]. split; [done|]. by right.
  - eapply (wp_kalloc_cons _ fl pi); [done|by do 2 apply alloc_inv_ftable|].
    intros Hal' Hpg Hnin. rewrite (proj2 (Z.eqb_neq _ _)) by (by apply page_ok_nonzero).
    eapply (wp_pipealloc_fill a b x y); [done|fields|fields|].
    { rewrite list_lookup_insert_ne by done. by apply list_lookup_insert_eq. }
    { apply list_lookup_insert_eq. rewrite length_insert. by eapply lookup_lt_Some. }
    right. split; [done|]. by apply pipe_made_intro.
Qed.
End File.

(** A machine with one free page and no open file. *)
Definition ex_one_page : kstate := set_freelist (PHYSTOP - PGSIZE) zero_kstate.

Lemma ex_one_page_inv : alloc_inv (H0 := ex_image) ex_one_page [PHYSTOP - PGSIZE].
Proof.
  split.
  - split; vm_compute; done.
  - apply Forall_singleton. split; vm_compute; [done|split; congruence].
  - apply NoDup_singleton.
  - intros a. vm_compute. split; congruence.
  - exact settled_zero.
  - exists ""%string. reflexivity.
Qed.

Lemma ex_one_page_ftable : ftable_ok ex_one_page.
Proof.
  split; [done|]. intros i x Hx _. change (ftable ex_one_page) with (ftable zero_kstate) in Hx.
  unfold zero_kstate in Hx. cbn [ftable] in Hx. apply lookup_replicate in Hx as [-> _]. done.
Qed.

Lemma pipealloc_spec_witness : exists r f0 f1 s',
  pipealloc (H := idle_world) (H0 := ex_image) (H2 := sync_dev) ex_one_page = Ok (r, f0, f1) s' /\
  r = 0 /\ pipe_made (H0 := ex_image) ex_one_page [PHYSTOP - PGSIZE] f0 f1 s'.
Proof.
  destruct (pipealloc_spec (H := idle_world) (H0 := ex_image) (H2 := sync_dev)
    ex_one_page [PHYSTOP - PGSIZE] ex_image_ok ex_one_page_inv ex_one_page_ftable) as (r & f0 & f1 & s' & Hr & HP).
  - exists ""%string. reflexivity.
  - exists r, f0, f1, s'. split; [exact Hr|]. destruct HP as [(_ & _ & [[Hn|(a & x & Ha & Hn)]|Hn])|HP].
    + vm_compute in Hn. discriminate Hn.
    + vm_compute in Ha. injection Ha as <- <-. vm_compute in Hn. discriminate Hn.
    + discriminate Hn.
    + exact HP.
Defined.
