(* ===== verification/Proc.v ===== *)
(** * kernel/proc.c: the life of a process

    Allocation, [fork], [exit] and [wait], process memory.  The trap frame is a page
    of memory at [p->trapframe], read and written at the offsets of
    [struct trapframe]; [p->name] is the address of the 16 bytes of the name. *)

From stdpp Require Import gmap strings list fin_maps.
From Stdlib Require Import ZArith Lia.
From S2P Require Import Prelude Machine Str State Riscv Spinlock Kalloc Vm Copy Sched.
From S2P Require Import Sleeplock Bytes Bio Log Inode Dir Pipe Console File.
Open Scope Z_scope.

#[local] Opaque memset st64 ld64.

(** ** The trap frame *)

(* @kernel/proc.h trapframe *)
Inductive tfreg :=
| kernel_satp | kernel_sp | kernel_trap | epc | kernel_hartid
| tf_ra | tf_sp | tf_gp | tf_tp | tf_t0 | tf_t1 | tf_t2 | tf_s0 | tf_s1
| tf_a0 | tf_a1 | tf_a2 | tf_a3 | tf_a4 | tf_a5 | tf_a6 | tf_a7
| tf_s2 | tf_s3 | tf_s4 | tf_s5 | tf_s6 | tf_s7 | tf_s8 | tf_s9 | tf_s10 | tf_s11
| tf_t3 | tf_t4 | tf_t5 | tf_t6.

#[export] Instance tfreg_eq_dec : EqDecision tfreg.
Proof. solve_decision. Defined.

(** The offset of a field. *)
(* @kernel/proc.h trapframe *)
Definition tf_offset (r : tfreg) : Z :=
  match r with
  | kernel_satp => 0 | kernel_sp => 8 | kernel_trap => 16 | epc => 24 | kernel_hartid => 32
  | tf_ra => 40 | tf_sp => 48 | tf_gp => 56 | tf_tp => 64 | tf_t0 => 72 | tf_t1 => 80 | tf_t2 => 88
  | tf_s0 => 96 | tf_s1 => 104
  | tf_a0 => 112 | tf_a1 => 120 | tf_a2 => 128 | tf_a3 => 136 | tf_a4 => 144 | tf_a5 => 152
  | tf_a6 => 160 | tf_a7 => 168
  | tf_s2 => 176 | tf_s3 => 184 | tf_s4 => 192 | tf_s5 => 200 | tf_s6 => 208 | tf_s7 => 216
  | tf_s8 => 224 | tf_s9 => 232 | tf_s10 => 240 | tf_s11 => 248
  | tf_t3 => 256 | tf_t4 => 264 | tf_t5 => 272 | tf_t6 => 280
  end.

Definition sizeof_trapframe : Z := 288.

(* @kernel/proc.c:200-208 initcode *)
Definition initcode : list Z := [
  0x17; 0x05; 0x00; 0x00; 0x13; 0x05; 0x45; 0x02;
  0x97; 0x05; 0x00; 0x00; 0x93; 0x85; 0x35; 0x02;
  0x93; 0x08; 0x70; 0x00; 0x73; 0x00; 0x00; 0x00;
  0x93; 0x08; 0x20; 0x00; 0x73; 0x00; 0x00; 0x00;
  0xef; 0xf0; 0x9f; 0xff; 0x2f; 0x69; 0x6e; 0x69;
  0x74; 0x00; 0x00; 0x24; 0x00; 0x00; 0x00; 0x00;
  0x00; 0x00; 0x00; 0x00 ].

Section Proc.
Context `{World kstate} `{KernelImage} `{Uart} `{BlockDev}.

(** [p->trapframe->r]; the trap frame of a process without one is not there. *)
Definition tf_get (p : nat) (r : tfreg) : K Z :=
  let* tf := get_proc p trapframe in
  if tf =? 0 then fault "trapframe" else ldm64 (tf + tf_offset r).
Definition tf_set (p : nat) (r : tfreg) (v : Z) : K unit :=
  let* tf := get_proc p trapframe in
  if tf =? 0 then fault "trapframe" else stm64 (tf + tf_offset r) v.

(* @kernel/proc.c procinit *)
Definition procinit : K unit :=
  initlock L_pid "nextpid" ;;;
  for_all proc_ids (fun p =>
    initlock (L_proc p) "proc" ;;;
    let* pa := kalloc in
    if pa =? 0 then panic "kalloc"
    else
    let va := KSTACK (Z.of_nat p) in
    kvmmap va pa PGSIZE (Z.lor PTE_R PTE_W) ;;;
    modify_proc p (set_kstack va)) ;;;
  kvminithart.

(* @kernel/proc.c proc_pagetable *)
Definition proc_pagetable (p : nat) : K Z :=
  let* pt := uvmcreate in
  if pt =? 0 then ret 0
  else
  let* r := mappages pt TRAMPOLINE PGSIZE trampoline (Z.lor PTE_R PTE_X) in
  if r <? 0 then
    uvmfree pt 0 ;;;
    ret 0
  else
  let* tf := get_proc p trapframe in
  let* r := mappages pt TRAPFRAME PGSIZE tf (Z.lor PTE_R PTE_W) in
  if r <? 0 then
    uvmunmap pt TRAMPOLINE 1 false ;;;
    uvmfree pt 0 ;;;
    ret 0
  else ret pt.

(* @kernel/proc.c proc_freepagetable *)
Definition proc_freepagetable (pt sz : Z) : K unit :=
  uvmunmap pt TRAMPOLINE 1 false ;;;
  uvmunmap pt TRAPFRAME 1 false ;;;
  uvmfree pt sz.

(* @kernel/proc.c freeproc *)
Definition freeproc (p : nat) : K unit :=
  let* tf := get_proc p trapframe in
  when (negb (tf =? 0)) (kfree tf) ;;;
  modify_proc p (set_trapframe 0) ;;;
  let* pt := get_proc p pagetable in
  let* sz := get_proc p psz in
  when (negb (pt =? 0)) (proc_freepagetable pt sz) ;;;
  modify_proc p (set_pagetable 0) ;;;
  modify_proc p (set_psz 0) ;;;
  modify_proc p (set_pid 0) ;;;
  modify_proc p (set_parent None) ;;;
  let* nm := get_proc p name in
  modify_mem (fun m => st8 m nm 0) ;;;
  modify_proc p (set_chan None) ;;;
  modify_proc p (set_killed false) ;;;
  modify_proc p (set_xstate 0) ;;;
  modify_proc p (set_state UNUSED).

(** The search: an [UNUSED] entry, whose lock is then held. *)
(* @kernel/proc.c allocproc *)
Definition allocproc_find : K (option nat) :=
  for_each proc_ids (fun p =>
    acquire (L_proc p) ;;;
    let* st := get_proc p state in
    if bool_decide (st = UNUSED) then ret (Some p)
    else
    release (L_proc p) ;;;
    ret None).

(* @kernel/proc.c allocproc *)
Definition allocproc : K (option nat) :=
  let* r := allocproc_find in
  match r with
  | None => ret None
  | Some p =>
    let* id := allocpid in
    modify_proc p (set_pid id) ;;;
    let* tf := kalloc in
    modify_proc p (set_trapframe tf) ;;;
    if tf =? 0 then
      release (L_proc p) ;;;
      ret None
    else
    let* pt := proc_pagetable p in
    modify_proc p (set_pagetable pt) ;;;
    if pt =? 0 then
      freeproc p ;;;
      release (L_proc p) ;;;
      ret None
    else
    let* ks := get_proc p kstack in
    modify_proc p (set_p_context (mk_context forkret_pc (u64 (ks + PGSIZE)) (replicate 12 0))) ;;;
    ret (Some p)
  end.

(** [safestrcpy(p->name, "...", sizeof(p->name))] for a string that fits. *)
Definition set_name (p : nat) (nm : string) : K unit :=
  let* a := get_proc p name in
  modify_mem (fun m => stbytes m a (str_bytes nm ++ [0])).

(* @kernel/proc.c userinit *)
Definition userinit : K unit :=
  let* r := allocproc in
  modify (set_initproc r) ;;;
  let* p := deref r in
  let* pt := get_proc p pagetable in
  uvminit pt initcode (Z.of_nat (length initcode)) ;;;
  modify_proc p (set_psz PGSIZE) ;;;
  tf_set p epc 0 ;;;
  tf_set p tf_sp PGSIZE ;;;
  set_name p "initcode" ;;;
  let* cw := namei [47] in
  modify_proc p (set_cwd cw) ;;;
  modify_proc p (set_state RUNNABLE) ;;;
  release (L_proc p).

(** The size is kept in a [uint]. *)
(* @kernel/proc.c growproc *)
Definition growproc (n : Z) : K Z :=
  let* p := myproc in
  let* p := deref p in
  let* sz := get_proc p psz in
  let sz := u32 sz in
  let* pt := get_proc p pagetable in
  if 0 <? n then
    let* r := uvmalloc pt sz (u32 (sz + n)) in
    if u32 r =? 0 then ret (-1)
    else
    modify_proc p (set_psz (u32 r)) ;;;
    ret 0
  else if n <? 0 then
    let* r := uvmdealloc pt sz (u32 (sz + n)) in
    modify_proc p (set_psz (u32 r)) ;;;
    ret 0
  else
    modify_proc p (set_psz sz) ;;;
    ret 0.

(** The rest of [fork] once the memory is copied. *)
(* @kernel/proc.c fork *)
Definition fork_finish (p np : nat) (sz : Z) : K Z :=
  modify_proc np (set_psz sz) ;;;
  modify_proc np (set_parent (Some p)) ;;;
  let* tf := get_proc p trapframe in
  let* ntf := get_proc np trapframe in
  modify_mem (fun m => stbytes m ntf (ldbytes m tf (Z.to_nat sizeof_trapframe))) ;;;
  tf_set np tf_a0 0 ;;;
  for_all (seq 0 (Z.to_nat NOFILE)) (fun i =>
    let* fs := get_proc p ofile in
    let* f := deref (fs !! i) in
    match f with
    | None => ret tt
    | Some f =>
      let* f' := filedup f in
      modify_proc np (fun x => set_ofile (<[i := Some f']> (ofile x)) x)
    end) ;;;
  let* cw := get_proc p cwd in
  let* cw := deref cw in
  let* cw' := idup cw in
  modify_proc np (set_cwd (Some cw')) ;;;
  let* a := get_proc p name in
  let* b := get_proc np name in
  modify_mem (fun m => safestrcpy m b a 16) ;;;
  let* id := get_proc np pid in
  modify_proc np (set_state RUNNABLE) ;;;
  release (L_proc np) ;;;
  ret id.

(* @kernel/proc.c fork *)
Definition fork : K Z :=
  let* me := myproc in
  let* r := allocproc in
  match r with
  | None => ret (-1)
  | Some np =>
    let* p := deref me in
    let* old := get_proc p pagetable in
    let* new := get_proc np pagetable in
    let* sz := get_proc p psz in
    let* c := uvmcopy old new sz in
    if c <? 0 then
      freeproc np ;;;
      release (L_proc np) ;;;
      ret (-1)
    else fork_finish p np sz
  end.

(* @kernel/proc.c reparent *)
Definition reparent (p : nat) : K unit :=
  for_all proc_ids (fun pp =>
    let* par := get_proc pp parent in
    when (bool_decide (par = Some p))
      (acquire (L_proc pp) ;;;
       let* ip := gets initproc in
       modify_proc pp (set_parent ip) ;;;
       release (L_proc pp))).

(** Closing all open files. *)
(* @kernel/proc.c exit *)
Definition exit_files (p : nat) : K unit :=
  for_all (seq 0 (Z.to_nat NOFILE)) (fun fd =>
    let* fs := get_proc p ofile in
    let* f := deref (fs !! fd) in
    match f with
    | None => ret tt
    | Some f =>
      fileclose f ;;;
      modify_proc p (fun x => set_ofile (<[fd := None]> (ofile x)) x)
    end).

(* @kernel/proc.c exit *)
Definition exit (status : Z) : K unit :=
  let* me := myproc in
  let* ip := gets initproc in
  if bool_decide (me = ip) then panic "init exiting"
  else
  let* p := deref me in
  exit_files p ;;;
  begin_op ;;;
  let* cw := get_proc p cwd in
  let* cw := deref cw in
  iput cw ;;;
  end_op ;;;
  modify_proc p (set_cwd None) ;;;
  let* ip := gets initproc in
  let* ip := deref ip in
  acquire (L_proc ip) ;;;
  wakeup1 ip ;;;
  release (L_proc ip) ;;;
  acquire (L_proc p) ;;;
  let* original_parent := get_proc p parent in
  release (L_proc p) ;;;
  let* original_parent := deref original_parent in
  acquire (L_proc original_parent) ;;;
  acquire (L_proc p) ;;;
  reparent p ;;;
  wakeup1 original_parent ;;;
  modify_proc p (set_xstate status) ;;;
  modify_proc p (set_state ZOMBIE) ;;;
  release (L_proc original_parent) ;;;
  sched ;;;
  panic "zombie exit".

(** One scan of the table: [inl r] when [wait] returns [r], with the locks
    released; otherwise whether the process has children. *)
(* @kernel/proc.c wait *)
Definition wait_scan (p : nat) (addr : Z) : K (Z + bool) :=
  iter (S (Z.to_nat NPROC)) (fun '(ps, havekids) =>
    match ps with
    | [] => ret (inr (inr havekids))
    | np :: ps =>
      let* par := get_proc np parent in
      if bool_decide (par = Some p) then
        acquire (L_proc np) ;;;
        let* st := get_proc np state in
        if bool_decide (st = ZOMBIE) then
          let* id := get_proc np pid in
          let* x := get_proc np xstate in
          let* pt := get_proc p pagetable in
          let* c := (if negb (addr =? 0) then copyout pt addr (le_encode 4 x) 4 else ret 0) in
          if c <? 0 then
            release (L_proc np) ;;;
            release (L_proc p) ;;;
            ret (inr (inl (-1)))
          else
            freeproc np ;;;
            release (L_proc np) ;;;
            release (L_proc p) ;;;
            ret (inr (inl id))
        else
          release (L_proc np) ;;;
          ret (inl (ps, true))
      else ret (inl (ps, havekids))
    end) (proc_ids, false).

(* @kernel/proc.c wait *)
Definition wait (addr : Z) : K Z :=
  let* me := myproc in
  let* p := deref me in
  acquire (L_proc p) ;;;
  iter (S world_fuel) (fun _ : unit =>
    let* r := wait_scan p addr in
    match r with
    | inl r => ret (inr r)
    | inr havekids =>
      let* kl := get_proc p killed in
      if negb havekids || kl then
        release (L_proc p) ;;;
        ret (inr (-1))
      else
        sleep (Ch_proc p) (L_proc p) ;;;
        ret (inl tt)
    end) tt.

(** ** Handing the children to init *)

Definition adopt (p : nat) (ip : option nat) (q : proc) : proc :=
  if bool_decide (parent q = Some p) then set_parent ip q else q.

Lemma wp_reparent p (Q : unit -> kstate -> Prop) s :
  settled s -> length (procs s) = 64%nat ->
  (forall i q, procs s !! i = Some q -> parent q = Some p -> lock_free (L_proc i) s) ->
  Q tt (set_procs (adopt p (initproc s) <$> procs s) s) -> wp (reparent p) Q s.
Proof.
  intros Hs Hlen Hl HQ. unfold reparent.
  eapply wp_mono; [apply (wp_for_all _ _ (fun rest s' => exists k, rest = seq k (64 - k) /\
     (k <= 64)%nat /\ s' = set_procs (map_upto k (adopt p (initproc s)) (procs s)) s))|].
  - exists 0%nat. split; [done|]. split; [lia|]. by destruct s.
  - intros pp rest s' (k & Er & Hk & ->).
    destruct (decide (k = 64%nat)) as [->|Hne]; [done|].
    replace (64 - k)%nat with (S (64 - S k)) in Er by lia. cbn [seq] in Er. injection Er as -> ->.
    destruct (lookup_lt_is_Some_2 (procs s) k) as [q Hq]; [lia|].
    wstep. eapply wp_get_proc; [fields; rewrite map_upto_lookup; exact Hq|].
    apply wp_when; intros E.
    + wstep. apply wp_acquire; [exact Hs|eapply Hl; [exact Hq|by apply bool_decide_eq_true in E]|].
      wsteps. eapply wp_modify_proc; [critical; rewrite map_upto_lookup; exact Hq|].
      eapply (wp_release (L_proc k) _ (set_procs (map_upto k (adopt p (initproc s)) (procs s)) s));
        [exact Hs|eapply Hl; [exact Hq|by apply bool_decide_eq_true in E]|done..|].
      exists (S k). split; [done|]. split; [lia|]. critical.
      rewrite <- (map_upto_step k (adopt p (initproc s)) (procs s) q Hq).
      replace (adopt p (initproc s) q) with (set_parent (initproc s) q) by (unfold adopt; by rewrite E). done.
    + exists (S k). split; [done|]. split; [lia|].
      rewrite <- (map_upto_step k (adopt p (initproc s)) (procs s) q Hq).
      replace (adopt p (initproc s) q) with q by (unfold adopt; by rewrite E).
      rewrite list_insert_id; [done|]. by rewrite map_upto_lookup.
  - intros [] s' (k & Er & Hk & ->). assert (k = 64%nat) as ->.
    { destruct (64 - k)%nat eqn:E; [lia|done]. }
    rewrite <- Hlen. by rewrite map_upto_all.
Qed.

(** When a process exits, [reparent] gives each of its children to init and
    changes nothing else (it leaves the locks and the interrupt state as they were);
    no process of the table is its child any more, so its parent pointer dangles
    nowhere when the entry is reused. *)
Theorem reparent_spec (p : nat) (s : kstate) :
  settled s -> length (procs s) = 64%nat -> initproc s <> Some p ->
  (forall i q, procs s !! i = Some q -> parent q = Some p -> lock_free (L_proc i) s) ->
  exists s', reparent p s = Ok tt s' /\ s' = set_procs (adopt p (initproc s) <$> procs s) s /\
    forall i q, procs s' !! i = Some q -> parent q <> Some p.
Proof.
  intros Hs Hlen Hi Hl.
  destruct (wp_run_unit (reparent p) (fun s' => s' = set_procs (adopt p (initproc s) <$> procs s) s) s)
    as (s' & Hr & ->); [by apply wp_reparent|].
  eexists. split; [exact Hr|]. split; [done|]. fields. intros i q Hq.
  apply list_lookup_fmap_Some in Hq as (q0 & -> & Hq0). unfold adopt.
  destruct (bool_decide_reflect (parent q0 = Some p)) as [|Hne]; [|done]. by destruct q0.
Qed.

(** ** The fields of the trap frame *)

Lemma tf_apart r r' : r <> r' -> tf_offset r + 8 <= tf_offset r' \/ tf_offset r' + 8 <= tf_offset r.
Proof. destruct r, r'; try done; simpl; lia. Qed.

Lemma wp_tf_get p r P (Q : Z -> kstate -> Prop) s : procs s !! p = Some P -> trapframe P <> 0 ->
  Q (ld64 (mem s) (trapframe P + tf_offset r)) s -> wp (tf_get p r) Q s.
Proof.
  intros HP Ht HQ. unfold tf_get. wstep. eapply wp_get_proc; [exact HP|].
  rewrite (proj2 (Z.eqb_neq _ _) Ht). unfold ldm64. by wsteps.
Qed.

Lemma wp_tf_set p r v P (Q : unit -> kstate -> Prop) s : procs s !! p = Some P -> trapframe P <> 0 ->
  Q tt (set_mem (st64 (mem s) (trapframe P + tf_offset r) v) s) -> wp (tf_set p r v) Q s.
Proof.
  intros HP Ht HQ. unfold tf_set. wstep. eapply wp_get_proc; [exact HP|].
  rewrite (proj2 (Z.eqb_neq _ _) Ht). unfold stm64, modify_mem. by wsteps.
Qed.

(** A trap frame is a record: a store to one of its 36 fields is what the next
    load of the field yields and leaves the other fields alone, and no store leaves
    the page. *)
Theorem trapframe_record (p : nat) (P : proc) (r : tfreg) (v : Z) (s : kstate) :
  procs s !! p = Some P -> trapframe P <> 0 -> 0 <= v < 2 ^ 64 ->
  exists s', tf_set p r v s = Ok tt s' /\
    (forall r', tf_get p r' s' = Ok (if decide (r' = r) then v else ld64 (mem s) (trapframe P + tf_offset r')) s') /\
    forall x, x < trapframe P \/ trapframe P + PGSIZE <= x -> ld8 (mem s') x = ld8 (mem s) x.
Proof.
  intros HP Ht Hv.
  set (s' := set_mem (st64 (mem s) (trapframe P + tf_offset r) v) s).
  destruct (wp_run_unit (tf_set p r v) (fun t => t = s') s) as (t & Hr & ->); [by eapply wp_tf_set|].
  exists s'. split; [exact Hr|]. split.
  - intros r'. destruct (wp_run (tf_get p r') (fun x t => x = ld64 (mem s') (trapframe P + tf_offset r') /\ t = s') s')
      as (x & t & -> & -> & ->); [by eapply wp_tf_get|]. f_equal. unfold s'. fields.
    destruct (decide (r' = r)) as [->|Hne]; [by apply ld64_st64_same|].
    apply ld64_st64_out. destruct (tf_apart r' r Hne); lia.
  - intros x Hx. unfold s'. fields. apply ld8_st64_out.
    assert (0 <= tf_offset r <= 280) by (destruct r; simpl; lia). revert Hx. consts. lia.
Qed.
End Proc.

(** ** A concrete table: process 2 is a child of process 1, and 0 is init *)

Definition ex_family : kstate :=
  set_initproc (Some 0%nat)
    (set_procs (<[2%nat := set_trapframe 0x87ff0000 (set_parent (Some 1%nat) zero_proc)]> (procs zero_kstate)) zero_kstate).

Lemma reparent_spec_witness : exists s',
  reparent (H := idle_world) 1 ex_family = Ok tt s' /\
  (parent <$> procs s' !! 2%nat) = Some (Some 0%nat) /\
  forall i q, procs s' !! i = Some q -> parent q <> Some 1%nat.
Proof.
  destruct (reparent_spec (H := idle_world) 1 ex_family) as (s' & Hr & Hs' & Hp).
  - exact settled_zero.
  - reflexivity.
  - discriminate.
  - intros i q Hq _. destruct zero_procs_free as (_ & Hf & _). apply Hf.
    apply lookup_lt_Some in Hq. exact Hq.
  - exists s'. split; [exact Hr|]. split; [|exact Hp]. rewrite Hs'. reflexivity.
Defined.

Lemma trapframe_record_witness : exists s',
  tf_set 2 tf_a0 7 ex_family = Ok tt s' /\ tf_get 2 tf_a0 s' = Ok 7 s'.
Proof.
  destruct (trapframe_record 2 (set_trapframe 0x87ff0000 (set_parent (Some 1%nat) zero_proc)) tf_a0 7 ex_family)
    as (s' & Hr & Hg & _).
  - reflexivity.
  - discriminate.
  - lia.
  - exists s'. split; [exact Hr|exact (Hg tf_a0)].
Defined.
