(* ===== verification/Fork.v ===== *)
(** * kernel/proc.c: fork

    [fork] puts the parts together: a free entry of the process table, a process
    id, a trap frame and a page table for the child ([allocproc]), a copy of the
    parent's memory ([Uvm]), and references to its files and directory.  The
    theorem describes the state after a [fork] that has the memory it needs. *)

From stdpp Require Import gmap strings list fin_maps.
From Stdlib Require Import ZArith Lia.
From S2P Require Import Prelude Machine Str State Riscv Spinlock Kalloc Vm Copy Uvm Sched Sleeplock Bytes Bio Log Op Inode Dir Content Pipe Console File Proc.
Open Scope Z_scope.

Lemma safestrcpy_frame m s t x : x < s \/ s + 16 <= x -> ld8 (safestrcpy m s t 16) x = ld8 m x.
Proof. intros Hx. unfold safestrcpy. cbn [Z.leb Z.compare]. apply safestrcpy_loop_frame. lia. Qed.

Lemma safestrcpy_bytes m s t n : mem_bytes m -> mem_bytes (safestrcpy m s t n).
Proof.
  intros Hm. unfold safestrcpy. destruct (n <=? 0); [done|]. generalize (Z.to_nat (n - 1)). clear n. intros n.
  assert (H0 : is_byte 0) by (split; lia).
  revert m s t Hm. induction n as [|n IH]; intros m s t Hm; cbn [safestrcpy_loop]; [by apply st8_bytes|].
  destruct (negb _); [apply IH|apply st8_bytes; [|done]]; (apply st8_bytes; [done|apply Hm]).
Qed.

Lemma safestrcpy_strn m s t : s + 16 <= t \/ t + 16 <= s -> strn (safestrcpy m s t 16) s 16 = strn m t 15.
Proof. intros Hd. unfold safestrcpy. cbn [Z.leb Z.compare]. apply safestrcpy_loop_strn. lia. Qed.

#[local] Opaque memset st64 ld64 memmove stbytes ldbytes safestrcpy.
#[local] Abbreviation zlen ps := (Z.of_nat (length ps)).

(** States are equal when their fields are. *)
Lemma kstate_ext (a b : kstate) :
  hart a = hart b -> cpus a = cpus b -> locks a = locks b -> slocks a = slocks b -> mem a = mem b ->
  freelist a = freelist b -> kernel_pagetable a = kernel_pagetable b -> procs a = procs b ->
  initproc a = initproc b -> nextpid a = nextpid b -> ticks a = ticks b -> ftable a = ftable b ->
  pipes a = pipes b -> bcache a = bcache b -> disk a = disk b -> dtrace a = dtrace b ->
  klog a = klog b -> sb a = sb b -> icache a = icache b -> devsw_read a = devsw_read b ->
  devsw_write a = devsw_write b -> cons a = cons b -> uart a = uart b -> uart_dev a = uart_dev b ->
  pr_locking a = pr_locking b -> panicked a = panicked b -> first a = first b -> clock a = clock b -> a = b.
Proof. destruct a, b. cbn. intros. by subst. Qed.
Ltac state_eq := apply kstate_ext; fields; reflexivity.

Section Fork.
Context `{World kstate} `{KernelImage} `{Uart} `{BlockDev}.

(** ** The allocator inside a critical section *)

Lemma alloc_inv_eq s t l :
  mem t = mem s -> freelist t = freelist s -> hart t = hart s -> cpus t = cpus s -> locks t = locks s ->
  alloc_inv s l -> alloc_inv t l.
Proof.
  intros Em Ef Eh Ec El [Hl Hp Hn Hb Hs Hk]. split; rewrite ?Em, ?Ef; try done.
  - unfold settled, this_cpu, intr in *. by rewrite Eh, Ec.
  - unfold lock_free in *. by rewrite El.
Qed.

(** The free list of one state with the locks of another. *)
Lemma alloc_inv_mix t a b l l' :
  mem t = mem a -> freelist t = freelist a -> hart t = hart b -> cpus t = cpus b -> locks t = locks b ->
  alloc_inv a l -> alloc_inv b l' -> alloc_inv t l.
Proof.
  intros Em Ef Eh Ec El [Hl Hp Hn Hb _ _] [_ _ _ _ Hs Hk]. split; rewrite ?Em, ?Ef; try done.
  - unfold settled, this_cpu, intr in *. by rewrite Eh, Ec.
  - unfold lock_free in *. by rewrite El.
Qed.

(** Updates of the other fields keep it. *)
Lemma alloc_inv_procs v s l : alloc_inv s l -> alloc_inv (set_procs v s) l.
Proof. by apply alloc_inv_eq. Qed.
Lemma alloc_inv_nextpid v s l : alloc_inv s l -> alloc_inv (set_nextpid v s) l.
Proof. by apply alloc_inv_eq. Qed.

Lemma alloc_inv_acq lk s l : lk <> L_kmem -> alloc_inv s l -> alloc_inv (acq lk s) l.
Proof.
  intros Hne [Hl Hp Hn Hb Hs Hk]. split; try done; [by apply settled_acq|by apply lock_free_acq].
Qed.

(** ** The entry, the process id and the references *)

Lemma wp_allocproc_find np P (Q : option nat -> kstate -> Prop) s :
  settled s -> (np < 64)%nat -> procs s !! np = Some P -> state P = UNUSED -> lock_free (L_proc np) s ->
  (forall i, (i < np)%nat -> lock_free (L_proc i) s /\ exists R, procs s !! i = Some R /\ state R <> UNUSED) ->
  Q (Some np) (acq (L_proc np) s) -> wp allocproc_find Q s.
Proof.
  intros Hs Hlt HP Hst Hl Hbefore HQ. unfold allocproc_find, proc_ids.
  replace (seq 0 (Z.to_nat NPROC)) with (seq 0 np ++ np :: seq (S np) (63 - np))
    by (change (Z.to_nat NPROC) with 64%nat; replace 64%nat with (np + S (63 - np))%nat by lia;
        rewrite seq_app; done).
  apply (wp_for_each_find _ _ _ _ (fun t => t = s)); [done| |].
  - intros i t Hi ->. apply elem_of_seq in Hi. destruct (Hbefore i) as (Hli & R & HR & Hne); [lia|].
    wstep. apply wp_acquire; [done..|]. wstep. eapply wp_get_proc; [exact HR|].
    rewrite bool_decide_eq_false_2 by done. wstep. eapply (wp_release _ _ s); [done..|].
    wsteps. split; [done|]. apply restore_acq.
  - intros t ->. wstep. apply wp_acquire; [done..|]. wstep. eapply wp_get_proc; [exact HP|].
    rewrite bool_decide_eq_true_2 by done. wsteps. done.
Qed.

Lemma wp_allocpid (Q : Z -> kstate -> Prop) s :
  settled s -> lock_free L_pid s -> Q (nextpid s) (set_nextpid (i32 (nextpid s + 1)) s) -> wp allocpid Q s.
Proof.
  intros Hs Hl HQ. unfold allocpid. wstep. apply wp_acquire; [done..|]. wsteps.
  eapply (wp_release L_pid _ s); [done..|]. wsteps. critical. exact HQ.
Qed.

Lemma wp_filedup f x (Q : nat -> kstate -> Prop) s :
  settled s -> lock_free L_ftable s -> ftable s !! f = Some x -> 1 <= f_ref x < 2 ^ 31 - 1 ->
  Q f (set_ftable (<[f := set_f_ref (f_ref x + 1) x]> (ftable s)) s) -> wp (filedup f) Q s.
Proof.
  intros Hs Hl Hx Hr HQ. unfold filedup. wstep. apply wp_acquire; [done..|]. wstep.
  eapply wp_get_file; [exact Hx|]. rewrite (proj2 (Z.ltb_ge _ _)) by lia. wstep.
  eapply wp_modify_file; [exact Hx|]. wstep. eapply (wp_release L_ftable _ s); [done..|]. wsteps.
  rewrite i32_id by lia. critical. exact HQ.
Qed.

(** ** A page table for a process *)

Lemma zero_table m p l : page_ok p -> p ∉ l -> (forall i, 0 <= i < 512 -> ld64 m (p + 8 * i) = 0) ->
  pt_inv m p l /\ (forall path q, path_ok path -> pt_page m p path = Some q -> q = p) /\
  (forall va, leaf_pte m p va = 0).
Proof.
  intros Hp Hl Hz.
  assert (Hpg : forall path q, path_ok path -> pt_page m p path = Some q -> path = [] /\ q = p).
  { intros [|i path] q [_ Hf]; [by intros [= <-]|]. apply Forall_cons in Hf as [Hi _]. cbn [pt_page].
    by rewrite zero_entry by auto. }
  split; [split|split].
  - intros path q Hok [_ ->]%Hpg; done.
  - intros path path' q Hok Hok' [-> _]%Hpg [-> _]%Hpg; done.
  - intros path q Hok Hq. by apply Hpg in Hq as [_ ->].
  - intros va. unfold leaf_pte, leaf_addr. destruct (pt_page _ _ _) as [q|] eqn:E; [|done].
    by apply Hpg in E as [? _]; [|apply path_ok_va].
Qed.

(** What [proc_pagetable] makes from the free pages [l]: a page table of its own
    pages that maps the trampoline and the trap frame and nothing else. *)
Record fresh_table (s : kstate) (l : list Z) (tf pt : Z) (s' : kstate) (l' : list Z) : Prop := {
  ft_state : s' = set_freelist (freelist s') (set_mem (mem s') s);
  ft_alloc : alloc_inv s' l';
  ft_pt : pt_inv (mem s') pt l';
  ft_sub : forall q, q ∈ l' -> q ∈ l;
  ft_cost : zlen l <= zlen l' + 5;
  ft_tables : forall path q, path_ok path -> pt_page (mem s') pt path = Some q -> q ∈ l;
  ft_leaf : forall va, 0 <= va < MAXVA -> leaf_pte (mem s') pt va =
    if va / PGSIZE =? TRAPFRAME / PGSIZE then make_pte tf (Z.lor PTE_R PTE_W)
    else if va / PGSIZE =? TRAMPOLINE / PGSIZE then make_pte trampoline (Z.lor PTE_R PTE_X) else 0;
  ft_frame : forall q, q mod PGSIZE = 0 -> q ∉ l -> same_page (mem s) (mem s') q
}.

Lemma mapped_one va pa perm old va' : mapped (va / PGSIZE) 1 pa perm old va' =
  if va' / PGSIZE =? va / PGSIZE then make_pte pa perm else old va'.
Proof.
  change 1 with (0 + 1). rewrite mapped_S by lia. rewrite Z.add_0_r, mapped_0.
  destruct (_ =? _); [f_equal; lia|done].
Qed.

(** One page mapped with enough memory. *)
Lemma wp_map_one root s l va pa perm (Q : Z -> kstate -> Prop) :
  image_ok -> alloc_inv s l -> pt_inv (mem s) root l -> 0 <= va < MAXVA -> va mod PGSIZE = 0 ->
  0 <= pa <= 2 ^ 56 - PGSIZE -> 0 <= perm < 1024 ->
  (forall va', 0 <= va' < MAXVA -> va' / PGSIZE = va / PGSIZE -> has (leaf_pte (mem s) root va') PTE_V = false) ->
  2 <= zlen l ->
  (forall s' l', pt_step root s l s' l' -> zlen l <= zlen l' + 2 ->
     (forall va', 0 <= va' < MAXVA -> leaf_pte (mem s') root va' =
        if va' / PGSIZE =? va / PGSIZE then make_pte pa perm else leaf_pte (mem s) root va') -> Q 0 s') ->
  wp (mappages root va PGSIZE pa perm) Q s.
Proof.
  intros Himg Ha Hp Hva Hal Hpa Hperm Hun Hl HQ.
  assert (Esp : span va PGSIZE = 1) by (unfold span; consts; zdm).
  assert (Hmax : va + PGSIZE <= MAXVA) by (consts; zdm).
  eapply wp_mono; [apply (wp_mappages root s l va PGSIZE pa perm); try done; try (rewrite ?Esp; clia)|].
  - rewrite Esp. intros va' Hv Hpg. apply Hun; [done|lia].
  - cbv beta. rewrite Esp. intros r s' (l' & k & [Hst Hlf] & [(-> & -> & Hc)|(_ & _ & _ & Hc)]); [|lia].
    eapply HQ; [exact Hst|lia|]. intros va' Hv. by rewrite Hlf, mapped_one.
Qed.

Lemma wp_uvmcreate s pt l (Q : Z -> kstate -> Prop) :
  image_ok -> alloc_inv s (pt :: l) ->
  (forall s', s' = set_freelist (freelist s') (set_mem (mem s') s) -> alloc_inv s' l -> page_ok pt -> pt ∉ l ->
     (forall i, 0 <= i < 512 -> ld64 (mem s') (pt + 8 * i) = 0) ->
     (forall q, q mod PGSIZE = 0 -> q <> pt -> same_page (mem s) (mem s') q) -> Q pt s') ->
  wp uvmcreate Q s.
Proof.
  intros Himg Ha HQ. unfold uvmcreate. wstep. eapply wp_kalloc_cons; [done|exact Ha|]. intros Ha1 Hpt Hptl.
  rewrite (proj2 (Z.eqb_neq _ _) (page_ok_nonzero pt Himg Hpt)). unfold modify_mem. wsteps.
  apply HQ; fields; [reflexivity| |done|done| |].
  - apply alloc_inv_mem; [done|apply memset_bytes; [clia|apply Ha1]|]. fields. intros q Hq.
    apply same_page_memset; [apply Hpt|by apply (proj1 (Forall_forall _ _) (alloc_pages _ _ Ha1))|by intros ->].
  - intros i Hi. by apply ld64_memset_zero.
  - intros q Hq Hne. eapply same_page_trans; apply same_page_memset; (done || apply Hpt).
Qed.

Lemma wp_proc_pagetable s l p P (Q : Z -> kstate -> Prop) :
  image_ok -> alloc_inv s l -> procs s !! p = Some P -> 0 <= trapframe P <= 2 ^ 56 - PGSIZE ->
  0 <= trampoline <= 2 ^ 56 - PGSIZE -> 5 <= zlen l ->
  (forall pt s' l', pt <> 0 -> fresh_table s l (trapframe P) pt s' l' -> Q pt s') ->
  wp (proc_pagetable p) Q s.
Proof.
  intros Himg Ha HP Htf Htr Hl HQ. unfold proc_pagetable.
  destruct l as [|pt l1]; [simpl in Hl; lia|]. cbn [length] in Hl. wstep.
  apply (wp_uvmcreate s pt l1); [done|done|]. intros s1 Es1 Ha1 Hpt Hptl Hz Hfr1.
  pose proof (page_ok_nonzero pt Himg Hpt) as Hnz. rewrite (proj2 (Z.eqb_neq _ _) Hnz). wstep.
  destruct (zero_table (mem s1) pt l1 Hpt Hptl Hz) as (Hinv1 & Hpg1 & Hlf1).
  apply (wp_map_one pt s1 l1); [done..|by consts|reflexivity|lia|done|intros; by rewrite Hlf1|lia|].
  intros s2 l2 Hst2 Hc2 Hlf2. cbn [Z.ltb Z.compare]. wstep.
  eapply wp_get_proc; [rewrite (step_state _ _ _ _ _ Hst2), Es1; fields; exact HP|]. wstep.
  apply (wp_map_one pt s2 l2); [done|apply Hst2|apply Hst2|by consts|reflexivity|lia|done| |lia|].
  { intros va' Hv Hpg. rewrite Hlf2, Hpg, Hlf1 by done. done. }
  intros s3 l3 Hst3 Hc3 Hlf3. cbn [Z.ltb Z.compare]. wsteps.
  pose proof (pt_step_trans _ _ _ _ _ _ _ Hst2 Hst3) as Hst. apply (HQ pt s3 l3); [done|].
  destruct (step_free _ _ _ _ _ Hst) as [used Hused]. split.
  - rewrite (step_state _ _ _ _ _ Hst), Es1. by fields.
  - apply Hst.
  - apply Hst.
  - intros q Hq. right. rewrite Hused. apply elem_of_app. by right.
  - cbn [length]. lia.
  - intros path q Hok E. destruct (step_new _ _ _ _ _ Hst path q Hok E) as [E1|]; [|by right].
    apply Hpg1 in E1; [|done]. rewrite E1. by left.
  - intros va Hva. rewrite Hlf3, Hlf2, Hlf1 by done. done.
  - intros q Hq [Hqp Hql]%not_elem_of_cons. eapply same_page_trans; [by apply Hfr1|].
    apply (step_frame _ _ _ _ _ Hst); [done|done|]. intros path Hok E. apply Hpg1 in E; done.
Qed.

(** ** allocproc *)

(** The entry of a new process. *)
Definition newborn (P : proc) (id tf pt : Z) : proc :=
  set_p_context (mk_context forkret_pc (u64 (kstack P + PGSIZE)) (replicate 12 0))
    (set_pagetable pt (set_trapframe tf (set_pid id P))).

(** The free entry [np] has become a process with trap frame [tf] and page table
    [pt], and its lock is held. *)
Record born (s : kstate) (l : list Z) (np : nat) (P : proc) (tf pt : Z) (s' : kstate) (l' : list Z) : Prop := {
  bn_state : s' = set_procs (<[np := newborn P (nextpid s) tf pt]> (procs s))
    (set_nextpid (i32 (nextpid s + 1)) (set_freelist (freelist s') (set_mem (mem s') (acq (L_proc np) s))));
  bn_alloc : alloc_inv s' l';
  bn_pt : pt_inv (mem s') pt l';
  bn_tf : page_ok tf /\ tf ∈ l /\ (tf ∉ l') /\ no_table (mem s') pt tf;
  bn_sub : forall q, q ∈ l' -> q ∈ l;
  bn_cost : zlen l <= zlen l' + 6;
  bn_tables : forall path q, path_ok path -> pt_page (mem s') pt path = Some q -> q ∈ l;
  bn_leaf : forall va, 0 <= va < MAXVA -> leaf_pte (mem s') pt va =
    if va / PGSIZE =? TRAPFRAME / PGSIZE then make_pte tf (Z.lor PTE_R PTE_W)
    else if va / PGSIZE =? TRAMPOLINE / PGSIZE then make_pte trampoline (Z.lor PTE_R PTE_X) else 0;
  bn_frame : forall q, q mod PGSIZE = 0 -> q ∉ l -> same_page (mem s) (mem s') q
}.

(** An entry the search of [allocproc] finds first. *)
Record vacant (s : kstate) (np : nat) (P : proc) : Prop := {
  vc_range : (np < 64)%nat;
  vc_entry : procs s !! np = Some P;
  vc_unused : state P = UNUSED;
  vc_lock : lock_free (L_proc np) s;
  vc_before : forall i, (i < np)%nat -> lock_free (L_proc i) s /\ exists R, procs s !! i = Some R /\ state R <> UNUSED
}.

Lemma wp_allocproc s l np P (Q : option nat -> kstate -> Prop) :
  image_ok -> alloc_inv s l -> vacant s np P -> lock_free L_pid s ->
  0 <= trampoline <= 2 ^ 56 - PGSIZE -> 6 <= zlen l ->
  (forall tf pt s' l', pt <> 0 -> tf <> 0 -> born s l np P tf pt s' l' -> Q (Some np) s') ->
  wp allocproc Q s.
Proof.
  intros Himg Ha [Hlt HP Hun Hlk Hbf] Hpid Htr Hl HQ. unfold allocproc. wstep.
  eapply wp_allocproc_find; [apply Ha|done..|].
  pose proof (alloc_inv_acq (L_proc np) s l ltac:(done) Ha) as Ha1. set (s1 := acq (L_proc np) s) in *.
  assert (Ep : procs s1 = procs s) by done. assert (En : nextpid s1 = nextpid s) by done.
  wstep. apply wp_allocpid; [apply Ha1|by apply lock_free_acq|]. wstep.
  eapply wp_modify_proc; [fields; rewrite Ep; exact HP|]. fields. rewrite Ep, En. wstep.
  set (s2 := set_procs _ _). assert (Ha2 : alloc_inv s2 l) by (apply alloc_inv_procs, alloc_inv_nextpid, Ha1).
  destruct l as [|tf l1]; [simpl in Hl; lia|]. cbn [length] in Hl.
  eapply wp_kalloc_cons; [done|exact Ha2|]. intros Ha3 Htf Htfl. wstep.
  pose proof (page_ok_nonzero tf Himg Htf) as Htf0.
  eapply wp_modify_proc; [unfold s2; fields; apply list_lookup_insert_eq; by eapply lookup_lt_Some|].
  set (s3 := set_procs _ _).
  assert (Ha4 : alloc_inv s3 l1) by (apply alloc_inv_procs, Ha3).
  assert (Ep3 : procs s3 = <[np := set_trapframe tf (set_pid (nextpid s) P)]> (procs s))
    by (unfold s3, s2; fields; by rewrite list_insert_insert_eq).
  assert (Hlen : (np < length (procs s))%nat) by (by eapply lookup_lt_Some).
  rewrite (proj2 (Z.eqb_neq _ _) Htf0). wstep. pose proof (page_ok_range tf Himg Htf) as Hrng.
  eapply (wp_proc_pagetable s3 l1 np); [done|done|rewrite Ep3; by apply list_lookup_insert_eq|
    change (0 <= tf <= 2 ^ 56 - PGSIZE); clia|done|lia|].
  intros pt s4 l4 Hpt [Es4 Ha5 Hi4 Hsub Hc Htab Hlf Hfr].
  assert (Ep4 : procs s4 = procs s3) by (by rewrite Es4). wstep.
  eapply wp_modify_proc; [rewrite Ep4, Ep3; by apply list_lookup_insert_eq|].
  rewrite Ep4, Ep3, list_insert_insert_eq, (proj2 (Z.eqb_neq _ _) Hpt). wstep.
  eapply wp_get_proc; [fields; by apply list_lookup_insert_eq|]. wstep.
  eapply wp_modify_proc; [fields; by apply list_lookup_insert_eq|]. fields. rewrite list_insert_insert_eq.
  wsteps. apply (HQ tf pt _ l4); [done|done|]. split; fields.
  - rewrite Es4. unfold s3, s2. state_eq.
  - apply alloc_inv_procs, Ha5.
  - done.
  - split; [done|]. split; [by left|]. split; [intros Hq; by apply Htfl, Hsub|].
    intros path Hok E. by apply Htfl, (Htab path).
  - intros q Hq. right. by apply Hsub.
  - cbn [length]. lia.
  - intros path q Hok E. right. by apply (Htab path).
  - exact Hlf.
  - intros q Hq [Hqt Hql]%not_elem_of_cons. eapply same_page_trans; [|by apply Hfr].
    unfold s3, s2. fields. apply same_page_memset; [apply Htf|done|by intros ->].
Qed.

(** ** The open files *)

Definition share (x : file) : file := set_f_ref (f_ref x + 1) x.

(** One more reference for each descriptor of the list. *)
Fixpoint dup_files (fs : list (option nat)) (ft : list file) : list file :=
  match fs with
  | [] => ft
  | None :: fs => dup_files fs ft
  | Some f :: fs => dup_files fs (alter share f ft)
  end.

Definition uses (f : nat) (fs : list (option nat)) : Z := zlen (filter (fun o => o = Some f) fs).

Lemma uses_cons f o fs : uses f (o :: fs) = (if decide (o = Some f) then 1 else 0) + uses f fs.
Proof. unfold uses. rewrite filter_cons. destruct (decide _); cbn [length]; lia. Qed.

Lemma uses_nonneg f fs : 0 <= uses f fs <= zlen fs.
Proof. unfold uses. pose proof (length_filter (fun o => o = Some f) fs). lia. Qed.

Lemma set_f_ref_same x : set_f_ref (f_ref x) x = x.
Proof. by destruct x. Qed.

Lemma dup_files_lookup fs ft f x : ft !! f = Some x ->
  dup_files fs ft !! f = Some (set_f_ref (f_ref x + uses f fs) x).
Proof.
  revert ft x. induction fs as [|[g|] fs IH]; intros ft x Hx; cbn [dup_files].
  - change (uses f []) with 0. by rewrite Z.add_0_r, set_f_ref_same.
  - rewrite uses_cons. destruct (decide (Some g = Some f)) as [[= ->]|Hne].
    + rewrite (IH _ (share x)); [|by rewrite list_lookup_alter_eq, Hx].
      unfold share. fields. do 2 f_equal. lia.
    + rewrite (IH _ x); [done|]. rewrite list_lookup_alter_ne by congruence. done.
  - rewrite uses_cons. destruct (decide _); [done|]. by apply IH.
Qed.

Lemma dup_files_snoc fs o ft : dup_files (fs ++ [o]) ft =
  match o with Some f => alter share f (dup_files fs ft) | None => dup_files fs ft end.
Proof.
  revert ft. induction fs as [|[g|] fs IH]; intros ft; cbn [app dup_files]; [by destruct o|..]; by rewrite IH.
Qed.

Lemma uses_take f fs k : uses f (take k fs) <= uses f fs.
Proof.
  rewrite <- (take_drop k fs) at 2. unfold uses. rewrite filter_app, length_app. lia.
Qed.

(** The descriptors copied so far. *)
Definition dup_upto (k : nat) (fs : list (option nat)) (N : proc) : proc :=
  set_ofile (take k fs ++ replicate (16 - k) None) N.

Lemma dup_upto_S k fs N o : length fs = 16%nat -> fs !! k = Some o ->
  set_ofile (<[k := o]> (take k fs ++ replicate (16 - k) None)) N = dup_upto (S k) fs N /\
  (o = None -> dup_upto (S k) fs N = dup_upto k fs N).
Proof.
  intros Hlen Ho. pose proof (lookup_lt_Some _ _ _ Ho) as Hk. unfold dup_upto.
  rewrite (take_S_r _ _ _ Ho), <- app_assoc.
  replace (16 - k)%nat with (S (16 - S k)) by lia. cbn [replicate app]. split; [|by intros ->].
  rewrite insert_app_r_alt by (rewrite length_take; lia). rewrite length_take, Nat.min_l, Nat.sub_diag by lia. done.
Qed.

Lemma wp_dup_files s p np P N (Q : unit -> kstate -> Prop) :
  settled s -> lock_free L_ftable s -> procs s !! p = Some P -> procs s !! np = Some N -> p <> np ->
  length (ofile P) = 16%nat -> ofile N = replicate 16 None ->
  (forall f, Some f ∈ ofile P -> exists x, ftable s !! f = Some x /\ 1 <= f_ref x < 2 ^ 31 - 17) ->
  Q tt (set_ftable (dup_files (ofile P) (ftable s)) (set_procs (<[np := set_ofile (ofile P) N]> (procs s)) s)) ->
  wp (for_all (seq 0 (Z.to_nat NOFILE)) (fun i =>
      let* fs := get_proc p ofile in
      let* f := deref (fs !! i) in
      match f with
      | None => ret tt
      | Some f =>
        let* f' := filedup f in
        modify_proc np (fun x => set_ofile (<[i := Some f']> (ofile x)) x)
      end)) Q s.
Proof.
  intros Hs Hl HP HN Hne Hlen Hof Hfiles HQ. change (Z.to_nat NOFILE) with 16%nat.
  assert (Hnl : (np < length (procs s))%nat) by (by eapply lookup_lt_Some).
  eapply wp_mono; [apply (wp_for_all _ _ (fun rest t => exists k, rest = seq k (16 - k) /\ (k <= 16)%nat /\
    t = set_ftable (dup_files (take k (ofile P)) (ftable s))
          (set_procs (<[np := dup_upto k (ofile P) N]> (procs s)) s)))|].
  - exists 0%nat. split; [done|]. split; [lia|]. unfold dup_upto. rewrite take_0. cbn [app dup_files]. change (16 - 0)%nat with 16%nat. rewrite <- Hof.
    replace (set_ofile (ofile N) N) with N by (by destruct N). rewrite (list_insert_id _ _ _ HN). by destruct s.
  - intros i rest t (k & E & Hk & ->). destruct (decide (k = 16%nat)) as [->|]; [done|].
    replace (16 - k)%nat with (S (16 - S k)) in E by lia. cbn [seq] in E. injection E as -> ->.
    destruct (lookup_lt_is_Some_2 (ofile P) k) as [o Ho]; [lia|]. pose proof (take_S_r _ _ _ Ho) as Et.
    wstep. eapply wp_get_proc; [fields; rewrite list_lookup_insert_ne by done; exact HP|]. wstep.
    eapply wp_deref; [exact Ho|]. destruct o as [f|].
    + destruct (Hfiles f (list_elem_of_lookup_2 _ _ _ Ho)) as (x & Hx & Hr).
      pose proof (dup_files_lookup (take k (ofile P)) _ _ _ Hx) as Hx'.
      pose proof (uses_nonneg f (take k (ofile P))) as Hu. rewrite length_take in Hu.
      wstep. eapply wp_filedup; [exact Hs|exact Hl|exact Hx'|fields; lia|].
      eapply wp_modify_proc; [fields; by apply list_lookup_insert_eq|].
      exists (S k). split; [done|]. split; [lia|]. fields. rewrite list_insert_insert_eq, Et, dup_files_snoc.
      rewrite (list_alter_insert _ _ _ _ Hx'). unfold share, dup_upto at 1. fields.
      destruct (dup_upto_S k (ofile P) N (Some f) Hlen Ho) as [E _]. rewrite <- E. unfold dup_upto. by fields.
    + wsteps. exists (S k). split; [done|]. split; [lia|]. rewrite Et, dup_files_snoc.
      by rewrite (proj2 (dup_upto_S k (ofile P) N None Hlen Ho) eq_refl).
  - cbv beta. intros [] t (k & E & Hk & ->). assert (k = 16%nat) as ->.
    { destruct (16 - k)%nat eqn:E'; [lia|done]. }
    unfold dup_upto. rewrite take_ge by lia. cbn [Nat.sub replicate]. by rewrite app_nil_r.
Qed.

(** ** The trap frame and the name of the child *)

Definition fork_mem (m : memory) (tf ptf nm pnm : Z) : memory :=
  safestrcpy (st64 (stbytes m tf (ldbytes m ptf (Z.to_nat sizeof_trapframe))) (tf + tf_offset tf_a0) 0) nm pnm 16.

Section ForkMem.
Context (m : memory) (tf ptf nm pnm : Z).
Hypothesis Htf : page_ok tf.
Hypothesis Hnm : nm + 16 <= kend.

Lemma fork_mem_outside x : x < tf \/ tf + sizeof_trapframe <= x -> x < nm \/ nm + 16 <= x ->
  ld8 (fork_mem m tf ptf nm pnm) x = ld8 m x.
Proof.
  intros Hx Hn. unfold fork_mem. rewrite safestrcpy_frame by done.
  change (tf_offset tf_a0) with 112. unfold sizeof_trapframe in *. rewrite ld8_st64_out by lia.
  apply ld8_stbytes_out. rewrite length_ldbytes. lia.
Qed.

Lemma fork_mem_page q : page_ok q -> q <> tf -> same_page m (fork_mem m tf ptf nm pnm) q.
Proof.
  intros [Hq Hqr] Hne j Hj. symmetry. destruct Htf as [Hal Hr].
  apply fork_mem_outside; [|lia]. unfold sizeof_trapframe. destruct (pages_apart q tf Hq Hal Hne); clia.
Qed.

Lemma fork_mem_tf r : (forall x, tf <= x < tf + sizeof_trapframe -> x < ptf \/ ptf + sizeof_trapframe <= x) ->
  ld64 (fork_mem m tf ptf nm pnm) (tf + tf_offset r) =
  if decide (r = tf_a0) then 0 else ld64 m (ptf + tf_offset r).
Proof.
  intros Hd. assert (Hr : 0 <= tf_offset r <= 280) by (destruct r; simpl; lia). destruct Htf as [_ Htr].
  set (m2 := st64 (stbytes m tf (ldbytes m ptf (Z.to_nat sizeof_trapframe))) (tf + tf_offset tf_a0) 0).
  transitivity (ld64 m2 (tf + tf_offset r)).
  { apply ld64_ext. intros j Hj. apply safestrcpy_frame. lia. }
  unfold m2. destruct (decide (r = tf_a0)) as [->|Hne]; [by apply ld64_st64_same|].
  rewrite ld64_st64_out by (destruct (tf_apart r tf_a0 Hne); lia).
  apply ld64_ext. intros j Hj. apply ld8_stbytes_in; [lia|].
  rewrite ldbytes_lookup by (unfold sizeof_trapframe; lia). do 2 f_equal. lia.
Qed.

Lemma fork_mem_bytes : mem_bytes m -> mem_bytes (fork_mem m tf ptf nm pnm).
Proof.
  intros Hm. unfold fork_mem. apply safestrcpy_bytes, st64_bytes, stbytes_bytes; [done|]. by apply ldbytes_bytes.
Qed.
End ForkMem.

(** ** fork *)

Definition npages (sz : Z) : Z := (sz + PGSIZE - 1) / PGSIZE.

(** The situation [fork] is called in: [p] runs, the entry [np] is free, the free
    pages [l] are enough for the child, and the parent's tables, user pages and trap
    frame are not free. *)
Record fork_ready (s : kstate) (l : list Z) (p : nat) (P : proc) (np : nat) (N : proc) : Prop := {
  fo_alloc : alloc_inv s l;
  fo_cpu : exists c, cpus s !! this_cpu s = Some c /\ c_proc c = Some p;
  fo_proc : procs s !! p = Some P /\ state P <> UNUSED;
  fo_np : vacant s np N;
  fo_locks : lock_free L_pid s /\ lock_free L_ftable s /\ lock_free L_icache s;
  fo_room : 6 + 3 * npages (psz P) <= zlen l;
  fo_size : 0 <= psz P <= TRAPFRAME;
  fo_tables : pt_inv (mem s) (pagetable P) l;
  fo_pages : forall i, 0 <= i < npages (psz P) -> let v := leaf_pte (mem s) (pagetable P) (i * PGSIZE) in
    has v PTE_V = true /\ PTE_FLAGS v <> PTE_V /\ (PTE2PA v ∉ l);
  fo_tf : page_ok (trapframe P) /\ (trapframe P ∉ l);
  fo_tramp : 0 <= trampoline <= 2 ^ 56 - PGSIZE;
  fo_name : 0 <= name P /\ name P + 16 <= kend /\ name N + 16 <= kend /\
    (name N + 16 <= name P \/ name P + 16 <= name N);
  fo_files : length (ofile P) = 16%nat /\ ofile N = replicate 16 None /\
    forall f, Some f ∈ ofile P -> exists x, ftable s !! f = Some x /\ 1 <= f_ref x < 2 ^ 31 - 17;
  fo_cwd : exists ip i, cwd P = Some ip /\ icache s !! ip = Some i /\ 0 <= i_ref i < 2 ^ 31 - 1
}.

(** The child's entry of the process table. *)
Definition child (p : nat) (P N : proc) (id tf pt : Z) : proc :=
  set_state RUNNABLE (set_cwd (cwd P) (set_ofile (ofile P)
    (set_parent (Some p) (set_psz (psz P) (newborn N id tf pt))))).

(** The state after [fork]: the child has the parent's memory in pages of its
    own, the parent's registers except for [a0], its files, directory and name. *)
Record forked (s : kstate) (l : list Z) (p : nat) (P : proc) (np : nat) (N : proc)
    (tf pt : Z) (s' : kstate) (l' : list Z) : Prop := {
  fd_state : s' = set_procs (<[np := child p P N (nextpid s) tf pt]> (procs s))
    (set_nextpid (i32 (nextpid s + 1)) (set_ftable (ftable s') (set_icache (icache s')
      (set_freelist (freelist s') (set_mem (mem s') s)))));
  fd_alloc : alloc_inv s' l';
  fd_pt : pt_inv (mem s') pt l';
  fd_user : forall va, 0 <= va < npages (psz P) * PGSIZE ->
    let v := leaf_pte (mem s) (pagetable P) va in let v' := leaf_pte (mem s') pt va in
    PTE_FLAGS v' = PTE_FLAGS v /\ PTE2PA v' ∈ l /\ (PTE2PA v' ∉ l') /\
    forall j, 0 <= j < PGSIZE -> ld8 (mem s') (PTE2PA v' + j) = ld8 (mem s) (PTE2PA v + j);
  fd_rest : forall va, npages (psz P) * PGSIZE <= va < MAXVA -> leaf_pte (mem s') pt va =
    if va / PGSIZE =? TRAPFRAME / PGSIZE then make_pte tf (Z.lor PTE_R PTE_W)
    else if va / PGSIZE =? TRAMPOLINE / PGSIZE then make_pte trampoline (Z.lor PTE_R PTE_X) else 0;
  fd_tf : page_ok tf /\ tf ∈ l /\ (tf ∉ l') /\ forall r, ld64 (mem s') (tf + tf_offset r) =
    if decide (r = tf_a0) then 0 else ld64 (mem s) (trapframe P + tf_offset r);
  fd_name : strn (mem s') (name N) 16 = strn (mem s) (name P) 15;
  fd_files : forall f x, ftable s !! f = Some x ->
    ftable s' !! f = Some (set_f_ref (f_ref x + uses f (ofile P)) x);
  fd_cwd : forall ip i, cwd P = Some ip -> icache s !! ip = Some i ->
    icache s' = <[ip := set_i_ref (i_ref i + 1) i]> (icache s);
  fd_frame : forall q, page_ok q -> q ∉ l -> same_page (mem s) (mem s') q;
  fd_parent : forall va, leaf_pte (mem s') (pagetable P) va = leaf_pte (mem s) (pagetable P) va
}.

Section ForkProof.
Context (s : kstate) (l : list Z) (p : nat) (P : proc) (np : nat) (N : proc).
Hypothesis Himg : image_ok.
Hypothesis Hrd : fork_ready s l p P np N.

Lemma fork_ne : p <> np.
Proof.
  destruct (fo_proc _ _ _ _ _ _ Hrd) as [HP Hne]. pose proof (fo_np _ _ _ _ _ _ Hrd) as Hv. intros ->.
  apply Hne. rewrite (vc_entry _ _ _ Hv) in HP. injection HP as <-. apply Hv.
Qed.

(** After [allocproc] the two page tables are as [uvmcopy] needs them. *)
Lemma born_forkable tf pt s1 l1 : born s l np N tf pt s1 l1 ->
  forkable (pagetable P) pt s1 l1 (npages (psz P)) /\
  (forall va, leaf_pte (mem s1) (pagetable P) va = leaf_pte (mem s) (pagetable P) va).
Proof.
  intros Hb. pose proof (fo_tables _ _ _ _ _ _ Hrd) as Hinv.
  assert (Hs : forall path q, path_ok path -> pt_page (mem s) (pagetable P) path = Some q ->
            same_page (mem s) (mem s1) q).
  { intros path q Hok E. destruct (pt_pages _ _ _ Hinv path q Hok E) as [[Hal _] Hl]. by apply Hb. }
  pose proof (fun q => pt_page_same _ _ (pagetable P) q Hs) as Hpg.
  pose proof (fun va => leaf_pte_same _ _ (pagetable P) va Hs) as Hlf.
  assert (Hnt : forall q, q ∉ l -> no_table (mem s1) pt q).
  { intros q Hq path Hok E. by apply Hq, (bn_tables _ _ _ _ _ _ _ _ Hb path). }
  split; [|done]. split.
  - eapply pt_inv_tables; [exact Hinv|exact Hpg|]. intros q Hq. left. by apply Hb.
  - apply Hb.
  - intros path q Hok E. rewrite Hpg in E by done. apply Hnt. by apply (pt_pages _ _ _ Hinv path).
  - intros i Hi. rewrite Hlf. destruct (fo_pages _ _ _ _ _ _ Hrd i Hi) as (Hv & Hf & Hl).
    split; [done|]. split; [done|]. split; [intros Hq; by apply Hl, Hb|by apply Hnt].
  - intros va Hva. pose proof (fo_size _ _ _ _ _ _ Hrd) as Hsz. unfold npages in Hva.
    assert (Hr : va / PGSIZE < TRAPFRAME / PGSIZE /\ va / PGSIZE < TRAMPOLINE / PGSIZE /\ 0 <= va < MAXVA)
      by (consts; zdm).
    rewrite (bn_leaf _ _ _ _ _ _ _ _ Hb) by lia. by rewrite !(proj2 (Z.eqb_neq _ _)) by lia.
Qed.

Lemma size_bounds : 0 <= npages (psz P) /\ npages (psz P) * PGSIZE <= TRAPFRAME.
Proof. pose proof (fo_size _ _ _ _ _ _ Hrd). unfold npages. consts. zdm. Qed.

Lemma name_low : name N + 16 <= kend.
Proof. by destruct (fo_name _ _ _ _ _ _ Hrd) as (_ & _ & ? & _). Qed.

(** The memory after the last store, in terms of the memory before [fork]. *)
Section Result.
Context (tf pt : Z) (s1 : kstate) (l1 : list Z) (s2 : kstate) (l2 ps : list Z).
Hypothesis Hb : born s l np N tf pt s1 l1.
Hypothesis Hg : Uvm.grown pt s1 l1 0 (parent_perm (pagetable P) s1) (parent_data (pagetable P) s1) s2 l2 ps.
Hypothesis Hlen : zlen ps = npages (psz P).
Let m3 := fork_mem (mem s2) tf (trapframe P) (name N) (name P).

Lemma late_page q : page_ok q -> q <> tf -> same_page (mem s2) m3 q.
Proof. intros Hq Hne. apply fork_mem_page; [apply Hb|apply name_low|done|done]. Qed.

Lemma early_page q : q mod PGSIZE = 0 -> q ∉ l -> same_page (mem s) (mem s2) q.
Proof.
  intros Hq Hl. eapply same_page_trans; [by apply Hb|]. apply Hg; [done|intros Hin; by apply Hl, Hb|].
  intros path Hok E. by apply Hl, (bn_tables _ _ _ _ _ _ _ _ Hb path).
Qed.

Lemma result_frame q : page_ok q -> q ∉ l -> same_page (mem s) m3 q.
Proof.
  intros Hq Hl. eapply same_page_trans; [apply early_page; [apply Hq|done]|]. apply late_page; [done|].
  intros ->. apply Hl, Hb.
Qed.

Lemma tf_not_free : tf ∉ l2.
Proof. intros Hin. destruct (bn_tf _ _ _ _ _ _ _ _ Hb) as (_ & _ & Hn & _). by apply Hn, Hg. Qed.

Lemma tf_no_table : no_table (mem s2) pt tf.
Proof.
  intros path Hok E. destruct (bn_tf _ _ _ _ _ _ _ _ Hb) as (_ & _ & Hn & Ht).
  destruct (gr_new _ _ _ _ _ _ _ _ _ Hg path tf Hok E) as [E'|]; [by apply (Ht path)|done].
Qed.

Lemma result_tables path q : path_ok path -> pt_page (mem s2) pt path = Some q -> same_page (mem s2) m3 q.
Proof.
  intros Hok E. apply late_page; [by apply (pt_pages _ _ _ (gr_pt _ _ _ _ _ _ _ _ _ Hg) path)|].
  intros ->. by apply (tf_no_table path).
Qed.

Lemma result_alloc : alloc_inv (set_mem m3 s2) l2.
Proof.
  apply alloc_inv_mem; [apply Hg|apply fork_mem_bytes, Hg|]. intros q Hq. apply late_page.
  - by apply (proj1 (Forall_forall _ _) (alloc_pages _ _ (gr_alloc _ _ _ _ _ _ _ _ _ Hg))).
  - intros ->. by apply tf_not_free.
Qed.

Lemma result_pt : pt_inv m3 pt l2.
Proof.
  eapply pt_inv_tables; [apply Hg|intros path Hok; apply (pt_page_same _ _ _ _ result_tables Hok)|]. by left.
Qed.

Lemma result_leaf va : leaf_pte m3 pt va = leaf_pte (mem s2) pt va.
Proof. apply leaf_pte_same, result_tables. Qed.

Lemma result_user va : 0 <= va < npages (psz P) * PGSIZE ->
  let v := leaf_pte (mem s) (pagetable P) va in let v' := leaf_pte m3 pt va in
  PTE_FLAGS v' = PTE_FLAGS v /\ PTE2PA v' ∈ l /\ (PTE2PA v' ∉ l2) /\
  forall j, 0 <= j < PGSIZE -> ld8 m3 (PTE2PA v' + j) = ld8 (mem s) (PTE2PA v + j).
Proof.
  intros Hva v v'. destruct (born_forkable _ _ _ _ Hb) as [Hf Hlf]. destruct size_bounds as [Hn Hmax].
  destruct (child_page (pagetable P) pt s1 l1 (npages (psz P)) s2 l2 ps va Himg Hf Hn ltac:(clia) Hlen Hg Hva)
    as (q & Hq & Hql & Hql2 & Ep & Efl & Hd).
  unfold v, v'. rewrite result_leaf, Ep, Efl, Hlf. split; [done|]. split; [by apply Hb|]. split; [done|].
  destruct (gr_pages _ _ _ _ _ _ _ _ _ Hg q (list_elem_of_lookup_2 _ _ _ Hq)) as (Hqok & _).
  intros j Hj. rewrite <- (late_page q Hqok) by (done || intros ->; by apply (bn_tf _ _ _ _ _ _ _ _ Hb)).
  rewrite Hd, Hlf by done. symmetry. apply Hb; [apply PTE2PA_range| |done].
  destruct (fo_pages _ _ _ _ _ _ Hrd (va / PGSIZE)) as (_ & _ & Hnl); [consts; zdm|].
  by rewrite leaf_pte_page in Hnl.
Qed.

Lemma result_rest va : npages (psz P) * PGSIZE <= va < MAXVA -> leaf_pte m3 pt va =
  if va / PGSIZE =? TRAPFRAME / PGSIZE then make_pte tf (Z.lor PTE_R PTE_W)
  else if va / PGSIZE =? TRAMPOLINE / PGSIZE then make_pte trampoline (Z.lor PTE_R PTE_X) else 0.
Proof.
  intros Hva. destruct size_bounds as [Hn Hmax]. rewrite result_leaf.
  rewrite (gr_other _ _ _ _ _ _ _ _ _ Hg) by (change (0 / PGSIZE) with 0; rewrite ?Hlen; consts; zdm).
  apply Hb. clia.
Qed.

Lemma result_tf r : ld64 m3 (tf + tf_offset r) =
  if decide (r = tf_a0) then 0 else ld64 (mem s) (trapframe P + tf_offset r).
Proof.
  destruct (bn_tf _ _ _ _ _ _ _ _ Hb) as (Htf & Htl & _ & _). destruct (fo_tf _ _ _ _ _ _ Hrd) as [Hptf Hptl].
  unfold m3. rewrite fork_mem_tf; [|done|apply name_low|].
  - destruct (decide _); [done|]. assert (0 <= tf_offset r <= 280) by (destruct r; simpl; lia).
    symmetry. apply (ld64_same_page _ _ (trapframe P) _ (tf_offset r)); [|done|lia|clia].
    apply early_page; [apply Hptf|done].
  - intros x Hx. unfold sizeof_trapframe in *. destruct Htf as [Hal _], Hptf as [Hpal _].
    assert (trapframe P <> tf) as Hne by (intros E; by rewrite E in Hptl). destruct (pages_apart _ _ Hpal Hal Hne); clia.
Qed.

(** Kernel data lies below the pages. *)
Lemma low_byte x : x < kend -> ld8 (mem s2) x = ld8 (mem s) x.
Proof.
  intros Hx. replace x with (x / PGSIZE * PGSIZE + x mod PGSIZE) by (consts; zdm).
  symmetry. apply early_page; [apply Z.mod_mul; clia| |apply Z.mod_pos_bound; clia].
  intros Hin. pose proof (proj1 (Forall_forall _ _) (alloc_pages _ _ (fo_alloc _ _ _ _ _ _ Hrd)) _ Hin) as [_ Hr].
  revert Hr. consts. zdm.
Qed.

Lemma result_name : strn m3 (name N) 16 = strn (mem s) (name P) 15.
Proof.
  destruct (fo_name _ _ _ _ _ _ Hrd) as (H0n & Hp & Hn & Hd). destruct (bn_tf _ _ _ _ _ _ _ _ Hb) as ([_ Htf] & _).
  unfold m3, fork_mem. rewrite safestrcpy_strn by done. apply strn_ext. intros i Hi.
  change (tf_offset tf_a0) with 112. rewrite ld8_st64_out by lia.
  rewrite ld8_stbytes_out by (rewrite length_ldbytes; lia). apply low_byte. lia.
Qed.
End Result.

(** From the copied memory to the end. *)
Lemma wp_fork_finish tf pt s1 l1 s2 l2 ps : born s l np N tf pt s1 l1 -> tf <> 0 ->
  Uvm.grown pt s1 l1 0 (parent_perm (pagetable P) s1) (parent_data (pagetable P) s1) s2 l2 ps ->
  wp (fork_finish p np (psz P)) (fun r s' => r = nextpid s /\
    (forall ip i, cwd P = Some ip -> icache s !! ip = Some i ->
       icache s' = <[ip := set_i_ref (i_ref i + 1) i]> (icache s)) /\
    s' = set_procs (<[np := child p P N (nextpid s) tf pt]> (procs s))
      (set_nextpid (i32 (nextpid s + 1)) (set_ftable (dup_files (ofile P) (ftable s)) (set_icache (icache s')
        (set_freelist (freelist s2) (set_mem (fork_mem (mem s2) tf (trapframe P) (name N) (name P)) s)))))) s2.
Proof.
  intros Hb Htf0 Hg.
  destruct Hrd as [Ha _ [HP _] Hv (_ & Hlf & Hli) _ _ _ _ [Htfp _] _ _ (Hol & HoN & Hof) (ip & i & Hcw & Hip & Hir)].
  pose proof fork_ne as Hne. assert (Hnl : (np < length (procs s))%nat) by (eapply lookup_lt_Some, Hv).
  assert (Es2 : s2 = set_procs (<[np := newborn N (nextpid s) tf pt]> (procs s))
    (set_nextpid (i32 (nextpid s + 1)) (set_freelist (freelist s2) (set_mem (mem s2) (acq (L_proc np) s))))).
  { rewrite (gr_state _ _ _ _ _ _ _ _ _ Hg) at 1. rewrite (bn_state _ _ _ _ _ _ _ _ Hb). state_eq. }
  unfold fork_finish. wstep. eapply wp_modify_proc; [rewrite Es2; fields; by apply list_lookup_insert_eq|].
  rewrite Es2. fields. rewrite list_insert_insert_eq.
  wstep. eapply wp_modify_proc; [fields; by apply list_lookup_insert_eq|]. fields. rewrite list_insert_insert_eq.
  set (N2 := set_parent (Some p) (set_psz (psz P) (newborn N (nextpid s) tf pt))).
  wstep. eapply wp_get_proc; [fields; rewrite list_lookup_insert_ne by done; exact HP|].
  wstep. eapply wp_get_proc; [fields; by apply list_lookup_insert_eq|]. unfold modify_mem. wsteps.
  eapply wp_tf_set; [fields; by apply list_lookup_insert_eq|exact Htf0|]. wstep.
  change (trapframe N2) with tf. fields.
  eapply (wp_dup_files _ p np P N2);
    [by apply settled_acq, Ha|by apply lock_free_acq|fields; rewrite list_lookup_insert_ne by done; exact HP|
     fields; by apply list_lookup_insert_eq|done|done|done|exact Hof|].
  fields. rewrite list_insert_insert_eq. wstep.
  eapply wp_get_proc; [fields; rewrite list_lookup_insert_ne by done; exact HP|]. wstep. eapply wp_deref; [exact Hcw|].
  wstep. eapply wp_idup; [by apply settled_acq, Ha|by apply lock_free_acq|exact Hip|done|]. wstep.
  eapply wp_modify_proc; [fields; by apply list_lookup_insert_eq|]. fields. rewrite list_insert_insert_eq.
  wstep. eapply wp_get_proc; [fields; rewrite list_lookup_insert_ne by done; exact HP|].
  wstep. eapply wp_get_proc; [fields; by apply list_lookup_insert_eq|]. wsteps.
  eapply wp_get_proc; [fields; by apply list_lookup_insert_eq|]. wstep.
  eapply wp_modify_proc; [fields; by apply list_lookup_insert_eq|]. fields. rewrite list_insert_insert_eq. wstep.
  eapply (wp_release (L_proc np) _ s); [apply Ha|apply Hv|by fields..|]. wsteps.
  split; [done|]. split.
  - intros ip' i' Hcw' Hi'. assert (ip' = ip) as -> by congruence. assert (i' = i) as -> by congruence. reflexivity.
  - unfold child. rewrite Hcw. apply kstate_ext; critical; reflexivity.
Qed.

Lemma wp_fork :
  wp fork (fun r s' => r = nextpid s /\ exists tf pt l', forked s l p P np N tf pt s' l') s.
Proof.
  destruct Hrd as [Ha (c & Hc & Hcp) [HP _] Hv (Hlp & _) Hroom Hsz Hinv _ _ Htr _ (_ & _ & Hof) _].
  pose proof fork_ne as Hne. assert (Hnl : (np < length (procs s))%nat) by (eapply lookup_lt_Some, Hv).
  unfold fork. wstep. eapply wp_myproc; [apply Ha|exact Hc|]. rewrite Hcp. wstep.
  eapply (wp_allocproc s l np N); [done..|pose proof size_bounds; lia|].
  intros tf pt s1 l1 Hpt0 Htf0 Hb.
  assert (Ep1 : procs s1 = <[np := newborn N (nextpid s) tf pt]> (procs s))
    by (rewrite (bn_state _ _ _ _ _ _ _ _ Hb); by fields).
  assert (HP1 : procs s1 !! p = Some P) by (by rewrite Ep1, list_lookup_insert_ne).
  assert (HN1 : procs s1 !! np = Some (newborn N (nextpid s) tf pt)) by (rewrite Ep1; by apply list_lookup_insert_eq).
  wsteps. eapply wp_get_proc; [exact HP1|]. wstep. eapply wp_get_proc; [exact HN1|]. wstep.
  eapply wp_get_proc; [exact HP1|]. wstep.
  destruct (born_forkable _ _ _ _ Hb) as [Hf _].
  eapply wp_mono; [apply (wp_uvmcopy _ _ s1 l1 (npages (psz P))); [done|apply Hb|exact Hf|done|clia]|].
  cbv beta. intros r s2 [(-> & l2 & ps & Hlen & Hg)|(_ & Hfew & _)];
    [|exfalso; pose proof (bn_cost _ _ _ _ _ _ _ _ Hb); lia].
  cbn [Z.ltb Z.compare]. eapply wp_mono; [by eapply wp_fork_finish|]. cbv beta.
  intros r s' (-> & Hic & Es'). split; [done|]. exists tf, pt, l2.
  assert (Em : mem s' = fork_mem (mem s2) tf (trapframe P) (name N) (name P)) by (rewrite Es'; by fields).
  assert (Eft : ftable s' = dup_files (ofile P) (ftable s)) by (rewrite Es'; by fields).
  assert (Efl : freelist s' = freelist s2) by (rewrite Es'; by fields).
  split; rewrite ?Em.
  - rewrite Es' at 1. by rewrite Eft, Efl.
  - eapply (alloc_inv_mix s' _ s); [| | | | |by eapply result_alloc|exact Ha]; rewrite Es'; by fields.
  - by eapply result_pt.
  - by eapply result_user.
  - by eapply result_rest.
  - destruct (bn_tf _ _ _ _ _ _ _ _ Hb) as (Htf & Htl & _). split; [done|]. split; [done|].
    split; [by eapply tf_not_free|]. by eapply result_tf.
  - by eapply result_name.
  - intros f x Hx. rewrite Eft. by apply dup_files_lookup.
  - done.
  - by eapply result_frame.
  - intros va. apply leaf_pte_same. intros path q Hok E. destruct (pt_pages _ _ _ Hinv path q Hok E).
    by eapply result_frame.
Qed.
End ForkProof.

(** C5: [fork], called by the process [p] with a free entry [np] in the process
    table and enough free pages (six, and three for each page of the process),
    returns the next process id and leaves the state [forked] describes: the
    child is runnable and has a copy of the parent's memory in pages of its own,
    the parent's registers with [a0] zero, its open files and directory with one
    more reference each, and its name; the parent's mappings and every page that
    was not free are unchanged, and the locks are as they were. *)
Theorem fork_spec (s : kstate) (l : list Z) (p : nat) (P : proc) (np : nat) (N : proc) :
  image_ok -> fork_ready s l p P np N ->
  exists s' tf pt l', fork s = Ok (nextpid s) s' /\ forked s l p P np N tf pt s' l'.
Proof.
  intros Himg Hrd. destruct (wp_run _ _ _ (wp_fork s l p P np N Himg Hrd)) as (r & s' & Hr & -> & tf & pt & l' & Hf).
  exists s', tf, pt, l'. done.
Qed.
End Fork.

(** ** A process with one page, and nine free pages *)
Definition fork_image2 : KernelImage :=
  {| kend := ex_page 14; etext := KERNBASE + PGSIZE; trampoline := KERNBASE; forkret_pc := 0x80001000 |}.

Lemma fork_image2_ok : image_ok (H0 := fork_image2).
Proof. split; vm_compute; congruence. Qed.

Definition fk_free : list Z := ex_page <$> seqZ 6 9.
Definition fk_heads : list (Z * Z) :=
  [(ex_page 1, make_pte (ex_page 2) 0); (ex_page 2, make_pte (ex_page 3) 0);
   (ex_page 3, make_pte (ex_page 4) user_perm)]
  ++ ((fun k => (ex_page k, ex_page (k + 1))) <$> seqZ 6 8).
Definition fk_parent : proc :=
  mk_proc RUNNING None None false 0 1 0 100 (ex_page 1) (ex_page 5) zero_context
    (<[0%nat := Some 3%nat]> (replicate 16 None)) (Some 0%nat) 0x80002000.
Definition fk_slot : proc := mk_proc UNUSED None None false 0 0 0 0 0 0 zero_context (replicate 16 None) None 0x80002020.
Definition fk_state : kstate :=
  set_procs (fk_parent :: fk_slot :: replicate 62 zero_proc)
    (set_cpus (mk_cpu (Some 0%nat) zero_context 0 false :: replicate 7 zero_cpu)
      (set_ftable (<[3%nat := mk_file FD_DEVICE 1 true true 0 None 0 1]> (ftable zero_kstate))
        (set_freelist (ex_page 6) (set_mem (cells fk_heads) zero_kstate)))).

Lemma fk_heads_aligned : Forall (fun av : Z * Z => av.1 mod PGSIZE = 0) fk_heads.
Proof. repeat (apply Forall_cons_2; [reflexivity|]). apply Forall_nil_2. Qed.

Lemma ex_page_aligned k : ex_page k mod PGSIZE = 0.
Proof. unfold ex_page. consts. zdm. Qed.

Lemma fk_not_free k : 1 <= k <= 5 -> page_ok (H0 := fork_image2) (ex_page k) /\ (ex_page k ∉ fk_free).
Proof.
  intros Hk. split; [split; [apply ex_page_aligned|unfold ex_page, kend, fork_image2; unfold ex_page; clia]|].
  intros (i & E & Hi)%list_elem_of_fmap. apply elem_of_seqZ in Hi. unfold ex_page in E. clia.
Qed.

Lemma fk_alloc : alloc_inv (H0 := fork_image2) fk_state fk_free.
Proof.
  split.
  - vm_compute. done.
  - apply Forall_forall. intros q (i & -> & Hi)%list_elem_of_fmap. apply elem_of_seqZ in Hi.
    split; [apply ex_page_aligned|]. unfold kend, fork_image2, ex_page. clia.
  - apply NoDup_fmap_2; [|apply NoDup_seqZ]. intros i j. unfold ex_page. clia.
  - apply cells_bytes.
  - exists (mk_cpu (Some 0%nat) zero_context 0 false). repeat split; done.
  - exists ""%string. reflexivity.
Qed.

Lemma fk_rest k i : 0 < i < 512 -> ld64 (mem fk_state) (ex_page k + 8 * i) = 0.
Proof.
  intros Hi. pose proof (ex_page_aligned k) as Hk. apply cells_other.
  - eapply Forall_impl; [exact fk_heads_aligned|]. intros [a v] Ha. cbn in *. revert Ha. consts. intros Ha. zdm.
  - revert Hk. consts. intros Hk. zdm.
  - intros (av & E & Hin)%list_elem_of_fmap. pose proof (proj1 (Forall_forall _ _) fk_heads_aligned av Hin) as Ha.
    cbn beta in Ha. rewrite <- E in Ha. revert Ha Hk. consts. intros Ha Hk. zdm.
Qed.

Lemma fk_tables path : path_ok path -> pt_page (mem fk_state) (ex_page 1) path =
  if decide (path = []) then Some (ex_page 1) else
  if decide (path = [0]) then Some (ex_page 2) else
  if decide (path = [0; 0]) then Some (ex_page 3) else None.
Proof.
  apply chain_tables; [reflexivity|reflexivity|].
  intros i Hi. split; apply zero_entry, fk_rest; lia.
Qed.

Lemma fk_ready : fork_ready (H0 := fork_image2) fk_state fk_free 0 fk_parent 1 fk_slot.
Proof.
  split.
  - exact fk_alloc.
  - exists (mk_cpu (Some 0%nat) zero_context 0 false). split; reflexivity.
  - split; [reflexivity|discriminate].
  - split; [lia|reflexivity|reflexivity|by exists ""%string|]. intros i Hi. assert (i = 0%nat) as -> by lia.
    split; [by exists ""%string|]. exists fk_parent. split; [reflexivity|discriminate].
  - split; [by exists ""%string|]. split; by exists ""%string.
  - vm_compute. congruence.
  - vm_compute. split; congruence.
  - split.
    + intros path q Hok. rewrite fk_tables by exact Hok. repeat case_decide; intros [= <-]; apply fk_not_free; lia.
    + intros path path' q Hok Hok'. rewrite !fk_tables by assumption.
      repeat case_decide; subst; intros [= <-]; done.
  - intros i Hi. change (npages (psz fk_parent)) with 1 in Hi. assert (i = 0) as -> by lia. cbv zeta.
    assert (E : leaf_pte (mem fk_state) (pagetable fk_parent) (0 * PGSIZE) = make_pte (ex_page 4) user_perm) by reflexivity.
    rewrite E. split; [reflexivity|]. split; [vm_compute; congruence|].
    change (PTE2PA (make_pte (ex_page 4) user_perm)) with (ex_page 4). apply fk_not_free. lia.
  - apply (fk_not_free 5). lia.
  - vm_compute. split; congruence.
  - vm_compute. repeat split; try congruence. right. congruence.
  - split; [reflexivity|]. split; [reflexivity|]. intros f Hf.
    apply list_elem_of_lookup in Hf as [j Hj]. exists (mk_file FD_DEVICE 1 true true 0 None 0 1).
    do 16 (destruct j as [|j]; [first [injection Hj as <-; split; [reflexivity|cbn; lia]|discriminate Hj]|]). discriminate Hj.
  - exists 0%nat, zero_inode. split; [reflexivity|]. split; [reflexivity|]. cbn. lia.
Qed.

Lemma fork_spec_witness : exists s' tf pt l',
  fork (H := idle_world) (H0 := fork_image2) fk_state = Ok 1 s' /\
  forked (H0 := fork_image2) fk_state fk_free 0 fk_parent 1 fk_slot tf pt s' l' /\
  (f_ref <$> ftable s' !! 3%nat) = Some 2.
Proof.
  destruct (fork_spec (H := idle_world) (H0 := fork_image2) fk_state fk_free 0 fk_parent 1 fk_slot
    fork_image2_ok fk_ready) as (s' & tf & pt & l' & Hr & Hf).
  exists s', tf, pt, l'. split; [exact Hr|]. split; [exact Hf|].
  rewrite (fd_files _ _ _ _ _ _ _ _ _ _ Hf 3%nat (mk_file FD_DEVICE 1 true true 0 None 0 1)); reflexivity.
Defined.
