(* ===== verification/Wait.v ===== *)
(** * kernel/proc.c: [wait], [freeproc]

    The end of a process: [wait] finds a child that has exited, hands its status to
    the caller, and gives everything the child still had back: its trap frame, its
    user pages, the pages of its page table, and its entry of the process table. *)

From stdpp Require Import gmap strings list fin_maps.
From Stdlib Require Import ZArith Lia.
From S2P Require Import Prelude Machine Str State Riscv Spinlock Kalloc Vm Copy Uvm Freewalk.
From S2P Require Import Sched Sleeplock Bytes Bio Log Op Inode Dir Content Pipe Console File Proc Fork.
Open Scope Z_scope.

#[local] Opaque memset st64 ld64 memmove stbytes ldbytes.
#[local] Abbreviation zlen ps := (Z.of_nat (length ps)).

Section Wait.
Context `{World kstate} `{KernelImage} `{Uart} `{BlockDev}.

(** ** Clearing one entry *)

Lemma clear_entry m root l va e path q i :
  pt_inv m root l -> leaf_addr m root va = Some e -> path_ok path -> pt_page m root path = Some q -> 0 <= i < 512 ->
  ld64 (st64 m e 0) (q + 8 * i) =
    if decide (path = [PX 2 va; PX 1 va] /\ i = PX 0 va) then 0 else ld64 m (q + 8 * i).
Proof.
  intros Hinv He Hok Hq Hi. destruct (leaf_addr_page _ _ _ _ _ Hinv He) as (t & Ht & -> & [Htal _] & _).
  destruct (pt_pages _ _ _ Hinv path q Hok Hq) as [[Hqal _] _].
  destruct (decide _) as [[-> ->]|Hne].
  - rewrite Ht in Hq. injection Hq as ->. apply ld64_st64_same. lia.
  - apply ld64_st64_out, entry_apart; [done|done|done|apply PX_range; lia|].
    destruct (decide (q = t)) as [->|]; [right|by left]. intros ->. apply Hne. split; [|done].
    by apply (pt_inj _ _ _ Hinv _ _ t Hok (path_ok_va va)).
Qed.

(** [uvmunmap] of one page that stays allocated. *)
Lemma wp_unmap_keep root va s l (Q : unit -> kstate -> Prop) :
  image_ok -> pt_inv (mem s) root l -> 0 <= va -> va mod PGSIZE = 0 -> va < MAXVA ->
  has (leaf_pte (mem s) root va) PTE_V = true -> PTE_FLAGS (leaf_pte (mem s) root va) <> PTE_V ->
  (forall e, leaf_addr (mem s) root va = Some e -> Q tt (set_mem (st64 (mem s) e 0) s)) ->
  wp (uvmunmap root va 1 false) Q s.
Proof.
  intros Himg Hinv Hva Hal Hmax Hv Hf HQ. unfold uvmunmap.
  rewrite (proj2 (Z.eqb_eq _ _) Hal). cbn [negb]. rewrite u64_id by clia.
  replace ((va + 1 * PGSIZE - va) / PGSIZE) with 1 by (rewrite Z.add_simpl_l, Z.div_mul by clia; done).
  change (page_seq va 1) with [va + 0 * PGSIZE]. cbn [for_all]. rewrite Z.mul_0_l, Z.add_0_r. wstep.
  wstep. apply wp_ok. do 2 eexists. split; [apply walk_noalloc; lia|].
  destruct (leaf_addr (mem s) root va) as [e|] eqn:He; [|unfold leaf_pte in Hv; rewrite He in Hv; by vm_compute in Hv].
  assert (El : leaf_pte (mem s) root va = ld64 (mem s) e) by (unfold leaf_pte; by rewrite He). rewrite El in Hv, Hf.
  cbn [from_option id]. rewrite (proj2 (Z.eqb_neq _ _)) by (by eapply leaf_addr_nonzero).
  unfold ldm64, stm64, modify_mem. wsteps. rewrite Hv. cbn [negb].
  rewrite (proj2 (Z.eqb_neq _ _) Hf). cbn [when]. wsteps. by apply HQ.
Qed.

(** ** The address space of a process

    [root] maps the pages [ps] from 0 on, the trap frame page and the trampoline, and
    nothing else; none of its pages is free. *)

Definition leaf_at (path : list Z) (i k : Z) : Prop :=
  path = [PX 2 (k * PGSIZE); PX 1 (k * PGSIZE)] /\ i = PX 0 (k * PGSIZE).

Record owned (m : memory) (root : Z) (ps l : list Z) : Prop := {
  ow_pt : pt_inv m root l;
  ow_holds : Uvm.holds m root 0 ps;
  ow_len : zlen ps * PGSIZE <= TRAPFRAME;
  ow_nodup : NoDup ps;
  ow_pages : forall p, p ∈ ps -> page_ok p /\ (p ∉ l) /\ no_table m root p;
  ow_fixed : forall va, va = TRAPFRAME \/ va = TRAMPOLINE ->
    has (leaf_pte m root va) PTE_V = true /\ PTE_FLAGS (leaf_pte m root va) <> PTE_V;
  ow_inner : forall path p i, (length path <= 1)%nat -> Forall index path -> index i ->
    pt_page m root path = Some p -> has (ld64 m (p + 8 * i)) PTE_V = true ->
    Z.land (ld64 m (p + 8 * i)) (Z.lor (Z.lor PTE_R PTE_W) PTE_X) = 0;
  ow_leaf : forall path p i, length path = 2%nat -> Forall index path -> index i ->
    pt_page m root path = Some p -> has (ld64 m (p + 8 * i)) PTE_V = true ->
    exists k, (0 <= k < zlen ps \/ k = TRAPFRAME / PGSIZE \/ k = TRAMPOLINE / PGSIZE) /\ leaf_at path i k
}.

Lemma owned_same m m' root ps l l' : owned m root ps l ->
  (forall path q, path_ok path -> pt_page m root path = Some q -> same_page m m' q) ->
  (forall q, q ∈ l' -> q ∈ l \/ (no_table m root q /\ q ∉ ps)) -> owned m' root ps l'.
Proof.
  intros [Hpt Hh Hlen Hnd Hp Hf Hin Hlf] Hs Hl.
  pose proof (fun q => pt_page_same _ _ root q Hs) as Hpg. pose proof (fun va => leaf_pte_same _ _ root va Hs) as Hle.
  assert (Hld : forall path q i, path_ok path -> pt_page m root path = Some q -> index i -> ld64 m' (q + 8 * i) = ld64 m (q + 8 * i)).
  { intros path q i Hok Hq Hi. apply ld64_entry_same; [by apply (Hs path)|exact Hi]. }
  split; [|..].
  - eapply pt_inv_tables; [exact Hpt|exact Hpg|]. intros q Hq. destruct (Hl q Hq) as [|[]]; auto.
  - intros i p Hi. rewrite Hle. by apply Hh.
  - done.
  - done.
  - intros p Hin'. destruct (Hp p Hin') as (H1' & H2' & H3'). split; [done|]. split.
    + intros Hq. destruct (Hl p Hq) as [|[]]; done.
    + intros path Hok. rewrite Hpg by done. by apply H3'.
  - intros va Hva. rewrite Hle. by apply Hf.
  - intros path p i Hle' Hfi Hi. assert (Hok : path_ok path) by (split; [lia|done]). rewrite Hpg by done. intros Hq.
    rewrite (Hld path p i Hok Hq Hi). by apply (Hin path).
  - intros path p i Hle' Hfi Hi. assert (Hok : path_ok path) by (split; [lia|done]). rewrite Hpg by done. intros Hq.
    rewrite (Hld path p i Hok Hq Hi). by apply (Hlf path).
Qed.

(** The table once the two fixed pages are unmapped. *)
Record bare (s : kstate) (l : list Z) (root : Z) (ps : list Z) (s' : kstate) : Prop := {
  br_state : s' = set_mem (mem s') s;
  br_alloc : alloc_inv s' l;
  br_pt : pt_inv (mem s') root l;
  br_tables : forall path, path_ok path -> pt_page (mem s') root path = pt_page (mem s) root path;
  br_holds : Uvm.holds (mem s') root 0 ps;
  br_tidy : tidy (mem s') root (zlen ps);
  br_frame : forall q, q mod PGSIZE = 0 -> no_table (mem s) root q -> same_page (mem s) (mem s') q
}.

Lemma bare_intro s l root ps e1 e2 : image_ok -> alloc_inv s l -> owned (mem s) root ps l ->
  leaf_addr (mem s) root TRAMPOLINE = Some e1 -> leaf_addr (st64 (mem s) e1 0) root TRAPFRAME = Some e2 ->
  bare s l root ps (set_mem (st64 (st64 (mem s) e1 0) e2 0) s).
Proof.
  intros Himg Ha [Hpt Hh Hlen Hnd Hp Hf Hin Hlf] E1 E2. set (m1 := st64 (mem s) e1 0) in *.
  pose proof (pt_step_leaf root s l TRAMPOLINE e1 0 Ha Hpt E1) as Hst1. fold m1 in Hst1.
  pose proof (step_alloc _ _ _ _ _ Hst1) as Ha1. pose proof (step_pt _ _ _ _ _ Hst1) as Hpt1. fields_in Hpt1.
  pose proof (pt_step_leaf root (set_mem m1 s) l TRAPFRAME e2 0 Ha1 Hpt1 E2) as Hst2.
  pose proof (step_pt _ _ _ _ _ Hst2) as Hpt2. fields_in Hpt2.
  assert (Hpg1 : forall path, path_ok path -> pt_page m1 root path = pt_page (mem s) root path)
    by (intros; by eapply leaf_store_pages).
  assert (Hpg2 : forall path, path_ok path -> pt_page (st64 m1 e2 0) root path = pt_page (mem s) root path)
    by (intros path Hok; rewrite <- Hpg1 by done; by eapply leaf_store_pages).
  assert (Hld : forall path q i, path_ok path -> pt_page (mem s) root path = Some q -> index i ->
    ld64 (st64 m1 e2 0) (q + 8 * i) = if decide (path = [PX 2 TRAPFRAME; PX 1 TRAPFRAME] /\ i = PX 0 TRAPFRAME) then 0 else
      if decide (path = [PX 2 TRAMPOLINE; PX 1 TRAMPOLINE] /\ i = PX 0 TRAMPOLINE) then 0 else ld64 (mem s) (q + 8 * i)).
  { intros path q i Hok Hq Hi. rewrite (clear_entry m1 root l TRAPFRAME e2 path q i Hpt1 E2) by (rewrite ?Hpg1; done).
    destruct (decide _); [done|]. by apply (clear_entry (mem s) root l TRAMPOLINE e1). }
  split; fields.
  - done.
  - apply Hst2.
  - exact Hpt2.
  - exact Hpg2.
  - intros i p Hi. pose proof (lookup_lt_Some _ _ _ Hi). rewrite Z.add_0_l.
    rewrite (leaf_store_pte m1 root l TRAPFRAME e2 0 Hpt1 E2), (leaf_store_pte (mem s) root l TRAMPOLINE e1 0 Hpt E1) by clia.
    rewrite Z.div_mul, !(proj2 (Z.eqb_neq _ _)) by (revert Hlen; consts; intros Hlen; zdm). by apply (Hh i p).
  - split; intros path p i Hl Hfi Hi Hq Hv; assert (Hok : path_ok path) by (split; [lia|done]);
      rewrite Hpg2 in Hq by done; rewrite (Hld path p i Hok Hq Hi) in Hv.
    + rewrite (Hld path p i Hok Hq Hi). destruct (decide _); [by vm_compute in Hv|]. destruct (decide _); [by vm_compute in Hv|]. by apply (Hin path).
    + destruct (decide _) as [|N1]; [by vm_compute in Hv|]. destruct (decide _) as [|N2]; [by vm_compute in Hv|].
      destruct (Hlf path p i Hl Hfi Hi Hq Hv) as (k & [Hk|[-> | ->]] & -> & ->); [by exists k| |]; exfalso; [apply N1|apply N2]; done.
  - intros q Hq Hn. eapply same_page_trans; [by eapply leaf_store_frame|]. eapply leaf_store_frame; [done|done|done|].
    intros path Hok. rewrite Hpg1 by done. by apply Hn.
Qed.

Lemma wp_proc_freepagetable root s l ps sz (Q : unit -> kstate -> Prop) :
  image_ok -> alloc_inv s l -> owned (mem s) root ps l -> 0 <= sz <= MAXVA -> zlen ps = PGROUNDUP sz / PGSIZE ->
  (forall s' l', s' = set_freelist (freelist s') (set_mem (mem s') s) -> alloc_inv s' l' ->
     (forall q, q ∈ l' <-> q ∈ l \/ q ∈ ps \/ exists path, path_ok path /\ pt_page (mem s) root path = Some q) ->
     (forall q, q mod PGSIZE = 0 -> q ∉ l' -> same_page (mem s) (mem s') q) -> Q tt s') ->
  wp (proc_freepagetable root sz) Q s.
Proof.
  intros Himg Ha Ho Hsz Hlen HQ. pose proof Ho as [Hpt Hh Hl Hnd Hp Hf Hin Hlf]. unfold proc_freepagetable.
  destruct (Hf TRAMPOLINE ltac:(by right)) as [Hv1 Hf1]. destruct (Hf TRAPFRAME ltac:(by left)) as [Hv2 Hf2].
  wstep. apply (wp_unmap_keep root TRAMPOLINE s l); [done|done|clia|reflexivity|clia|done|done|]. intros e1 E1.
  set (m1 := st64 (mem s) e1 0). wstep.
  assert (El : leaf_pte m1 root TRAPFRAME = leaf_pte (mem s) root TRAPFRAME).
  { unfold m1. rewrite (leaf_store_pte (mem s) root l TRAMPOLINE e1 0 Hpt E1) by clia. reflexivity. }
  apply (wp_unmap_keep root TRAPFRAME _ l); fields; fold m1;
    [done|exact (step_pt _ _ _ _ _ (pt_step_leaf root s l TRAMPOLINE e1 0 Ha Hpt E1))|clia|reflexivity|clia|by rewrite El|by rewrite El|].
  intros e2 E2. fields. pose proof (bare_intro s l root ps e1 e2 Himg Ha Ho E1 E2) as Hb. fold m1 in Hb.
  set (s2 := set_mem (st64 m1 e2 0) s) in *. change (set_mem (st64 m1 e2 0) (set_mem m1 s)) with s2.
  eapply wp_mono; [apply (wp_uvmfree root s2 l ps sz); try apply Hb; try done|].
  - intros p Hin'. destruct (Hp p Hin') as (H1' & H2' & H3'). split; [done|]. split; [done|].
    intros path Hok. rewrite (br_tables _ _ _ _ _ Hb) by done. by apply H3'.
  - cbv beta. intros [] s' (l' & Es & Ha' & Hl' & Hfr). apply (HQ s' l'); [rewrite Es at 1; state_eq|done| |].
    + intros q. rewrite Hl'. split; intros [|[|(path & Hok & E)]]; auto; right; right; exists path; split; try done.
      * by rewrite <- (br_tables _ _ _ _ _ Hb).
      * by rewrite (br_tables _ _ _ _ _ Hb).
    + intros q Hq Hn. eapply same_page_trans; [|by apply Hfr]. apply Hb; [done|].
      intros path Hok E. apply Hn, Hl'. right. right. exists path. split; [done|]. by rewrite (br_tables _ _ _ _ _ Hb).
Qed.

(** ** [freeproc] *)

Definition buried (N : proc) : proc :=
  set_state UNUSED (set_xstate 0 (set_killed false (set_chan None (set_parent None
    (set_pid 0 (set_psz 0 (set_pagetable 0 (set_trapframe 0 N)))))))).

(** What a process that has exited still has. *)
Record remains (s : kstate) (l : list Z) (N : proc) (ps : list Z) : Prop := {
  rm_space : owned (mem s) (pagetable N) ps l;
  rm_size : 0 <= psz N <= MAXVA /\ zlen ps = PGROUNDUP (psz N) / PGSIZE;
  rm_tf : page_ok (trapframe N) /\ (trapframe N ∉ l) /\ (trapframe N ∉ ps) /\ no_table (mem s) (pagetable N) (trapframe N);
  rm_name : name N < kend
}.

(** Everything is given back. *)
Record reaped (s : kstate) (l : list Z) (np : nat) (N : proc) (ps : list Z) (s' : kstate) (l' : list Z) : Prop := {
  rp_state : s' = set_procs (<[np := buried N]> (procs s)) (set_freelist (freelist s') (set_mem (mem s') s));
  rp_alloc : alloc_inv s' l';
  rp_free : forall q, q ∈ l' <-> q ∈ l \/ q = trapframe N \/ q ∈ ps \/
    exists path, path_ok path /\ pt_page (mem s) (pagetable N) path = Some q;
  rp_frame : forall q, page_ok q -> q ∉ l' -> same_page (mem s) (mem s') q
}.

Lemma pages_below_kend m a v q : page_ok q -> a < kend -> same_page m (st8 m a v) q.
Proof. intros [_ Hq] Ha i Hi. rewrite ld8_st8. destruct (Z.eqb_spec a (q + i)); [lia|done]. Qed.

Lemma wp_freeproc s l np N ps (Q : unit -> kstate -> Prop) :
  image_ok -> alloc_inv s l -> procs s !! np = Some N -> remains s l N ps ->
  (forall s' l', reaped s l np N ps s' l' -> Q tt s') -> wp (freeproc np) Q s.
Proof.
  intros Himg Ha HN [Ho [Hsz Hlen] (Htf & Htl & Htp & Htn) Hnm] HQ.
  assert (Hnl : (np < length (procs s))%nat) by (by eapply lookup_lt_Some).
  pose proof (page_ok_nonzero _ Himg Htf) as Htf0.
  assert (Hpt0 : pagetable N <> 0).
  { apply page_ok_nonzero; [done|]. apply (pt_pages _ _ _ (ow_pt _ _ _ _ Ho) [] (pagetable N) path_ok_nil eq_refl). }
  unfold freeproc. wstep. eapply wp_get_proc; [exact HN|]. rewrite (proj2 (Z.eqb_neq _ _) Htf0). cbn [negb when]. wstep.
  eapply wp_kfree; [done|exact Ha|done|done|]. intros Ha1. set (s1 := set_freelist _ _) in *.
  assert (Hs1 : forall q, q mod PGSIZE = 0 -> q <> trapframe N -> same_page (mem s) (mem s1) q)
    by (intros q Hq Hne; apply freed_mem_same; [apply Htf|exact Hq|done]).
  wstep. eapply wp_modify_proc; [exact HN|]. wstep.
  eapply wp_get_proc; [fields; by apply list_lookup_insert_eq|]. wstep.
  eapply wp_get_proc; [fields; by apply list_lookup_insert_eq|].
  change (pagetable (set_trapframe 0 N)) with (pagetable N). change (psz (set_trapframe 0 N)) with (psz N).
  rewrite (proj2 (Z.eqb_neq _ _) Hpt0). cbn [negb when]. wstep.
  set (s2 := set_procs _ _).
  assert (Htab : forall path, path_ok path -> pt_page (mem s2) (pagetable N) path = pt_page (mem s) (pagetable N) path).
  { intros path Hok. apply (pt_page_same (mem s) (mem s2)); [|done]. intros path' q Hok' E.
    apply Hs1; [by apply (pt_pages _ _ _ (ow_pt _ _ _ _ Ho) path')|]. intros ->. by apply (Htn path'). }
  eapply (wp_proc_freepagetable _ s2 (trapframe N :: l) ps); [done|apply alloc_inv_procs, Ha1| |done|done|].
  { eapply owned_same; [exact Ho| |].
    - intros path q Hok E. apply Hs1; [by apply (pt_pages _ _ _ (ow_pt _ _ _ _ Ho) path)|]. intros ->. by apply (Htn path).
    - intros q [->|Hq]%elem_of_cons; [by right|by left]. }
  intros s3 l3 Es3 Ha3 Hl3 Hfr3.
  assert (Ep3 : procs s3 = <[np := set_trapframe 0 N]> (procs s)) by (by rewrite Es3).
  wstep. eapply wp_modify_proc; [rewrite Ep3; by apply list_lookup_insert_eq|]. rewrite Ep3, list_insert_insert_eq.
  do 3 (wstep; eapply wp_modify_proc; [fields; by apply list_lookup_insert_eq|]; fields; rewrite list_insert_insert_eq).
  wstep. eapply wp_get_proc; [fields; by apply list_lookup_insert_eq|]. unfold modify_mem. wsteps.
  do 2 (eapply wp_modify_proc; [fields; by apply list_lookup_insert_eq|]; fields; rewrite list_insert_insert_eq; wstep).
  do 2 (eapply wp_modify_proc; [fields; by apply list_lookup_insert_eq|]; fields; rewrite list_insert_insert_eq).
  assert (Hlow : forall q, page_ok q -> same_page (mem s3) (st8 (mem s3) (name N) 0) q) by (intros; by apply pages_below_kend).
  apply (HQ _ l3). split; fields.
  - rewrite Es3. unfold s2, s1. fields. state_eq.
  - apply (alloc_inv_eq (set_mem (st8 (mem s3) (name N) 0) s3)); [reflexivity..|].
    apply alloc_inv_mem; [done|apply st8_bytes; [apply Ha3|done]|].
    intros q Hq. apply Hlow. by apply (proj1 (Forall_forall _ _) (alloc_pages _ _ Ha3)).
  - intros q. rewrite Hl3, elem_of_cons.
    split; [intros [[->|]|[|(path & Hok & E)]]|intros [|[->|[|(path & Hok & E)]]]]; auto; repeat right;
      exists path; (split; [done|]); [rewrite <- Htab by done|rewrite Htab by done]; exact E.
  - intros q Hq Hn. eapply same_page_trans; [|by apply Hlow]. eapply same_page_trans; [|apply Hfr3; [apply Hq|done]].
    apply Hs1; [apply Hq|]. intros ->. apply Hn, Hl3. left. by left.
Qed.

(** ** [wait] *)

(** [np] is the first entry of the table with a child of [p] that has exited.  The
    pages that [p] can write to are neither free nor tables of the child. *)
Record wait_ready (s : kstate) (l : list Z) (p : nat) (P : proc) (np : nat) (N : proc) (ps : list Z) : Prop := {
  wr_alloc : alloc_inv s l;
  wr_cpu : exists c, cpus s !! this_cpu s = Some c /\ c_proc c = Some p;
  wr_proc : procs s !! p = Some P /\ lock_free (L_proc p) s;
  wr_child : (np < 64)%nat /\ procs s !! np = Some N /\ parent N = Some p /\ state N = ZOMBIE /\ lock_free (L_proc np) s /\ np <> p;
  wr_before : forall i, (i < np)%nat -> exists R, procs s !! i = Some R /\
    (parent R = Some p -> lock_free (L_proc i) s /\ state R <> ZOMBIE /\ i <> p);
  wr_remains : remains s l N ps;
  wr_user : as_inv (mem s) (pagetable P) (tables (mem s) 3 (pagetable N) ++ l)
}.

(** Delivering the status: [c] is what [copyout] returns. *)
Definition delivered (s : kstate) (root addr x c : Z) (s0 : kstate) : Prop :=
  (addr = 0 /\ c = 0 /\ s0 = s) \/ (addr <> 0 /\ user_write s root addr (le_encode 4 x) c s0).

(** The result [r] of [wait]: the child is gone, or the status could not be stored. *)
Definition waited (s : kstate) (l : list Z) (P : proc) (np : nat) (N : proc) (ps : list Z) (addr r : Z) (s' : kstate) : Prop :=
  exists c s0, delivered s (pagetable P) addr (xstate N) c s0 /\
    ((c = 0 /\ r = pid N /\ exists l', reaped s0 l np N ps s' l') \/ (c = -1 /\ r = -1 /\ s' = s0)).

Section WaitProof.
Context (s : kstate) (l : list Z) (p : nat) (P : proc) (np : nat) (N : proc) (ps : list Z) (addr : Z).
Hypothesis Himg : image_ok.
Hypothesis Hrd : wait_ready s l p P np N ps.
Hypothesis Haddr : 0 <= addr < 2 ^ 64.

(** The stored status leaves the free pages and the child's space alone. *)
Lemma delivered_remains t c t0 : mem t = mem s -> alloc_inv t l -> delivered t (pagetable P) addr (xstate N) c t0 ->
  alloc_inv t0 l /\ remains t0 l N ps /\ t0 = set_mem (mem t0) t /\ (c = 0 \/ c = -1).
Proof.
  intros Em Ha [(_ & -> & ->)|(_ & k & -> & _ & Hc)].
  - split; [done|]. split; [|split; [by destruct t|by left]]. destruct Hrd as [_ _ _ _ _ [H1' H2' H3' H4'] _]. split; rewrite ?Em; done.
  - pose proof (wr_user _ _ _ _ _ _ _ Hrd) as Has. rewrite <- Em in Has.
    set (m' := user_store _ _ _ _).
    assert (Hk : forall q, q mod PGSIZE = 0 -> q ∈ tables (mem t) 3 (pagetable N) ++ l -> same_page (mem t) m' q).
    { intros q Hq Hin. eapply user_store_kernel; [rewrite Em in *; exact Has| |lia]. split; [done|]. left. by rewrite <- Em. }
    destruct Hrd as [_ _ _ _ _ [Ho H2' (Htf & Htl & Htp & Htn) H4'] _]. rewrite <- Em in Ho, Htn.
    assert (Htab : forall path q, path_ok path -> pt_page (mem t) (pagetable N) path = Some q -> same_page (mem t) m' q).
    { intros path q Hok E. apply Hk; [by apply (pt_pages _ _ _ (ow_pt _ _ _ _ Ho) path)|].
      apply elem_of_app. left. apply elem_table_pages. by exists path. }
    split; [|split; [|split; [done|tauto]]].
    + apply alloc_inv_mem; [done|apply user_store_bytes; [apply Ha|apply Forall_take, le_encode_bytes]|]. intros q Hq. apply Hk.
      * by apply (proj1 (Forall_forall _ _) (alloc_pages _ _ Ha)).
      * apply elem_of_app. by right.
    + split; fields.
      * eapply owned_same; [exact Ho|exact Htab|]. by left.
      * done.
      * split; [done|]. split; [done|]. split; [done|]. intros path Hok.
        rewrite (pt_page_same _ _ _ _ Htab Hok). by apply Htn.
      * done.
Qed.

(** Only the memory matters for what is delivered and reaped, not the locks held. *)
Lemma delivered_at t c t0 : mem t = mem s -> delivered t (pagetable P) addr (xstate N) c t0 ->
  delivered s (pagetable P) addr (xstate N) c (set_mem (mem t0) s).
Proof.
  intros Em [(Hz & -> & ->)|(Hz & k & -> & Hmap & Hc)].
  - left. rewrite Em. split; [done|]. split; [done|]. by destruct s.
  - right. split; [done|]. exists k. fields. rewrite Em in *. done.
Qed.

Lemma reaped_at t0 t1 l1 s' : alloc_inv s l -> mem s' = mem t1 -> freelist s' = freelist t1 ->
  s' = set_procs (procs t1) (set_freelist (freelist t1) (set_mem (mem t1) s)) ->
  procs t0 = procs s -> reaped t0 l np N ps t1 l1 -> reaped (set_mem (mem t0) s) l np N ps s' l1.
Proof.
  intros Ha Em Ef Es Ep [Et Ha1 Hf Hfr]. split; fields.
  - rewrite Es. fields. rewrite Et. fields. by rewrite Ep.
  - by apply (alloc_inv_mix s' t1 s l1 l); [..|exact Ha1|exact Ha]; rewrite Es; fields.
  - exact Hf.
  - intros q Hq Hn. rewrite Em. by apply Hfr.
Qed.

Lemma wp_wait_child :
  wp (acquire (L_proc np) ;;;
        let* st := get_proc np state in
        if bool_decide (st = ZOMBIE) then
          let* id := get_proc np pid in
          let* x := get_proc np xstate in
          let* pt := get_proc p pagetable in
          let* c := (if negb (addr =? 0) then copyout pt addr (le_encode 4 x) 4 else ret 0) in
          if c <? 0 then
            release (L_proc np) ;;;
            release (L_proc p) ;;;
            ret (inr (inl (-1)))
          else
            freeproc np ;;;
            release (L_proc np) ;;;
            release (L_proc p) ;;;
            ret (inr (inl id))
        else
          release (L_proc np) ;;;
          ret (inl (seq (S np) (63 - np), true)))
    (fun (x : (list nat * bool) + (Z + bool)) t => exists r, x = inr (inl r) /\ waited s l P np N ps addr r t) (acq (L_proc p) s).
Proof.
  destruct Hrd as [Ha _ [HP Hlp] (Hlt & HN & _ & Hz & Hln & Hne) _ _ Has].
  pose proof (alloc_inv_acq (L_proc p) s l ltac:(done) Ha) as Ha1. set (s1 := acq (L_proc p) s) in *.
  assert (Hln1 : lock_free (L_proc np) s1) by (apply lock_free_acq; [congruence|done]).
  pose proof (alloc_inv_acq (L_proc np) s1 l ltac:(done) Ha1) as Ha2. set (s2 := acq (L_proc np) s1) in *.
  assert (HN2 : procs s2 !! np = Some N) by exact HN. assert (HP2 : procs s2 !! p = Some P) by exact HP.
  assert (Em2 : mem s2 = mem s) by done.
  wstep. apply wp_acquire; [apply Ha1|done|]. wstep. eapply wp_get_proc; [exact HN2|].
  rewrite bool_decide_eq_true_2 by done. wstep. eapply wp_get_proc; [exact HN2|]. wstep.
  eapply wp_get_proc; [exact HN2|]. wstep. eapply wp_get_proc; [exact HP2|]. wstep.
  eapply (wp_mono _ (fun c t => delivered s2 (pagetable P) addr (xstate N) c t)).
  { destruct (Z.eqb_spec addr 0) as [Hz0|Hnz]; cbn [negb].
    - wsteps. by left.
    - eapply wp_mono; [apply (wp_copyout (pagetable P) (tables (mem s) 3 (pagetable N) ++ l) addr (le_encode 4 (xstate N)) s2 Himg); [exact Has|lia]|].
      cbv beta. intros c t Hu. by right. }
  cbv beta. intros c t0 Hd. destruct (delivered_remains s2 c t0 Em2 Ha2 Hd) as (Ha0 & Hrm & Et0 & [-> | ->]).
  - cbn [Z.ltb Z.compare]. wstep. eapply (wp_freeproc t0 l np N ps); [done|done|by rewrite Et0|done|].
    intros t1 l1 Hr1. pose proof (rp_state _ _ _ _ _ _ _ Hr1) as Et1.
    wstep. eapply (wp_release (L_proc np) _ s1); [apply Ha1|done|rewrite Et1, Et0; by fields..|].
    wstep. eapply (wp_release (L_proc p) _ s); [apply Ha|done|rewrite Et1, Et0; by fields..|].
    wsteps. eexists. split; [reflexivity|].
    exists 0, (set_mem (mem t0) s). split; [by apply (delivered_at s2)|]. left. split; [done|]. split; [done|].
    exists l1. apply (reaped_at t0 t1); [done|done|done| |by rewrite Et0|done].
    rewrite Et1, Et0. apply kstate_ext; unfold s2, s1; critical; reflexivity.
  - cbn [Z.ltb Z.compare]. wstep. eapply (wp_release (L_proc np) _ s1); [apply Ha1|done|rewrite Et0; by fields..|].
    wstep. eapply (wp_release (L_proc p) _ s); [apply Ha|done|rewrite Et0; by fields..|].
    wsteps. eexists. split; [reflexivity|]. exists (-1), (set_mem (mem t0) s). split; [by apply (delivered_at s2)|].
    right. split; [done|]. split; [done|]. rewrite Et0. apply kstate_ext; unfold s2, s1; critical; reflexivity.
Qed.

Lemma wp_wait_scan :
  wp (wait_scan p addr) (fun x t => exists r, x = inl r /\ waited s l P np N ps addr r t) (acq (L_proc p) s).
Proof.
  pose proof Hrd as [Ha _ [HP Hlp] (Hlt & HN & Hpar & Hz & Hln & Hne) Hbf _ _].
  assert (Hs1 : settled (acq (L_proc p) s)) by apply settled_acq, Ha.
  unfold wait_scan. apply (wp_iter _ (fun '(rest, _) t => exists k, rest = seq k (64 - k) /\ (k <= np)%nat /\ t = acq (L_proc p) s)
    _ (fun '(rest, _) _ => length rest)).
  - exists 0%nat. split; [done|]. split; [lia|done].
  - unfold proc_ids. rewrite length_seq. lia.
  - intros [rest hk] t (k & -> & Hk & ->). replace (64 - k)%nat with (S (63 - k)) by lia. cbn [seq].
    destruct (decide (k = np)) as [->|Hkn].
    + wstep. eapply wp_get_proc; [exact HN|]. rewrite bool_decide_eq_true_2 by done.
      eapply wp_mono; [exact wp_wait_child|]. cbv beta. intros x t (r & -> & Hw). by exists r.
    + destruct (Hbf k) as (R & HR & Hch); [lia|].
      assert (Hnext : exists k', seq (S k) (63 - k) = seq k' (64 - k') /\ (k' <= np)%nat /\ acq (L_proc p) s = acq (L_proc p) s).
      { exists (S k). replace (64 - S k)%nat with (63 - k)%nat by lia. split; [done|]. split; [lia|done]. }
      wstep. eapply wp_get_proc; [exact HR|]. destruct (decide (parent R = Some p)) as [Hp|Hp].
      * destruct (Hch Hp) as (Hlk & Hst & Hkp). rewrite bool_decide_eq_true_2 by done.
        assert (Hlk1 : lock_free (L_proc k) (acq (L_proc p) s)) by (apply lock_free_acq; [congruence|done]).
        wstep. apply wp_acquire; [done|done|]. wstep. eapply wp_get_proc; [exact HR|].
        rewrite bool_decide_eq_false_2 by done. wstep. eapply (wp_release (L_proc k) _ (acq (L_proc p) s)); [done|done|done..|].
        wsteps. rewrite restore_acq. split; [exact Hnext|simpl; lia].
      * rewrite bool_decide_eq_false_2 by done. wsteps. split; [exact Hnext|simpl; lia].
Qed.

Lemma wp_wait : wp (wait addr) (fun r t => waited s l P np N ps addr r t) s.
Proof.
  pose proof Hrd as [Ha (c & Hc & Hcp) [HP Hlp] _ _ _ _]. unfold wait. wstep.
  eapply wp_myproc; [apply Ha|exact Hc|]. rewrite Hcp. wstep. eapply wp_deref; [reflexivity|]. wstep.
  apply wp_acquire; [apply Ha|done|]. cbn [iter]. wstep. wstep. eapply wp_mono; [exact wp_wait_scan|].
  cbv beta. intros x t (r & -> & Hw). wsteps. exact Hw.
Qed.
End WaitProof.

(** C6: [wait], called by the process [p] whose first exited child in the process table
    is [np], returns the child's process id.  The four bytes of the child's exit status
    are stored at [addr] in the caller's memory, unless [addr] is 0; when an address of
    the four is not mapped for the user, [wait] returns -1 and the child stays.  Else
    the child's trap frame, its user pages and the pages of its page table are free
    pages again, each once, and its entry is unused; no other page changes, and all
    locks are as they were. *)
Theorem wait_reaps (s : kstate) (l : list Z) (p : nat) (P : proc) (np : nat) (N : proc) (ps : list Z) (addr : Z) :
  image_ok -> wait_ready s l p P np N ps -> 0 <= addr < 2 ^ 64 ->
  exists r s', wait addr s = Ok r s' /\ waited s l P np N ps addr r s'.
Proof.
  intros Himg Hrd Haddr. destruct (wp_run _ _ _ (wp_wait s l p P np N ps addr Himg Hrd Haddr)) as (r & s' & Hr & Hw).
  by exists r, s'.
Qed.
End Wait.

(** ** The process of [sp_mem] has exited

    Process 0, whose page table maps nothing for the user, waits for process 1. *)

Definition wt_parent : proc :=
  mk_proc RUNNING None None false 0 1 0 0 (ex_page 5) 0 zero_context (replicate 16 None) None 0x80002000.
Definition wt_child : proc :=
  mk_proc ZOMBIE (Some 0%nat) None false 3 2 0 100 (ex_page 1) (ex_page 4) zero_context (replicate 16 None) None 0x80002020.
Definition wt_state : kstate :=
  set_procs (wt_parent :: wt_child :: replicate 62 zero_proc)
    (set_cpus (mk_cpu (Some 0%nat) zero_context 0 false :: replicate 7 zero_cpu)
      (set_mem (sp_mem 0) zero_kstate)).

Lemma sp_image_ok : image_ok (H0 := sp_image).
Proof. split; vm_compute; congruence. Qed.

Lemma wt_alloc : alloc_inv (H0 := sp_image) wt_state [].
Proof.
  split; [reflexivity|apply Forall_nil_2|apply NoDup_nil_2|apply cells_bytes| |by exists ""%string].
  exists (mk_cpu (Some 0%nat) zero_context 0 false). repeat split; done.
Qed.

Lemma sp_inv k : k = 1 \/ k = 5 -> pt_inv (H0 := sp_image) (sp_mem 0) (ex_page k) [].
Proof.
  intros Hk. split.
  - intros path q Hok E%sp_path; [|done|done]. split; [by eapply sp_page_ok|apply not_elem_of_nil].
  - intros path path' q Hok Hok' E%sp_path E'%sp_path; [|done..]. unfold sp_tables in *.
    repeat (apply elem_of_cons in E as [[= -> -> ->]|E]; [
      repeat (apply elem_of_cons in E' as [E'|E']; [first [by injection E' | discriminate E']|]); by apply not_elem_of_nil in E'|]).
    by apply not_elem_of_nil in E.
Qed.

(** The valid entries of the table pages. *)
Lemma sp_valid k i : k ∈ [1; 2; 3; 5; 6; 7; 9; 10] -> index i -> has (ld64 (sp_mem 0) (ex_page k + 8 * i)) PTE_V = true ->
  exists p, (k, i, p) ∈ sp_entries.
Proof. intros Hk Hi Hv. exists (PTE2PA (ld64 (sp_mem 0) (ex_page k + 8 * i))). apply (sp_entry 0); [done|done|]. unfold entry. by rewrite Hv. Qed.

Lemma wt_owned : owned (H0 := sp_image) (mem wt_state) (pagetable wt_child) [ex_page 8] [].
Proof.
  change (mem wt_state) with (sp_mem 0). change (pagetable wt_child) with (ex_page 1). split.
  - apply sp_inv. by left.
  - intros i p Hi. apply list_lookup_singleton_Some in Hi as [-> <-].
    split; [vm_compute; reflexivity|]. split; [vm_compute; congruence|vm_compute; reflexivity].
  - vm_compute. congruence.
  - apply NoDup_singleton.
  - intros p ->%list_elem_of_singleton. split; [split; [reflexivity|vm_compute; split; congruence]|].
    split; [apply not_elem_of_nil|]. intros path Hok E%sp_path; [|by left|done]. unfold sp_tables in E.
    repeat (apply elem_of_cons in E as [E|E]; [discriminate E|]). by apply not_elem_of_nil in E.
  - intros va [-> | ->]; (split; [vm_compute; reflexivity|vm_compute; congruence]).
  - intros path p i Hl Hf Hi Hq Hv. apply sp_path in Hq; [|by left|split; [lia|exact Hf]]. unfold sp_tables in Hq.
    repeat (apply elem_of_cons in Hq as [Hq|Hq]; [
      first [discriminate Hq | injection Hq as -> ->; exfalso; simpl in Hl; lia | injection Hq as -> ->;
        apply sp_valid in Hv as [p' Hv]; [|set_solver|exact Hi]; unfold sp_entries in Hv;
        repeat (apply elem_of_cons in Hv as [Hv|Hv]; [first [discriminate Hv | injection Hv as -> _; vm_compute; reflexivity]|]);
        by apply not_elem_of_nil in Hv]|]).
    by apply not_elem_of_nil in Hq.
  - intros path p i Hl Hf Hi Hq Hv. apply sp_path in Hq; [|by left|split; [lia|exact Hf]]. unfold sp_tables in Hq.
    repeat (apply elem_of_cons in Hq as [Hq|Hq]; [
      first [discriminate Hq | injection Hq as -> ->; exfalso; simpl in Hl; lia | injection Hq as -> ->;
        apply sp_valid in Hv as [p' Hv]; [|set_solver|exact Hi]; unfold sp_entries in Hv;
        repeat (apply elem_of_cons in Hv as [Hv|Hv]; [first [discriminate Hv | injection Hv as -> _;
          first [exists 0; split; [left; simpl; lia|split; reflexivity]
                |exists (TRAPFRAME / PGSIZE); split; [right; left; reflexivity|split; reflexivity]
                |exists (TRAMPOLINE / PGSIZE); split; [right; right; reflexivity|split; reflexivity]]]|]);
        by apply not_elem_of_nil in Hv]|]).
    by apply not_elem_of_nil in Hq.
Qed.

Lemma sp_kernel_only va : user_page (sp_mem 0) (ex_page 5) va = 0.
Proof.
  unfold user_page, leaf_pte, leaf_addr.
  destruct (pt_page (sp_mem 0) (ex_page 5) [PX 2 va; PX 1 va]) as [q|] eqn:E; [|by rewrite !andb_false_r].
  apply sp_path in E; [|by right|apply path_ok_va]. cbn [fmap option_fmap option_map from_option].
  assert (q = ex_page 7) as -> by (unfold sp_tables in E; set_solver).
  destruct (has (ld64 (sp_mem 0) (ex_page 7 + 8 * PX 0 va)) PTE_V) eqn:Hv; [|by rewrite andb_false_r].
  apply sp_valid in Hv as [p Hp]; [|set_solver|apply PX_range; lia].
  assert (PX 0 va = 511) as -> by (unfold sp_entries in Hp; set_solver). by rewrite andb_false_r.
Qed.

Lemma wt_user : as_inv (H0 := sp_image) (mem wt_state) (pagetable wt_parent) (tables (mem wt_state) 3 (pagetable wt_child) ++ []).
Proof.
  change (mem wt_state) with (sp_mem 0). change (pagetable wt_parent) with (ex_page 5). change (pagetable wt_child) with (ex_page 1).
  rewrite app_nil_r. split; [|intros va _ Hn; by rewrite sp_kernel_only in Hn].
  destruct (sp_inv 5 ltac:(by right)) as [Hp Hj]. split; [|exact Hj].
  intros path q Hok E. split; [by apply (Hp path)|]. intros (path' & Hok' & E')%elem_table_pages.
  apply sp_path in E; [|by right|done]. apply sp_path in E'; [|by left|done]. unfold sp_tables in *.
  repeat (apply elem_of_cons in E as [E|E]; [first [discriminate E | injection E as -> ->;
    repeat (apply elem_of_cons in E' as [E'|E']; [discriminate E'|]); by apply not_elem_of_nil in E']|]).
  by apply not_elem_of_nil in E.
Qed.

Lemma wt_ready : wait_ready (H0 := sp_image) wt_state [] 0 wt_parent 1 wt_child [ex_page 8].
Proof.
  split.
  - exact wt_alloc.
  - exists (mk_cpu (Some 0%nat) zero_context 0 false). split; reflexivity.
  - split; [reflexivity|by exists ""%string].
  - split; [lia|]. split; [reflexivity|]. split; [reflexivity|]. split; [reflexivity|]. split; [by exists ""%string|discriminate].
  - intros i Hi. assert (i = 0%nat) as -> by lia. exists wt_parent. split; [reflexivity|discriminate].
  - split; [exact wt_owned|split; [vm_compute; split; congruence|reflexivity]| |vm_compute; reflexivity].
    split; [split; [reflexivity|vm_compute; split; congruence]|]. split; [apply not_elem_of_nil|].
    split; [intros E%list_elem_of_singleton; discriminate E|].
    intros path Hok E. apply sp_path in E; [|by left|done]. apply sp_page_ok in E as [_ E]. by apply E.
  - exact wt_user.
Qed.

Lemma wait_reaps_witness : exists s' l',
  wait (H := idle_world) (H0 := sp_image) 0 wt_state = Ok 2 s' /\ alloc_inv (H0 := sp_image) s' l' /\
  ex_page 1 ∈ l' /\ ex_page 4 ∈ l' /\ ex_page 8 ∈ l' /\ (ex_page 5 ∉ l').
Proof.
  destruct (wait_reaps (H := idle_world) (H0 := sp_image) wt_state [] 0 wt_parent 1 wt_child [ex_page 8] 0
    sp_image_ok wt_ready ltac:(lia)) as (r & s' & Hr & c & s0 & [(_ & -> & ->)|[[] _]] & Hw); [|reflexivity].
  destruct Hw as [(_ & -> & l' & [_ Ha Hf _])|(E & _)]; [|discriminate E].
  exists s', l'. split; [exact Hr|]. split; [exact Ha|]. rewrite !Hf. split; [|split; [|split]].
  - right. right. right. exists []. split; [exact path_ok_nil|reflexivity].
  - right. left. reflexivity.
  - right. right. left. apply list_elem_of_singleton. reflexivity.
  - intros [E|[E|[E|(path & Hok & E)]]]; [by apply not_elem_of_nil in E|discriminate E|apply list_elem_of_singleton in E; discriminate E|].
    apply sp_path in E; [|by left|exact Hok]. unfold sp_tables in E.
    repeat (apply elem_of_cons in E as [E|E]; [discriminate E|]). by apply not_elem_of_nil in E.
Defined.
