(* ===== verification/Exec.v ===== *)
(** * kernel/exec.c

    [exec] loads an ELF file into a new page table and commits to it at the end.
    The path is the list of its bytes, [argv] the addresses of the argument strings
    in kernel memory before the null pointer. *)

From stdpp Require Import gmap strings list fin_maps.
From Stdlib Require Import ZArith Lia.
From S2P Require Import Prelude Machine Str State Riscv Spinlock Kalloc Vm Copy Sched.
From S2P Require Import Sleeplock Bytes Bio Log Inode Dir Pipe Console File Proc.
Open Scope Z_scope.

#[local] Opaque memset st64 ld64.

(* @kernel/elf.h ELF_MAGIC *)
Definition ELF_MAGIC : Z := 0x464C457F.
(* @kernel/elf.h ELF_PROG_LOAD *)
Definition ELF_PROG_LOAD : Z := 1.

(* @kernel/elf.h elfhdr *)
Record elfhdr := mk_elfhdr {
  e_magic : Z;
  e_entry : Z;
  e_phoff : Z;
  e_phnum : Z
}.

(* @kernel/elf.h proghdr *)
Record proghdr := mk_proghdr {
  ph_type : Z;
  ph_off : Z;
  ph_vaddr : Z;
  ph_filesz : Z;
  ph_memsz : Z
}.

(** The structures in the bytes of the file. *)
Definition sizeof_elfhdr : Z := 64.
Definition sizeof_proghdr : Z := 56.
Definition get64 (d : list Z) (off : nat) : Z := le_decode (field d off 8).
Definition get_elfhdr (d : list Z) : elfhdr :=
  mk_elfhdr (get32 d 0) (get64 d 24) (get64 d 32) (get16 d 56).
Definition get_proghdr (d : list Z) : proghdr :=
  mk_proghdr (get32 d 0) (get64 d 8) (get64 d 16) (get64 d 32) (get64 d 40).

Section Exec.
Context `{World kstate} `{KernelImage} `{Uart} `{BlockDev}.

(* @kernel/exec.c loadseg *)
Definition loadseg (pt va : Z) (ip : nat) (offset sz : Z) : K Z :=
  if negb (va mod PGSIZE =? 0) then panic "loadseg: va must be page aligned"
  else
  iter (S (S (Z.to_nat (sz / PGSIZE)))) (fun i =>
    if i <? sz then
      let* pa := walkaddr pt (u64 (va + i)) in
      if pa =? 0 then panic "loadseg: address should exist"
      else
      let n := if sz - i <? PGSIZE then sz - i else PGSIZE in
      let* (r, _) := readi ip (ToKernel pa) (u32 (offset + i)) n in
      if negb (r =? n) then ret (inr (-1))
      else ret (inl (u32 (i + PGSIZE)))
    else ret (inr 0)) 0.

(** The program headers: the size of the image, or the size at the failure. *)
(* @kernel/exec.c exec *)
Definition exec_segments (ip : nat) (pt : Z) (elf : elfhdr) : K (Z + Z) :=
  iter (S (Z.to_nat (e_phnum elf))) (fun '(i, off, sz) =>
    if i <? e_phnum elf then
      let* (n, bytes) := readi ip ToLocal (u32 off) sizeof_proghdr in
      if negb (n =? sizeof_proghdr) then ret (inr (inr sz))
      else
      let ph := get_proghdr bytes in
      if negb (ph_type ph =? ELF_PROG_LOAD) then ret (inl (i + 1, i32 (off + sizeof_proghdr), sz))
      else if ph_memsz ph <? ph_filesz ph then ret (inr (inr sz))
      else if u64 (ph_vaddr ph + ph_memsz ph) <? ph_vaddr ph then ret (inr (inr sz))
      else
      let* sz1 := uvmalloc pt sz (u64 (ph_vaddr ph + ph_memsz ph)) in
      if sz1 =? 0 then ret (inr (inr sz))
      else if negb (ph_vaddr ph mod PGSIZE =? 0) then ret (inr (inr sz1))
      else
      let* r := loadseg pt (ph_vaddr ph) ip (u32 (ph_off ph)) (u32 (ph_filesz ph)) in
      if r <? 0 then ret (inr (inr sz1))
      else ret (inl (i + 1, i32 (off + sizeof_proghdr), sz1))
    else ret (inr (inl sz))) (0, i32 (e_phoff elf), 0).

(** The argument strings: the final [sp] and [ustack], or [None]. *)
(* @kernel/exec.c exec *)
Definition exec_args (pt sp stackbase : Z) (argv : list Z) : K (option (Z * list Z)) :=
  iter (S (length argv)) (fun '(rest, argc, sp, ustack) =>
    match rest with
    | [] => ret (inr (Some (sp, ustack)))
    | a :: rest =>
      if MAXARG <=? argc then ret (inr None)
      else
      let* len := gets (fun s => strlen (Z.to_nat PGSIZE) (mem s) a) in
      let* len := deref len in
      let sp := u64 (sp - (len + 1)) in
      let sp := u64 (sp - sp mod 16) in
      if sp <? stackbase then ret (inr None)
      else
      let* str := gets (fun s => ldbytes (mem s) a (Z.to_nat (len + 1))) in
      let* r := copyout pt sp str (len + 1) in
      if r <? 0 then ret (inr None)
      else ret (inl (rest, argc + 1, sp, ustack ++ [sp]))
    end) (argv, 0, sp, []).

(** [bad:] with the page table, its size and the inode when it is still locked. *)
(* @kernel/exec.c exec *)
Definition exec_bad (pt sz : Z) (ip : option nat) : K Z :=
  when (negb (pt =? 0)) (proc_freepagetable pt sz) ;;;
  match ip with
  | Some ip => iunlockput ip ;;; end_op
  | None => ret tt
  end ;;;
  ret (-1).

(** The path after its last slash. *)
Fixpoint last_elem (path last : list Z) : list Z :=
  match path with
  | [] => last
  | c :: path => last_elem path (if c =? SLASH then path else last)
  end.

(** From the loaded image on: stack, arguments, commit. *)
(* @kernel/exec.c exec *)
Definition exec_commit (path argv : list Z) (elf : elfhdr) (pt sz : Z) : K Z :=
  let* me := myproc in
  let* p := deref me in
  let* oldsz := get_proc p psz in
  let sz := PGROUNDUP sz in
  let* sz1 := uvmalloc pt sz (u64 (sz + 2 * PGSIZE)) in
  if sz1 =? 0 then exec_bad pt sz None
  else
  uvmclear pt (u64 (sz1 - 2 * PGSIZE)) ;;;
  let stackbase := u64 (sz1 - PGSIZE) in
  let* r := exec_args pt sz1 stackbase argv in
  match r with
  | None => exec_bad pt sz1 None
  | Some (sp, ustack) =>
    let argc := Z.of_nat (length argv) in
    let sp := u64 (sp - (argc + 1) * 8) in
    let sp := u64 (sp - sp mod 16) in
    if sp <? stackbase then exec_bad pt sz1 None
    else
    let* r := copyout pt sp (mjoin (le_encode 8 <$> (ustack ++ [0]))) ((argc + 1) * 8) in
    if r <? 0 then exec_bad pt sz1 None
    else
    tf_set p tf_a1 sp ;;;
    let* nm := get_proc p name in
    modify_mem (fun m => stbytes m nm (take 15 (last_elem path path) ++ [0])) ;;;
    let* oldpagetable := get_proc p pagetable in
    modify_proc p (set_pagetable pt) ;;;
    modify_proc p (set_psz sz1) ;;;
    tf_set p epc (e_entry elf) ;;;
    tf_set p tf_sp sp ;;;
    proc_freepagetable oldpagetable oldsz ;;;
    ret argc
  end.

(* @kernel/exec.c exec *)
Definition exec (path argv : list Z) : K Z :=
  let* me := myproc in
  begin_op ;;;
  let* r := namei path in
  match r with
  | None =>
    end_op ;;;
    ret (-1)
  | Some ip =>
    ilock (Some ip) ;;;
    let* (n, bytes) := readi ip ToLocal 0 sizeof_elfhdr in
    if negb (n =? sizeof_elfhdr) then exec_bad 0 0 (Some ip)
    else
    let elf := get_elfhdr bytes in
    if negb (e_magic elf =? ELF_MAGIC) then exec_bad 0 0 (Some ip)
    else
    let* p := deref me in
    let* pt := proc_pagetable p in
    if pt =? 0 then exec_bad 0 0 (Some ip)
    else
    let* r := exec_segments ip pt elf in
    match r with
    | inr sz => exec_bad pt sz (Some ip)
    | inl sz =>
      iunlockput ip ;;;
      end_op ;;;
      exec_commit path argv elf pt sz
    end
  end.
End Exec.
