(* ===== verification/Syscall.v ===== *)
(** * kernel/syscall.c, kernel/sysproc.c, kernel/sysfile.c

    The system calls.  Arguments are read from the trap frame; a string argument is
    returned as its length and its bytes.  [pad] is what the padding of the
    [struct stat] on the kernel stack holds when [fstat] copies it out. *)

From stdpp Require Import gmap strings list fin_maps.
From Stdlib Require Import ZArith Lia.
From S2P Require Import Prelude Machine Str State Riscv Spinlock Kalloc Vm Copy Sched.
From S2P Require Import Sleeplock Bytes Bio Log Inode Dir Pipe Console File Proc Exec.
Open Scope Z_scope.

#[local] Opaque memset st64 ld64.

(* @kernel/fcntl.h O_RDONLY *)
Definition O_RDONLY : Z := 0.
(* @kernel/fcntl.h O_WRONLY *)
Definition O_WRONLY : Z := 1.
(* @kernel/fcntl.h O_RDWR *)
Definition O_RDWR : Z := 2.
(* @kernel/fcntl.h O_CREATE *)
Definition O_CREATE : Z := 0x200.
(* @kernel/fcntl.h O_TRUNC *)
Definition O_TRUNC : Z := 0x400.

(** The C string at the start of an array. *)
Fixpoint cut0 (d : list Z) : list Z :=
  match d with
  | [] => []
  | c :: d => if c =? 0 then [] else c :: cut0 d
  end.

(** An array of [DIRSIZ] bytes on the stack. *)
Definition name_array : list Z := replicate (Z.to_nat DIRSIZ) 0.
(** The strings "." and ".." . *)
Definition dot : list Z := [46; 0].
Definition dotdot : list Z := [46; 46; 0].

Section Syscall.
Context `{World kstate} `{KernelImage} `{Uart} `{BlockDev}.

(** The process that runs, which these functions dereference. *)
Definition curproc : K nat := let* p := myproc in deref p.

(** ** Arguments *)

(** The status and the value. *)
(* @kernel/syscall.c fetchaddr *)
Definition fetchaddr (addr : Z) : K (Z * Z) :=
  let* p := curproc in
  let* sz := get_proc p psz in
  if (sz <=? addr) || (sz <? u64 (addr + 8)) then ret (-1, 0)
  else
  let* pt := get_proc p pagetable in
  let* (r, bytes) := copyin pt addr 8 in
  if negb (r =? 0) then ret (-1, 0) else ret (0, le_decode bytes).

(** The result and the bytes stored in [buf]. *)
(* @kernel/syscall.c fetchstr *)
Definition fetchstr (addr max : Z) : K (Z * list Z) :=
  let* p := curproc in
  let* pt := get_proc p pagetable in
  let* (err, buf) := copyinstr pt addr max in
  if err <? 0 then ret (err, buf) else ret (Z.of_nat (length (cut0 buf)), buf).

(* @kernel/syscall.c argraw *)
Definition argraw (n : Z) : K Z :=
  let* p := curproc in
  if n =? 0 then tf_get p tf_a0
  else if n =? 1 then tf_get p tf_a1
  else if n =? 2 then tf_get p tf_a2
  else if n =? 3 then tf_get p tf_a3
  else if n =? 4 then tf_get p tf_a4
  else if n =? 5 then tf_get p tf_a5
  else panic "argraw".

(* @kernel/syscall.c argint *)
Definition argint (n : Z) : K Z := let* x := argraw n in ret (i32 x).

(* @kernel/syscall.c argaddr *)
Definition argaddr (n : Z) : K Z := argraw n.

(** The result and the string. *)
(* @kernel/syscall.c argstr *)
Definition argstr (n max : Z) : K (Z * list Z) :=
  let* addr := argaddr n in
  let* (r, buf) := fetchstr addr max in
  ret (r, cut0 buf).

(** ** kernel/sysproc.c *)

(* @kernel/sysproc.c sys_exit *)
Definition sys_exit : K Z :=
  let* n := argint 0 in
  exit n ;;;
  ret 0.

(* @kernel/sysproc.c sys_getpid *)
Definition sys_getpid : K Z := let* p := curproc in get_proc p pid.

(* @kernel/sysproc.c sys_fork *)
Definition sys_fork : K Z := fork.

(* @kernel/sysproc.c sys_wait *)
Definition sys_wait : K Z := let* p := argaddr 0 in wait p.

(* @kernel/sysproc.c sys_sbrk *)
Definition sys_sbrk : K Z :=
  let* n := argint 0 in
  let* p := curproc in
  let* sz := get_proc p psz in
  let addr := i32 sz in
  let* r := growproc n in
  if r <? 0 then ret (-1) else ret addr.

(* @kernel/sysproc.c sys_sleep *)
Definition sys_sleep : K Z :=
  let* n := argint 0 in
  acquire L_ticks ;;;
  let* ticks0 := gets ticks in
  iter (S world_fuel) (fun _ : unit =>
    let* t := gets ticks in
    if u32 (t - ticks0) <? u32 n then
      let* p := curproc in
      let* kl := get_proc p killed in
      if kl : bool then
        release L_ticks ;;;
        ret (inr (-1))
      else
        sleep Ch_ticks L_ticks ;;;
        ret (inl tt)
    else
      release L_ticks ;;;
      ret (inr 0)) tt.

(* @kernel/sysproc.c sys_kill *)
Definition sys_kill : K Z := let* pid := argint 0 in kill pid.

(* @kernel/sysproc.c sys_uptime *)
Definition sys_uptime : K Z :=
  acquire L_ticks ;;;
  let* xticks := gets ticks in
  release L_ticks ;;;
  ret xticks.

(** ** kernel/sysfile.c *)

(** The descriptor and the file, or [None] for -1. *)
(* @kernel/sysfile.c argfd *)
Definition argfd (n : Z) : K (option (Z * nat)) :=
  let* fd := argint n in
  if (fd <? 0) || (NOFILE <=? fd) then ret None
  else
  let* p := curproc in
  let* fs := get_proc p ofile in
  let* f := deref (fs !! Z.to_nat fd) in
  match f with
  | None => ret None
  | Some f => ret (Some (fd, f))
  end.

Definition set_fd (p : nat) (fd : Z) (f : option nat) : K unit :=
  modify_proc p (fun x => set_ofile (<[Z.to_nat fd := f]> (ofile x)) x).

(* @kernel/sysfile.c fdalloc *)
Definition fdalloc (f : nat) : K Z :=
  let* p := curproc in
  let* r := for_each (seqZ 0 NOFILE) (fun fd =>
    let* fs := get_proc p ofile in
    let* x := deref (fs !! Z.to_nat fd) in
    match x with
    | None => set_fd p fd (Some f) ;;; ret (Some fd)
    | Some _ => ret None
    end) in
  ret (default (-1) r).

(* @kernel/sysfile.c sys_dup *)
Definition sys_dup : K Z :=
  let* r := argfd 0 in
  match r with
  | None => ret (-1)
  | Some (_, f) =>
    let* fd := fdalloc f in
    if fd <? 0 then ret (-1)
    else
    let* _ := filedup f in
    ret fd
  end.

(* @kernel/sysfile.c sys_read *)
Definition sys_read : K Z :=
  let* r := argfd 0 in
  match r with
  | None => ret (-1)
  | Some (_, f) =>
    let* n := argint 2 in
    let* p := argaddr 1 in
    fileread f p n
  end.

(* @kernel/sysfile.c sys_write *)
Definition sys_write : K Z :=
  let* r := argfd 0 in
  match r with
  | None => ret (-1)
  | Some (_, f) =>
    let* n := argint 2 in
    let* p := argaddr 1 in
    filewrite f p n
  end.

(* @kernel/sysfile.c sys_close *)
Definition sys_close : K Z :=
  let* r := argfd 0 in
  match r with
  | None => ret (-1)
  | Some (fd, f) =>
    let* p := curproc in
    set_fd p fd None ;;;
    fileclose f ;;;
    ret 0
  end.

(* @kernel/sysfile.c sys_fstat *)
Definition sys_fstat (pad : list Z) : K Z :=
  let* r := argfd 0 in
  match r with
  | None => ret (-1)
  | Some (_, f) =>
    let* st := argaddr 1 in
    filestat pad f st
  end.

(** [ip->nlink += d; iupdate(ip)] *)
Definition add_nlink (ip : nat) (d : Z) : K unit :=
  modify_inode ip (fun i => set_i_nlink (i16 (i_nlink i + d)) i) ;;;
  iupdate ip.

(** [bad:] of [sys_link]. *)
(* @kernel/sysfile.c sys_link *)
Definition sys_link_bad (ip : nat) : K Z :=
  ilock (Some ip) ;;;
  add_nlink ip (-1) ;;;
  iunlockput ip ;;;
  end_op ;;;
  ret (-1).

(* @kernel/sysfile.c sys_link *)
Definition sys_link : K Z :=
  let* (r, old) := argstr 0 MAXPATH in
  if r <? 0 then ret (-1)
  else
  let* (r, new) := argstr 1 MAXPATH in
  if r <? 0 then ret (-1)
  else
  begin_op ;;;
  let* r := namei old in
  match r with
  | None =>
    end_op ;;;
    ret (-1)
  | Some ip =>
    ilock (Some ip) ;;;
    let* type := get_inode ip i_type in
    if type =? T_DIR then
      iunlockput ip ;;;
      end_op ;;;
      ret (-1)
    else
    add_nlink ip 1 ;;;
    iunlock (Some ip) ;;;
    let* (d, name) := nameiparent new name_array in
    match d with
    | None => sys_link_bad ip
    | Some dp =>
      ilock (Some dp) ;;;
      let* ddev := get_inode dp i_dev in
      let* idev := get_inode ip i_dev in
      let* inum := get_inode ip i_inum in
      let* failed := (if negb (ddev =? idev) then ret true
                      else let* r := dirlink dp name inum in ret (r <? 0)) in
      if failed : bool then
        iunlockput dp ;;;
        sys_link_bad ip
      else
        iunlockput dp ;;;
        iput ip ;;;
        end_op ;;;
        ret 0
    end
  end.

(* @kernel/sysfile.c isdirempty *)
Definition isdirempty (dp : nat) : K bool :=
  let* size := get_inode dp i_size in
  let* r := for_each (dirent_offs (2 * sizeof_dirent) size) (fun off =>
    let* (n, bytes) := readi dp ToLocal off sizeof_dirent in
    if negb (n =? sizeof_dirent) then panic "isdirempty: readi"
    else if negb (d_inum (get_dirent bytes) =? 0) then ret (Some false)
    else ret None) in
  ret (default true r).

(** [bad:] of [sys_unlink]. *)
(* @kernel/sysfile.c sys_unlink *)
Definition sys_unlink_bad (dp : nat) : K Z :=
  iunlockput dp ;;;
  end_op ;;;
  ret (-1).

(* @kernel/sysfile.c sys_unlink *)
Definition sys_unlink : K Z :=
  let* (r, path) := argstr 0 MAXPATH in
  if r <? 0 then ret (-1)
  else
  begin_op ;;;
  let* (d, name) := nameiparent path name_array in
  match d with
  | None =>
    end_op ;;;
    ret (-1)
  | Some dp =>
    ilock (Some dp) ;;;
    if (namecmp name dot =? 0) || (namecmp name dotdot =? 0) then sys_unlink_bad dp
    else
    let* r := dirlookup dp name in
    match r with
    | None => sys_unlink_bad dp
    | Some (ip, off) =>
      ilock (Some ip) ;;;
      let* nlink := get_inode ip i_nlink in
      if nlink <? 1 then panic "unlink: nlink < 1"
      else
      let* type := get_inode ip i_type in
      let* nonempty := (if type =? T_DIR then let* e := isdirempty ip in ret (negb e) else ret false) in
      if nonempty : bool then
        iunlockput ip ;;;
        sys_unlink_bad dp
      else
      let* n := writei dp (FromLocal (replicate (Z.to_nat sizeof_dirent) 0)) off sizeof_dirent in
      if negb (n =? sizeof_dirent) then panic "unlink: writei"
      else
      let* type := get_inode ip i_type in
      when (type =? T_DIR) (add_nlink dp (-1)) ;;;
      iunlockput dp ;;;
      add_nlink ip (-1) ;;;
      iunlockput ip ;;;
      end_op ;;;
      ret 0
    end
  end.

(* @kernel/sysfile.c create *)
Definition create (path : list Z) (type major minor : Z) : K (option nat) :=
  let* (d, name) := nameiparent path name_array in
  match d with
  | None => ret None
  | Some dp =>
    ilock (Some dp) ;;;
    let* r := dirlookup dp name in
    match r with
    | Some (ip, _) =>
      iunlockput dp ;;;
      ilock (Some ip) ;;;
      let* t := get_inode ip i_type in
      if (type =? T_FILE) && ((t =? T_FILE) || (t =? T_DEVICE)) then ret (Some ip)
      else
      iunlockput ip ;;;
      ret None
    | None =>
      let* dev := get_inode dp i_dev in
      let* ip := ialloc dev type in
      ilock (Some ip) ;;;
      modify_inode ip (set_i_major major) ;;;
      modify_inode ip (set_i_minor minor) ;;;
      modify_inode ip (set_i_nlink 1) ;;;
      iupdate ip ;;;
      let* inum := get_inode ip i_inum in
      when (type =? T_DIR)
        (add_nlink dp 1 ;;;
         let* r := dirlink ip dot inum in
         if r <? 0 then panic "create dots"
         else
         let* dinum := get_inode dp i_inum in
         let* r := dirlink ip dotdot dinum in
         if r <? 0 then panic "create dots" else ret tt) ;;;
      let* r := dirlink dp name inum in
      if r <? 0 then panic "create: dirlink"
      else
      iunlockput dp ;;;
      ret (Some ip)
    end
  end.

Definition flag (omode f : Z) : bool := negb (Z.land omode f =? 0).

(** The inode to open, locked; [None]: the call fails and [end_op] was called. *)
(* @kernel/sysfile.c sys_open *)
Definition sys_open_inode (path : list Z) (omode : Z) : K (option nat) :=
  if flag omode O_CREATE then
    let* r := create path T_FILE 0 0 in
    match r with
    | None => end_op ;;; ret None
    | Some ip => ret (Some ip)
    end
  else
  let* r := namei path in
  match r with
  | None => end_op ;;; ret None
  | Some ip =>
    ilock (Some ip) ;;;
    let* type := get_inode ip i_type in
    if (type =? T_DIR) && negb (omode =? O_RDONLY) then
      iunlockput ip ;;;
      end_op ;;;
      ret None
    else ret (Some ip)
  end.

(** The fields of the new file. *)
(* @kernel/sysfile.c sys_open *)
Definition sys_open_file (f ip : nat) (omode : Z) : K unit :=
  let* i := get_inode ip id in
  (if i_type i =? T_DEVICE then
     modify_file f (set_f_type FD_DEVICE) ;;;
     modify_file f (set_f_major (i_major i))
   else
     modify_file f (set_f_type FD_INODE) ;;;
     modify_file f (set_f_off 0)) ;;;
  modify_file f (set_f_ip (Some ip)) ;;;
  modify_file f (set_readable (negb (flag omode O_WRONLY))) ;;;
  modify_file f (set_writable (flag omode O_WRONLY || flag omode O_RDWR)) ;;;
  when (flag omode O_TRUNC && (i_type i =? T_FILE)) (itrunc ip).

(* @kernel/sysfile.c sys_open *)
Definition sys_open : K Z :=
  let* (n, path) := argstr 0 MAXPATH in
  if n <? 0 then ret (-1)
  else
  let* omode := argint 1 in
  begin_op ;;;
  let* r := sys_open_inode path omode in
  match r with
  | None => ret (-1)
  | Some ip =>
    let fail := iunlockput ip ;;; end_op ;;; ret (-1) in
    let* i := get_inode ip id in
    if (i_type i =? T_DEVICE) && ((i_major i <? 0) || (NDEV <=? i_major i)) then fail
    else
    let* f := filealloc in
    match f with
    | None => fail
    | Some f =>
      let* fd := fdalloc f in
      if fd <? 0 then
        fileclose f ;;;
        fail
      else
      sys_open_file f ip omode ;;;
      iunlock (Some ip) ;;;
      end_op ;;;
      ret fd
    end
  end.

(* @kernel/sysfile.c sys_mkdir *)
Definition sys_mkdir : K Z :=
  begin_op ;;;
  let* (r, path) := argstr 0 MAXPATH in
  let* r := (if r <? 0 then ret None else create path T_DIR 0 0) in
  match r with
  | None =>
    end_op ;;;
    ret (-1)
  | Some ip =>
    iunlockput ip ;;;
    end_op ;;;
    ret 0
  end.

(* @kernel/sysfile.c sys_mknod *)
Definition sys_mknod : K Z :=
  begin_op ;;;
  let* (r, path) := argstr 0 MAXPATH in
  let* r := (if r <? 0 then ret None
             else let* major := argint 1 in
                  let* minor := argint 2 in
                  create path T_DEVICE (i16 major) (i16 minor)) in
  match r with
  | None =>
    end_op ;;;
    ret (-1)
  | Some ip =>
    iunlockput ip ;;;
    end_op ;;;
    ret 0
  end.

(* @kernel/sysfile.c sys_chdir *)
Definition sys_chdir : K Z :=
  let* me := myproc in
  begin_op ;;;
  let* (r, path) := argstr 0 MAXPATH in
  let* r := (if r <? 0 then ret None else namei path) in
  match r with
  | None =>
    end_op ;;;
    ret (-1)
  | Some ip =>
    ilock (Some ip) ;;;
    let* type := get_inode ip i_type in
    if negb (type =? T_DIR) then
      iunlockput ip ;;;
      end_op ;;;
      ret (-1)
    else
    iunlock (Some ip) ;;;
    let* p := deref me in
    let* cw := get_proc p cwd in
    let* cw := deref cw in
    iput cw ;;;
    end_op ;;;
    modify_proc p (set_cwd (Some ip)) ;;;
    ret 0
  end.

(** The argument pages, and whether the vector was fetched. *)
(* @kernel/sysfile.c sys_exec *)
Definition sys_exec_args (uargv : Z) : K (bool * list Z) :=
  iter (S (Z.to_nat MAXARG)) (fun '(i, argv) =>
    if MAXARG <=? i then ret (inr (false, argv))
    else
    let* (r, uarg) := fetchaddr (u64 (uargv + 8 * i)) in
    if r <? 0 then ret (inr (false, argv))
    else if uarg =? 0 then ret (inr (true, argv))
    else
    let* a := kalloc in
    if a =? 0 then ret (inr (false, argv))
    else
    let* (n, bytes) := fetchstr uarg PGSIZE in
    modify_mem (fun m => stbytes m a bytes) ;;;
    if n <? 0 then ret (inr (false, argv ++ [a]))
    else ret (inl (i + 1, argv ++ [a]))) (0, []).

(* @kernel/sysfile.c sys_exec *)
Definition sys_exec : K Z :=
  let* (r, path) := argstr 0 MAXPATH in
  if r <? 0 then ret (-1)
  else
  let* uargv := argaddr 1 in
  let* (ok, argv) := sys_exec_args uargv in
  let* r := (if ok : bool then exec path argv else ret (-1)) in
  for_all argv kfree ;;;
  ret r.

(* @kernel/sysfile.c sys_pipe *)
Definition sys_pipe : K Z :=
  let* p := curproc in
  let* fdarray := argaddr 0 in
  let* r := pipealloc in
  match r with
  | (0, Some rf, Some wf) =>
    let fail := fileclose rf ;;; fileclose wf ;;; ret (-1) in
    let* fd0 := fdalloc rf in
    if fd0 <? 0 then fail
    else
    let* fd1 := fdalloc wf in
    if fd1 <? 0 then
      set_fd p fd0 None ;;;
      fail
    else
    let* pt := get_proc p pagetable in
    let* r := copyout pt fdarray (le_encode 4 fd0) 4 in
    let* r := (if r <? 0 then ret r else copyout pt (u64 (fdarray + 4)) (le_encode 4 fd1) 4) in
    if r <? 0 then
      set_fd p fd0 None ;;;
      set_fd p fd1 None ;;;
      fail
    else ret 0
  | _ => ret (-1)
  end.

(** ** The dispatcher *)

(* @kernel/syscall.h SYS_close *)
Definition SYS_close : Z := 21.

(** [syscalls[num]]; [None] beyond the table. *)
(* @kernel/syscall.c:107-129 syscalls *)
Definition syscalls (pad : list Z) (num : Z) : option (K Z) :=
  [ sys_fork; sys_exit; sys_wait; sys_pipe; sys_read; sys_kill; sys_exec; sys_fstat pad;
    sys_chdir; sys_dup; sys_getpid; sys_sbrk; sys_sleep; sys_uptime; sys_open; sys_write;
    sys_mknod; sys_unlink; sys_link; sys_mkdir; sys_close ] !! Z.to_nat (num - 1).

(* @kernel/syscall.c syscall *)
Definition syscall (pad : list Z) : K unit :=
  let* p := curproc in
  let* a7 := tf_get p tf_a7 in
  let num := i32 a7 in
  match (if (0 <? num) && (num <? SYS_close + 1) then syscalls pad num else None) with
  | Some f =>
    let* r := f in
    tf_set p tf_a0 (u64 r)
  | None =>
    let* pd := get_proc p pid in
    let* a := get_proc p name in
    let* nm := gets (fun s => cstr (mem s) a 16) in
    let* nm := deref nm in
    printf (str_bytes "%d %s: unknown sys call %d" ++ [10]) [AInt pd; AStr (Some nm); AInt num] ;;;
    tf_set p tf_a0 (u64 (-1))
  end.
End Syscall.
