(* ===== verification/Trap.v ===== *)
(** * kernel/trap.c, kernel/plic.c, kernel/start.c, kernel/main.c

    Entering and leaving the kernel, device interrupts, and the boot sequence.  What
    the assembly files and the board provide (addresses of entry points, the claim
    register of the interrupt controller, the clock, the disk driver's entry points)
    is the class [Board].  [usertrapret] ends in a jump into the trampoline page; it
    returns the two arguments of the jump. *)

From stdpp Require Import gmap strings list fin_maps.
From Stdlib Require Import ZArith Lia.
From S2P Require Import Prelude Machine Str State Riscv Spinlock Kalloc Vm Copy Sched.
From S2P Require Import Sleeplock Bytes Bio Log Inode Dir Pipe Console File Proc Exec.
From S2P Require Import Syscall.
Open Scope Z_scope.

#[local] Opaque memset st64 ld64.

(* @kernel/memlayout.h CLINT_MTIMECMP *)
Definition CLINT_MTIMECMP (hartid : Z) : Z := CLINT + 0x4000 + 8 * hartid.
(* @kernel/memlayout.h CLINT_MTIME *)
Definition CLINT_MTIME : Z := CLINT + 0xBFF8.
(* @kernel/memlayout.h PLIC_SENABLE *)
Definition PLIC_SENABLE (hart : Z) : Z := PLIC + 0x2080 + hart * 0x100.
(* @kernel/memlayout.h PLIC_SPRIORITY *)
Definition PLIC_SPRIORITY (hart : Z) : Z := PLIC + 0x201000 + hart * 0x2000.
(* @kernel/memlayout.h PLIC_SCLAIM *)
Definition PLIC_SCLAIM (hart : Z) : Z := PLIC + 0x201004 + hart * 0x2000.

Class Board := {
  kernelvec : Z;               (* kernelvec.S *)
  uservec : Z;                 (* trampoline.S *)
  userret : Z;
  usertrap_pc : Z;             (* address of [usertrap] *)
  timervec : Z;                (* kernelvec.S *)
  main_pc : Z;                 (* address of [main] *)
  mscratch0 : Z;               (* the array of start.c *)
  plic_pending : Z -> kstate -> Z;   (* what a read of the claim register yields *)
  clint_mtime : kstate -> Z;
  virtio_disk_intr : K unit;
  virtio_disk_init : K unit
}.

Section Trap.
Context `{World kstate} `{KernelImage} `{Uart} `{BlockDev} `{Board}.

(** ** kernel/plic.c *)

(** [*(uint32* )a = v] *)
Definition stm32 (a v : Z) : K unit := modify_mem (fun m => st32 m a v).

(* @kernel/plic.c plicinit *)
Definition plicinit : K unit :=
  stm32 (PLIC + UART0_IRQ * 4) 1 ;;;
  stm32 (PLIC + VIRTIO0_IRQ * 4) 1.

(* @kernel/plic.c plicinithart *)
Definition plicinithart : K unit :=
  let* hart := cpuid in
  stm32 (PLIC_SENABLE hart) (Z.lor (Z.shiftl 1 UART0_IRQ) (Z.shiftl 1 VIRTIO0_IRQ)) ;;;
  stm32 (PLIC_SPRIORITY hart) 0.

(* @kernel/plic.c plic_claim *)
Definition plic_claim : K Z :=
  let* hart := cpuid in
  let* irq := gets (plic_pending (PLIC_SCLAIM hart)) in
  ret (i32 irq).

(* @kernel/plic.c plic_complete *)
Definition plic_complete (irq : Z) : K unit :=
  let* hart := cpuid in
  stm32 (PLIC_SCLAIM hart) irq.

(** ** kernel/trap.c *)

(* @kernel/trap.c trapinit *)
Definition trapinit : K unit := initlock L_ticks "time".

(* @kernel/trap.c trapinithart *)
Definition trapinithart : K unit := w_stvec kernelvec.

(* @kernel/trap.c clockintr *)
Definition clockintr : K unit :=
  acquire L_ticks ;;;
  modify (fun s => set_ticks (u32 (ticks s + 1)) s) ;;;
  wakeup Ch_ticks ;;;
  release L_ticks.

(* @kernel/trap.c devintr *)
Definition devintr : K Z :=
  let* scause := r_scause in
  if negb (Z.land scause 0x8000000000000000 =? 0) && (Z.land scause 0xff =? 9) then
    let* irq := plic_claim in
    (if irq =? UART0_IRQ then uartintr
     else if irq =? VIRTIO0_IRQ then virtio_disk_intr
     else when (negb (irq =? 0)) (printf (str_bytes "unexpected interrupt irq=%d" ++ [10]) [AInt irq])) ;;;
    when (negb (irq =? 0)) (plic_complete irq) ;;;
    ret 1
  else if scause =? 0x8000000000000001 then
    let* id := cpuid in
    when (id =? 0) clockintr ;;;
    let* x := r_sip in
    w_sip (Z.land x (Z.lnot 2)) ;;;
    ret 2
  else ret 0.

(** [userret] is entered with [TRAPFRAME] and the user page table. *)
(* @kernel/trap.c usertrapret *)
Definition usertrapret : K (Z * Z) :=
  let* p := curproc in
  intr_off ;;;
  w_stvec (TRAMPOLINE + (uservec - trampoline)) ;;;
  let* x := r_satp in
  tf_set p kernel_satp x ;;;
  let* ks := get_proc p kstack in
  tf_set p kernel_sp (u64 (ks + PGSIZE)) ;;;
  tf_set p kernel_trap usertrap_pc ;;;
  let* x := r_tp in
  tf_set p kernel_hartid x ;;;
  let* x := r_sstatus in
  let x := Z.land x (Z.lnot SSTATUS_SPP) in
  let x := Z.lor x SSTATUS_SPIE in
  w_sstatus x ;;;
  let* pc := tf_get p epc in
  w_sepc pc ;;;
  let* pt := get_proc p pagetable in
  ret (TRAPFRAME, MAKE_SATP pt).

(* @kernel/trap.c usertrap *)
Definition usertrap (pad : list Z) : K (Z * Z) :=
  let* x := r_sstatus in
  if negb (Z.land x SSTATUS_SPP =? 0) then panic "usertrap: not from user mode"
  else
  w_stvec kernelvec ;;;
  let* p := curproc in
  let* pc := r_sepc in
  tf_set p epc pc ;;;
  let* cause := r_scause in
  let* which_dev :=
    (if cause =? 8 then
       let* kl := get_proc p killed in
       when kl (exit (-1)) ;;;
       let* pc := tf_get p epc in
       tf_set p epc (u64 (pc + 4)) ;;;
       intr_on ;;;
       syscall pad ;;;
       ret 0
     else
       let* d := devintr in
       if negb (d =? 0) then ret d
       else
       let* pd := get_proc p pid in
       printf (str_bytes "usertrap(): unexpected scause %p pid=%d" ++ [10]) [APtr cause; AInt pd] ;;;
       let* pc := r_sepc in
       let* v := r_stval in
       printf (str_bytes "            sepc=%p stval=%p" ++ [10]) [APtr pc; APtr v] ;;;
       modify_proc p (set_killed true) ;;;
       ret 0) in
  let* kl := get_proc p killed in
  when kl (exit (-1)) ;;;
  when (which_dev =? 2) yield ;;;
  usertrapret.

(* @kernel/trap.c kerneltrap *)
Definition kerneltrap : K unit :=
  let* pc := r_sepc in
  let* status := r_sstatus in
  let* cause := r_scause in
  if Z.land status SSTATUS_SPP =? 0 then panic "kerneltrap: not from supervisor mode"
  else
  let* i := intr_get in
  if i : bool then panic "kerneltrap: interrupts enabled"
  else
  let* which_dev := devintr in
  if which_dev =? 0 then
    printf (str_bytes "scause %p" ++ [10]) [APtr cause] ;;;
    let* pc := r_sepc in
    let* v := r_stval in
    printf (str_bytes "sepc=%p stval=%p" ++ [10]) [APtr pc; APtr v] ;;;
    panic "kerneltrap"
  else
  let* preempt :=
    (if which_dev =? 2 then
       let* p := myproc in
       match p with
       | None => ret false
       | Some p => let* st := get_proc p state in ret (bool_decide (st = RUNNING))
       end
     else ret false) in
  when preempt yield ;;;
  w_sepc pc ;;;
  w_sstatus status.

(* @kernel/proc.c forkret *)
Definition forkret : K (Z * Z) :=
  let* p := curproc in
  release (L_proc p) ;;;
  let* f := gets first in
  when f
    (modify (set_first false) ;;;
     fsinit ROOTDEV) ;;;
  usertrapret.

(** ** kernel/start.c *)

(* @kernel/start.c timerinit *)
Definition timerinit : K unit :=
  let* id := r_mhartid in
  let id := i32 id in
  let interval := 1000000 in
  let* now := gets clint_mtime in
  stm64 (CLINT_MTIMECMP id) (u64 (now + interval)) ;;;
  let scratch := mscratch0 + 8 * (32 * id) in
  stm64 (scratch + 8 * 4) (CLINT_MTIMECMP id) ;;;
  stm64 (scratch + 8 * 5) interval ;;;
  w_mscratch scratch ;;;
  w_mtvec timervec ;;;
  let* x := r_mstatus in
  w_mstatus (Z.lor x MSTATUS_MIE) ;;;
  let* x := r_mie in
  w_mie (Z.lor x MIE_MTIE).

(** [mret] then enters [main] in supervisor mode. *)
(* @kernel/start.c start *)
Definition start : K unit :=
  let* x := r_mstatus in
  let x := Z.land x (Z.lnot MSTATUS_MPP_MASK) in
  let x := Z.lor x MSTATUS_MPP_S in
  w_mstatus x ;;;
  w_mepc main_pc ;;;
  w_satp 0 ;;;
  w_medeleg 0xffff ;;;
  w_mideleg 0xffff ;;;
  let* x := r_sie in
  w_sie (Z.lor (Z.lor (Z.lor x SIE_SEIE) SIE_STIE) SIE_SSIE) ;;;
  timerinit ;;;
  let* id := r_mhartid in
  w_tp (i32 id).

(** ** kernel/main.c *)

(** What hart 0 does before the scheduler. *)
(* @kernel/main.c main *)
Definition main_boot : K unit :=
  consoleinit ;;;
  printfinit ;;;
  printf [10] [] ;;;
  printf (str_bytes "xv6 kernel is booting" ++ [10]) [] ;;;
  printf [10] [] ;;;
  kinit ;;;
  kvminit ;;;
  kvminithart ;;;
  procinit ;;;
  trapinit ;;;
  trapinithart ;;;
  plicinit ;;;
  plicinithart ;;;
  binit ;;;
  iinit ;;;
  fileinit ;;;
  virtio_disk_init ;;;
  userinit.

(** What the other harts do once hart 0 has set [started]. *)
(* @kernel/main.c main *)
Definition main_other : K unit :=
  let* id := cpuid in
  printf (str_bytes "hart %d starting" ++ [10]) [AInt id] ;;;
  kvminithart ;;;
  trapinithart ;;;
  plicinithart.

(* @kernel/main.c main *)
Definition main (rounds : nat) : K unit :=
  let* id := cpuid in
  (if id =? 0 then main_boot else main_other) ;;;
  scheduler rounds.

(** ** Returning to user space *)

Lemma wp_curproc me P (Q : nat -> kstate -> Prop) s c :
  settled s -> cpus s !! this_cpu s = Some c -> c_proc c = Some me -> procs s !! me = Some P ->
  Q me s -> wp curproc Q s.
Proof.
  intros Hs Hc Hme HP HQ. unfold curproc. wstep. eapply (wp_myproc c); [done|done|]. rewrite Hme. by wsteps.
Qed.

(** The trap frame with the four kernel fields filled in. *)
Definition kernel_fields (s : kstate) (P : proc) (m : memory) : memory :=
  let tf := trapframe P in
  let m := st64 m (tf + tf_offset kernel_satp) (satp (hart s)) in
  let m := st64 m (tf + tf_offset kernel_sp) (u64 (kstack P + PGSIZE)) in
  let m := st64 m (tf + tf_offset kernel_trap) usertrap_pc in
  st64 m (tf + tf_offset kernel_hartid) (tp (hart s)).

Definition is_kernel_field (r : tfreg) : bool :=
  match r with kernel_satp | kernel_sp | kernel_trap | kernel_hartid => true | _ => false end.

Lemma kernel_fields_other s P m r : is_kernel_field r = false ->
  ld64 (kernel_fields s P m) (trapframe P + tf_offset r) = ld64 m (trapframe P + tf_offset r).
Proof.
  intros Hr. assert (Ho : tf_offset r = 24 \/ 40 <= tf_offset r) by (destruct r; try done; simpl; lia).
  unfold kernel_fields. rewrite !ld64_st64_out; [done|simpl; lia..].
Qed.

(** [sstatus] as [usertrapret] leaves it. *)
Definition user_sstatus (x : Z) : Z :=
  u64 (Z.lor (Z.land (u64 (Z.land x (Z.lnot SSTATUS_SIE))) (Z.lnot SSTATUS_SPP)) SSTATUS_SPIE).

Lemma user_sstatus_bits x n : 0 <= x < 2 ^ 64 -> 0 <= n < 64 ->
  Z.testbit (user_sstatus x) n =
  if n =? 8 then false else if n =? 5 then true else if n =? 1 then false else Z.testbit x n.
Proof.
  intros Hx Hn. unfold user_sstatus, u64. rewrite !Z.mod_pow2_bits_low by lia.
  rewrite Z.lor_spec, Z.land_spec, Z.mod_pow2_bits_low by lia. rewrite Z.land_spec, !Z.lnot_spec by lia.
  change SSTATUS_SIE with (2 ^ 1). change SSTATUS_SPP with (2 ^ 8). change SSTATUS_SPIE with (2 ^ 5).
  rewrite !Z.pow2_bits_eqb by lia. rewrite (Z.eqb_sym 1 n), (Z.eqb_sym 8 n), (Z.eqb_sym 5 n).
  destruct (Z.eqb_spec n 8), (Z.eqb_spec n 5), (Z.eqb_spec n 1); subst; try lia; try done;
    rewrite ?andb_false_r, ?andb_true_r, ?orb_false_r, ?orb_true_r; done.
Qed.

Lemma wp_usertrapret me P c (Q : Z * Z -> kstate -> Prop) s :
  settled s -> cpus s !! this_cpu s = Some c -> c_proc c = Some me -> procs s !! me = Some P ->
  trapframe P <> 0 ->
  Q (TRAPFRAME, MAKE_SATP (pagetable P))
    (set_hart (set_sepc (u64 (ld64 (mem s) (trapframe P + tf_offset epc)))
                (set_sstatus (user_sstatus (sstatus (hart s)))
                  (set_stvec (u64 (TRAMPOLINE + (uservec - trampoline))) (hart s))))
      (set_mem (kernel_fields s P (mem s)) s)) ->
  wp usertrapret Q s.
Proof.
  intros Hs Hc Hme HP Ht HQ. unfold usertrapret. wstep. eapply wp_curproc; [done..|].
  unfold intr_off, w_stvec, r_satp, r_tp, r_sstatus, w_sstatus, w_sepc. wsteps. fields.
  eapply wp_tf_set; [exact HP|done|]. wstep. eapply wp_get_proc; [exact HP|].
  wstep. eapply wp_tf_set; [exact HP|done|]. wstep. eapply wp_tf_set; [exact HP|done|]. wsteps. fields.
  eapply wp_tf_set; [exact HP|done|]. wsteps. fields. cbv zeta. wsteps. fields.
  eapply wp_tf_get; [exact HP|done|]. wsteps. fields.
  eapply wp_get_proc; [exact HP|]. wsteps.
  pose proof (kernel_fields_other s P (mem s) epc eq_refl) as He. unfold kernel_fields in He, HQ. rewrite He.
  unfold user_sstatus in HQ. by destruct s as [[]].
Qed.

(** [usertrapret] leaves the kernel in a state from which [sret] enters user
    mode: the previous privilege is user (SPP clear), interrupts will be on there
    (SPIE set) and are off until then (SIE clear), no other status bit changes; the
    next trap goes to [uservec] in the trampoline page; the program counter is the
    one saved at the trap; the trap frame has the kernel's page table, stack, entry
    and hart for the next entry and keeps every saved user register; and [userret]
    gets the trap frame's address and the process's page table. *)
Theorem usertrapret_user (s : kstate) (me : nat) (P : proc) (c : cpu) :
  settled s -> cpus s !! this_cpu s = Some c -> c_proc c = Some me -> procs s !! me = Some P ->
  trapframe P <> 0 -> mem_bytes (mem s) -> 0 <= satp (hart s) < 2 ^ 64 -> 0 <= usertrap_pc < 2 ^ 64 ->
  0 <= tp (hart s) < 2 ^ 64 ->
  exists s', usertrapret s = Ok (TRAPFRAME, MAKE_SATP (pagetable P)) s' /\
    (forall n, 0 <= n < 64 -> Z.testbit (sstatus (hart s')) n =
       if n =? 8 then false else if n =? 5 then true else if n =? 1 then false
       else Z.testbit (sstatus (hart s)) n) /\
    stvec (hart s') = u64 (TRAMPOLINE + (uservec - trampoline)) /\
    sepc (hart s') = ld64 (mem s) (trapframe P + tf_offset epc) /\
    forall r, ld64 (mem s') (trapframe P + tf_offset r) =
      match r with
      | kernel_satp => satp (hart s)
      | kernel_sp => u64 (kstack P + PGSIZE)
      | kernel_trap => usertrap_pc
      | kernel_hartid => tp (hart s)
      | _ => ld64 (mem s) (trapframe P + tf_offset r)
      end.
Proof.
  intros Hs Hc Hme HP Ht Hmb Hsatp Hpc Htp. pose proof Hs as (c' & _ & _ & _ & _ & Hss).
  destruct (wp_run usertrapret (fun r t => r = (TRAPFRAME, MAKE_SATP (pagetable P)) /\
    t = set_hart (set_sepc (u64 (ld64 (mem s) (trapframe P + tf_offset epc)))
                (set_sstatus (user_sstatus (sstatus (hart s)))
                  (set_stvec (u64 (TRAMPOLINE + (uservec - trampoline))) (hart s))))
      (set_mem (kernel_fields s P (mem s)) s)) s) as (r & t & Hr & -> & ->);
    [by eapply wp_usertrapret|].
  eexists. split; [exact Hr|]. fields. split; [|split; [done|split]].
  - intros n Hn. by apply user_sstatus_bits.
  - rewrite u64_id; [done|]. by apply ld64_range.
  - intros r. destruct (is_kernel_field r) eqn:Er.
    + unfold kernel_fields. destruct r; try done; rewrite ?ld64_st64_out by (simpl; lia);
        apply ld64_st64_same; try done; apply u64_range.
    + rewrite kernel_fields_other by done. by destruct r.
Qed.
End Trap.

(** ** A concrete board and process *)

Definition ex_board : Board := {|
  kernelvec := KERNBASE; uservec := trampoline (KernelImage := ex_image); userret := trampoline (KernelImage := ex_image) + 144;
  usertrap_pc := KERNBASE + 0x2000; timervec := KERNBASE; main_pc := KERNBASE; mscratch0 := KERNBASE + 0x8000;
  plic_pending := fun _ _ => 0; clint_mtime := fun _ => 0;
  virtio_disk_intr := ret tt; virtio_disk_init := ret tt
|}.

Definition ex_running : proc := set_state RUNNING (set_trapframe 0x87ff0000 zero_proc).
Definition ex_trap : kstate :=
  set_procs (<[0%nat := ex_running]> (procs zero_kstate))
    (set_cpus (<[0%nat := set_c_proc (Some 0%nat) zero_cpu]> (cpus zero_kstate)) zero_kstate).

Lemma usertrapret_user_witness : exists s',
  usertrapret (H0 := ex_image) (H3 := ex_board) ex_trap = Ok (TRAPFRAME, MAKE_SATP 0) s' /\
  Z.testbit (sstatus (hart s')) 8 = false /\ Z.testbit (sstatus (hart s')) 5 = true /\
  stvec (hart s') = TRAMPOLINE.
Proof.
  destruct (usertrapret_user (H0 := ex_image) (H3 := ex_board) ex_trap 0 ex_running (set_c_proc (Some 0%nat) zero_cpu))
    as (s' & Hr & Hb & Hv & _).
  - exists (set_c_proc (Some 0%nat) zero_cpu). repeat split; done.
  - reflexivity.
  - reflexivity.
  - reflexivity.
  - discriminate.
  - exact empty_bytes.
  - cbn. lia.
  - cbn. unfold KERNBASE. lia.
  - cbn. lia.
  - exists s'. split; [exact Hr|]. split; [apply Hb; lia|]. split; [apply Hb; lia|]. rewrite Hv. reflexivity.
Defined.
