(* ===== verification/Asm.v ===== *)
(** * The assembly files: swtch.S, trampoline.S, kernelvec.S, entry.S, initcode.S

    Each routine is the list of its instructions, run by an interpreter of the few
    instructions the files use.  Loads, stores and instruction fetches go through
    the page table in [satp] as the hardware does it (three levels, no large pages;
    the kernel makes none); machine mode uses physical addresses.  The model has
    no TLB: [sfence.vma] has no effect.

    A routine is left by a jump, a return, a call or an exception return; these are
    the events of [run]. *)

From stdpp Require Import gmap strings list fin_maps.
From Stdlib Require Import ZArith Lia.
From S2P Require Import Prelude Machine Str State Riscv Spinlock Kalloc Vm Copy Uvm.
From S2P Require Import Sched Sleeplock Bytes Bio Log Inode Dir Pipe Console File Proc Exec.
From S2P Require Import Syscall Trap.
Open Scope Z_scope.

#[local] Opaque st64 ld64.

(** ** Registers and instructions *)

Inductive reg :=
| R_zero | R_ra | R_sp | R_gp | R_tp | R_t0 | R_t1 | R_t2 | R_s0 | R_s1
| R_a0 | R_a1 | R_a2 | R_a3 | R_a4 | R_a5 | R_a6 | R_a7
| R_s2 | R_s3 | R_s4 | R_s5 | R_s6 | R_s7 | R_s8 | R_s9 | R_s10 | R_s11
| R_t3 | R_t4 | R_t5 | R_t6.

#[export] Instance reg_eq_dec : EqDecision reg.
Proof. solve_decision. Defined.

Inductive csrname := C_sscratch | C_satp | C_mscratch | C_sip | C_mhartid.

Inductive instr :=
| Sd (rs : reg) (off : Z) (base : reg)
| Ld (rd : reg) (off : Z) (base : reg)
| Addi (rd rs : reg) (imm : Z)
| Add (rd rs1 rs2 : reg)
| Mul (rd rs1 rs2 : reg)
| Li (rd : reg) (imm : Z)
| La (rd : reg) (addr : Z)
| Csrr (rd : reg) (c : csrname)
| Csrw (c : csrname) (rs : reg)
| Csrrw (rd : reg) (c : csrname) (rs : reg)
| Sfence_vma
| Jr (rs : reg)
| Ret
| Call (f ret : Z)                       (* [ret]: the address of the next instruction *)
| Jal (target ret : Z)
| Sret
| Mret
| Ecall.

(** ** The machine *)

Inductive priv := U_mode | S_mode | M_mode.

#[export] Instance priv_eq_dec : EqDecision priv.
Proof. solve_decision. Defined.

Record mach := mk_mach { regs : reg -> Z; csrs : hartregs; mmem : memory; mode : priv }.

#[export] Instance eta_mach : Eta mach := fun m => mk_mach (regs m) (csrs m) (mmem m) (mode m).
Definition set_regs : (reg -> Z) -> mach -> mach := ltac:(make_setter regs).
Definition set_csrs : hartregs -> mach -> mach := ltac:(make_setter csrs).
Definition set_mmem : memory -> mach -> mach := ltac:(make_setter mmem).
Definition set_mode : priv -> mach -> mach := ltac:(make_setter mode).

Definition rget (m : mach) (r : reg) : Z := if decide (r = R_zero) then 0 else regs m r.
Definition rset (r : reg) (v : Z) (m : mach) : mach :=
  set_regs (fun x => if decide (x = r) then v else regs m x) m.

Definition cget (c : csrname) (h : hartregs) : Z :=
  match c with
  | C_sscratch => sscratch h | C_satp => satp h | C_mscratch => mscratch h
  | C_sip => sip h | C_mhartid => mhartid h
  end.
Definition cset (c : csrname) (v : Z) (h : hartregs) : hartregs :=
  match c with
  | C_sscratch => set_sscratch v h | C_satp => set_satp v h | C_mscratch => set_mscratch v h
  | C_sip => set_sip (Z.lor (Z.land (sip h) (Z.lnot 2)) (Z.land v 2)) h   (* only SSIP can be written *)
  | C_mhartid => h
  end.

(** ** Address translation *)

Inductive access := A_R | A_W | A_X.

Definition allows (a : access) (v : Z) : bool :=
  match a with A_R => has v PTE_R | A_W => has v PTE_W | A_X => has v PTE_X end.

Definition satp_root (x : Z) : Z := Z.shiftl (Z.land x (Z.ones 44)) 12.

Definition xlate (a : access) (m : mach) (va : Z) : option Z :=
  if bool_decide (mode m = M_mode) then Some va
  else if negb (Z.shiftr (satp (csrs m)) 60 =? 8) then Some va
  else
  let v := leaf_pte (mmem m) (satp_root (satp (csrs m))) va in
  if (0 <=? va) && (va <? MAXVA) && has v PTE_V && allows a v
     && Bool.eqb (has v PTE_U) (bool_decide (mode m = U_mode))
  then Some (PTE2PA v + va mod PGSIZE) else None.

(** ** Execution *)

Inductive event :=
| Next (m : mach)
| Goto (m : mach) (pc : Z)
| Called (m : mach) (f : Z) (rest : list instr)
| Env (m : mach) (rest : list instr)
| Faulted.

(** [sret]: the previous privilege (SPP) and interrupt enable (SPIE) come back. *)
Definition sret_status (x : Z) : Z :=
  let x1 := if Z.testbit x 5 then Z.lor x SSTATUS_SIE else Z.land x (Z.lnot SSTATUS_SIE) in
  Z.land (Z.lor x1 SSTATUS_SPIE) (Z.lnot SSTATUS_SPP).
Definition sret_mode (x : Z) : priv := if Z.testbit x 8 then S_mode else U_mode.

(** [mret], for MPP: what [timervec] returns to. *)
Definition mret_mode (x : Z) : priv :=
  let mpp := Z.land (Z.shiftr x 11) 3 in
  if mpp =? 3 then M_mode else if mpp =? 1 then S_mode else U_mode.
Definition mret_status (x : Z) : Z :=
  let x1 := if Z.testbit x 7 then Z.lor x MSTATUS_MIE else Z.land x (Z.lnot MSTATUS_MIE) in
  Z.land (Z.lor x1 (Z.shiftl 1 7)) (Z.lnot MSTATUS_MPP_MASK).

Definition exec (i : instr) (rest : list instr) (m : mach) : event :=
  match i with
  | Sd rs off b =>
    match xlate A_W m (u64 (rget m b + off)) with
    | Some a => Next (set_mmem (st64 (mmem m) a (rget m rs)) m)
    | None => Faulted
    end
  | Ld rd off b =>
    match xlate A_R m (u64 (rget m b + off)) with
    | Some a => Next (rset rd (ld64 (mmem m) a) m)
    | None => Faulted
    end
  | Addi rd rs imm => Next (rset rd (u64 (rget m rs + imm)) m)
  | Add rd rs1 rs2 => Next (rset rd (u64 (rget m rs1 + rget m rs2)) m)
  | Mul rd rs1 rs2 => Next (rset rd (u64 (rget m rs1 * rget m rs2)) m)
  | Li rd imm => Next (rset rd (u64 imm) m)
  | La rd addr => Next (rset rd addr m)
  | Csrr rd c => Next (rset rd (cget c (csrs m)) m)
  | Csrw c rs => Next (set_csrs (cset c (rget m rs) (csrs m)) m)
  | Csrrw rd c rs =>
    Next (rset rd (cget c (csrs m)) (set_csrs (cset c (rget m rs) (csrs m)) m))
  | Sfence_vma => Next m
  | Jr rs => Goto m (rget m rs)
  | Ret => Goto m (rget m R_ra)
  | Call f r => Called (rset R_ra r m) f rest
  | Jal t r => Goto (rset R_ra r m) t
  | Sret =>
    Goto (set_mode (sret_mode (sstatus (csrs m)))
           (set_csrs (set_sstatus (sret_status (sstatus (csrs m))) (csrs m)) m)) (sepc (csrs m))
  | Mret =>
    Goto (set_mode (mret_mode (mstatus (csrs m)))
           (set_csrs (set_mstatus (mret_status (mstatus (csrs m))) (csrs m)) m)) (mepc (csrs m))
  | Ecall => Env m rest
  end.

(** [fetch] tells whether the page the code is in can be executed. *)
Fixpoint run (fetch : mach -> bool) (code : list instr) (m : mach) : event :=
  match code with
  | [] => Next m
  | i :: code =>
    if fetch m then
      match exec i code m with
      | Next m => run fetch code m
      | e => e
      end
    else Faulted
  end.

(** ** The routines *)

(* @kernel/swtch.S:9-40 swtch *)
Definition swtch_code : list instr := [
  Sd R_ra 0 R_a0; Sd R_sp 8 R_a0; Sd R_s0 16 R_a0; Sd R_s1 24 R_a0; Sd R_s2 32 R_a0;
  Sd R_s3 40 R_a0; Sd R_s4 48 R_a0; Sd R_s5 56 R_a0; Sd R_s6 64 R_a0; Sd R_s7 72 R_a0;
  Sd R_s8 80 R_a0; Sd R_s9 88 R_a0; Sd R_s10 96 R_a0; Sd R_s11 104 R_a0;
  Ld R_ra 0 R_a1; Ld R_sp 8 R_a1; Ld R_s0 16 R_a1; Ld R_s1 24 R_a1; Ld R_s2 32 R_a1;
  Ld R_s3 40 R_a1; Ld R_s4 48 R_a1; Ld R_s5 56 R_a1; Ld R_s6 64 R_a1; Ld R_s7 72 R_a1;
  Ld R_s8 80 R_a1; Ld R_s9 88 R_a1; Ld R_s10 96 R_a1; Ld R_s11 104 R_a1;
  Ret ].

(* @kernel/trampoline.S:16-85 uservec *)
Definition uservec_code : list instr := [
  Csrrw R_a0 C_sscratch R_a0; Sd R_ra 40 R_a0; Sd R_sp 48 R_a0; Sd R_gp 56 R_a0; Sd R_tp 64 R_a0;
  Sd R_t0 72 R_a0; Sd R_t1 80 R_a0; Sd R_t2 88 R_a0; Sd R_s0 96 R_a0; Sd R_s1 104 R_a0;
  Sd R_a1 120 R_a0; Sd R_a2 128 R_a0; Sd R_a3 136 R_a0; Sd R_a4 144 R_a0; Sd R_a5 152 R_a0;
  Sd R_a6 160 R_a0; Sd R_a7 168 R_a0; Sd R_s2 176 R_a0; Sd R_s3 184 R_a0; Sd R_s4 192 R_a0;
  Sd R_s5 200 R_a0; Sd R_s6 208 R_a0; Sd R_s7 216 R_a0; Sd R_s8 224 R_a0; Sd R_s9 232 R_a0;
  Sd R_s10 240 R_a0; Sd R_s11 248 R_a0; Sd R_t3 256 R_a0; Sd R_t4 264 R_a0; Sd R_t5 272 R_a0;
  Sd R_t6 280 R_a0; Csrr R_t0 C_sscratch; Sd R_t0 112 R_a0; Ld R_sp 8 R_a0; Ld R_tp 32 R_a0;
  Ld R_t0 16 R_a0; Ld R_t1 0 R_a0; Csrw C_satp R_t1; Sfence_vma; Jr R_t0 ].

(* @kernel/trampoline.S:88-141 userret *)
Definition userret_code : list instr := [
  Csrw C_satp R_a1; Sfence_vma; Ld R_t0 112 R_a0; Csrw C_sscratch R_t0; Ld R_ra 40 R_a0;
  Ld R_sp 48 R_a0; Ld R_gp 56 R_a0; Ld R_tp 64 R_a0; Ld R_t0 72 R_a0; Ld R_t1 80 R_a0;
  Ld R_t2 88 R_a0; Ld R_s0 96 R_a0; Ld R_s1 104 R_a0; Ld R_a1 120 R_a0; Ld R_a2 128 R_a0;
  Ld R_a3 136 R_a0; Ld R_a4 144 R_a0; Ld R_a5 152 R_a0; Ld R_a6 160 R_a0; Ld R_a7 168 R_a0;
  Ld R_s2 176 R_a0; Ld R_s3 184 R_a0; Ld R_s4 192 R_a0; Ld R_s5 200 R_a0; Ld R_s6 208 R_a0;
  Ld R_s7 216 R_a0; Ld R_s8 224 R_a0; Ld R_s9 232 R_a0; Ld R_s10 240 R_a0; Ld R_s11 248 R_a0;
  Ld R_t3 256 R_a0; Ld R_t4 264 R_a0; Ld R_t5 272 R_a0; Ld R_t6 280 R_a0;
  Csrrw R_a0 C_sscratch R_a0; Sret ].

(* @kernel/kernelvec.S:10-86 kernelvec *)
Definition kernelvec_code (kerneltrap ret : Z) : list instr := [
  Addi R_sp R_sp (-256); Sd R_ra 0 R_sp; Sd R_sp 8 R_sp; Sd R_gp 16 R_sp; Sd R_tp 24 R_sp;
  Sd R_t0 32 R_sp; Sd R_t1 40 R_sp; Sd R_t2 48 R_sp; Sd R_s0 56 R_sp; Sd R_s1 64 R_sp;
  Sd R_a0 72 R_sp; Sd R_a1 80 R_sp; Sd R_a2 88 R_sp; Sd R_a3 96 R_sp; Sd R_a4 104 R_sp;
  Sd R_a5 112 R_sp; Sd R_a6 120 R_sp; Sd R_a7 128 R_sp; Sd R_s2 136 R_sp; Sd R_s3 144 R_sp;
  Sd R_s4 152 R_sp; Sd R_s5 160 R_sp; Sd R_s6 168 R_sp; Sd R_s7 176 R_sp; Sd R_s8 184 R_sp;
  Sd R_s9 192 R_sp; Sd R_s10 200 R_sp; Sd R_s11 208 R_sp; Sd R_t3 216 R_sp; Sd R_t4 224 R_sp;
  Sd R_t5 232 R_sp; Sd R_t6 240 R_sp; Call kerneltrap ret; Ld R_ra 0 R_sp; Ld R_sp 8 R_sp;
  Ld R_gp 16 R_sp; Ld R_t0 32 R_sp; Ld R_t1 40 R_sp; Ld R_t2 48 R_sp; Ld R_s0 56 R_sp;
  Ld R_s1 64 R_sp; Ld R_a0 72 R_sp; Ld R_a1 80 R_sp; Ld R_a2 88 R_sp; Ld R_a3 96 R_sp;
  Ld R_a4 104 R_sp; Ld R_a5 112 R_sp; Ld R_a6 120 R_sp; Ld R_a7 128 R_sp; Ld R_s2 136 R_sp;
  Ld R_s3 144 R_sp; Ld R_s4 152 R_sp; Ld R_s5 160 R_sp; Ld R_s6 168 R_sp; Ld R_s7 176 R_sp;
  Ld R_s8 184 R_sp; Ld R_s9 192 R_sp; Ld R_s10 200 R_sp; Ld R_s11 208 R_sp; Ld R_t3 216 R_sp;
  Ld R_t4 224 R_sp; Ld R_t5 232 R_sp; Ld R_t6 240 R_sp; Addi R_sp R_sp 256; Sret ].

(* @kernel/kernelvec.S:93-121 timervec *)
Definition timervec_code : list instr := [
  Csrrw R_a0 C_mscratch R_a0; Sd R_a1 0 R_a0; Sd R_a2 8 R_a0; Sd R_a3 16 R_a0; Ld R_a1 32 R_a0;
  Ld R_a2 40 R_a0; Ld R_a3 0 R_a1; Add R_a3 R_a3 R_a2; Sd R_a3 0 R_a1; Li R_a1 2; Csrw C_sip R_a1;
  Ld R_a3 16 R_a0; Ld R_a2 8 R_a0; Ld R_a1 0 R_a0; Csrrw R_a0 C_mscratch R_a0; Mret ].

(** [1024*4] is one page of stack per hart. *)
(* @kernel/entry.S:6-18 _entry *)
Definition entry_code (stack0 start ret : Z) : list instr := [
  La R_sp stack0; Li R_a0 (1024 * 4); Csrr R_a1 C_mhartid; Addi R_a1 R_a1 1; Mul R_a0 R_a0 R_a1;
  Add R_sp R_sp R_a0; Call start ret ].

(** A system call stub. *)
(* @user/usys.pl:9-16 entry *)
Definition usys_code (num : Z) : list instr := [Li R_a7 num; Ecall; Ret].

(** [exit] is the label of the loop, [ret] the address after it. *)
(* @user/initcode.S:8-19 start *)
Definition initcode_code (init argv exit ret : Z) : list instr := [
  La R_a0 init; La R_a1 argv; Li R_a7 7; Ecall; Li R_a7 2; Ecall; Jal exit ret ].

(** ** Blocks of stores and loads *)

Definition saves (b : reg) (L : list (reg * Z)) : list instr := (fun ro => Sd ro.1 ro.2 b) <$> L.
Definition loads (b : reg) (L : list (reg * Z)) : list instr := (fun ro => Ld ro.1 ro.2 b) <$> L.

Fixpoint save_mem (pa : Z) (f : reg -> Z) (L : list (reg * Z)) (mm : memory) : memory :=
  match L with
  | [] => mm
  | (r, o) :: L => save_mem pa f L (st64 mm (pa + o) (f r))
  end.
Fixpoint load_regs (mm : memory) (pa : Z) (L : list (reg * Z)) (f : reg -> Z) : reg -> Z :=
  match L with
  | [] => f
  | (r, o) :: L => load_regs mm pa L (fun x => if decide (x = r) then ld64 mm (pa + o) else f x)
  end.

(** Offsets of a frame of [n] bytes, eight bytes apart. *)
Definition frame_ok (n : Z) (L : list (reg * Z)) : Prop :=
  Forall (fun ro : reg * Z => 0 <= ro.2 /\ ro.2 + 8 <= n /\ ro.2 mod 8 = 0 /\ ro.1 <> R_zero) L /\
  NoDup L.*1 /\ NoDup L.*2.

Definition outside (pa n : Z) (m m' : memory) : Prop := forall x, x < pa \/ pa + n <= x -> ld8 m' x = ld8 m x.

Lemma outside_refl pa n m : outside pa n m m.
Proof. done. Qed.
Lemma outside_trans pa n m1 m2 m3 : outside pa n m1 m2 -> outside pa n m2 m3 -> outside pa n m1 m3.
Proof. intros H1 H2 x Hx. by rewrite H2, H1. Qed.
Lemma outside_st64 pa n m o v : 0 <= o -> o + 8 <= n -> outside pa n m (st64 m (pa + o) v).
Proof. intros H1 H2 x Hx. apply ld8_st64_out. lia. Qed.

Lemma save_mem_outside pa n f L m : Forall (fun ro : reg * Z => 0 <= ro.2 /\ ro.2 + 8 <= n) L ->
  outside pa n m (save_mem pa f L m).
Proof.
  intros HL. revert m. induction HL as [|[r o] L [H1 H2] HL IH]; intros m; cbn [save_mem]; [done|].
  eapply outside_trans; [|apply IH]. by apply outside_st64.
Qed.

Lemma save_mem_other pa f L m o : Forall (fun ro : reg * Z => ro.2 mod 8 = 0) L -> o mod 8 = 0 -> o ∉ L.*2 ->
  ld64 (save_mem pa f L m) (pa + o) = ld64 m (pa + o).
Proof.
  intros HL Ho. revert m. induction HL as [|[r o'] L Ho' HL IH]; intros m Hn; cbn [save_mem]; [done|].
  cbn in Hn, Ho'. apply not_elem_of_cons in Hn as [Hne Hn]. rewrite IH by done.
  apply ld64_st64_out. zdm.
Qed.

(** What was stored is there. *)
Lemma save_mem_at pa n f L m r o : frame_ok n L -> (forall r, 0 <= f r < 2 ^ 64) -> (r, o) ∈ L ->
  ld64 (save_mem pa f L m) (pa + o) = f r.
Proof.
  intros (HF & Hr & Ho) Hf. revert m. induction L as [|[r' o'] L IH]; intros m Hin; [by apply not_elem_of_nil in Hin|].
  apply Forall_cons in HF as [(_ & _ & Hm & _) HF]. cbn in Hr, Ho. apply NoDup_cons in Hr as [_ Hr], Ho as [Hno Ho].
  cbn [save_mem]. apply elem_of_cons in Hin as [[= -> ->]|Hin]; [|by apply IH].
  rewrite save_mem_other; [by apply ld64_st64_same| |done|done].
  eapply Forall_impl; [exact HF|]. intros [? ?] (_ & _ & ? & _). done.
Qed.

Lemma save_mem_bytes pa f L m : mem_bytes m -> mem_bytes (save_mem pa f L m).
Proof. revert m. induction L as [|[r o] L IH]; intros m Hm; cbn [save_mem]; [done|]. by apply IH, st64_bytes. Qed.

Lemma load_regs_other mm pa L f x : x ∉ L.*1 -> load_regs mm pa L f x = f x.
Proof.
  revert f. induction L as [|[r o] L IH]; intros f Hx; cbn [load_regs]; [done|].
  apply not_elem_of_cons in Hx as [Hne Hx]. rewrite IH by done. by rewrite decide_False.
Qed.

Lemma load_regs_at mm pa L f r o : NoDup L.*1 -> (r, o) ∈ L -> load_regs mm pa L f r = ld64 mm (pa + o).
Proof.
  revert f. induction L as [|[r' o'] L IH]; intros f Hn Hin; [by apply not_elem_of_nil in Hin|].
  cbn in Hn. apply NoDup_cons in Hn as [Hr Hn]. cbn [load_regs].
  apply elem_of_cons in Hin as [[= -> ->]|Hin]; [|by apply IH].
  rewrite load_regs_other by done. by rewrite decide_True.
Qed.

(** The code is in the page that [va] is mapped to. *)
Definition fetch_at (va pa : Z) (m : mach) : bool := bool_decide (xlate A_X m va = Some pa).

(** Whatever is stored into the [n] bytes at [pa], the code can be fetched, and the
    bytes can be accessed at the address [va]. *)
Definition steady (cva cpa : Z) (acc : access) (m : mach) (va pa n : Z) : Prop :=
  forall mm, outside pa n (mmem m) mm ->
    xlate A_X (set_mmem mm m) cva = Some cpa /\
    forall o, 0 <= o -> o + 8 <= n -> xlate acc (set_mmem mm m) (u64 (va + o)) = Some (pa + o).

Lemma set_mmem_same m : set_mmem (mmem m) m = m.
Proof. by destruct m. Qed.

Section Blocks.
Context (cva cpa : Z).

Lemma steady_store acc m va pa n o v : steady cva cpa acc m va pa n -> 0 <= o -> o + 8 <= n ->
  steady cva cpa acc (set_mmem (st64 (mmem m) (pa + o) v) m) va pa n.
Proof.
  intros Hs H1 H2 mm Hm. fields. apply Hs. eapply outside_trans; [|exact Hm]. fields. by apply outside_st64.
Qed.

Lemma steady_regs acc m f va pa n : steady cva cpa acc m va pa n -> steady cva cpa acc (set_regs f m) va pa n.
Proof. intros Hs mm Hm. exact (Hs mm Hm). Qed.

Lemma steady_now acc m va pa n : steady cva cpa acc m va pa n ->
  fetch_at cva cpa m = true /\ forall o, 0 <= o -> o + 8 <= n -> xlate acc m (u64 (va + o)) = Some (pa + o).
Proof.
  intros Hs. destruct (Hs (mmem m) (outside_refl _ _ _)) as [Hf Ho]. rewrite set_mmem_same in Hf, Ho.
  split; [by apply bool_decide_eq_true|done].
Qed.

Lemma run_saves b pa n L rest m :
  steady cva cpa A_W m (rget m b) pa n -> Forall (fun ro : reg * Z => 0 <= ro.2 /\ ro.2 + 8 <= n) L ->
  run (fetch_at cva cpa) (saves b L ++ rest) m =
  run (fetch_at cva cpa) rest (set_mmem (save_mem pa (rget m) L (mmem m)) m).
Proof.
  intros Hs HL. revert m Hs. induction HL as [|[r o] L [H1 H2] HL IH]; intros m Hs.
  - by destruct m.
  - cbn in H1, H2. destruct (steady_now _ _ _ _ _ Hs) as [Hf Ho]. cbn [saves fmap list_fmap app run fst snd exec].
    rewrite Hf, Ho by done. change (list_fmap _ _ _ L) with (saves b L).
    rewrite IH by (by apply steady_store). reflexivity.
Qed.

Lemma run_loads b pa n L rest m :
  steady cva cpa A_R m (rget m b) pa n ->
  Forall (fun ro : reg * Z => 0 <= ro.2 /\ ro.2 + 8 <= n /\ ro.1 <> R_zero /\
    (ro.1 = b -> ld64 (mmem m) (pa + ro.2) = rget m b)) L ->
  run (fetch_at cva cpa) (loads b L ++ rest) m =
  run (fetch_at cva cpa) rest (set_regs (load_regs (mmem m) pa L (regs m)) m).
Proof.
  intros Hs HL. revert m Hs HL. induction L as [|[r o] L IH]; intros m Hs HL; [by destruct m|].
  apply Forall_cons in HL as [(H1 & H2 & Hz & Hb) HL]. cbn in H1, H2, Hz, Hb.
  destruct (steady_now _ _ _ _ _ Hs) as [Hf Ho]. cbn [loads fmap list_fmap app run fst snd exec].
  rewrite Hf, Ho by done. change (list_fmap _ _ _ L) with (loads b L).
  set (m1 := rset r (ld64 (mmem m) (pa + o)) m).
  assert (Eb : rget m1 b = rget m b).
  { unfold m1, rset, rget. fields. destruct (decide (b = R_zero)); [done|].
    destruct (decide (b = r)) as [->|]; [|done]. rewrite Hb by done. unfold rget. by rewrite decide_False. }
  rewrite IH; [reflexivity|rewrite Eb; by apply steady_regs|]. rewrite Eb. exact HL.
Qed.
End Blocks.

(** ** Pages *)

Section Pages.
Context `{KernelImage}.

(** A kernel page of the address space [root]: [va] leads to [pa] and users cannot
    use it. *)
Record maps_to (mm : memory) (root : Z) (a : access) (va pa : Z) : Prop := {
  mt_valid : has (leaf_pte mm root va) PTE_V = true;
  mt_allows : allows a (leaf_pte mm root va) = true;
  mt_kernel : has (leaf_pte mm root va) PTE_U = false;
  mt_pa : PTE2PA (leaf_pte mm root va) = pa
}.

(** An address space whose tables are not in the page [pa]. *)
Record space (mm : memory) (root pa : Z) : Prop := {
  sp_root : 0 <= root < 2 ^ 56 /\ root mod PGSIZE = 0;
  sp_tables : forall path q, path_ok path -> pt_page mm root path = Some q -> page_ok q /\ q <> pa
}.

Lemma satp_root_make pt : 0 <= pt < 2 ^ 56 -> pt mod PGSIZE = 0 ->
  satp_root (MAKE_SATP pt) = pt /\ Z.shiftr (MAKE_SATP pt) 60 = 8 /\ 0 <= MAKE_SATP pt < 2 ^ 64.
Proof.
  intros Hpt Hal. unfold satp_root, MAKE_SATP. change SATP_SV39 with (8 * 2 ^ 60).
  rewrite (Z.shiftr_div_pow2 pt) by lia. assert (Hr : 0 <= pt / 2 ^ 12 < 2 ^ 44) by zdm.
  rewrite Z_lor_disjoint by lia. rewrite Z.land_ones, Z.shiftl_mul_pow2, Z.shiftr_div_pow2 by lia.
  unfold PGSIZE in Hal. split; [|split]; zdm.
Qed.

Lemma space_same mm mm' root pa : space mm root pa -> pa mod PGSIZE = 0 -> outside pa PGSIZE mm mm' ->
  space mm' root pa /\ forall va, leaf_pte mm' root va = leaf_pte mm root va.
Proof.
  intros [Hr Ht] Hpa Ho.
  assert (Hs : forall path q, path_ok path -> pt_page mm root path = Some q -> same_page mm mm' q).
  { intros path q Hok E i Hi. destruct (Ht path q Hok E) as [[Hq _] Hne]. symmetry. apply Ho.
    destruct (pages_apart q pa Hq Hpa Hne); lia. }
  split; [split; [done|]|intros; by apply leaf_pte_same].
  intros path q Hok. rewrite (pt_page_same _ _ _ _ Hs Hok). by apply Ht.
Qed.

Lemma maps_to_same mm mm' root a va pa : leaf_pte mm' root va = leaf_pte mm root va ->
  maps_to mm root a va pa -> maps_to mm' root a va pa.
Proof. intros E []. split; by rewrite E. Qed.

Lemma xlate_page a m root va pa o : mode m = S_mode -> satp (csrs m) = MAKE_SATP root ->
  0 <= root < 2 ^ 56 -> root mod PGSIZE = 0 -> maps_to (mmem m) root a va pa ->
  0 <= va < MAXVA -> va mod PGSIZE = 0 -> 0 <= o < PGSIZE -> xlate a m (va + o) = Some (pa + o).
Proof.
  intros Hm Hs Hr Hal [Hv Ha Hu Hp] Hva Hval Ho. unfold xlate. rewrite Hm, Hs.
  destruct (satp_root_make root Hr Hal) as (-> & -> & _).
  rewrite bool_decide_eq_false_2 by done. cbn [negb Z.eqb Pos.eqb].
  assert (E : leaf_pte (mmem m) root (va + o) = leaf_pte (mmem m) root va).
  { rewrite <- (leaf_pte_page _ _ (va + o)). f_equal. consts. zdm. }
  rewrite E, Hv, Ha, Hu, Hp, bool_decide_eq_false_2 by done.
  rewrite (proj2 (Z.leb_le _ _)), (proj2 (Z.ltb_lt _ _)) by (consts; zdm). cbn [andb Bool.eqb].
  do 2 f_equal. consts. zdm.
Qed.

Lemma steady_page cva cpa a m root va pa n : mode m = S_mode -> satp (csrs m) = MAKE_SATP root ->
  space (mmem m) root pa -> maps_to (mmem m) root a va pa -> maps_to (mmem m) root A_X cva cpa ->
  0 <= va < MAXVA -> va mod PGSIZE = 0 -> 0 <= cva < MAXVA -> cva mod PGSIZE = 0 -> n <= PGSIZE ->
  steady cva cpa a m va pa n.
Proof.
  intros Hm Hs Hsp Hd Hc Hva Hval Hcva Hcal Hn mm Ho.
  assert (Hpa : pa mod PGSIZE = 0) by (rewrite <- (mt_pa _ _ _ _ _ Hd); apply PTE2PA_range).
  destruct (space_same (mmem m) mm root pa Hsp Hpa) as [Hsp' El].
  { intros x Hx. apply Ho. lia. }
  destruct (sp_root _ _ _ Hsp) as [Hr Hal]. split.
  - rewrite <- (Z.add_0_r cva), <- (Z.add_0_r cpa). apply (xlate_page _ _ root); try done; try clia.
    apply (maps_to_same (mmem m)); [apply El|done].
  - intros o H1 H2. rewrite u64_id by clia. apply (xlate_page _ _ root); try done; try clia.
    apply (maps_to_same (mmem m)); [apply El|done].
Qed.
End Pages.

(** ** The trampoline *)

(** Where the trap frame keeps a user register. *)
Definition tf_slot (r : reg) : tfreg :=
  match r with
  | R_zero => epc
  | R_ra => tf_ra | R_sp => tf_sp | R_gp => tf_gp | R_tp => tf_tp
  | R_t0 => tf_t0 | R_t1 => tf_t1 | R_t2 => tf_t2 | R_s0 => tf_s0 | R_s1 => tf_s1
  | R_a0 => tf_a0 | R_a1 => tf_a1 | R_a2 => tf_a2 | R_a3 => tf_a3 | R_a4 => tf_a4 | R_a5 => tf_a5
  | R_a6 => tf_a6 | R_a7 => tf_a7
  | R_s2 => tf_s2 | R_s3 => tf_s3 | R_s4 => tf_s4 | R_s5 => tf_s5 | R_s6 => tf_s6 | R_s7 => tf_s7
  | R_s8 => tf_s8 | R_s9 => tf_s9 | R_s10 => tf_s10 | R_s11 => tf_s11
  | R_t3 => tf_t3 | R_t4 => tf_t4 | R_t5 => tf_t5 | R_t6 => tf_t6
  end.

(** The registers [uservec] saves in one go: all but [zero] and [a0]. *)
Definition frame_regs : list reg := [
  R_ra; R_sp; R_gp; R_tp; R_t0; R_t1; R_t2; R_s0; R_s1; R_a1; R_a2; R_a3; R_a4; R_a5; R_a6; R_a7;
  R_s2; R_s3; R_s4; R_s5; R_s6; R_s7; R_s8; R_s9; R_s10; R_s11; R_t3; R_t4; R_t5; R_t6 ].
Definition user_frame : list (reg * Z) := (fun r => (r, tf_offset (tf_slot r))) <$> frame_regs.

Lemma elem_frame_regs r : r ∈ frame_regs <-> r <> R_zero /\ r <> R_a0.
Proof. split; [intros Hr; split; intros ->; revert Hr; vm_compute; set_solver|]. destruct r; intros [? ?]; try done; set_solver. Qed.

Lemma user_frame_ok : frame_ok 288 user_frame.
Proof.
  split; [|split].
  - repeat (apply Forall_cons_2; [cbn; split_and!; (done || lia)|]). apply Forall_nil_2.
  - apply NoDup_ListNoDup. vm_compute. repeat constructor; simpl; intuition congruence.
  - apply NoDup_ListNoDup. vm_compute. repeat constructor; simpl; intuition congruence.
Qed.

Lemma user_frame_range : Forall (fun ro : reg * Z => 0 <= ro.2 /\ ro.2 + 8 <= 288) user_frame.
Proof. eapply Forall_impl; [apply user_frame_ok|]. by intros ? (? & ? & _). Qed.

Lemma elem_user_frame r : r <> R_zero -> r <> R_a0 -> (r, tf_offset (tf_slot r)) ∈ user_frame.
Proof. intros H1 H2. apply list_elem_of_fmap. exists r. split; [done|]. by apply elem_frame_regs. Qed.

Lemma uservec_code_eq : uservec_code =
  Csrrw R_a0 C_sscratch R_a0 :: saves R_a0 user_frame ++ Csrr R_t0 C_sscratch :: saves R_a0 [(R_t0, 112)] ++
  loads R_a0 [(R_sp, 8); (R_tp, 32); (R_t0, 16); (R_t1, 0)] ++ [Csrw C_satp R_t1; Sfence_vma; Jr R_t0].
Proof. reflexivity. Qed.

Lemma userret_code_eq : userret_code =
  [Csrw C_satp R_a1; Sfence_vma] ++ loads R_a0 [(R_t0, 112)] ++ Csrw C_sscratch R_t0 :: loads R_a0 user_frame ++
  [Csrrw R_a0 C_sscratch R_a0; Sret].
Proof. reflexivity. Qed.

Lemma run_cons cva cpa i rest m m' : fetch_at cva cpa m = true -> exec i rest m = Next m' ->
  run (fetch_at cva cpa) (i :: rest) m = run (fetch_at cva cpa) rest m'.
Proof. intros Hf He. cbn [run]. by rewrite Hf, He. Qed.

Section Trampoline.
Context `{KernelImage}.

(** A process's address space, as far as the trampoline needs it. *)
Record user_space (mm : memory) (root tf : Z) : Prop := {
  us_space : space mm root tf;
  us_read : maps_to mm root A_R TRAPFRAME tf;
  us_write : maps_to mm root A_W TRAPFRAME tf;
  us_code : maps_to mm root A_X TRAMPOLINE trampoline
}.

(** The kernel's. *)
Record kernel_space (mm : memory) (root tf : Z) : Prop := {
  ks_space : space mm root tf;
  ks_code : maps_to mm root A_X TRAMPOLINE trampoline
}.

Lemma user_steady a m root tf : a <> A_X -> mode m = S_mode -> satp (csrs m) = MAKE_SATP root ->
  user_space (mmem m) root tf -> steady TRAMPOLINE trampoline a m TRAPFRAME tf 288.
Proof.
  intros Ha Hm Hs [Hsp Hr Hw Hc]. apply (steady_page _ _ _ _ root); [done|done|done|by destruct a|done|clia|reflexivity|clia|reflexivity|clia].
Qed.

Lemma kernel_fetch m root tf : mode m = S_mode -> satp (csrs m) = MAKE_SATP root ->
  kernel_space (mmem m) root tf -> fetch_at TRAMPOLINE trampoline m = true.
Proof.
  intros Hm Hs [Hsp Hc]. apply bool_decide_eq_true. rewrite <- (Z.add_0_r TRAMPOLINE), <- (Z.add_0_r trampoline).
  destruct (sp_root _ _ _ Hsp). apply (xlate_page _ _ root); [done..|clia|reflexivity|clia].
Qed.

Lemma outside_page pa m m' : outside pa 288 m m' -> outside pa PGSIZE m m'.
Proof. intros Ho x Hx. apply Ho. clia. Qed.

Lemma user_space_outside mm mm' root tf : user_space mm root tf -> outside tf 288 mm mm' -> user_space mm' root tf.
Proof.
  intros [Hsp Hr Hw Hc] Ho%outside_page.
  assert (Htf : tf mod PGSIZE = 0) by (rewrite <- (mt_pa _ _ _ _ _ Hr); apply PTE2PA_range).
  destruct (space_same mm mm' root tf Hsp Htf Ho) as [Hsp' El].
  split; [done|by apply (maps_to_same mm)..].
Qed.

Lemma kernel_space_outside mm mm' root tf : kernel_space mm root tf -> tf mod PGSIZE = 0 ->
  outside tf 288 mm mm' -> kernel_space mm' root tf.
Proof.
  intros [Hsp Hc] Htf Ho%outside_page. destruct (space_same mm mm' root tf Hsp Htf Ho) as [Hsp' El].
  split; [done|by apply (maps_to_same mm)].
Qed.

(** The state [uservec] leaves when it jumps to [usertrap]. *)
Record entered (m : mach) (kpt tf : Z) (m' : mach) : Prop := {
  en_mode : mode m' = S_mode;
  en_csrs : csrs m' = set_satp (MAKE_SATP kpt) (set_sscratch (rget m R_a0) (csrs m));
  en_sp : rget m' R_sp = ld64 (mmem m) (tf + tf_offset kernel_sp);
  en_tp : rget m' R_tp = ld64 (mmem m) (tf + tf_offset kernel_hartid);
  en_outside : outside tf 288 (mmem m) (mmem m');
  en_bytes : mem_bytes (mmem m) -> mem_bytes (mmem m');
  en_saved : forall r, r <> R_zero -> ld64 (mmem m') (tf + tf_offset (tf_slot r)) = rget m r;
  en_kept : forall f, f ∈ [kernel_satp; kernel_sp; kernel_trap; epc; kernel_hartid] ->
    ld64 (mmem m') (tf + tf_offset f) = ld64 (mmem m) (tf + tf_offset f)
}.

Lemma uservec_mem f v mm tf : (forall r, 0 <= f r < 2 ^ 64) -> 0 <= v < 2 ^ 64 ->
  let mm' := st64 (save_mem tf f user_frame mm) (tf + 112) v in
  outside tf 288 mm mm' /\
  (forall r, r <> R_zero -> ld64 mm' (tf + tf_offset (tf_slot r)) = if decide (r = R_a0) then v else f r) /\
  (forall o, o ∈ [0; 8; 16; 24; 32] -> ld64 mm' (tf + o) = ld64 mm (tf + o)).
Proof.
  intros Hf Hv mm'. split; [|split].
  - eapply outside_trans; [apply save_mem_outside, user_frame_range|]. apply outside_st64; lia.
  - intros r Hz. unfold mm'. destruct (decide (r = R_a0)) as [->|Ha]; [by apply ld64_st64_same|].
    rewrite ld64_st64_out by (destruct (tf_apart (tf_slot r) tf_a0); [by destruct r|simpl in *; lia..]).
    apply (save_mem_at tf 288 f user_frame mm r); [apply user_frame_ok|done|by apply elem_user_frame].
  - intros o Ho. unfold mm'. assert (Hr : 0 <= o <= 32 /\ o mod 8 = 0).
    { repeat (apply elem_of_cons in Ho as [->|Ho]; [split; [lia|done]|]). by apply not_elem_of_nil in Ho. }
    rewrite ld64_st64_out by lia. apply save_mem_other; [|lia|].
    + eapply Forall_impl; [apply user_frame_ok|]. by intros ? (_ & _ & ? & _).
    + intros (ro & -> & Hin)%list_elem_of_fmap. apply list_elem_of_fmap in Hin as (r & -> & Hin).
      apply elem_frame_regs in Hin as [Hz _]. destruct r; simpl in Hr; (lia || done).
Qed.

Lemma uservec_runs m upt kpt tf :
  mode m = S_mode -> satp (csrs m) = MAKE_SATP upt -> sscratch (csrs m) = TRAPFRAME ->
  user_space (mmem m) upt tf -> kernel_space (mmem m) kpt tf ->
  ld64 (mmem m) (tf + tf_offset kernel_satp) = MAKE_SATP kpt -> (forall r, 0 <= rget m r < 2 ^ 64) ->
  exists m', run (fetch_at TRAMPOLINE trampoline) uservec_code m =
      Goto m' (ld64 (mmem m) (tf + tf_offset kernel_trap)) /\ entered m kpt tf m'.
Proof.
  intros Hm Hs Hsc Hu Hk Hks Hr. rewrite uservec_code_eq.
  destruct (steady_now _ _ _ _ _ _ _ (user_steady A_R m upt tf ltac:(done) Hm Hs Hu)) as [Hf0 _].
  set (m1 := rset R_a0 TRAPFRAME (set_csrs (set_sscratch (rget m R_a0) (csrs m)) m)).
  erewrite (run_cons _ _ _ _ m m1); [|done|cbn [exec cget cset]; by rewrite Hsc].
  assert (Ha1 : rget m1 R_a0 = TRAPFRAME) by done.
  assert (Hr1 : forall r, 0 <= rget m1 r < 2 ^ 64).
  { intros r. destruct (decide (r = R_a0)) as [->|]; [rewrite Ha1; clia|].
    unfold m1, rget, rset. fields. specialize (Hr r). unfold rget in Hr. rewrite (decide_False (P := r = R_a0)) by done. exact Hr. }
  rewrite (run_saves _ _ R_a0 tf 288); [|rewrite Ha1; by apply (user_steady _ _ upt)|apply user_frame_range].
  change (mmem m1) with (mmem m). set (mm2 := save_mem tf (rget m1) user_frame (mmem m)).
  assert (Hu2 : user_space mm2 upt tf) by (eapply user_space_outside; [exact Hu|apply save_mem_outside, user_frame_range]).
  set (m3 := rset R_t0 (rget m R_a0) (set_mmem mm2 m1)).
  erewrite (run_cons _ _ _ _ _ m3);
    [|by apply (steady_now _ _ A_R _ TRAPFRAME tf 288), (user_steady _ _ upt)|reflexivity].
  rewrite (run_saves _ _ R_a0 tf 288); [|by apply (user_steady _ _ upt)|by apply Forall_singleton; cbn; lia].
  cbn [save_mem]. change (mmem m3) with mm2. change (rget m3 R_t0) with (rget m R_a0).
  set (mm4 := st64 mm2 (tf + 112) (rget m R_a0)).
  destruct (uservec_mem (rget m1) (rget m R_a0) (mmem m) tf Hr1 (Hr R_a0)) as (Ho4 & Hs4 & Hk4). fold mm2 mm4 in Ho4, Hs4, Hk4.
  pose proof (user_space_outside _ _ _ _ Hu Ho4) as Hu4.
  rewrite (run_loads _ _ R_a0 tf 288); [|by apply (user_steady _ _ upt)|
    repeat (apply Forall_cons_2; [cbn; split_and!; (lia || done)|]); apply Forall_nil_2].
  change (mmem (set_mmem mm4 m3)) with mm4. set (m5 := set_regs _ _).
  assert (Hl : forall r o, (r, o) ∈ [(R_sp, 8); (R_tp, 32); (R_t0, 16); (R_t1, 0)] -> r <> R_zero ->
            rget m5 r = ld64 (mmem m) (tf + o)).
  { intros r o Hin Hz. unfold rget. rewrite decide_False by done. unfold m5. fields.
    rewrite (load_regs_at _ _ _ _ r o); [|by repeat constructor; set_solver|done]. apply Hk4. set_solver. }
  set (m6 := set_csrs (set_satp (MAKE_SATP kpt) (csrs m5)) m5).
  assert (Hk6 : kernel_space (mmem m6) kpt tf).
  { eapply kernel_space_outside; [exact Hk| |exact Ho4]. rewrite <- (mt_pa _ _ _ _ _ (us_read _ _ _ Hu)). apply PTE2PA_range. }
  pose proof (kernel_fetch m6 kpt tf Hm eq_refl Hk6) as Hf6.
  erewrite (run_cons _ _ _ _ _ m6);
    [|by apply (steady_now _ _ A_R _ TRAPFRAME tf 288), (user_steady _ _ upt)|
      cbn [exec cset]; rewrite (Hl R_t1 0) by (done || set_solver);
      change (tf + 0) with (tf + tf_offset kernel_satp); by rewrite Hks].
  erewrite (run_cons _ _ _ _ m6 m6); [|exact Hf6|reflexivity].
  cbn [run exec]. rewrite Hf6. exists m6. change (rget m6 R_t0) with (rget m5 R_t0).
  rewrite (Hl R_t0 16) by (done || set_solver). split; [done|]. split.
  - exact Hm.
  - reflexivity.
  - change (rget m6 R_sp) with (rget m5 R_sp). apply Hl; [set_solver|done].
  - change (rget m6 R_tp) with (rget m5 R_tp). apply Hl; [set_solver|done].
  - exact Ho4.
  - intros Hb. by apply st64_bytes, save_mem_bytes.
  - intros r Hz. change (mmem m6) with mm4. rewrite Hs4 by done. destruct (decide (r = R_a0)) as [->|Ha]; [done|].
    unfold m1, rget, rset. fields. by rewrite !(decide_False (P := r = R_a0)) by done.
  - intros f Hf. change (mmem m6) with mm4. apply Hk4.
    repeat (apply elem_of_cons in Hf as [->|Hf]; [set_solver|]). by apply not_elem_of_nil in Hf.
Qed.

(** The state in which the user program goes on. *)
Record resumed (m : mach) (upt tf : Z) (m' : mach) : Prop := {
  rs_mode : mode m' = sret_mode (sstatus (csrs m));
  rs_csrs : csrs m' = set_sstatus (sret_status (sstatus (csrs m)))
    (set_sscratch TRAPFRAME (set_satp (MAKE_SATP upt) (csrs m)));
  rs_mem : mmem m' = mmem m;
  rs_regs : forall r, r <> R_zero -> rget m' r = ld64 (mmem m) (tf + tf_offset (tf_slot r))
}.

Lemma frame_loads mm tf b m : b ∉ frame_regs ->
  Forall (fun ro : reg * Z => 0 <= ro.2 /\ ro.2 + 8 <= 288 /\ ro.1 <> R_zero /\
    (ro.1 = b -> ld64 mm (tf + ro.2) = rget m b)) user_frame.
Proof.
  intros Hb. apply Forall_forall. intros ro Hin.
  destruct (proj1 (Forall_forall _ _) (proj1 user_frame_ok) ro Hin) as (H1 & H2 & _ & Hz).
  split_and!; try done. intros E. exfalso. apply Hb. apply list_elem_of_fmap in Hin as (r & -> & Hin).
  cbn in E. by rewrite <- E.
Qed.

Lemma userret_runs m upt kpt tf :
  mode m = S_mode -> satp (csrs m) = MAKE_SATP kpt -> kernel_space (mmem m) kpt tf ->
  user_space (mmem m) upt tf -> rget m R_a0 = TRAPFRAME -> rget m R_a1 = MAKE_SATP upt ->
  exists m', run (fetch_at TRAMPOLINE trampoline) userret_code m = Goto m' (sepc (csrs m)) /\ resumed m upt tf m'.
Proof.
  intros Hm Hs Hk Hu Ha0 Ha1. rewrite userret_code_eq. cbn [app].
  set (m1 := set_csrs (set_satp (MAKE_SATP upt) (csrs m)) m).
  erewrite (run_cons _ _ _ _ m m1); [|by eapply kernel_fetch|cbn [exec cset]; by rewrite Ha1].
  assert (Hst : forall m', mode m' = S_mode -> satp (csrs m') = MAKE_SATP upt -> mmem m' = mmem m ->
            steady TRAMPOLINE trampoline A_R m' TRAPFRAME tf 288).
  { intros m' H1 H2 H3. apply (user_steady _ _ upt); [done|done|done|]. by rewrite H3. }
  assert (Hf : forall m', mode m' = S_mode -> satp (csrs m') = MAKE_SATP upt -> mmem m' = mmem m ->
            fetch_at TRAMPOLINE trampoline m' = true).
  { intros m' H1 H2 H3. by apply (steady_now _ _ A_R m' TRAPFRAME tf 288), Hst. }
  erewrite (run_cons _ _ _ _ m1 m1); [|by apply Hf|reflexivity].
  rewrite (run_loads _ _ R_a0 tf 288); [|change (rget m1 R_a0) with (rget m R_a0); rewrite Ha0; by apply Hst|
    apply Forall_singleton; cbn; split_and!; (lia || done)].
  change (mmem m1) with (mmem m). set (m2 := set_regs _ _).
  set (v0 := ld64 (mmem m) (tf + 112)). set (m3 := set_csrs (set_sscratch v0 (csrs m2)) m2).
  erewrite (run_cons _ _ _ _ m2 m3); [|by apply Hf|reflexivity].
  assert (Ha3 : rget m3 R_a0 = TRAPFRAME) by exact Ha0.
  rewrite (run_loads _ _ R_a0 tf 288); [|rewrite Ha3; by apply Hst|apply frame_loads; by rewrite elem_frame_regs; intros []].
  change (mmem m3) with (mmem m). set (m4 := set_regs _ _).
  assert (Hreg : forall r, r <> R_zero -> r <> R_a0 -> rget m4 r = ld64 (mmem m) (tf + tf_offset (tf_slot r))).
  { intros r Hz Hr. unfold rget. rewrite decide_False by done. apply load_regs_at; [apply user_frame_ok|by apply elem_user_frame]. }
  assert (Ha4 : rget m4 R_a0 = TRAPFRAME).
  { rewrite <- Ha3. unfold rget. rewrite !decide_False by done. apply load_regs_other.
    intros (ro & E & Hin)%list_elem_of_fmap. apply list_elem_of_fmap in Hin as (r & -> & Hin).
    apply elem_frame_regs in Hin. cbn in E. by destruct Hin. }
  set (m5 := rset R_a0 v0 (set_csrs (set_sscratch TRAPFRAME (csrs m4)) m4)).
  erewrite (run_cons _ _ _ _ m4 m5); [|by apply Hf|cbn [exec cset cget]; by rewrite Ha4].
  cbn [run]. rewrite (Hf m5) by done. cbn [exec]. eexists. split; [reflexivity|]. split; try reflexivity.
  intros r Hz. unfold rget. rewrite decide_False by done. unfold m5, rset. fields.
  destruct (decide (r = R_a0)) as [->|Hr]; [done|]. rewrite <- Hreg by done. unfold rget. by rewrite decide_False.
Qed.
End Trampoline.
