(* ===== verification/Ecall.v ===== *)
(** * A system call from [ecall] to the next user instruction

    Composes what the machine code of trampoline.S does ([Asm]) with what the C code
    of trap.c and syscall.c does ([Trap], [Syscall]): the hardware's trap, [uservec],
    [usertrap] with [syscall] inside, [usertrapret], and [userret]. *)

From stdpp Require Import gmap strings list fin_maps.
From Stdlib Require Import ZArith Lia.
From S2P Require Import Prelude Machine Str State Riscv Spinlock Kalloc Vm Copy Uvm.
From S2P Require Import Sched Sleeplock Bytes Bio Log Inode Dir Pipe Console File Proc Exec.
From S2P Require Import Syscall Trap Asm Cache.
Open Scope Z_scope.

#[local] Opaque st64 ld64.

Definition set_scause : Z -> hartregs -> hartregs := ltac:(make_setter scause).
Definition set_stval : Z -> hartregs -> hartregs := ltac:(make_setter stval).

(** ** A trap into supervisor mode

    The hardware records the old privilege in SPP and the old SIE in SPIE, turns
    interrupts off and goes to [stvec]. *)

Definition trap_status (p : priv) (x : Z) : Z :=
  let x := if Z.testbit x 1 then Z.lor x SSTATUS_SPIE else Z.land x (Z.lnot SSTATUS_SPIE) in
  let x := Z.land x (Z.lnot SSTATUS_SIE) in
  if bool_decide (p = U_mode) then Z.land x (Z.lnot SSTATUS_SPP) else Z.lor x SSTATUS_SPP.

Definition strap (cause tval pc : Z) (m : mach) : mach :=
  set_mode S_mode
    (set_csrs (set_sepc pc (set_scause cause (set_stval tval
      (set_sstatus (trap_status (mode m) (sstatus (csrs m))) (csrs m))))) m).

Lemma trap_status_bits p x n : 0 <= x < 2 ^ 64 -> 0 <= n < 64 ->
  Z.testbit (trap_status p x) n =
  if n =? 8 then negb (bool_decide (p = U_mode)) else if n =? 5 then Z.testbit x 1
  else if n =? 1 then false else Z.testbit x n.
Proof.
  intros Hx Hn. unfold trap_status.
  change SSTATUS_SIE with (2 ^ 1). change SSTATUS_SPP with (2 ^ 8). change SSTATUS_SPIE with (2 ^ 5).
  destruct (Z.testbit x 1) eqn:E1; case_bool_decide; cbn [negb];
    rewrite ?Z.lor_spec, ?Z.land_spec, ?Z.lor_spec, ?Z.land_spec, ?Z.lnot_spec, ?Z.pow2_bits_eqb,
      ?Z.lor_spec, ?Z.land_spec, ?Z.lnot_spec, ?Z.pow2_bits_eqb by lia;
    rewrite (Z.eqb_sym 1 n), (Z.eqb_sym 8 n), (Z.eqb_sym 5 n);
    destruct (Z.eqb_spec n 8), (Z.eqb_spec n 5), (Z.eqb_spec n 1); subst; try lia;
    rewrite ?andb_false_r, ?andb_true_r, ?orb_false_r, ?orb_true_r; cbn; done.
Qed.

Lemma trap_status_range p x : 0 <= x < 2 ^ 64 -> 0 <= trap_status p x < 2 ^ 64.
Proof.
  intros Hx. unfold trap_status.
  assert (Hl : forall y z, 0 <= y < 2 ^ 64 -> 0 <= Z.land y z < 2 ^ 64) by (intros y z Hy; pose proof (Z_land_le y z); lia).
  destruct (Z.testbit x 1), (bool_decide (p = U_mode)); repeat first [apply Hl | apply (Z_lor_lt _ _ 64); [lia| |vm_compute; split; [discriminate|reflexivity]]]; done.
Qed.

(** ** The current process, whatever the CPU last recorded of interrupts *)

Definition settle (s : kstate) : kstate :=
  set_cpus (alter (set_intena (intr s)) (this_cpu s) (cpus s)) s.

(** CPU [c] is not in a critical section. *)
Definition open_cpu (s : kstate) (me : nat) (c : cpu) : Prop :=
  cpus s !! this_cpu s = Some c /\ c_proc c = Some me /\ noff c = 0.

Lemma settle_cpu s me c : open_cpu s me c -> open_cpu (settle s) me (set_intena (intr s) c).
Proof.
  intros (Hc & Hme & Hn). unfold open_cpu, settle, this_cpu in *. fields.
  rewrite list_lookup_alter_eq, Hc. done.
Qed.

Lemma settle_settled s me c : open_cpu s me c -> 0 <= sstatus (hart s) < 2 ^ 64 -> settled (settle s).
Proof.
  intros Ho Hr. pose proof (settle_cpu _ _ _ Ho) as (Hc & _ & Hn).
  exists (set_intena (intr s) c). split; [exact Hc|]. fields_in Hn. unfold settle, intr. fields.
  rewrite Hn. split; [lia|]. split; [done|]. split; [lia|exact Hr].
Qed.

Lemma off_cpu_settle c b : noff c = 0 -> off_cpu (set_intena b c) b = off_cpu c b.
Proof. intros Hn. unfold off_cpu. fields. rewrite Hn. by destruct c. Qed.

(* @kernel/syscall.h SYS_getpid *)
Definition SYS_getpid : Z := 11.

Section Kernel.
Context `{World kstate} `{KernelImage} `{Uart} `{BlockDev} `{Board}.

Lemma wp_curproc_open me c (Q : nat -> kstate -> Prop) s :
  open_cpu s me c -> 0 <= sstatus (hart s) < 2 ^ 64 -> Q me (settle s) -> wp curproc Q s.
Proof.
  intros Ho Hr HQ. pose proof (settle_settled _ _ _ Ho Hr) as Hs. pose proof (settle_cpu _ _ _ Ho) as (Hc' & Hme' & _).
  destruct Ho as (Hc & Hme & Hn). unfold curproc, myproc. wstep. wstep. eapply wp_push_off; [exact Hc|]. wstep.
  apply wp_mycpu. wstep.
  eapply wp_get_cpu; [fields; apply list_lookup_insert_eq; by eapply lookup_lt_Some|].
  wstep. eapply (wp_pop_restore _ (settle s) _ (set_intena (intr s) c)); [done|done|by fields| |].
  - change (intr (settle s)) with (intr s). change (this_cpu (settle s)) with (this_cpu s).
    rewrite off_cpu_settle by done. unfold settle. fields.
    rewrite (list_alter_insert _ _ _ _ Hc). by rewrite list_insert_insert_eq.
  - wsteps. replace (c_proc (off_cpu c (intr s))) with (Some me)
      by (rewrite <- Hme; unfold off_cpu; by destruct (noff c =? 0)).
    wsteps. unfold settle in HQ |- *. fields. by destruct s.
Qed.

(** What [usertrap] does for [getpid()]: the saved program counter moves past the
    [ecall], the saved [a0] becomes the process's number, and the trap frame gets the
    kernel's fields for the next trap. *)
Record served (s : kstate) (me : nat) (P : proc) (v : Z) (t : kstate) : Prop := {
  sv_hart : hart t = set_sepc (u64 (sepc (hart s) + 4))
    (set_sstatus (user_sstatus (u64 (Z.lor (sstatus (hart s)) SSTATUS_SIE)))
      (set_stvec (u64 (TRAMPOLINE + (uservec - trampoline))) (hart s)));
  sv_mem : let pc := tf_offset epc in
    mem t = kernel_fields s P (st64 (st64 (st64 (mem s) (trapframe P + pc) (sepc (hart s)))
      (trapframe P + pc) (u64 (sepc (hart s) + 4))) (trapframe P + tf_offset tf_a0) v);
  sv_procs : procs t = procs s;
  sv_cpu : exists c, open_cpu t me c
}.

Lemma SPP_clear x : Z.testbit x 8 = false -> Z.land x SSTATUS_SPP = 0.
Proof.
  intros Hb. apply Z.bits_inj'. intros n Hn. change SSTATUS_SPP with (2 ^ 8).
  rewrite Z.land_spec, Z.pow2_bits_eqb, Z.bits_0 by lia.
  destruct (Z.eqb_spec 8 n) as [<-|]; [by rewrite Hb|apply andb_false_r].
Qed.

Lemma wp_usertrap_getpid pad me P c (Q : Z * Z -> kstate -> Prop) s :
  open_cpu s me c -> procs s !! me = Some P -> killed P = false -> trapframe P <> 0 ->
  0 <= sstatus (hart s) < 2 ^ 64 -> Z.testbit (sstatus (hart s)) 8 = false -> scause (hart s) = 8 ->
  0 <= sepc (hart s) < 2 ^ 64 -> ld64 (mem s) (trapframe P + tf_offset tf_a7) = SYS_getpid ->
  (forall t, served s me P (u64 (pid P)) t -> Q (TRAPFRAME, MAKE_SATP (pagetable P)) t) ->
  wp (usertrap pad) Q s.
Proof.
  intros Ho HP Hk Ht Hr Hspp Hcause Hpc Ha7 HQ. unfold usertrap, r_sstatus, w_stvec, r_sepc, r_scause. wsteps.
  rewrite SPP_clear by done. cbn [Z.eqb negb]. wsteps.
  eapply (wp_curproc_open me c); [exact Ho|exact Hr|]. unfold settle at 1. wsteps. fields.
  eapply wp_tf_set; [exact HP|done|]. wsteps. fields. rewrite Hcause. cbn [Z.eqb Pos.eqb].
  wstep. eapply wp_get_proc; [exact HP|]. rewrite Hk. cbn [when]. wsteps.
  eapply wp_tf_get; [exact HP|done|]. wstep. eapply wp_tf_set; [exact HP|done|].
  unfold intr_on, r_sstatus, w_sstatus. wsteps. fields. unfold syscall. wstep.
  set (s1 := set_hart _ _).
  assert (Hr1 : 0 <= sstatus (hart s1) < 2 ^ 64) by apply u64_range.
  assert (Ho1 : open_cpu s1 me (set_intena (intr s) c)) by exact (settle_cpu _ _ _ Ho).
  eapply (wp_curproc_open me); [exact Ho1|exact Hr1|]. wstep.
  pose proof (settle_settled _ _ _ Ho1 Hr1) as Hs2. pose proof (settle_cpu _ _ _ Ho1) as (Hc2 & Hme2 & Hn2).
  eapply wp_tf_get; [exact HP|done|].
  assert (E7 : ld64 (mem (settle s1)) (trapframe P + tf_offset tf_a7) = SYS_getpid).
  { unfold settle, s1. fields. rewrite !ld64_st64_out by (simpl; lia). exact Ha7. }
  rewrite E7. change (i32 SYS_getpid) with 11. change ((0 <? 11) && (11 <? SYS_close + 1)) with true.
  change (syscalls pad 11) with (Some sys_getpid). cbn iota. unfold sys_getpid. wstep. wstep.
  eapply wp_curproc; [exact Hs2|exact Hc2|exact Hme2|exact HP|]. eapply wp_get_proc; [exact HP|].
  eapply wp_tf_set; [exact HP|done|]. wsteps.
  eapply wp_get_proc; [exact HP|]. rewrite Hk. cbn [when]. wsteps. cbn [Z.eqb when]. wsteps.
  eapply (wp_usertrapret me P); [exact Hs2|exact Hc2|exact Hme2|exact HP|done|].
  apply HQ. unfold settle, s1. rewrite ld64_st64_same by done. split; fields; try reflexivity.
  - rewrite ld64_st64_out, ld64_st64_same by (try apply u64_range; simpl; lia).
    rewrite u64_id by apply u64_range. by destruct (hart s).
  - eexists. exact (conj Hc2 (conj Hme2 Hn2)).
Qed.

(** ** Around the loop *)

(** A user program runs and the kernel is prepared for its next trap. *)
Record ready (m : mach) (P : proc) (kpt hid : Z) : Prop := {
  rd_mode : mode m = U_mode;
  rd_satp : satp (csrs m) = MAKE_SATP (pagetable P);
  rd_sscratch : sscratch (csrs m) = TRAPFRAME;
  rd_stvec : stvec (csrs m) = u64 (TRAMPOLINE + (uservec - trampoline));
  rd_sstatus : 0 <= sstatus (csrs m) < 2 ^ 64;
  rd_user : user_space (mmem m) (pagetable P) (trapframe P);
  rd_kernel : kernel_space (mmem m) kpt (trapframe P);
  rd_bytes : mem_bytes (mmem m);
  rd_field : forall f v, (f, v) ∈ [(kernel_satp, MAKE_SATP kpt); (kernel_sp, u64 (kstack P + PGSIZE));
      (kernel_trap, usertrap_pc); (kernel_hartid, hid)] ->
    ld64 (mmem m) (trapframe P + tf_offset f) = v;
  rd_regs : forall r, 0 <= rget m r < 2 ^ 64
}.

(** The C code goes on with the registers and the memory that [uservec] left. *)
Definition enter (m : mach) (s : kstate) : kstate :=
  set_hart (set_tp (rget m R_tp) (csrs m)) (set_mem (mmem m) s).

(** [usertrapret] calls [userret(a0, a1)]. *)
Definition leaving (t : kstate) (a : Z * Z) (m : mach) : Prop :=
  mode m = S_mode /\ csrs m = hart t /\ mmem m = mem t /\ rget m R_a0 = a.1 /\ rget m R_a1 = a.2.

(** The trap frame when [userret] reads it. *)
Lemma served_frame s me P v t : served s me P v t -> 0 <= v < 2 ^ 64 -> mem_bytes (mem s) ->
  0 <= satp (hart s) < 2 ^ 64 -> 0 <= usertrap_pc < 2 ^ 64 -> 0 <= tp (hart s) < 2 ^ 64 ->
  outside (trapframe P) 288 (mem s) (mem t) /\ mem_bytes (mem t) /\
  forall f, ld64 (mem t) (trapframe P + tf_offset f) =
    match f with
    | kernel_satp => satp (hart s)
    | kernel_sp => u64 (kstack P + PGSIZE)
    | kernel_trap => usertrap_pc
    | kernel_hartid => tp (hart s)
    | epc => u64 (sepc (hart s) + 4)
    | tf_a0 => v
    | _ => ld64 (mem s) (trapframe P + tf_offset f)
    end.
Proof.
  intros [_ Hm _ _] Hv Hb Hsp Hpc Htp. rewrite Hm. cbv zeta. split; [|split].
  - unfold kernel_fields. repeat (eapply outside_trans; [|apply outside_st64; simpl; lia]). apply outside_refl.
  - unfold kernel_fields. repeat apply st64_bytes. exact Hb.
  - intros f. destruct (is_kernel_field f) eqn:Ef.
    + unfold kernel_fields. destruct f; try done; rewrite ?ld64_st64_out by (simpl; lia);
        apply ld64_st64_same; try done; apply u64_range.
    + rewrite kernel_fields_other by done.
      destruct f; try done; rewrite ?ld64_st64_out by (simpl; lia); try done; apply ld64_st64_same; try done; apply u64_range.
Qed.

Lemma ready_field m P kpt hid : ready m P kpt hid ->
  ld64 (mmem m) (trapframe P + tf_offset kernel_satp) = MAKE_SATP kpt /\
  ld64 (mmem m) (trapframe P + tf_offset kernel_sp) = u64 (kstack P + PGSIZE) /\
  ld64 (mmem m) (trapframe P + tf_offset kernel_trap) = usertrap_pc /\
  ld64 (mmem m) (trapframe P + tf_offset kernel_hartid) = hid.
Proof. intros Hr. split_and!; apply (rd_field _ _ _ _ Hr); set_solver. Qed.

(** The first half: the trap and [uservec]. *)
Lemma trap_enters m P kpt hid cause tval pc : ready m P kpt hid ->
  exists m1, run (fetch_at TRAMPOLINE trampoline) uservec_code (strap cause tval pc m) = Goto m1 usertrap_pc /\
    entered (strap cause tval pc m) kpt (trapframe P) m1.
Proof.
  intros Hr. destruct (ready_field _ _ _ _ Hr) as (Hks & _ & Hkt & _). rewrite <- Hkt.
  apply (uservec_runs (strap cause tval pc m) (pagetable P)); unfold strap; fields;
    [done|exact (rd_satp _ _ _ _ Hr)|exact (rd_sscratch _ _ _ _ Hr)|exact (rd_user _ _ _ _ Hr)|
     exact (rd_kernel _ _ _ _ Hr)|exact Hks|exact (rd_regs _ _ _ _ Hr)].
Qed.

(** The second half: [userret], once the frame is as [usertrap] leaves it. *)
Lemma resumed_ready t P me v s kpt mk m2 :
  served s me P v t -> leaving t (TRAPFRAME, MAKE_SATP (pagetable P)) mk -> resumed mk (pagetable P) (trapframe P) m2 ->
  user_space (mem t) (pagetable P) (trapframe P) -> kernel_space (mem t) kpt (trapframe P) -> mem_bytes (mem t) ->
  0 <= sstatus (hart s) < 2 ^ 64 ->
  (forall f w, (f, w) ∈ [(kernel_satp, MAKE_SATP kpt); (kernel_sp, u64 (kstack P + PGSIZE));
      (kernel_trap, usertrap_pc); (kernel_hartid, tp (hart s))] -> ld64 (mem t) (trapframe P + tf_offset f) = w) ->
  ready m2 P kpt (tp (hart s)) /\ Z.testbit (sstatus (csrs m2)) 1 = true /\ mmem m2 = mem t.
Proof.
  intros Hsv (Hmd & Hcs & Hmm & _ & _) [Hm Hc Hmem Hregs] Hu Hk Hb Hss Hf.
  pose proof (sv_hart _ _ _ _ _ Hsv) as Hh. rewrite Hmm in Hmem, Hregs. rewrite Hcs, Hh in Hm, Hc. fields_in Hm. fields_in Hc.
  set (x := u64 (Z.lor (sstatus (hart s)) SSTATUS_SIE)) in *.
  assert (Hx : 0 <= x < 2 ^ 64) by apply u64_range.
  pose proof (user_sstatus_bits x 8 Hx) as H8. pose proof (user_sstatus_bits x 5 Hx) as H5.
  split; [|split; [|done]]; [split|].
  - rewrite Hm. unfold sret_mode. by rewrite H8 by lia.
  - by rewrite Hc.
  - by rewrite Hc.
  - by rewrite Hc.
  - rewrite Hc. fields. unfold sret_status. rewrite H5 by lia. cbn [Z.eqb Pos.eqb].
    pose proof (Z_land_le (Z.lor (Z.lor (user_sstatus x) SSTATUS_SIE) SSTATUS_SPIE) (Z.lnot SSTATUS_SPP)).
    assert (0 <= user_sstatus x < 2 ^ 64) by apply u64_range.
    assert (0 <= Z.lor (Z.lor (user_sstatus x) SSTATUS_SIE) SSTATUS_SPIE < 2 ^ 64); [|lia].
    apply Z_lor_lt; [lia|apply Z_lor_lt; [lia|done|]|]; vm_compute; split; (discriminate || reflexivity).
  - by rewrite Hmem.
  - by rewrite Hmem.
  - by rewrite Hmem.
  - by rewrite Hmem.
  - intros r. destruct (decide (r = R_zero)) as [->|Hz]; [change (0 <= 0 < 2 ^ 64); lia|]. rewrite Hregs by done. by apply ld64_range.
  - rewrite Hc. fields. unfold sret_status. rewrite H5 by lia. cbn [Z.eqb Pos.eqb].
    rewrite Z.land_spec, !Z.lor_spec. change (Z.testbit SSTATUS_SIE 1) with true. by rewrite orb_true_r.
Qed.

(** From the [ecall] to the next user instruction. *)
Lemma getpid_loop (pad : list Z) (m : mach) (s : kstate) (me : nat) (P : proc) (c : cpu) (kpt hid pc : Z) :
  ready m P kpt hid -> 0 <= pc < 2 ^ 64 -> rget m R_a7 = SYS_getpid ->
  procs s !! me = Some P -> killed P = false -> trapframe P <> 0 ->
  cpus s !! Z.to_nat (i32 hid) = Some c -> c_proc c = Some me -> noff c = 0 ->
  exists m1 t,
    run (fetch_at TRAMPOLINE trampoline) uservec_code (strap 8 0 pc m) = Goto m1 usertrap_pc /\
    rget m1 R_sp = u64 (kstack P + PGSIZE) /\
    usertrap pad (enter m1 s) = Ok (TRAPFRAME, MAKE_SATP (pagetable P)) t /\
    procs t = procs s /\
    forall mk, leaving t (TRAPFRAME, MAKE_SATP (pagetable P)) mk ->
    exists m2, run (fetch_at TRAMPOLINE trampoline) userret_code mk = Goto m2 (u64 (pc + 4)) /\
      ready m2 P kpt hid /\ Z.testbit (sstatus (csrs m2)) 1 = true /\
      rget m2 R_a0 = u64 (pid P) /\ (forall r, r <> R_a0 -> rget m2 r = rget m r) /\
      outside (trapframe P) 288 (mmem m) (mmem m2).
Proof.
  intros Hr Hpc Ha7 HP Hk Ht Hc Hme Hn. destruct (ready_field _ _ _ _ Hr) as (Hks & Hsp & Hkt & Hkh).
  destruct (trap_enters m P kpt hid 8 0 pc Hr) as (m1 & Hrun & [Hmd Hcs Hsp1 Htp1 Hout Hb Hsave Hkept]).
  pose proof (rd_bytes _ _ _ _ Hr) as Hmb. specialize (Hb Hmb).
  change (mmem (strap 8 0 pc m)) with (mmem m) in *. rewrite Hsp in Hsp1.
  rewrite Hkh in Htp1. set (s1 := enter m1 s).
  assert (Eh : hart s1 = set_tp hid (csrs m1)) by (unfold s1, enter; fields; by rewrite Htp1).
  assert (Hss : 0 <= sstatus (hart s1) < 2 ^ 64).
  { rewrite Eh, Hcs. apply trap_status_range, Hr. }
  assert (Ho : open_cpu s1 me c).
  { split; [|done]. unfold this_cpu. rewrite Eh. exact Hc. }
  destruct (wp_run (usertrap pad) (fun r t => r = (TRAPFRAME, MAKE_SATP (pagetable P)) /\ served s1 me P (u64 (pid P)) t) s1)
    as (r & t & Hu & -> & Hsv).
  { apply (wp_usertrap_getpid pad me P c); try done.
    - rewrite Eh, Hcs. unfold strap. fields. rewrite (rd_mode _ _ _ _ Hr). rewrite trap_status_bits; [done|apply Hr|lia].
    - rewrite Eh, Hcs. done.
    - rewrite Eh, Hcs. exact Hpc.
    - rewrite <- Ha7. by apply (Hsave R_a7). }
  assert (Hkp : satp (hart s1) = MAKE_SATP kpt) by (by rewrite Eh, Hcs).
  assert (Etp : tp (hart s1) = hid) by (by rewrite Eh).
  destruct (sp_root _ _ _ (ks_space _ _ _ (rd_kernel _ _ _ _ Hr))) as [Hk1 Hk2].
  destruct (served_frame s1 me P _ t Hsv (u64_range _)) as (Hot & Hbt & Hft);
    [exact Hb|rewrite Hkp; by apply satp_root_make|rewrite <- Hkt; by apply ld64_range|
     rewrite Etp, <- Hkh; by apply ld64_range|].
  assert (Hall : outside (trapframe P) 288 (mmem m) (mem t)) by (by eapply outside_trans).
  assert (Hut : user_space (mem t) (pagetable P) (trapframe P)) by (eapply user_space_outside; [apply Hr|done]).
  assert (Hal : trapframe P mod PGSIZE = 0) by (rewrite <- (mt_pa _ _ _ _ _ (us_read _ _ _ Hut)); apply PTE2PA_range).
  assert (Hkt' : kernel_space (mem t) kpt (trapframe P)) by (eapply kernel_space_outside; [apply Hr|done|done]).
  exists m1, t. split; [exact Hrun|]. split; [exact Hsp1|]. split; [exact Hu|]. split; [apply (sv_procs _ _ _ _ _ Hsv)|].
  intros mk Hl. pose proof Hl as (Hm & Hc' & Hmm & H0' & H1').
  pose proof (sv_hart _ _ _ _ _ Hsv) as Hh.
  destruct (userret_runs mk (pagetable P) kpt (trapframe P)) as (m2 & Hret & Hres);
    [done|by rewrite Hc', Hh|by rewrite Hmm|by rewrite Hmm|done|done|].
  destruct (resumed_ready t P me _ s1 kpt mk m2 Hsv Hl Hres Hut Hkt' Hbt Hss) as (Hrd & Hie & Hm2).
  { intros f w Hin. rewrite Hft. repeat (apply elem_of_cons in Hin as [[= -> ->]|Hin]; [done|]). by apply not_elem_of_nil in Hin. }
  exists m2. split; [rewrite Hret, Hc', Hh, Eh, Hcs; done|]. split; [by rewrite <- Etp|]. split; [exact Hie|].
  destruct Hres as [_ _ _ Hregs]. rewrite Hmm in Hregs. split; [rewrite Hregs by done; apply (Hft tf_a0)|].
  split; [|by rewrite Hm2]. intros r Hra. destruct (decide (r = R_zero)) as [->|Hz]; [done|].
  change (rget m r) with (rget (strap 8 0 pc m) r). rewrite <- (Hsave r Hz), Hregs, Hft by done. by destruct r.
Qed.
Lemma ready_a7 m P kpt hid v : ready m P kpt hid -> 0 <= v < 2 ^ 64 -> ready (rset R_a7 v m) P kpt hid.
Proof.
  intros Hr Hv. split; try apply Hr. intros r. pose proof (rd_regs _ _ _ _ Hr r) as Hrr. revert Hrr.
  unfold rget, rset. fields. intros Hrr. repeat case_decide; lia.
Qed.

(** User text stays where it is: a trap writes to the trap frame only. *)
Lemma ready_fetch m m2 P kpt hid va pa : ready m P kpt hid -> ready m2 P kpt hid ->
  outside (trapframe P) 288 (mmem m) (mmem m2) -> fetch_at va pa m = true -> fetch_at va pa m2 = true.
Proof.
  intros Hr Hr2 Ho Hf. pose proof (rd_user _ _ _ _ Hr) as Hu. apply outside_page in Ho.
  assert (Hal : trapframe P mod PGSIZE = 0) by (rewrite <- (mt_pa _ _ _ _ _ (us_read _ _ _ Hu)); apply PTE2PA_range).
  destruct (sp_root _ _ _ (us_space _ _ _ Hu)) as [Hb1 Hb2].
  destruct (space_same _ _ _ _ (us_space _ _ _ Hu) Hal Ho) as [_ El]. revert Hf. unfold fetch_at, xlate.
  rewrite (rd_mode _ _ _ _ Hr), (rd_mode _ _ _ _ Hr2), (rd_satp _ _ _ _ Hr), (rd_satp _ _ _ _ Hr2).
  destruct (satp_root_make (pagetable P) Hb1 Hb2) as (-> & _). by rewrite El.
Qed.

(** C7: The call [getpid()] of a user program, through its stub in usys.S, the hardware,
    the trampoline and the kernel, and back.  The stub's [ecall] traps to [uservec],
    which saves the user's registers in the trap frame and changes to the kernel's page
    table; [usertrap] runs on the process's kernel stack and returns, through
    [usertrapret], the arguments of [userret]; [userret] continues the stub in user
    mode; and the stub returns to its caller with the process's number in [a0] and
    every other register but [a7] as it was, interrupts on, no byte of memory outside
    the trap frame changed, and the machine ready for the next trap. *)
Theorem getpid_call (pad : list Z) (m : mach) (s : kstate) (me : nat) (P : proc) (c : cpu) (kpt hid pc upa : Z) :
  ready m P kpt hid -> 0 <= pc -> pc + 8 <= MAXVA -> fetch_at pc upa m = true ->
  procs s !! me = Some P -> killed P = false -> trapframe P <> 0 ->
  cpus s !! Z.to_nat (i32 hid) = Some c -> c_proc c = Some me -> noff c = 0 ->
  exists m0 m1 t,
    run (fetch_at pc upa) (usys_code SYS_getpid) m = Env m0 [Ret] /\
    run (fetch_at TRAMPOLINE trampoline) uservec_code (strap 8 0 (pc + 4) m0) = Goto m1 usertrap_pc /\
    rget m1 R_sp = u64 (kstack P + PGSIZE) /\
    usertrap pad (enter m1 s) = Ok (TRAPFRAME, MAKE_SATP (pagetable P)) t /\ procs t = procs s /\
    forall mk, leaving t (TRAPFRAME, MAKE_SATP (pagetable P)) mk ->
    exists m2, run (fetch_at TRAMPOLINE trampoline) userret_code mk = Goto m2 (pc + 8) /\
      run (fetch_at pc upa) [Ret] m2 = Goto m2 (rget m R_ra) /\
      ready m2 P kpt hid /\ Z.testbit (sstatus (csrs m2)) 1 = true /\
      rget m2 R_a0 = u64 (pid P) /\ (forall r, r <> R_a0 -> r <> R_a7 -> rget m2 r = rget m r) /\
      outside (trapframe P) 288 (mmem m) (mmem m2).
Proof.
  intros Hr Hpc0 Hpc Hf HP Hk Ht Hc Hme Hn. set (m0 := rset R_a7 SYS_getpid m).
  assert (Hr0 : ready m0 P kpt hid) by (apply ready_a7; [done|unfold SYS_getpid; lia]).
  destruct (getpid_loop pad m0 s me P c kpt hid (pc + 4) Hr0) as (m1 & t & Hu & Hs & Hok & Hps & Hb);
    [revert Hpc; consts; lia|reflexivity|done..|].
  exists m0, m1, t. split; [|split; [exact Hu|split; [exact Hs|split; [exact Hok|split; [exact Hps|]]]]].
  { unfold usys_code. rewrite (run_cons _ _ _ _ m m0 Hf) by reflexivity. cbn [run]. by rewrite (Hf : fetch_at pc upa m0 = true). }
  intros mk Hl. destruct (Hb mk Hl) as (m2 & Hret & Hrd & Hie & Ha0 & Hoth & Hout).
  exists m2. replace (u64 (pc + 4 + 4)) with (pc + 8) in Hret by (rewrite u64_id; [lia|revert Hpc; consts; lia]).
  split; [exact Hret|]. split.
  { cbn [run exec]. rewrite (ready_fetch m0 m2 P kpt hid pc upa) by done. by rewrite Hoth. }
  split; [exact Hrd|]. split; [exact Hie|]. split; [exact Ha0|]. split; [|exact Hout].
  intros r Hra Hr7. rewrite Hoth by done. unfold m0, rget, rset. fields. by rewrite (decide_False (P := r = R_a7)).
Qed.
End Kernel.

(** ** A concrete process

    The process of [sp_mem]: page 8 is its text. *)

Definition ec_proc : proc :=
  mk_proc RUNNING None None false 0 7 0x3fffffd000 4096 (ex_page 1) (ex_page 4) zero_context (replicate 16 None) None 0x80002000.
Definition ec_mach : mach :=
  mk_mach (fun r => if decide (r = R_ra) then 0x40 else if decide (r = R_s3) then 0x55 else 0)
    (set_stvec TRAMPOLINE (set_sscratch TRAPFRAME (set_satp (MAKE_SATP (ex_page 1)) (set_sstatus 0x22 (hart zero_kstate)))))
    (sp_mem (usertrap_pc (Board := ex_board))) U_mode.
Definition ec_cpu : cpu := mk_cpu (Some 0%nat) zero_context 0 true.
Definition ec_state : kstate :=
  set_procs (ec_proc :: replicate 63 zero_proc) (set_cpus (ec_cpu :: replicate 7 zero_cpu) zero_kstate).

Lemma ec_space pc k : k = 1 \/ k = 5 -> space (H := sp_image) (sp_mem pc) (ex_page k) (ex_page 4).
Proof.
  intros Hk. split; [split; [unfold ex_page; clia|unfold ex_page; consts; zdm]|].
  intros path q Hok Hq. apply sp_path in Hq; [|done|done]. by eapply sp_page_ok.
Qed.

Lemma ec_ready : ready (H0 := sp_image) (H3 := ex_board) ec_mach ec_proc (ex_page 5) 0.
Proof.
  split; try reflexivity.
  - vm_compute. split; congruence.
  - split; [apply (ec_space _ 1 (or_introl eq_refl))|split; reflexivity..].
  - split; [apply (ec_space _ 5 (or_intror eq_refl))|split; reflexivity].
  - apply cells_bytes.
  - intros f v Hin. repeat (apply elem_of_cons in Hin as [[= -> ->]|Hin]; [vm_compute; reflexivity|]). by apply not_elem_of_nil in Hin.
  - intros r. destruct r; vm_compute; split; congruence.
Qed.

(** The machine when [usertrapret] has called [userret]. *)
Definition ec_leaving (t : kstate) : mach :=
  mk_mach (fun r => if decide (r = R_a0) then TRAPFRAME else MAKE_SATP (ex_page 1)) (hart t) (mem t) S_mode.

Lemma getpid_call_witness : exists m0 m1 t m2,
  run (fetch_at 0x30 (ex_page 8 + 0x30)) (usys_code SYS_getpid) ec_mach = Env m0 [Ret] /\
  run (fetch_at TRAMPOLINE (trampoline (KernelImage := sp_image))) uservec_code (strap 8 0 0x34 m0) =
    Goto m1 (usertrap_pc (Board := ex_board)) /\
  usertrap (H := idle_world) (H0 := sp_image) (H3 := ex_board) [] (enter m1 ec_state) = Ok (TRAPFRAME, MAKE_SATP (ex_page 1)) t /\
  run (fetch_at TRAMPOLINE (trampoline (KernelImage := sp_image))) userret_code (ec_leaving t) = Goto m2 0x38 /\
  run (fetch_at 0x30 (ex_page 8 + 0x30)) [Ret] m2 = Goto m2 0x40 /\
  mode m2 = U_mode /\ rget m2 R_a0 = 7 /\ rget m2 R_s3 = 0x55.
Proof.
  destruct (getpid_call (H := idle_world) (H0 := sp_image) (H3 := ex_board) [] ec_mach ec_state 0 ec_proc ec_cpu
    (ex_page 5) 0 0x30 (ex_page 8 + 0x30) ec_ready) as (m0 & m1 & t & Hstub & Hu & _ & Ht & _ & Hm);
    [lia|vm_compute; congruence|reflexivity|reflexivity|reflexivity|discriminate|reflexivity|reflexivity|reflexivity|].
  destruct (Hm (ec_leaving t)) as (m2 & Hr & Hret & Hrd & _ & Ha & Ho & _); [repeat split|].
  exists m0, m1, t, m2. split; [exact Hstub|]. split; [exact Hu|]. split; [exact Ht|]. split; [exact Hr|]. split; [exact Hret|].
  split; [exact (rd_mode _ _ _ _ Hrd)|]. split; [rewrite Ha; reflexivity|]. rewrite Ho by discriminate. reflexivity.
Defined.
