(* ===== verification/Vectors.v ===== *)
(** * What the assembly routines do

    The routines of [Asm] that run in the kernel's own mapping or in machine mode:
    [swtch], [kernelvec], [timervec] with [timerinit], [_entry]; and the first user program. *)

From stdpp Require Import gmap strings list fin_maps.
From Stdlib Require Import ZArith Lia.
From S2P Require Import Prelude Machine Str State Riscv Spinlock Kalloc Vm Copy Uvm.
From S2P Require Import Sched Sleeplock Bytes Bio Log Inode Dir Pipe Console File Proc Exec.
From S2P Require Import Syscall Trap Asm.
Open Scope Z_scope.

#[local] Opaque st64 ld64.

(** ** Code in the kernel's own mapping *)

(** Kernel addresses are physical addresses: the code at [cva] can be fetched, and the
    doublewords of [D] can be read and written at their own address, whatever is
    stored into [D]. *)
Definition direct (cva : Z) (m : mach) (D : Z -> Prop) : Prop :=
  forall mm, (forall x, ~ D x -> ld8 mm x = ld8 (mmem m) x) ->
    xlate A_X (set_mmem mm m) cva = Some cva /\
    forall a x, a <> A_X -> D x -> D (x + 7) -> xlate a (set_mmem mm m) (u64 x) = Some x.

(** Machine mode does not translate. *)
Lemma direct_machine cva m (D : Z -> Prop) : mode m = M_mode -> (forall x, D x -> 0 <= x < 2 ^ 64) -> direct cva m D.
Proof.
  intros Hm HD mm _. unfold xlate. fields. rewrite bool_decide_eq_true_2 by done. split; [done|].
  intros a x _ Hx _. rewrite u64_id; [done|]. by apply HD.
Qed.

Lemma direct_steady cva m (D : Z -> Prop) a va n : direct cva m D -> a <> A_X -> (forall x, va <= x < va + n -> D x) ->
  steady cva cva a m va va n.
Proof.
  intros Hd Ha HD mm Ho. destruct (Hd mm) as [Hf Hx].
  { intros x Hx. apply Ho. destruct (decide (va <= x < va + n)); [exfalso; by apply Hx, HD|lia]. }
  split; [exact Hf|]. intros o H1 H2. apply Hx; [done|apply HD; lia..].
Qed.

Lemma direct_store cva m (D : Z -> Prop) mm : direct cva m D -> (forall x, ~ D x -> ld8 mm x = ld8 (mmem m) x) ->
  direct cva (set_mmem mm m) D.
Proof. intros Hd Hm mm' Hm'. apply (Hd mm'). intros x Hx. rewrite Hm' by done. by apply Hm. Qed.

Lemma direct_regs cva m (D : Z -> Prop) f : direct cva m D -> direct cva (set_regs f m) D.
Proof. intros Hd mm Hm. exact (Hd mm Hm). Qed.

(** *** [swtch] *)

Definition context_frame : list (reg * Z) :=
  [(R_ra, 0); (R_sp, 8); (R_s0, 16); (R_s1, 24); (R_s2, 32); (R_s3, 40); (R_s4, 48); (R_s5, 56); (R_s6, 64);
   (R_s7, 72); (R_s8, 80); (R_s9, 88); (R_s10, 96); (R_s11, 104)].

Lemma context_frame_ok : frame_ok 112 context_frame.
Proof.
  split; [|split].
  - repeat (apply Forall_cons_2; [cbn; split_and!; (done || lia)|]). apply Forall_nil_2.
  - apply NoDup_ListNoDup. vm_compute. repeat constructor; simpl; intuition congruence.
  - apply NoDup_ListNoDup. vm_compute. repeat constructor; simpl; intuition congruence.
Qed.

Lemma swtch_code_eq : swtch_code = saves R_a0 context_frame ++ loads R_a1 context_frame ++ [Ret].
Proof. reflexivity. Qed.

(** The two contexts. *)
Definition contexts (old new : Z) (x : Z) : Prop := old <= x < old + 112 \/ new <= x < new + 112.

Record switched (m : mach) (old new : Z) (m' : mach) : Prop := {
  sw_saved : forall r o, (r, o) ∈ context_frame -> ld64 (mmem m') (old + o) = rget m r;
  sw_loaded : forall r o, (r, o) ∈ context_frame -> rget m' r = ld64 (mmem m) (new + o);
  sw_other : forall r, r ∉ context_frame.*1 -> rget m' r = rget m r;
  sw_outside : outside old 112 (mmem m) (mmem m');
  sw_csrs : csrs m' = csrs m /\ mode m' = mode m
}.

Lemma swtch_runs cva m old new : rget m R_a0 = old -> rget m R_a1 = new -> direct cva m (contexts old new) ->
  old + 112 <= new \/ new + 112 <= old -> (forall r, 0 <= rget m r < 2 ^ 64) ->
  exists m', run (fetch_at cva cva) swtch_code m = Goto m' (ld64 (mmem m) new) /\ switched m old new m'.
Proof.
  intros Ha0 Ha1 Hd Hsep Hr. rewrite swtch_code_eq.
  assert (HF : Forall (fun ro : reg * Z => 0 <= ro.2 /\ ro.2 + 8 <= 112) context_frame)
    by (eapply Forall_impl; [apply context_frame_ok|]; by intros ? (? & ? & _)).
  rewrite (run_saves _ _ R_a0 old 112);
    [|rewrite Ha0; apply (direct_steady _ _ _ _ _ _ Hd); [done|unfold contexts; lia]|exact HF].
  set (mm := save_mem old (rget m) context_frame (mmem m)).
  assert (Ho : outside old 112 (mmem m) mm) by (by apply save_mem_outside).
  assert (Hd1 : direct cva (set_mmem mm m) (contexts old new)).
  { apply direct_store; [done|]. intros x Hx. apply Ho. unfold contexts in Hx. lia. }
  assert (Hnew : forall o, 0 <= o -> o + 8 <= 112 -> ld64 mm (new + o) = ld64 (mmem m) (new + o)).
  { intros o H1 H2. apply (ld64_ext _ _ _ _). intros i Hi. apply Ho. lia. }
  rewrite (run_loads _ _ R_a1 new 112).
  2:{ change (rget (set_mmem mm m) R_a1) with (rget m R_a1). rewrite Ha1.
      apply (direct_steady _ _ _ _ _ _ Hd1); [done|unfold contexts; lia]. }
  2:{ repeat (apply Forall_cons_2; [cbn; split_and!; (done || lia)|]). apply Forall_nil_2. }
  change (mmem (set_mmem mm m)) with mm. set (m' := set_regs _ _).
  assert (Hl : forall r o, (r, o) ∈ context_frame -> rget m' r = ld64 (mmem m) (new + o)).
  { intros r o Hin. destruct (proj1 (Forall_forall _ _) (proj1 context_frame_ok) _ Hin) as (H1 & H2 & _ & Hz).
    cbn in H1, H2, Hz. unfold rget. rewrite decide_False by done. unfold m'. fields.
    rewrite (load_regs_at _ _ _ _ r o); [by apply Hnew|apply context_frame_ok|done]. }
  assert (Hf : fetch_at cva cva m' = true).
  { apply bool_decide_eq_true. apply (Hd1 mm). done. }
  cbn [run exec]. rewrite Hf, (Hl R_ra 0) by set_solver. rewrite Z.add_0_r. exists m'. split; [done|]. split.
  - intros r o Hin. change (mmem m') with mm. apply (save_mem_at _ 112); [apply context_frame_ok|done|done].
  - exact Hl.
  - intros r Hn. unfold rget. destruct (decide (r = R_zero)); [done|]. unfold m'. fields. by rewrite load_regs_other.
  - exact Ho.
  - done.
Qed.

(** C18: A thread that gives up the CPU comes back as it left.  [swtch] stores the
    return address, the stack pointer and the callee-saved registers of its caller in
    [old]; when a later [swtch], by any thread, has [old] as its second argument and
    the context is still as it was stored, it returns to where the first one was
    called from, with all these registers as they were at that call. *)
Theorem swtch_roundtrip (cva : Z) (m m2 : mach) (old new old2 : Z) :
  rget m R_a0 = old -> rget m R_a1 = new -> direct cva m (contexts old new) ->
  old + 112 <= new \/ new + 112 <= old -> (forall r, 0 <= rget m r < 2 ^ 64) ->
  rget m2 R_a0 = old2 -> rget m2 R_a1 = old -> direct cva m2 (contexts old2 old) ->
  old2 + 112 <= old \/ old + 112 <= old2 -> (forall r, 0 <= rget m2 r < 2 ^ 64) ->
  exists m1, run (fetch_at cva cva) swtch_code m = Goto m1 (ld64 (mmem m) new) /\
    ((forall x, old <= x < old + 112 -> ld8 (mmem m2) x = ld8 (mmem m1) x) ->
     exists m3, run (fetch_at cva cva) swtch_code m2 = Goto m3 (rget m R_ra) /\
       (forall r, r ∈ context_frame.*1 -> rget m3 r = rget m r) /\
       (forall r, r ∉ context_frame.*1 -> rget m3 r = rget m2 r) /\
       outside old2 112 (mmem m2) (mmem m3)).
Proof.
  intros Ha0 Ha1 Hd Hsep Hr Hb0 Hb1 Hd2 Hsep2 Hr2.
  destruct (swtch_runs cva m old new Ha0 Ha1 Hd Hsep Hr) as (m1 & H1 & [Hsaved _ _ _ _]).
  exists m1. split; [exact H1|]. intros Hkept.
  assert (Hat : forall r o, (r, o) ∈ context_frame -> ld64 (mmem m2) (old + o) = rget m r).
  { intros r o Hin. rewrite <- (Hsaved r o Hin). apply ld64_ext. intros i Hi. apply Hkept.
    destruct (proj1 (Forall_forall _ _) (proj1 context_frame_ok) _ Hin) as (? & ? & _). cbn in *. lia. }
  destruct (swtch_runs cva m2 old2 old Hb0 Hb1 Hd2 Hsep2 Hr2) as (m3 & H3 & [_ Hload Hoth Hout _]).
  exists m3. rewrite H3, <- (Hat R_ra 0), Z.add_0_r by set_solver. split; [done|]. split; [|split; [exact Hoth|exact Hout]].
  intros r ((r' & o) & -> & Hin)%list_elem_of_fmap. cbn [fst]. rewrite (Hload r' o Hin). by apply Hat.
Qed.

(** Two threads on one hart, without paging. *)
Definition sw_mach (a0 a1 ra : Z) (mm : memory) : mach :=
  mk_mach (fun r => if decide (r = R_a0) then a0 else if decide (r = R_a1) then a1 else
             if decide (r = R_ra) then ra else if decide (r = R_s5) then 0x77 else 0)
    (hart zero_kstate) mm S_mode.

Lemma sw_direct cva a0 a1 ra mm : 0 <= a0 < 2 ^ 32 -> 0 <= a1 < 2 ^ 32 -> direct cva (sw_mach a0 a1 ra mm) (contexts a0 a1).
Proof.
  intros H0 H1 mm' _. split; [reflexivity|]. intros a x _ Hx _. rewrite u64_id; [reflexivity|]. unfold contexts in Hx. lia.
Qed.

Lemma sw_regs a0 a1 ra mm : 0 <= a0 < 2 ^ 32 -> 0 <= a1 < 2 ^ 32 -> 0 <= ra < 2 ^ 32 ->
  forall r, 0 <= rget (sw_mach a0 a1 ra mm) r < 2 ^ 64.
Proof. intros H0 H1 H2 r. unfold rget, sw_mach. cbn [regs]. repeat case_decide; lia. Qed.

Lemma swtch_roundtrip_witness : exists m1 m3,
  run (fetch_at 0x80001000 0x80001000) swtch_code (sw_mach 0x80010000 0x80020000 0x80003000 ∅) = Goto m1 0 /\
  run (fetch_at 0x80001000 0x80001000) swtch_code (sw_mach 0x80020000 0x80010000 0x80004000 (mmem m1)) = Goto m3 0x80003000 /\
  rget m3 R_s5 = 0x77.
Proof.
  destruct (swtch_runs 0x80001000 (sw_mach 0x80010000 0x80020000 0x80003000 ∅) 0x80010000 0x80020000) as (m0 & H0 & _);
    [reflexivity|reflexivity|apply sw_direct; lia|lia|apply sw_regs; lia|].
  destruct (swtch_roundtrip 0x80001000 (sw_mach 0x80010000 0x80020000 0x80003000 ∅)
    (sw_mach 0x80020000 0x80010000 0x80004000 (mmem m0)) 0x80010000 0x80020000 0x80020000) as (m1 & H1 & H2);
    [reflexivity|reflexivity|apply sw_direct; lia|lia|apply sw_regs; lia|
     reflexivity|reflexivity|apply sw_direct; lia|lia|apply sw_regs; lia|].
  assert (m1 = m0) as -> by congruence. destruct H2 as (m3 & H3 & Hr & _); [reflexivity|].
  exists m0, m3. split; [exact H0|]. split; [exact H3|]. apply (Hr R_s5). clear. set_solver.
Defined.

(** *** [kernelvec] *)

Definition kernel_regs : list reg := [
  R_ra; R_sp; R_gp; R_tp; R_t0; R_t1; R_t2; R_s0; R_s1; R_a0; R_a1; R_a2; R_a3; R_a4; R_a5; R_a6; R_a7;
  R_s2; R_s3; R_s4; R_s5; R_s6; R_s7; R_s8; R_s9; R_s10; R_s11; R_t3; R_t4; R_t5; R_t6 ].
Definition kernel_frame : list (reg * Z) := zip kernel_regs (Z.mul 8 <$> seqZ 0 31).
Definition restored_frame : list (reg * Z) := filter (fun ro => ro.1 <> R_tp) kernel_frame.

Lemma kernelvec_code_eq f ret : kernelvec_code f ret =
  Addi R_sp R_sp (-256) :: saves R_sp kernel_frame ++ Call f ret :: loads R_sp restored_frame ++ [Addi R_sp R_sp 256; Sret].
Proof. reflexivity. Qed.

Lemma kernel_frame_ok : frame_ok 256 kernel_frame.
Proof.
  split; [|split].
  - repeat (apply Forall_cons_2; [cbn; split_and!; (done || lia)|]). apply Forall_nil_2.
  - apply NoDup_ListNoDup. vm_compute. repeat constructor; simpl; intuition congruence.
  - apply NoDup_ListNoDup. vm_compute. repeat constructor; simpl; intuition congruence.
Qed.

Lemma kernel_frame_range : Forall (fun ro : reg * Z => 0 <= ro.2 /\ ro.2 + 8 <= 256) kernel_frame.
Proof. eapply Forall_impl; [apply kernel_frame_ok|]. by intros ? (? & ? & _). Qed.

Lemma elem_restored r : r <> R_zero -> r <> R_tp -> exists o, (r, o) ∈ restored_frame /\ (r, o) ∈ kernel_frame.
Proof.
  intros Hz Ht. assert (exists o, (r, o) ∈ kernel_frame) as [o Ho].
  { destruct r; try done; eexists; unfold kernel_frame; cbn; repeat first [apply list_elem_of_here | apply list_elem_of_further]. }
  exists o. split; [|done]. by apply list_elem_of_filter.
Qed.

(** The 256 bytes below the interrupted code's stack pointer. *)
Definition below (sp : Z) (x : Z) : Prop := sp - 256 <= x < sp.

Lemma direct_fetch cva m (D : Z -> Prop) : direct cva m D -> fetch_at cva cva m = true.
Proof. intros Hd. apply bool_decide_eq_true. rewrite <- (set_mmem_same m). by apply (Hd (mmem m)). Qed.

Lemma below_steady cva m sp a : direct cva m (below sp) -> a <> A_X -> steady cva cva a m (sp - 256) (sp - 256) 256.
Proof. intros Hd Ha. apply (direct_steady _ _ _ _ _ _ Hd); [done|]. intros x Hx. unfold below. lia. Qed.

(** What [kernelvec] does once [kerneltrap] has returned. *)
Lemma kernelvec_leaves cva sp f m2 : 256 <= sp < 2 ^ 64 -> direct cva m2 (below sp) -> rget m2 R_sp = sp - 256 ->
  (forall r o, (r, o) ∈ kernel_frame -> ld64 (mmem m2) (sp - 256 + o) = f r) -> f R_sp = sp - 256 ->
  exists m3, run (fetch_at cva cva) (loads R_sp restored_frame ++ [Addi R_sp R_sp 256; Sret]) m2 = Goto m3 (sepc (csrs m2)) /\
    (forall r, r <> R_zero -> r <> R_tp -> rget m3 r = if decide (r = R_sp) then sp else f r) /\
    rget m3 R_tp = rget m2 R_tp /\
    mmem m3 = mmem m2 /\ mode m3 = sret_mode (sstatus (csrs m2)) /\
    csrs m3 = set_sstatus (sret_status (sstatus (csrs m2))) (csrs m2).
Proof.
  intros Hsp Hd Es Hat Hfs. rewrite (run_loads _ _ R_sp (sp - 256) 256); [|rewrite Es; by apply below_steady|].
  2:{ apply Forall_forall. intros [r o] [Ht Hin]%list_elem_of_filter.
      destruct (proj1 (Forall_forall _ _) (proj1 kernel_frame_ok) _ Hin) as (H1 & H2 & _ & Hz).
      split_and!; [done..|]. cbn [fst snd]. intros ->. by rewrite (Hat _ _ Hin), Hfs. }
  set (m3 := set_regs _ _). assert (Hd3 : direct cva m3 (below sp)) by exact Hd.
  assert (Hreg : forall r, r <> R_zero -> r <> R_tp -> rget m3 r = f r).
  { intros r Hz Ht. destruct (elem_restored r Hz Ht) as (o & Hin & Hin'). rewrite <- (Hat r o Hin').
    unfold rget. rewrite decide_False by done. apply load_regs_at; [|done].
    eapply sublist_NoDup; [apply kernel_frame_ok|apply fmap_sublist, sublist_filter]. }
  erewrite (run_cons _ _ _ _ m3 (rset R_sp sp m3));
    [|by eapply direct_fetch|cbn [exec]; rewrite (Hreg R_sp), Hfs by done; do 2 f_equal; rewrite u64_id; lia].
  cbn [run exec]. rewrite (direct_fetch cva (rset R_sp sp m3) (below sp)) by exact Hd3.
  eexists. split; [reflexivity|]. split; [|split; [|split; [|split]]]; try reflexivity.
  intros r Hz Ht. specialize (Hreg r Hz Ht). revert Hreg. unfold rget, rset. fields.
  rewrite !(decide_False (P := r = R_zero)) by done. intros <-. by destruct (decide (r = R_sp)).
Qed.

(** C19: An interrupt or exception in the kernel does not disturb the code it
    interrupts.  [kernelvec] calls [kerneltrap] with all registers saved in the 256
    bytes below the stack pointer; when [kerneltrap] returns, with the stack pointer
    and the frame as it got them, the interrupted code goes on at the program counter
    and with the privilege that [kerneltrap] left in [sepc] and [sstatus], every
    register as it was, except [tp], which names the hart the code is running on now. *)
Theorem kernelvec_transparent (cva kerneltrap ret : Z) (m : mach) :
  256 <= rget m R_sp -> direct cva m (below (rget m R_sp)) -> (forall r, 0 <= rget m r < 2 ^ 64) ->
  exists m1 rest, run (fetch_at cva cva) (kernelvec_code kerneltrap ret) m = Called m1 kerneltrap rest /\
    rget m1 R_sp = rget m R_sp - 256 /\ rget m1 R_ra = ret /\
    (forall r, r <> R_sp -> r <> R_ra -> rget m1 r = rget m r) /\
    outside (rget m R_sp - 256) 256 (mmem m) (mmem m1) /\ csrs m1 = csrs m /\ mode m1 = mode m /\
    forall m2, rget m2 R_sp = rget m1 R_sp -> direct cva m2 (below (rget m R_sp)) ->
      (forall x, below (rget m R_sp) x -> ld8 (mmem m2) x = ld8 (mmem m1) x) ->
      exists m3, run (fetch_at cva cva) rest m2 = Goto m3 (sepc (csrs m2)) /\
        (forall r, r <> R_tp -> rget m3 r = rget m r) /\ rget m3 R_tp = rget m2 R_tp /\
        mmem m3 = mmem m2 /\ mode m3 = sret_mode (sstatus (csrs m2)) /\
        csrs m3 = set_sstatus (sret_status (sstatus (csrs m2))) (csrs m2).
Proof.
  intros Hsp Hd Hr. rewrite kernelvec_code_eq. set (sp := rget m R_sp) in *.
  assert (Hsp' : 0 <= sp < 2 ^ 64) by apply Hr. set (m0 := rset R_sp (sp - 256) m).
  assert (Hd0 : direct cva m0 (below sp)) by exact Hd.
  erewrite (run_cons _ _ _ _ m m0); [|by eapply direct_fetch|cbn [exec]; fold sp; rewrite u64_id by lia; reflexivity].
  rewrite (run_saves _ _ R_sp (sp - 256) 256); [|by apply below_steady|apply kernel_frame_range].
  change (mmem m0) with (mmem m). set (mm := save_mem _ _ _ _).
  assert (Ho : outside (sp - 256) 256 (mmem m) mm) by apply save_mem_outside, kernel_frame_range.
  assert (Hd1 : direct cva (set_mmem mm m0) (below sp)).
  { apply direct_store; [done|]. intros x Hx. apply Ho. unfold below in Hx. lia. }
  cbn [run exec]. rewrite (direct_fetch _ _ _ Hd1). eexists _, _. split; [reflexivity|]. split; [reflexivity|]. split; [reflexivity|].
  split; [intros r Hs Hra; unfold rget, m0, rset; fields; destruct (decide (r = R_zero)); [done|]; by rewrite !decide_False|].
  split; [exact Ho|]. split; [done|]. split; [done|]. intros m2 Es Hd2 Hkept. change (rget m2 R_sp = sp - 256) in Es.
  destruct (kernelvec_leaves cva sp (rget m0) m2 ltac:(lia) Hd2 Es) as (m3 & Hrun & Hreg & Htp & Hrest); [|reflexivity|].
  - intros r o Hin. rewrite <- (save_mem_at (sp - 256) 256 (rget m0) kernel_frame (mmem m) r o kernel_frame_ok);
      [|intros r'; specialize (Hr r'); unfold m0, rget, rset in *; fields; repeat case_decide; lia|done].
    apply ld64_ext. intros i Hi. apply Hkept.
    destruct (proj1 (Forall_forall _ _) (proj1 kernel_frame_ok) _ Hin) as (? & ? & _). cbn in *. unfold below. lia.
  - exists m3. split; [exact Hrun|]. split; [|split; [exact Htp|exact Hrest]].
    intros r Ht. destruct (decide (r = R_zero)) as [->|Hz]; [done|]. rewrite Hreg by done.
    unfold m0, rget, rset. fields. destruct (decide (r = R_sp)) as [->|]; [done|]. done.
Qed.

(** A kernel thread at its stack, without paging; [kerneltrap] changes two registers. *)
Definition kv_mach : mach :=
  mk_mach (fun r => if decide (r = R_sp) then 0x80010000 else if decide (r = R_a3) then 0x33 else 5)
    (set_sepc 0x80001234 (set_sstatus 0x120 (hart zero_kstate))) ∅ S_mode.

Lemma kernelvec_transparent_witness : exists m1 rest m3,
  run (fetch_at 0x80005000 0x80005000) (kernelvec_code 0x80002000 0x80005080) kv_mach = Called m1 0x80002000 rest /\
  run (fetch_at 0x80005000 0x80005000) rest (rset R_tp 1 (rset R_a3 0 m1)) = Goto m3 0x80001234 /\
  rget m3 R_a3 = 0x33 /\ rget m3 R_ra = 5 /\ rget m3 R_sp = 0x80010000 /\ rget m3 R_tp = 1 /\ mode m3 = S_mode.
Proof.
  assert (Hd : forall m, mode m = S_mode -> satp (csrs m) = 0 -> direct 0x80005000 m (below 0x80010000)).
  { intros m H1 H2 mm _. unfold xlate. fields. rewrite H1, H2. split; [reflexivity|].
    intros a x _ Hx _. unfold below in Hx. rewrite u64_id by lia. reflexivity. }
  destruct (kernelvec_transparent 0x80005000 0x80002000 0x80005080 kv_mach) as (m1 & rest & Hrun & Hsp & _ & _ & _ & Hc & Hm & Hback);
    [vm_compute; congruence|by apply Hd|intros r; unfold rget, kv_mach; cbn [regs]; repeat case_decide; lia|].
  destruct (Hback (rset R_tp 1 (rset R_a3 0 m1))) as (m3 & Hr & Hreg & Htp & _ & Hmd & _);
    [reflexivity|apply Hd; [exact Hm|change (satp (csrs m1) = 0); by rewrite Hc]|reflexivity|].
  change (csrs (rset R_tp 1 (rset R_a3 0 m1))) with (csrs m1) in Hr, Hmd. rewrite Hc in Hr, Hmd.
  exists m1, rest, m3. split; [exact Hrun|]. split; [exact Hr|].
  split; [by rewrite Hreg|]. split; [by rewrite Hreg|]. split; [by rewrite Hreg|]. split; [exact Htp|exact Hmd].
Defined.

(** *** [timervec] *)

Lemma timervec_code_eq : timervec_code =
  Csrrw R_a0 C_mscratch R_a0 :: saves R_a0 [(R_a1, 0); (R_a2, 8); (R_a3, 16)] ++ loads R_a0 [(R_a1, 32); (R_a2, 40)] ++
  [Ld R_a3 0 R_a1; Add R_a3 R_a3 R_a2; Sd R_a3 0 R_a1; Li R_a1 2; Csrw C_sip R_a1] ++
  loads R_a0 [(R_a3, 16); (R_a2, 8); (R_a1, 0)] ++ [Csrrw R_a0 C_mscratch R_a0; Mret].
Proof. reflexivity. Qed.

Record ticked (m m' : mach) (sc cmp : Z) : Prop := {
  tk_regs : forall r, rget m' r = rget m r;
  tk_cmp : ld64 (mmem m') cmp = u64 (ld64 (mmem m) cmp + ld64 (mmem m) (sc + 40));
  tk_mem : forall x, x < sc \/ sc + 24 <= x -> x < cmp \/ cmp + 8 <= x -> ld8 (mmem m') x = ld8 (mmem m) x;
  tk_csrs : csrs m' = set_mstatus (mret_status (mstatus (csrs m)))
    (set_sip (Z.lor (Z.land (sip (csrs m)) (Z.lnot 2)) 2) (csrs m));
  tk_mode : mode m' = mret_mode (mstatus (csrs m))
}.

Lemma xlate_machine a m x : mode m = M_mode -> xlate a m x = Some x.
Proof. intros Hm. unfold xlate. by rewrite bool_decide_eq_true_2. Qed.

Lemma run_machine cva i rest m m' : mode m = M_mode -> exec i rest m = Next m' ->
  run (fetch_at cva cva) (i :: rest) m = run (fetch_at cva cva) rest m'.
Proof. intros Hm. apply run_cons. apply bool_decide_eq_true. by apply xlate_machine. Qed.

Lemma steady_machine cva a m va n : mode m = M_mode -> 0 <= va -> va + n <= 2 ^ 64 -> steady cva cva a m va va n.
Proof.
  intros Hm H1 H2 mm _. split; [by apply xlate_machine|]. intros o Ho1 Ho2. rewrite xlate_machine by done.
  by rewrite u64_id by lia.
Qed.

Definition timer_frame : list (reg * Z) := [(R_a1, 0); (R_a2, 8); (R_a3, 16)].

Lemma timer_frame_ok : frame_ok 24 timer_frame.
Proof.
  split; [|split].
  - repeat (apply Forall_cons_2; [cbn; split_and!; (done || lia)|]). apply Forall_nil_2.
  - apply NoDup_ListNoDup. repeat constructor; simpl; intuition congruence.
  - apply NoDup_ListNoDup. repeat constructor; simpl; intuition congruence.
Qed.

(** The memory [timervec] leaves. *)
Lemma timer_mem f mm sc cmp v : (forall r, 0 <= f r < 2 ^ 64) -> 0 <= v < 2 ^ 64 -> cmp + 8 <= sc \/ sc + 48 <= cmp ->
  let mm1 := save_mem sc f timer_frame mm in let mm2 := st64 mm1 cmp v in
  ld64 mm1 cmp = ld64 mm cmp /\ (forall o, 24 <= o -> ld64 mm1 (sc + o) = ld64 mm (sc + o)) /\ ld64 mm2 cmp = v /\
  (forall r o, (r, o) ∈ timer_frame -> ld64 mm2 (sc + o) = f r) /\
  (forall x, x < sc \/ sc + 24 <= x -> x < cmp \/ cmp + 8 <= x -> ld8 mm2 x = ld8 mm x).
Proof.
  intros Hf Hv Hsep mm1 mm2.
  assert (Ho : outside sc 24 mm mm1).
  { apply save_mem_outside. eapply Forall_impl; [apply timer_frame_ok|]. by intros ? (? & ? & _). }
  split; [apply ld64_ext; intros i Hi; apply Ho; lia|]. split; [intros o H; apply ld64_ext; intros i Hi; apply Ho; lia|].
  split; [by apply ld64_st64_same|]. split.
  - intros r o Hin. destruct (proj1 (Forall_forall _ _) (proj1 timer_frame_ok) _ Hin) as (H1 & H2 & _). cbn in H1, H2.
    unfold mm2. rewrite ld64_st64_out by lia. by apply (save_mem_at sc 24); [apply timer_frame_ok|..].
  - intros x H1 H2. unfold mm2. rewrite ld8_st64_out by lia. by apply Ho.
Qed.

Lemma timervec_runs cva m sc cmp : mode m = M_mode -> mscratch (csrs m) = sc -> ld64 (mmem m) (sc + 32) = cmp ->
  0 <= sc -> sc + 48 <= 2 ^ 64 -> 0 <= cmp -> cmp + 8 <= 2 ^ 64 -> cmp + 8 <= sc \/ sc + 48 <= cmp ->
  (forall r, 0 <= rget m r < 2 ^ 64) ->
  exists m', run (fetch_at cva cva) timervec_code m = Goto m' (mepc (csrs m)) /\ ticked m m' sc cmp.
Proof.
  intros Hm Hsc Hcmp Hs1 Hs2 Hc1 Hc2 Hsep Hr. rewrite timervec_code_eq.
  set (m1 := rset R_a0 sc (set_csrs (set_mscratch (rget m R_a0) (csrs m)) m)).
  assert (Hr1 : forall r, 0 <= rget m1 r < 2 ^ 64).
  { intros r. specialize (Hr r). revert Hr. unfold m1, rget, rset. fields. intros Hr. repeat case_decide; lia. }
  set (v := u64 (ld64 (mmem m) cmp + ld64 (mmem m) (sc + 40))).
  destruct (timer_mem (rget m1) (mmem m) sc cmp v Hr1 (u64_range _) Hsep) as (Ecmp & Ekeep & Ev & Eframe & Eout).
  rewrite (run_machine cva _ _ m m1); [|done|cbn [exec cget cset]; by rewrite Hsc].
  rewrite (run_saves cva cva R_a0 sc 48); [|by apply steady_machine|repeat (apply Forall_cons_2; [cbn; lia|]); apply Forall_nil_2].
  change (save_mem _ _ _ _) with (save_mem sc (rget m1) timer_frame (mmem m)).
  set (mm := save_mem _ _ _ _) in *. set (mm2 := st64 mm cmp v) in *.
  rewrite (run_loads cva cva R_a0 sc 48); [|by apply steady_machine|
    repeat (apply Forall_cons_2; [cbn; split_and!; (lia || done)|]); apply Forall_nil_2].
  change (mmem (set_mmem mm m1)) with mm. set (m3 := set_regs _ _). cbn [app].
  assert (E1 : rget m3 R_a1 = cmp) by (rewrite <- Hcmp; apply Ekeep; lia).
  assert (E2 : rget m3 R_a2 = ld64 (mmem m) (sc + 40)) by (apply Ekeep; lia).
  rewrite (run_machine cva _ _ m3 (rset R_a3 (ld64 (mmem m) cmp) m3));
    [|done|cbn [exec]; rewrite xlate_machine, E1, Z.add_0_r, u64_id by (done || lia); change (mmem m3) with mm; by rewrite Ecmp].
  set (m4 := rset R_a3 _ m3).
  rewrite (run_machine cva _ _ m4 (rset R_a3 v m4)); [|done|cbn [exec]; do 3 f_equal; change (rget m4 R_a2) with (rget m3 R_a2); by rewrite E2].
  set (m5 := rset R_a3 v m4).
  rewrite (run_machine cva _ _ m5 (set_mmem mm2 m5));
    [|done|cbn [exec]; change (rget m5 R_a1) with (rget m3 R_a1); rewrite xlate_machine, E1, Z.add_0_r, u64_id by (done || lia); reflexivity].
  set (m6 := set_mmem mm2 m5). cbn [app].
  erewrite (run_machine cva _ _ m6); [|done|reflexivity]. erewrite (run_machine cva); [|done|reflexivity].
  set (m7 := set_csrs _ _).
  change (loads R_a0 _ ++ _) with (loads R_a0 [(R_a3, 16); (R_a2, 8); (R_a1, 0)] ++ [Csrrw R_a0 C_mscratch R_a0; Mret]).
  rewrite (run_loads cva cva R_a0 sc 48); [|by apply steady_machine|
    repeat (apply Forall_cons_2; [cbn; split_and!; (lia || done)|]); apply Forall_nil_2].
  erewrite (run_machine cva); [|done|reflexivity]. cbn [run].
  set (m8 := rset _ _ _). assert (Hf : fetch_at cva cva m8 = true) by (by apply bool_decide_eq_true, xlate_machine).
  rewrite Hf. cbn [exec]. eexists. split; [reflexivity|]. split.
  - intros r. destruct (decide (r = R_zero)) as [->|Hz]; [done|].
    assert (Ea : forall r o, (r, o) ∈ timer_frame -> ld64 mm2 (sc + o) = rget m r) .
    { intros q o Hin. rewrite (Eframe q o Hin). unfold m1, rget, rset. fields.
      repeat (apply elem_of_cons in Hin as [[= -> ->]|Hin]; [done|]). by apply not_elem_of_nil in Hin. }
    destruct r; try done; first [apply (Ea R_a1 0) | apply (Ea R_a2 8) | apply (Ea R_a3 16)]; unfold timer_frame; set_solver.
  - exact Ev.
  - exact Eout.
  - fields. change (csrs m8) with (set_mscratch sc (set_sip (Z.lor (Z.land (sip (csrs m)) (Z.lnot 2)) 2)
      (set_mscratch (rget m R_a0) (csrs m)))). rewrite <- Hsc. fields. by destruct (csrs m).
  - reflexivity.
Qed.

(** C20: The timer.  [timerinit] programs the CLINT of the hart and fills in the scratch
    area that [timervec] works from.  Whenever the timer interrupts, in whatever code,
    as long as that area is intact, [timervec] moves the time of the next interrupt one
    interval on, raises a supervisor software interrupt, changes no other memory than
    its save area, and returns to the interrupted code with every register as it was
    and its scratch pointer in place for the next time. *)
Theorem timer_ticks `{Board} (s : kstate) (id cva : Z) :
  mhartid (hart s) = id -> 0 <= id < NCPU ->
  CLINT + 0x10000 <= mscratch0 -> mscratch0 + 8 * (32 * NCPU) <= 2 ^ 64 ->
  let sc := mscratch0 + 8 * (32 * id) in let cmp := CLINT_MTIMECMP id in
  exists s', timerinit s = Ok tt s' /\
    ld64 (mem s') cmp = u64 (clint_mtime s + 1000000) /\ mtvec (hart s') = u64 timervec /\
    Z.testbit (mstatus (hart s')) 3 = true /\ Z.testbit (mie (hart s')) 7 = true /\
    forall m, mode m = M_mode -> mscratch (csrs m) = mscratch (hart s') -> (forall r, 0 <= rget m r < 2 ^ 64) ->
      (forall x, sc + 32 <= x < sc + 48 -> ld8 (mmem m) x = ld8 (mem s') x) ->
      exists m', run (fetch_at cva cva) timervec_code m = Goto m' (mepc (csrs m)) /\
        (forall r, rget m' r = rget m r) /\ ld64 (mmem m') cmp = u64 (ld64 (mmem m) cmp + 1000000) /\
        (forall x, x < sc \/ sc + 24 <= x -> x < cmp \/ cmp + 8 <= x -> ld8 (mmem m') x = ld8 (mmem m) x) /\
        Z.testbit (sip (csrs m')) 1 = true /\ mscratch (csrs m') = mscratch (csrs m) /\
        mode m' = mret_mode (mstatus (csrs m)).
Proof.
  intros Hid Hr Hc0 Hc1 sc cmp.
  set (mm := st64 (st64 (st64 (mem s) cmp (u64 (clint_mtime s + 1000000))) (sc + 8 * 4) cmp) (sc + 8 * 5) 1000000).
  assert (Ei : i32 id = id) by (apply i32_id; unfold NCPU in Hr; lia).
  assert (Hcm : 0 <= cmp /\ cmp + 8 <= sc) by (unfold cmp, sc, CLINT_MTIMECMP, CLINT, NCPU in *; lia).
  assert (Hsc : 0 <= sc /\ sc + 48 <= 2 ^ 64) by (unfold sc, CLINT, NCPU in *; lia).
  destruct (wp_run_unit timerinit (fun t => mem t = mm /\ mscratch (hart t) = sc /\ mtvec (hart t) = u64 timervec /\
      Z.testbit (mstatus (hart t)) 3 = true /\ Z.testbit (mie (hart t)) 7 = true) s) as (t & Ht & Em & Esc & Etv & Es & Ee).
  { unfold timerinit, r_mhartid, stm64, modify_mem, w_mscratch, w_mtvec, r_mstatus, w_mstatus, r_mie, w_mie.
    wsteps. fields. rewrite Hid, Ei. split; [reflexivity|]. split; [apply u64_id; fold sc; lia|]. split; [done|].
    unfold u64. rewrite !Z.mod_pow2_bits_low, !Z.lor_spec by lia. split; apply orb_true_r. }
  exists t. rewrite Em, Esc. split; [exact Ht|].
  assert (E32 : ld64 mm (sc + 32) = cmp) by (unfold mm; rewrite ld64_st64_out, ld64_st64_same by lia; done).
  assert (E40 : ld64 mm (sc + 40) = 1000000) by (unfold mm; rewrite ld64_st64_same by lia; done).
  split; [unfold mm; rewrite !ld64_st64_out, ld64_st64_same by (apply u64_range || lia); done|].
  split; [exact Etv|]. split; [exact Es|]. split; [exact Ee|]. intros m Hm Hms Hrr Hkeep.
  assert (Hw : forall o, 32 <= o -> o + 8 <= 48 -> ld64 (mmem m) (sc + o) = ld64 mm (sc + o)).
  { intros o H4 H5. apply ld64_ext. intros i Hi. apply Hkeep. lia. }
  destruct (timervec_runs cva m sc cmp) as (m' & Hrun & [Hreg Hcmp Hmem Hcsr Hmode]);
    [done|done|rewrite Hw by lia; exact E32|lia..|exact Hrr|].
  exists m'. split; [exact Hrun|]. split; [exact Hreg|]. split; [rewrite Hcmp, Hw, E40 by lia; done|]. split; [exact Hmem|].
  rewrite Hcsr. split; [fields; rewrite Z.lor_spec; apply orb_true_r|]. split; [done|exact Hmode].
Qed.

Lemma timer_ticks_witness : exists s' m',
  timerinit (H3 := ex_board) zero_kstate = Ok tt s' /\
  run (fetch_at 0x80006000 0x80006000) timervec_code (mk_mach (fun r => if decide (r = R_a2) then 9 else 0) (hart s') (mem s') M_mode)
    = Goto m' (mepc (hart s')) /\
  rget m' R_a2 = 9 /\ ld64 (mmem m') (CLINT_MTIMECMP 0) = 2000000.
Proof.
  destruct (timer_ticks (H := ex_board) zero_kstate 0 0x80006000)
    as (s' & Hs & Hc & _ & _ & _ & Hm);
    [reflexivity|unfold NCPU; lia|vm_compute; congruence|vm_compute; congruence|].
  destruct (Hm (mk_mach (fun r => if decide (r = R_a2) then 9 else 0) (hart s') (mem s') M_mode)) as (m' & Hr & Hreg & Hcmp & _);
    [reflexivity|reflexivity|intros r; unfold rget; cbn [regs]; repeat case_decide; lia|reflexivity|].
  exists s', m'. split; [exact Hs|].
  split; [exact Hr|]. split; [by rewrite Hreg|].
  rewrite Hcmp. cbn [mmem]. rewrite Hc. reflexivity.
Defined.

(** *** [_entry] *)

Lemma entry_runs cva stack0 start ret m : mode m = M_mode -> 0 <= mhartid (csrs m) < NCPU ->
  0 <= stack0 -> stack0 + 4096 * NCPU < 2 ^ 64 ->
  exists m', run (fetch_at cva cva) (entry_code stack0 start ret) m = Called m' start [] /\
    rget m' R_sp = stack0 + 4096 * (mhartid (csrs m) + 1) /\ rget m' R_ra = ret /\ mmem m' = mmem m.
Proof.
  intros Hm Hh H0 H1. unfold NCPU in *. unfold entry_code.
  do 6 (erewrite (run_machine cva); [|done|reflexivity]).
  cbn [run]. match goal with |- context [fetch_at cva cva ?x] => set (m' := x) end.
  assert (Hf : fetch_at cva cva m' = true) by (by apply bool_decide_eq_true, xlate_machine).
  rewrite Hf. cbn [exec]. eexists. split; [reflexivity|]. split; [|done].
  change (u64 (stack0 + u64 (4096 * u64 (mhartid (csrs m) + 1))) = stack0 + 4096 * (mhartid (csrs m) + 1)).
  rewrite (u64_id (mhartid _ + 1)), (u64_id (4096 * _)), u64_id by lia. lia.
Qed.

(** Every hart boots on a stack of its own: [_entry] calls [start] with the stack
    pointer at the end of the hart's 4096 bytes of [stack0], and the stacks of two
    harts have no byte in common. *)
Theorem entry_stacks (cva stack0 start ret : Z) (m1 m2 : mach) :
  mode m1 = M_mode -> mode m2 = M_mode -> 0 <= mhartid (csrs m1) < NCPU -> 0 <= mhartid (csrs m2) < NCPU ->
  0 <= stack0 -> stack0 + 4096 * NCPU < 2 ^ 64 ->
  exists m1' m2', run (fetch_at cva cva) (entry_code stack0 start ret) m1 = Called m1' start [] /\
    run (fetch_at cva cva) (entry_code stack0 start ret) m2 = Called m2' start [] /\
    rget m1' R_sp = stack0 + 4096 * (mhartid (csrs m1) + 1) /\
    stack0 <= rget m1' R_sp - 4096 /\ rget m1' R_sp <= stack0 + 4096 * NCPU /\
    (mhartid (csrs m1) <> mhartid (csrs m2) ->
     rget m1' R_sp <= rget m2' R_sp - 4096 \/ rget m2' R_sp <= rget m1' R_sp - 4096).
Proof.
  intros Hm1 Hm2 Hh1 Hh2 H0 H1.
  destruct (entry_runs cva stack0 start ret m1 Hm1 Hh1 H0 H1) as (m1' & Hr1 & Hs1 & _).
  destruct (entry_runs cva stack0 start ret m2 Hm2 Hh2 H0 H1) as (m2' & Hr2 & Hs2 & _).
  exists m1', m2'. rewrite Hr1, Hr2, Hs1, Hs2. repeat split; lia.
Qed.

Definition boot_mach (id : Z) : mach :=
  mk_mach (fun _ => 0) (mk_hart id 0 0 0 0 0 0 0 0 0 0 0 0 0 0 0 0 0 0 0) ∅ M_mode.

Lemma entry_stacks_witness : exists m1 m2,
  run (fetch_at 0x80000000 0x80000000) (entry_code 0x80009000 0x80000100 0x8000001c) (boot_mach 0) = Called m1 0x80000100 [] /\
  run (fetch_at 0x80000000 0x80000000) (entry_code 0x80009000 0x80000100 0x8000001c) (boot_mach 3) = Called m2 0x80000100 [] /\
  rget m1 R_sp = 0x8000a000 /\ (rget m1 R_sp <= rget m2 R_sp - 4096 \/ rget m2 R_sp <= rget m1 R_sp - 4096).
Proof.
  destruct (entry_stacks 0x80000000 0x80009000 0x80000100 0x8000001c (boot_mach 0) (boot_mach 3))
    as (m1 & m2 & H1 & H2 & Hs & _ & _ & Hd);
    [reflexivity|reflexivity|unfold NCPU; cbn; lia|unfold NCPU; cbn; lia|lia|unfold NCPU; lia|].
  exists m1, m2. split; [exact H1|]. split; [exact H2|]. split; [rewrite Hs; reflexivity|]. apply Hd. discriminate.
Defined.

(** ** The first user program

    [initcode] of proc.c is machine code; these are the encodings it uses. *)

Definition reg_of (n : Z) : option reg := [
  R_zero; R_ra; R_sp; R_gp; R_tp; R_t0; R_t1; R_t2; R_s0; R_s1; R_a0; R_a1; R_a2; R_a3; R_a4; R_a5; R_a6; R_a7;
  R_s2; R_s3; R_s4; R_s5; R_s6; R_s7; R_s8; R_s9; R_s10; R_s11; R_t3; R_t4; R_t5; R_t6 ] !! Z.to_nat n.

(** [n] bits at [i]. *)
Definition bits (w i n : Z) : Z := Z.land (Z.shiftr w i) (Z.ones n).
(** Sign extension of an [n]-bit field. *)
Definition sext (v n : Z) : Z := if Z.testbit v (n - 1) then v - 2 ^ n else v.

Definition decode (pc w : Z) : option instr :=
  let op := bits w 0 7 in
  reg_of (bits w 7 5) ≫= fun rd =>
  if op =? 0x17 then Some (La rd (u64 (pc + sext (Z.shiftl (bits w 12 20) 12) 32)))          (* auipc *)
  else if (op =? 0x13) && (bits w 12 3 =? 0) then
    reg_of (bits w 15 5) ≫= fun rs => Some (Addi rd rs (sext (bits w 20 12) 12))
  else if op =? 0x6f then
    let off := Z.lor (Z.lor (Z.shiftl (bits w 31 1) 20) (Z.shiftl (bits w 12 8) 12))
                     (Z.lor (Z.shiftl (bits w 20 1) 11) (Z.shiftl (bits w 21 10) 1)) in
    if bool_decide (rd = R_ra) then Some (Jal (u64 (pc + sext off 21)) (pc + 4)) else None
  else if w =? 0x73 then Some Ecall
  else None.

Fixpoint disasm (pc : Z) (l : list Z) : option (list instr) :=
  match l with
  | b0 :: b1 :: b2 :: b3 :: l =>
    decode pc (le_decode [b0; b1; b2; b3]) ≫= fun i => disasm (pc + 4) l ≫= fun l => Some (i :: l)
  | [] => Some []
  | _ => None
  end.

(** The page that [uvminit] makes of [initcode]. *)
Definition first_page (img : memory) : Prop :=
  (forall i b, initcode !! i = Some b -> ld8 img (Z.of_nat i) = b) /\
  forall x, Z.of_nat (length initcode) <= x < PGSIZE -> ld8 img x = 0.

Definition initcode_instrs : list instr := [
  La R_a0 0; Addi R_a0 R_a0 0x24; La R_a1 8; Addi R_a1 R_a1 0x23; Addi R_a7 R_zero 7; Ecall;
  Addi R_a7 R_zero 2; Ecall; Jal 0x18 0x24 ].

Lemma initcode_disasm : disasm 0 (take 36 initcode) = Some initcode_instrs.
Proof. vm_compute. reflexivity. Qed.

Lemma first_page_at img i : first_page img -> 0 <= i < PGSIZE -> ld8 img i = default 0 (initcode !! Z.to_nat i).
Proof.
  intros [H1 H2] Hi. destruct (initcode !! Z.to_nat i) as [b|] eqn:E; cbn [default].
  - pose proof (H1 _ _ E) as Hb. rewrite Z2Nat.id in Hb by lia. exact Hb.
  - apply H2. apply lookup_ge_None in E. lia.
Qed.

Definition page0 : memory := stbytes ∅ 0 initcode.

Lemma first_page0 : first_page page0.
Proof.
  split.
  - intros i b E. unfold page0. apply (ld8_stbytes_in _ _ _ (Z.of_nat i)); [lia|]. by rewrite Z.sub_0_r, Nat2Z.id.
  - intros x Hx. unfold page0. rewrite ld8_stbytes_out by lia. done.
Qed.

Lemma first_page_same img x : first_page img -> 0 <= x < PGSIZE -> ld8 img x = ld8 page0 x.
Proof. intros Hp Hx. by rewrite (first_page_at img), (first_page_at page0 x first_page0). Qed.

Lemma cstr_same m m' a n : (forall x, a <= x < a + Z.of_nat n -> ld8 m x = ld8 m' x) -> cstr m a n = cstr m' a n.
Proof.
  revert a. induction n as [|n IH]; intros a Hx; cbn [cstr]; [done|].
  rewrite (IH (a + 1)), (Hx a) by (lia || intros; apply Hx; lia). done.
Qed.

(** C36: The first process's code, the byte array [initcode] of proc.c, does what
    initcode.S says: the bytes decode to instructions that reach the system call [exec]
    with the path "/init" and the argument vector of that path and a null pointer, as
    the page that [uvminit] loads has them, and with every register as initcode.S's own
    instructions leave it; when [exec] returns, they call [exit], for ever.  In the
    array the argument vector follows the string directly, at an odd address; the
    source asks for an address that is a multiple of four. *)
Theorem initcode_execs (img : memory) (m : mach) : first_page img ->
  exists code rest m' m'' rest', disasm 0 (take 36 initcode) = Some code /\
    run (fun _ => true) code m = Env m' rest /\
    run (fun _ => true) (initcode_code 0x24 0x2b 0x18 0x24) m = Env m'' rest' /\
    (forall r, rget m' r = rget m'' r) /\ rget m' R_a7 = 7 /\
    cstr img (rget m' R_a0) 16 = Some (str_bytes "/init") /\
    ld64 img (rget m' R_a1) = rget m' R_a0 /\ ld64 img (rget m' R_a1 + 8) = 0 /\ rget m' R_a1 mod 4 = 3 /\
    disasm 0x18 (drop 24 (take 36 initcode)) = Some rest /\
    forall k, exists k' rest2, run (fun _ => true) rest k = Env k' rest2 /\ rget k' R_a7 = 2 /\
      forall j, exists j', run (fun _ => true) rest2 j = Goto j' 0x18.
Proof.
  intros Hp. exists initcode_instrs. do 4 eexists. split; [exact initcode_disasm|].
  split; [reflexivity|]. split; [reflexivity|]. split; [intros r; by destruct r|]. split; [reflexivity|].
  split; [|split; [|split; [|split; [|split]]]].
  - change (rget _ R_a0) with 0x24. rewrite (cstr_same _ page0); [vm_compute; reflexivity|].
    intros x Hx. apply first_page_same; [done|]. revert Hx. consts. lia.
  - change (ld64 img 0x2b = 0x24). rewrite (ld64_ext _ page0 _ 0x2b); [vm_compute; reflexivity|].
    intros i Hi. apply first_page_same; [done|]. consts. lia.
  - change (ld64 img (0x2b + 8) = 0). rewrite (ld64_ext _ page0 _ (0x2b + 8)); [vm_compute; reflexivity|].
    intros i Hi. apply first_page_same; [done|]. consts. lia.
  - reflexivity.
  - vm_compute. reflexivity.
  - intros k. do 2 eexists. split; [reflexivity|]. split; [reflexivity|]. intros j. eexists. reflexivity.
Qed.

Lemma initcode_execs_witness : exists m', run (fun _ => true) initcode_instrs (boot_mach 0) = Env m' (drop 6 initcode_instrs) /\
  cstr page0 (rget m' R_a0) 16 = Some (str_bytes "/init").
Proof.
  destruct (initcode_execs page0 (boot_mach 0) first_page0) as (code & rest & m' & _ & _ & E & Hr & _ & _ & _ & Hc & _ & _ & _ & Er & _).
  rewrite initcode_disasm in E. injection E as <-. exists m'. split; [|exact Hc]. rewrite Hr. f_equal.
  vm_compute in Er. injection Er as <-. reflexivity.
Defined.
