(* ===== verification/Grep.v ===== *)
(** * user/grep.c

    The regular expression matcher and the line filter.  A C string is the list of
    its bytes before the NUL, so the end of a list is where the code sees NUL.  The
    matcher is compared with the language an expression denotes, the filter, which
    works on a buffer that is refilled by [read], with the filter of the lines of the
    whole input. *)

From stdpp Require Import list.
From Stdlib Require Import ZArith Lia.
From S2P Require Import Prelude.
Open Scope Z_scope.

Definition CARET : Z := 94.
Definition DOLLAR : Z := 36.
Definition DOT : Z := 46.
Definition STAR : Z := 42.
Definition NL : Z := 10.

(** ** The matcher *)

(** [matchstar(c, re, text)], where [here text] is [matchhere(re, text)]. *)
(* @user/grep.c matchstar *)
Fixpoint matchstar (here : list Z -> bool) (c : Z) (text : list Z) : bool :=
  if here text then true
  else
  match text with
  | [] => false
  | t :: text => if (t =? c) || (c =? DOT) then matchstar here c text else false
  end.

(* @user/grep.c matchhere *)
Fixpoint matchhere (re text : list Z) : bool :=
  match re with
  | [] => true
  | c :: re1 =>
    let otherwise :=
      if (c =? DOLLAR) && bool_decide (re1 = []) then bool_decide (text = [])
      else
      match text with
      | [] => false
      | t :: text => if (c =? DOT) || (c =? t) then matchhere re1 text else false
      end in
    match re1 with
    | [] => otherwise
    | s :: re2 => if s =? STAR then matchstar (matchhere re2) c text else otherwise
    end
  end.

(** The [do ... while] loop of [match]. *)
(* @user/grep.c match *)
Fixpoint match_anywhere (re text : list Z) : bool :=
  if matchhere re text then true
  else
  match text with
  | [] => false
  | _ :: text => match_anywhere re text
  end.

(* @user/grep.c match *)
Definition match_ (re text : list Z) : bool :=
  match re with
  | c :: re' => if c =? CARET then matchhere re' text else match_anywhere re text
  | [] => match_anywhere re text
  end.

(** ** The filter *)

(* @user/ulib.c strchr *)
Fixpoint strchr (s : list Z) (c : Z) : option nat :=
  match s with
  | [] => None
  | x :: s => if x =? 0 then None else if x =? c then Some 0%nat else S <$> strchr s c
  end.

(** The inner loop: what is written to descriptor 1, and the bytes from [p] on. *)
(* @user/grep.c grep *)
Fixpoint grep_lines (fuel : nat) (pattern p : list Z) : list Z * list Z :=
  match fuel with
  | O => ([], p)
  | S fuel =>
    match strchr p NL with
    | None => ([], p)
    | Some q =>
      let out := if match_ pattern (take q p) then take (S q) p else [] in
      let '(out', rest) := grep_lines fuel pattern (drop (S q) p) in
      (out ++ out', rest)
    end
  end.

(** [sizeof(buf)] *)
Definition BUFSIZE : nat := 1024.

(** [read(fd, _, n)]: a file gives the bytes it has left, up to [n]; how many of
    them is up to the file, [want] says how many it would like to give. *)
Definition read (want n : nat) (input : list Z) : list Z * list Z :=
  let k := Nat.min (Nat.min n (S want)) (length input) in
  (take k input, drop k input).

(** The outer loop; the first [m] bytes of [buf] are [b].  A line of [k] bytes takes
    at most [k] turns, so the length of the input bounds the number of turns. *)
(* @user/grep.c grep *)
Fixpoint grep_loop (fuel : nat) (want : nat -> nat) (pattern b input : list Z) : list Z :=
  match fuel with
  | O => []
  | S fuel =>
    let '(chunk, input) := read (want fuel) (BUFSIZE - length b - 1) input in
    if bool_decide (chunk = []) then []
    else
    let p := b ++ chunk in
    let '(out, rest) := grep_lines (S (length p)) pattern p in
    out ++ grep_loop fuel want pattern rest input
  end.

(* @user/grep.c grep *)
Definition grep (want : nat -> nat) (pattern input : list Z) : list Z :=
  grep_loop (S (length input)) want pattern [] input.

(** ** What an expression denotes *)

(** [.] or a character. *)
Inductive one := Any | Char (c : Z).
Inductive item := One (a : one) | Star (a : one) | Eol.

Definition one_of (c : Z) : one := if c =? DOT then Any else Char c.

Fixpoint items (re : list Z) : list item :=
  match re with
  | [] => []
  | c :: re1 =>
    let otherwise := (if (c =? DOLLAR) && bool_decide (re1 = []) then Eol else One (one_of c)) :: items re1 in
    match re1 with
    | [] => otherwise
    | s :: re2 => if s =? STAR then Star (one_of c) :: items re2 else otherwise
    end
  end.

Definition fits (a : one) (t : Z) : Prop :=
  match a with Any => True | Char c => t = c end.

(** [matches l u v]: the items match the word [u] when [v] follows it. *)
Inductive matches : list item -> list Z -> list Z -> Prop :=
| matches_nil v : matches [] [] v
| matches_one a l t u v : fits a t -> matches l u v -> matches (One a :: l) (t :: u) v
| matches_star a l w u v : Forall (fits a) w -> matches l u v -> matches (Star a :: l) (w ++ u) v
| matches_eol : matches [Eol] [] [].

(** The expression matches at the beginning of the text. *)
Definition matches_at (l : list item) (text : list Z) : Prop :=
  exists u v, text = u ++ v /\ matches l u v.

Lemma fits_one_of c t : fits (one_of c) t <-> (t =? c) || (c =? DOT) = true.
Proof.
  unfold one_of. rewrite orb_true_iff, !Z.eqb_eq.
  destruct (Z.eqb_spec c DOT); simpl; intuition.
Qed.

(** What [c*] followed by [l] matches, by the first character. *)
Lemma star_at a l text :
  matches_at (Star a :: l) text <->
  matches_at l text \/ exists t text', text = t :: text' /\ fits a t /\ matches_at (Star a :: l) text'.
Proof.
  split.
  - intros (u & v & -> & Hm). inversion Hm as [| |? ? w u' ? Hw Hm'|]; subst.
    destruct Hw as [|t w Ht Hw]; [left; by exists u', v|]. right.
    exists t, ((w ++ u') ++ v). split; [done|]. split; [done|]. exists (w ++ u'), v. split; [done|]. by constructor.
  - intros [(u & v & -> & Hm)|(t & text' & -> & Ht & u & v & -> & Hm)].
    + exists u, v. split; [done|]. by apply (matches_star a l [] u v).
    + inversion Hm as [| |? ? w u' ? Hw Hm'|]; subst. exists (t :: w ++ u'), v. split; [done|].
      apply (matches_star a l (t :: w)); [by constructor|done].
Qed.

Lemma matchstar_spec here c l text :
  (forall t, here t = true <-> matches_at l t) ->
  matchstar here c text = true <-> matches_at (Star (one_of c) :: l) text.
Proof.
  intros Hh. induction text as [|t text IH]; cbn [matchstar]; rewrite star_at, <- Hh.
  - destruct (here []); [naive_solver|]. naive_solver.
  - destruct (here (t :: text)) eqn:E; [naive_solver|]. pose proof (fits_one_of c t) as Hf.
    destruct ((t =? c) || (c =? DOT)); rewrite ?IH; naive_solver.
Qed.

Lemma one_at a l text :
  matches_at (One a :: l) text <-> exists t text', text = t :: text' /\ fits a t /\ matches_at l text'.
Proof.
  split.
  - intros (u & v & -> & Hm). inversion Hm; subst. eexists _, _. split; [done|]. split; [done|]. by eexists _, _.
  - intros (t & text' & -> & Ht & u & v & -> & Hm). exists (t :: u), v. split; [done|]. by constructor.
Qed.

Lemma eol_at text : matches_at [Eol] text <-> text = [].
Proof.
  split.
  - intros (u & v & -> & Hm). by inversion Hm.
  - intros ->. exists [], []. split; [done|]. constructor.
Qed.

(** What the code does after the test for [*]. *)
Lemma otherwise_spec c re1 text :
  (forall text, matchhere re1 text = true <-> matches_at (items re1) text) ->
  (if (c =? DOLLAR) && bool_decide (re1 = []) then bool_decide (text = [])
   else match text with
        | [] => false
        | t :: text => if (c =? DOT) || (c =? t) then matchhere re1 text else false
        end) = true <->
  matches_at ((if (c =? DOLLAR) && bool_decide (re1 = []) then Eol else One (one_of c)) :: items re1) text.
Proof.
  intros IH. destruct ((c =? DOLLAR) && bool_decide (re1 = [])) eqn:E.
  - apply andb_prop in E as [_ ->%bool_decide_eq_true]. rewrite eol_at. apply bool_decide_eq_true.
  - rewrite one_at. destruct text as [|t text]; [naive_solver|].
    assert (Hf : fits (one_of c) t <-> (c =? DOT) || (c =? t) = true)
      by (by rewrite fits_one_of, orb_comm, (Z.eqb_sym t c)).
    destruct ((c =? DOT) || (c =? t)).
    + rewrite IH. split; [intros Hm; exists t, text; by rewrite Hf|]. intros (t' & text' & [= <- <-] & _ & Hm). done.
    + split; [done|]. intros (t' & text' & [= <- <-] & Ht & _). by apply Hf.
Qed.

Lemma matchhere_spec re text : matchhere re text = true <-> matches_at (items re) text.
Proof.
  remember (length re) as n eqn:Hn. revert re text Hn.
  induction n as [n IH] using lt_wf_ind. intros re text ->. destruct re as [|c re1].
  { split; [|done]. intros _. exists [], text. split; [done|constructor]. }
  assert (IH1 : forall text, matchhere re1 text = true <-> matches_at (items re1) text)
    by (intros; eapply (IH (length re1)); simpl; lia).
  destruct re1 as [|s re2]; [apply (otherwise_spec c [] text IH1)|].
  change (matchhere (c :: s :: re2) text) with
    (if s =? STAR then matchstar (matchhere re2) c text
     else if (c =? DOLLAR) && bool_decide (s :: re2 = []) then bool_decide (text = [])
     else match text with
          | [] => false
          | t :: text => if (c =? DOT) || (c =? t) then matchhere (s :: re2) text else false
          end).
  change (items (c :: s :: re2)) with
    (if s =? STAR then Star (one_of c) :: items re2
     else (if (c =? DOLLAR) && bool_decide (s :: re2 = []) then Eol else One (one_of c)) :: items (s :: re2)).
  destruct (s =? STAR).
  - apply matchstar_spec. intros t. eapply (IH (length re2)); simpl; lia.
  - apply otherwise_spec, IH1.
Qed.

Lemma match_anywhere_spec re text :
  match_anywhere re text = true <-> exists w t, text = w ++ t /\ matches_at (items re) t.
Proof.
  induction text as [|x text IH]; cbn [match_anywhere]; destruct (matchhere re _) eqn:E.
  - split; [|done]. intros _. exists [], []. split; [done|]. by apply matchhere_spec.
  - split; [done|]. intros (w & t & Hw & Hm). destruct w; [|done]. simpl in Hw. subst.
    apply matchhere_spec in Hm. congruence.
  - split; [|done]. intros _. exists [], (x :: text). split; [done|]. by apply matchhere_spec.
  - rewrite IH. split.
    + intros (w & t & -> & Hm). by exists (x :: w), t.
    + intros (w & t & Hw & Hm). destruct w as [|y w].
      * simpl in Hw. subst. apply matchhere_spec in Hm. congruence.
      * injection Hw as -> ->. by exists w, t.
Qed.

(** ** Lines *)

(** The complete lines of a text, and what follows the last newline. *)
Fixpoint split_lines (s : list Z) : list (list Z) * list Z :=
  match s with
  | [] => ([], [])
  | c :: s =>
    let '(ls, rest) := split_lines s in
    if c =? NL then ([] :: ls, rest)
    else match ls with [] => ([], c :: rest) | l :: ls => ((c :: l) :: ls, rest) end
  end.

(** The matching lines, each with its newline. *)
Definition select (pattern : list Z) (ls : list (list Z)) : list Z :=
  mjoin ((fun l => if match_ pattern l then l ++ [NL] else []) <$> ls).

Lemma select_app pattern l1 l2 : select pattern (l1 ++ l2) = select pattern l1 ++ select pattern l2.
Proof. unfold select. by rewrite fmap_app, join_app. Qed.

Lemma split_lines_none s : NL ∉ s -> split_lines s = ([], s).
Proof.
  induction s as [|c s IH]; intros Hs; [done|]. apply not_elem_of_cons in Hs as [Hc Hs].
  cbn [split_lines]. rewrite IH by done. by rewrite (proj2 (Z.eqb_neq _ _)) by congruence.
Qed.

Lemma split_lines_line l s : NL ∉ l ->
  split_lines (l ++ NL :: s) = (l :: fst (split_lines s), snd (split_lines s)).
Proof.
  induction l as [|c l IH]; intros Hl; cbn [app split_lines].
  - by destruct (split_lines s).
  - apply not_elem_of_cons in Hl as [Hc Hl]. rewrite IH by done.
    by rewrite (proj2 (Z.eqb_neq _ _)) by congruence.
Qed.

Lemma strchr_some s c q : strchr s c = Some q ->
  exists s1 s2, s = s1 ++ c :: s2 /\ length s1 = q /\ c ∉ s1.
Proof.
  revert q; induction s as [|x s IH]; intros q; cbn [strchr]; [done|].
  destruct (Z.eqb_spec x 0); [done|]. destruct (Z.eqb_spec x c) as [->|Hne].
  - intros [= <-]. exists [], s. split; [done|]. split; [done|apply not_elem_of_nil].
  - destruct (strchr s c) as [k|]; [|done]. intros [= <-]. destruct (IH k eq_refl) as (s1 & s2 & -> & <- & Hn).
    exists (x :: s1), s2. split; [done|]. split; [done|].
    apply not_elem_of_cons. split; [congruence|done].
Qed.

Lemma strchr_none s c : 0 ∉ s -> strchr s c = None -> c ∉ s.
Proof.
  induction s as [|x s IH]; intros H0 Hs; [apply not_elem_of_nil|]. apply not_elem_of_cons in H0 as [Hx H0].
  cbn [strchr] in Hs. rewrite (proj2 (Z.eqb_neq x 0)) in Hs by congruence.
  destruct (Z.eqb_spec x c); [done|]. apply not_elem_of_cons. split; [congruence|]. apply IH; [done|].
  by destruct (strchr s c).
Qed.

Lemma grep_lines_spec fuel pattern p : 0 ∉ p -> (length p < fuel)%nat ->
  grep_lines fuel pattern p = (select pattern (fst (split_lines p)), snd (split_lines p)).
Proof.
  revert p; induction fuel as [|fuel IH]; intros p H0 Hf; [lia|]. cbn [grep_lines].
  destruct (strchr p NL) as [q|] eqn:Eq.
  - destruct (strchr_some _ _ _ Eq) as (l & s & -> & <- & Hl). rewrite split_lines_line by done.
    apply not_elem_of_app in H0 as [_ H0]. apply not_elem_of_cons in H0 as [_ H0].
    rewrite length_app in Hf. simpl in Hf.
    replace (take (length l) (l ++ NL :: s)) with l by (by rewrite take_app_length).
    replace (drop (S (length l)) (l ++ NL :: s)) with s
      by (rewrite drop_app_ge by lia; by replace (S (length l) - length l)%nat with 1%nat by lia).
    replace (take (S (length l)) (l ++ NL :: s)) with (l ++ [NL])
      by (rewrite take_app_ge by lia; by replace (S (length l) - length l)%nat with 1%nat by lia).
    rewrite IH by (done || lia). cbn [fst snd]. unfold select at 2. rewrite fmap_cons. done.
  - rewrite split_lines_none by (by apply strchr_none). done.
Qed.

Lemma split_lines_app a b :
  split_lines (a ++ b) =
  (fst (split_lines a) ++ fst (split_lines (snd (split_lines a) ++ b)), snd (split_lines (snd (split_lines a) ++ b))).
Proof.
  induction a as [|c a IH]; [simpl; by destruct (split_lines b)|]. cbn [app split_lines]. rewrite IH.
  destruct (split_lines a) as [ls r]. cbn [fst snd]. destruct (Z.eqb_spec c NL) as [->|Hc]; [done|].
  destruct ls as [|l ls]; cbn [fst snd app split_lines]; [|done]. rewrite (proj2 (Z.eqb_neq _ _) Hc).
  by destruct (split_lines (r ++ b)) as [[|l ls] r'].
Qed.

Lemma split_lines_rest s : NL ∉ snd (split_lines s).
Proof.
  induction s as [|c s IH]; cbn [split_lines]; [apply not_elem_of_nil|]. destruct (split_lines s) as [ls r].
  destruct (Z.eqb_spec c NL); [done|]. destruct ls; cbn [snd] in *; [|done].
  apply not_elem_of_cons. split; [congruence|done].
Qed.

(** A line that starts with [b]. *)
Lemma split_lines_long b s l ls : NL ∉ b -> fst (split_lines (b ++ s)) = l :: ls -> (length b <= length l)%nat.
Proof.
  revert l ls; induction b as [|c b IH]; intros l ls Hb; [simpl; lia|]. apply not_elem_of_cons in Hb as [Hc Hb].
  cbn [app split_lines]. destruct (split_lines (b ++ s)) as [[|l' ls'] r]; rewrite (proj2 (Z.eqb_neq _ _)) by congruence;
    [done|]. cbn [fst]. intros [= <- <-]. simpl. pose proof (IH l' ls' Hb eq_refl). lia.
Qed.

Lemma split_lines_mem s : 0 ∉ s -> 0 ∉ snd (split_lines s).
Proof.
  induction s as [|c s IH]; cbn [split_lines]; [done|]. intros [Hc Hs]%not_elem_of_cons. specialize (IH Hs).
  destruct (split_lines s) as [ls r]. destruct (c =? NL); [done|]. destruct ls; [|done].
  apply not_elem_of_cons. split; [congruence|done].
Qed.

(** A line fits in the buffer with its newline and the NUL. *)
Definition short (l : list Z) : Prop := (length l < BUFSIZE - 1)%nat.

Lemma grep_loop_spec fuel want pattern b input :
  0 ∉ b ++ input -> NL ∉ b -> (length b < BUFSIZE)%nat ->
  Forall short (fst (split_lines (b ++ input))) -> (length input < fuel)%nat ->
  grep_loop fuel want pattern b input = select pattern (fst (split_lines (b ++ input))).
Proof.
  revert b input; induction fuel as [|fuel IH]; intros b input H0 Hb Hlen Hshort Hf; [lia|].
  cbn [grep_loop]. unfold read. set (k := Nat.min _ _).
  destruct (bool_decide_reflect (take k input = [])) as [Hk|Hk].
  - assert (Hz : k = 0%nat).
    { apply (f_equal length) in Hk. rewrite length_take in Hk. simpl in Hk. unfold k in *. lia. }
    destruct input as [|x input]; [by rewrite app_nil_r, split_lines_none|].
    assert (length b = BUFSIZE - 1)%nat by (unfold k in Hz; simpl in Hz; lia).
    destruct (fst (split_lines (b ++ x :: input))) as [|l ls] eqn:E; [done|]. exfalso.
    pose proof (split_lines_long _ _ _ _ Hb E). inversion Hshort as [|? ? Hl]. unfold short in Hl. lia.
  - set (p := b ++ take k input).
    assert (Ep : b ++ input = p ++ drop k input) by (unfold p; by rewrite <- app_assoc, take_drop).
    assert (Hp0 : 0 ∉ p) by (rewrite Ep in H0; by apply not_elem_of_app in H0 as [? _]).
    rewrite grep_lines_spec by (done || lia).
    rewrite Ep, split_lines_app in Hshort |- *. cbn [fst] in *. apply Forall_app in Hshort as [_ Hshort].
    rewrite select_app. f_equal. apply IH; try done.
    + rewrite Ep in H0. apply not_elem_of_app in H0 as [_ H0]. apply not_elem_of_app. split; [|done].
      by apply split_lines_mem.
    + apply split_lines_rest.
    + assert (Hlp : (length p < BUFSIZE)%nat).
      { unfold p, k. rewrite length_app, length_take. lia. }
      assert (Hr : forall s, (length (snd (split_lines s)) <= length s)%nat).
      { clear. induction s as [|c s IH]; [done|]. cbn [split_lines]. destruct (split_lines s) as [ls r].
        destruct (c =? NL); [simpl in *; lia|]. destruct ls; simpl in *; lia. }
      pose proof (Hr p). lia.
    + rewrite length_drop. assert (k <> 0)%nat by (intros Hz; apply Hk; by rewrite Hz). unfold k in *. lia.
Qed.

(** ** Properties *)

(** C33: the matcher decides the language of the expression: with a leading [^] it
    says whether the rest of the expression matches at the beginning of the text,
    otherwise whether the expression matches somewhere in it, where [.] is any
    character, [c*] any number of [c] (also none) and a final [$] the end of the
    text. *)
Theorem match_correct (re text : list Z) :
  match_ re text = true <->
  match re with
  | c :: re' =>
    if c =? CARET then matches_at (items re') text
    else exists w t, text = w ++ t /\ matches_at (items re) t
  | [] => exists w t, text = w ++ t /\ matches_at (items re) t
  end.
Proof.
  unfold match_. destruct re as [|c re']; [apply match_anywhere_spec|].
  destruct (c =? CARET); [apply matchhere_spec|apply match_anywhere_spec].
Qed.

Lemma grep_select (want : nat -> nat) (pattern input : list Z) :
  0 ∉ input -> Forall short (fst (split_lines input)) ->
  grep want pattern input = select pattern (fst (split_lines input)).
Proof.
  intros H0 Hs. unfold grep. rewrite grep_loop_spec; try done; [apply not_elem_of_nil|unfold BUFSIZE; simpl; lia|lia].
Qed.


