(* ===== verification/Ulib.v ===== *)
(** * user/ulib.c and user/printf.c

    The string routines of user programs as functions on the user's memory, with
    [fuel] a bound on the length of the strings (the routines do not return when a
    string does not end); the formatted output of [vprintf] as the bytes it writes. *)

From stdpp Require Import gmap strings list fin_maps.
From Stdlib Require Import ZArith Lia Ascii.
From S2P Require Import Prelude Machine Str State Console.
Open Scope Z_scope.

(** ** user/ulib.c *)

Module Ulib.

(** [None]: no NUL within [fuel] bytes. *)
(* @user/ulib.c strcpy *)
Fixpoint strcpy (fuel : nat) (m : memory) (s t : Z) : option memory :=
  match fuel with
  | O => None
  | S fuel =>
    let m := st8 m s (ld8 m t) in
    if ld8 m s =? 0 then Some m else strcpy fuel m (s + 1) (t + 1)
  end.

(* @user/ulib.c strcmp *)
Fixpoint strcmp (fuel : nat) (m : memory) (p q : Z) : option Z :=
  match fuel with
  | O => None
  | S fuel =>
    if negb (ld8 m p =? 0) && (ld8 m p =? ld8 m q) then strcmp fuel m (p + 1) (q + 1)
    else Some (u8 (ld8 m p) - u8 (ld8 m q))
  end.

(* @user/ulib.c strlen *)
Definition strlen (fuel : nat) (m : memory) (s : Z) : option Z :=
  (fun n => u32 n) <$> Str.strlen fuel m s.

(** The counter [i] is an [int] compared with the [uint] [n]. *)
(* @user/ulib.c memset *)
Definition memset (m : memory) (dst c n : Z) : memory :=
  fold_left (fun m i => st8 m (dst + i32 i) (u8 c)) (seqZ 0 (u32 n)) m.

(** [gets] from an input of which [read] delivers one byte at a time: the contents
    of [buf] before its NUL, and the input left. *)
(* @user/ulib.c gets *)
Fixpoint gets_loop (n : nat) (input : list Z) : list Z * list Z :=
  match n, input with
  | S n, c :: input =>
    if (c =? 10) || (c =? 13) then ([c], input)
    else let '(l, rest) := gets_loop n input in (c :: l, rest)
  | _, _ => ([], input)
  end.

(* @user/ulib.c gets *)
Definition gets (max : Z) (input : list Z) : list Z * list Z := gets_loop (Z.to_nat (max - 1)) input.

(** [n] is an [int] that wraps. *)
(* @user/ulib.c atoi *)
Fixpoint atoi_loop (n : Z) (s : list Z) : Z :=
  match s with
  | c :: s => if (48 <=? c) && (c <=? 57) then atoi_loop (i32 (n * 10 + c - 48)) s else n
  | [] => n
  end.

(* @user/ulib.c atoi *)
Definition atoi (s : list Z) : Z := atoi_loop 0 s.

(* @user/ulib.c memmove *)
Definition memmove (m : memory) (vdst vsrc n : Z) : memory :=
  if vdst <? vsrc then copy_up m vdst vsrc (Z.to_nat n)
  else copy_down m (vdst + n) (vsrc + n) (Z.to_nat n).

(* @user/ulib.c memcmp *)
Definition memcmp (m : memory) (s1 s2 n : Z) : Z := memcmp_loop m s1 s2 (Z.to_nat (u32 n)).

(* @user/ulib.c memcpy *)
Definition memcpy (m : memory) (dst src n : Z) : memory := memmove m dst src (i32 n).

End Ulib.

(** ** user/printf.c *)

Module Uprintf.

(* @user/printf.c:7-7 digits *)
Definition digits : list Z := str_bytes "0123456789ABCDEF".

(** The digits in [buf], the last one first. *)
(* @user/printf.c printint *)
Fixpoint digits_of (fuel : nat) (x base : Z) : list Z :=
  match fuel with
  | O => []
  | S fuel =>
    digits !!! Z.to_nat (x mod base) ::
    (if x / base =? 0 then [] else digits_of fuel (x / base) base)
  end.

(** What is written: [buf] from its end. *)
(* @user/printf.c printint *)
Definition printint (xx base : Z) (sgn : bool) : list Z :=
  let neg := sgn && (xx <? 0) in
  let x := if neg then u32 (- xx) else u32 xx in
  rev (digits_of 32 x base ++ (if neg then [45] else [])).

(* @user/printf.c printptr *)
Definition printptr (x : Z) : list Z :=
  [48; 120] ++ ((fun i => digits !!! Z.to_nat (Z.shiftr (u64 (Z.shiftl x (4 * Z.of_nat i))) 60)) <$> seq 0 16).

(** The conversion of a character after [%]; [None]: the arguments do not fit. *)
(* @user/printf.c vprintf *)
Definition convert (c : Z) (ap : list parg) : option (list Z * list parg) :=
  if c =? 100 then
    match ap with AInt x :: ap => Some (printint x 10 true, ap) | _ => None end
  else if c =? 108 then
    match ap with APtr x :: ap => Some (printint (i32 x) 10 false, ap) | _ => None end
  else if c =? 120 then
    match ap with AInt x :: ap => Some (printint x 16 false, ap) | _ => None end
  else if c =? 112 then
    match ap with APtr x :: ap => Some (printptr x, ap) | _ => None end
  else if c =? 115 then
    match ap with AStr s :: ap => Some (default (str_bytes "(null)") s, ap) | _ => None end
  else if c =? 99 then
    match ap with AInt x :: ap => Some ([u8 x], ap) | _ => None end
  else if c =? 37 then Some ([c], ap)
  else Some ([37; c], ap).

(** [state] is the variable of the loop: after a [%] or not. *)
(* @user/printf.c vprintf *)
Fixpoint vprintf_loop (state : bool) (fmt : list Z) (ap : list parg) : option (list Z) :=
  match fmt with
  | [] => Some []
  | c :: fmt =>
    if state then
      match convert c ap with
      | None => None
      | Some (out, ap) => app out <$> vprintf_loop false fmt ap
      end
    else if c =? 37 then vprintf_loop true fmt ap
    else app [c] <$> vprintf_loop false fmt ap
  end.

(* @user/printf.c vprintf *)
Definition vprintf (fmt : list Z) (ap : list parg) : option (list Z) := vprintf_loop false fmt ap.

(** The writes to [fd]. *)
(* @user/printf.c fprintf *)
Definition fprintf (fd : Z) (fmt : list Z) (ap : list parg) : option (Z * list Z) := pair fd <$> vprintf fmt ap.

(* @user/printf.c printf *)
Definition printf (fmt : list Z) (ap : list parg) : option (Z * list Z) := fprintf 1 fmt ap.

End Uprintf.

(** ** Numbers *)

Lemma digit_char d : 0 <= d < 10 -> Uprintf.digits !!! Z.to_nat d = 48 + d.
Proof.
  intros Hd. assert (d = 0 \/ d = 1 \/ d = 2 \/ d = 3 \/ d = 4 \/ d = 5 \/ d = 6 \/ d = 7 \/ d = 8 \/ d = 9) as H by lia.
  by repeat (destruct H as [->|H]; [reflexivity|]); subst.
Qed.

(** [atoi] of a decimal digit string that fits: Horner's rule without overflow. *)
Definition value (n : Z) (s : list Z) : Z := fold_left (fun n c => n * 10 + (c - 48)) s n.

Definition is_digit (c : Z) : Prop := 48 <= c <= 57.

Lemma value_app n s t : value n (s ++ t) = value (value n s) t.
Proof. apply fold_left_app. Qed.

Lemma value_ge n s : 0 <= n -> Forall is_digit s -> n <= value n s.
Proof.
  intros Hn Hs. revert n Hn; induction Hs as [|c s Hc _ IH]; intros n Hn; cbn; [lia|].
  unfold is_digit in Hc. specialize (IH (n * 10 + (c - 48)) ltac:(lia)). unfold value in IH. lia.
Qed.

Lemma atoi_loop_value n s rest : 0 <= n -> Forall is_digit s -> value n s < 2 ^ 31 ->
  (forall c, head rest = Some c -> ~ is_digit c) ->
  Ulib.atoi_loop n (s ++ rest) = value n s.
Proof.
  intros Hn Hs Hv Hr. revert n Hn Hv; induction Hs as [|c s Hc Hs IH]; intros n Hn Hv.
  - destruct rest as [|c rest]; [done|]. cbn. specialize (Hr c eq_refl). unfold is_digit in Hr.
    destruct (Z.leb_spec 48 c), (Z.leb_spec c 57); simpl; try done; lia.
  - cbn [app Ulib.atoi_loop]. unfold is_digit in Hc.
    rewrite (proj2 (Z.leb_le 48 c)), (proj2 (Z.leb_le c 57)) by lia. cbn [andb].
    pose proof (value_ge (n * 10 + (c - 48)) s ltac:(lia) Hs) as Hge.
    change (value n (c :: s)) with (value (n * 10 + (c - 48)) s) in *.
    replace (n * 10 + c - 48) with (n * 10 + (c - 48)) by lia. rewrite i32_id by lia. apply IH; lia.
Qed.

Lemma digits_of_spec fuel x : 0 <= x < 10 ^ Z.of_nat fuel -> (0 < fuel)%nat ->
  let s := rev (Uprintf.digits_of fuel x 10) in
  Forall is_digit s /\ value 0 s = x /\ s <> [] /\ (head s = Some 48 -> x = 0).
Proof.
  revert x; induction fuel as [|fuel IH]; intros x Hx Hf; [lia|]. cbn [Uprintf.digits_of rev].
  pose proof (Z.mod_pos_bound x 10 ltac:(lia)). rewrite digit_char by lia.
  assert (Hd : is_digit (48 + x mod 10)) by (unfold is_digit; lia).
  destruct (Z.eqb_spec (x / 10) 0) as [Hz|Hz].
  - cbn. split; [by apply Forall_singleton|]. split; [zdm|]. split; [done|]. intros [= E]. zdm.
  - rewrite Nat2Z.inj_succ, Z.pow_succ_r in Hx by lia.
    destruct fuel as [|fuel]; [exfalso; simpl in Hx; zdm|].
    destruct (IH (x / 10)) as (Hs & Hv & Hne & Hh); [|lia|].
    { split; [zdm|]. apply Z.div_lt_upper_bound; lia. }
    split; [apply Forall_app; split; [done|by apply Forall_singleton]|].
    split; [rewrite value_app, Hv; cbn; zdm|]. split; [by destruct (rev _)|].
    destruct (rev (Uprintf.digits_of (S fuel) (x / 10) 10)); [done|]. simpl. intros E. apply Hh in E. lia.
Qed.

(** ** Properties *)

(** what [printf] prints for [%d], [atoi] reads back: for every non-negative
    [int] the digits printed, whatever follows them that is not a digit, are read as
    the number; the sign, the digits of the magnitude and the absence of leading
    zeros are right for every [int], the smallest one included. *)
Theorem printint_atoi (xx : Z) (rest : list Z) :
  - 2 ^ 31 <= xx < 2 ^ 31 -> (forall c, head rest = Some c -> ~ is_digit c) ->
  exists ds, Uprintf.printint xx 10 true = (if xx <? 0 then [45] else []) ++ ds /\
    Forall is_digit ds /\ value 0 ds = Z.abs xx /\ (head ds = Some 48 -> xx = 0) /\
    (0 <= xx -> Ulib.atoi (Uprintf.printint xx 10 true ++ rest) = xx).
Proof.
  intros Hx Hr. unfold Uprintf.printint. cbn [andb].
  assert (Ea : (if xx <? 0 then u32 (- xx) else u32 xx) = Z.abs xx).
  { unfold u32. destruct (Z.ltb_spec xx 0); rewrite Z.mod_small by lia; lia. }
  rewrite Ea. destruct (digits_of_spec 32 (Z.abs xx)) as (Hs & Hv & Hne & Hh); [lia|lia|].
  exists (rev (Uprintf.digits_of 32 (Z.abs xx) 10)). rewrite rev_app_distr.
  split; [by destruct (xx <? 0)|]. split; [done|]. split; [done|]. split; [intros E; apply Hh in E; lia|].
  intros Hpos. rewrite (proj2 (Z.ltb_ge xx 0)) by lia. cbn [rev app].
  unfold Ulib.atoi. rewrite atoi_loop_value; [lia|lia|done|lia|done].
Qed.

Lemma printint_atoi_witness :
  - 2 ^ 31 <= 2147483647 < 2 ^ 31 /\
  Ulib.atoi (Uprintf.printint 2147483647 10 true ++ [10]) = 2147483647.
Proof.
  split; [lia|]. destruct (printint_atoi 2147483647 [10]) as (ds & _ & _ & _ & _ & Ha).
  - lia.
  - intros c [= <-]. unfold is_digit. lia.
  - apply Ha. lia.
Defined.

(** The two [memmove]s of the system store the same bytes. *)
Lemma copy_down_same m d n x : ld8 (copy_down m d d n) x = ld8 m x.
Proof.
  revert m d; induction n as [|n IH]; intros m d; [done|]. cbn [copy_down]. rewrite IH, ld8_st8.
  by destruct (Z.eqb_spec (d - 1) x) as [->|].
Qed.

Lemma memmove_same m dst src n x : 0 <= n < 2 ^ 31 ->
  ld8 (Ulib.memmove m dst src n) x = ld8 (memmove m dst src n) x.
Proof.
  intros Hn. rewrite ld8_memmove by lia. unfold Ulib.memmove.
  destruct (Z.ltb_spec dst src).
  - rewrite ld8_copy_up by lia. by rewrite Z2Nat.id by lia.
  - destruct (decide (src = dst)) as [->|Hne].
    + rewrite copy_down_same. destruct (_ && _); [|done]. f_equal. lia.
    + rewrite ld8_copy_down by lia. rewrite Z2Nat.id by lia. rewrite Z.add_simpl_r.
      destruct (_ && _); [|done]. f_equal. lia.
Qed.
