(* ===== verification/Shell.v ===== *)
(** * user/sh.c: the command parser

    The pointer into the input line is the list of the bytes from it to [es], a word
    the bytes between [q] and [eq] (what the string is once [nulterminate] has put a
    NUL at [eq]).  The functions that call each other take a bound on the depth of
    the calls; the theorems show that the bound [parsecmd] starts with is never
    reached, and that the parser inverts a printer of commands. *)

From stdpp Require Import list strings sets.
From Stdlib Require Import ZArith Lia.
From S2P Require Import Prelude.
Open Scope Z_scope.

(* @user/sh.c MAXARGS *)
Definition MAXARGS : Z := 10.

(** [mode] and [fd] of a redirection. *)
Inductive redir := R_in | R_out | R_app.

(** [< f] opens read-only on descriptor 0, [> f] and [>> f] for writing on 1. *)
(* @user/sh.c parseredirs *)
Definition redir_mode (r : redir) : Z * Z :=
  match r with
  | R_in => (0, 0)
  | R_out => (Z.lor (Z.lor 1 0x200) 0x400, 1)
  | R_app => (Z.lor 1 0x200, 1)
  end.

(* @user/sh.c:18-49 cmd *)
Inductive cmd :=
| EXEC (argv : list (list Z))
| REDIR (c : cmd) (file : list Z) (mode fd : Z)
| PIPE (left right : cmd)
| LIST (left right : cmd)
| BACK (c : cmd).

(** ** Tokens *)

(* @user/sh.c:262-262 whitespace *)
Definition whitespace : list Z := [32; 9; 13; 10; 11].
(* @user/sh.c:263-263 symbols *)
Definition symbols : list Z := [60; 124; 62; 38; 59; 40; 41].

(** [strchr(l, c) != 0] for a character that is not NUL. *)
Definition mem (c : Z) (l : list Z) : bool := existsb (Z.eqb c) l.
#[local] Arguments mem : simpl never.

Fixpoint skip_space (s : list Z) : list Z :=
  match s with
  | c :: s' => if mem c whitespace then skip_space s' else s
  | [] => []
  end.

Fixpoint span_word (s : list Z) : list Z * list Z :=
  match s with
  | c :: s' =>
    if mem c whitespace || mem c symbols then ([], s)
    else let '(w, rest) := span_word s' in (c :: w, rest)
  | [] => ([], [])
  end.

(** The value returned, the bytes between [q] and [eq], and the new [*ps]. *)
(* @user/sh.c gettoken *)
Definition gettoken (s : list Z) : Z * list Z * list Z :=
  let s := skip_space s in
  match s with
  | [] => (0, [], [])
  | c :: s' =>
    if (c =? 124) || (c =? 40) || (c =? 41) || (c =? 59) || (c =? 38) || (c =? 60) then
      (c, [c], skip_space s')
    else if c =? 62 then
      match s' with
      | d :: s'' => if d =? 62 then (43, [62; 62], skip_space s'') else (c, [c], skip_space s')
      | [] => (c, [c], [])
      end
    else
      let '(w, rest) := span_word s in (97, w, skip_space rest)
  end.

(** Whether the next character is one of [toks], and the new [*ps]. *)
(* @user/sh.c peek *)
Definition peek (s toks : list Z) : bool * list Z :=
  let s := skip_space s in
  (match s with c :: _ => mem c toks | [] => false end, s).

(** ** The parser *)

(** A command and the rest of the line, [panic], [panic] after the complaint about the
    part of the line that was not parsed, or the bound was reached. *)
Inductive presult (A : Type) :=
| Parsed (a : A) (rest : list Z)
| Syntax (msg : string)
| Leftovers (rest : list Z)
| Deep.
Arguments Parsed {A} a rest.
Arguments Syntax {A} msg.
Arguments Leftovers {A} rest.
Arguments Deep {A}.

Definition pbind {A B} (r : presult A) (f : A -> list Z -> presult B) : presult B :=
  match r with
  | Parsed a rest => f a rest
  | Syntax msg => Syntax msg
  | Leftovers rest => Leftovers rest
  | Deep => Deep
  end.

(* @user/sh.c redircmd *)
Definition redircmd (c : cmd) (file : list Z) (r : redir) : cmd :=
  REDIR c file (fst (redir_mode r)) (snd (redir_mode r)).

(** The redirections read, in order; each turn consumes a token. *)
(* @user/sh.c parseredirs *)
Fixpoint parseredirs (fuel : nat) (acc : list (redir * list Z)) (s : list Z) : presult (list (redir * list Z)) :=
  match fuel with
  | O => Deep
  | S fuel =>
    let '(b, s) := peek s [60; 62] in
    if negb b then Parsed acc s
    else
    let '(tok, _, s) := gettoken s in
    let '(t, w, s) := gettoken s in
    if negb (t =? 97) then Syntax "missing file for redirection"
    else
    let r := if tok =? 60 then R_in else if tok =? 62 then R_out else R_app in
    parseredirs fuel (acc ++ [(r, w)]) s
  end.

Definition redirs (s : list Z) : presult (list (redir * list Z)) := parseredirs (S (length s)) [] s.

(** The redirections around a command, the first one innermost. *)
Definition wrap (c : cmd) (rs : list (redir * list Z)) : cmd :=
  fold_left (fun c '(r, w) => redircmd c w r) rs c.

(** The argument loop of [parseexec]: [argv] is filled while redirections are
    wrapped around the same command. *)
(* @user/sh.c parseexec *)
Fixpoint parseargs (fuel : nat) (argv : list (list Z)) (rs : list (redir * list Z)) (s : list Z) : presult cmd :=
  match fuel with
  | O => Deep
  | S fuel =>
    let '(b, s) := peek s [124; 41; 38; 59] in
    if b : bool then Parsed (wrap (EXEC argv) rs) s
    else
    let '(tok, w, s) := gettoken s in
    if tok =? 0 then Parsed (wrap (EXEC argv) rs) s
    else if negb (tok =? 97) then Syntax "syntax"
    else
    let argv := argv ++ [w] in
    if MAXARGS <=? Z.of_nat (length argv) then Syntax "too many args"
    else
    pbind (redirs s) (fun rs' s => parseargs fuel argv (rs ++ rs') s)
  end.

(** [while(peek(ps, es, "&"))] *)
(* @user/sh.c parseline *)
Fixpoint parsebacks (fuel : nat) (c : cmd) (s : list Z) : presult cmd :=
  match fuel with
  | O => Deep
  | S fuel =>
    let '(b, s) := peek s [38] in
    if b : bool then let '(_, _, s) := gettoken s in parsebacks fuel (BACK c) s
    else Parsed c s
  end.

(** The functions below call [parseline] for a block; [line] is that function. *)

(* @user/sh.c parseblock *)
Definition parseblock (line : list Z -> presult cmd) (s : list Z) : presult cmd :=
  let '(b, s) := peek s [40] in
  if negb b then Syntax "parseblock"
  else
  let '(_, _, s) := gettoken s in
  pbind (line s) (fun c s =>
  let '(b, s) := peek s [41] in
  if negb b then Syntax "syntax - missing )"
  else
  let '(_, _, s) := gettoken s in
  pbind (redirs s) (fun rs s => Parsed (wrap c rs) s)).

(* @user/sh.c parseexec *)
Definition parseexec (line : list Z -> presult cmd) (s : list Z) : presult cmd :=
  let '(b, s) := peek s [40] in
  if b : bool then parseblock line s
  else pbind (redirs s) (fun rs s => parseargs (S (length s)) [] rs s).

(* @user/sh.c parsepipe *)
Fixpoint parsepipe (fuel : nat) (line : list Z -> presult cmd) (s : list Z) : presult cmd :=
  match fuel with
  | O => Deep
  | S fuel =>
    pbind (parseexec line s) (fun c s =>
    let '(b, s) := peek s [124] in
    if b : bool then
      let '(_, _, s) := gettoken s in
      pbind (parsepipe fuel line s) (fun c' s => Parsed (PIPE c c') s)
    else Parsed c s)
  end.

(* @user/sh.c parseline *)
Fixpoint parseline (fuel : nat) (s : list Z) : presult cmd :=
  match fuel with
  | O => Deep
  | S fuel =>
    pbind (parsepipe (S (length s)) (parseline fuel) s) (fun c s =>
    pbind (parsebacks (S (length s)) c s) (fun c s =>
    let '(b, s) := peek s [59] in
    if b : bool then
      let '(_, _, s) := gettoken s in
      pbind (parseline fuel s) (fun c' s => Parsed (LIST c c') s)
    else Parsed c s))
  end.

(* @user/sh.c parsecmd *)
Definition parsecmd (s : list Z) : presult cmd :=
  pbind (parseline (S (length s)) s) (fun c s =>
  let '(_, s) := peek s [] in
  if bool_decide (s = []) then Parsed c [] else Leftovers s).

(** ** The parser terminates *)

(** The result is a command or a syntax error, and at most [n] bytes are left. *)
Definition within {A} (n : nat) (r : presult A) : Prop :=
  match r with
  | Parsed _ rest => (length rest <= n)%nat
  | Syntax _ => True
  | Leftovers _ | Deep => False
  end.

Lemma within_bind {A B} n m (r : presult A) (f : A -> list Z -> presult B) :
  within n r -> (forall a rest, (length rest <= n)%nat -> within m (f a rest)) -> within m (pbind r f).
Proof. destruct r; simpl; auto. Qed.

Lemma within_le {A} n m (r : presult A) : within n r -> (n <= m)%nat -> within m r.
Proof. destruct r; simpl; auto with lia. Qed.

Lemma skip_space_le s : (length (skip_space s) <= length s)%nat.
Proof. induction s as [|c s IH]; simpl; [lia|]. destruct (mem c whitespace); simpl; lia. Qed.

Lemma skip_space_idem s : skip_space (skip_space s) = skip_space s.
Proof. induction s as [|c s IH]; simpl; [done|]. destruct (mem c whitespace) eqn:E; [done|]. simpl. by rewrite E. Qed.

Lemma skip_space_head s c s' : skip_space s = c :: s' -> mem c whitespace = false.
Proof.
  induction s as [|x s IH]; simpl; [done|]. destruct (mem x whitespace) eqn:E; [done|]. by intros [= <- <-].
Qed.

Lemma span_word_len s w rest : span_word s = (w, rest) -> (length s = length w + length rest)%nat.
Proof.
  revert w rest; induction s as [|c s IH]; simpl; intros w rest; [by intros [= <- <-]|].
  destruct (mem c whitespace || mem c symbols); [by intros [= <- <-]|].
  destruct (span_word s) as [w' r']. intros [= <- <-]. simpl. by rewrite (IH w' r').
Qed.

(** The symbols that are tokens by themselves. *)
Lemma not_symbol c : (c =? 124) || (c =? 40) || (c =? 41) || (c =? 59) || (c =? 38) || (c =? 60) = false ->
  (c =? 62) = false -> mem c symbols = false.
Proof. intros H1 H2. unfold mem, symbols. simpl. rewrite H2. revert H1. bool_cases; done. Qed.

Lemma gettoken_less s tok w rest : gettoken s = (tok, w, rest) ->
  (tok = 0 /\ rest = [] /\ skip_space s = []) \/ (length rest < length s)%nat.
Proof.
  unfold gettoken. pose proof (skip_space_le s) as Hs. pose proof (skip_space_head s) as Hh.
  destruct (skip_space s) as [|c s'] eqn:E; [intros [= <- <- <-]; by left|]. specialize (Hh c s' eq_refl).
  intros H. right. simpl in Hs. pose proof (skip_space_le s') as Hs'.
  destruct ((c =? 124) || _ || _ || _ || _ || _) eqn:Ec; [injection H as <- <- <-; lia|].
  destruct (c =? 62) eqn:Eg.
  - destruct s' as [|d s'']; [injection H as <- <- <-; simpl; lia|]. pose proof (skip_space_le s'') as Hs''.
    simpl in *. destruct (d =? 62); injection H as <- <- <-; [lia|]. lia.
  - destruct (span_word (c :: s')) as [w' r'] eqn:Ew. injection H as <- <- <-.
    pose proof (skip_space_le r'). cbn [span_word] in Ew. rewrite Hh, (not_symbol c Ec Eg) in Ew. simpl in Ew.
    destruct (span_word s') as [w'' r''] eqn:Ew'. injection Ew as <- <-.
    pose proof (span_word_len _ _ _ Ew'). lia.
Qed.

Lemma gettoken_le s tok w rest : gettoken s = (tok, w, rest) -> (length rest <= length s)%nat.
Proof. intros E. destruct (gettoken_less _ _ _ _ E) as [(_ & -> & _)|?]; simpl; lia. Qed.

(** A character that [peek] has seen is consumed. *)
Lemma peek_token s l s' tok w rest : peek s l = (true, s') -> gettoken s' = (tok, w, rest) ->
  (length rest < length s)%nat.
Proof.
  unfold peek. intros [= Hc <-] E. pose proof (skip_space_le s).
  destruct (gettoken_less _ _ _ _ E) as [(_ & _ & Hz)|?]; [|lia].
  rewrite skip_space_idem in Hz. by rewrite Hz in Hc.
Qed.

Lemma peek_le s l b s' : peek s l = (b, s') -> (length s' <= length s)%nat.
Proof. unfold peek. intros [= _ <-]. apply skip_space_le. Qed.

Lemma parseredirs_within fuel acc s : (length s < fuel)%nat -> within (length s) (parseredirs fuel acc s).
Proof.
  revert acc s; induction fuel as [|fuel IH]; intros acc s Hf; [lia|]. cbn [parseredirs].
  destruct (peek s [60; 62]) as [b s1] eqn:Ep. pose proof (peek_le _ _ _ _ Ep). destruct b; [|done]. cbn [negb].
  destruct (gettoken s1) as [[tok w1] s2] eqn:E1. pose proof (peek_token _ _ _ _ _ _ Ep E1).
  destruct (gettoken s2) as [[t w2] s3] eqn:E2. pose proof (gettoken_le _ _ _ _ E2).
  destruct (t =? 97); [|done]. cbn [negb]. eapply within_le; [apply IH; lia|lia].
Qed.

Lemma parseargs_within fuel argv rs s : (length s < fuel)%nat -> within (length s) (parseargs fuel argv rs s).
Proof.
  revert argv rs s; induction fuel as [|fuel IH]; intros argv rs s Hf; [lia|]. cbn [parseargs].
  destruct (peek s _) as [b s1] eqn:Ep. pose proof (peek_le _ _ _ _ Ep). destruct b; [done|].
  destruct (gettoken s1) as [[tok w] s2] eqn:E1. pose proof (gettoken_le _ _ _ _ E1).
  destruct (Z.eqb_spec tok 0) as [|Ht]; [simpl; lia|]. destruct (tok =? 97); [|done]. cbn [negb].
  destruct (MAXARGS <=? _); [done|].
  destruct (gettoken_less _ _ _ _ E1) as [(? & _)|Hlt]; [done|].
  eapply within_bind; [apply parseredirs_within; lia|]. intros rs' s3 H3.
  eapply within_le; [apply IH; lia|lia].
Qed.

Lemma parsebacks_within fuel c s : (length s < fuel)%nat -> within (length s) (parsebacks fuel c s).
Proof.
  revert c s; induction fuel as [|fuel IH]; intros c s Hf; [lia|]. cbn [parsebacks].
  destruct (peek s _) as [b s1] eqn:Ep. pose proof (peek_le _ _ _ _ Ep). destruct b; [|done].
  destruct (gettoken s1) as [[tok w] s2] eqn:E1. pose proof (peek_token _ _ _ _ _ _ Ep E1).
  eapply within_le; [apply IH; lia|lia].
Qed.

(** [line] parses what is shorter than [n] bytes. *)
Definition total_below (n : nat) (line : list Z -> presult cmd) : Prop :=
  forall s, (length s < n)%nat -> within (length s) (line s).

Lemma parseexec_within n line s : total_below n line -> (length s <= n)%nat -> within (length s) (parseexec line s).
Proof.
  intros Hline Hn. unfold parseexec. destruct (peek s _) as [b s1] eqn:Ep. pose proof (peek_le _ _ _ _ Ep).
  destruct b.
  - unfold parseblock. destruct (peek s1 [40]) as [b' s2] eqn:Ep2. pose proof (peek_le _ _ _ _ Ep2).
    destruct b'; [|done]. cbn [negb]. destruct (gettoken s2) as [[t w] s3] eqn:E3.
    pose proof (peek_token _ _ _ _ _ _ Ep2 E3).
    eapply within_bind; [apply Hline; lia|]. intros c s4 H4.
    destruct (peek s4 [41]) as [b'' s5] eqn:Ep5. destruct b''; [|done]. cbn [negb].
    destruct (gettoken s5) as [[t' w'] s6] eqn:E6. pose proof (peek_token _ _ _ _ _ _ Ep5 E6).
    eapply within_bind; [apply parseredirs_within; lia|]. intros rs s7 H7. simpl. lia.
  - eapply within_bind; [apply parseredirs_within; lia|]. intros rs s2 H2.
    eapply within_le; [apply parseargs_within; lia|lia].
Qed.

Lemma parsepipe_within fuel n line s : total_below n line -> (length s <= n)%nat -> (length s < fuel)%nat ->
  within (length s) (parsepipe fuel line s).
Proof.
  intros Hline. revert s; induction fuel as [|fuel IH]; intros s Hn Hf; [lia|]. cbn [parsepipe].
  eapply within_bind; [by eapply parseexec_within|]. intros c s1 H1.
  destruct (peek s1 _) as [b s2] eqn:Ep. pose proof (peek_le _ _ _ _ Ep). destruct b; [|simpl; lia].
  destruct (gettoken s2) as [[t w] s3] eqn:E3. pose proof (peek_token _ _ _ _ _ _ Ep E3).
  eapply within_bind; [apply IH; lia|]. intros c' s4 H4. simpl. lia.
Qed.

Lemma parseline_within fuel : total_below fuel (parseline fuel).
Proof.
  induction fuel as [|fuel IH]; intros s Hf; [lia|]. cbn [parseline].
  eapply within_bind; [eapply (parsepipe_within _ fuel); [done|lia|lia]|]. intros c s1 H1.
  eapply within_bind; [apply parsebacks_within; lia|]. intros c' s2 H2.
  destruct (peek s2 _) as [b s3] eqn:Ep. pose proof (peek_le _ _ _ _ Ep). destruct b; [|simpl; lia].
  destruct (gettoken s3) as [[t w] s4] eqn:E4. pose proof (peek_token _ _ _ _ _ _ Ep E4).
  eapply within_bind; [apply IH; lia|]. intros c'' s5 H5. simpl. lia.
Qed.

(** ** Printing commands *)

Inductive token := T_word (w : list Z) | T_sym (c : Z) | T_app.

Definition tok_bytes (t : token) : list Z :=
  match t with T_word w => w | T_sym c => [c] | T_app => [62; 62] end.

(** Every token is followed by a space. *)
Definition render (ts : list token) : list Z := mjoin ((fun t => tok_bytes t ++ [32]) <$> ts).

Definition redir_tok (r : redir) : token :=
  match r with R_in => T_sym 60 | R_out => T_sym 62 | R_app => T_app end.
Definition redir_of (mode : Z) : redir :=
  if mode =? fst (redir_mode R_in) then R_in else if mode =? fst (redir_mode R_out) then R_out else R_app.

Inductive level := L_line | L_back | L_pipe | L_exec.

Definition paren (b : bool) (ts : list token) : list token :=
  if b then [T_sym 40] ++ ts ++ [T_sym 41] else ts.

(** The tokens of a command where the grammar wants one of the level [lv]. *)
Fixpoint show (lv : level) (c : cmd) : list token :=
  match c with
  | EXEC argv => T_word <$> argv
  | REDIR c f mode _ => show L_exec c ++ [redir_tok (redir_of mode); T_word f]
  | PIPE l r => paren (match lv with L_exec => true | _ => false end) (show L_exec l ++ [T_sym 124] ++ show L_pipe r)
  | BACK c => paren (match lv with L_exec | L_pipe => true | _ => false end) (show L_back c ++ [T_sym 38])
  | LIST l r => paren (match lv with L_line => false | _ => true end) (show L_back l ++ [T_sym 59] ++ show L_line r)
  end.

(** A word has characters that are neither white space nor symbols. *)
Definition plain (c : Z) : Prop := mem c whitespace = false /\ mem c symbols = false.
Definition is_word (w : list Z) : Prop := w <> [] /\ Forall plain w.

Fixpoint wf_cmd (c : cmd) : Prop :=
  match c with
  | EXEC argv => Forall is_word argv /\ Z.of_nat (length argv) < MAXARGS
  | REDIR c f mode fd => wf_cmd c /\ is_word f /\ exists r, (mode, fd) = redir_mode r
  | PIPE l r | LIST l r => wf_cmd l /\ wf_cmd r
  | BACK c => wf_cmd c
  end.

Definition tok_ok (t : token) : Prop :=
  match t with
  | T_word w => is_word w
  | T_sym c => c ∈ symbols
  | T_app => True
  end.

(** What [gettoken] returns for a token, and its first character. *)
Definition tok_val (t : token) : Z := match t with T_word _ => 97 | T_sym c => c | T_app => 43 end.
Definition tok_head (t : token) : Z :=
  match t with T_word w => default 0 (head w) | T_sym c => c | T_app => 62 end.

Lemma mem_spec c l : mem c l = true <-> c ∈ l.
Proof.
  unfold mem. rewrite existsb_exists. setoid_rewrite Z.eqb_eq. setoid_rewrite list_elem_of_In.
  split; [intros (x & Hx & ->); done|]. intros. by exists c.
Qed.

Lemma tok_head_space t : tok_ok t -> exists s, tok_bytes t = tok_head t :: s /\ mem (tok_head t) whitespace = false.
Proof.
  destruct t as [w|c|]; simpl.
  - intros [Hne Hw]. destruct w as [|c w]; [done|]. apply Forall_cons in Hw as [[Hc _] _]. by exists w.
  - intros Hc. exists []. split; [done|]. apply not_true_iff_false. rewrite mem_spec. intros Hw.
    unfold symbols, whitespace in *. set_solver.
  - intros _. by exists [62].
Qed.

Lemma skip_render ts : Forall tok_ok ts -> skip_space (render ts) = render ts.
Proof.
  intros Hts. destruct Hts as [|t ts Ht _]; [done|]. destruct (tok_head_space t Ht) as (s & E & Hs).
  unfold render. rewrite fmap_cons. cbn [mjoin list_join]. rewrite E. cbn [app skip_space]. by rewrite Hs.
Qed.

Lemma skip_sp ts : Forall tok_ok ts -> skip_space (32 :: render ts) = render ts.
Proof. intros. change (skip_space (32 :: render ts)) with (skip_space (render ts)). by apply skip_render. Qed.

Lemma span_word_render w r : Forall plain w -> span_word (w ++ 32 :: r) = (w, 32 :: r).
Proof.
  induction 1 as [|c w [H1 H2] _ IH]; [done|]. cbn [app span_word]. by rewrite H1, H2, IH.
Qed.

Lemma render_cons t ts : render (t :: ts) = tok_bytes t ++ 32 :: render ts.
Proof. unfold render. rewrite fmap_cons. cbn [mjoin list_join]. by rewrite <- app_assoc. Qed.

Lemma plain_not_symbol c : plain c ->
  (c =? 124) || (c =? 40) || (c =? 41) || (c =? 59) || (c =? 38) || (c =? 60) = false /\ (c =? 62) = false.
Proof.
  intros [_ Hs]. apply not_true_iff_false in Hs. rewrite mem_spec in Hs. unfold symbols in Hs.
  split; bool_cases; subst; try done; exfalso; apply Hs; set_solver.
Qed.

Lemma gettoken_render t ts : tok_ok t -> Forall tok_ok ts ->
  gettoken (render (t :: ts)) = (tok_val t, tok_bytes t, render ts).
Proof.
  intros Ht Hts. unfold gettoken. rewrite skip_render by (by constructor). rewrite render_cons.
  destruct t as [w|c|]; cbn [tok_bytes tok_val app].
  - destruct Ht as [Hne Hw]. destruct w as [|c w]; [done|]. pose proof Hw as Hw'.
    apply Forall_cons in Hw as [Hc Hw]. destruct (plain_not_symbol c Hc) as [H1 H2]. cbn [app]. rewrite H1, H2.
    change (c :: w ++ 32 :: render ts) with ((c :: w) ++ 32 :: render ts).
    rewrite span_word_render by done. by rewrite skip_sp.
  - simpl in Ht. unfold symbols in Ht. rewrite skip_sp by done.
    repeat (apply elem_of_cons in Ht as [->|Ht]; [reflexivity|]). by apply elem_of_nil in Ht.
  - change (62 :: 62 :: 32 :: render ts) with ([62; 62] ++ 32 :: render ts). cbn [app Z.eqb Pos.eqb orb].
    by rewrite skip_sp.
Qed.

Lemma peek_render t ts l : tok_ok t -> Forall tok_ok ts ->
  peek (render (t :: ts)) l = (mem (tok_head t) l, render (t :: ts)).
Proof.
  intros Ht Hts. unfold peek. rewrite skip_render by (by constructor).
  destruct (tok_head_space t Ht) as (s & E & _). rewrite render_cons, E. done.
Qed.

(** The first token of [ts] does not start with one of [l]. *)
Definition starts_not (l : list Z) (ts : list token) : Prop :=
  match ts with t :: _ => mem (tok_head t) l = false | [] => True end.

Lemma peek_not ts l : Forall tok_ok ts -> starts_not l ts -> peek (render ts) l = (false, render ts).
Proof.
  intros Hts Hs. destruct Hts as [|t ts Ht Hts]; [done|]. rewrite peek_render by done. by rewrite Hs.
Qed.

Lemma pbind_assoc {A B C} (r : presult A) (f : A -> list Z -> presult B) (g : B -> list Z -> presult C) :
  pbind (pbind r f) g = pbind r (fun a s => pbind (f a s) g).
Proof. by destruct r. Qed.

Lemma length_render_cons t ts : (length (render ts) < length (render (t :: ts)))%nat.
Proof. rewrite render_cons, length_app. simpl. lia. Qed.

Lemma length_render ts : (length ts <= length (render ts))%nat.
Proof. induction ts as [|t ts IH]; [done|]. pose proof (length_render_cons t ts). simpl. lia. Qed.

Lemma length_render_app ts us : length (render (ts ++ us)) = (length (render ts) + length (render us))%nat.
Proof. unfold render. by rewrite fmap_app, join_app, length_app. Qed.

(** *** Redirections and arguments *)

Definition rtoks (rs : list (redir * list Z)) : list token :=
  mjoin ((fun '(r, w) => [redir_tok r; T_word w]) <$> rs).

Definition rs_ok (rs : list (redir * list Z)) : Prop := Forall (fun '(_, w) => is_word w) rs.

Lemma redir_tok_ok r : tok_ok (redir_tok r).
Proof. destruct r; simpl; try done; unfold symbols; set_solver. Qed.

Lemma rtoks_ok rs : rs_ok rs -> Forall tok_ok (rtoks rs).
Proof.
  induction 1 as [|[r w] rs Hw _ IH]; [constructor|]. unfold rtoks. rewrite fmap_cons. cbn [mjoin list_join].
  apply Forall_app. split; [|done]. constructor; [apply redir_tok_ok|]. by constructor.
Qed.

Lemma parseredirs_render fuel acc rs rest : rs_ok rs -> Forall tok_ok rest -> starts_not [60; 62] rest ->
  (length rs < fuel)%nat ->
  parseredirs fuel acc (render (rtoks rs ++ rest)) = Parsed (acc ++ rs) (render rest).
Proof.
  intros Hrs Hrest Hs. revert fuel acc; induction Hrs as [|[r w] rs Hw Hrs IH]; intros fuel acc Hf;
    (destruct fuel as [|fuel]; [simpl in Hf; lia|]); cbn [parseredirs].
  - cbn [rtoks fmap list_fmap mjoin list_join app]. rewrite peek_not by done. cbn [negb]. by rewrite app_nil_r.
  - change (rtoks ((r, w) :: rs) ++ rest) with (redir_tok r :: T_word w :: rtoks rs ++ rest).
    assert (Hok : Forall tok_ok (rtoks rs ++ rest)) by (apply Forall_app; split; [by apply rtoks_ok|done]).
    pose proof (redir_tok_ok r). rewrite peek_render by (done || by constructor).
    replace (mem (tok_head (redir_tok r)) [60; 62]) with true by (by destruct r). cbn [negb].
    rewrite gettoken_render by (done || by constructor). rewrite gettoken_render by done. cbn [tok_val tok_bytes Z.eqb Pos.eqb negb].
    rewrite IH by (simpl in Hf; lia). rewrite <- app_assoc. by destruct r.
Qed.

Lemma length_rtoks rs : length (rtoks rs) = (2 * length rs)%nat.
Proof.
  induction rs as [|[r w] rs IH]; [done|].
  change (rtoks ((r, w) :: rs)) with (redir_tok r :: T_word w :: rtoks rs). cbn [length]. rewrite IH. lia.
Qed.

Lemma redirs_render rs rest : rs_ok rs -> Forall tok_ok rest -> starts_not [60; 62] rest ->
  redirs (render (rtoks rs ++ rest)) = Parsed rs (render rest).
Proof.
  intros Hrs Hrest Hs. unfold redirs. rewrite parseredirs_render; try done.
  pose proof (length_render (rtoks rs ++ rest)) as Hl. rewrite length_app, length_rtoks in Hl. lia.
Qed.

(** What may follow a command. *)
Definition stops (l : list Z) (ts : list token) : Prop :=
  match ts with t :: _ => mem (tok_head t) l = true | [] => True end.

Lemma stops_not l l' ts : stops l ts -> (forall c, c ∈ l -> c ∉ l') -> starts_not l' ts.
Proof.
  destruct ts as [|t ts]; [done|]. simpl. rewrite mem_spec. intros Hc Hd. apply not_true_iff_false.
  rewrite mem_spec. auto.
Qed.

Lemma stops_mono l l' ts : stops l ts -> (forall c, c ∈ l -> c ∈ l') -> stops l' ts.
Proof. destruct ts as [|t ts]; [done|]. simpl. rewrite !mem_spec. auto. Qed.

Abbreviation exec_stop := (stops [124; 41; 38; 59]).
Abbreviation pipe_stop := (stops [41; 38; 59]).
Abbreviation back_stop := (stops [41; 59]).
Abbreviation line_stop := (stops [41]).

Lemma parseargs_stop fuel argv rs rest : Forall tok_ok rest -> exec_stop rest ->
  parseargs (S fuel) argv rs (render rest) = Parsed (wrap (EXEC argv) rs) (render rest).
Proof.
  intros Hrest Hs. cbn [parseargs]. destruct Hrest as [|t rest Ht Hrest]; [done|].
  rewrite peek_render by done. simpl in Hs. by rewrite Hs.
Qed.

Lemma word_head w l : is_word w -> (forall c, c ∈ l -> c ∈ symbols) -> mem (tok_head (T_word w)) l = false.
Proof.
  intros [Hne Hw] Hl. destruct w as [|c w]; [done|]. apply Forall_cons in Hw as [[_ Hc] _]. simpl.
  apply not_true_iff_false. rewrite mem_spec. intros Hin%Hl%mem_spec. congruence.
Qed.

Lemma parseargs_words fuel argv rs0 w ws rs rest :
  Forall is_word (w :: ws) -> rs_ok rs -> Forall tok_ok rest -> exec_stop rest ->
  (length (w :: ws) < fuel)%nat -> Z.of_nat (length (argv ++ w :: ws)) < MAXARGS ->
  parseargs fuel argv rs0 (render ((T_word <$> w :: ws) ++ rtoks rs ++ rest)) =
  Parsed (wrap (EXEC (argv ++ w :: ws)) (rs0 ++ rs)) (render rest).
Proof.
  intros Hws Hrs Hrest Hs. revert fuel argv rs0 w Hws.
  induction ws as [|w' ws IH]; intros fuel argv rs0 w Hws Hf Hmax; (destruct fuel as [|fuel]; [simpl in Hf; lia|]);
    cbn [parseargs]; pose proof Hws as Hws'; apply Forall_cons in Hws' as [Hw Hws''];
    assert (Hmid : Forall tok_ok (rtoks rs ++ rest)) by (apply Forall_app; split; [by apply rtoks_ok|done]);
    assert (Hm : (MAXARGS <=? Z.of_nat (length (argv ++ [w]))) = false)
      by (apply Z.leb_gt; rewrite length_app in *; simpl in *; lia).
  - change ((T_word <$> [w]) ++ rtoks rs ++ rest) with (T_word w :: rtoks rs ++ rest).
    rewrite peek_render by done. rewrite word_head by (done || unfold symbols; set_solver).
    rewrite gettoken_render by done. cbn [tok_val tok_bytes Z.eqb Pos.eqb negb]. rewrite Hm.
    rewrite redirs_render; [|done|done|by eapply stops_not; [done|set_solver]]. cbn [pbind].
    destruct fuel as [|fuel]; [simpl in Hf; lia|]. by apply parseargs_stop.
  - assert (Hok : Forall tok_ok ((T_word <$> w' :: ws) ++ rtoks rs ++ rest)).
    { apply Forall_app. split; [|done]. by apply Forall_fmap. }
    change ((T_word <$> w :: w' :: ws) ++ rtoks rs ++ rest) with (T_word w :: (T_word <$> w' :: ws) ++ rtoks rs ++ rest).
    rewrite peek_render by done. rewrite word_head by (done || unfold symbols; set_solver).
    rewrite gettoken_render by done. cbn [tok_val tok_bytes Z.eqb Pos.eqb negb]. rewrite Hm.
    apply Forall_cons in Hws'' as [Hw' _].
    change ((T_word <$> w' :: ws) ++ rtoks rs ++ rest)
      with (rtoks [] ++ ((T_word <$> w' :: ws) ++ rtoks rs ++ rest)) at 1.
    rewrite redirs_render; [|constructor|done|simpl; apply word_head; [done|unfold symbols; set_solver]].
    cbn [pbind]. rewrite app_nil_r.
    replace (argv ++ w :: w' :: ws) with ((argv ++ [w]) ++ w' :: ws) in * by (by rewrite <- app_assoc).
    apply IH; [by inversion Hws|simpl in *; lia|done].
Qed.

Lemma parsebacks_render fuel c n rest : Forall tok_ok rest -> starts_not [38] rest -> (n < fuel)%nat ->
  parsebacks fuel c (render (replicate n (T_sym 38) ++ rest)) = Parsed (Nat.iter n BACK c) (render rest).
Proof.
  intros Hrest Hs. revert fuel c; induction n as [|n IH]; intros fuel c Hf; (destruct fuel as [|fuel]; [lia|]);
    cbn [parsebacks replicate app].
  - by rewrite peek_not.
  - assert (Hok : Forall tok_ok (replicate n (T_sym 38) ++ rest)).
    { apply Forall_app. split; [|done]. apply Forall_replicate. simpl. unfold symbols. set_solver. }
    assert (tok_ok (T_sym 38)) by (simpl; unfold symbols; set_solver).
    rewrite peek_render by done. change (mem (tok_head (T_sym 38)) [38]) with true. cbn iota.
    rewrite gettoken_render by done. rewrite IH by lia. by rewrite Nat.iter_succ_r.
Qed.

(** *** The levels of the grammar *)

Lemma sym_ok c : c ∈ symbols -> tok_ok (T_sym c).
Proof. done. Qed.

(** Split a goal about the tokens of an appended list. *)
Ltac split_toks := repeat first [apply Forall_app; split | apply Forall_cons; split | apply Forall_nil; done |
  assumption | apply sym_ok; unfold symbols; set_solver | apply Forall_replicate].

Lemma show_ok lv c : wf_cmd c -> Forall tok_ok (show lv c).
Proof.
  revert lv; induction c as [argv|c IH f mode fd|l IHl r IHr|l IHl r IHr|c IH]; intros lv; cbn [show wf_cmd].
  - intros [Hw _]. by apply Forall_fmap.
  - intros (Hc & Hf & _). apply Forall_app. split; [by apply IH|].
    constructor; [apply redir_tok_ok|]. by constructor.
  - intros [Hl Hr]. unfold paren. destruct lv; split_toks; auto.
  - intros [Hl Hr]. unfold paren. destruct lv; split_toks; auto.
  - intros Hc. unfold paren. destruct lv; split_toks; auto.
Qed.

Definition exec_ok (c : cmd) : Prop := forall rs rest fuel,
  rs_ok rs -> Forall tok_ok rest -> exec_stop rest ->
  (length (render (show L_exec c ++ rtoks rs ++ rest)) <= fuel)%nat ->
  parseexec (parseline fuel) (render (show L_exec c ++ rtoks rs ++ rest)) = Parsed (wrap c rs) (render rest).

Definition pipe_ok (c : cmd) : Prop := forall rest fuel k,
  Forall tok_ok rest -> pipe_stop rest ->
  (length (render (show L_pipe c ++ rest)) <= fuel)%nat -> (length (render (show L_pipe c ++ rest)) < k)%nat ->
  parsepipe k (parseline fuel) (render (show L_pipe c ++ rest)) = Parsed c (render rest).

Definition back_ok (c : cmd) : Prop := forall n rest fuel k,
  Forall tok_ok rest -> back_stop rest ->
  let s := render (show L_back c ++ replicate n (T_sym 38) ++ rest) in
  (length s <= fuel)%nat -> (length s < k)%nat ->
  pbind (parsepipe k (parseline fuel) s) (fun c s => parsebacks (S (length s)) c s) =
  Parsed (Nat.iter n BACK c) (render rest).

Definition line_ok (c : cmd) : Prop := forall rest fuel,
  Forall tok_ok rest -> line_stop rest -> (length (render (show L_line c ++ rest)) < fuel)%nat ->
  parseline fuel (render (show L_line c ++ rest)) = Parsed c (render rest).

Ltac stop := eapply stops_not; [eassumption|set_solver].
Ltac toks := repeat first [progress split_toks | apply rtoks_ok | apply show_ok].

Lemma pipe_of_exec c : wf_cmd c -> show L_pipe c = show L_exec c -> exec_ok c -> pipe_ok c.
Proof.
  intros Hwf E He rest fuel k Hrest Hs Hf Hk. destruct k as [|k]; [lia|]. cbn [parsepipe]. rewrite E in *.
  pose proof (He [] rest fuel) as Hp. change (rtoks [] ++ rest) with rest in Hp.
  rewrite Hp; [|constructor|done|by eapply stops_mono; [done|set_solver]|done].
  cbn [pbind]. rewrite peek_not; [done|done|stop].
Qed.

Lemma back_of_pipe c : wf_cmd c -> show L_back c = show L_pipe c -> pipe_ok c -> back_ok c.
Proof.
  intros Hwf E Hp n rest fuel k Hrest Hs s Hf Hk. unfold s in *. rewrite E in *.
  assert (Hok : Forall tok_ok (replicate n (T_sym 38) ++ rest)) by toks.
  rewrite Hp; [|done|destruct n; [by eapply stops_mono; [done|set_solver]|done]|done|done].
  cbn [pbind]. rewrite parsebacks_render; [done|done|stop|].
  pose proof (length_render (replicate n (T_sym 38) ++ rest)) as Hl. rewrite length_app, length_replicate in Hl. lia.
Qed.

Lemma line_of_back c : wf_cmd c -> show L_line c = show L_back c -> back_ok c -> line_ok c.
Proof.
  intros Hwf E Hb rest fuel Hrest Hs Hf. destruct fuel as [|fuel]; [lia|]. cbn [parseline]. rewrite E in *.
  pose proof (Hb 0%nat rest fuel (S (length (render (show L_back c ++ rest)))) Hrest) as Hp. cbn [replicate app] in Hp.
  rewrite <- pbind_assoc, Hp; [|by eapply stops_mono; [done|set_solver]|lia|lia].
  cbn [pbind]. rewrite peek_not; [done|done|stop].
Qed.

(** A command in parentheses. *)
Lemma exec_of_line c : wf_cmd c -> show L_exec c = paren true (show L_line c) -> line_ok c -> exec_ok c.
Proof.
  intros Hwf E Hl rs rest fuel Hrs Hrest Hs. rewrite E. unfold paren. rewrite <- !app_assoc. cbn [app].
  assert (Hok : Forall tok_ok (T_sym 41 :: rtoks rs ++ rest)) by (toks; done).
  assert (Hin : Forall tok_ok (show L_line c ++ T_sym 41 :: rtoks rs ++ rest)) by (apply Forall_app; split; [by apply show_ok|done]).
  assert (H40 : tok_ok (T_sym 40)) by (toks).
  intros Hf. unfold parseexec. rewrite peek_render by done. change (mem (tok_head (T_sym 40)) [40]) with true. cbn iota.
  unfold parseblock. rewrite peek_render by done. change (mem (tok_head (T_sym 40)) [40]) with true. cbn [negb].
  rewrite gettoken_render by done.
  pose proof (length_render_cons (T_sym 40) (show L_line c ++ T_sym 41 :: rtoks rs ++ rest)).
  rewrite Hl; [|done|done|lia]. cbn [pbind]. apply Forall_cons in Hok as [H41 Hok].
  rewrite peek_render by done. change (mem (tok_head (T_sym 41)) [41]) with true. cbn [negb].
  rewrite gettoken_render by done. rewrite redirs_render; [done|done|done|stop].
Qed.

Lemma exec_ok_exec argv : wf_cmd (EXEC argv) -> exec_ok (EXEC argv).
Proof.
  intros [Hw Hmax] rs rest fuel Hrs Hrest Hs Hf. cbn [show] in *. unfold parseexec.
  assert (Hmid : Forall tok_ok (rtoks rs ++ rest)) by toks.
  destruct argv as [|w ws].
  - cbn [fmap list_fmap app] in *. assert (Hn : starts_not [40] (rtoks rs ++ rest)).
    { destruct rs as [|[r w] rs]; [stop|]. by destruct r. }
    rewrite peek_not by done. rewrite redirs_render; [|done|done|stop]. cbn [pbind].
    by rewrite parseargs_stop.
  - assert (Hok : Forall tok_ok ((T_word <$> w :: ws) ++ rtoks rs ++ rest)).
    { apply Forall_app. split; [by apply Forall_fmap|done]. }
    assert (Hh : forall l, (forall c, c ∈ l -> c ∈ symbols) -> starts_not l ((T_word <$> w :: ws) ++ rtoks rs ++ rest)).
    { intros l Hl. simpl. apply word_head; [by inversion Hw|done]. }
    rewrite peek_not; [|done|apply Hh; unfold symbols; set_solver].
    change ((T_word <$> w :: ws) ++ rtoks rs ++ rest)
      with (rtoks [] ++ ((T_word <$> w :: ws) ++ rtoks rs ++ rest)) at 1.
    rewrite redirs_render; [|constructor|done|apply Hh; unfold symbols; set_solver]. cbn [pbind].
    rewrite parseargs_words; try done.
    pose proof (length_render ((T_word <$> w :: ws) ++ rtoks rs ++ rest)) as Hl.
    rewrite length_app, length_fmap in Hl. lia.
Qed.

Lemma exec_ok_redir c f mode fd : wf_cmd (REDIR c f mode fd) -> exec_ok c -> exec_ok (REDIR c f mode fd).
Proof.
  intros (Hc & Hf & r & Er) He rs rest fuel Hrs Hrest Hs Hl. cbn [show] in *.
  assert (E : redir_of mode = r /\ REDIR c f mode fd = redircmd c f r).
  { destruct r; injection Er as -> ->; done. }
  destruct E as [E1 E2]. rewrite E1, E2 in *.
  replace ((show L_exec c ++ [redir_tok r; T_word f]) ++ rtoks rs ++ rest)
    with (show L_exec c ++ rtoks ((r, f) :: rs) ++ rest) in * by (by rewrite <- app_assoc).
  rewrite He; [done|by constructor|done|done|done].
Qed.

Lemma pipe_ok_pipe l r : wf_cmd l -> wf_cmd r -> exec_ok l -> pipe_ok r -> pipe_ok (PIPE l r).
Proof.
  intros Hwl Hwr He Hp rest fuel k Hrest Hs Hf Hk. destruct k as [|k]; [lia|]. cbn [parsepipe show paren] in *.
  rewrite <- !app_assoc in *. cbn [app] in *.
  assert (Hok : Forall tok_ok (show L_pipe r ++ rest)) by (toks; done).
  assert (H124 : tok_ok (T_sym 124)) by toks.
  pose proof (He [] (T_sym 124 :: show L_pipe r ++ rest) fuel) as Hl.
  change (rtoks [] ++ ?x) with x in Hl. rewrite Hl; [|constructor|by constructor|done|done]. cbn [pbind wrap fold_left].
  rewrite peek_render by done. change (mem (tok_head (T_sym 124)) [124]) with true. cbn iota.
  rewrite gettoken_render by done. rewrite length_render_app in Hf, Hk.
  pose proof (length_render_cons (T_sym 124) (show L_pipe r ++ rest)).
  rewrite Hp; [done|done|done|lia|lia].
Qed.

Lemma line_ok_list l r : wf_cmd l -> wf_cmd r -> back_ok l -> line_ok r -> line_ok (LIST l r).
Proof.
  intros Hwl Hwr Hb Hl rest fuel Hrest Hs Hf. destruct fuel as [|fuel]; [lia|]. cbn [parseline show paren] in *.
  rewrite <- !app_assoc in *. cbn [app] in *.
  assert (Hok : Forall tok_ok (show L_line r ++ rest)) by (toks; done).
  assert (H59 : tok_ok (T_sym 59)) by toks.
  pose proof (Hb 0%nat (T_sym 59 :: show L_line r ++ rest) fuel
    (S (length (render (show L_back l ++ T_sym 59 :: show L_line r ++ rest))))) as Hp. cbn [replicate app] in Hp.
  rewrite <- pbind_assoc, Hp; [|by constructor|done|lia|lia]. cbn [pbind].
  rewrite peek_render by done. change (mem (tok_head (T_sym 59)) [59]) with true. cbn iota.
  rewrite gettoken_render by done. rewrite length_render_app in Hf.
  pose proof (length_render_cons (T_sym 59) (show L_line r ++ rest)).
  rewrite Hl; [done|done|done|lia].
Qed.

Lemma back_ok_back c : wf_cmd c -> back_ok c -> back_ok (BACK c).
Proof.
  intros Hwf Hb n rest fuel k Hrest Hs. cbn [show paren]. rewrite <- !app_assoc. cbn [app].
  change (T_sym 38 :: replicate n (T_sym 38) ++ rest) with (replicate (S n) (T_sym 38) ++ rest).
  intros Hf Hk. rewrite (Hb (S n)) by done. by rewrite Nat.iter_succ_r.
Qed.

Lemma levels_ok c : wf_cmd c -> exec_ok c /\ pipe_ok c /\ back_ok c /\ line_ok c.
Proof.
  assert (Hup : forall c, wf_cmd c -> show L_pipe c = show L_exec c -> show L_back c = show L_pipe c ->
    show L_line c = show L_back c -> exec_ok c -> exec_ok c /\ pipe_ok c /\ back_ok c /\ line_ok c).
  { intros c' Hwf E1 E2 E3 He. pose proof (pipe_of_exec _ Hwf E1 He) as Hp.
    pose proof (back_of_pipe _ Hwf E2 Hp) as Hb. pose proof (line_of_back _ Hwf E3 Hb). done. }
  induction c as [argv|c IH f mode fd|l IHl r IHr|l IHl r IHr|c IH]; intros Hwf.
  - apply Hup; try done. by apply exec_ok_exec.
  - apply Hup; try done. apply exec_ok_redir; [done|]. apply IH, Hwf.
  - destruct Hwf as [Hl Hr]. destruct (IHl Hl) as (He & _). destruct (IHr Hr) as (_ & Hp & _).
    pose proof (pipe_ok_pipe l r Hl Hr He Hp) as Hpipe. assert (Hwf : wf_cmd (PIPE l r)) by done.
    pose proof (back_of_pipe (PIPE l r) Hwf eq_refl Hpipe) as Hb.
    pose proof (line_of_back (PIPE l r) Hwf eq_refl Hb) as Hln.
    pose proof (exec_of_line (PIPE l r) Hwf eq_refl Hln). done.
  - destruct Hwf as [Hl Hr]. destruct (IHl Hl) as (_ & _ & Hb & _). destruct (IHr Hr) as (_ & _ & _ & Hln).
    pose proof (line_ok_list l r Hl Hr Hb Hln) as Hlist. assert (Hwf : wf_cmd (LIST l r)) by done.
    pose proof (exec_of_line (LIST l r) Hwf eq_refl Hlist) as He.
    pose proof (pipe_of_exec (LIST l r) Hwf eq_refl He) as Hp.
    pose proof (back_of_pipe (LIST l r) Hwf eq_refl Hp). done.
  - destruct (IH Hwf) as (_ & _ & Hb & _). pose proof (back_ok_back c Hwf Hb) as Hback.
    assert (Hwf' : wf_cmd (BACK c)) by done.
    pose proof (line_of_back (BACK c) Hwf' eq_refl Hback) as Hln.
    pose proof (exec_of_line (BACK c) Hwf' eq_refl Hln) as He.
    pose proof (pipe_of_exec (BACK c) Hwf' eq_refl He). done.
Qed.

(** ** Properties *)

(** C24: the shell's parser ends on every input line: the bound on the depth of its
    calls and of its loops is never reached, so the result is a command or a syntax
    error. *)
Theorem parsecmd_terminates (s : list Z) :
  (exists c, parsecmd s = Parsed c []) \/ (exists msg, parsecmd s = Syntax msg) \/
  (exists rest, parsecmd s = Leftovers rest /\ rest <> []).
Proof.
  unfold parsecmd. pose proof (parseline_within (S (length s)) s ltac:(lia)) as Hw.
  destruct (parseline (S (length s)) s) as [c rest|msg| |]; cbn [pbind]; [|right; left; by exists msg|done|done].
  destruct (peek rest []) as [b s']. destruct (bool_decide_reflect (s' = [])); [left; by exists c|].
  right; right. by exists s'.
Qed.

(** C23: parsing inverts printing: the text of a command, with parentheses where the
    grammar needs them, is parsed into the command it was printed from, whatever the
    nesting of pipes, lists, background commands, blocks and redirections. *)
Theorem parsecmd_show (c : cmd) : wf_cmd c -> parsecmd (render (show L_line c)) = Parsed c [].
Proof.
  intros Hwf. destruct (levels_ok c Hwf) as (_ & _ & _ & Hl). unfold parsecmd.
  pose proof (Hl [] (S (length (render (show L_line c)))) (Forall_nil_2 _)) as Hp. rewrite app_nil_r in Hp.
  rewrite Hp; [done|done|lia].
Qed.

(** (a > f ; b &) | c *)
Definition ex_cmd : cmd :=
  PIPE (LIST (redircmd (EXEC [[97]]) [102] R_out) (BACK (EXEC [[98]]))) (EXEC [[99]]).

Lemma parsecmd_show_witness :
  render (show L_line ex_cmd) = [40; 32; 97; 32; 62; 32; 102; 32; 59; 32; 98; 32; 38; 32; 41; 32; 124; 32; 99; 32] /\
  parsecmd (render (show L_line ex_cmd)) = Parsed ex_cmd [].
Proof.
  split; [reflexivity|]. apply parsecmd_show. cbn.
  repeat split; try lia; try (exists R_out; reflexivity); try discriminate;
    repeat (apply Forall_cons_2 || apply Forall_nil_2); repeat split; try discriminate;
    repeat (apply Forall_cons_2 || apply Forall_nil_2); by split.
Defined.
