(* ===== verification/Malloc.v ===== *)
(** * user/umalloc.c

    The storage allocator of user programs.  Free blocks are on a circular list
    through their headers, in the order of their addresses, with the static header
    [base] as the lowest node.  The theorems describe the allocator by the list of the
    free blocks: the list is sorted, neighbours never touch, [malloc] takes a block
    out of the memory it describes and [free] puts one back. *)

From stdpp Require Import gmap list fin_maps sorting.
From Stdlib Require Import ZArith Lia.
From S2P Require Import Prelude Machine.
Open Scope Z_scope.

(** The memory of the process, the static variable [freep], and the size of the
    process. *)
Record uheap := mk_uheap {
  umem : memory;
  freep : Z;
  brk : Z
}.

#[export] Instance eta_uheap : Eta uheap := fun s => mk_uheap (umem s) (freep s) (brk s).
Definition set_umem : memory -> uheap -> uheap := ltac:(make_setter umem).
Definition set_freep : Z -> uheap -> uheap := ltac:(make_setter freep).
Definition set_brk : Z -> uheap -> uheap := ltac:(make_setter brk).

(** ** Headers *)

(* @user/umalloc.c:11-17 header *)
Definition HEADER : Z := 16.

(** [p->s.ptr] and [p->s.size]. *)
Definition hptr (m : memory) (p : Z) : Z := ld64 m p.
Definition hsize (m : memory) (p : Z) : Z := ld32 m (p + 8).
Definition put_hptr (p v : Z) : M uheap unit := modify (fun s => set_umem (st64 (umem s) p v) s).
Definition put_hsize (p v : Z) : M uheap unit := modify (fun s => set_umem (st32 (umem s) (p + 8) (u32 v)) s).
Definition get_hptr (p : Z) : M uheap Z := gets (fun s => hptr (umem s) p).
Definition get_hsize (p : Z) : M uheap Z := gets (fun s => hsize (umem s) p).

Section Malloc.
(** The address of [base], and the number of list nodes a loop is followed for. *)
Context (base : Z) (fuel : nat).

(** [p + n] for a pointer to a header. *)
Definition units (p n : Z) : Z := u64 (p + HEADER * n).

(** ** free *)

(** One round of the loop that looks for the place of [bp]. *)
(* @user/umalloc.c free *)
Definition free_step (bp p : Z) : M uheap (Z + Z) :=
  let* q := get_hptr p in
  if (p <? bp) && (bp <? q) then ret (inr p)
  else if (q <=? p) && ((p <? bp) || (bp <? q)) then ret (inr p)
  else ret (inl q).

(* @user/umalloc.c free *)
Definition free (ap : Z) : M uheap unit :=
  let bp := u64 (ap - HEADER) in
  let* p := gets freep in
  let* p := iter fuel (free_step bp) p in
  let* n := get_hsize bp in
  let* q := get_hptr p in
  (if units bp n =? q then
     let* k := get_hsize q in
     put_hsize bp (n + k) ;;;
     let* q := get_hptr p in
     let* r := get_hptr q in
     put_hptr bp r
   else put_hptr bp q) ;;;
  let* n := get_hsize p in
  (if units p n =? bp then
     let* k := get_hsize bp in
     put_hsize p (n + k) ;;;
     let* r := get_hptr bp in
     put_hptr p r
   else put_hptr p bp) ;;;
  modify (set_freep p).

(** ** The free list *)

(** A block: the address of its header and its size in units of a header. *)
Abbreviation block := (Z * Z)%type.

Definition addr_of (l : list block) (last : Z) : Z :=
  match l with
  | [] => last
  | x :: _ => x.1
  end.

(** The blocks [l] are linked in this order, the last one to [last]. *)
Fixpoint chain (m : memory) (l : list block) (last : Z) : Prop :=
  match l with
  | [] => True
  | x :: l => hsize m x.1 = x.2 /\ hptr m x.1 = addr_of l last /\ chain m l last
  end.

(** [x] lies below [y], their headers do not overlap, and they do not touch. *)
Definition below (x y : block) : Prop := x.1 + HEADER <= y.1 /\ x.1 + HEADER * x.2 < y.1.

(** Memory [a] belongs to the block [x]. *)
Definition inside (a : Z) (x : block) : Prop := x.1 <= a < x.1 + HEADER * x.2.

Definition covered (l : list block) (a : Z) : Prop := exists x, x ∈ l /\ inside a x.

Record heap_ok (s : uheap) (fl : list block) : Prop := {
  heap_chain : chain (umem s) ((base, 0) :: fl) base;
  heap_sorted : StronglySorted below ((base, 0) :: fl);
  heap_sizes : Forall (fun x => 1 <= x.2 /\ x.1 + HEADER * x.2 <= brk s) fl;
  heap_freep : exists n, (freep s, n) ∈ (base, 0) :: fl;
  heap_base : 0 < base /\ base + HEADER <= brk s;
  heap_brk : brk s < 2 ^ 31
}.

(** Before the first [malloc]. *)
Definition heap_new (s : uheap) : Prop :=
  freep s = 0 /\ 0 < base /\ base + HEADER <= brk s < 2 ^ 31.

(** The block of [n] units at [b] is in use: its header holds [n], and it is in no free block. *)
Definition in_use (s : uheap) (fl : list block) (b n : Z) : Prop :=
  1 <= n /\ base + HEADER <= b /\ b + HEADER * n <= brk s /\ hsize (umem s) b = n /\
  Forall (fun x => b + HEADER * n <= x.1 \/ x.1 + HEADER * x.2 <= b) fl.

(** *** Headers in memory *)

Definition apart (p q : Z) : Prop := p + HEADER <= q \/ q + HEADER <= p.

Lemma hptr_same m p v : 0 <= v < 2 ^ 64 -> hptr (st64 m p v) p = v.
Proof. apply ld64_st64_same. Qed.

Lemma hptr_apart m p q v : apart p q -> hptr (st64 m p v) q = hptr m q.
Proof. unfold apart, HEADER. intros. apply ld64_st64_out. lia. Qed.

Lemma hsize_hptr m p q v : p = q \/ apart p q -> hsize (st64 m p v) q = hsize m q.
Proof.
  unfold apart, HEADER. intros. unfold hsize, ld32, st64. f_equal. apply ldbytes_stbytes_out.
  rewrite length_le_encode. lia.
Qed.

Lemma hsize_same m p v : 0 <= v < 2 ^ 32 -> hsize (st32 m (p + 8) (u32 v)) p = v.
Proof.
  intros Hv. unfold hsize, ld32, st32. pose proof (ldbytes_stbytes_same m (p + 8) (le_encode 4 (u32 v))) as H.
  rewrite length_le_encode in H. rewrite H, le_decode_encode, u32_id by done.
  change (256 ^ Z.of_nat 4) with (2 ^ 32). by apply Z.mod_small.
Qed.

Lemma hsize_apart m p q v : apart p q -> hsize (st32 m (p + 8) v) q = hsize m q.
Proof.
  unfold apart, HEADER. intros. unfold hsize, ld32, st32. f_equal. apply ldbytes_stbytes_out.
  rewrite length_le_encode. lia.
Qed.

Lemma hptr_hsize m p q v : p = q \/ apart p q -> hptr (st32 m (p + 8) v) q = hptr m q.
Proof.
  unfold apart, HEADER. intros. unfold hptr, ld64, st32. f_equal. apply ldbytes_stbytes_out.
  rewrite length_le_encode. lia.
Qed.

Lemma ld8_put_ptr m p v x : x < p \/ p + HEADER <= x -> ld8 (st64 m p v) x = ld8 m x.
Proof. unfold HEADER. intros. apply ld8_st64_out. lia. Qed.

Lemma ld8_put_size m p v x : x < p \/ p + HEADER <= x -> ld8 (st32 m (p + 8) v) x = ld8 m x.
Proof. unfold HEADER. intros. apply ld8_stbytes_out. rewrite length_le_encode. lia. Qed.

(** *** Chains *)

Lemma addr_of_app l1 l2 last : addr_of (l1 ++ l2) last = addr_of l1 (addr_of l2 last).
Proof. by destruct l1. Qed.

Lemma chain_app m l1 l2 last :
  chain m (l1 ++ l2) last <-> chain m l1 (addr_of l2 last) /\ chain m l2 last.
Proof.
  induction l1 as [|x l1 IH]; cbn [chain app]; [tauto|]. rewrite IH, addr_of_app. tauto.
Qed.

(** Headers that a store does not touch. *)
Lemma chain_put_ptr m l last p v :
  Forall (fun x => apart p x.1) l -> chain m l last -> chain (st64 m p v) l last.
Proof.
  induction 1 as [|x l Hx Hl IH]; [done|]. cbn [chain]. intros (H1 & H2 & H3).
  rewrite hsize_hptr, hptr_apart by auto. auto.
Qed.

Lemma chain_put_size m l last p v :
  Forall (fun x => apart p x.1) l -> chain m l last -> chain (st32 m (p + 8) v) l last.
Proof.
  induction 1 as [|x l Hx Hl IH]; [done|]. cbn [chain]. intros (H1 & H2 & H3).
  rewrite hptr_hsize, hsize_apart by auto. auto.
Qed.

(** *** Putting a block on the list *)

(** [x] followed by the higher blocks [l], in one with the first of them if they touch. *)
Definition join (x : block) (l : list block) : list block :=
  match l with
  | y :: l' => if x.1 + HEADER * x.2 =? y.1 then (x.1, x.2 + y.2) :: l' else x :: l
  | [] => [x]
  end.

(** Where a node lies, seen from the block of [n] units at [b]. *)
Definition left_of (b : Z) (y : block) : Prop := y.1 + HEADER <= b /\ y.1 + HEADER * y.2 <= b.
Definition right_of (b n : Z) (y : block) : Prop := b + HEADER * n <= y.1.

Lemma split_at b n l :
  0 <= n -> StronglySorted below l -> Forall (fun y => left_of b y \/ right_of b n y) l ->
  exists la lb, l = la ++ lb /\ Forall (left_of b) la /\ Forall (right_of b n) lb.
Proof.
  intros Hn Hs Hf. induction Hs as [|x l Hs IH Hx]; [by exists [], []|].
  apply Forall_cons in Hf as [[Hl|Hr] Hf].
  - destruct (IH Hf) as (la & lb & -> & Ha & Hb). exists (x :: la), lb. auto.
  - exists [], (x :: l). split; [done|]. split; [done|]. constructor; [done|].
    eapply Forall_impl; [exact Hx|]. unfold below, right_of, HEADER in *. intros y. lia.
Qed.

Lemma covered_cons x l a : covered (x :: l) a <-> inside a x \/ covered l a.
Proof. unfold covered. set_solver. Qed.

Lemma covered_app l1 l2 a : covered (l1 ++ l2) a <-> covered l1 a \/ covered l2 a.
Proof. unfold covered. set_solver. Qed.

Lemma covered_join x l a :
  0 <= x.2 -> Forall (fun y => 0 <= y.2) l -> covered (join x l) a <-> inside a x \/ covered l a.
Proof.
  intros Hx Hl. destruct l as [|y l]; cbn [join]; [apply covered_cons|].
  apply Forall_cons in Hl as [Hy _]. destruct (Z.eqb_spec (x.1 + HEADER * x.2) y.1) as [E|]; rewrite !covered_cons; [|done].
  assert (Hi : inside a (x.1, x.2 + y.2) <-> inside a x \/ inside a y); [|tauto].
  unfold inside, HEADER in *. cbn [fst snd]. lia.
Qed.

Lemma sorted_join x l :
  0 <= x.2 -> Forall (fun y => 1 <= y.2 /\ left_of y.1 x) l -> StronglySorted below l ->
  StronglySorted below (join x l).
Proof.
  intros Hx Hl Hs. destruct l as [|y l]; cbn [join]; [by repeat constructor|].
  apply StronglySorted_inv in Hs as [Hs Hy]. apply Forall_cons in Hl as [[Hy1 Hxy] Hl].
  rewrite Forall_forall in Hy, Hl. destruct (Z.eqb_spec (x.1 + HEADER * x.2) y.1) as [E|E].
  - constructor; [done|]. apply Forall_forall. intros z Hz. specialize (Hy z Hz).
    unfold below, HEADER in *. cbn [fst snd]. lia.
  - constructor; [constructor; [done|by apply Forall_forall]|]. constructor.
    + unfold below, left_of, HEADER in *. lia.
    + apply Forall_forall. intros z Hz. specialize (Hy z Hz). unfold below, left_of, HEADER in *. lia.
Qed.

Lemma join_length x l : (length (join x l) <= S (length l))%nat.
Proof. destruct l; cbn [join]; [done|]. destruct (_ =? _); cbn; lia. Qed.

Lemma join_keeps x l y : 0 <= x.2 -> y ∈ l -> exists z, z ∈ join x l /\ y.2 <= z.2.
Proof.
  intros Hx Hy. destruct l as [|w l]; cbn [join]; [by apply not_elem_of_nil in Hy|].
  destruct (_ =? _).
  - apply elem_of_cons in Hy as [->|Hy]; [exists (x.1, x.2 + w.2); split; [by left|cbn; lia]|].
    exists y. split; [by right|done].
  - exists y. split; [by right|done].
Qed.

(** The first block of the result starts where [x] does; the others are of [l]. *)
Lemma join_head x l : Forall (fun y => 0 <= y.2) l ->
  exists k l', join x l = (x.1, k) :: l' /\ x.2 <= k /\ forall y, y ∈ l' -> y ∈ l.
Proof.
  intros Hl. destruct l as [|y l]; cbn [join]; [exists x.2, []; destruct x; set_solver by lia|].
  apply Forall_cons in Hl as [Hy Hl]. destruct (_ =? _).
  - exists (x.2 + y.2), l. split; [done|]. split; [lia|]. intros z. by right.
  - exists x.2, (y :: l). destruct x. done.
Qed.

Lemma join_bound x l top :
  x.1 + HEADER * x.2 <= top -> Forall (fun y => 0 <= y.2 /\ y.1 + HEADER * y.2 <= top) l ->
  Forall (fun y => y.1 + HEADER * y.2 <= top) (join x l).
Proof.
  intros Hx Hl. assert (Hl' : Forall (fun y => y.1 + HEADER * y.2 <= top) l) by (eapply Forall_impl; [exact Hl|naive_solver]).
  destruct l as [|y l]; cbn [join]; [by constructor|].
  apply Forall_cons in Hl as [[H0 H1] _]. destruct (Z.eqb_spec (x.1 + HEADER * x.2) y.1) as [E|].
  - apply Forall_cons in Hl' as [_ Hl']. constructor; [cbn; unfold HEADER in *; lia|done].
  - by constructor.
Qed.

(** *** The search of [free] *)

Lemma wp_get_hptr p (Q : Z -> uheap -> Prop) s : Q (hptr (umem s) p) s -> wp (get_hptr p) Q s.
Proof. done. Qed.

Lemma wp_get_hsize p (Q : Z -> uheap -> Prop) s : Q (hsize (umem s) p) s -> wp (get_hsize p) Q s.
Proof. done. Qed.

Lemma free_pass_left b l p r last k (Q : Z -> uheap -> Prop) s :
  chain (umem s) (l ++ p :: r) last -> StronglySorted below (l ++ [p]) -> Forall (left_of b) (l ++ [p]) ->
  wp (iter k (free_step b) p.1) Q s -> wp (iter (length l + k) (free_step b) (addr_of l p.1)) Q s.
Proof.
  intros Hc Hs Hf HQ. induction l as [|x l IH]; [done|].
  cbn [app] in *. apply StronglySorted_inv in Hs as [Hs Hx]. apply Forall_cons in Hf as [Hfx Hf].
  cbn [length Nat.add iter addr_of]. destruct Hc as (_ & Hp & Hc). unfold free_step at 1.
  wstep. wstep. apply wp_get_hptr. rewrite Hp, addr_of_app. cbn [addr_of].
  assert (Hn : x.1 < addr_of l p.1 < b).
  { destruct l as [|y l]; cbn [app addr_of] in *; apply Forall_cons in Hx as [Hx _]; apply Forall_cons in Hf as [Hf _];
      unfold below, left_of, HEADER in *; lia. }
  destruct (Z.ltb_spec b (addr_of l p.1)); [lia|]. rewrite andb_false_r.
  destruct (Z.leb_spec (addr_of l p.1) x.1); [lia|]. cbn [andb]. wstep. by apply IH.
Qed.

Lemma free_pass_right b n l k (Q : Z -> uheap -> Prop) s :
  0 <= n -> base < b -> chain (umem s) l base -> StronglySorted below l -> Forall (right_of b n) l ->
  wp (iter k (free_step b) base) Q s -> wp (iter (length l + k) (free_step b) (addr_of l base)) Q s.
Proof.
  intros Hn Hb Hc Hs Hf HQ. induction l as [|x l IH]; [done|].
  apply StronglySorted_inv in Hs as [Hs Hx]. apply Forall_cons in Hf as [Hfx Hf].
  cbn [length Nat.add iter addr_of]. destruct Hc as (_ & Hp & Hc). unfold free_step at 1.
  wstep. wstep. apply wp_get_hptr. rewrite Hp. unfold right_of, HEADER in Hfx.
  destruct (Z.ltb_spec x.1 b); [lia|]. cbn [andb orb].
  assert (Hnx : ((addr_of l base <=? x.1) && (b <? addr_of l base)) = false).
  { destruct l as [|y l]; cbn [addr_of]; [destruct (Z.ltb_spec b base); [lia|apply andb_false_r]|].
    apply Forall_cons in Hx as [Hx _]. unfold below, HEADER in Hx. destruct (Z.leb_spec y.1 x.1); [lia|done]. }
  rewrite Hnx. wstep. by apply IH.
Qed.

(** At the last node before the block the search ends. *)
Lemma free_stop b n p l2 k (Q : Z -> uheap -> Prop) s :
  0 < n -> base <= p.1 -> hptr (umem s) p.1 = addr_of l2 base -> left_of b p -> Forall (right_of b n) l2 ->
  Q p.1 s -> wp (iter (S k) (free_step b) p.1) Q s.
Proof.
  intros Hn Hb Hp Hl Hf HQ. cbn [iter]. unfold free_step at 1. wstep. wstep. apply wp_get_hptr. rewrite Hp.
  unfold left_of, HEADER in Hl. destruct (Z.ltb_spec p.1 b); [|lia]. cbn [andb orb].
  destruct l2 as [|y l2]; cbn [addr_of].
  - destruct (b <? base); [by wsteps|]. destruct (Z.leb_spec base p.1); [by wsteps|lia].
  - apply Forall_cons in Hf as [Hy _]. unfold right_of, HEADER in Hy.
    destruct (Z.ltb_spec b y.1); [by wsteps|lia].
Qed.

(** The last part of a list from one of its elements on. *)
Lemma suffix_to {A} (x : A) l p : x ∈ l ++ [p] -> exists la lb, l = la ++ lb /\ head (lb ++ [p]) = Some x.
Proof.
  intros (la & lb & E)%list_elem_of_split. destruct (exists_last (l := x :: lb)) as (lc & z & Ec); [done|].
  rewrite Ec, (app_assoc la) in E. apply app_inj_tail in E as [-> ->]. exists la, lc. split; [done|]. by rewrite <- Ec.
Qed.

Lemma addr_of_head l p x : head (l ++ [p]) = Some x -> addr_of l p.1 = x.1.
Proof. destruct l; cbn; congruence. Qed.

Lemma wp_free_search s fl b n l1 p l2 (Q : Z -> uheap -> Prop) :
  heap_ok s fl -> (base, 0) :: fl = l1 ++ p :: l2 -> 0 < n -> base < b ->
  Forall (left_of b) (l1 ++ [p]) -> Forall (right_of b n) l2 -> (length fl < fuel)%nat ->
  Q p.1 s -> wp (iter fuel (free_step b) (freep s)) Q s.
Proof.
  intros [Hc Hs Hsz [fn Hfp] [Hb0 _] _] E Hn Hb Hl Hr Hfuel HQ. rewrite E in Hc, Hs, Hfp.
  assert (Hlen : S (length fl) = (length l1 + S (length l2))%nat).
  { transitivity (length ((base, 0) :: fl)); [done|]. by rewrite E, length_app. }
  assert (Hbase : base <= p.1).
  { destruct l1 as [|x l1]; cbn in E; injection E as <- E; [cbn; lia|].
    apply StronglySorted_inv in Hs as [_ Hs]. apply Forall_app in Hs as [_ Hs]. apply Forall_cons in Hs as [Hs _].
    unfold below, HEADER in Hs. cbn in Hs. lia. }
  replace (l1 ++ p :: l2) with ((l1 ++ [p]) ++ l2) in Hs, Hfp by (by rewrite <- app_assoc).
  pose proof (StronglySorted_app_1_l _ _ _ Hs) as Hs1. pose proof (StronglySorted_app_1_r _ _ _ Hs) as Hs2.
  pose proof Hc as (Hc1 & Hc2)%chain_app. cbn [chain] in Hc2. destruct Hc2 as (_ & Hp & Hc2).
  assert (Hstop : forall k, wp (iter (S k) (free_step b) p.1) Q s).
  { intros k. eapply free_stop; [exact Hn|done|done| |done|done]. apply Forall_app in Hl as [_ Hl]. by apply Forall_cons in Hl as [Hl _]. }
  apply elem_of_app in Hfp as [Hfp|Hfp].
  - apply suffix_to in Hfp as (la & lb & -> & Hh). rewrite <- app_assoc in Hc, Hs1, Hl. rewrite length_app in Hlen.
    replace fuel with (length lb + S (fuel - length lb - 1))%nat by lia.
    change (freep s) with (freep s, fn).1. rewrite <- (addr_of_head _ _ _ Hh). apply chain_app in Hc as [_ Hc].
    eapply free_pass_left; [exact Hc|by eapply StronglySorted_app_1_r|by apply Forall_app in Hl as [_ ?]|apply Hstop].
  - apply list_elem_of_split in Hfp as (la & lb & ->). rewrite length_app in Hlen. cbn [length] in Hlen.
    apply StronglySorted_app_1_r in Hs2. apply chain_app in Hc2 as [_ Hc2]. apply Forall_app in Hr as [_ Hr].
    replace fuel with (length ((freep s, fn) :: lb) + (length l1 + S (fuel - S (length lb) - length l1 - 1)))%nat by (cbn; lia).
    change (freep s) with (addr_of ((freep s, fn) :: lb) base).
    eapply (free_pass_right b n); [lia|done|done|done|done|].
    replace base with (addr_of l1 p.1); [|by destruct l1; cbn in E; injection E as <- _].
    by eapply free_pass_left.
Qed.

(** *** Linking a block to the next one, or joining the two *)

Definition link_mem (m : memory) (x n y : Z) : memory :=
  if x + HEADER * n =? y
  then let m' := st32 m (x + 8) (u32 (n + hsize m y)) in st64 m' x (hptr m' y)
  else st64 m x y.

Lemma chain_link_other m x n y l last :
  Forall (fun z => apart x z.1) l -> chain m l last -> chain (link_mem m x n y) l last.
Proof.
  intros. unfold link_mem. destruct (_ =? _); [by apply chain_put_ptr, chain_put_size|by apply chain_put_ptr].
Qed.

Lemma ld8_link_mem m x n y a : a < x \/ x + HEADER <= a -> ld8 (link_mem m x n y) a = ld8 m a.
Proof.
  intros. unfold link_mem. destruct (_ =? _); [by rewrite ld8_put_ptr, ld8_put_size|by apply ld8_put_ptr].
Qed.

Lemma chain_link m x l last :
  chain m l last -> hsize m x.1 = x.2 -> Forall (fun z => apart x.1 z.1) l ->
  Forall (fun z => 0 <= z.1 < 2 ^ 31 /\ 0 <= z.2 < 2 ^ 31) (x :: l) -> 0 <= last < 2 ^ 31 ->
  (l = [] -> x.1 + HEADER * x.2 <> last) ->
  chain (link_mem m x.1 x.2 (addr_of l last)) (join x l) last.
Proof.
  intros Hc Hx Ha Hr Hlast Hne. apply Forall_cons in Hr as [Hrx Hr].
  pose proof (chain_link_other m x.1 x.2 (addr_of l last) l last Ha Hc) as Hc'. revert Hc'. unfold link_mem.
  destruct l as [|y l]; cbn [join addr_of].
  - destruct (Z.eqb_spec (x.1 + HEADER * x.2) last) as [E|_]; [by destruct (Hne eq_refl)|]. intros _.
    cbn [chain addr_of]. split; [rewrite hsize_hptr by (by left); exact Hx|]. split; [apply hptr_same; lia|done].
  - destruct Hc as (Hy1 & Hy2 & Hc). apply Forall_cons in Ha as [Hay Ha]. apply Forall_cons in Hr as [Hry Hr].
    destruct (Z.eqb_spec (x.1 + HEADER * x.2) y.1) as [E|E]; intros Hc'; cbn [chain addr_of].
    + destruct Hc' as (_ & _ & Hc'). rewrite hsize_hptr by (by left). rewrite hptr_hsize in Hc' |- * by (by right).
      rewrite Hy1, Hy2 in Hc' |- *. split; [apply hsize_same; cbn; lia|]. split; [|done]. apply hptr_same.
      destruct l as [|z l]; cbn [addr_of]; [lia|]. apply Forall_cons in Hr as [Hr _]. lia.
    + split; [rewrite hsize_hptr by (by left); exact Hx|]. split; [apply hptr_same; lia|done].
Qed.

Lemma wp_link x q (Q : unit -> uheap -> Prop) s (pq : M uheap Z) :
  0 <= x -> 0 <= hsize (umem s) x -> x + HEADER * hsize (umem s) x < 2 ^ 64 ->
  (forall t, umem t = st32 (umem s) (x + 8) (u32 (hsize (umem s) x + hsize (umem s) q)) ->
     forall Q' : Z -> uheap -> Prop, Q' q t -> wp pq Q' t) ->
  Q tt (set_umem (link_mem (umem s) x (hsize (umem s) x) q) s) ->
  wp (if units x (hsize (umem s) x) =? q then
        let* k := get_hsize q in
        put_hsize x (hsize (umem s) x + k) ;;;
        let* q := pq in
        let* r := get_hptr q in
        put_hptr x r
      else put_hptr x q) Q s.
Proof.
  intros Hx Hn Hlt Hpq HQ. unfold units, link_mem in *. rewrite u64_id in * by (unfold HEADER in *; lia).
  destruct (_ =? _).
  - wstep. apply wp_get_hsize. wstep. unfold put_hsize. wstep. wstep. apply Hpq; [by fields|].
    wstep. apply wp_get_hptr. unfold put_hptr. wstep. exact HQ.
  - unfold put_hptr. wstep. exact HQ.
Qed.

(** *** What [free] makes of the list *)

Lemma Forall_left_right s fl b n :
  heap_ok s fl -> in_use s fl b n -> Forall (fun y => left_of b y \/ right_of b n y) ((base, 0) :: fl).
Proof.
  intros [_ _ Hsz _ _ _] (Hn & Hb & _ & _ & Hd). constructor.
  - left. unfold left_of, HEADER in *. cbn. lia.
  - rewrite Forall_forall in *. intros y Hy. specialize (Hsz y Hy). specialize (Hd y Hy).
    unfold left_of, right_of, HEADER in *. lia.
Qed.

Definition free_list (l1 : list block) (p x : block) (l2 : list block) : list block := l1 ++ join p (join x l2).

Section FreeList.
Context (s : uheap) (fl l1 l2 : list block) (p : block) (b n : Z).
Context (Hok : heap_ok s fl) (Hin : in_use s fl b n) (E : (base, 0) :: fl = l1 ++ p :: l2).
Context (Hl : Forall (left_of b) (l1 ++ [p])) (Hr : Forall (right_of b n) l2).

Lemma all_sizes : Forall (fun y => 0 <= y.2 /\ y.1 + HEADER * y.2 <= brk s) (l1 ++ p :: l2).
Proof.
  rewrite <- E. destruct Hok as [_ _ Hsz _ [? Hb] _]. constructor; [unfold HEADER in *; cbn; lia|].
  eapply Forall_impl; [exact Hsz|]. intros y ?. cbn beta in *. lia.
Qed.

Lemma right_sizes : Forall (fun y => 1 <= y.2 /\ y.1 + HEADER * y.2 <= brk s) l2.
Proof.
  destruct Hok as [_ _ Hsz _ _ _]. destruct l1 as [|y l1']; cbn in E; injection E as _ E'.
  - by rewrite <- E'.
  - rewrite E' in Hsz. apply Forall_app in Hsz as [_ Hsz]. by apply Forall_cons in Hsz as [_ ?].
Qed.

Lemma right_sizes0 : Forall (fun y => 0 <= y.2) l2.
Proof. eapply Forall_impl; [exact right_sizes|]. cbn beta. intros; lia. Qed.

Lemma joined_sorted : StronglySorted below (join (b, n) l2).
Proof.
  destruct Hin as (Hn & _). apply sorted_join; [cbn; lia| |].
  - pose proof right_sizes as Hsz. rewrite Forall_forall in *. intros y Hy. specialize (Hsz y Hy). specialize (Hr y Hy).
    unfold left_of, right_of, HEADER in *. cbn. lia.
  - destruct Hok as [_ Hs _ _ _ _]. rewrite E in Hs. apply StronglySorted_app_1_r in Hs. by apply StronglySorted_inv in Hs as [? _].
Qed.

Lemma left_p : left_of b p.
Proof. apply Forall_app in Hl as [_ H]. by apply Forall_cons in H as [? _]. Qed.

(** The blocks above [p] in the new list. *)
Lemma joined_above : Forall (fun y => 1 <= y.2 /\ left_of y.1 p) (join (b, n) l2).
Proof.
  destruct Hin as (Hn & _). pose proof left_p as Hp. pose proof right_sizes as Hsz.
  destruct (join_head (b, n) l2 right_sizes0) as (k & l' & -> & Hk & Hsub). cbn [fst snd] in *.
  constructor; [cbn; split; [lia|done]|]. rewrite Forall_forall in *. intros y Hy%Hsub.
  specialize (Hsz y Hy). specialize (Hr y Hy). unfold left_of, right_of, HEADER in *. lia.
Qed.

Lemma free_list_sorted : StronglySorted below (free_list l1 p (b, n) l2).
Proof.
  pose proof all_sizes as Hsz. destruct Hok as [_ Hs _ _ _ _]. rewrite E in Hs. apply StronglySorted_app in Hs as (Hbel & Hs1 & Hs2).
  apply Forall_app in Hsz as [_ Hsz]. apply Forall_cons in Hsz as [Hp _].
  apply StronglySorted_app. split; [|split; [done|]].
  - intros x y Hx Hy. assert (Hxp : below x p) by (apply Hbel; [done|by left]).
    destruct (join_head p (join (b, n) l2)) as (k & l' & Ej & Hk & Hsub).
    { eapply Forall_impl; [exact joined_above|]. cbn beta. intros; lia. }
    rewrite Ej in Hy. apply elem_of_cons in Hy as [->|Hy].
    + unfold below, HEADER in *. cbn. lia.
    + apply Hsub in Hy. pose proof joined_above as Hab. rewrite Forall_forall in Hab. specialize (Hab y Hy).
      unfold below, left_of, HEADER in *. lia.
  - apply sorted_join; [lia|exact joined_above|exact joined_sorted].
Qed.

Lemma free_list_covered a : covered (free_list l1 p (b, n) l2) a <-> covered fl a \/ inside a (b, n).
Proof.
  destruct Hin as (Hn & _). pose proof all_sizes as Hsz. apply Forall_app in Hsz as [_ Hsz]. apply Forall_cons in Hsz as [Hp _].
  unfold free_list. rewrite covered_app, covered_join, covered_join.
  - assert (Hc : covered ((base, 0) :: fl) a <-> covered fl a).
    { rewrite covered_cons. unfold inside, HEADER. cbn. split; [intros [?|?]; [lia|done]|auto]. }
    rewrite <- Hc, E, covered_app, covered_cons. tauto.
  - cbn. lia.
  - exact right_sizes0.
  - lia.
  - eapply Forall_impl; [exact joined_above|]. cbn beta. intros; lia.
Qed.

(** [base] stays the first node. *)
Lemma free_list_base : exists fl', free_list l1 p (b, n) l2 = (base, 0) :: fl' /\
  Forall (fun x => 1 <= x.2 /\ x.1 + HEADER * x.2 <= brk s) fl' /\ (length fl' <= S (length fl))%nat /\
  (exists k, (p.1, k) ∈ (base, 0) :: fl') /\ exists x, x ∈ fl' /\ n <= x.2.
Proof.
  pose proof Hin as (Hn & Hb & Hbn & _). pose proof left_p as Hp. pose proof joined_above as Hab.
  assert (Hab0 : Forall (fun y => 0 <= y.2) (join (b, n) l2)) by (eapply Forall_impl; [exact Hab|cbn beta; intros; lia]).
  assert (HL : Forall (fun x => 1 <= x.2 /\ x.1 + HEADER * x.2 <= brk s) (join (b, n) l2)).
  { apply Forall_and. split; [eapply Forall_impl; [exact Hab|by intros ? []]|]. apply join_bound; [done|].
    eapply Forall_impl; [exact right_sizes|]. cbn beta. intros; lia. }
  assert (Hk : exists y, y ∈ join (b, n) l2 /\ n <= y.2).
  { destruct (join_head (b, n) l2 right_sizes0) as (k & l' & -> & Hk & _). exists (b, k). split; [by left|done]. }
  pose proof (join_length (b, n) l2) as Hlen. pose proof (join_head (b, n) l2 right_sizes0) as Hhd. unfold free_list.
  destruct l1 as [|z l1']; cbn [app] in E |- *; injection E as E1 E2.
  - subst p. exists (join (b, n) l2). subst fl. split_and!; [|done|done|exists 0; by left|done].
    destruct Hhd as (k & l' & -> & _). cbn [join fst snd]. unfold left_of, HEADER in *. cbn in *.
    destruct (Z.eqb_spec (base + 16 * 0) b); [lia|done].
  - subst z fl. exists (l1' ++ join p (join (b, n) l2)). pose proof (join_length p (join (b, n) l2)).
    destruct Hok as [_ _ Hsz _ _ _]. apply Forall_app in Hsz as [Hsz1 Hsz]. apply Forall_cons in Hsz as [Hpz Hsz].
    destruct (join_head p (join (b, n) l2) Hab0) as (j & l' & Ej & Hj & Hsub). split_and!; [done| | | |].
    + apply Forall_app. split; [done|]. apply Forall_and. split.
      * rewrite Ej. constructor; [cbn; lia|]. rewrite Forall_forall in HL |- *. intros y Hy%Hsub%HL. lia.
      * apply join_bound; [lia|]. eapply Forall_impl; [exact HL|]. cbn beta. intros; lia.
    + rewrite !length_app. cbn [length]. lia.
    + exists j. right. apply elem_of_app. right. rewrite Ej. by left.
    + destruct Hk as (y & Hy & Hny). destruct (join_keeps p (join (b, n) l2) y) as (x & Hx & Hxy); [lia|done|].
      exists x. split; [apply elem_of_app; by right|lia].
Qed.

(** The memory after the two links. *)
Definition freed_right : memory := link_mem (umem s) b n (addr_of l2 base).
Definition freed_mem : memory := link_mem freed_right p.1 p.2 b.

Lemma apart_block : Forall (fun z => apart b z.1) (l1 ++ p :: l2).
Proof.
  destruct Hin as (Hn & _). replace (l1 ++ p :: l2) with ((l1 ++ [p]) ++ l2) by (by rewrite <- app_assoc).
  apply Forall_app. split; [eapply Forall_impl; [exact Hl|]|eapply Forall_impl; [exact Hr|]];
    unfold left_of, right_of, apart, HEADER; intros; lia.
Qed.

(** Addresses and sizes are those of a small process. *)
Lemma all_small : Forall (fun z => 0 <= z.1 < 2 ^ 31 /\ 0 <= z.2 < 2 ^ 31) (l1 ++ p :: l2).
Proof.
  pose proof all_sizes as Hsz. rewrite <- E in *. destruct Hok as [_ Hs _ _ [Hb Hb'] Htop].
  apply StronglySorted_inv in Hs as [_ Hs]. rewrite Forall_cons in Hsz |- *. destruct Hsz as [H0 Hsz].
  split; [unfold HEADER in *; cbn in *; lia|]. rewrite Forall_forall in *. intros y Hy.
  specialize (Hs y Hy). specialize (Hsz y Hy). unfold below, HEADER in *. cbn in *. lia.
Qed.

Lemma freed_right_chain :
  chain freed_right (join (b, n) l2) base /\ chain freed_right (l1 ++ [p]) (addr_of l2 base).
Proof.
  pose proof apart_block as Hap. pose proof all_small as Hsm. destruct Hin as (Hn & Hb & Hbn & Hh & _).
  destruct Hok as [Hc _ _ _ [Hb0 Hb1] Htop]. rewrite E in Hc.
  replace (l1 ++ p :: l2) with ((l1 ++ [p]) ++ l2) in Hap, Hsm, Hc by (by rewrite <- app_assoc).
  apply Forall_app in Hap as [Hap1 Hap2]. apply Forall_app in Hsm as [_ Hsm]. apply chain_app in Hc as [Hc1 Hc2].
  split; [|by apply chain_link_other].
  apply (chain_link (umem s) (b, n)); [done|done|done| | |]; cbn [fst snd].
  - constructor; [unfold HEADER in *; cbn; lia|done].
  - unfold HEADER in *. lia.
  - intros _. unfold HEADER in *. lia.
Qed.

Lemma freed_mem_chain : chain freed_mem (free_list l1 p (b, n) l2) base.
Proof.
  destruct freed_right_chain as [Hc2 Hc1]. pose proof joined_above as Hab. pose proof all_small as Hsm.
  destruct free_list_base as (fl' & Efl & Hsz & _). pose proof Hin as (Hn & Hb & Hbn & _). pose proof left_p as Hp.
  destruct Hok as [Hc Hs _ _ [Hb0 Hb1] Htop]. rewrite E in Hs. apply StronglySorted_app in Hs as (Hbel & _ & _).
  destruct (join_head (b, n) l2 right_sizes0) as (k & l' & Ej & Hk & Hsub).
  assert (Haddr : addr_of (join (b, n) l2) base = b) by (by rewrite Ej).
  apply chain_app in Hc1 as [Hc1 (Hp1 & _ & _)]. apply chain_app. split.
  - replace (addr_of (join p (join (b, n) l2)) base) with p.1.
    + apply chain_link_other; [|done]. apply Forall_forall. intros x Hx.
      assert (below x p) by (apply Hbel; [done|by left]). unfold apart, below, HEADER in *. lia.
    + rewrite Ej. cbn [join]. by destruct (_ =? _).
  - unfold freed_mem. pose proof (chain_link freed_right p (join (b, n) l2) base) as HL. rewrite Haddr in HL.
    apply HL; [done|done| | | |].
    + eapply Forall_impl; [exact Hab|]. unfold left_of, apart. intros y Hy. cbn beta in *. lia.
    + apply Forall_app in Hsm as [_ Hsm]. apply Forall_cons in Hsm as [Hsp Hsm]. constructor; [done|].
      assert (Hbd : Forall (fun y => y.1 + HEADER * y.2 <= brk s) (join (b, n) l2)).
      { apply join_bound; [done|]. eapply Forall_impl; [exact right_sizes|]. cbn beta. intros; lia. }
      rewrite Forall_forall in *. intros y Hy. specialize (Hab y Hy). specialize (Hbd y Hy).
      unfold left_of, HEADER in *. lia.
    + unfold HEADER in *. lia.
    + rewrite Ej. done.
Qed.

Lemma freed_mem_frame a : ~ inside a (p.1, 1) -> ~ inside a (b, n) -> ld8 freed_mem a = ld8 (umem s) a.
Proof.
  destruct Hin as (Hn & _). unfold inside, HEADER. cbn [fst snd]. intros H1 H2. unfold freed_mem, freed_right.
  rewrite !ld8_link_mem by (unfold HEADER; lia). done.
Qed.
End FreeList.

(** Memory outside the free blocks [fl] and the header [base]. *)
Definition in_free (fl : list block) (a : Z) : Prop := covered fl a \/ inside a (base, 1).

Lemma in_free_node s fl x a : heap_ok s fl -> x ∈ (base, 0) :: fl -> inside a (x.1, 1) -> in_free fl a.
Proof.
  intros [_ _ Hsz _ _ _] [->|Hx]%elem_of_cons Ha; [by right|]. left. exists x. split; [done|].
  rewrite Forall_forall in Hsz. specialize (Hsz x Hx). unfold inside, HEADER in *. cbn in *. lia.
Qed.

Lemma wp_free s fl b n (Q : unit -> uheap -> Prop) :
  heap_ok s fl -> in_use s fl b n -> (length fl < fuel)%nat ->
  (forall s' fl', heap_ok s' fl' -> brk s' = brk s -> (length fl' <= S (length fl))%nat ->
     (forall a, covered fl' a <-> covered fl a \/ inside a (b, n)) ->
     (exists x, x ∈ fl' /\ n <= x.2) ->
     (forall a, ~ in_free fl a -> ~ inside a (b, n) -> ld8 (umem s') a = ld8 (umem s) a) -> Q tt s') ->
  wp (free (b + HEADER)) Q s.
Proof.
  intros Hok Hin Hfuel HQ. pose proof Hin as (Hn & Hb & Hbn & Hh & _). pose proof Hok as [Hc Hs _ _ [Hb0 Hb1] Htop].
  destruct (split_at b n ((base, 0) :: fl)) as (la & l2 & E & Hl & Hr); [lia|done|by eapply Forall_left_right|].
  destruct (exists_last (l := la)) as (l1 & p & ->).
  { intros ->. cbn in E. rewrite <- E in Hr. apply Forall_cons in Hr as [Hr _]. unfold right_of, HEADER in *. cbn in *. lia. }
  rewrite <- app_assoc in E. cbn [app] in E.
  pose proof (freed_right_chain s fl l1 l2 p b n Hok Hin E Hl Hr) as [_ Hc1].
  pose proof (all_small s fl l1 l2 p b n Hok E Hl Hr) as Hsm. apply Forall_app in Hsm as [_ Hsm]. apply Forall_cons in Hsm as [Hsp _].
  apply chain_app in Hc1 as [_ (Hp1 & _)].
  assert (Hpt : hptr (umem s) p.1 = addr_of l2 base) by (rewrite E in Hc; by apply chain_app in Hc as [_ (_ & ? & _)]).
  unfold free. replace (u64 (b + HEADER - HEADER)) with b by (rewrite Z.add_simpl_r; symmetry; apply u64_id; unfold HEADER in *; lia).
  wstep. wstep. wstep. eapply wp_free_search; [done|exact E|instantiate (1 := n); lia|unfold HEADER in *; lia|done|done|done|].
  wstep. apply wp_get_hsize. wstep. apply wp_get_hptr. rewrite Hpt. wstep.
  apply (wp_link b (addr_of l2 base) _ s (get_hptr p.1)); [unfold HEADER in *; lia..| |].
  { intros t Ht Q' HQ'. apply wp_get_hptr. rewrite Ht, hptr_hsize, Hpt; [done|]. right.
    apply Forall_app in Hl as [_ Hl]. apply Forall_cons in Hl as [Hl _]. unfold left_of, apart in *. lia. }
  rewrite Hh. fold (freed_right s l2 b n). wstep. apply wp_get_hsize. wstep.
  eapply (wp_link p.1 b _ (set_umem (freed_right s l2 b n) s) (ret b)); fields; rewrite ?Hp1; [lia|lia|unfold HEADER; lia|by intros; wstep|].
  fold (freed_mem s l2 p b n). wstep.
  destruct (free_list_base s fl l1 l2 p b n Hok Hin E Hl Hr) as (fl' & Efl & Hsz & Hlen & Hfp & Hbig).
  apply (HQ _ fl'); fields; [|done|done| |done|].
  - split; fields; [|by rewrite <- Efl; eapply free_list_sorted|done|done|done|done].
    rewrite <- Efl. by eapply freed_mem_chain.
  - intros a. rewrite <- (free_list_covered s fl l1 l2 p b n Hok Hin E Hl Hr a), Efl, covered_cons.
    unfold inside, HEADER. cbn. split; [auto|intros [?|?]; [lia|done]].
  - intros a Ha Ha'. eapply freed_mem_frame; [done| |done]. intros Hi. apply Ha.
    eapply in_free_node; [done| |exact Hi]. rewrite E. apply elem_of_app. right. by left.
Qed.

(** ** malloc *)

(** Whether the kernel has the memory to grow a process of the given size. *)
Context (grants : Z -> Z -> bool).

(** [sbrk] as the process sees it: [sys_sbrk] returns the old size as an [int];
    [growproc] adds at 32 bits, and a negative [n] that makes the size larger is
    ignored. *)
(* @kernel/sysproc.c sys_sbrk *)
Definition sbrk (n : Z) : M uheap Z :=
  let n := i32 n in
  let* sz := gets brk in
  if 0 <? n then
    if grants sz n then modify (set_brk (u32 (sz + n))) ;;; ret (u64 (i32 sz))
    else ret (u64 (-1))
  else if n <? 0 then
    modify (set_brk (Z.min sz (u32 (sz + n)))) ;;; ret (u64 (i32 sz))
  else ret (u64 (i32 sz)).

(* @user/umalloc.c morecore *)
Definition morecore (nu : Z) : M uheap Z :=
  let nu := if nu <? 4096 then 4096 else nu in
  let* p := sbrk (u64 (nu * HEADER)) in
  if p =? u64 (-1) then ret 0
  else
  put_hsize p nu ;;;
  free (units p 1) ;;;
  gets freep.

(* @user/umalloc.c malloc *)
Definition nunits (nbytes : Z) : Z := u32 (u64 (nbytes + HEADER - 1) / HEADER + 1).

(** One round of the search, from [prevp] and [p]. *)
(* @user/umalloc.c malloc *)
Definition malloc_step (nunits : Z) (pp : Z * Z) : M uheap (Z * Z + Z) :=
  let '(prevp, p) := pp in
  let* n := get_hsize p in
  if nunits <=? n then
    let* p :=
      (if n =? nunits then
         let* r := get_hptr p in
         put_hptr prevp r ;;;
         ret p
       else
         put_hsize p (n - nunits) ;;;
         let* n := get_hsize p in
         let p := units p n in
         put_hsize p nunits ;;;
         ret p) in
    modify (set_freep prevp) ;;;
    ret (inr (units p 1))
  else
    let* fp := gets freep in
    if p =? fp then
      let* p := morecore nunits in
      if p =? 0 then ret (inr 0)
      else let* q := get_hptr p in ret (inl (p, q))
    else let* q := get_hptr p in ret (inl (p, q)).

(* @user/umalloc.c malloc *)
Definition malloc (nbytes : Z) : M uheap Z :=
  let* fp := gets freep in
  let* prevp :=
    (if fp =? 0 then
       put_hptr base base ;;;
       modify (set_freep base) ;;;
       put_hsize base 0 ;;;
       ret base
     else ret fp) in
  let* p := get_hptr prevp in
  iter fuel (malloc_step (nunits nbytes)) (prevp, p).

(** *** Taking a block off the list *)

Section Take.
Context (s : uheap) (fl1 fl2 : list block) (x : block) (n : Z).
Context (Hok : heap_ok s (fl1 ++ x :: fl2)) (Hn : 1 <= n <= x.2).

Lemma take_low : Forall (fun z => below z x) ((base, 0) :: fl1).
Proof.
  destruct Hok as [_ Hs _ _ _ _]. apply (StronglySorted_app below ((base, 0) :: fl1)) in Hs as (Hb & _ & _).
  apply Forall_forall. intros z Hz. apply Hb; [done|by left].
Qed.

Lemma take_high : Forall (below x) fl2.
Proof.
  destruct Hok as [_ Hs _ _ _ _]. apply (StronglySorted_app_1_r below ((base, 0) :: fl1)) in Hs.
  by apply StronglySorted_inv in Hs as [_ ?].
Qed.

Lemma take_sorted k : 1 <= k <= x.2 -> StronglySorted below ((base, 0) :: fl1 ++ (x.1, k) :: fl2).
Proof.
  intros Hk. pose proof take_low as Hlo. pose proof take_high as Hhi. destruct Hok as [_ Hs _ _ _ _].
  apply (StronglySorted_app below ((base, 0) :: fl1)) in Hs as (Hb & Hs1 & Hs2).
  apply (StronglySorted_app below ((base, 0) :: fl1)). split; [|split; [done|]].
  - intros z w Hz Hw. apply elem_of_cons in Hw as [->|Hw]; [|apply Hb; [done|by right]].
    rewrite Forall_forall in Hlo. apply (Hlo z Hz).
  - apply StronglySorted_inv in Hs2 as [Hs2 _]. constructor; [done|]. eapply Forall_impl; [exact Hhi|].
    unfold below, HEADER. cbn. intros z Hz. lia.
Qed.

Lemma take_sorted_out : StronglySorted below ((base, 0) :: fl1 ++ fl2).
Proof.
  destruct Hok as [_ Hs _ _ _ _]. apply (StronglySorted_app below ((base, 0) :: fl1)) in Hs as (Hb & Hs1 & Hs2).
  apply (StronglySorted_app below ((base, 0) :: fl1)). apply StronglySorted_inv in Hs2 as [Hs2 _]. split; [|done].
  intros z w Hz Hw. apply Hb; [done|by right].
Qed.

Lemma take_sizes : 1 <= x.2 /\ x.1 + HEADER * x.2 <= brk s /\
  Forall (fun x => 1 <= x.2 /\ x.1 + HEADER * x.2 <= brk s) (fl1 ++ fl2).
Proof.
  destruct Hok as [_ _ Hsz _ _ _]. apply Forall_app in Hsz as [H1 H2]. apply Forall_cons in H2 as [Hx H2].
  split; [lia|]. split; [lia|]. by apply Forall_app.
Qed.

(** Blocks other than [x] lie outside it. *)
Lemma take_others : Forall (fun z => x.1 + HEADER * x.2 <= z.1 \/ z.1 + HEADER * z.2 <= x.1) (fl1 ++ fl2).
Proof.
  pose proof take_low as Hlo. pose proof take_high as Hhi. apply Forall_cons in Hlo as [_ Hlo]. apply Forall_app. split.
  - eapply Forall_impl; [exact Hlo|]. unfold below. intros z Hz. lia.
  - eapply Forall_impl; [exact Hhi|]. unfold below. intros z Hz. lia.
Qed.

Lemma take_range : base + HEADER <= x.1.
Proof. pose proof take_low as Hlo. apply Forall_cons in Hlo as [Hlo _]. apply Hlo. Qed.
End Take.

(** What [malloc] returns when it finds room: the block of [n] units at [b]. *)
Record taken (s : uheap) (fl : list block) (n b : Z) (s' : uheap) (fl' : list block) : Prop := {
  taken_ok : heap_ok s' fl';
  taken_use : in_use s' fl' b n;
  taken_brk : brk s' = brk s;
  taken_length : (length fl' <= length fl)%nat;
  taken_covered a : covered fl a <-> covered fl' a \/ inside a (b, n);
  taken_frame a : ~ in_free fl a -> ld8 (umem s') a = ld8 (umem s) a
}.

Lemma take_whole s fl1 fl2 x P y :
  heap_ok s (fl1 ++ x :: fl2) -> (base, 0) :: fl1 = P ++ [y] ->
  taken s (fl1 ++ x :: fl2) x.2 x.1
    (set_freep y.1 (set_umem (st64 (umem s) y.1 (hptr (umem s) x.1)) s)) (fl1 ++ fl2).
Proof.
  intros Hok E. pose proof (take_low s fl1 fl2 x Hok) as Hlo. pose proof (take_high s fl1 fl2 x Hok) as Hhi.
  pose proof (take_sizes s fl1 fl2 x Hok) as (Hx1 & Hx2 & Hsz). pose proof (take_range s fl1 fl2 x Hok) as Hrg.
  pose proof Hok as [Hc Hs _ _ [Hb0 Hb1] Htop].
  assert (Hyx : below y x).
  { rewrite E in Hlo. apply Forall_app in Hlo as [_ Hlo]. by apply Forall_cons in Hlo as [? _]. }
  assert (Hnode : (y.1, y.2) ∈ (base, 0) :: fl1).
  { rewrite E. apply elem_of_app. right. destruct y. by left. }
  change ((base, 0) :: fl1 ++ x :: fl2) with (((base, 0) :: fl1) ++ x :: fl2) in Hc, Hs. rewrite E in Hc, Hs.
  apply chain_app in Hc as [Hc1 (Hcx & Hpx & Hc2)]. apply chain_app in Hc1 as [Hc1 (Hcy & _ & _)].
  apply StronglySorted_app in Hs as (_ & Hs1 & _). apply StronglySorted_app in Hs1 as (Hpy & _ & _).
  assert (Hnx : 0 <= addr_of fl2 base < 2 ^ 64).
  { destruct fl2 as [|z fl2]; cbn [addr_of]; [unfold HEADER in *; lia|]. apply Forall_app in Hsz as [_ Hsz].
    apply Forall_cons in Hsz as [Hsz _]. apply Forall_cons in Hhi as [Hhi _]. unfold below, HEADER in *. lia. }
  split; fields; [split; fields| | | | |].
  - change ((base, 0) :: fl1 ++ fl2) with (((base, 0) :: fl1) ++ fl2). rewrite E, Hpx. apply chain_app. split; [apply chain_app; split|].
    + apply chain_put_ptr; [|done]. apply Forall_forall. intros z Hz. specialize (Hpy z y Hz ltac:(by left)).
      unfold below, apart in *. lia.
    + cbn [chain addr_of]. split; [rewrite hsize_hptr by (by left); done|]. split; [by apply hptr_same|done].
    + apply chain_put_ptr; [|done]. eapply Forall_impl; [exact Hhi|]. unfold below, apart, HEADER in *. intros z Hz. lia.
  - by eapply take_sorted_out.
  - done.
  - exists y.2. apply elem_of_cons in Hnode as [->|Hnode]; [by left|]. right. apply elem_of_app. by left.
  - done.
  - done.
  - unfold in_use. fields. split; [done|]. split; [done|]. split; [done|]. split.
    + rewrite hsize_hptr; [done|]. right. unfold below, apart in *. lia.
    + by eapply take_others.
  - done.
  - rewrite !length_app. cbn. lia.
  - intros a. rewrite !covered_app, covered_cons. destruct x. tauto.
  - intros a Ha. apply ld8_put_ptr. destruct (decide (inside a (y.1, 1))) as [Hi|Hi].
    + destruct Ha. eapply (in_free_node s _ (y.1, y.2)); [done| |exact Hi].
      apply elem_of_cons in Hnode as [->|Hnode]; [by left|]. right. apply elem_of_app. by left.
    + unfold inside, HEADER in *. cbn in *. lia.
Qed.

Lemma take_tail s fl1 fl2 x n y k :
  heap_ok s (fl1 ++ x :: fl2) -> y ∈ (base, 0) :: fl1 -> 1 <= n -> 1 <= k -> k + n = x.2 ->
  let m := st32 (umem s) (x.1 + 8) (u32 k) in
  let b := x.1 + HEADER * k in
  taken s (fl1 ++ x :: fl2) n b (set_freep y.1 (set_umem (st32 m (b + 8) (u32 n)) s)) (fl1 ++ (x.1, k) :: fl2).
Proof.
  intros Hok Hy Hn Hk Hkn m b. pose proof (take_low s fl1 fl2 x Hok) as Hlo. pose proof (take_high s fl1 fl2 x Hok) as Hhi.
  pose proof (take_sizes s fl1 fl2 x Hok) as (Hx1 & Hx2 & Hsz). pose proof (take_range s fl1 fl2 x Hok) as Hrg.
  pose proof (take_others s fl1 fl2 x Hok) as Hot. pose proof Hok as [Hc Hs _ _ [Hb0 Hb1] Htop].
  assert (Hk32 : 0 <= k < 2 ^ 32) by (unfold HEADER in *; lia). assert (Hn32 : 0 <= n < 2 ^ 32) by (unfold HEADER in *; lia).
  assert (Hxb : apart x.1 b) by (unfold apart, b, HEADER; lia).
  assert (Hbx : apart b x.1) by (unfold apart, b, HEADER; lia).
  change ((base, 0) :: fl1 ++ x :: fl2) with (((base, 0) :: fl1) ++ x :: fl2) in Hc.
  apply chain_app in Hc as [Hc1 (Hcx & Hpx & Hc2)].
  assert (Ha1 : forall p, p = x.1 \/ p = b -> Forall (fun z => apart p z.1) ((base, 0) :: fl1)).
  { intros p Hp. eapply Forall_impl; [exact Hlo|]. unfold below, apart, b, HEADER in *. intros z Hz. lia. }
  assert (Ha2 : forall p, p = x.1 \/ p = b -> Forall (fun z => apart p z.1) fl2).
  { intros p Hp. eapply Forall_impl; [exact Hhi|]. unfold below, apart, b, HEADER in *. intros z Hz. lia. }
  split; fields; [split; fields| | | | |].
  - change ((base, 0) :: fl1 ++ (x.1, k) :: fl2) with (((base, 0) :: fl1) ++ (x.1, k) :: fl2). apply chain_app. split.
    + apply chain_put_size; [by apply Ha1; right|]. apply chain_put_size; [by apply Ha1; left|done].
    + cbn [chain fst snd]. unfold m. rewrite hsize_apart, hptr_hsize by auto. split; [by apply hsize_same|].
      split; [rewrite hptr_hsize by (by left); done|].
      apply chain_put_size; [by apply Ha2; right|]. apply chain_put_size; [by apply Ha2; left|done].
  - eapply take_sorted; [done|lia].
  - apply Forall_app in Hsz as [Hz1 Hz2]. apply Forall_app. split; [done|]. constructor; [cbn; unfold HEADER in *; lia|done].
  - exists y.2. destruct y as [ya yn]. apply elem_of_cons in Hy as [->|Hy]; [by left|]. right. apply elem_of_app. by left.
  - done.
  - done.
  - unfold in_use. fields. split; [lia|]. split; [unfold b, HEADER in *; lia|]. split; [unfold b, HEADER in *; lia|].
    split; [by apply hsize_same|]. apply Forall_app in Hot as [Ho1 Ho2]. apply Forall_app. split; [|constructor].
    + eapply Forall_impl; [exact Ho1|]. unfold b, HEADER. cbn beta. intros z Hz. lia.
    + right. cbn. unfold b, HEADER. lia.
    + eapply Forall_impl; [exact Ho2|]. unfold b, HEADER. cbn beta. intros z Hz. lia.
  - done.
  - rewrite !length_app. done.
  - intros a. rewrite !covered_app, !covered_cons.
    assert (Hi : inside a x <-> inside a (x.1, k) \/ inside a (b, n)); [|tauto].
    unfold inside, b, HEADER. cbn. lia.
  - intros a Ha. assert (Hi : ~ inside a x).
    { intros Hi. apply Ha. left. exists x. split; [|done]. apply elem_of_app. right. by left. }
    unfold m. rewrite !ld8_put_size; [done|..]; unfold inside, b, HEADER in *; cbn in *; lia.
Qed.

(** *** The search of [malloc] *)

(** The last element of [y :: l]. *)
Fixpoint final {A} (y : A) (l : list A) : A :=
  match l with
  | [] => y
  | z :: l => final z l
  end.

Lemma final_app {A} (y : A) l k : final y (l ++ k) = final (final y l) k.
Proof. revert y. induction l; intros; cbn; auto. Qed.

Lemma final_snoc {A} (y : A) l : y :: l = removelast (y :: l) ++ [final y l].
Proof. revert y. induction l as [|w l IH]; intros y; [done|]. change (removelast (y :: w :: l)) with (y :: removelast (w :: l)). cbn [app final]. by rewrite <- IH. Qed.

Lemma malloc_pass n y l x r last k (Q : Z -> uheap -> Prop) s :
  chain (umem s) (l ++ x :: r) last -> Forall (fun z => z.2 < n /\ z.1 <> freep s) l ->
  wp (iter k (malloc_step n) ((final y l).1, x.1)) Q s ->
  wp (iter (length l + k) (malloc_step n) (y.1, addr_of l x.1)) Q s.
Proof.
  revert y. induction l as [|z l IH]; intros y Hc Hf HQ; [done|].
  apply Forall_cons in Hf as [[Hz Hfz] Hf]. destruct Hc as (Hsz & Hp & Hc).
  cbn [length Nat.add iter addr_of]. unfold malloc_step at 1. wstep. wstep. apply wp_get_hsize. rewrite Hsz.
  destruct (Z.leb_spec n z.2); [lia|]. wstep. wstep. destruct (Z.eqb_spec z.1 (freep s)); [done|].
  wstep. apply wp_get_hptr. wstep. rewrite Hp. rewrite addr_of_app. cbn [addr_of]. by apply IH.
Qed.

(** The list from the node after [freep] on, around to [freep]. *)
Lemma rotation s fl : heap_ok s fl ->
  exists l1 f l2, (base, 0) :: fl = l1 ++ f :: l2 /\ f.1 = freep s /\
    chain (umem s) ((l2 ++ l1) ++ [f]) (addr_of l2 base) /\ hptr (umem s) (freep s) = addr_of (l2 ++ l1) f.1 /\
    Forall (fun z => z.1 <> freep s) (l2 ++ l1).
Proof.
  intros [Hc Hs _ [fn Hfp] _ _]. apply list_elem_of_split in Hfp as (l1 & l2 & E).
  exists l1, (freep s, fn), l2. split; [done|]. split; [done|].
  assert (Hbase : base = addr_of (l1 ++ [(freep s, fn)]) 0) by (destruct l1; cbn in E |- *; by injection E as <- _).
  rewrite E in Hc, Hs. pose proof Hc as (Hc1 & Hc2)%chain_app. pose proof Hc2 as (_ & Hp & Hc3). split; [|split].
  - rewrite <- app_assoc. apply chain_app. split.
    + rewrite Hbase, addr_of_app in Hc3. by rewrite addr_of_app.
    + replace (l1 ++ _ :: l2) with ((l1 ++ [(freep s, fn)]) ++ l2) in Hc by (by rewrite <- app_assoc).
      by apply chain_app in Hc as [? _].
  - cbn [fst] in *. rewrite Hp, addr_of_app. f_equal. rewrite Hbase at 1. by rewrite addr_of_app.
  - apply StronglySorted_app in Hs as (Hb & _ & Hs2). apply StronglySorted_inv in Hs2 as [_ Hs2]. apply Forall_app. split.
    + eapply Forall_impl; [exact Hs2|]. unfold below, HEADER. cbn. intros; lia.
    + apply Forall_forall. intros z Hz. specialize (Hb z (freep s, fn) Hz ltac:(by left)). unfold below, HEADER in Hb. cbn in Hb. lia.
Qed.

Lemma first_fit n (l : list block) :
  Forall (fun z => z.2 < n) l \/ exists c1 x c2, l = c1 ++ x :: c2 /\ Forall (fun z => z.2 < n) c1 /\ n <= x.2.
Proof.
  induction l as [|z l [IH|(c1 & x & c2 & -> & H1 & H2)]].
  - by left.
  - destruct (Z.lt_ge_cases z.2 n); [left; by constructor|right]. by exists [], z, l.
  - right. destruct (Z.lt_ge_cases z.2 n); [exists (z :: c1), x, c2|exists [], z, (c1 ++ x :: c2)]; auto.
Qed.

(** The node before the block that is found is its predecessor in the list. *)
Lemma find_pred n fl l1 f l2 c1 x c2 :
  (base, 0) :: fl = l1 ++ f :: l2 -> (l2 ++ l1) ++ [f] = c1 ++ x :: c2 -> 1 <= n <= x.2 ->
  exists fl1 fl2 P, fl = fl1 ++ x :: fl2 /\ (base, 0) :: fl1 = P ++ [final f c1].
Proof.
  intros E Eu Hn. rewrite <- app_assoc in Eu. apply app_eq_inv in Eu as [(k & -> & Ek)|(k & -> & Ek)].
  - destruct k as [|x' k].
    + cbn [app] in Ek. rewrite app_nil_r in *. replace (l1 ++ f :: c1) with ((l1 ++ [f]) ++ c1) in E by (by rewrite <- app_assoc).
      rewrite <- Ek in E. cbn in E. injection E as <- E. cbn in Hn. lia.
    + cbn [app] in Ek. injection Ek as <- Ek. destruct l1 as [|z l1]; cbn [app] in E; injection E as <- ->.
      * exists c1, k. exists (removelast ((base, 0) :: c1)). split; [done|]. apply final_snoc.
      * exists (l1 ++ f :: c1), k, (((base, 0) :: l1) ++ removelast (f :: c1)). split; [by rewrite <- app_assoc|].
        by rewrite <- app_assoc, <- final_snoc.
  - replace (l1 ++ f :: l2) with ((l1 ++ [f]) ++ l2) in E by (by rewrite <- app_assoc).
    rewrite Ek, <- app_assoc in E. destruct k as [|z k]; cbn [app] in E; injection E as E1 ->; [subst; cbn in Hn; lia|]. subst z.
    exists k, (c2 ++ l2), (removelast ((base, 0) :: k)). split; [done|].
    rewrite final_app. cbn [final]. apply final_snoc.
Qed.

(** The round that finds a block. *)
Lemma wp_malloc_take s fl1 fl2 x n P y k (Q : Z -> uheap -> Prop) :
  heap_ok s (fl1 ++ x :: fl2) -> (base, 0) :: fl1 = P ++ [y] -> 1 <= n <= x.2 ->
  (forall b s' fl', taken s (fl1 ++ x :: fl2) n b s' fl' -> Q (b + HEADER) s') ->
  wp (iter (S k) (malloc_step n) (y.1, x.1)) Q s.
Proof.
  intros Hok E Hn HQ. pose proof (take_sizes s fl1 fl2 x Hok) as (Hx1 & Hx2 & _).
  pose proof (take_range s fl1 fl2 x Hok) as Hrg. pose proof Hok as [Hc _ _ _ [Hb0 _] Htop].
  apply (chain_app _ ((base, 0) :: fl1)) in Hc as [_ (Hcx & _ & _)].
  assert (Hu : forall p j, 0 <= p -> 0 <= j -> p + HEADER * j <= brk s -> units p j = p + HEADER * j).
  { intros p j ???. unfold units. apply u64_id. unfold HEADER in *. lia. }
  cbn [iter]. unfold malloc_step at 1. wstep. wstep. apply wp_get_hsize. rewrite Hcx.
  destruct (Z.leb_spec n x.2); [|lia]. wstep. destruct (Z.eqb_spec x.2 n) as [<-|Hne].
  - wstep. apply wp_get_hptr. unfold put_hptr. wsteps.
    rewrite Hu by (unfold HEADER in *; lia). rewrite Z.mul_1_r. apply (HQ _ _ (fl1 ++ fl2)). by apply (take_whole s fl1 fl2 x P).
  - unfold put_hsize. wstep. wstep. wstep. apply wp_get_hsize. fields.
    rewrite hsize_same by (unfold HEADER in *; lia). rewrite Hu by (unfold HEADER in *; lia). wsteps.
    rewrite Hu by (unfold HEADER in *; lia). rewrite Z.mul_1_r. fields. apply (HQ _ _ (fl1 ++ (x.1, x.2 - n) :: fl2)).
    apply take_tail; [done| |lia|lia|lia]. rewrite E. apply elem_of_app. right. by left.
Qed.

Lemma wp_malloc_find s fl n k (Q : Z -> uheap -> Prop) :
  heap_ok s fl -> 1 <= n -> (exists z, z ∈ fl /\ n <= z.2) -> (length fl < k)%nat ->
  (forall b s' fl', taken s fl n b s' fl' -> Q (b + HEADER) s') ->
  wp (iter k (malloc_step n) (freep s, hptr (umem s) (freep s))) Q s.
Proof.
  intros Hok Hn (z & Hz & Hnz) Hk HQ. destruct (rotation s fl Hok) as (l1 & f & l2 & E & Hf & Hc & Hp & Hne).
  assert (Hlen : S (length fl) = length ((l2 ++ l1) ++ [f])).
  { transitivity (length ((base, 0) :: fl)); [done|]. rewrite E, !length_app. cbn. lia. }
  destruct (first_fit n ((l2 ++ l1) ++ [f])) as [Hsm|(c1 & x & c2 & Eu & Hsm & Hx)].
  { exfalso. rewrite Forall_forall in Hsm. apply (Z.lt_irrefl n). eapply Z.le_lt_trans; [exact Hnz|]. apply Hsm.
    assert (Hin : z ∈ l1 ++ f :: l2) by (rewrite <- E; by right). set_solver. }
  destruct (find_pred n fl l1 f l2 c1 x c2 E Eu) as (fl1 & fl2 & P & -> & EP); [lia|].
  assert (Hc1 : exists t, l2 ++ l1 = c1 ++ t /\ addr_of (l2 ++ l1) f.1 = addr_of c1 x.1).
  { destruct (exists_last (l := x :: c2)) as (t & w & Et); [done|]. rewrite Et, app_assoc in Eu.
    pose proof Eu as [Eu' <-]%app_inj_tail. exists t. split; [done|]. rewrite Eu', addr_of_app. f_equal.
    destruct t; cbn in Et |- *; by injection Et as <- _. }
  destruct Hc1 as (t & Et & Ha). rewrite Eu in Hc, Hlen. rewrite Et in Hne. apply Forall_app in Hne as [Hne _].
  rewrite (length_app c1) in Hlen. cbn [length] in Hlen.
  replace k with (length c1 + S (k - length c1 - 1))%nat by lia. rewrite Hp, Ha, <- Hf.
  eapply malloc_pass; [exact Hc|apply Forall_and; by split|]. by eapply wp_malloc_take.
Qed.

(** No block is large enough: all nodes are passed, and [morecore] is called at the last one. *)
Lemma wp_malloc_full s fl n k (Q : Z -> uheap -> Prop) :
  heap_ok s fl -> 1 <= n -> Forall (fun z => z.2 < n) fl ->
  wp (morecore n) (fun p s' => if p =? 0 then Q 0 s' else wp (iter k (malloc_step n) (p, hptr (umem s') p)) Q s') s ->
  wp (iter (S (length fl) + k) (malloc_step n) (freep s, hptr (umem s) (freep s))) Q s.
Proof.
  intros Hok Hn Hsm HQ. destruct (rotation s fl Hok) as (l1 & f & l2 & E & Hf & Hc & Hp & Hne).
  assert (Hlen : length fl = length (l2 ++ l1)).
  { apply Nat.succ_inj. transitivity (length ((base, 0) :: fl)); [done|]. rewrite E, !length_app. cbn. lia. }
  assert (Hsm' : Forall (fun z => z.2 < n) (l1 ++ f :: l2)).
  { rewrite <- E. constructor; [cbn; lia|done]. }
  rewrite Forall_app, Forall_cons in Hsm'. destruct Hsm' as (Hs1 & Hsf & Hs2).
  rewrite Hp, <- Hf, Hlen. replace (S (length (l2 ++ l1)) + k)%nat with (length (l2 ++ l1) + S k)%nat by lia.
  eapply malloc_pass; [exact Hc|apply Forall_and; split; [by apply Forall_app|done]|].
  apply chain_app in Hc as [_ (Hcf & _ & _)].
  cbn [iter]. unfold malloc_step at 1. wstep. wstep. apply wp_get_hsize. rewrite Hcf.
  destruct (Z.leb_spec n f.2); [lia|]. wstep. wstep. rewrite Hf, Z.eqb_refl. wstep.
  eapply wp_mono; [exact HQ|]. intros p s' Hw. cbn beta in Hw. destruct (p =? 0); [by wsteps|].
  wstep. apply wp_get_hptr. wstep. exact Hw.
Qed.

(** *** Growing the process *)

(** The kernel does not let a process grow to 2 GB. *)
Context (Hgrants : forall sz n, grants sz n = true -> sz + n < 2 ^ 31).

(** The units asked of the kernel. *)
Definition core_units (nu : Z) : Z := if nu <? 4096 then 4096 else nu.

Lemma heap_ok_grow s fl d :
  heap_ok s fl -> 0 <= d -> brk s + d < 2 ^ 31 -> heap_ok (set_brk (brk s + d) s) fl.
Proof.
  intros [? ? Hsz ? [? ?] ?] Hd Hlt. split; fields; [done|done| |done|lia|lia].
  eapply Forall_impl; [exact Hsz|]. cbn beta. intros; lia.
Qed.

Lemma heap_ok_new_size s fl b v :
  heap_ok s fl -> Forall (fun z => apart b z.1) ((base, 0) :: fl) ->
  heap_ok (set_umem (st32 (umem s) (b + 8) v) s) fl.
Proof. intros [? ? ? ? ? ?] Ha. split; fields; try done. by apply chain_put_size. Qed.

(** What a successful [morecore] makes: the new memory is on the list. *)
Record grown (s : uheap) (fl : list block) (nu : Z) (s' : uheap) (fl' : list block) : Prop := {
  grown_ok : heap_ok s' fl';
  grown_brk : brk s' = brk s + HEADER * nu;
  grown_length : (length fl' <= S (length fl))%nat;
  grown_fits : exists z, z ∈ fl' /\ nu <= z.2;
  grown_covered a : covered fl' a <-> covered fl a \/ brk s <= a < brk s';
  grown_frame a : a < brk s -> ~ in_free fl a -> ld8 (umem s') a = ld8 (umem s) a
}.

Lemma wp_morecore s fl n (Q : Z -> uheap -> Prop) :
  heap_ok s fl -> 1 <= n < 2 ^ 27 -> (length fl < fuel)%nat ->
  (grants (brk s) (HEADER * core_units n) = false -> Q 0 s) ->
  (forall s' fl', grown s fl (core_units n) s' fl' -> Q (freep s') s') ->
  wp (morecore n) Q s.
Proof.
  intros Hok Hn Hfuel Hno Hyes. unfold morecore. fold (core_units n).
  assert (Hnu : 4096 <= core_units n < 2 ^ 27) by (unfold core_units; destruct (Z.ltb_spec n 4096); lia).
  generalize dependent (core_units n). clear n Hn. intros nu Hno Hyes Hnu.
  pose proof Hok as [_ Hs Hsz _ [Hb0 Hb1] Htop].
  unfold sbrk. replace (i32 (u64 (nu * HEADER))) with (HEADER * nu).
  2: { rewrite u64_id, i32_id; unfold HEADER; lia. }
  wstep. wstep. wstep. destruct (Z.ltb_spec 0 (HEADER * nu)); [|unfold HEADER in *; lia].
  destruct (grants (brk s) (HEADER * nu)) eqn:Eg; [|wstep; cbn [Z.eqb]; rewrite Z.eqb_refl; wstep; by apply Hno].
  apply Hgrants in Eg. rewrite u32_id by (unfold HEADER in *; lia). wstep. wstep. wstep.
  replace (u64 (i32 (brk s))) with (brk s) by (rewrite i32_id, u64_id; unfold HEADER in *; lia).
  destruct (Z.eqb_spec (brk s) (u64 (-1))) as [E|_]; [vm_compute (u64 (-1)) in E; lia|].
  replace (units (brk s) 1) with (brk s + HEADER) by (unfold units; rewrite u64_id; unfold HEADER in *; lia).
  unfold put_hsize. wstep. wstep. wstep.
  assert (Hap : Forall (fun z => apart (brk s) z.1) ((base, 0) :: fl)).
  { constructor; [unfold apart; cbn; lia|]. eapply Forall_impl; [exact Hsz|]. unfold apart, HEADER. cbn beta. intros; lia. }
  apply (heap_ok_grow _ _ (HEADER * nu)) in Hok; [|unfold HEADER; lia|done].
  eapply wp_free; [by apply heap_ok_new_size| |done|].
  { unfold in_use. fields. instantiate (1 := nu). split; [lia|]. split; [lia|]. split; [lia|].
    split; [apply hsize_same; lia|]. eapply Forall_impl; [exact Hsz|]. cbn beta. intros; lia. }
  intros s' fl' Hok' Hbrk Hlen Hcov Hbig Hfr. fields_in Hbrk. wsteps. apply (Hyes s' fl').
  split; [done|done|done|done| |].
  - intros a. rewrite Hcov, Hbrk. unfold inside. cbn. done.
  - intros a Ha Hna. rewrite Hfr; fields; [|done|unfold inside; cbn; lia]. apply ld8_put_size. lia.
Qed.

(** ** The specifications *)

(** The heap with the free blocks [fl]; before the first call there are none. *)
Definition heap_inv (s : uheap) (fl : list block) : Prop := heap_ok s fl \/ heap_new s /\ fl = [].

(** The block of [n] units at [b] was taken from the free blocks [fl] and the memory
    by which the process grew; the rest of both is in [fl']. *)
Record allocated (s : uheap) (fl : list block) (n b : Z) (s' : uheap) (fl' : list block) : Prop := {
  allocated_use : in_use s' fl' b n;
  allocated_brk : brk s <= brk s';
  allocated_covered a : covered fl' a \/ inside a (b, n) <-> covered fl a \/ brk s <= a < brk s'
}.

Definition malloc_post (s : uheap) (fl : list block) (n r : Z) (s' : uheap) (fl' : list block) : Prop :=
  heap_ok s' fl' /\ (length fl' <= S (length fl))%nat /\
  (forall a, a < brk s -> ~ in_free fl a -> ld8 (umem s') a = ld8 (umem s) a) /\
  (r = 0 /\ fl' = fl /\ brk s' = brk s /\ Forall (fun z => z.2 < n) fl /\ grants (brk s) (HEADER * core_units n) = false \/
   exists b, r = b + HEADER /\ allocated s fl n b s' fl').

Lemma in_free_mono fl fl' a : (forall a, covered fl' a -> covered fl a) -> in_free fl' a -> in_free fl a.
Proof. unfold in_free. intros H [?|?]; auto. Qed.

Lemma freep_nonzero s fl : heap_ok s fl -> freep s <> 0.
Proof.
  intros [_ Hs _ [fn Hfp] [Hb0 _] _]. apply elem_of_cons in Hfp as [Hfp|Hfp]; [injection Hfp as -> _; lia|].
  apply StronglySorted_inv in Hs as [_ Hs]. rewrite Forall_forall in Hs. specialize (Hs _ Hfp).
  unfold below, HEADER in Hs. cbn in Hs. lia.
Qed.

Lemma wp_malloc_search s fl n (Q : Z -> uheap -> Prop) :
  heap_ok s fl -> 1 <= n < 2 ^ 27 -> (2 * length fl + 4 <= fuel)%nat ->
  (forall r s' fl', malloc_post s fl n r s' fl' -> Q r s') ->
  wp (iter fuel (malloc_step n) (freep s, hptr (umem s) (freep s))) Q s.
Proof.
  intros Hok Hn Hfuel HQ. destruct (first_fit n fl) as [Hsm|(c1 & x & c2 & E & _ & Hx)].
  - replace fuel with (S (length fl) + (fuel - S (length fl)))%nat at 1 by lia.
    apply wp_malloc_full; [done|lia|done|]. apply (wp_morecore s fl); [done|done|lia| |].
    + intros Hno. cbn [Z.eqb]. apply (HQ 0 s fl). split; [done|]. split; [lia|]. split; [done|]. by left.
    + intros s1 fl1 [Hok1 Hbrk Hlen (z & Hz & Hfit) Hcov Hfr].
      assert (Hle : n <= core_units n) by (unfold core_units; destruct (Z.ltb_spec n 4096); lia).
      rewrite (proj2 (Z.eqb_neq _ _) (freep_nonzero _ _ Hok1)). apply (wp_malloc_find s1 fl1); [done|lia|exists z; split; [done|lia]|lia|].
      intros b s2 fl2 [Hok2 Huse Hbrk2 Hlen2 Hcov2 Hfr2]. apply (HQ _ s2 fl2). split; [done|]. split; [lia|]. split.
      * intros a Ha Hna. rewrite Hfr2, Hfr; [done|done|done|]. intros [Hi|Hi]; apply Hna; [|by right].
        apply Hcov in Hi as [Hi|Hi]; [by left|lia].
      * right. exists b. split; [done|]. split; [done|unfold HEADER in *; lia|]. intros a. rewrite <- Hcov2, Hcov, Hbrk2. done.
  - apply (wp_malloc_find s fl); [done|lia| |lia|].
    + exists x. split; [rewrite E; apply elem_of_app; right; by left|done].
    + intros b s' fl' [Hok' Huse Hbrk Hlen Hcov Hfr]. apply (HQ _ s' fl'). split; [done|]. split; [lia|]. split; [by intros a _ Ha; apply Hfr|].
      right. exists b. split; [done|]. split; [done|lia|]. intros a. rewrite <- Hcov, Hbrk. split; [auto|intros [?|?]; [done|lia]].
Qed.

Lemma heap_new_ok s : heap_new s ->
  heap_ok (set_umem (st32 (st64 (umem s) base base) (base + 8) (u32 0)) (set_freep base s)) [].
Proof.
  intros (_ & Hb & Hbrk). split; fields; [|by repeat constructor|done|exists 0; by left|lia|lia].
  cbn [chain addr_of fst snd]. rewrite hsize_same by done. rewrite hptr_hsize by (by left).
  rewrite hptr_same by (unfold HEADER in *; lia). done.
Qed.

Lemma wp_malloc s fl nbytes (Q : Z -> uheap -> Prop) :
  heap_inv s fl -> 0 <= nbytes <= 2 ^ 31 - 32 -> (2 * length fl + 4 <= fuel)%nat ->
  (forall r s' fl', malloc_post s fl (nunits nbytes) r s' fl' -> Q r s') ->
  wp (malloc nbytes) Q s.
Proof.
  intros Hinv Hnb Hfuel HQ.
  assert (Hn : 1 <= nunits nbytes < 2 ^ 27).
  { unfold nunits, HEADER. rewrite u64_id, u32_id by zdm. zdm. }
  unfold malloc. wstep. wstep. destruct Hinv as [Hok|[Hnew ->]].
  - rewrite (proj2 (Z.eqb_neq _ _) (freep_nonzero _ _ Hok)). wstep. wstep. wstep. apply wp_get_hptr. by eapply wp_malloc_search.
  - pose proof (heap_new_ok s Hnew) as Hok. destruct Hnew as (Hz & _). rewrite Hz. cbn [Z.eqb].
    unfold put_hptr, put_hsize. wsteps. apply wp_get_hptr. fields.
    pose proof (wp_malloc_search _ [] (nunits nbytes) Q Hok Hn Hfuel) as Hw. apply Hw. clear Hw.
    intros r s' fl' (Hok' & Hlen & Hfr & Hpost). fields_in Hpost. apply (HQ r s' fl'). split; [done|]. split; [done|]. split.
    + intros a Ha Hna. rewrite Hfr; fields; [|done|done]. assert (Hi : ~ inside a (base, 1)) by (intros ?; apply Hna; by right).
      unfold inside in Hi. cbn in Hi. rewrite ld8_put_size, ld8_put_ptr; [done|unfold HEADER in *; lia..].
    + destruct Hpost as [Hp|(b & Hb & [Hu Hbk Hcv])]; [by left|right]. fields_in Hbk. exists b. by split.
Qed.

(** Two lists of separate blocks that describe the same memory are equal. *)
Lemma covered_high x l a : StronglySorted below (x :: l) -> covered l a -> x.1 + HEADER * x.2 < a.
Proof.
  intros [_ Hs]%StronglySorted_inv (y & Hy & Ha). rewrite Forall_forall in Hs. specialize (Hs y Hy).
  unfold below, inside, HEADER in *. lia.
Qed.

Lemma covered_first x l a : 1 <= x.2 -> StronglySorted below (x :: l) -> covered (x :: l) a -> x.1 <= a.
Proof.
  intros Hx Hs [Hi|Hc]%covered_cons; [unfold inside in Hi; lia|]. apply (covered_high _ _ _ Hs) in Hc. unfold HEADER in Hc. lia.
Qed.

Lemma first_covered x l : 1 <= x.2 -> covered (x :: l) x.1.
Proof. intros. apply covered_cons. left. unfold inside, HEADER. lia. Qed.

Lemma first_size x y l k :
  1 <= y.2 -> x.1 = y.1 -> StronglySorted below (x :: l) -> (forall a, covered (y :: k) a -> covered (x :: l) a) -> y.2 <= x.2.
Proof.
  intros Hy E Hs Hc. destruct (Z.le_gt_cases y.2 x.2) as [|Hlt]; [done|exfalso].
  destruct (Z.le_gt_cases x.2 0) as [H0|H0].
  - specialize (Hc y.1 (first_covered y k Hy)). apply covered_cons in Hc as [Hi|Hi]; [unfold inside, HEADER in Hi; lia|].
    apply StronglySorted_inv in Hs as [_ Hs]. destruct Hi as (z & Hz & Hi). rewrite Forall_forall in Hs. specialize (Hs z Hz).
    unfold below, inside, HEADER in *. lia.
  - specialize (Hc (x.1 + HEADER * x.2)). apply covered_cons in Hc as [Hi|Hi].
    + unfold inside, HEADER in Hi. lia.
    + apply (covered_high _ _ _ Hs) in Hi. lia.
    + apply covered_cons. left. unfold inside, HEADER. lia.
Qed.

Lemma covered_unique l k :
  StronglySorted below l -> StronglySorted below k -> Forall (fun x => 1 <= x.2) l -> Forall (fun x => 1 <= x.2) k ->
  (forall a, covered l a <-> covered k a) -> l = k.
Proof.
  revert k. induction l as [|x l IH]; intros [|y k] Hl Hk Fl Fk Hc.
  - done.
  - apply Forall_cons in Fk as [Hy _]. destruct (proj2 (Hc y.1) (first_covered y k Hy)) as (z & Hz & _). by apply not_elem_of_nil in Hz.
  - apply Forall_cons in Fl as [Hx _]. destruct (proj1 (Hc x.1) (first_covered x l Hx)) as (z & Hz & _). by apply not_elem_of_nil in Hz.
  - apply Forall_cons in Fl as [Hx Fl]. apply Forall_cons in Fk as [Hy Fk].
    assert (E1 : x.1 = y.1).
    { pose proof (covered_first y k x.1 Hy Hk (proj1 (Hc x.1) (first_covered x l Hx))).
      pose proof (covered_first x l y.1 Hx Hl (proj2 (Hc y.1) (first_covered y k Hy))). lia. }
    assert (E2 : x.2 = y.2).
    { apply Z.le_antisymm; eapply first_size; try done; intros a; apply Hc. }
    assert (E : x = y) by (destruct x, y; cbn in *; congruence). subst y. f_equal. apply IH; [|..|done|done|].
    1-2: by eapply StronglySorted_inv.
    intros a. specialize (Hc a). rewrite !covered_cons in Hc.
    pose proof (covered_high x l a Hl) as H1. pose proof (covered_high x k a Hk) as H2. unfold inside in Hc.
    split; intros Ha; [specialize (H1 Ha)|specialize (H2 Ha)]; destruct Hc as [Hc1 Hc2]; [destruct Hc1|destruct Hc2]; auto; lia.
Qed.

(** A block in use stays in use when the free blocks stay away from it. *)
Lemma in_use_keep s fl s' fl' c k :
  in_use s fl c k -> heap_ok s' fl' -> brk s <= brk s' -> (forall a, inside a (c, k) -> ~ covered fl' a) ->
  (forall a, inside a (c, k) -> ld8 (umem s') a = ld8 (umem s) a) -> in_use s' fl' c k.
Proof.
  intros (Hk & Hb & Htop & Hsz & _) [_ _ Hfl _ _ _] Hbrk Hcov Hfr. split; [done|]. split; [done|]. split; [lia|]. split.
  - rewrite <- Hsz. unfold hsize, ld32. f_equal. apply ldbytes_ext. intros i Hi. apply Hfr. unfold inside, HEADER. cbn. lia.
  - rewrite Forall_forall in *. intros y Hy. specialize (Hfl y Hy).
    destruct (Z.le_gt_cases (c + HEADER * k) y.1) as [|H1]; [by left|].
    destruct (Z.le_gt_cases (y.1 + HEADER * y.2) c) as [|H2]; [by right|exfalso].
    apply (Hcov (Z.max c y.1)); [unfold inside, HEADER in *; cbn; lia|]. exists y. split; [done|]. unfold inside, HEADER in *. lia.
Qed.

Lemma in_use_free s fl c k a : in_use s fl c k -> inside a (c, k) -> ~ in_free fl a.
Proof.
  intros (Hk & Hb & _ & _ & Hf) Ha [(y & Hy & Hi)|Hi].
  - rewrite Forall_forall in Hf. specialize (Hf y Hy). unfold inside in *. cbn in *. lia.
  - unfold inside, HEADER in *. cbn in *. lia.
Qed.

(** C10: [malloc] of up to 2 GB ends, and either finds room or changes nothing it
    promised to keep.  On success the block has room for the bytes and a header, lies
    in none of the free blocks left, and is made of memory that was free or is new: the
    memory of the free blocks and of the block is exactly the memory of the old free
    blocks and that by which the process grew.  Every block in use is in use still, and
    keeps its contents.  It returns 0 only when no free block is large enough and the
    kernel has no memory left. *)
Theorem malloc_spec (s : uheap) (fl : list block) (nbytes : Z) :
  heap_inv s fl -> 0 <= nbytes <= 2 ^ 31 - 32 -> (2 * length fl + 4 <= fuel)%nat ->
  exists r s' fl', malloc nbytes s = Ok r s' /\ heap_ok s' fl' /\
    (forall c k, in_use s fl c k -> in_use s' fl' c k /\
       forall a, inside a (c, k) -> ld8 (umem s') a = ld8 (umem s) a) /\
    (r = 0 /\ fl' = fl /\ brk s' = brk s /\
       Forall (fun z => z.2 < nunits nbytes) fl /\ grants (brk s) (HEADER * core_units (nunits nbytes)) = false \/
     exists b n, r = b + HEADER /\ nbytes + HEADER <= HEADER * n < nbytes + 2 * HEADER /\ in_use s' fl' b n /\
       brk s <= brk s' /\ forall a, covered fl' a \/ inside a (b, n) <-> covered fl a \/ brk s <= a < brk s').
Proof.
  intros Hinv Hnb Hfuel.
  assert (Hw : wp (malloc nbytes) (fun r s' => exists fl', malloc_post s fl (nunits nbytes) r s' fl') s).
  { apply (wp_malloc s fl); [done..|]. eauto. }
  destruct (wp_run _ _ _ Hw) as (r & s' & Hr & fl' & Hok' & _ & Hfr & Hpost). exists r, s', fl'.
  split; [done|]. split; [done|].
  assert (Hkeep : forall c k a, in_use s fl c k -> inside a (c, k) -> ld8 (umem s') a = ld8 (umem s) a).
  { intros c k a Hu Ha. apply Hfr; [|by eapply in_use_free]. destruct Hu as (_ & _ & Htop & _).
    unfold inside in Ha. cbn in Ha. lia. }
  assert (Hn : nbytes + HEADER <= HEADER * nunits nbytes < nbytes + 2 * HEADER).
  { unfold nunits, HEADER. rewrite u64_id, u32_id by zdm. zdm. }
  destruct Hpost as [(-> & -> & Hbrk & Hsm & Hno)|(b & -> & [Hu Hbrk Hcov])].
  - split; [|by left]. intros c k Hc. split; [|by intros a; apply Hkeep].
    eapply in_use_keep; [exact Hc|done|lia| |by intros a; apply Hkeep].
    intros a Ha Hca. eapply in_use_free; [exact Hc|exact Ha|by left].
  - split; [|right; by exists b, (nunits nbytes)]. intros c k Hc. split; [|by intros a; apply Hkeep].
    eapply in_use_keep; [exact Hc|done|done| |by intros a; apply Hkeep].
    intros a Ha Hca. destruct (proj1 (Hcov a) (or_introl Hca)) as [Hfa|Hfa].
    + eapply in_use_free; [exact Hc|exact Ha|by left].
    + destruct Hc as (_ & _ & Htop & _). unfold inside in Ha. cbn in Ha. lia.
Qed.

(** C22: [free] of a block in use ends and adds the memory of the block, and nothing else,
    to the free memory; the list stays sorted, its blocks never touch, so that free
    memory is joined with what lies on both sides of it.  Every other block in use is
    in use still and keeps its contents. *)
Theorem free_spec (s : uheap) (fl : list block) (b n : Z) :
  heap_ok s fl -> in_use s fl b n -> (length fl < fuel)%nat ->
  exists s' fl', free (b + HEADER) s = Ok tt s' /\ heap_ok s' fl' /\ brk s' = brk s /\
    (forall a, covered fl' a <-> covered fl a \/ inside a (b, n)) /\
    (forall c k, in_use s fl c k -> (forall a, inside a (c, k) -> ~ inside a (b, n)) ->
       in_use s' fl' c k /\ forall a, inside a (c, k) -> ld8 (umem s') a = ld8 (umem s) a).
Proof.
  intros Hok Hu Hfuel.
  assert (Hw : wp (free (b + HEADER)) (fun _ s' => exists fl', heap_ok s' fl' /\ brk s' = brk s /\
     (forall a, covered fl' a <-> covered fl a \/ inside a (b, n)) /\
     (forall a, ~ in_free fl a -> ~ inside a (b, n) -> ld8 (umem s') a = ld8 (umem s) a)) s).
  { eapply wp_free; [done..|]. intros s' fl' ? ? _ ? _ ?. by exists fl'. }
  destruct (wp_run_unit _ _ _ Hw) as (s' & Hr & fl' & Hok' & Hbrk & Hcov & Hfr). exists s', fl'.
  do 4 (split; [done|]). intros c k Hc Hd.
  assert (Hkeep : forall a, inside a (c, k) -> ld8 (umem s') a = ld8 (umem s) a).
  { intros a Ha. apply Hfr; [by eapply in_use_free|by apply Hd]. }
  split; [|done]. eapply in_use_keep; [exact Hc|done|lia| |done].
  intros a Ha [Hca|Hca]%Hcov; [eapply in_use_free; [exact Hc|exact Ha|by left]|by eapply Hd].
Qed.

(** freeing the block that [malloc] just returned gives back the free list as it was,
    when [malloc] did not have to grow the process. *)
Theorem malloc_free (s : uheap) (fl : list block) (nbytes r : Z) (s' : uheap) :
  heap_ok s fl -> 0 <= nbytes <= 2 ^ 31 - 32 -> (2 * length fl + 4 <= fuel)%nat ->
  malloc nbytes s = Ok r s' -> r <> 0 -> brk s' = brk s ->
  exists s'', free r s' = Ok tt s'' /\ heap_ok s'' fl /\ brk s'' = brk s.
Proof.
  intros Hok Hnb Hfuel Hm Hnz Hbrk.
  assert (Hw : wp (malloc nbytes) (fun r s' => exists fl', malloc_post s fl (nunits nbytes) r s' fl') s).
  { apply (wp_malloc s fl); [by left|done..|]. eauto. }
  unfold wp in Hw. rewrite Hm in Hw. destruct Hw as (fl' & Hok' & Hlen & _ & [(? & _)|(b & -> & [Hu _ Hcov])]); [done|].
  assert (Hf : wp (free (b + HEADER)) (fun _ s'' => heap_ok s'' fl /\ brk s'' = brk s) s').
  { eapply wp_free; [done|done|lia|]. intros s'' fl'' Hok'' Hb'' _ Hcov'' _ _. split; [|congruence].
    replace fl with fl''; [done|]. destruct Hok as [_ Hs1 Hz1 _ _ _]. pose proof Hok'' as [_ Hs2 Hz2 _ _ _].
    apply StronglySorted_inv in Hs1 as [Hs1 _]. apply StronglySorted_inv in Hs2 as [Hs2 _].
    apply covered_unique; [done|done|by eapply Forall_impl; [exact Hz2|intros ? []]|by eapply Forall_impl; [exact Hz1|intros ? []]|].
    intros a. rewrite Hcov'', Hcov, Hbrk. split; [intros [?|?]; [done|lia]|auto]. }
  destruct (wp_run_unit _ _ _ Hf) as (s'' & ? & ? & ?). by exists s''.
Qed.

(** The same calls when the product in [morecore] does not fit an [int]. *)
Lemma wp_morecore_wraps s (Q : Z -> uheap -> Prop) :
  heap_ok s [] -> grants (brk s) HEADER = true -> (1 <= fuel)%nat ->
  (forall s', brk s' = brk s + HEADER -> freep s' = base -> hptr (umem s') base = brk s ->
     hptr (umem s') (brk s) = base -> hsize (umem s') (brk s) = 2 ^ 28 + 1 -> Q base s') ->
  wp (morecore (2 ^ 28 + 1)) Q s.
Proof.
  intros Hok Hg Hfuel HQ. pose proof Hok as [Hc _ _ _ [Hb0 Hb1] Htop]. pose proof (Hgrants _ _ Hg) as Hlt. destruct Hc as (Hbs & _ & _).
  unfold morecore, sbrk. change (2 ^ 28 + 1 <? 4096) with false. cbn iota.
  change (i32 (u64 ((2 ^ 28 + 1) * HEADER))) with HEADER. change (0 <? HEADER) with true. cbn iota.
  wstep. wstep. wstep. rewrite Hg. rewrite u32_id by (unfold HEADER in *; lia). wstep. wstep. wstep.
  replace (u64 (i32 (brk s))) with (brk s) by (rewrite i32_id, u64_id; unfold HEADER in *; lia).
  destruct (Z.eqb_spec (brk s) (u64 (-1))) as [E|_]; [vm_compute (u64 (-1)) in E; lia|].
  replace (units (brk s) 1) with (brk s + HEADER) by (unfold units; rewrite u64_id; unfold HEADER in *; lia).
  unfold put_hsize at 1. wstep. wstep. wstep. unfold free.
  replace (u64 (brk s + HEADER - HEADER)) with (brk s) by (rewrite Z.add_simpl_r, u64_id; unfold HEADER in *; lia).
  apply (heap_ok_grow _ _ HEADER) in Hok; [|unfold HEADER; lia|done].
  assert (Hap : apart (brk s) base) by (unfold apart; lia).
  assert (Hap' : apart base (brk s)) by (unfold apart; lia).
  pose proof (heap_ok_new_size _ [] (brk s) (u32 (2 ^ 28 + 1)) Hok) as Hok'. fields_in Hok'.
  wstep. wstep. wstep. apply (wp_free_search _ [] (brk s) 1 [] (base, 0) []);
    [apply Hok'; by repeat constructor|done|lia|unfold HEADER in *; lia|by repeat constructor; cbn; unfold HEADER in *; lia|done|cbn; lia|].
  wstep. apply wp_get_hsize. fields. rewrite hsize_same by lia. wstep. apply wp_get_hptr. fields.
  destruct Hok as [(_ & Hbp & _) _ _ _ _ _]. fields_in Hbp. cbn [fst addr_of] in *. rewrite hptr_hsize, Hbp by auto.
  unfold units. rewrite u64_id by (unfold HEADER in *; lia).
  destruct (Z.eqb_spec (brk s + HEADER * (2 ^ 28 + 1)) base) as [E|_]; [unfold HEADER in *; lia|].
  unfold put_hptr. wstep. wstep. wstep. apply wp_get_hsize. fields. rewrite hsize_hptr, hsize_apart, Hbs by auto.
  cbn [snd]. rewrite Z.mul_0_r, Z.add_0_r, u64_id by (unfold HEADER in *; lia).
  destruct (Z.eqb_spec base (brk s)) as [E|_]; [unfold HEADER in *; lia|]. wstep. wstep. wstep. wstep. fields.
  apply HQ; fields; [done|done| | |].
  - apply hptr_same. unfold HEADER in *; lia.
  - rewrite hptr_apart by done. apply hptr_same. unfold HEADER in *; lia.
  - rewrite hsize_hptr, hsize_hptr by auto. by apply hsize_same.
Qed.

(** C39: [malloc] of more than 2 GB can succeed without the memory: [morecore] passes the
    size as an [int], and [malloc(0xffffffff)] on a fresh heap returns a block of 2^28 + 1
    units for which the process grew by 16 bytes. *)
Theorem malloc_wraps (s : uheap) :
  heap_new s -> grants (brk s) HEADER = true -> (3 <= fuel)%nat ->
  exists s', malloc (2 ^ 32 - 1) s = Ok (brk s + HEADER) s' /\
    hsize (umem s') (brk s) = 2 ^ 28 + 1 /\ brk s' = brk s + HEADER.
Proof.
  intros Hnew Hg Hfuel. pose proof (heap_new_ok s Hnew) as Hok. destruct Hnew as (Hz & Hb0 & Hb).
  assert (Hw : wp (malloc (2 ^ 32 - 1)) (fun r s' => r = brk s + HEADER /\
     hsize (umem s') (brk s) = 2 ^ 28 + 1 /\ brk s' = brk s + HEADER) s).
  { unfold malloc. change (nunits (2 ^ 32 - 1)) with (2 ^ 28 + 1). wstep. wstep. rewrite Hz. cbn [Z.eqb].
    unfold put_hptr, put_hsize. wsteps. apply wp_get_hptr. fields.
    replace fuel with (S (length (@nil block)) + S (fuel - 2))%nat by (cbn; lia).
    apply (wp_malloc_full _ [] (2 ^ 28 + 1) _ _ Hok); [lia|done|].
    apply wp_morecore_wraps; [done|fields; done|lia|]. fields. intros s1 Hbrk Hfp H1 H2 H3.
    destruct (Z.eqb_spec base 0); [lia|]. cbn [iter]. unfold malloc_step at 1. wstep. wstep. apply wp_get_hsize.
    rewrite H1, H3, Z.leb_refl, Z.eqb_refl. wstep. wstep. apply wp_get_hptr. rewrite H2. unfold put_hptr. wsteps.
    unfold units. rewrite u64_id by (unfold HEADER in *; lia). fields. rewrite hsize_hptr; [|right; unfold apart; lia].
    by rewrite Z.mul_1_r. }
  destruct (wp_run _ _ _ Hw) as (r & s' & Hr & -> & ? & ?). by exists s'.
Qed.
End Malloc.

(** ** Examples *)

Definition ex_grants (sz n : Z) : bool := sz + n <? 2 ^ 27.

Lemma ex_grants_ok sz n : ex_grants sz n = true -> sz + n < 2 ^ 31.
Proof. unfold ex_grants. intros ?%Z.ltb_lt. lia. Qed.

(** A process that has not called [malloc]. *)
Definition ex_fresh : uheap := mk_uheap ∅ 0 0x4000.

Lemma ex_fresh_new : heap_new 0x1000 ex_fresh.
Proof. split; [done|]. vm_compute. split; [done|]. split; congruence. Qed.

(** One free block of 10 units, and a block of 5 units above it in use. *)
Definition ex_used : uheap :=
  mk_uheap
    (st32 (st64 (st32 (st64 (st32 ∅ 0x30a8 5) 0x3000 0x1000) 0x3008 10) 0x1000 0x3000) 0x1008 0)
    0x1000 0x4000.

Lemma ex_used_ok : heap_ok 0x1000 ex_used [(0x3000, 10)].
Proof.
  split.
  - cbn [chain addr_of fst snd]. split; [reflexivity|]. split; [reflexivity|]. split; [reflexivity|]. split; [reflexivity|done].
  - repeat constructor; vm_compute; congruence.
  - apply Forall_singleton. vm_compute. split; congruence.
  - exists 0. by left.
  - vm_compute. split; congruence.
  - vm_compute. congruence.
Qed.

Lemma ex_used_use : in_use 0x1000 ex_used [(0x3000, 10)] 0x30a0 5.
Proof.
  split; [lia|]. split; [vm_compute; congruence|]. split; [vm_compute; congruence|]. split; [reflexivity|].
  apply Forall_singleton. right. vm_compute. congruence.
Qed.

Lemma malloc_spec_witness : exists r s' fl', malloc 0x1000 10 ex_grants 100 ex_fresh = Ok r s' /\ heap_ok 0x1000 s' fl' /\ r <> 0.
Proof.
  destruct (malloc_spec 0x1000 10 ex_grants ex_grants_ok ex_fresh [] 100) as (r & s' & fl' & Hr & Hok & _ & Hp).
  - right. split; [exact ex_fresh_new|reflexivity].
  - lia.
  - cbn. lia.
  - exists r, s', fl'. split; [exact Hr|]. split; [exact Hok|]. intros ->. vm_compute in Hr. discriminate Hr.
Defined.

Lemma free_spec_witness : exists s' fl', free 10 (0x30a0 + HEADER) ex_used = Ok tt s' /\ heap_ok 0x1000 s' fl' /\
  forall a, covered fl' a <-> covered [(0x3000, 10)] a \/ inside a (0x30a0, 5).
Proof.
  destruct (free_spec 0x1000 10 ex_used [(0x3000, 10)] 0x30a0 5 ex_used_ok ex_used_use) as (s' & fl' & Hr & Hok & _ & Hc & _).
  - cbn. lia.
  - exists s', fl'. split; [exact Hr|]. split; [exact Hok|exact Hc].
Defined.

Lemma malloc_free_witness : exists r s' s'', malloc 0x1000 10 ex_grants 40 ex_used = Ok r s' /\
  free 10 r s' = Ok tt s'' /\ heap_ok 0x1000 s'' [(0x3000, 10)].
Proof.
  destruct (malloc 0x1000 10 ex_grants 40 ex_used) as [r s'| | | |] eqn:E; [|vm_compute in E; discriminate E..].
  assert (Hr : r <> 0 /\ brk s' = 0x4000) by (vm_compute in E; injection E as <- <-; split; [discriminate|reflexivity]).
  destruct Hr as [Hr Hb].
  destruct (malloc_free 0x1000 10 ex_grants ex_grants_ok ex_used [(0x3000, 10)] 40 r s' ex_used_ok) as (s'' & Hf & Hok & _).
  - lia.
  - cbn. lia.
  - exact E.
  - exact Hr.
  - exact Hb.
  - exists r, s', s''. split; [reflexivity|]. split; [exact Hf|exact Hok].
Defined.

Lemma malloc_wraps_witness : exists s', malloc 0x1000 10 ex_grants (2 ^ 32 - 1) ex_fresh = Ok (0x4000 + HEADER) s' /\
  brk s' = 0x4000 + HEADER.
Proof.
  destruct (malloc_wraps 0x1000 10 ex_grants ex_grants_ok ex_fresh ex_fresh_new) as (s' & Hr & _ & Hb).
  - reflexivity.
  - lia.
  - exists s'. split; [exact Hr|exact Hb].
Defined.
