(* ===== verification/Virtio.v ===== *)
(** * kernel/virtio_disk.c: the disk driver

    The driver and the device share a ring of descriptors.  Each critical section of
    the driver (what runs between taking [vdisk_lock] and releasing it or sleeping) is
    a program here: [rw_submit] is [virtio_disk_rw] up to the wait for the request,
    [rw_finish] the rest, [virtio_disk_intr] the interrupt handler.  [step] interleaves
    them with a device that follows the virtio specification and may complete the
    requests it has fetched in any order.

    Memory the device reads or writes is named by what it is ([vptr]): the request
    header on the stack of the thread that waits for the buffer, the data of a
    buffer, a status byte of [disk.info]. *)

From stdpp Require Import gmap strings list fin_maps fin_map_dom.
From Stdlib Require Import ZArith Lia.
From S2P Require Import Prelude Machine State.
Open Scope Z_scope.

(** ** Constants of kernel/virtio.h *)

(* @kernel/virtio.h:46-48 NUM *)
Definition NUM : Z := 8.

(* @kernel/virtio.h:11-29 VIRTIO_MMIO_MAGIC_VALUE *)
Definition VIRTIO_MMIO_MAGIC_VALUE : Z := 0x000.
Definition VIRTIO_MMIO_VERSION : Z := 0x004.
Definition VIRTIO_MMIO_DEVICE_ID : Z := 0x008.
Definition VIRTIO_MMIO_VENDOR_ID : Z := 0x00c.
Definition VIRTIO_MMIO_DEVICE_FEATURES : Z := 0x010.
Definition VIRTIO_MMIO_DRIVER_FEATURES : Z := 0x020.
Definition VIRTIO_MMIO_GUEST_PAGE_SIZE : Z := 0x028.
Definition VIRTIO_MMIO_QUEUE_SEL : Z := 0x030.
Definition VIRTIO_MMIO_QUEUE_NUM_MAX : Z := 0x034.
Definition VIRTIO_MMIO_QUEUE_NUM : Z := 0x038.
Definition VIRTIO_MMIO_QUEUE_PFN : Z := 0x040.
Definition VIRTIO_MMIO_QUEUE_NOTIFY : Z := 0x050.
Definition VIRTIO_MMIO_INTERRUPT_STATUS : Z := 0x060.
Definition VIRTIO_MMIO_INTERRUPT_ACK : Z := 0x064.
Definition VIRTIO_MMIO_STATUS : Z := 0x070.

(* @kernel/virtio.h:31-35 VIRTIO_CONFIG_S_ACKNOWLEDGE *)
Definition VIRTIO_CONFIG_S_ACKNOWLEDGE : Z := 1.
Definition VIRTIO_CONFIG_S_DRIVER : Z := 2.
Definition VIRTIO_CONFIG_S_DRIVER_OK : Z := 4.
Definition VIRTIO_CONFIG_S_FEATURES_OK : Z := 8.

(* @kernel/virtio.h:37-44 VIRTIO_BLK_F_RO *)
Definition feature_bits : list Z := [5; 7; 11; 12; 27; 29; 28].

(* @kernel/virtio.h:56-57 VRING_DESC_F_NEXT *)
Definition VRING_DESC_F_NEXT : Z := 1.
Definition VRING_DESC_F_WRITE : Z := 2.

(* @kernel/virtio.h:64-66 VIRTIO_BLK_T_IN *)
Definition VIRTIO_BLK_T_IN : Z := 0.
Definition VIRTIO_BLK_T_OUT : Z := 1.

(** ** State *)

(** The memory a descriptor points to. *)
Inductive vptr :=
| V_null
| V_hdr (b : nat)      (* [buf0] of the thread that waits for buffer [b] *)
| V_data (b : nat)     (* [b->data] *)
| V_status (i : nat).  (* [disk.info[i].status] *)

(* @kernel/virtio.h:50-55 VRingDesc *)
Record VRingDesc := mk_desc {
  d_addr : vptr;
  d_len : Z;
  d_flags : Z;
  d_next : nat
}.

(** The fields of [struct buf] the driver uses. *)
Record vbuf := mk_vbuf {
  vb_blockno : Z;
  vb_data : list Z;
  vb_disk : Z
}.

(** [struct disk], the request headers on the stacks, the buffers, the registers
    written and the channels woken up (newest first). *)
(* @kernel/virtio_disk.c:23-47 disk *)
Record vdisk := mk_vdisk {
  desc : list VRingDesc;
  avail_ring : list Z;          (* avail[2..] *)
  avail_idx : Z;                (* avail[1] *)
  used_id : Z;                  (* used->id *)
  used_elems : list Z;          (* used->elems[].id *)
  vfree : list bool;
  used_idx : Z;
  info_b : list (option nat);
  info_status : list Z;
  hdrs : gmap nat (Z * Z);      (* type and sector *)
  vbufs : gmap nat vbuf;
  mmio : list (Z * Z);
  woken : list chanid
}.

#[export] Instance eta_vdisk : Eta vdisk := fun s =>
  mk_vdisk (desc s) (avail_ring s) (avail_idx s) (used_id s) (used_elems s) (vfree s) (used_idx s)
    (info_b s) (info_status s) (hdrs s) (vbufs s) (mmio s) (woken s).
#[export] Instance eta_desc : Eta VRingDesc := fun d => mk_desc (d_addr d) (d_len d) (d_flags d) (d_next d).
#[export] Instance eta_vbuf : Eta vbuf := fun b => mk_vbuf (vb_blockno b) (vb_data b) (vb_disk b).

Definition set_desc : list VRingDesc -> vdisk -> vdisk := ltac:(make_setter desc).
Definition set_avail_ring : list Z -> vdisk -> vdisk := ltac:(make_setter avail_ring).
Definition set_avail_idx : Z -> vdisk -> vdisk := ltac:(make_setter avail_idx).
Definition set_used_id : Z -> vdisk -> vdisk := ltac:(make_setter used_id).
Definition set_used_elems : list Z -> vdisk -> vdisk := ltac:(make_setter used_elems).
Definition set_vfree : list bool -> vdisk -> vdisk := ltac:(make_setter vfree).
Definition set_used_idx : Z -> vdisk -> vdisk := ltac:(make_setter used_idx).
Definition set_info_b : list (option nat) -> vdisk -> vdisk := ltac:(make_setter info_b).
Definition set_info_status : list Z -> vdisk -> vdisk := ltac:(make_setter info_status).
Definition set_hdrs : gmap nat (Z * Z) -> vdisk -> vdisk := ltac:(make_setter hdrs).
Definition set_vbufs : gmap nat vbuf -> vdisk -> vdisk := ltac:(make_setter vbufs).
Definition set_mmio : list (Z * Z) -> vdisk -> vdisk := ltac:(make_setter mmio).
Definition set_woken : list chanid -> vdisk -> vdisk := ltac:(make_setter woken).
Definition set_d_addr : vptr -> VRingDesc -> VRingDesc := ltac:(make_setter d_addr).
Definition set_d_len : Z -> VRingDesc -> VRingDesc := ltac:(make_setter d_len).
Definition set_d_flags : Z -> VRingDesc -> VRingDesc := ltac:(make_setter d_flags).
Definition set_d_next : nat -> VRingDesc -> VRingDesc := ltac:(make_setter d_next).
Definition set_vb_data : list Z -> vbuf -> vbuf := ltac:(make_setter vb_data).
Definition set_vb_disk : Z -> vbuf -> vbuf := ltac:(make_setter vb_disk).

(** ** The code *)

(** The value of a register of the device. *)
Class VirtioMmio := { mmio_read : Z -> Z }.

Definition write_reg (r v : Z) : M vdisk unit := modify (fun s => set_mmio ((r, u32 v) :: mmio s) s).

Definition get_desc {A} (i : nat) (f : VRingDesc -> A) : M vdisk A :=
  let* d := gets (fun s => desc s !! i) in
  let* d := deref d in ret (f d).
Definition modify_desc (i : nat) (f : VRingDesc -> VRingDesc) : M vdisk unit :=
  let* d := gets (fun s => desc s !! i) in
  let* d := deref d in
  modify (fun s => set_desc (<[i := f d]> (desc s)) s).
Definition get_vbuf {A} (b : nat) (f : vbuf -> A) : M vdisk A :=
  let* x := gets (fun s => vbufs s !! b) in
  let* x := deref x in ret (f x).
Definition modify_vbuf (b : nat) (f : vbuf -> vbuf) : M vdisk unit :=
  let* x := gets (fun s => vbufs s !! b) in
  let* x := deref x in
  modify (fun s => set_vbufs (<[b := f x]> (vbufs s)) s).
Definition wakeup (c : chanid) : M vdisk unit := modify (fun s => set_woken (c :: woken s) s).

(** The addresses of [desc], [avail] and [used] are fixed, so setting them is not a
    step here; [pages] is the address of [disk.pages], and clearing it clears the three. *)
(* @kernel/virtio_disk.c virtio_disk_init *)
Definition virtio_disk_init `{VirtioMmio} (pages : Z) : M vdisk unit :=
  if negb (mmio_read VIRTIO_MMIO_MAGIC_VALUE =? 0x74726976) || negb (mmio_read VIRTIO_MMIO_VERSION =? 1) ||
     negb (mmio_read VIRTIO_MMIO_DEVICE_ID =? 2) || negb (mmio_read VIRTIO_MMIO_VENDOR_ID =? 0x554d4551)
  then panic "could not find virtio disk"
  else
  let status := Z.lor 0 VIRTIO_CONFIG_S_ACKNOWLEDGE in
  write_reg VIRTIO_MMIO_STATUS status ;;;
  let status := Z.lor status VIRTIO_CONFIG_S_DRIVER in
  write_reg VIRTIO_MMIO_STATUS status ;;;
  write_reg VIRTIO_MMIO_DRIVER_FEATURES
    (fold_left (fun f k => Z.land f (Z.lnot (Z.shiftl 1 k))) feature_bits (mmio_read VIRTIO_MMIO_DEVICE_FEATURES)) ;;;
  let status := Z.lor status VIRTIO_CONFIG_S_FEATURES_OK in
  write_reg VIRTIO_MMIO_STATUS status ;;;
  let status := Z.lor status VIRTIO_CONFIG_S_DRIVER_OK in
  write_reg VIRTIO_MMIO_STATUS status ;;;
  write_reg VIRTIO_MMIO_GUEST_PAGE_SIZE PGSIZE ;;;
  write_reg VIRTIO_MMIO_QUEUE_SEL 0 ;;;
  let max := mmio_read VIRTIO_MMIO_QUEUE_NUM_MAX in
  if max =? 0 then panic "virtio disk has no queue 0"
  else if max <? NUM then panic "virtio disk max queue too short"
  else
  write_reg VIRTIO_MMIO_QUEUE_NUM NUM ;;;
  modify (fun s => set_desc (replicate 8 (mk_desc V_null 0 0 0)) (set_avail_ring (replicate 8 0) (set_avail_idx 0
    (set_used_id 0 (set_used_elems (replicate 8 0) s))))) ;;;
  write_reg VIRTIO_MMIO_QUEUE_PFN (Z.shiftr pages PGSHIFT) ;;;
  for_all (seq 0 (Z.to_nat NUM)) (fun i => modify (fun s => set_vfree (<[i := true]> (vfree s)) s)).

(* @kernel/virtio_disk.c alloc_desc *)
Definition alloc_desc : M vdisk (option nat) :=
  for_each (seq 0 (Z.to_nat NUM)) (fun i =>
    let* f := gets (fun s => vfree s !! i) in
    let* f := deref f in
    if f : bool then
      modify (fun s => set_vfree (<[i := false]> (vfree s)) s) ;;;
      ret (Some i)
    else ret None).

(* @kernel/virtio_disk.c free_desc *)
Definition free_desc (i : nat) : M vdisk unit :=
  if NUM <=? Z.of_nat i then panic "virtio_disk_intr 1"
  else
  let* f := gets (fun s => vfree s !! i) in
  let* f := deref f in
  if f : bool then panic "virtio_disk_intr 2"
  else
  modify_desc i (set_d_addr V_null) ;;;
  modify (fun s => set_vfree (<[i := true]> (vfree s)) s) ;;;
  wakeup Ch_disk_free.

(** A chain has at most [NUM] descriptors: the second visit of one panics. *)
(* @kernel/virtio_disk.c free_chain *)
Definition free_chain (i : nat) : M vdisk unit :=
  iter (S (Z.to_nat NUM)) (fun i =>
    free_desc i ;;;
    let* fl := get_desc i d_flags in
    if negb (Z.land fl VRING_DESC_F_NEXT =? 0) then
      let* n := get_desc i d_next in ret (inl n)
    else ret (inr tt)) i.

(** The three descriptors, or [None] for -1. *)
(* @kernel/virtio_disk.c alloc3_desc *)
Definition alloc3_desc : M vdisk (option (nat * nat * nat)) :=
  let* i0 := alloc_desc in
  match i0 with
  | None => ret None
  | Some i0 =>
    let* i1 := alloc_desc in
    match i1 with
    | None => free_desc i0 ;;; ret None
    | Some i1 =>
      let* i2 := alloc_desc in
      match i2 with
      | None => free_desc i0 ;;; free_desc i1 ;;; ret None
      | Some i2 => ret (Some (i0, i1, i2))
      end
    end
  end.

(** From the allocation of the descriptors to the wait for the device; [None]: there
    are not enough descriptors and the thread sleeps on [&disk.free[0]]. *)
(* @kernel/virtio_disk.c virtio_disk_rw *)
Definition rw_submit (b : nat) (write : bool) : M vdisk (option (nat * nat * nat)) :=
  let* bno := get_vbuf b vb_blockno in
  let sector := u32 (bno * 2) in
  let* idx := alloc3_desc in
  match idx with
  | None => ret None
  | Some (i0, i1, i2) =>
    modify (fun s => set_hdrs (<[b := (if write then VIRTIO_BLK_T_OUT else VIRTIO_BLK_T_IN, sector)]> (hdrs s)) s) ;;;
    modify_desc i0 (set_d_addr (V_hdr b)) ;;;
    modify_desc i0 (set_d_len 16) ;;;
    modify_desc i0 (set_d_flags VRING_DESC_F_NEXT) ;;;
    modify_desc i0 (set_d_next i1) ;;;
    modify_desc i1 (set_d_addr (V_data b)) ;;;
    modify_desc i1 (set_d_len 1024) ;;;
    modify_desc i1 (set_d_flags (if write then 0 else VRING_DESC_F_WRITE)) ;;;
    modify_desc i1 (fun d => set_d_flags (Z.lor (d_flags d) VRING_DESC_F_NEXT) d) ;;;
    modify_desc i1 (set_d_next i2) ;;;
    modify (fun s => set_info_status (<[i0 := 0]> (info_status s)) s) ;;;
    modify_desc i2 (set_d_addr (V_status i0)) ;;;
    modify_desc i2 (set_d_len 1) ;;;
    modify_desc i2 (set_d_flags VRING_DESC_F_WRITE) ;;;
    modify_desc i2 (set_d_next 0) ;;;
    modify_vbuf b (set_vb_disk 1) ;;;
    modify (fun s => set_info_b (<[i0 := Some b]> (info_b s)) s) ;;;
    modify (fun s => set_avail_ring (<[Z.to_nat (avail_idx s mod NUM) := Z.of_nat i0]> (avail_ring s)) s) ;;;
    modify (fun s => set_avail_idx (u16 (avail_idx s + 1)) s) ;;;
    write_reg VIRTIO_MMIO_QUEUE_NOTIFY 0 ;;;
    ret (Some (i0, i1, i2))
  end.

(** After [b->disk] has become 0. *)
(* @kernel/virtio_disk.c virtio_disk_rw *)
Definition rw_finish (i0 : nat) : M vdisk unit :=
  modify (fun s => set_info_b (<[i0 := None]> (info_b s)) s) ;;;
  free_chain i0.

(** The two counters agree modulo [NUM] after at most [NUM - 1] rounds. *)
(* @kernel/virtio_disk.c virtio_disk_intr *)
Definition virtio_disk_intr `{VirtioMmio} : M vdisk unit :=
  iter (Z.to_nat NUM) (fun _ : unit =>
    let* ui := gets used_idx in
    let* uid := gets used_id in
    if negb (ui mod NUM =? uid mod NUM) then
      let* id := gets (fun s => used_elems s !! Z.to_nat ui) in
      let* id := deref id in
      let* st := gets (fun s => info_status s !! Z.to_nat id) in
      let* st := deref st in
      if negb (st =? 0) then panic "virtio_disk_intr status"
      else
      let* ib := gets (fun s => info_b s !! Z.to_nat id) in
      let* ib := deref ib in
      let* b := deref ib in
      modify_vbuf b (set_vb_disk 0) ;;;
      wakeup (Ch_buf b) ;;;
      modify (fun s => set_used_idx ((used_idx s + 1) mod NUM) s) ;;;
      ret (inl tt)
    else ret (inr tt)) tt ;;;
  write_reg VIRTIO_MMIO_INTERRUPT_ACK (Z.land (mmio_read VIRTIO_MMIO_INTERRUPT_STATUS) 0x3).

(** ** The device and the threads *)

(** The disk by sectors of 512 bytes; a block is two of them. *)
Definition sector (d : gmap Z (list Z)) (k : Z) : list Z := default (replicate 512 0) (d !! k).
Definition disk_read (d : gmap Z (list Z)) (k : Z) : list Z := sector d k ++ sector d (k + 1).
Definition disk_write (d : gmap Z (list Z)) (k : Z) (l : list Z) : gmap Z (list Z) :=
  <[k := take 512 l]> (<[k + 1 := drop 512 l]> d).

(** The device executes the request whose first descriptor is [h]: it follows the
    chain, transfers the data, stores the status 0 and publishes [h] in the used ring. *)
Definition dev_do (h : nat) (v : vdisk) (d : gmap Z (list Z)) : option (vdisk * gmap Z (list Z)) :=
  d0 ← desc v !! h; d1 ← desc v !! d_next d0; d2 ← desc v !! d_next d1;
  match d_addr d0, d_addr d1, d_addr d2 with
  | V_hdr r, V_data b, V_status i =>
    q ← hdrs v !! r; x ← vbufs v !! b;
    let w := Z.testbit (d_flags d1) 1 in
    let v' := set_used_id (u16 (used_id v + 1))
      (set_used_elems (<[Z.to_nat (used_id v mod NUM) := Z.of_nat h]> (used_elems v))
        (set_info_status (<[i := 0]> (info_status v)) v)) in
    if (q.1 =? VIRTIO_BLK_T_OUT) && negb w then Some (v', disk_write d q.2 (vb_data x))
    else if (q.1 =? VIRTIO_BLK_T_IN) && w then
      Some (set_vbufs (<[b := set_vb_data (disk_read d q.2) x]> (vbufs v')) v', d)
    else None
  | _, _, _ => None
  end.

(** A call of [virtio_disk_rw] that waits for the device: its variable [idx], its
    argument, and what the transfer must leave both in the buffer and on the disk. *)
Record call := mk_call {
  c_idx : nat * nat * nat;
  c_write : bool;
  c_snap : list Z
}.

Definition idx0 (c : call) : nat := (c_idx c).1.1.
Definition idx1 (c : call) : nat := (c_idx c).1.2.
Definition idx2 (c : call) : nat := (c_idx c).2.
Definition idxs (c : call) : list nat := [idx0 c; idx1 c; idx2 c].

(** The driver, how far the device has looked in the available ring, the requests it
    has fetched, the disk, and the waiting calls by buffer. *)
Record sys := mk_sys {
  drv : vdisk;
  dev_idx : Z;
  dev_pend : list Z;
  sectors : gmap Z (list Z);
  calls : gmap nat call
}.

(** What a request for the buffer [x] is to transfer. *)
Definition snapshot (w : bool) (x : vbuf) (d : gmap Z (list Z)) : list Z :=
  if w then vb_data x else disk_read d (2 * vb_blockno x).

(** A buffer is used by one thread at a time (it is locked), and each block has one
    buffer. *)
Definition may_submit (s : sys) (b : nat) (x : vbuf) : Prop :=
  calls s !! b = None /\ vbufs (drv s) !! b = Some x /\ 0 <= vb_blockno x < 2 ^ 31 /\
  forall b' c x', calls s !! b' = Some c -> vbufs (drv s) !! b' = Some x' -> vb_blockno x' <> vb_blockno x.

Inductive step `{VirtioMmio} : sys -> sys -> Prop :=
| st_submit s b w x idx v : may_submit s b x -> rw_submit b w (drv s) = Ok (Some idx) v ->
    step s (mk_sys v (dev_idx s) (dev_pend s) (sectors s)
             (<[b := mk_call idx w (snapshot w x (sectors s))]> (calls s)))
| st_wait s b w x v : may_submit s b x -> rw_submit b w (drv s) = Ok None v ->
    step s (mk_sys v (dev_idx s) (dev_pend s) (sectors s) (calls s))
| st_fetch s h : dev_idx s <> avail_idx (drv s) ->
    avail_ring (drv s) !! Z.to_nat (dev_idx s mod NUM) = Some h ->
    step s (mk_sys (drv s) (u16 (dev_idx s + 1)) (h :: dev_pend s) (sectors s) (calls s))
| st_do s l1 h l2 v d : dev_pend s = l1 ++ h :: l2 -> dev_do (Z.to_nat h) (drv s) (sectors s) = Some (v, d) ->
    step s (mk_sys v (dev_idx s) (l1 ++ l2) d (calls s))
| st_intr s v : virtio_disk_intr (drv s) = Ok tt v ->
    step s (mk_sys v (dev_idx s) (dev_pend s) (sectors s) (calls s))
| st_finish s b c x v : calls s !! b = Some c -> vbufs (drv s) !! b = Some x -> vb_disk x = 0 ->
    rw_finish (idx0 c) (drv s) = Ok tt v ->
    step s (mk_sys v (dev_idx s) (dev_pend s) (sectors s) (delete b (calls s)))
| st_use s b x y : calls s !! b = None -> vbufs (drv s) !! b = Some x -> vb_disk y = vb_disk x ->
    step s (mk_sys (set_vbufs (<[b := y]> (vbufs (drv s))) (drv s)) (dev_idx s) (dev_pend s) (sectors s) (calls s)).

(** After [virtio_disk_init], with no request made. *)
Definition vinit (v : vdisk) : Prop :=
  desc v = replicate 8 (mk_desc V_null 0 0 0) /\ avail_ring v = replicate 8 0 /\ avail_idx v = 0 /\
  used_id v = 0 /\ used_elems v = replicate 8 0 /\ vfree v = replicate 8 true /\ used_idx v = 0 /\
  length (info_b v) = 8%nat /\ length (info_status v) = 8%nat.

Inductive reachable `{VirtioMmio} : sys -> Prop :=
| r_init v d : vinit v -> reachable (mk_sys v 0 [] d ∅)
| r_step s s' : reachable s -> step s s' -> reachable s'.

(** ** The operations on descriptors *)

Lemma wp_get_desc {A} i (f : VRingDesc -> A) d (Q : A -> vdisk -> Prop) s :
  desc s !! i = Some d -> Q (f d) s -> wp (get_desc i f) Q s.
Proof. intros. unfold get_desc. wsteps. done. Qed.

Lemma wp_modify_desc i f d (Q : unit -> vdisk -> Prop) s :
  desc s !! i = Some d -> Q tt (set_desc (<[i := f d]> (desc s)) s) -> wp (modify_desc i f) Q s.
Proof. intros. unfold modify_desc. wsteps. done. Qed.

Lemma wp_get_vbuf {A} b (f : vbuf -> A) x (Q : A -> vdisk -> Prop) s :
  vbufs s !! b = Some x -> Q (f x) s -> wp (get_vbuf b f) Q s.
Proof. intros. unfold get_vbuf. wsteps. done. Qed.

Lemma wp_modify_vbuf b f x (Q : unit -> vdisk -> Prop) s :
  vbufs s !! b = Some x -> Q tt (set_vbufs (<[b := f x]> (vbufs s)) s) -> wp (modify_vbuf b f) Q s.
Proof. intros. unfold modify_vbuf. wsteps. done. Qed.

Lemma wp_alloc_desc (Q : option nat -> vdisk -> Prop) s :
  length (vfree s) = 8%nat ->
  (forall i, vfree s !! i = Some true -> Q (Some i) (set_vfree (<[i := false]> (vfree s)) s)) ->
  (Forall (fun f => f = false) (vfree s) -> Q None s) -> wp alloc_desc Q s.
Proof.
  intros Hlen Hyes Hno. unfold alloc_desc.
  apply (wp_for_each _ _ (fun rest t => exists k, rest = seq k (8 - k) /\ (k <= 8)%nat /\ t = s /\
            forall j f, (j < k)%nat -> vfree s !! j = Some f -> f = false)).
  - exists 0%nat. split; [done|]. split; [lia|]. split; [done|lia].
  - intros i rest t (k & Er & Hk & -> & Hbef). destruct (decide (k = 8%nat)) as [->|Hne]; [done|].
    replace (8 - k)%nat with (S (8 - S k)) in Er by lia. cbn [seq] in Er. injection Er as -> ->.
    destruct (lookup_lt_is_Some_2 (vfree s) k) as [f Hf]; [lia|]. wsteps.
    destruct f; wsteps; [by apply Hyes|]. exists (S k). split; [done|]. split; [lia|]. split; [done|].
    intros j f Hj Hjf. destruct (decide (j = k)) as [->|]; [congruence|]. apply (Hbef j); [lia|done].
  - intros t (k & Er & Hk & -> & Hbef). apply Hno, Forall_lookup. intros j f Hf.
    pose proof (lookup_lt_Some _ _ _ Hf). apply (Hbef j); [|done]. destruct (8 - k)%nat eqn:E; [lia|done].
Qed.

Lemma wp_free_desc i d (Q : unit -> vdisk -> Prop) s :
  (i < 8)%nat -> vfree s !! i = Some false -> desc s !! i = Some d ->
  Q tt (set_woken (Ch_disk_free :: woken s) (set_vfree (<[i := true]> (vfree s))
         (set_desc (<[i := set_d_addr V_null d]> (desc s)) s))) ->
  wp (free_desc i) Q s.
Proof.
  intros Hi Hf Hd HQ. unfold free_desc. destruct (Z.leb_spec NUM (Z.of_nat i)); [unfold NUM in *; lia|].
  wsteps. cbn iota. wstep. eapply wp_modify_desc; [done|]. unfold wakeup. wsteps. exact HQ.
Qed.

(** Descriptors that were free may have changed, and sleepers were woken. *)
Definition free_changed (s s' : vdisk) : Prop :=
  exists ds wk, s' = set_woken wk (set_desc ds s) /\ length ds = length (desc s) /\
    forall i d, vfree s !! i <> Some true -> desc s !! i = Some d -> ds !! i = Some d.

(** Of three descriptors one is neither of two given ones. *)
Lemma another (l : list bool) i j :
  length l = 8%nat -> (forall k f, k <> i -> k <> j -> l !! k = Some f -> f = false) ->
  exists k, (k < 8)%nat /\ l !! k = Some false.
Proof.
  intros Hlen Hf. assert (Hk : exists k, (k < 3)%nat /\ k <> i /\ k <> j).
  { destruct (decide (i <> 0 /\ j <> 0)%nat); [by exists 0%nat; split_and!; lia|].
    destruct (decide (i <> 1 /\ j <> 1)%nat); [by exists 1%nat; split_and!; lia|]. exists 2%nat. lia. }
  destruct Hk as (k & Hk & Hi & Hj). exists k. split; [lia|].
  destruct (lookup_lt_is_Some_2 l k) as [f Hkf]; [lia|]. rewrite Hkf. f_equal. by eapply Hf.
Qed.

Lemma wp_alloc3_desc (Q : option (nat * nat * nat) -> vdisk -> Prop) s :
  length (vfree s) = 8%nat -> length (desc s) = 8%nat ->
  (forall i0 i1 i2, NoDup [i0; i1; i2] -> Forall (fun i => vfree s !! i = Some true) [i0; i1; i2] ->
     Q (Some (i0, i1, i2)) (set_vfree (<[i2 := false]> (<[i1 := false]> (<[i0 := false]> (vfree s)))) s)) ->
  (forall s', free_changed s s' -> (exists i, (i < 8)%nat /\ vfree s !! i = Some false) -> Q None s') ->
  wp alloc3_desc Q s.
Proof.
  intros Hlf Hld Hyes Hno. unfold alloc3_desc.
  assert (Hlt : forall i, vfree s !! i = Some true -> (i < length (vfree s) /\ i < 8)%nat).
  { intros i Hi. rewrite <- Hlf. by apply lookup_lt_Some in Hi. }
  assert (Hd : forall i, vfree s !! i = Some true -> is_Some (desc s !! i)).
  { intros i Hi. apply lookup_lt_is_Some_2. rewrite Hld. by apply Hlt. }
  wstep. apply wp_alloc_desc; [done| |].
  2: { intros Hf. wsteps. apply Hno; [exists (desc s), (woken s); split; [by destruct s|done]|].
       apply (another _ 0 0); [done|]. intros k f _ _ Hk. rewrite Forall_lookup in Hf. by eapply Hf. }
  intros i0 Hi0. destruct (Hlt _ Hi0) as [Hl0 Hm0]. destruct (Hd _ Hi0) as [d0 Hd0].
  wstep. apply wp_alloc_desc; [fields; by rewrite length_insert| |]; fields.
  2: { intros Hf. rewrite Forall_lookup in Hf. wstep. eapply wp_free_desc; [done|fields; by apply list_lookup_insert_eq|fields; exact Hd0|].
       wsteps. fields. rewrite list_insert_insert_eq, (list_insert_id (vfree s)) by done. apply Hno.
       - exists (<[i0 := set_d_addr V_null d0]> (desc s)), (Ch_disk_free :: woken s). split; [by destruct s|].
         split; [by rewrite length_insert|]. intros i d Hi Hdi. rewrite list_lookup_insert_ne; [done|]. congruence.
       - apply (another _ i0 i0); [done|]. intros k f Hk _ Hkf. apply (Hf k). by rewrite list_lookup_insert_ne. }
  intros i1 Hi1. assert (Hne : i0 <> i1) by (intros ->; by rewrite list_lookup_insert_eq in Hi1).
  rewrite list_lookup_insert_ne in Hi1 by done. destruct (Hlt _ Hi1) as [Hl1 Hm1]. destruct (Hd _ Hi1) as [d1 Hd1].
  wstep. apply wp_alloc_desc; [fields; by rewrite !length_insert| |]; fields.
  - intros i2 Hi2. assert (Hne1 : i1 <> i2) by (intros ->; rewrite list_lookup_insert_eq in Hi2; [done|by rewrite ?length_insert]).
    rewrite list_lookup_insert_ne in Hi2 by done. assert (Hne0 : i0 <> i2) by (intros ->; by rewrite list_lookup_insert_eq in Hi2).
    rewrite list_lookup_insert_ne in Hi2 by done. wsteps. fields. apply Hyes; [|by repeat constructor].
    repeat constructor; set_solver.
  - intros Hf. rewrite Forall_lookup in Hf. wstep.
    eapply wp_free_desc; [done|fields; rewrite list_lookup_insert_ne by done; by apply list_lookup_insert_eq|fields; exact Hd0|].
    wstep. eapply wp_free_desc; [done|fields|fields; by rewrite list_lookup_insert_ne|].
    { rewrite list_lookup_insert_ne by done. apply list_lookup_insert_eq. by rewrite ?length_insert. }
    wsteps. fields. rewrite (list_insert_insert_ne _ i0 i1), list_insert_insert_eq, list_insert_insert_eq by done.
    rewrite (list_insert_insert_ne _ i1 i0), list_insert_id, list_insert_id by (by rewrite ?list_insert_id). apply Hno.
    + exists (<[i1 := set_d_addr V_null d1]> (<[i0 := set_d_addr V_null d0]> (desc s))), (Ch_disk_free :: Ch_disk_free :: woken s).
      split; [by destruct s|]. split; [by rewrite !length_insert|]. intros i d Hi Hdi.
      rewrite !list_lookup_insert_ne; [done|congruence|congruence].
    + apply (another _ i0 i1); [done|]. intros k f Hk0 Hk1 Hkf. apply (Hf k). by rewrite !list_lookup_insert_ne.
Qed.

(** ** Submitting a request *)

Definition desc_hdr (b i1 : nat) : VRingDesc := mk_desc (V_hdr b) 16 1 i1.
Definition desc_data (b : nat) (w : bool) (i2 : nat) : VRingDesc := mk_desc (V_data b) 1024 (if w then 1 else 3) i2.
Definition desc_status (i0 : nat) : VRingDesc := mk_desc (V_status i0) 1 2 0.
Definition req_hdr (w : bool) (x : vbuf) : Z * Z :=
  (if w then VIRTIO_BLK_T_OUT else VIRTIO_BLK_T_IN, u32 (vb_blockno x * 2)).

(** The state once the request for [b] is in the available ring. *)
Definition submitted (b : nat) (w : bool) (x : vbuf) (i0 i1 i2 : nat) (s : vdisk) : vdisk :=
  set_vfree (<[i2 := false]> (<[i1 := false]> (<[i0 := false]> (vfree s))))
  (set_hdrs (<[b := req_hdr w x]> (hdrs s))
  (set_desc (<[i2 := desc_status i0]> (<[i1 := desc_data b w i2]> (<[i0 := desc_hdr b i1]> (desc s))))
  (set_info_status (<[i0 := 0]> (info_status s))
  (set_vbufs (<[b := set_vb_disk 1 x]> (vbufs s))
  (set_info_b (<[i0 := Some b]> (info_b s))
  (set_avail_ring (<[Z.to_nat (avail_idx s mod NUM) := Z.of_nat i0]> (avail_ring s))
  (set_avail_idx (u16 (avail_idx s + 1))
  (set_mmio ((VIRTIO_MMIO_QUEUE_NOTIFY, u32 0) :: mmio s) s)))))))).

Ltac step_desc := eapply wp_modify_desc; [fields; rewrite ?list_lookup_insert_ne by done;
  first [eassumption | apply list_lookup_insert_eq; rewrite ?length_insert; done]|]; fields; rewrite ?list_insert_insert_eq.

Lemma wp_rw_submit b w x (Q : option (nat * nat * nat) -> vdisk -> Prop) s :
  length (vfree s) = 8%nat -> length (desc s) = 8%nat -> vbufs s !! b = Some x ->
  (forall i0 i1 i2, NoDup [i0; i1; i2] -> Forall (fun i => vfree s !! i = Some true) [i0; i1; i2] ->
     Q (Some (i0, i1, i2)) (submitted b w x i0 i1 i2 s)) ->
  (forall s', free_changed s s' -> (exists i, (i < 8)%nat /\ vfree s !! i = Some false) -> Q None s') ->
  wp (rw_submit b w) Q s.
Proof.
  intros Hlf Hld Hx Hyes Hno. unfold rw_submit. wstep. eapply wp_get_vbuf; [done|]. wstep.
  apply wp_alloc3_desc; [done|done| |by intros; wsteps; auto].
  intros i0 i1 i2 Hnd Hfr. specialize (Hyes i0 i1 i2 Hnd Hfr).
  assert (Hlt : forall i, i ∈ [i0; i1; i2] -> (i < length (desc s))%nat).
  { intros i Hi. rewrite Forall_forall in Hfr. rewrite Hld, <- Hlf. by eapply lookup_lt_Some, Hfr. }
  destruct (lookup_lt_is_Some_2 (desc s) i0) as [d0 Hd0]; [set_solver|].
  destruct (lookup_lt_is_Some_2 (desc s) i1) as [d1 Hd1]; [set_solver|].
  destruct (lookup_lt_is_Some_2 (desc s) i2) as [d2 Hd2]; [set_solver|].
  assert (Hl0 : (i0 < length (desc s))%nat) by set_solver. assert (Hl1 : (i1 < length (desc s))%nat) by set_solver.
  assert (Hl2 : (i2 < length (desc s))%nat) by set_solver.
  assert (i0 <> i1 /\ i0 <> i2 /\ i1 <> i2) as (? & ? & ?).
  { rewrite !NoDup_cons in Hnd. set_solver. }
  wstep. wstep. fields. do 4 (wstep; step_desc). do 5 (wstep; step_desc). wstep. wstep.
  do 4 (wstep; step_desc). wstep. eapply wp_modify_vbuf; [fields; exact Hx|]. unfold write_reg. wsteps. fields.
  destruct w; exact Hyes.
Qed.

(** ** Finishing a request *)

Lemma wp_rw_finish b w i0 i1 i2 (Q : unit -> vdisk -> Prop) s :
  length (vfree s) = 8%nat -> NoDup [i0; i1; i2] -> Forall (fun i => vfree s !! i = Some false) [i0; i1; i2] ->
  desc s !! i0 = Some (desc_hdr b i1) -> desc s !! i1 = Some (desc_data b w i2) -> desc s !! i2 = Some (desc_status i0) ->
  (forall ds wk, length ds = length (desc s) -> (forall i, i ∉ [i0; i1; i2] -> ds !! i = desc s !! i) ->
     Q tt (set_woken wk (set_vfree (<[i2 := true]> (<[i1 := true]> (<[i0 := true]> (vfree s))))
       (set_desc ds (set_info_b (<[i0 := None]> (info_b s)) s))))) ->
  wp (rw_finish i0) Q s.
Proof.
  intros Hlf Hnd Hfr Hd0 Hd1 Hd2 HQ.
  rewrite !Forall_cons in Hfr. destruct Hfr as (Hf0 & Hf1 & Hf2 & _).
  pose proof (lookup_lt_Some _ _ _ Hf0) as Hl0. pose proof (lookup_lt_Some _ _ _ Hf1) as Hl1. pose proof (lookup_lt_Some _ _ _ Hf2) as Hl2.
  rewrite Hlf in Hl0, Hl1, Hl2.
  pose proof (lookup_lt_Some _ _ _ Hd0) as Hm0. pose proof (lookup_lt_Some _ _ _ Hd1) as Hm1. pose proof (lookup_lt_Some _ _ _ Hd2) as Hm2.
  assert (i0 <> i1 /\ i0 <> i2 /\ i1 <> i2) as (? & ? & ?).
  { rewrite !NoDup_cons in Hnd. set_solver. }
  unfold rw_finish, free_chain. wstep. wstep. change (S (Z.to_nat NUM)) with 9%nat. cbn [iter].
  wstep. wstep. eapply wp_free_desc; [done|fields; done|fields; exact Hd0|]. wstep.
  eapply wp_get_desc; [fields; by apply list_lookup_insert_eq|]. fields. match goal with |- context [if ?c then _ else _] => replace c with true by reflexivity end. cbn iota.
  wstep. eapply wp_get_desc; [fields; by apply list_lookup_insert_eq|]. fields. wstep.
  wstep. wstep. eapply wp_free_desc; [done|fields; by rewrite list_lookup_insert_ne|fields; rewrite list_lookup_insert_ne by done; exact Hd1|]. wstep.
  eapply wp_get_desc; [fields; apply list_lookup_insert_eq; by rewrite length_insert|]. fields.
  match goal with |- context [if ?c then _ else _] => replace c with true by (by destruct w) end. cbn iota.
  wstep. eapply wp_get_desc; [fields; apply list_lookup_insert_eq; by rewrite length_insert|]. fields. wstep.
  wstep. wstep. eapply wp_free_desc; [done|fields; by rewrite !list_lookup_insert_ne|fields; rewrite !list_lookup_insert_ne by done; exact Hd2|]. wstep.
  eapply wp_get_desc; [fields; apply list_lookup_insert_eq; by rewrite !length_insert|]. fields.
  match goal with |- context [if ?c then _ else _] => replace c with false by reflexivity end. cbn iota. wstep. wstep. fields.
  specialize (HQ (<[i2 := set_d_addr V_null (desc_status i0)]> (<[i1 := set_d_addr V_null (desc_data b w i2)]>
    (<[i0 := set_d_addr V_null (desc_hdr b i1)]> (desc s))))).
  apply HQ; [by rewrite !length_insert|]. intros i Hi. rewrite !not_elem_of_cons in Hi.
  by rewrite !list_lookup_insert_ne by naive_solver.
Qed.

(** ** The invariant *)

(** The requests the device has not fetched, those in the used ring that the driver has
    not seen, those not executed, and all that the driver waits for. *)
Definition qheads (s : sys) : list Z :=
  ring (avail_ring (drv s)) NUM (dev_idx s) (u16 (avail_idx (drv s) - dev_idx s)).
Definition uheads (v : vdisk) : list Z := ring (used_elems v) NUM (used_idx v) ((used_id v - used_idx v) mod NUM).
Definition waiting (s : sys) : list Z := qheads s ++ dev_pend s.
Definition running (s : sys) : list Z := waiting s ++ uheads (drv s).

(** The descriptors, header and bookkeeping of a request. *)
Record call_ok (v : vdisk) (b : nat) (c : call) (x : vbuf) : Prop := {
  call_nodup : NoDup (idxs c);
  call_busy : Forall (fun i => vfree v !! i = Some false) (idxs c);
  call_hdr : desc v !! idx0 c = Some (desc_hdr b (idx1 c));
  call_data : desc v !! idx1 c = Some (desc_data b (c_write c) (idx2 c));
  call_status : desc v !! idx2 c = Some (desc_status (idx0 c));
  call_req : hdrs v !! b = Some (req_hdr (c_write c) x);
  call_info : info_b v !! idx0 c = Some (Some b);
  call_st : info_status v !! idx0 c = Some 0;
  call_block : 0 <= vb_blockno x < 2 ^ 31
}.

(** The contents of the buffer and of its block, before and after the transfer. *)
Definition effect (d : gmap Z (list Z)) (c : call) (x : vbuf) (executed : Prop) : Prop :=
  (c_write c = true \/ executed -> vb_data x = c_snap c) /\
  (c_write c = false \/ executed -> disk_read d (2 * vb_blockno x) = c_snap c).

#[export] Instance effect_proper d c x : Proper (iff ==> iff) (effect d c x).
Proof. intros P P' E. unfold effect. by rewrite E. Qed.

Record lengths (v : vdisk) : Prop := {
  len_desc : length (desc v) = 8%nat;
  len_avail : length (avail_ring v) = 8%nat;
  len_used : length (used_elems v) = 8%nat;
  len_free : length (vfree v) = 8%nat;
  len_info : length (info_b v) = 8%nat;
  len_status : length (info_status v) = 8%nat
}.

Record inv (s : sys) : Prop := {
  inv_len : lengths (drv s);
  inv_avail : 0 <= avail_idx (drv s) < 2 ^ 16;
  inv_dev : 0 <= dev_idx s < 2 ^ 16;
  inv_uid : 0 <= used_id (drv s) < 2 ^ 16;
  inv_uidx : 0 <= used_idx (drv s) < NUM;
  inv_call b c : calls s !! b = Some c -> exists x, vbufs (drv s) !! b = Some x /\ call_ok (drv s) b c x /\
    (vb_disk x = 1 <-> Z.of_nat (idx0 c) ∈ running s) /\ (vb_disk x = 0 <-> Z.of_nat (idx0 c) ∉ running s) /\
    effect (sectors s) c x (Z.of_nat (idx0 c) ∉ waiting s);
  inv_disj b b' c c' i : calls s !! b = Some c -> calls s !! b' = Some c' -> i ∈ idxs c -> i ∈ idxs c' -> b = b';
  inv_busy i : vfree (drv s) !! i = Some false -> exists b c, calls s !! b = Some c /\ i ∈ idxs c;
  inv_blocks b b' c c' x x' : calls s !! b = Some c -> calls s !! b' = Some c' ->
    vbufs (drv s) !! b = Some x -> vbufs (drv s) !! b' = Some x' -> vb_blockno x = vb_blockno x' -> b = b';
  inv_nodup : NoDup (running s);
  inv_run z : z ∈ running s -> exists b c, calls s !! b = Some c /\ z = Z.of_nat (idx0 c)
}.

(** *** At most two requests are in flight *)

Lemma NoDup_idxs (l : list (nat * call)) :
  NoDup l.*1 -> (forall b c, (b, c) ∈ l -> NoDup (idxs c)) ->
  (forall b b' c c' i, (b, c) ∈ l -> (b', c') ∈ l -> i ∈ idxs c -> i ∈ idxs c' -> b = b') ->
  NoDup (mjoin (idxs <$> l.*2)).
Proof.
  induction l as [|[b c] l IH]; intros Hnd Hc Hd; [constructor|].
  change (NoDup (idxs c ++ mjoin (idxs <$> l.*2))). apply NoDup_cons in Hnd as [Hb Hnd].
  apply NoDup_app. split; [eapply Hc; by left|]. split.
  - intros i Hi Hj. apply list_elem_of_join in Hj as (l' & Hil & Hl').
    apply list_elem_of_fmap in Hl' as (c' & -> & Hc'). apply list_elem_of_fmap in Hc' as ([b' c''] & -> & Hin).
    cbn in *. assert (b = b') as -> by (eapply (Hd b b' c c''); [by left|by right|done|done]).
    apply Hb. apply list_elem_of_fmap. by exists (b', c'').
  - apply IH; [done|intros b' c' Hin; eapply Hc; by right|].
    intros b1 b2 c1 c2 i H1 H2. apply Hd; by right.
Qed.

Lemma length_idxs (l : list (nat * call)) : length (mjoin (idxs <$> l.*2)) = (3 * length l)%nat.
Proof.
  induction l as [|[b c] l IH]; [done|]. change (length (idxs c ++ mjoin (idxs <$> l.*2)) = (3 * S (length l))%nat).
  rewrite length_app, IH. cbn. lia.
Qed.

Lemma inv_two s : inv s -> (length (running s) <= size (calls s) /\ 3 * size (calls s) <= 8)%nat.
Proof.
  intros Hi. assert (Hl : forall b c, (b, c) ∈ map_to_list (calls s) -> calls s !! b = Some c).
  { intros b c. apply elem_of_map_to_list. }
  split.
  - rewrite <- length_map_to_list, <- (length_fmap (fun p : nat * call => Z.of_nat (idx0 p.2))).
    apply submseteq_length, NoDup_submseteq; [by apply inv_nodup|]. intros z Hz. apply (inv_run s Hi) in Hz as (b & c & Hc & ->).
    apply list_elem_of_fmap. exists (b, c). split; [done|]. by apply elem_of_map_to_list.
  - rewrite <- length_map_to_list, <- length_idxs. transitivity (length (seq 0 8)); [|done].
    apply submseteq_length, NoDup_submseteq.
    + apply NoDup_idxs; [apply NoDup_fst_map_to_list| |].
      * intros b c Hc%Hl. destruct (inv_call s Hi b c Hc) as (x & _ & Hok & _). apply Hok.
      * intros b b' c c' i Hc%Hl Hc'%Hl. by apply (inv_disj s Hi).
    + intros i Hin. apply list_elem_of_join in Hin as (l & Hil & Hin). apply list_elem_of_fmap in Hin as (c & -> & Hin).
      apply list_elem_of_fmap in Hin as ([b c'] & -> & Hc%Hl). cbn in Hil.
      destruct (inv_call s Hi b c' Hc) as (x & _ & Hok & _). pose proof (call_busy _ _ _ _ Hok) as Hb. rewrite Forall_forall in Hb.
      apply Hb, lookup_lt_Some in Hil. rewrite (len_free _ (inv_len s Hi)) in Hil. apply elem_of_seq. lia.
Qed.

(** *** The rings *)

Lemma ring_push l start n pos x : length l = 8%nat -> 0 <= n <= 2 -> pos mod NUM = (start + n) mod NUM ->
  ring (<[Z.to_nat (pos mod NUM) := x]> l) NUM start (n + 1) = ring l NUM start n ++ [x].
Proof.
  intros Hl Hn Hp. unfold NUM in *. rewrite ring_snoc by lia. f_equal.
  - apply ring_insert; [lia| |zdm]. intros k Hk. rewrite Hp. zdm.
  - f_equal. rewrite <- Hp. apply list_lookup_total_insert_eq. rewrite Hl. zdm.
Qed.

Lemma ring_start l start start' n : start mod NUM = start' mod NUM -> ring l NUM start n = ring l NUM start' n.
Proof.
  intros E. unfold ring. apply list_fmap_ext. intros j k _. do 2 f_equal. unfold NUM in *. zdm.
Qed.

Lemma inv_counts s : inv s ->
  u16 (avail_idx (drv s) - dev_idx s) <= 2 /\ (used_id (drv s) - used_idx (drv s)) mod NUM <= 2.
Proof.
  intros Hi. destruct (inv_two s Hi) as [H1 H2]. unfold running, waiting, qheads, uheads in H1.
  rewrite !length_app, !length_ring in H1. lia.
Qed.

Lemma inv_heads s z : inv s -> z ∈ running s -> exists b c x, calls s !! b = Some c /\ z = Z.of_nat (idx0 c) /\
  vbufs (drv s) !! b = Some x /\ call_ok (drv s) b c x /\ vb_disk x = 1 /\ effect (sectors s) c x (z ∉ waiting s).
Proof.
  intros Hi Hz. destruct (inv_run s Hi z Hz) as (b & c & Hc & ->).
  destruct (inv_call s Hi b c Hc) as (x & Hx & Hok & H1 & _ & He). exists b, c, x. split_and!; try done. by apply H1.
Qed.

(** A descriptor of a call is not free. *)
Lemma inv_not_free s b c i : inv s -> calls s !! b = Some c -> i ∈ idxs c -> vfree (drv s) !! i = Some false.
Proof.
  intros Hi Hc Hin. destruct (inv_call s Hi b c Hc) as (x & _ & Hok & _).
  pose proof (call_busy _ _ _ _ Hok) as Hb. rewrite Forall_forall in Hb. by apply Hb.
Qed.

(** Calls are told apart by their first descriptor, and blocks by their buffer. *)
Lemma idx0_inj s b b' c c' : inv s -> calls s !! b = Some c -> calls s !! b' = Some c' -> idx0 c = idx0 c' -> b = b'.
Proof.
  intros Hi Hc Hc' E. eapply (inv_disj s Hi b b' c c' (idx0 c)); [done|done|by left|rewrite E; by left].
Qed.

Lemma blocks_update s v b x y : inv s -> vbufs (drv s) !! b = Some x -> vb_blockno y = vb_blockno x ->
  vbufs v = <[b := y]> (vbufs (drv s)) -> forall b1 b2 c1 c2 x1 x2, calls s !! b1 = Some c1 -> calls s !! b2 = Some c2 ->
  vbufs v !! b1 = Some x1 -> vbufs v !! b2 = Some x2 -> vb_blockno x1 = vb_blockno x2 -> b1 = b2.
Proof.
  intros Hi Hx E -> b1 b2 c1 c2 x1 x2 Hc1 Hc2 Hx1 Hx2 Eb.
  assert (Hold : forall b' z, <[b := y]> (vbufs (drv s)) !! b' = Some z ->
     exists z', vbufs (drv s) !! b' = Some z' /\ vb_blockno z' = vb_blockno z).
  { intros b' z Hz. destruct (decide (b' = b)) as [->|]; [rewrite lookup_insert_eq in Hz; injection Hz as <-; by exists x|].
    rewrite lookup_insert_ne in Hz by done. by exists z. }
  destruct (Hold _ _ Hx1) as (y1 & Hy1 & E1). destruct (Hold _ _ Hx2) as (y2 & Hy2 & E2).
  eapply (inv_blocks s Hi); [exact Hc1|exact Hc2|done|done|congruence].
Qed.

(** *** Transfers *)

Lemma disk_read_write d k l : disk_read (disk_write d k l) k = l.
Proof.
  unfold disk_read, disk_write, sector. rewrite lookup_insert_eq, lookup_insert_ne, lookup_insert_eq by lia. cbn. apply take_drop.
Qed.

Lemma disk_read_other d k l j : j <> k -> Z.even j = Z.even k -> disk_read (disk_write d k l) j = disk_read d j.
Proof.
  intros Hne He. assert (j <> k + 1 /\ j + 1 <> k) as [H1 H2].
  { split; intros Hj; [subst j|subst k]; rewrite Z.even_add in He; cbn in He; by destruct (Z.even _). }
  unfold disk_read, disk_write, sector. by rewrite !lookup_insert_ne by lia.
Qed.

(** ** Every step preserves the invariant *)

(** Changes that leave the rings, the free descriptors and the waiting calls alone. *)
Lemma inv_same s v : inv s -> lengths v ->
  avail_ring v = avail_ring (drv s) -> avail_idx v = avail_idx (drv s) -> used_id v = used_id (drv s) ->
  used_elems v = used_elems (drv s) -> used_idx v = used_idx (drv s) -> vfree v = vfree (drv s) ->
  (forall b c, calls s !! b = Some c -> vbufs v !! b = vbufs (drv s) !! b) ->
  (forall b c x, calls s !! b = Some c -> call_ok (drv s) b c x -> call_ok v b c x) ->
  inv (mk_sys v (dev_idx s) (dev_pend s) (sectors s) (calls s)).
Proof.
  intros Hi Hl Ha1 Ha2 Hu1 Hu2 Hu3 Hf Hb Hc. destruct Hi as [_ H1 H2 H3 H4 H5 H6 H7 H8 H9 H10].
  assert (Hq : qheads (mk_sys v (dev_idx s) (dev_pend s) (sectors s) (calls s)) = qheads s) by (unfold qheads; cbn; congruence).
  assert (Hu : uheads v = uheads (drv s)) by (unfold uheads; congruence).
  split; cbn [drv dev_idx dev_pend sectors calls]; rewrite ?Ha2, ?Hu1, ?Hu3, ?Hf; unfold running, waiting; rewrite ?Hq; cbn [drv dev_pend]; rewrite ?Hu; try done.
  - intros b c Hbc. destruct (H5 b c Hbc) as (x & Hx & Hok & Hrest). exists x. split; [by rewrite (Hb b c)|]. split; [by eapply Hc|done].
  - intros b b' c c' x x' Hbc Hbc'. rewrite (Hb b c Hbc), (Hb b' c' Hbc'). by eapply H8.
Qed.

Lemma inv_use s b x y : inv s -> calls s !! b = None -> vbufs (drv s) !! b = Some x ->
  inv (mk_sys (set_vbufs (<[b := y]> (vbufs (drv s))) (drv s)) (dev_idx s) (dev_pend s) (sectors s) (calls s)).
Proof.
  intros Hi Hb Hx. apply inv_same; fields; try done.
  - pose proof (inv_len s Hi) as [? ? ? ? ? ?]. by split; fields.
  - intros b' c Hc. rewrite lookup_insert_ne; [done|congruence].
  - intros b' c x' Hc [? ? ? ? ? ? ? ? ?]. by split; fields.
Qed.

Lemma inv_wait s v : inv s -> free_changed (drv s) v ->
  inv (mk_sys v (dev_idx s) (dev_pend s) (sectors s) (calls s)).
Proof.
  intros Hi (ds & wk & -> & Hl & Hd). apply inv_same; fields; try done.
  - pose proof (inv_len s Hi) as [? ? ? ? ? ?]. split; fields; congruence.
  - intros b c x Hc Hok. pose proof (inv_not_free s b c) as Hnf. destruct Hok as [? Hbusy ? ? ? ? ? ? ?].
    rewrite Forall_forall in Hbusy. assert (Hin : forall i d, i ∈ idxs c -> desc (drv s) !! i = Some d -> ds !! i = Some d).
    { intros i d Hic. apply Hd. rewrite (Hbusy i Hic). congruence. }
    split; fields; try done; [by apply Forall_forall|..]; apply Hin; try done; unfold idxs; set_solver.
Qed.

Lemma inv_fetch s h : inv s -> dev_idx s <> avail_idx (drv s) ->
  avail_ring (drv s) !! Z.to_nat (dev_idx s mod NUM) = Some h ->
  inv (mk_sys (drv s) (u16 (dev_idx s + 1)) (h :: dev_pend s) (sectors s) (calls s)).
Proof.
  intros Hi Hne Hh. pose proof (inv_counts s Hi) as [Hn _]. pose proof Hi as [Hl H1 H2 H3 H4 H5 H6 H7 H8 H9 H10].
  set (s' := mk_sys (drv s) (u16 (dev_idx s + 1)) (h :: dev_pend s) (sectors s) (calls s)).
  assert (Hq : qheads s = h :: qheads s').
  { unfold qheads, s'. cbn [drv dev_idx]. rewrite ring_cons by (unfold u16 in *; zdm). f_equal.
    - by apply list_lookup_total_correct.
    - rewrite (ring_start _ (dev_idx s + 1) (u16 (dev_idx s + 1))) by (unfold u16, NUM; zdm). f_equal. unfold u16 in *. zdm. }
  assert (Hw : waiting s' ≡ₚ waiting s).
  { unfold waiting. rewrite Hq. cbn [dev_pend s']. symmetry. apply Permutation_middle. }
  assert (Hr : running s' ≡ₚ running s) by (unfold running; rewrite Hw; done).
  split; cbn [drv dev_idx dev_pend sectors calls s']; try done.
  - unfold u16. apply Z.mod_pos_bound. lia.
  - intros b c Hc. setoid_rewrite Hr. setoid_rewrite Hw. by apply H5.
  - by rewrite Hr.
  - intros z. rewrite Hr. apply H10.
Qed.

(** The requests of other buffers are not touched by a new one. *)
Lemma call_ok_submitted v b w x i0 i1 i2 b' c' x' :
  Forall (fun i => vfree v !! i = Some true) [i0; i1; i2] -> b' <> b -> call_ok v b' c' x' ->
  call_ok (submitted b w x i0 i1 i2 v) b' c' x'.
Proof.
  intros Hfr Hne [Hnd Hbusy Hh Hd Hs Hr Hi Hst Hb].
  assert (Hap : forall i j, i ∈ idxs c' -> j ∈ [i0; i1; i2] -> j <> i).
  { intros i j Hic Hj ->. rewrite Forall_forall in Hbusy, Hfr. specialize (Hbusy _ Hic). specialize (Hfr _ Hj). congruence. }
  assert (H0 : idx0 c' ∈ idxs c') by (unfold idxs; set_solver). assert (H1 : idx1 c' ∈ idxs c') by (unfold idxs; set_solver).
  assert (H2 : idx2 c' ∈ idxs c') by (unfold idxs; set_solver).
  split; unfold submitted; fields; try done; try by rewrite lookup_insert_ne by congruence.
  - rewrite Forall_forall in Hbusy |- *. intros i Hic. rewrite !list_lookup_insert_ne; [by apply Hbusy|..]; apply Hap; set_solver.
  - rewrite !list_lookup_insert_ne; [done|..]; apply Hap; set_solver.
  - rewrite !list_lookup_insert_ne; [done|..]; apply Hap; set_solver.
  - rewrite !list_lookup_insert_ne; [done|..]; apply Hap; set_solver.
  - rewrite list_lookup_insert_ne; [done|apply Hap; set_solver].
  - rewrite list_lookup_insert_ne; [done|apply Hap; set_solver].
Qed.

Lemma call_ok_new v b w x i0 i1 i2 sn :
  lengths v -> NoDup [i0; i1; i2] -> Forall (fun i => vfree v !! i = Some true) [i0; i1; i2] -> 0 <= vb_blockno x < 2 ^ 31 ->
  call_ok (submitted b w x i0 i1 i2 v) b (mk_call (i0, i1, i2) w sn) (set_vb_disk 1 x).
Proof.
  intros [Hld _ _ Hlf Hli Hls] Hnd Hfr Hb.
  assert (Hlt : forall i, i ∈ [i0; i1; i2] -> (i < 8)%nat).
  { intros i Hi. rewrite Forall_forall in Hfr. rewrite <- Hlf. by eapply lookup_lt_Some, Hfr. }
  assert (i0 < 8 /\ i1 < 8 /\ i2 < 8)%nat as (L0 & L1 & L2) by (split_and!; apply Hlt; set_solver).
  assert (i0 <> i1 /\ i0 <> i2 /\ i1 <> i2) as (? & ? & ?) by (rewrite !NoDup_cons in Hnd; set_solver).
  split; unfold submitted, idxs, idx0, idx1, idx2; cbn [c_idx c_write c_snap fst snd]; fields; try done.
  - rewrite !Forall_cons. split_and!; [| | |done].
    + rewrite list_lookup_insert_ne, list_lookup_insert_ne by done. apply list_lookup_insert_eq. lia.
    + rewrite list_lookup_insert_ne by done. apply list_lookup_insert_eq. rewrite length_insert. lia.
    + apply list_lookup_insert_eq. rewrite !length_insert. lia.
  - rewrite list_lookup_insert_ne, list_lookup_insert_ne by done. apply list_lookup_insert_eq. lia.
  - rewrite list_lookup_insert_ne by done. apply list_lookup_insert_eq. rewrite length_insert. lia.
  - apply list_lookup_insert_eq. rewrite !length_insert. lia.
  - by rewrite lookup_insert_eq.
  - apply list_lookup_insert_eq. lia.
  - apply list_lookup_insert_eq. lia.
Qed.

Lemma inv_submit s b w x i0 i1 i2 : inv s -> may_submit s b x ->
  NoDup [i0; i1; i2] -> Forall (fun i => vfree (drv s) !! i = Some true) [i0; i1; i2] ->
  inv (mk_sys (submitted b w x i0 i1 i2 (drv s)) (dev_idx s) (dev_pend s) (sectors s)
         (<[b := mk_call (i0, i1, i2) w (snapshot w x (sectors s))]> (calls s))).
Proof.
  intros Hi (Hb & Hx & Hbno & Hblk) Hnd Hfr. set (c := mk_call (i0, i1, i2) w (snapshot w x (sectors s))).
  set (s' := mk_sys _ _ _ _ _). pose proof (inv_counts s Hi) as [Hn _].
  pose proof Hi as [Hl H1 H2 H3 H4 H5 H6 H7 H8 H9 H10].
  assert (Hfree : forall b' c' i, calls s !! b' = Some c' -> i ∈ idxs c' -> i ∉ [i0; i1; i2]).
  { intros b' c' i Hc' Hic Hii. rewrite Forall_forall in Hfr. pose proof (inv_not_free s b' c' i Hi Hc' Hic). specialize (Hfr i Hii). congruence. }
  assert (Hq : qheads s' = qheads s ++ [Z.of_nat i0]).
  { unfold qheads, s', submitted. cbn [drv dev_idx]. fields.
    replace (u16 (u16 (avail_idx (drv s) + 1) - dev_idx s)) with (u16 (avail_idx (drv s) - dev_idx s) + 1) by (unfold u16 in *; zdm).
    apply ring_push; [apply Hl|unfold u16 in *; zdm|unfold u16, NUM; zdm]. }
  assert (Hw : waiting s' ≡ₚ Z.of_nat i0 :: waiting s).
  { unfold waiting. rewrite Hq. cbn [dev_pend s']. rewrite <- app_assoc. symmetry. apply Permutation_middle. }
  assert (Hr : running s' ≡ₚ Z.of_nat i0 :: running s) by (unfold running; rewrite Hw; done).
  assert (Hnew : Z.of_nat i0 ∉ running s).
  { intros (b' & c' & Hc' & E)%H10. apply Nat2Z.inj in E. eapply (Hfree b' c' i0); [done|rewrite E; unfold idxs; set_solver|set_solver]. }
  split; cbn [drv dev_idx dev_pend sectors calls s']; unfold submitted; fold (submitted b w x i0 i1 i2 (drv s)); try (fields; done).
  - destruct Hl. split; unfold submitted; fields; rewrite ?length_insert; done.
  - fields. unfold u16. apply Z.mod_pos_bound. lia.
  - intros b' c' Hc'. destruct (decide (b' = b)) as [->|Hne].
    + rewrite lookup_insert_eq in Hc'. injection Hc' as <-. exists (set_vb_disk 1 x). unfold submitted at 1. fields.
      split; [by rewrite lookup_insert_eq|]. split; [by apply call_ok_new|].
      change (idx0 c) with i0. setoid_rewrite Hr. setoid_rewrite Hw. split; [split; [intros _; by left|done]|].
      split; [split; [done|set_solver]|]. unfold effect. fields. unfold c, snapshot. cbn [c_write c_snap].
      destruct w; split; intros [?|?]; try done; set_solver.
    + rewrite lookup_insert_ne in Hc' by done. destruct (H5 b' c' Hc') as (x' & Hx' & Hok & Hd1 & Hd0 & He).
      exists x'. unfold submitted at 1. fields. rewrite lookup_insert_ne by done. split; [done|].
      split; [by apply call_ok_submitted|]. setoid_rewrite Hr. setoid_rewrite Hw.
      assert (Hni : Z.of_nat (idx0 c') <> Z.of_nat i0).
      { intros E%Nat2Z.inj. eapply (Hfree b' c' (idx0 c')); [done|unfold idxs; set_solver|rewrite E; set_solver]. }
      rewrite !elem_of_cons. split; [rewrite Hd1; tauto|]. split; [rewrite Hd0; tauto|].
      assert (E : Z.of_nat (idx0 c') ∉ waiting s <-> ~ (Z.of_nat (idx0 c') = Z.of_nat i0 \/ Z.of_nat (idx0 c') ∈ waiting s)) by tauto.
      by rewrite <- E.
  - intros b1 b2 c1 c2 i Hc1 Hc2 Hi1 Hi2. destruct (decide (b1 = b)) as [->|N1], (decide (b2 = b)) as [->|N2]; [done|..].
    + rewrite lookup_insert_eq in Hc1. rewrite lookup_insert_ne in Hc2 by done. injection Hc1 as <-. by destruct (Hfree b2 c2 i).
    + rewrite lookup_insert_eq in Hc2. rewrite lookup_insert_ne in Hc1 by done. injection Hc2 as <-. by destruct (Hfree b1 c1 i).
    + rewrite lookup_insert_ne in Hc1, Hc2 by done. by eapply H6.
  - intros i Hif. unfold submitted in Hif. fields_in Hif. destruct (decide (i ∈ [i0; i1; i2])) as [Hin|Hin].
    + exists b, c. split; [by rewrite lookup_insert_eq|done].
    + rewrite !not_elem_of_cons in Hin. rewrite !list_lookup_insert_ne in Hif by naive_solver.
      destruct (H7 i Hif) as (b' & c' & Hc' & Hic). exists b', c'. split; [|done]. rewrite lookup_insert_ne; [done|congruence].
  - intros b1 b2 c1 c2 x1 x2 Hc1 Hc2 Hx1 Hx2 E. unfold submitted in Hx1, Hx2. fields_in Hx1. fields_in Hx2.
    destruct (decide (b1 = b)) as [->|N1], (decide (b2 = b)) as [->|N2]; [done|..].
    + rewrite lookup_insert_eq in Hx1. rewrite lookup_insert_ne in Hc2 by done. rewrite lookup_insert_ne in Hx2 by done. injection Hx1 as <-. by destruct (Hblk b2 c2 x2).
    + rewrite lookup_insert_eq in Hx2. rewrite lookup_insert_ne in Hc1 by done. rewrite lookup_insert_ne in Hx1 by done. injection Hx2 as <-. by destruct (Hblk b1 c1 x1).
    + rewrite lookup_insert_ne in Hc1, Hc2 by done. rewrite lookup_insert_ne in Hx1, Hx2 by done. by eapply H8.
  - rewrite Hr. by constructor.
  - intros z. rewrite Hr, elem_of_cons. intros [->|Hz].
    + exists b, c. split; [by rewrite lookup_insert_eq|done].
    + destruct (H10 z Hz) as (b' & c' & Hc' & ->). exists b', c'. split; [|done]. rewrite lookup_insert_ne; [done|congruence].
Qed.

(** What the device does with the request [c] for buffer [b]. *)
Definition moved (c : call) (x : vbuf) (d : gmap Z (list Z)) : vbuf :=
  if c_write c then x else set_vb_data (disk_read d (2 * vb_blockno x)) x.
Definition stored (c : call) (x : vbuf) (d : gmap Z (list Z)) : gmap Z (list Z) :=
  if c_write c then disk_write d (2 * vb_blockno x) (vb_data x) else d.
Definition executed (v : vdisk) (b : nat) (c : call) (x : vbuf) (d : gmap Z (list Z)) : vdisk :=
  set_vbufs (<[b := moved c x d]> (vbufs v)) (set_used_id (u16 (used_id v + 1))
    (set_used_elems (<[Z.to_nat (used_id v mod NUM) := Z.of_nat (idx0 c)]> (used_elems v)) v)).

Lemma dev_do_eq v b c x d : call_ok v b c x -> vbufs v !! b = Some x ->
  dev_do (idx0 c) v d = Some (executed v b c x d, stored c x d).
Proof.
  intros [_ _ Hh Hd Hs Hr _ Hst Hb] Hx. unfold dev_do. rewrite Hh. cbn [mbind option_bind d_next desc_hdr].
  rewrite Hd. cbn [mbind option_bind d_next desc_data]. rewrite Hs. cbn [mbind option_bind d_addr desc_hdr desc_data desc_status].
  rewrite Hr, Hx. cbn [mbind option_bind]. unfold req_hdr. cbn [fst snd].
  rewrite (u32_id (vb_blockno x * 2)), (Z.mul_comm _ 2) by lia. rewrite (list_insert_id _ _ _ Hst).
  unfold executed, moved, stored. destruct (c_write c); cbn [d_flags desc_data]; cbn.
  - rewrite (insert_id (vbufs v)) by done. by destruct v.
  - by destruct v.
Qed.

Lemma moved_effect d c x (P : Prop) : effect d c x P ->
  vb_data (moved c x d) = c_snap c /\ disk_read (stored c x d) (2 * vb_blockno x) = c_snap c.
Proof.
  intros [H1 H2]. unfold moved, stored. destruct (c_write c); fields.
  - split; [by apply H1; left|]. rewrite disk_read_write. by apply H1; left.
  - split; apply H2; by left.
Qed.

Lemma stored_other d c x bno : vb_blockno x <> bno -> disk_read (stored c x d) (2 * bno) = disk_read d (2 * bno).
Proof.
  intros Hne. unfold stored. destruct (c_write c); [|done]. apply disk_read_other; [lia|].
  by rewrite !Z.even_mul.
Qed.

Lemma moved_fields d c x : vb_blockno (moved c x d) = vb_blockno x /\ vb_disk (moved c x d) = vb_disk x.
Proof. unfold moved. by destruct (c_write c). Qed.

Lemma call_ok_executed v b c x d b' c' x' y :
  call_ok v b' c' x' -> vb_blockno y = vb_blockno x' -> call_ok (executed v b c x d) b' c' y.
Proof.
  intros [? ? ? ? ? Hr ? ? ?] E. split; unfold executed; fields; try done; [|by rewrite E].
  rewrite Hr. unfold req_hdr. by rewrite E.
Qed.

Lemma inv_do s l1 h l2 b c x : inv s -> dev_pend s = l1 ++ h :: l2 -> calls s !! b = Some c -> h = Z.of_nat (idx0 c) ->
  vbufs (drv s) !! b = Some x -> call_ok (drv s) b c x ->
  inv (mk_sys (executed (drv s) b c x (sectors s)) (dev_idx s) (l1 ++ l2) (stored c x (sectors s)) (calls s)).
Proof.
  intros Hi Hp Hc Hh Hx Hok. set (s' := mk_sys _ _ _ _ _). pose proof (inv_counts s Hi) as [_ Hn].
  pose proof Hi as [Hl H1 H2 H3 H4 H5 H6 H7 H8 H9 H10].
  assert (Hu : uheads (drv s') = uheads (drv s) ++ [h]).
  { unfold uheads, s', executed. cbn [drv]. fields. rewrite <- Hh.
    replace ((u16 (used_id (drv s) + 1) - used_idx (drv s)) mod NUM) with ((used_id (drv s) - used_idx (drv s)) mod NUM + 1)
      by (unfold u16, NUM in *; zdm).
    apply ring_push; [apply Hl|unfold NUM in *; zdm|unfold NUM in *; zdm]. }
  assert (Hw : waiting s ≡ₚ h :: waiting s').
  { unfold waiting. rewrite Hp. change (qheads s') with (qheads s). cbn [dev_pend s']. rewrite !app_assoc. symmetry. apply Permutation_middle. }
  assert (Hr : running s' ≡ₚ running s).
  { unfold running. rewrite Hu, Hw, app_assoc. cbn [app]. rewrite Permutation_app_comm. done. }
  assert (Hnw : h ∉ waiting s').
  { unfold running in H9. rewrite Hw in H9. cbn [app] in H9. apply NoDup_cons in H9 as [H9 _]. set_solver. }
  destruct (moved_fields (sectors s) c x) as [Hmb Hmd].
  split; cbn [drv dev_idx dev_pend sectors calls s']; try done.
  - destruct Hl. split; unfold executed; fields; rewrite ?length_insert; done.
  - unfold executed. fields. unfold u16. apply Z.mod_pos_bound. lia.
  - intros b' c' Hc'. destruct (H5 b' c' Hc') as (x' & Hx' & Hok' & Hd1 & Hd0 & He). setoid_rewrite Hr.
    unfold executed at 1. fields. destruct (decide (b' = b)) as [->|Hne].
    + replace c' with c in * by congruence. replace x' with x in * by congruence. exists (moved c x (sectors s)).
      rewrite lookup_insert_eq. split; [done|]. split; [by apply (call_ok_executed _ _ _ _ _ _ _ x)|]. rewrite Hmd.
      split; [done|]. split; [done|]. destruct (moved_effect _ _ _ _ He) as [E1 E2]. by split; rewrite ?Hmb.
    + exists x'. rewrite lookup_insert_ne by done. split; [done|]. split; [by apply (call_ok_executed _ _ _ _ _ _ _ x')|].
      split; [done|]. split; [done|]. assert (Hne' : Z.of_nat (idx0 c') <> h) by (subst h; intros E%Nat2Z.inj; apply Hne; by apply (idx0_inj s b' b c' c)).
      unfold effect in *. rewrite stored_other by (intros E; apply Hne; by eapply H8). rewrite Hw in He.
      rewrite elem_of_cons in He. destruct He as [E1 E2]. split; [intros [?|?]; apply E1; [by left|right; tauto]|intros [?|?]; apply E2; [by left|right; tauto]].
  - by apply (blocks_update s _ b x (moved c x (sectors s))).
  - by rewrite Hr.
  - intros z. rewrite Hr. apply H10.
Qed.

(** The interrupt handler has seen the request [c] for buffer [b]. *)
Definition seen (v : vdisk) (b : nat) (x : vbuf) : vdisk :=
  set_used_idx ((used_idx v + 1) mod NUM)
    (set_woken (Ch_buf b :: woken v) (set_vbufs (<[b := set_vb_disk 0 x]> (vbufs v)) v)).

Lemma call_ok_seen v b x b' c' x' y :
  call_ok v b' c' x' -> vb_blockno y = vb_blockno x' -> call_ok (seen v b x) b' c' y.
Proof.
  intros [? ? ? ? ? Hr ? ? ?] E. split; unfold seen; fields; try done; [|by rewrite E].
  rewrite Hr. unfold req_hdr. by rewrite E.
Qed.

Abbreviation with_drv s v := (mk_sys v (dev_idx s) (dev_pend s) (sectors s) (calls s)).

Lemma uheads_cons v : 0 <= used_idx v < NUM -> length (used_elems v) = 8%nat -> used_idx v mod NUM <> used_id v mod NUM ->
  exists h, used_elems v !! Z.to_nat (used_idx v) = Some h /\ uheads v = h :: uheads (set_used_idx ((used_idx v + 1) mod NUM) v).
Proof.
  intros Hui Hl Hne. destruct (lookup_lt_is_Some_2 (used_elems v) (Z.to_nat (used_idx v))) as [h Hh]; [unfold NUM in *; lia|].
  exists h. split; [done|]. unfold uheads. fields. rewrite ring_cons by (unfold NUM in *; zdm). f_equal.
  - rewrite Z.mod_small by done. by apply list_lookup_total_correct.
  - rewrite (ring_start _ ((used_idx v + 1) mod NUM) (used_idx v + 1)) by (unfold NUM; zdm). f_equal. unfold NUM in *. zdm.
Qed.

Lemma inv_seen s h b c x : inv s -> uheads (drv s) = h :: uheads (seen (drv s) b x) -> calls s !! b = Some c -> h = Z.of_nat (idx0 c) ->
  vbufs (drv s) !! b = Some x -> inv (with_drv s (seen (drv s) b x)).
Proof.
  intros Hi Hu Hc Hh Hx. set (s' := with_drv s (seen (drv s) b x)).
  pose proof Hi as [Hl H1 H2 H3 H4 H5 H6 H7 H8 H9 H10].
  assert (Hw : waiting s' = waiting s) by done.
  assert (Hr : running s ≡ₚ h :: running s').
  { unfold running. rewrite Hu, Hw. symmetry. apply Permutation_middle. }
  assert (Hnr : h ∉ running s') by (rewrite Hr in H9; by apply NoDup_cons in H9 as [? _]).
  split; cbn [drv dev_idx dev_pend sectors calls s']; try done.
  - destruct Hl. by split.
  - unfold seen. fields. unfold NUM. apply Z.mod_pos_bound. lia.
  - intros b' c' Hc'. destruct (H5 b' c' Hc') as (x' & Hx' & Hok' & Hd1 & Hd0 & He).
    unfold seen at 1. fields. destruct (decide (b' = b)) as [->|Hne].
    + replace c' with c in * by congruence. replace x' with x in * by congruence. exists (set_vb_disk 0 x).
      rewrite lookup_insert_eq. split; [done|]. split; [by apply (call_ok_seen _ _ _ _ _ x)|]. fields. rewrite <- Hh.
      split; [split; [done|by intros ?]|]. split; [done|]. by rewrite <- Hh in He.
    + exists x'. rewrite lookup_insert_ne by done. split; [done|]. split; [by apply (call_ok_seen _ _ _ _ _ x')|].
      assert (Hne' : Z.of_nat (idx0 c') <> h) by (subst h; intros E%Nat2Z.inj; apply Hne; by apply (idx0_inj s b' b c' c)).
      rewrite Hr in Hd1, Hd0. rewrite elem_of_cons in Hd1, Hd0. split; [rewrite Hd1; tauto|]. split; [rewrite Hd0; tauto|done].
  - by apply (blocks_update s _ b x (set_vb_disk 0 x)).
  - rewrite Hr in H9. by apply NoDup_cons in H9 as [_ ?].
  - intros z Hz. apply H10. rewrite Hr. by right.
Qed.

Lemma wp_intr `{VirtioMmio} s : inv s ->
  wp virtio_disk_intr (fun _ v => inv (with_drv s v) /\ qheads (with_drv s v) = qheads s /\ uheads v = []) (drv s).
Proof.
  intros Hi. unfold virtio_disk_intr. wstep. set (I := fun v => inv (with_drv s v) /\ qheads (with_drv s v) = qheads s).
  eapply wp_mono; [eapply (wp_iter _ (fun _ => I) (fun _ v => I v /\ uheads v = []) (fun _ v => length (uheads v)))|].
  - split; [by destruct s|done].
  - destruct (inv_two s Hi) as [Ha Hb]. unfold running in Ha. rewrite length_app in Ha. change (Z.to_nat NUM) with 8%nat. lia.
  - intros _ v [Hv Hq]. wstep. wstep. wstep. wstep. pose proof (inv_len _ Hv) as Hl. pose proof (inv_uidx _ Hv) as Hui. cbn [drv] in *.
    destruct (Z.eqb_spec (used_idx v mod NUM) (used_id v mod NUM)) as [E|E]; cbn [negb].
    { wsteps. split; [done|]. unfold uheads. replace ((used_id v - used_idx v) mod NUM) with 0 by (unfold NUM in *; zdm). done. }
    destruct (uheads_cons v Hui (len_used _ Hl) E) as (h & Hh & Eu).
    destruct (inv_heads _ h Hv) as (b & c & x & Hc & -> & Hx & Hok & _); [unfold running; cbn [drv]; rewrite Eu; set_solver|].
    cbn [drv calls] in *. destruct Hok as [_ _ _ _ _ _ Hib Hst _]. rewrite <- (Nat2Z.id (idx0 c)) in Hib, Hst.
    wsteps. change (negb (0 =? 0)) with false. cbn iota. wsteps. eapply wp_modify_vbuf; [done|]. unfold wakeup. wsteps. fields.
    split; [split; [|done]|rewrite Eu; cbn [length]; unfold uheads; fields; lia].
    by apply (inv_seen (with_drv s v) (Z.of_nat (idx0 c)) b c x).
  - intros _ v [[Hv Hq] Hu]. unfold write_reg. wsteps. split; [|done]. apply (inv_same (with_drv s v)); try done.
    + destruct (inv_len _ Hv). by split.
    + intros b c x _ [? ? ? ? ? ? ? ? ?]. by split.
Qed.

Lemma inv_finish s b c x ds wk : inv s -> calls s !! b = Some c -> vbufs (drv s) !! b = Some x -> vb_disk x = 0 ->
  length ds = length (desc (drv s)) -> (forall i, i ∉ idxs c -> ds !! i = desc (drv s) !! i) ->
  inv (mk_sys (set_woken wk (set_vfree (<[idx2 c := true]> (<[idx1 c := true]> (<[idx0 c := true]> (vfree (drv s)))))
        (set_desc ds (set_info_b (<[idx0 c := None]> (info_b (drv s))) (drv s)))))
      (dev_idx s) (dev_pend s) (sectors s) (delete b (calls s))).
Proof.
  intros Hi Hc Hx Hd Hld Hds. set (s' := mk_sys _ _ _ _ _). pose proof Hi as [Hl H1 H2 H3 H4 H5 H6 H7 H8 H9 H10].
  assert (Hother : forall b' c' i, delete b (calls s) !! b' = Some c' -> b' <> b /\ calls s !! b' = Some c' /\ (i ∈ idxs c' -> i ∉ idxs c)).
  { intros b' c' i Hc'. apply lookup_delete_Some in Hc' as [Hne Hc']. split; [done|]. split; [done|]. intros Hi1 Hi2. by destruct Hne; eapply H6. }
  split; cbn [drv dev_idx dev_pend sectors calls s']; fields; try done.
  - destruct Hl. split; fields; rewrite ?length_insert; congruence.
  - intros b' c' Hc'. destruct (Hother b' c' 0%nat Hc') as (Hne & Hcs & _). destruct (H5 b' c' Hcs) as (x' & Hx' & Hok & Hrest).
    exists x'. split; [done|]. split; [|done].
    assert (Hin : forall i, i ∈ idxs c' -> i ∉ idxs c) by (intros i; by apply (Hother b' c')).
    destruct Hok as [? Hb ? ? ? ? Hib ? ?]. split; fields; try done.
    + rewrite Forall_forall in Hb |- *. intros i Hic. specialize (Hin i Hic). unfold idxs in Hin. rewrite !not_elem_of_cons in Hin.
      rewrite !list_lookup_insert_ne by naive_solver. by apply Hb.
    + rewrite Hds; [done|]. apply Hin. unfold idxs. set_solver.
    + rewrite Hds; [done|]. apply Hin. unfold idxs. set_solver.
    + rewrite Hds; [done|]. apply Hin. unfold idxs. set_solver.
    + rewrite list_lookup_insert_ne; [done|]. intros E. eapply (Hin (idx0 c')); [by left|rewrite <- E; by left].
  - intros b1 b2 c1 c2 i Hc1 Hc2. apply (Hother _ _ 0%nat) in Hc1 as (_ & Hc1 & _). apply (Hother _ _ 0%nat) in Hc2 as (_ & Hc2 & _). by eapply H6.
  - intros i Hf. destruct (decide (i ∈ idxs c)) as [Hin|Hin].
    + exfalso. assert (Hlt : forall j, j ∈ idxs c -> (j < length (vfree (drv s)))%nat).
      { intros j Hj. eapply lookup_lt_Some. by eapply inv_not_free. }
      assert (Hlt2 := Hlt (idx2 c)). assert (Hlt1 := Hlt (idx1 c)). assert (Hlt0 := Hlt (idx0 c)). unfold idxs in *.
      destruct (decide (i = idx2 c)) as [->|N2]; [rewrite list_lookup_insert_eq in Hf; [done|rewrite !length_insert; set_solver]|].
      rewrite list_lookup_insert_ne in Hf by done.
      destruct (decide (i = idx1 c)) as [->|N1]; [rewrite list_lookup_insert_eq in Hf; [done|rewrite !length_insert; set_solver]|].
      rewrite list_lookup_insert_ne in Hf by done. assert (i = idx0 c) as -> by set_solver.
      rewrite list_lookup_insert_eq in Hf; [done|set_solver].
    + assert (Hin' := Hin). unfold idxs in Hin'. rewrite !not_elem_of_cons in Hin'. rewrite !list_lookup_insert_ne in Hf by naive_solver.
      destruct (H7 i Hf) as (b' & c' & Hc' & Hic). exists b', c'. split; [|done]. apply lookup_delete_Some. split; [|done]. intros ->. congruence.
  - intros b1 b2 c1 c2 x1 x2 Hc1 Hc2. apply (Hother _ _ 0%nat) in Hc1 as (_ & Hc1 & _). apply (Hother _ _ 0%nat) in Hc2 as (_ & Hc2 & _). by eapply H8.
  - intros z Hz. destruct (H10 z Hz) as (b' & c' & Hc' & ->). exists b', c'. split; [|done]. apply lookup_delete_Some. split; [|done].
    intros <-. destruct (H5 b c Hc) as (x' & Hx' & _ & _ & Hd0 & _). replace x' with x in Hd0 by congruence.
    replace c' with c in Hz by congruence. by apply Hd0.
Qed.

(** ** Reachable states *)

Section Reachable.
Context `{VirtioMmio}.

Lemma drv_inv_init v d : vinit v -> inv (mk_sys v 0 [] d ∅).
Proof.
  intros (E1 & E2 & E3 & E4 & E5 & E6 & E7 & L1 & L2).
  assert (Hr : running (mk_sys v 0 [] d ∅) = []) by (unfold running, waiting, qheads, uheads; cbn; by rewrite E3, E4, E7).
  split; cbn [drv dev_idx calls]; rewrite ?E3, ?E4, ?E7, ?Hr; try done; try by intros *; rewrite lookup_empty.
  - split; rewrite ?E1, ?E2, ?E5, ?E6; done.
  - intros i Hi. rewrite E6 in Hi. by apply lookup_replicate in Hi as [? _].
  - by constructor.
  - intros z Hz. by apply not_elem_of_nil in Hz.
Qed.

Lemma wp_submit s b w x : inv s -> may_submit s b x ->
  wp (rw_submit b w) (fun r v => match r with
    | Some idx => inv (mk_sys v (dev_idx s) (dev_pend s) (sectors s) (<[b := mk_call idx w (snapshot w x (sectors s))]> (calls s)))
    | None => inv (with_drv s v) /\ calls s <> ∅
    end) (drv s).
Proof.
  intros Hi Hm. pose proof Hm as (_ & Hx & _). destruct (inv_len s Hi) as [Hd _ _ Hf _ _]. eapply wp_rw_submit; [done|done|done| |].
  - intros i0 i1 i2 Hnd Hfr. by apply inv_submit.
  - intros v Hv (i & Hi8 & Hif). split; [by apply inv_wait|]. destruct (inv_busy s Hi i Hif) as (b' & c & Hc & _).
    intros E. by rewrite E, lookup_empty in Hc.
Qed.

Lemma wp_finish s b c x : inv s -> calls s !! b = Some c -> vbufs (drv s) !! b = Some x -> vb_disk x = 0 ->
  wp (rw_finish (idx0 c)) (fun _ v => inv (mk_sys v (dev_idx s) (dev_pend s) (sectors s) (delete b (calls s)))) (drv s).
Proof.
  intros Hi Hc Hx Hd. destruct (inv_call s Hi b c Hc) as (x' & _ & [? ? ? ? ? ? ? ? ?] & _).
  eapply (wp_rw_finish b (c_write c) (idx0 c) (idx1 c) (idx2 c)); try done; [apply (inv_len s Hi)|].
  intros ds wk Hl Hds. by apply (inv_finish s b c x).
Qed.

Lemma drv_inv_step s s' : inv s -> step s s' -> inv s'.
Proof.
  intros Hi Hst. destruct Hst as [s b w x idx v Hm E|s b w x v Hm E|s h Hne Hh|s l1 h l2 v d Hp E|s v E|s b c x v Hc Hx Hd E|s b x y Hb Hx Hy].
  - pose proof (wp_submit s b w x Hi Hm) as Hw. unfold wp in Hw. by rewrite E in Hw.
  - pose proof (wp_submit s b w x Hi Hm) as Hw. unfold wp in Hw. rewrite E in Hw. apply Hw.
  - by apply inv_fetch.
  - destruct (inv_heads s h Hi) as (b & c & x & Hc & -> & Hx & Hok & _).
    { unfold running, waiting. rewrite Hp. set_solver. }
    rewrite Nat2Z.id, (dev_do_eq _ b c x) in E by done. injection E as <- <-. by apply (inv_do s l1 (Z.of_nat (idx0 c)) l2).
  - pose proof (wp_intr s Hi) as Hw. unfold wp in Hw. rewrite E in Hw. apply Hw.
  - pose proof (wp_finish s b c x Hi Hc Hx Hd) as Hw. unfold wp in Hw. by rewrite E in Hw.
  - by apply (inv_use s b x).
Qed.

Lemma drv_inv_reachable s : reachable s -> inv s.
Proof. induction 1; [by apply drv_inv_init|by eapply drv_inv_step]. Qed.

(** *** Completing the requests *)

Lemma finish_fetch s : inv s -> exists s', rtc step s s' /\ inv s' /\ calls s' = calls s /\ qheads s' = [].
Proof.
  remember (length (qheads s)) as n eqn:En. revert s En. induction n as [|n IH]; intros s En Hi.
  - exists s. split; [done|]. split; [done|]. split; [done|]. by apply nil_length_inv.
  - assert (Hne : dev_idx s <> avail_idx (drv s)).
    { intros E. unfold qheads in En. by rewrite E, Z.sub_diag, length_ring in En. }
    destruct (lookup_lt_is_Some_2 (avail_ring (drv s)) (Z.to_nat (dev_idx s mod NUM))) as [h Hh].
    { rewrite (len_avail _ (inv_len s Hi)). unfold NUM. zdm. }
    pose proof (inv_fetch s h Hi Hne Hh) as Hi'. pose proof (st_fetch s h Hne Hh) as Hst. set (s1 := mk_sys _ _ _ _ _) in *.
    destruct (IH s1) as (s' & Hr & Hi2 & Hc & Hq); [|done|].
    { unfold qheads in En |- *. rewrite length_ring in En |- *. cbn [drv dev_idx s1].
      pose proof (inv_counts s Hi). pose proof (inv_dev s Hi). pose proof (inv_avail s Hi). unfold u16 in *. zdm. }
    exists s'. split; [by eapply rtc_l|]. by split.
Qed.

Lemma finish_do s : inv s -> qheads s = [] -> exists s', rtc step s s' /\ inv s' /\ calls s' = calls s /\ waiting s' = [].
Proof.
  remember (dev_pend s) as l eqn:El. revert s El. induction l as [|h l IH]; intros s El Hi Hq.
  - exists s. split; [done|]. split; [done|]. split; [done|]. unfold waiting. by rewrite Hq, <- El.
  - destruct (inv_heads s h Hi) as (b & c & x & Hc & -> & Hx & Hok & _).
    { unfold running, waiting. rewrite <- El. set_solver. }
    assert (Hdo : dev_do (Z.to_nat (Z.of_nat (idx0 c))) (drv s) (sectors s) = Some (executed (drv s) b c x (sectors s), stored c x (sectors s))).
    { rewrite Nat2Z.id. by apply dev_do_eq. }
    pose proof (st_do s [] _ l _ _ (eq_sym El) Hdo) as Hst. pose proof (drv_inv_step _ _ Hi Hst) as Hi'.
    set (s1 := mk_sys _ _ _ _ _) in *. destruct (IH s1) as (s' & Hr & Hi2 & Hcs & Hw); [done|done|done|].
    exists s'. split; [by eapply rtc_l|]. by split.
Qed.

Lemma finish_all s : inv s -> exists s', rtc step s s' /\ inv s' /\ calls s' = calls s /\
  forall b c, calls s !! b = Some c -> exists x, vbufs (drv s') !! b = Some x /\ vb_disk x = 0.
Proof.
  intros Hi. destruct (finish_fetch s Hi) as (s1 & R1 & I1 & C1 & Q1). destruct (finish_do s1 I1 Q1) as (s2 & R2 & I2 & C2 & W2).
  destruct (wp_run_unit _ _ _ (wp_intr s2 I2)) as (v & Hv & I3 & Q3 & U3). pose proof (st_intr s2 v Hv) as Hst.
  exists (with_drv s2 v). split; [etrans; [exact R1|]; etrans; [exact R2|]; by apply rtc_once|]. split; [done|]. split; [cbn; congruence|].
  intros b c Hc. destruct (inv_call _ I3 b c) as (x & Hx & _ & _ & Hd0 & _); [cbn; congruence|]. exists x. split; [done|].
  apply Hd0. unfold running, waiting in *. rewrite Q3. cbn [drv dev_pend]. rewrite W2, U3. apply not_elem_of_nil.
Qed.

(** C8: the driver transfers what it was asked to.  In every reachable state of the
    driver, the threads that use it and the device: a call of [virtio_disk_rw] whose
    request is done (its buffer is not owned by the disk any more) returns, and then
    its buffer and its block both hold what they should: what the buffer held when
    the call was made, for a write, and what the block held, for a read.  No operation
    of the driver panics; a new call finds descriptors, or has to wait for another
    call that is in progress. *)
Theorem virtio_rw_correct (s : sys) : reachable s ->
  (forall b c x, calls s !! b = Some c -> vbufs (drv s) !! b = Some x -> vb_disk x = 0 ->
     (exists v, rw_finish (idx0 c) (drv s) = Ok tt v) /\
     vb_data x = c_snap c /\ disk_read (sectors s) (2 * vb_blockno x) = c_snap c) /\
  (forall b w x, may_submit s b x -> exists r v, rw_submit b w (drv s) = Ok r v /\ (r = None -> calls s <> ∅)) /\
  exists v, virtio_disk_intr (drv s) = Ok tt v.
Proof.
  intros Hr. apply drv_inv_reachable in Hr as Hi. split; [|split].
  - intros b c x Hc Hx Hd. destruct (wp_run_unit _ _ _ (wp_finish s b c x Hi Hc Hx Hd)) as (v & Hv & _).
    destruct (inv_call s Hi b c Hc) as (x' & Hx' & _ & _ & Hd0 & [H1 H2]). replace x' with x in * by congruence.
    assert (Hn : Z.of_nat (idx0 c) ∉ waiting s) by (apply Hd0 in Hd; unfold running in Hd; set_solver). eauto 10.
  - intros b w x Hm. destruct (wp_run _ _ _ (wp_submit s b w x Hi Hm)) as (r & v & Hv & HP). exists r, v. split; [done|].
    intros ->. apply HP.
  - destruct (wp_run_unit _ _ _ (wp_intr s Hi)) as (v & Hv & _). eauto.
Qed.

(** C21: no request is lost and the driver cannot get stuck: from every reachable state
    the device and the interrupt handler can go on so that every call in progress is
    done and its thread can return; at most two calls are in progress at a time, and
    a descriptor is taken exactly when it belongs to one of them. *)
Theorem virtio_requests_complete (s : sys) : reachable s ->
  (exists s', rtc step s s' /\ calls s' = calls s /\
     forall b c, calls s !! b = Some c -> exists x, vbufs (drv s') !! b = Some x /\ vb_disk x = 0) /\
  (size (calls s) <= 2)%nat /\
  (forall i, (i < 8)%nat -> vfree (drv s) !! i = Some false <-> exists b c, calls s !! b = Some c /\ i ∈ idxs c).
Proof.
  intros Hr. apply drv_inv_reachable in Hr as Hi. split; [|split].
  - destruct (finish_all s Hi) as (s' & ? & _ & ? & ?). by exists s'.
  - destruct (inv_two s Hi). lia.
  - intros i _. split; [by apply inv_busy|]. intros (b & c & Hc & Hin). by eapply inv_not_free.
Qed.
End Reachable.

(** ** An example: one write, from the call to the completion *)

Definition ex_mmio : VirtioMmio := {| mmio_read := fun _ => 0 |}.
#[local] Existing Instance ex_mmio.

Definition ex_v0 : vdisk :=
  mk_vdisk (replicate 8 (mk_desc V_null 0 0 0)) (replicate 8 0) 0 0 (replicate 8 0) (replicate 8 true) 0
    (replicate 8 None) (replicate 8 0) ∅ {[0%nat := mk_vbuf 3 [1; 2; 3] 0]} [] [].

Definition state_of {A} (o : outcome vdisk A) : vdisk :=
  match o with Ok _ v | Panic _ v | Blocked v | Fault _ v | NoFuel v => v end.

Definition ex_s0 : sys := mk_sys ex_v0 0 [] ∅ ∅.
Definition ex_calls : gmap nat call := {[0%nat := mk_call (0, 1, 2)%nat true [1; 2; 3]]}.
Definition ex_v1 : vdisk := Eval vm_compute in state_of (rw_submit 0 true ex_v0).
Definition ex_v3 : vdisk := Eval vm_compute in default ex_v1 (fst <$> dev_do 0 ex_v1 ∅).
Definition ex_d3 : gmap Z (list Z) := Eval vm_compute in default ∅ (snd <$> dev_do 0 ex_v1 ∅).
Definition ex_v4 : vdisk := Eval vm_compute in state_of (virtio_disk_intr ex_v3).

Definition ex_s1 : sys := mk_sys ex_v1 0 [] ∅ ex_calls.
Definition ex_s2 : sys := mk_sys ex_v1 1 [0] ∅ ex_calls.
Definition ex_s3 : sys := mk_sys ex_v3 1 [] ex_d3 ex_calls.
Definition ex_s4 : sys := mk_sys ex_v4 1 [] ex_d3 ex_calls.

Lemma ex_submit : rw_submit 0 true ex_v0 = Ok (Some (0, 1, 2)%nat) ex_v1.
Proof. vm_compute. reflexivity. Qed.
Lemma ex_do : dev_do 0 ex_v1 ∅ = Some (ex_v3, ex_d3).
Proof. vm_compute. reflexivity. Qed.
Lemma ex_intr : virtio_disk_intr ex_v3 = Ok tt ex_v4.
Proof. vm_compute. reflexivity. Qed.

Lemma ex_s1_reachable : reachable ex_s1.
Proof.
  apply (r_step ex_s0); [apply (r_init ex_v0); by repeat split|].
  apply (st_submit ex_s0 0 true (mk_vbuf 3 [1; 2; 3] 0) (0, 1, 2)%nat ex_v1); [|exact ex_submit].
  split; [done|]. split; [done|]. split; [vm_compute; split; congruence|]. intros b' c x' Hc. cbn in Hc. by rewrite lookup_empty in Hc.
Qed.

Lemma ex_s4_reachable : reachable ex_s4.
Proof.
  apply (r_step ex_s3); [|apply (st_intr ex_s3 ex_v4); exact ex_intr].
  apply (r_step ex_s2); [|apply (st_do ex_s2 [] 0 [] ex_v3 ex_d3); [reflexivity|exact ex_do]].
  apply (r_step ex_s1 ex_s2 ex_s1_reachable). apply (st_fetch ex_s1 0); [discriminate|reflexivity].
Qed.

Lemma virtio_rw_correct_witness : (exists v, rw_finish 0 (drv ex_s4) = Ok tt v) /\ disk_read (sectors ex_s4) 6 = [1; 2; 3].
Proof.
  destruct (virtio_rw_correct ex_s4 ex_s4_reachable) as [Hf _].
  destruct (Hf 0%nat (mk_call (0, 1, 2)%nat true [1; 2; 3]) (mk_vbuf 3 [1; 2; 3] 0)) as (H1 & _ & H3).
  - reflexivity.
  - vm_compute. reflexivity.
  - reflexivity.
  - split; [exact H1|exact H3].
Defined.

Lemma virtio_requests_complete_witness : exists s', rtc step ex_s1 s' /\ exists x, vbufs (drv s') !! 0%nat = Some x /\ vb_disk x = 0.
Proof.
  destruct (virtio_requests_complete ex_s1 ex_s1_reachable) as ((s' & Hr & _ & Hd) & _).
  exists s'. split; [exact Hr|]. apply (Hd 0%nat (mk_call (0, 1, 2)%nat true [1; 2; 3])). reflexivity.
Defined.
