(* ===== verification/Path.v ===== *)
(** * Path names: kernel/fs.c skipelem and namecmp

    [skipelem] takes the elements of a path one by one; the theorem compares it with
    the list of the elements between the slashes.  A name array of [DIRSIZ] bytes
    holds the name up to its first NUL, or [DIRSIZ] bytes without one. *)

From stdpp Require Import gmap strings list fin_maps.
From Stdlib Require Import ZArith Lia.
From S2P Require Import Prelude Machine Str State Riscv Spinlock Sched Sleeplock Bytes.
From S2P Require Import Bio Log Inode Dir.
Open Scope Z_scope.

(** The non-empty runs of bytes between slashes. *)
Fixpoint elements_from (cur : list Z) (path : list Z) : list (list Z) :=
  match path with
  | [] => if decide (cur = []) then [] else [cur]
  | c :: path =>
    if c =? SLASH then (if decide (cur = []) then [] else [cur]) ++ elements_from [] path
    else elements_from (cur ++ [c]) path
  end.

Definition elements (path : list Z) : list (list Z) := elements_from [] path.

(** The name an array holds. *)
Fixpoint c_name (a : list Z) : list Z :=
  match a with
  | [] => []
  | c :: a => if c =? 0 then [] else c :: c_name a
  end.

Lemma elements_skip path : elements (skip_slashes path) = elements path.
Proof.
  induction path as [|c path IH]; [done|]. cbn [skip_slashes]. destruct (Z.eqb_spec c SLASH) as [->|]; [|done].
  rewrite IH. done.
Qed.

Lemma skip_head path c rest : skip_slashes path = c :: rest -> c <> SLASH.
Proof.
  induction path as [|x path IH]; [done|]. cbn [skip_slashes]. destruct (Z.eqb_spec x SLASH); [done|]. by intros [= <- <-].
Qed.

Lemma skip_le path : (length (skip_slashes path) <= length path)%nat.
Proof. induction path as [|c path IH]; [done|]. cbn [skip_slashes length]. destruct (c =? SLASH); simpl; lia. Qed.

Lemma elements_span cur path s rest : span_elem path = (s, rest) -> cur ++ s <> [] ->
  elements_from cur path = (cur ++ s) :: elements rest /\ (length path = length s + length rest)%nat.
Proof.
  revert cur s; induction path as [|c path IH]; intros cur s; cbn [span_elem elements_from].
  - intros [= <- <-] Hne. rewrite app_nil_r in *. rewrite decide_False by done. done.
  - destruct (Z.eqb_spec c SLASH) as [->|Hc].
    + intros [= <- <-] Hne. rewrite app_nil_r in *. rewrite decide_False by done. done.
    + destruct (span_elem path) as [s' r'] eqn:E. intros [= <- <-] Hne.
      destruct (IH (cur ++ [c]) s' eq_refl) as [E1 E2]; [by rewrite <- app_assoc|].
      split; [by rewrite E1, <- app_assoc|]. simpl. lia.
Qed.

Lemma c_name_clean s rest : 0 ∉ s -> c_name (s ++ rest) = s ++ c_name rest.
Proof.
  induction s as [|c s IH]; intros Hs; [done|]. apply not_elem_of_cons in Hs as [Hc Hs]. cbn [app c_name].
  rewrite (proj2 (Z.eqb_neq c 0)) by congruence. by rewrite IH.
Qed.

Lemma span_elem_mem path s rest x : span_elem path = (s, rest) -> x ∈ s -> x ∈ path.
Proof.
  revert s; induction path as [|c path IH]; intros s; cbn [span_elem].
  - intros [= <- <-]. by rewrite elem_of_nil.
  - destruct (c =? SLASH); [intros [= <- <-]; by rewrite elem_of_nil|].
    destruct (span_elem path) as [s' r']. intros [= <- <-]. rewrite !elem_of_cons. naive_solver.
Qed.

Lemma skip_mem path x : x ∈ skip_slashes path -> x ∈ path.
Proof.
  induction path as [|c path IH]; [done|]. cbn [skip_slashes]. destruct (c =? SLASH); [|done].
  intros Hx. apply elem_of_cons. right. auto.
Qed.

(** [skipelem] takes the first element of a path: it returns 0 exactly when the
    path has no element left, otherwise the name array holds the first element (cut
    to [DIRSIZ] bytes), the path returned has the other elements, does not start with
    a slash and is shorter than the path given, so the loop of [namex] ends after one
    turn per element. *)
Theorem skipelem_spec (path name : list Z) :
  0 ∉ path -> length name = Z.to_nat DIRSIZ ->
  match skipelem path name with
  | None => elements path = []
  | Some (name', rest) =>
    exists e, elements path = e :: elements rest /\ e <> [] /\
      length name' = Z.to_nat DIRSIZ /\ c_name name' = take (Z.to_nat DIRSIZ) e /\
      head rest <> Some SLASH /\ (length rest < length path)%nat
  end.
Proof.
  intros H0 Hn. unfold skipelem. rewrite <- (elements_skip path).
  pose proof (skip_le path) as Hle. pose proof (skip_head path) as Hh. pose proof (skip_mem path) as Hm.
  destruct (skip_slashes path) as [|c p] eqn:Ep; [done|]. specialize (Hh c p eq_refl).
  destruct (span_elem (c :: p)) as [s rest] eqn:Es.
  assert (Hs : s <> []).
  { cbn [span_elem] in Es. rewrite (proj2 (Z.eqb_neq _ _) Hh) in Es. destruct (span_elem p). by injection Es as <- _. }
  destruct (elements_span [] (c :: p) s rest Es Hs) as [Eel Elen].
  assert (Hs0 : 0 ∉ s) by (intros Hin; apply H0, Hm; by eapply span_elem_mem).
  exists s. rewrite elements_skip. split; [exact Eel|]. split; [done|].
  assert (Hrest : head (skip_slashes rest) <> Some SLASH /\ (length (skip_slashes rest) < length path)%nat).
  { split.
    - destruct (skip_slashes rest) as [|x r] eqn:Er; [done|]. simpl. intros [= ->]. by eapply skip_head.
    - pose proof (skip_le rest). destruct s; [done|]. simpl in Elen, Hle. lia. }
  assert (Hsp : forall l, (length l <= Z.to_nat DIRSIZ)%nat ->
    length (splice name 0 l) = Z.to_nat DIRSIZ /\ splice name 0 l = l ++ drop (length l) name).
  { intros l Hl. split; [rewrite length_splice; simpl; lia|]. done. }
  destruct (Z.leb_spec DIRSIZ (Z.of_nat (length s))) as [Hlong|Hshort].
  - destruct (Hsp (take (Z.to_nat DIRSIZ) s)) as [L1 L2]; [rewrite length_take; lia|].
    split; [done|]. split; [|done]. rewrite L2, c_name_clean.
    + rewrite length_take_le, drop_ge by lia. by rewrite app_nil_r.
    + intros Hin. apply Hs0. by eapply elem_of_take in Hin as (? & ? & _); eapply list_elem_of_lookup_2.
  - destruct (Hsp (s ++ [0])) as [L1 L2]; [rewrite length_app; simpl; lia|].
    split; [done|]. split; [|done]. rewrite L2, <- app_assoc, c_name_clean by done.
    rewrite take_ge by lia. cbn. by rewrite app_nil_r.
Qed.

(** "//usr/bin" *)
Lemma skipelem_spec_witness :
  skipelem [47; 47; 117; 115; 114; 47; 98; 105; 110] (replicate 14 0) =
    Some ([117; 115; 114] ++ replicate 11 0, [98; 105; 110]) /\
  elements [47; 47; 117; 115; 114; 47; 98; 105; 110] = [[117; 115; 114]; [98; 105; 110]].
Proof.
  pose proof (skipelem_spec [47; 47; 117; 115; 114; 47; 98; 105; 110] (replicate 14 0)) as H.
  destruct H as (e & He & _).
  - intros Hin. repeat (apply elem_of_cons in Hin as [Hin|Hin]; [discriminate|]). by apply elem_of_nil in Hin.
  - reflexivity.
  - split; [reflexivity|]. reflexivity.
Defined.
