(* ===== verification/Directory.v ===== *)
(** * Directories as finite maps (kernel/fs.c iget, iput, dirlookup, dirlink)

    A directory is a file of 16-byte entries.  [entries] reads it as a list of
    [dirent]s, a lookup is the first entry in use with the name, and [dirlink] is the
    insertion of an entry: afterwards the new name finds the inode linked, and every
    other name finds what it found before.  The inode cache part is [iget], which
    shares the cached copy of an inode or recycles a free slot for it. *)

From stdpp Require Import gmap strings list fin_maps.
From Stdlib Require Import ZArith Lia.
From S2P Require Import Prelude Machine Str State Riscv Spinlock Sched Sleeplock Bytes Bio.
From S2P Require Import Cache Log Commit Op Inode Dir Balloc Content Path.
Open Scope Z_scope.

(** ** Names *)

(** The name in an array of [DIRSIZ] bytes: up to its first NUL. *)
Definition dname (a : list Z) : list Z := c_name (take (Z.to_nat DIRSIZ) a).

(** A name the kernel passes: bytes, in an array that fits a page. *)
Definition name_ok (a : list Z) : Prop := Forall is_byte a /\ (length a <= 4096)%nat.

Lemma strn_array m a n l : (forall k, (k < n)%nat -> ld8 m (a + Z.of_nat k) = default 0 (l !! k)) ->
  strn m a n = c_name (take n l).
Proof.
  revert a l; induction n as [|n IH]; intros a l Hl; [done|]. cbn [strn].
  pose proof (Hl 0%nat ltac:(lia)) as H0. rewrite Z.add_0_r in H0.
  destruct l as [|c l]; [rewrite lookup_nil in H0; by rewrite H0|].
  change (ld8 m a = c) in H0. rewrite H0. cbn [take c_name].
  destruct (c =? 0); [done|]. f_equal. apply IH. intros k Hk. specialize (Hl (S k) ltac:(lia)).
  change ((c :: l) !! S k) with (l !! k) in Hl. rewrite <- Hl. f_equal. lia.
Qed.

Lemma two_arrays_fst s t k : (length s <= 4096)%nat -> (k < 14)%nat ->
  ld8 (two_arrays s t) (0 + Z.of_nat k) = default 0 (s !! k).
Proof.
  intros Hs Hk. unfold two_arrays. rewrite ld8_stbytes_out by lia. destruct (s !! k) as [c|] eqn:E.
  - apply ld8_stbytes_in; [lia|]. by replace (Z.to_nat (0 + Z.of_nat k - 0)) with k by lia.
  - apply lookup_ge_None in E. by rewrite ld8_stbytes_out by lia.
Qed.

Lemma two_arrays_snd s t k : (length s <= 4096)%nat ->
  ld8 (two_arrays s t) (4096 + Z.of_nat k) = default 0 (t !! k).
Proof.
  intros Hs. unfold two_arrays. destruct (t !! k) as [c|] eqn:E.
  - apply ld8_stbytes_in; [lia|]. by replace (Z.to_nat (4096 + Z.of_nat k - 4096)) with k by lia.
  - apply lookup_ge_None in E. by rewrite !ld8_stbytes_out by lia.
Qed.

Lemma namecmp_eq s t : name_ok s -> Forall is_byte t -> namecmp s t = 0 <-> dname s = dname t.
Proof.
  intros [Hs Hl] Ht. unfold namecmp. rewrite strncmp_zero_iff; [|apply stbytes_bytes; [apply stbytes_bytes; [|done]|done]|done].
  2: { intros x. unfold ld8. rewrite lookup_empty. done. }
  change (Z.to_nat DIRSIZ) with 14%nat. rewrite (strn_array _ 0 14 s), (strn_array _ 4096 14 t); [done|..]; intros.
  - by apply two_arrays_snd.
  - by apply two_arrays_fst.
Qed.

Lemma c_name_app_zeros l n : c_name (l ++ replicate n 0) = c_name l.
Proof.
  induction l as [|c l IH]; cbn [app c_name]; [by destruct n|]. destruct (c =? 0); [done|]. by rewrite IH.
Qed.

Lemma c_name_idem l : c_name (c_name l) = c_name l.
Proof. induction l as [|c l IH]; cbn [c_name]; [done|]. destruct (c =? 0) eqn:E; [done|]. cbn [c_name]. by rewrite E, IH. Qed.

(** The name array of an entry made for [name]. *)
Lemma name_copy_eq old name : length old = 14%nat -> (length name <= 4096)%nat ->
  name_copy old name = dname name ++ replicate (14 - length (dname name)) 0.
Proof.
  intros Ho Hn. unfold name_copy. change (Z.to_nat DIRSIZ) with 14%nat.
  destruct (strncpy_pads (two_arrays old name) 0 4096 DIRSIZ) as [E _]; [done|unfold DIRSIZ; lia|].
  change (Z.to_nat DIRSIZ) with 14%nat in E. rewrite E, (strn_array _ 4096 14 name); [done|].
  intros k _. apply two_arrays_snd. lia.
Qed.

Lemma dname_length a : (length (dname a) <= 14)%nat.
Proof.
  unfold dname. change (Z.to_nat DIRSIZ) with 14%nat. transitivity (length (take 14 a)); [|rewrite length_take; lia].
  generalize (take 14 a) as l. induction l as [|c l IH]; cbn [c_name length]; [done|]. destruct (c =? 0); simpl; lia.
Qed.

Lemma dname_copy old name : length old = 14%nat -> (length name <= 4096)%nat ->
  length (name_copy old name) = 14%nat /\ dname (name_copy old name) = dname name.
Proof.
  intros Ho Hn. rewrite name_copy_eq by done. pose proof (dname_length name).
  assert (Hl : length (dname name ++ replicate (14 - length (dname name)) 0) = 14%nat)
    by (rewrite length_app, length_replicate; lia).
  split; [done|]. unfold dname at 1. rewrite take_ge by (rewrite Hl; done).
  rewrite c_name_app_zeros. apply c_name_idem.
Qed.

Lemma name_copy_bytes old name : length old = 14%nat -> name_ok name -> Forall is_byte (name_copy old name).
Proof.
  intros Ho [Hb Hn]. rewrite name_copy_eq by done. apply Forall_app_2; [|by apply Forall_replicate].
  unfold dname. assert (Ht : Forall is_byte (take (Z.to_nat DIRSIZ) name)) by (by apply Forall_take).
  revert Ht. generalize (take (Z.to_nat DIRSIZ) name) as l. induction l as [|c l IH]; cbn [c_name]; intros Hl; [done|].
  apply Forall_cons in Hl as [Hc Hl]. destruct (c =? 0); auto.
Qed.

(** ** The entries of a directory *)

Definition entry (V : Z -> list Z) (i : inode) (k : Z) : dirent := get_dirent (file_bytes V i (k * 16) 16).
Definition entries (V : Z -> list Z) (i : inode) (N : Z) : list dirent := entry V i <$> seqZ 0 N.

(** The entry is in use and has the name. *)
Definition has_name (name : list Z) (de : dirent) : Prop := d_inum de <> 0 /\ dname name = dname (d_name de).
Definition unused (de : dirent) : Prop := d_inum de = 0.

#[export] Instance has_name_dec name de : Decision (has_name name de).
Proof. unfold has_name. apply _. Defined.
#[export] Instance unused_dec de : Decision (unused de).
Proof. unfold unused. apply _. Defined.

Definition find_name (name : list Z) (es : list dirent) : option (nat * dirent) := list_find (has_name name) es.

(** Where [dirlink] puts an entry: the first unused one, or the end. *)
Definition free_entry (es : list dirent) : nat := match list_find unused es with Some (k, _) => k | None => length es end.

Definition link_entry (es : list dirent) (de : dirent) : list dirent :=
  take (free_entry es) es ++ de :: drop (S (free_entry es)) es.

Lemma find_name_none name es k de : find_name name es = None -> es !! k = Some de -> ~ has_name name de.
Proof. intros Hn Hk. apply list_find_None in Hn. by eapply Forall_lookup in Hn. Qed.

Lemma free_entry_le es : (free_entry es <= length es)%nat.
Proof.
  unfold free_entry. destruct (list_find unused es) as [[k e]|] eqn:E; [|done].
  apply list_find_Some in E as (Hk & _). apply lookup_lt_Some in Hk. lia.
Qed.

Lemma link_entry_lookup es de k : link_entry es de !! k =
  if decide (k = free_entry es) then Some de else es !! k.
Proof.
  pose proof (free_entry_le es) as Hle. unfold link_entry.
  assert (Ht : length (take (free_entry es) es) = free_entry es) by (rewrite length_take; lia). case_decide as Hk.
  - subst k. rewrite lookup_app_r by lia. by rewrite Ht, Nat.sub_diag.
  - destruct (decide (k < free_entry es)%nat).
    + rewrite lookup_app_l by lia. by rewrite lookup_take_lt.
    + rewrite lookup_app_r by lia. rewrite Ht. destruct (k - free_entry es)%nat as [|j] eqn:Ej; [lia|].
      change ((de :: drop (S (free_entry es)) es) !! S j) with (drop (S (free_entry es)) es !! j).
      rewrite lookup_drop. f_equal. lia.
Qed.

Lemma free_entry_unused es de : es !! free_entry es = Some de -> unused de.
Proof.
  unfold free_entry. destruct (list_find unused es) as [[k e]|] eqn:E.
  - apply list_find_Some in E as (Hk & He & _). by intros [= <-]%(eq_trans (eq_sym Hk)).
  - rewrite lookup_ge_None_2 by done. done.
Qed.

Lemma link_finds es de name : find_name name es = None -> has_name name de ->
  find_name name (link_entry es de) = Some (free_entry es, de).
Proof.
  intros Hn Hd. apply list_find_Some. rewrite link_entry_lookup, decide_True by done. split; [done|]. split; [done|].
  intros j y Hj Hlt. rewrite link_entry_lookup, decide_False in Hj by lia. by eapply find_name_none.
Qed.

(** The other names are found as before. *)
Lemma link_keeps es de name : ~ has_name name de -> find_name name (link_entry es de) = find_name name es.
Proof.
  intros Hd. assert (Hold : forall de', es !! free_entry es = Some de' -> ~ has_name name de').
  { intros de' Hu [Hi _]. by apply free_entry_unused in Hu. }
  unfold find_name. destruct (list_find (has_name name) es) as [[k e]|] eqn:E.
  - apply list_find_Some in E as (Hk & He & Hmin). apply list_find_Some.
    assert (k <> free_entry es) by (intros ->; by eapply Hold). rewrite link_entry_lookup, decide_False by done.
    split; [done|]. split; [done|]. intros j y. rewrite link_entry_lookup. case_decide; [|by apply Hmin].
    by intros [= <-].
  - apply list_find_None, Forall_lookup. intros j y. rewrite link_entry_lookup. case_decide; [by intros [= <-]|].
    apply list_find_None in E. intros Hj. by eapply Forall_lookup in E.
Qed.

(** ** The inode cache *)

(** The slot is in use for the inode; it is free. *)
Definition caches (dev inum : Z) (i : inode) : Prop := 0 < i_ref i /\ i_dev i = dev /\ i_inum i = inum.
Definition unref (i : inode) : Prop := i_ref i = 0.

#[export] Instance caches_dec dev inum i : Decision (caches dev inum i).
Proof. unfold caches. apply _. Defined.
#[export] Instance unref_dec i : Decision (unref i).
Proof. unfold unref. apply _. Defined.

Definition fresh_inode (dev inum : Z) (i : inode) : inode :=
  set_i_valid false (set_i_ref 1 (set_i_inum inum (set_i_dev dev i))).

(** The slot [iget] returns and the cache it leaves. *)
Definition iget_slot (dev inum : Z) (l : list inode) : option (nat * list inode) :=
  match list_find (caches dev inum) l with
  | Some (ip, i) => Some (ip, <[ip := set_i_ref (i32 (i_ref i + 1)) i]> l)
  | None =>
    match list_find unref l with
    | Some (ip, i) => Some (ip, <[ip := fresh_inode dev inum i]> l)
    | None => None
    end
  end.

(** A cache of 50 slots with reference counts that do not overflow and a free slot. *)
Record icache_ok (l : list inode) : Prop := {
  ic_len : length l = 50%nat;
  ic_ref : Forall (fun i => 0 <= i_ref i < 2 ^ 31 - 1) l;
  ic_free : Exists unref l
}.

(** Slot [ip] refers to the inode. *)
Definition refers (l : list inode) (ip : nat) (dev inum : Z) : Prop :=
  exists i, l !! ip = Some i /\ i_dev i = dev /\ i_inum i = inum /\ 1 <= i_ref i.

Lemma iget_slot_ok dev inum l : icache_ok l ->
  exists ip l', iget_slot dev inum l = Some (ip, l') /\ refers l' ip dev inum /\
    exists i, l' !! ip = Some i /\ (i_ref i <> 1 \/ i_valid i = false \/ i_nlink i <> 0).
Proof.
  intros [Hl Hr Hf]. unfold iget_slot. destruct (list_find (caches dev inum) l) as [[ip i]|] eqn:E.
  - apply list_find_Some in E as (Hi & (H1 & H2 & H3) & _). pose proof (Forall_lookup_1 _ _ _ _ Hr Hi) as Hi'. cbv beta in Hi'.
    eexists _, _. split; [done|]. unfold refers. rewrite list_lookup_insert_eq by (by eapply lookup_lt_Some).
    split; eexists; (split; [done|]); [split; [done|]; split; [done|]|left];
      change (i_ref (set_i_ref (i32 (i_ref i + 1)) i)) with (i32 (i_ref i + 1)); rewrite i32_id by lia; lia.
  - destruct (list_find unref l) as [[ip i]|] eqn:E2.
    + apply list_find_Some in E2 as (Hi & _). eexists _, _. split; [done|]. unfold refers.
      rewrite list_lookup_insert_eq by (by eapply lookup_lt_Some). split; eexists; (split; [done|]); [done|by right; left].
    + apply list_find_None in E2. apply Exists_exists in Hf as (x & Hx & Hu). rewrite Forall_forall in E2. by apply E2 in Hx.
Qed.

Section Directory.
Context `{HW : World kstate} `{HB : BlockDev}.

Lemma wp_iget_scan dev inum (Q : nat + option nat -> kstate -> Prop) s n k e :
  (k + n = length (icache s))%nat ->
  Q match list_find (caches dev inum) (drop k (icache s)) with
    | Some (j, _) => inl (k + j)%nat
    | None => inr (match e with
                   | Some _ => e
                   | None => (fun x => k + fst x)%nat <$> list_find unref (drop k (icache s))
                   end)
    end s ->
  wp (iget_scan dev inum (seq k n) e) Q s.
Proof.
  revert k e; induction n as [|n IH]; intros k e Hk HQ; cbn [iget_scan seq].
  - wstep. rewrite drop_ge in HQ by lia. cbn [list_find fmap option_fmap option_map] in HQ. by destruct e.
  - destruct (lookup_lt_is_Some_2 (icache s) k ltac:(lia)) as [i Hi].
    rewrite (drop_S _ i k) in HQ by done. cbn [list_find] in HQ.
    wstep. eapply wp_get_inode; [exact Hi|]. cbn [id].
    destruct (decide (caches dev inum i)) as [(H1 & H2 & H3)|Hno].
    + rewrite (proj2 (Z.ltb_lt 0 _) H1), (proj2 (Z.eqb_eq _ _) H2), (proj2 (Z.eqb_eq _ _) H3). cbn [andb]. wstep.
      by rewrite Nat.add_0_r in HQ.
    + replace ((0 <? i_ref i) && (i_dev i =? dev) && (i_inum i =? inum)) with false.
      2: { destruct (Z.ltb_spec 0 (i_ref i)), (Z.eqb_spec (i_dev i) dev), (Z.eqb_spec (i_inum i) inum); try done. by destruct Hno. }
      apply IH; [lia|]. destruct (list_find (caches dev inum) (drop (S k) (icache s))) as [[j x]|]; cbn [fmap option_fmap option_map prod_map fst] in HQ.
      { by replace (S k + j)%nat with (k + S j)%nat by lia. }
      destruct e as [e|]; [done|]. destruct (Z.eqb_spec (i_ref i) 0) as [Hz|Hz].
      * rewrite decide_True in HQ by done. cbn [fmap option_fmap option_map fst] in HQ. by rewrite Nat.add_0_r in HQ.
      * rewrite decide_False in HQ by done. destruct (list_find unref (drop (S k) (icache s))) as [[j x]|]; [|done].
        cbn [fmap option_fmap option_map prod_map fst] in *. by replace (S k + j)%nat with (k + S j)%nat by lia.
Qed.

Lemma icache_lock s : calm s -> lock_free L_icache s.
Proof. intros Hs. apply (calm_locks _ Hs). unfold global_locks. rewrite elem_of_app. left. set_solver. Qed.

Lemma wp_iget dev inum s ip l (Q : nat -> kstate -> Prop) :
  calm s -> length (icache s) = 50%nat -> iget_slot dev inum (icache s) = Some (ip, l) ->
  Q ip (set_icache l s) -> wp (iget dev inum) Q s.
Proof.
  intros Hs Hlen Hg HQ. pose proof (icache_lock s Hs) as Hf. unfold iget. wstep.
  apply wp_acquire; [apply Hs|done|]. wstep. change (Z.to_nat NINODE) with 50%nat.
  apply wp_iget_scan; [by rewrite <- Hlen|]. change (icache (acq L_icache s)) with (icache s). rewrite drop_0.
  unfold iget_slot in Hg. destruct (list_find (caches dev inum) (icache s)) as [[j i]|] eqn:E.
  - injection Hg as <- <-. apply list_find_Some in E as (Hi & _). cbn [Nat.add]. wstep.
    eapply wp_modify_inode; [exact Hi|]. wstep.
    eapply (wp_release L_icache _ s); [apply Hs|done|by fields..|]. wsteps. critical. exact HQ.
  - destruct (list_find unref (icache s)) as [[j i]|] eqn:E2; [|done]. injection Hg as <- <-.
    apply list_find_Some in E2 as (Hi & _). cbn [fmap option_fmap option_map fst Nat.add].
    pose proof (lookup_lt_Some _ _ _ Hi). wstep. eapply wp_modify_inode; [exact Hi|].
    do 3 (wstep; eapply wp_modify_inode; [fields; by apply list_lookup_insert_eq; rewrite ?length_insert|]; fields; rewrite list_insert_insert_eq).
    wstep. eapply (wp_release L_icache _ s); [apply Hs|done|by fields..|]. wsteps. critical. exact HQ.
Qed.

(** [iput] of a reference that is not the last one to a deleted file. *)
Lemma wp_iput ip i s (Q : unit -> kstate -> Prop) :
  calm s -> icache s !! ip = Some i -> i_ref i <> 1 \/ i_valid i = false \/ i_nlink i <> 0 ->
  Q tt (set_icache (<[ip := set_i_ref (i32 (i_ref i - 1)) i]> (icache s)) s) -> wp (iput ip) Q s.
Proof.
  intros Hs Hi Hk HQ. pose proof (icache_lock s Hs) as Hf. unfold iput. wstep.
  apply wp_acquire; [apply Hs|done|]. wstep. eapply wp_get_inode; [exact Hi|]. cbn [id].
  replace ((i_ref i =? 1) && i_valid i && (i_nlink i =? 0)) with false.
  2: { destruct (Z.eqb_spec (i_ref i) 1), (i_valid i), (Z.eqb_spec (i_nlink i) 0); cbn; try done. naive_solver. }
  cbn [when]. wsteps. eapply wp_modify_inode; [exact Hi|].
  eapply (wp_release L_icache _ s); [apply Hs|done|by fields..|]. critical. exact HQ.
Qed.

(** ** Looking up a name *)

(** A directory of [N] entries in allocated blocks. *)
Record dir_ok (V : Z -> list Z) (i : inode) (N : Z) : Prop := {
  do_dev : i_dev i = ROOTDEV;
  do_type : i_type i = T_DIR;
  do_entries : 0 <= N;
  do_size : i_size i = N * 16;
  do_max : i_size i < 2 ^ 31;
  do_blocks : forall bn, 0 <= bn -> bn * BSIZE < i_size i -> block_ok V [] i bn;
  do_bytes : forall q, 0 <= q < i_size i -> is_byte (file_byte V i q)
}.

Lemma file_addr_ext V V' i bn : (forall x, V' x = V x) -> file_addr V' i bn = file_addr V i bn.
Proof. intros HV. unfold file_addr. by rewrite HV. Qed.
Lemma file_byte_ext V V' i q : (forall x, V' x = V x) -> file_byte V' i q = file_byte V i q.
Proof. intros HV. unfold file_byte. by rewrite (file_addr_ext V V') by done; rewrite HV. Qed.
Lemma file_bytes_ext V V' i o n : (forall x, V' x = V x) -> file_bytes V' i o n = file_bytes V i o n.
Proof. intros HV. apply list_fmap_ext. intros. by apply file_byte_ext. Qed.

Lemma dir_ok_ext V V' i N : (forall x, V' x = V x) -> dir_ok V i N -> dir_ok V' i N.
Proof.
  intros HV [D1 D2 D3 D4 D5 D6 D7]. split; try done.
  - intros bn H1 H2. destruct (D6 bn H1 H2) as [C1 C2 C3 C4 C5 C6].
    split; rewrite ?(file_addr_ext V V') by done; rewrite ?HV; done.
  - intros q Hq. rewrite (file_byte_ext V V') by done. auto.
Qed.

Lemma entries_ext V V' i N : (forall x, V' x = V x) -> entries V' i N = entries V i N.
Proof. intros HV. apply list_fmap_ext. intros. unfold entry. by rewrite (file_bytes_ext V V'). Qed.

Lemma entries_lookup V i N k : 0 <= k < N -> entries V i N !! Z.to_nat k = Some (entry V i k).
Proof.
  intros Hk. unfold entries. rewrite list_lookup_fmap, (proj2 (lookup_seqZ 0 N (Z.to_nat k) k)) by lia. done.
Qed.

Lemma entries_inv V i N k de : entries V i N !! k = Some de -> Z.of_nat k < N /\ de = entry V i (Z.of_nat k).
Proof.
  unfold entries. rewrite list_lookup_fmap. destruct (seqZ 0 N !! k) as [x|] eqn:E; [|done].
  apply lookup_seqZ in E as [-> Hk]. cbn. intros [= <-]. split; [lia|done].
Qed.

Lemma length_dir_entries V i N : length (entries V i N) = Z.to_nat N.
Proof. unfold entries. by rewrite length_fmap, length_seqZ. Qed.

Lemma dirent_offs_eq N : 0 <= N -> dirent_offs 0 (N * 16) = (fun k => k * 16) <$> seqZ 0 N.
Proof.
  intros HN. unfold dirent_offs, sizeof_dirent. replace ((N * 16 - 0 + 16 - 1) / 16) with N; [|zdm].
  apply list_fmap_ext. intros. lia.
Qed.

Lemma seqZ_around N k : 0 <= k < N -> seqZ 0 N = seqZ 0 k ++ k :: seqZ (k + 1) (N - k - 1).
Proof.
  intros Hk. replace N with (k + (1 + (N - k - 1))) at 1 by lia.
  rewrite (seqZ_app 0 k), (seqZ_app _ 1) by lia. done.
Qed.

Lemma entry_name_bytes V i N k : dir_ok V i N -> 0 <= k < N -> Forall is_byte (d_name (entry V i k)).
Proof.
  intros D Hk. unfold entry, get_dirent. cbn [d_name]. apply field_bytes. unfold file_bytes.
  apply Forall_fmap, Forall_forall. intros q Hq. apply elem_of_seqZ in Hq. cbn. apply (do_bytes _ _ _ D).
  rewrite (do_size _ _ _ D). lia.
Qed.

(** The state while entries are read: the cache of blocks may change. *)
Definition reading (s : kstate) (B : list Z) (s' : kstate) : Prop :=
  in_op s' [] B /\ op_step s s' /\ forall x, vw s' x = vw s x.

Lemma reading_refl s B : in_op s [] B -> reading s B s.
Proof. intros Ho. split; [done|]. split; [apply op_step_refl|done]. Qed.

Section Lookup.
Context (s : kstate) (B : list Z) (dp : nat) (i : inode) (N : Z).
Hypothesis Ho : in_op s [] B.
Hypothesis Hi : icache s !! dp = Some i.
Hypothesis Hd : dir_ok (vw s) i N.
Hypothesis HB' : (length B < HEAD)%nat.

Lemma wp_read_entry s' k (Q : Z * list Z -> kstate -> Prop) : 0 <= k < N -> reading s B s' ->
  (forall t, reading s B t -> Q (16, file_bytes (vw s) i (k * 16) 16) t) ->
  wp (readi dp ToLocal (k * 16) sizeof_dirent) Q s'.
Proof.
  intros Hk (Ho' & St & HV) HQ. pose proof (do_size _ _ _ Hd) as Hsz. pose proof (do_max _ _ _ Hd).
  apply (dir_ok_ext _ (vw s')) in Hd as Hd'; [|done].
  apply (wp_readi s' [] B dp i); rewrite ?(op_step_field icache _ _ ltac:(done) St); try done; unfold sizeof_dirent; try lia.
  - apply Hd.
  - simpl. lia.
  - apply Hd'.
  - intros t Ht St' HV'. rewrite Z.min_l by lia. rewrite (file_bytes_ext (vw s)) by done. apply HQ.
    split; [done|]. split; [by eauto using op_step_trans|]. intros x. by rewrite HV', HV.
Qed.

(** The body of the loop of [dirlookup]. *)
(* @kernel/fs.c:535-547 dirlookup *)
Definition look (name : list Z) (off : Z) : K (option (nat * Z)) :=
  let* r := readi dp ToLocal off sizeof_dirent in
  let '(n, bytes) := r in
  if negb (n =? sizeof_dirent) then panic "dirlookup read"
  else
  let de := get_dirent bytes in
  if d_inum de =? 0 then ret None
  else if namecmp name (d_name de) =? 0 then
    let* dev := get_inode dp i_dev in
    let* ip := iget dev (d_inum de) in
    ret (Some (ip, off))
  else ret None.

Lemma wp_look_skip name k s' : name_ok name -> 0 <= k < N -> ~ has_name name (entry (vw s) i k) -> reading s B s' ->
  wp (look name (k * 16)) (fun r t => r = None /\ reading s B t) s'.
Proof.
  intros Hn Hk Hno Hr. unfold look. wstep. apply wp_read_entry; [done|done|]. intros t Ht. cbn beta iota.
  change (negb (16 =? sizeof_dirent)) with false. cbv iota zeta. fold (entry (vw s) i k).
  destruct (Z.eqb_spec (d_inum (entry (vw s) i k)) 0) as [Hz|Hz]; [by wsteps|].
  destruct (Z.eqb_spec (namecmp name (d_name (entry (vw s) i k))) 0) as [Hc|Hc]; [|by wsteps].
  destruct Hno. split; [done|]. apply namecmp_eq; [done|by eapply entry_name_bytes|done].
Qed.

Lemma dirlookup_look name (Q : option (nat * Z) -> kstate -> Prop) :
  wp (for_each ((fun k => k * 16) <$> seqZ 0 N) (look name)) Q s -> wp (dirlookup dp name) Q s.
Proof.
  intros HQ. unfold dirlookup. wstep. eapply wp_get_inode; [exact Hi|]. rewrite (do_type _ _ _ Hd).
  change (negb (T_DIR =? T_DIR)) with false. cbv iota. wstep. eapply wp_get_inode; [exact Hi|].
  rewrite (do_size _ _ _ Hd), dirent_offs_eq by apply Hd. exact HQ.
Qed.

Lemma wp_dirlookup_none name (Q : option (nat * Z) -> kstate -> Prop) : name_ok name ->
  find_name name (entries (vw s) i N) = None -> (forall t, reading s B t -> Q None t) ->
  wp (dirlookup dp name) Q s.
Proof.
  intros Hn Hf HQ. apply dirlookup_look, (wp_for_each_none _ _ (reading s B)); [by apply reading_refl| |done].
  intros y s' Hy Hr. apply list_elem_of_fmap in Hy as (k & -> & Hk). apply elem_of_seqZ in Hk.
  apply wp_look_skip; [done|lia| |done]. eapply find_name_none; [exact Hf|]. apply entries_lookup. lia.
Qed.

Lemma wp_dirlookup_some name k de ip l (Q : option (nat * Z) -> kstate -> Prop) : name_ok name ->
  length (icache s) = 50%nat ->
  find_name name (entries (vw s) i N) = Some (k, de) -> iget_slot ROOTDEV (d_inum de) (icache s) = Some (ip, l) ->
  (forall t, reading s B t -> Q (Some (ip, Z.of_nat k * 16)) (set_icache l t)) ->
  wp (dirlookup dp name) Q s.
Proof.
  intros Hn Hlen Hf Hg HQ. apply list_find_Some in Hf as (Hk & [Hu Hname] & Hmin).
  apply entries_inv in Hk as [Hk ->]. apply dirlookup_look.
  rewrite (seqZ_around N (Z.of_nat k)) by lia. rewrite fmap_app, fmap_cons. apply (wp_for_each_find _ _ _ _ (reading s B)); [by apply reading_refl|..].
  - intros y s' Hy Hr. apply list_elem_of_fmap in Hy as (j & -> & Hj). apply elem_of_seqZ in Hj.
    apply wp_look_skip; [done|lia| |done]. apply (Hmin (Z.to_nat j)); [apply entries_lookup; lia|lia].
  - intros s' Hr. unfold look. wstep. apply wp_read_entry; [lia|done|]. intros t (Ht & St & HV). cbn beta iota.
    change (negb (16 =? sizeof_dirent)) with false. cbv iota zeta. fold (entry (vw s) i (Z.of_nat k)).
    rewrite (proj2 (Z.eqb_neq _ _) Hu).
    pose proof (entry_name_bytes _ _ _ (Z.of_nat k) Hd ltac:(lia)) as Hb.
    rewrite (proj2 (Z.eqb_eq _ _) (proj2 (namecmp_eq _ _ Hn Hb) Hname)).
    pose proof (op_step_field icache _ _ ltac:(done) St) as Ei. wstep. eapply wp_get_inode; [rewrite Ei; exact Hi|].
    rewrite (do_dev _ _ _ Hd). wstep. eapply wp_iget; [apply Ht|by rewrite Ei|by rewrite Ei|]. wsteps.
    split; [done|]. apply HQ. by split.
Qed.
End Lookup.

(** ** Adding a name *)

Definition new_dirent (name : list Z) (inum : Z) : dirent :=
  mk_dirent inum (name_copy (replicate (Z.to_nat DIRSIZ) 0) name).

Lemma get_dirent_bytes de : 0 <= d_inum de < 2 ^ 16 -> length (d_name de) = 14%nat -> get_dirent (dirent_bytes de) = de.
Proof.
  intros Hi Hn. destruct de as [inum name]. unfold get_dirent, dirent_bytes, get16, field. cbn [d_inum d_name] in *.
  pose proof (length_le_encode 2 inum) as Hl.
  rewrite drop_0, take_app_le, take_ge, le_decode_encode, drop_app_ge, Hl by lia.
  change (2 - 2)%nat with 0%nat. rewrite (drop_0 name), take_ge by lia. f_equal. by apply Z.mod_small.
Qed.

Lemma dirent_bytes_ok de : Forall is_byte (d_name de) -> length (d_name de) = 14%nat ->
  Forall is_byte (dirent_bytes de) /\ length (dirent_bytes de) = 16%nat.
Proof.
  intros Hb Hn. unfold dirent_bytes. split; [apply Forall_app_2; [apply le_encode_bytes|done]|].
  rewrite length_app, length_le_encode. lia.
Qed.

(** The bytes of entry [k] after the bytes [bs] were written over entry [slot]. *)
Lemma entry_written V V' i i' hi slot bs k :
  length bs = 16%nat -> 0 <= slot -> 0 <= k -> k * 16 + 16 <= hi ->
  (forall q, 0 <= q < hi -> file_byte V' i' q =
     if decide (slot * 16 <= q < slot * 16 + 16) then default 0 (bs !! Z.to_nat (q - slot * 16)) else file_byte V i q) ->
  file_bytes V' i' (k * 16) 16 = if decide (k = slot) then bs else file_bytes V i (k * 16) 16.
Proof.
  intros Hl Hs Hk Hkn HV.
  case_decide as E; apply list_eq; intros j; unfold file_bytes; rewrite ?list_lookup_fmap.
  - subst k. destruct (decide (j < 16)%nat).
    + rewrite (proj2 (lookup_seqZ _ _ j (slot * 16 + Z.of_nat j))) by lia. cbn [fmap option_fmap option_map].
      rewrite HV, decide_True by lia.
      rewrite Z.add_simpl_l, Nat2Z.id. by destruct (lookup_lt_is_Some_2 bs j ltac:(lia)) as [x ->].
    + rewrite lookup_seqZ_ge by lia. symmetry. apply lookup_ge_None_2. lia.
  - destruct (seqZ (k * 16) 16 !! j) as [q|] eqn:Ej; [|done]. apply lookup_seqZ in Ej as [-> Hj].
    cbn [fmap option_fmap option_map]. rewrite HV, decide_False by lia. done.
Qed.

Lemma file_ok_ext V V' L L' held i nb : (forall x, V' x = V x) -> (forall b, home L b -> home L' b) ->
  file_ok V L held i nb -> file_ok V' L' held i nb.
Proof.
  intros HV HL [F1 F2 F3 F4]. split.
  - intros bn Hb. destruct (F1 bn Hb) as [C1 C2 C3 C4 C5 C6].
    split; rewrite ?(file_addr_ext V V') by done; rewrite ?HV; done.
  - intros b c Hb Hc. rewrite !(file_addr_ext V V') by done. by apply F2.
  - intros b Hb. rewrite (file_addr_ext V V') by done. by apply F3.
  - intros b Hb. rewrite (file_addr_ext V V') by done. by apply HL, F4.
Qed.

(** *** A new block at the end of a file *)

(** The blocks of the file system that a file of [nb] blocks uses are marked in the
    bitmap, and none of them is a block of the bitmap. *)
Record marked (s : kstate) (i : inode) (nb : Z) : Prop := {
  mk_zero : is_free (vw s) (sb s) 0 = false;
  mk_inode_blk : is_free (vw s) (sb s) (IBLOCK (i_inum i) (sb s)) = false;
  mk_file : forall bn, 0 <= bn < nb -> is_free (vw s) (sb s) (file_addr (vw s) i bn) = false;
  mk_bitmap : forall c, 0 <= c < sb_size (sb s) -> BBLOCK c (sb s) <> IBLOCK (i_inum i) (sb s) /\
    forall bn, 0 <= bn < nb -> BBLOCK c (sb s) <> file_addr (vw s) i bn
}.

(** The inode with the block [b] added and the size set to [e]. *)
Definition extended (i : inode) (nb b e : Z) : inode := set_i_size e (set_i_addrs (<[Z.to_nat nb := b]> (i_addrs i)) i).

(** [bmap] of a direct block that is not allocated takes the least free block. *)
Lemma wp_bmap_new s held B ip i bn b (Q : Z -> kstate -> Prop) :
  in_op s held B -> icache s !! ip = Some i -> i_dev i = ROOTDEV -> 0 <= bn < NDIRECT -> i_addrs i !! Z.to_nat bn = Some 0 ->
  bitmap_ok s -> room (klog s) B (2 + length held) ->
  (forall c, 0 <= c < sb_size (sb s) -> BBLOCK c (sb s) ∉ held.*2) -> b ∉ held.*2 ->
  0 <= b < sb_size (sb s) -> is_free (vw s) (sb s) b = true -> (forall c, 0 <= c < b -> is_free (vw s) (sb s) c = false) ->
  (forall s', in_op s' held (add_tx (add_tx B (BBLOCK b (sb s))) b) ->
     op_step (set_icache (<[ip := set_i_addrs (<[Z.to_nat bn := b]> (i_addrs i)) i]> (icache s)) s) s' ->
     (forall x, vw s' x = after_balloc (vw s) (sb s) b x) -> Q b s') ->
  wp (bmap ip bn) Q s.
Proof.
  intros Ho Hi Hd Hbn Ha Hbm Hr Hheld Hbh Hb Hfree Hleast HQ. unfold bmap. rewrite (proj2 (Z.ltb_lt _ _)) by lia.
  wstep. eapply wp_get_addr; [exact Hi|exact Ha|]. cbn [Z.eqb]. wstep. eapply wp_get_inode; [exact Hi|]. rewrite Hd. wstep.
  apply (wp_balloc s held B b); [done..|]. intros s1 Ho1 St1 V1. pose proof (op_step_field icache _ _ ltac:(done) St1) as Ei.
  wstep. unfold put_addr. wstep. eapply wp_get_addr; [rewrite Ei; exact Hi|exact Ha|].
  eapply wp_modify_inode; [rewrite Ei; exact Hi|]. wsteps. rewrite Ei. apply HQ; [by apply in_op_icache|by apply op_step_icache|exact V1].
Qed.

(** The blocks of the extended file. *)
Lemma extended_blocks s i nb b e bytes V' :
  file_ok (vw s) (klog s) [] i nb -> marked s i nb -> (forall bn, 0 <= bn < nb -> file_addr (vw s) i bn <> IBLOCK (i_inum i) (sb s)) ->
  0 <= nb < NDIRECT -> length (i_addrs i) = 13%nat ->
  0 <= b < sb_size (sb s) -> is_free (vw s) (sb s) b = true -> (length bytes <= bsize)%nat ->
  (forall x, x <> IBLOCK (i_inum i) (sb s) ->
     V' x = if x =? b then splice zero_block 0 bytes else after_balloc (vw s) (sb s) b x) ->
  (forall bn, 0 <= bn < nb + 1 -> block_ok V' [] (extended i nb b e) bn) /\
  forall q, 0 <= q -> q / BSIZE < nb + 1 -> file_byte V' (extended i nb b e) q =
    if decide (q / BSIZE < nb) then file_byte (vw s) i q else default 0 (splice zero_block 0 bytes !! Z.to_nat (q mod BSIZE)).
Proof.
  intros Hf [M1 M2 M3 M4] Hnd Hnb Hlen Hb Hfree Hby HV. change NDIRECT with 12 in *.
  assert (Hne : forall x, is_free (vw s) (sb s) x = false -> x <> b) by (intros x Hx ->; congruence).
  assert (Haddr : forall V bn, 0 <= bn < nb + 1 -> file_addr V (extended i nb b e) bn = if decide (bn = nb) then b else file_addr (vw s) i bn).
  { intros V bn Hbn. unfold file_addr. change NDIRECT with 12. rewrite !(proj2 (Z.ltb_lt bn 12)) by lia.
    change (i_addrs (extended i nb b e)) with (<[Z.to_nat nb := b]> (i_addrs i)). case_decide as E.
    - subst. rewrite list_lookup_insert_eq by lia. done.
    - rewrite list_lookup_insert_ne by lia. done. }
  assert (Hnew : V' b = splice zero_block 0 bytes) by (rewrite HV by (by apply not_eq_sym, Hne); by rewrite Z.eqb_refl).
  assert (Hold : forall bn, 0 <= bn < nb -> V' (file_addr (vw s) i bn) = vw s (file_addr (vw s) i bn)).
  { intros bn Hbn. rewrite HV by auto. unfold after_balloc. rewrite (proj2 (Z.eqb_neq _ b)) by auto.
    rewrite (proj2 (Z.eqb_neq _ (BBLOCK b (sb s)))); [done|]. apply not_eq_sym. by apply M4. }
  assert (Hsl : length (splice zero_block 0 bytes) = bsize) by (rewrite length_splice; [done|]; change (length zero_block) with bsize; lia).
  split.
  - intros bn Hbn. split; rewrite ?Haddr by done.
    + change MAXFILE with 268. lia.
    + change (i_addrs (extended i nb b e)) with (<[Z.to_nat nb := b]> (i_addrs i)). by rewrite length_insert.
    + case_decide; [by apply not_eq_sym, Hne|]. apply (fo_block _ _ _ _ _ Hf). lia.
    + apply not_elem_of_nil.
    + case_decide; [by rewrite Hnew|]. rewrite Hold by lia. apply (fo_block _ _ _ _ _ Hf). lia.
    + change NDIRECT with 12. lia.
  - intros q Hq Hqn. assert (Hq0 : 0 <= q / BSIZE) by (by apply Z.div_pos). unfold file_byte. rewrite Haddr by lia. case_decide as E.
    + rewrite decide_False by lia. by rewrite Hnew.
    + rewrite decide_True by lia. rewrite Hold by lia. done.
Qed.

(** A write of at most a block at the end of a file whose blocks are full. *)
Lemma wp_writei_new s B ip i nb b src bytes (Q : Z -> kstate -> Prop) :
  let n := Z.of_nat (length bytes) in
  let blk := IBLOCK (i_inum i) (sb s) in
  let i' := extended i nb b (nb * BSIZE + n) in
  in_op s [] B -> icache s !! ip = Some i -> i_dev i = ROOTDEV -> i_size i = nb * BSIZE -> 0 < n <= BSIZE ->
  0 <= nb < NDIRECT -> length (i_addrs i) = 13%nat -> i_addrs i !! Z.to_nat nb = Some 0 -> room (klog s) B 4 ->
  file_ok (vw s) (klog s) [] i nb -> marked s i nb -> bitmap_ok s -> home (klog s) blk ->
  (forall bn, 0 <= bn < nb -> file_addr (vw s) i bn <> blk) -> gives (set_icache (<[ip := set_i_addrs (<[Z.to_nat nb := b]> (i_addrs i)) i]> (icache s)) s) src bytes ->
  0 <= b < sb_size (sb s) -> is_free (vw s) (sb s) b = true -> (forall c, 0 <= c < b -> is_free (vw s) (sb s) c = false) ->
  (forall s' B', in_op s' [] B' -> icache s' = <[ip := i']> (icache s) ->
     (forall bn, 0 <= bn < nb + 1 -> block_ok (vw s') [] i' bn) ->
     (forall q, 0 <= q < nb * BSIZE + n -> file_byte (vw s') i' q =
        if decide (nb * BSIZE <= q) then default 0 (bytes !! Z.to_nat (q - nb * BSIZE)) else file_byte (vw s) i q) ->
     Q n s') ->
  wp (writei ip src (nb * BSIZE) n) Q s.
Proof.
  intros n blk i' Ho Hi Hd Hsz Hn Hnb Hal Ha Hr Hf Hm Hbm Hh Hnd Hsrc Hb Hfree Hleast HQ.
  pose proof (lookup_lt_Some _ _ _ Hi) as Hlt. change NDIRECT with 12 in Hnb. unfold BSIZE in Hn.
  assert (Hbb : b <> blk) by (intros E; pose proof (mk_inode_blk _ _ _ Hm) as Hx; fold blk in Hx; congruence).
  unfold writei. wstep. eapply wp_get_inode; [exact Hi|]. change (MAXFILE * BSIZE) with 274432.
  rewrite u32_id, (proj2 (Z.ltb_ge (i_size i) _)), (proj2 (Z.ltb_ge _ (nb * BSIZE))), (proj2 (Z.ltb_ge 274432 _)) by (unfold BSIZE in *; lia).
  cbn [orb]. wstep. rewrite (Nat.add_comm _ 3 : rw_fuel n = _). cbn [Nat.add iter].
  rewrite (proj2 (Z.ltb_lt 0 n)) by lia. do 2 wstep. eapply wp_get_inode; [exact Hi|]. wstep.
  rewrite Z.div_mul, Z.mod_mul by done. apply (wp_bmap_new s [] B ip i nb b); try done;
    [by eapply room_le; [|exact Hr]; simpl; lia|intros; apply not_elem_of_nil|apply not_elem_of_nil|].
  set (i1 := set_i_addrs _ i). intros s1 Ho1 St1 V1. rewrite Hd. wstep. set (B1 := add_tx (add_tx B (BBLOCK b (sb s))) b) in *.
  assert (Hr1 : room (klog s) B1 2) by (unfold B1; by apply room_add, room_add).
  set (t0 := set_icache (<[ip := i1]> (icache s)) s) in *.
  apply (wp_op_bread s1 [] B1 b); [done|apply not_elem_of_nil|destruct Hr1; simpl; lia|]. intros k s2 Ho2 Hk St2 V2. cbv zeta. wstep.
  rewrite Z.sub_0_r, Z.sub_0_r, Z.min_l by (unfold BSIZE; lia). assert (St : op_step t0 s2) by (by eapply op_step_trans).
  apply Hsrc; [done|apply Ho2|lia|lia|unfold n; lia|]. wsteps.
  replace (field bytes (Z.to_nat 0) (Z.to_nat n)) with bytes by (unfold field; simpl; rewrite drop_0, take_ge; [done|unfold n; lia]).
  eapply wp_modify_data; [exact Ho2|by apply held_ok_head|]. intros s3 Ho3 St3 V3. cbn [Z.eqb Pos.eqb].
  assert (St' : op_step t0 s3) by (by eapply op_step_trans).
  eapply wp_op_log_release_then; [exact Ho3|done|eapply (home_step t0); [exact St'|by apply (bm_free _ Hbm)]|
    eapply (room_step t0); [exact St'|eapply room_le; [|exact Hr1]; lia]|].
  intros s4 Ho4 St4 V4. wstep. wstep. rewrite Z.add_0_l, (proj2 (Z.ltb_ge n n)) by lia. wsteps. rewrite u32_id by (unfold BSIZE; lia).
  cbn [when].
  assert (St4' : op_step t0 s4) by (by eapply op_step_trans).
  assert (Hi4 : icache s4 = <[ip := i1]> (icache s)) by (by rewrite (op_step_field icache _ _ ltac:(done) St4')).
  wstep. eapply wp_get_inode; [rewrite Hi4; by apply list_lookup_insert_eq|]. change (i_size i1) with (i_size i).
  rewrite (proj2 (Z.ltb_lt (i_size i) _)) by lia. cbn [when]. wsteps.
  eapply wp_modify_inode; [rewrite Hi4; by apply list_lookup_insert_eq|]. rewrite Hi4, list_insert_insert_eq.
  change (set_i_size (nb * BSIZE + n) i1) with i'. set (s5 := set_icache (<[ip := i']> (icache s)) s4).
  assert (Hr4 : room (klog s) (add_tx B1 b) 1) by (by apply room_add).
  eapply (wp_iupdate s5 [] (add_tx B1 b) ip i'); change (sb s5) with (sb s4); change (klog s5) with (klog s4);
    rewrite ?(op_step_sb _ _ St4'); change (IBLOCK (i_inum i') (sb t0)) with blk;
    [by apply in_op_icache|unfold s5; fields; by apply list_lookup_insert_eq|done|apply not_elem_of_nil|by apply (home_step t0)|by apply (room_step t0)|].
  intros s6 Ho6 St6 V6. wsteps. rewrite i32_id by lia.
  destruct (extended_blocks s i nb b (nb * BSIZE + n) bytes (vw s6)) as [E1 E2]; try done.
  { change bsize with 1024%nat. unfold n in Hn. lia. }
  { intros x Hx. rewrite V6. fold blk in Hx. rewrite (proj2 (Z.eqb_neq x blk)) by done. change (vw s5 x) with (vw s4 x).
    rewrite V4, V3, !V2, !V1. destruct (Z.eqb_spec x b) as [->|]; [|done]. unfold after_balloc. by rewrite Z.eqb_refl. }
  apply (HQ s6 (add_tx (add_tx B1 b) blk)); [done|by rewrite (op_step_field icache _ _ ltac:(done) St6)|done|].
  intros q Hq. assert (Hqd : q / BSIZE < nb + 1) by (apply Z.div_lt_upper_bound; unfold BSIZE in *; lia).
  rewrite E2 by (done || lia). destruct (decide (nb * BSIZE <= q)) as [Hge|Hlt'].
  - assert (q / BSIZE = nb) as Eq by (unfold BSIZE in *; zdm). rewrite decide_False by lia.
    replace (q mod BSIZE) with (q - nb * BSIZE) by (unfold BSIZE in *; zdm).
    rewrite splice_lookup by (change (length zero_block) with 1024%nat; lia). rewrite decide_True by lia. by rewrite Nat.sub_0_r.
  - rewrite decide_True by (apply Z.div_lt_upper_bound; unfold BSIZE in *; lia). done.
Qed.

Lemma marked_ext s s' i nb : (forall x, vw s' x = vw s x) -> sb s' = sb s -> marked s i nb -> marked s' i nb.
Proof.
  intros HV Hsb [M1 M2 M3 M4]. assert (Hfr : forall c, is_free (vw s') (sb s') c = is_free (vw s) (sb s) c)
    by (intros; unfold is_free; by rewrite HV, Hsb).
  split; intros; rewrite ?Hfr, ?(file_addr_ext (vw s)), ?Hsb by done; auto.
  destruct (M4 c) as [M5 M6]; [by rewrite <- Hsb|]. split; [done|]. intros bn Hbn. rewrite (file_addr_ext (vw s)) by done. auto.
Qed.

Lemma bitmap_ok_ext s s' : op_step s s' -> (forall x, vw s' x = vw s x) -> bitmap_ok s -> bitmap_ok s'.
Proof.
  intros St HV [M1 M2 M3 M4 M5]. pose proof (op_step_sb _ _ St) as Hsb. split; rewrite ?Hsb; [done|done|..].
  - intros b Hb. eapply home_step; [exact St|auto].
  - intros b Hb. rewrite HV. auto.
  - intros b Hb Hf. destruct (M5 b Hb) as [H1 H2]; [unfold is_free in *; by rewrite HV in Hf|].
    split; [by eapply home_step|done].
Qed.

(** The directory is full, and can take a direct block more. *)
Record grows (s : kstate) (i : inode) (nb slot : Z) : Prop := {
  gr_full : i_size i = nb * BSIZE;
  gr_slot : slot * 16 = i_size i;
  gr_direct : 0 <= nb < NDIRECT;
  gr_addrs : length (i_addrs i) = 13%nat;
  gr_addr : i_addrs i !! Z.to_nat nb = Some 0;
  gr_marked : marked s i nb;
  gr_bitmap : bitmap_ok s
}.

Definition has_free (s : kstate) : Prop := exists c, 0 <= c < sb_size (sb s) /\ is_free (vw s) (sb s) c = true.

(** A run that ends in a [panic]. *)
Definition panics {A} (m : K A) (msg : string) (s : kstate) : Prop := exists s', m s = Panic msg s'.

Lemma panics_bind {A C} (m : K A) (f : A -> K C) msg s : wp m (fun a => panics (f a) msg) s -> panics (let* a := m in f a) msg s.
Proof. intros (a & s' & Hm & s'' & Hf)%wp_run. exists s''. unfold bind. by rewrite Hm. Qed.

Lemma panics_first {A C} (m : K A) (f : A -> K C) msg s : panics m msg s -> panics (let* a := m in f a) msg s.
Proof. intros [s' Hm]. exists s'. unfold bind. by rewrite Hm. Qed.

Section Link.
Context (s : kstate) (B : list Z) (dp : nat) (i : inode) (N nb : Z) (name : list Z) (inum : Z).
Let es := entries (vw s) i N.
Let slot := Z.of_nat (free_entry es).
Let blk := IBLOCK (i_inum i) (sb s).
Hypothesis Ho : in_op s [] B.
Hypothesis Hi : icache s !! dp = Some i.
Hypothesis Hd : dir_ok (vw s) i N.
Hypothesis Hn : name_ok name.
Hypothesis Hroom : room (klog s) B (rw_fuel 16 + 1).

Lemma link_len : (length B < HEAD)%nat.
Proof using Hroom. clear - Hroom. destruct Hroom. lia. Qed.

(** The second loop stops at the first unused entry. *)
Lemma wp_free_scan s0 (Q : option Z -> kstate -> Prop) : reading s B s0 ->
  (forall t, reading s B t -> Q ((fun x => Z.of_nat (fst x) * 16) <$> list_find unused es) t) ->
  wp (for_each (dirent_offs 0 (i_size i)) (fun off =>
      let* r := readi dp ToLocal off sizeof_dirent in
      let '(n, bytes) := r in
      if negb (n =? sizeof_dirent) then panic "dirlink read"
      else if d_inum (get_dirent bytes) =? 0 then ret (Some off)
      else ret None)) Q s0.
Proof.
  intros Hs0 HQ. rewrite (do_size _ _ _ Hd), dirent_offs_eq by apply Hd.
  assert (Hbody : forall k s' (R : option Z -> kstate -> Prop), 0 <= k < N -> reading s B s' ->
    (forall t, reading s B t -> R (if decide (unused (entry (vw s) i k)) then Some (k * 16) else None) t) ->
    wp (let* r := readi dp ToLocal (k * 16) sizeof_dirent in
        let '(n, bytes) := r in
        if negb (n =? sizeof_dirent) then panic "dirlink read"
        else if d_inum (get_dirent bytes) =? 0 then ret (Some (k * 16))
        else ret None) R s').
  { intros k s' R Hk Hr HR. wstep. apply (wp_read_entry s B dp i N Hi Hd link_len); [done|done|]. intros t Ht. cbn beta iota.
    change (negb (16 =? sizeof_dirent)) with false. cbv iota. fold (entry (vw s) i k). specialize (HR t Ht). unfold unused in HR.
    destruct (Z.eqb_spec (d_inum (entry (vw s) i k)) 0); case_decide; try done; by wsteps. }
  destruct (list_find unused es) as [[k e]|] eqn:E.
  - apply list_find_Some in E as (Hk & Hu & Hmin). apply entries_inv in Hk as [Hk ->].
    rewrite (seqZ_around N (Z.of_nat k)) by lia. rewrite fmap_app, fmap_cons. apply (wp_for_each_find _ _ _ _ (reading s B)); [done|..].
    + intros y s' Hy Hr. apply list_elem_of_fmap in Hy as (j & -> & Hj). apply elem_of_seqZ in Hj.
      apply Hbody; [lia|done|]. intros t Ht. rewrite decide_False; [done|].
      apply (Hmin (Z.to_nat j)); [apply entries_lookup; lia|lia].
    + intros s' Hr. apply Hbody; [lia|done|]. intros t Ht. rewrite decide_True by done. split; [done|]. by apply HQ.
  - apply list_find_None in E. apply (wp_for_each_none _ _ (reading s B)); [done| |done].
    intros y s' Hy Hr. apply list_elem_of_fmap in Hy as (j & -> & Hj). apply elem_of_seqZ in Hj.
    apply Hbody; [lia|done|]. intros t Ht. rewrite decide_False; [done|].
    eapply Forall_lookup in E; [exact E|]. apply entries_lookup. lia.
Qed.

Hypothesis Hinum : 0 < inum < 2 ^ 16.
Hypothesis Hmax : nb <= MAXFILE.
Hypothesis Hf : file_ok (vw s) (klog s) [] i nb.
Hypothesis Hh : home (klog s) blk.
Hypothesis Hnd : forall b, 0 <= b < nb -> file_addr (vw s) i b <> blk.
Hypothesis Hni : blk <> default 0 (i_addrs i !! Z.to_nat NDIRECT).

Lemma new_dirent_ok : length (d_name (new_dirent name inum)) = 14%nat /\ dname (d_name (new_dirent name inum)) = dname name /\
  Forall is_byte (d_name (new_dirent name inum)).
Proof using Hn.
  clear - Hn. destruct Hn as [_ Hl]. destruct (dname_copy (replicate (Z.to_nat DIRSIZ) 0) name) as [E1 E2]; [done|done|].
  split; [done|]. split; [done|]. by apply name_copy_bytes.
Qed.

Lemma slot_le : 0 <= slot <= N.
Proof.
  unfold slot. pose proof (free_entry_le es) as Hle. unfold es at 2 in Hle. rewrite length_dir_entries in Hle.
  pose proof (do_entries _ _ _ Hd). lia.
Qed.

(** The offset the second loop ends at. *)
Lemma scan_off : match (fun x => Z.of_nat (fst x) * 16) <$> list_find unused es with
  | Some off => off | None => (i_size i + sizeof_dirent - 1) / sizeof_dirent * sizeof_dirent end = slot * 16.
Proof.
  unfold slot, free_entry. destruct (list_find unused es) as [[k e]|]; [done|]. cbn [fmap option_fmap option_map].
  unfold es. rewrite length_dir_entries, (do_size _ _ _ Hd), Z2Nat.id by apply Hd. unfold sizeof_dirent. zdm.
Qed.

(** A view in which the entry has been written over the free slot. *)
Lemma dir_linked V' i' nb' :
  i_dev i' = ROOTDEV -> i_type i' = T_DIR -> i_size i' = Z.max N (slot + 1) * 16 -> i_size i' <= nb' * BSIZE -> nb' <= MAXFILE ->
  (forall bn, 0 <= bn < nb' -> block_ok V' [] i' bn) ->
  (forall q, 0 <= q < i_size i' -> file_byte V' i' q =
     if decide (slot * 16 <= q < slot * 16 + 16) then default 0 (dirent_bytes (new_dirent name inum) !! Z.to_nat (q - slot * 16))
     else file_byte (vw s) i q) ->
  dir_ok V' i' (Z.max N (slot + 1)) /\
  entries V' i' (Z.max N (slot + 1)) = link_entry es (new_dirent name inum).
Proof.
  intros Hdv Hty Hg Hnb' Hmax' Hbk HV. pose proof slot_le as Hs. destruct new_dirent_ok as (N1 & _ & N3).
  destruct (dirent_bytes_ok _ N3 N1) as [B1 B2]. pose proof (do_size _ _ _ Hd) as Hsz. change MAXFILE with 268 in Hmax'. split.
  - split; [done|done|lia|done|unfold BSIZE in *; lia|intros bn Hb Hbn; apply Hbk; unfold BSIZE in *; lia|].
    intros q Hq. rewrite HV by done. case_decide as Hq'.
    + destruct (lookup_lt_is_Some_2 (dirent_bytes (new_dirent name inum)) (Z.to_nat (q - slot * 16))) as [x Hx]; [lia|].
      rewrite Hx. by eapply Forall_lookup in B1.
    + apply (do_bytes _ _ _ Hd). lia.
  - apply list_eq. intros k. rewrite link_entry_lookup. fold slot.
    assert (He : Z.of_nat k < Z.max N (slot + 1) -> entries V' i' (Z.max N (slot + 1)) !! k =
        Some (if decide (Z.of_nat k = slot) then new_dirent name inum else entry (vw s) i (Z.of_nat k))).
    { intros Hk. rewrite <- (Nat2Z.id k) at 1. rewrite entries_lookup by lia. f_equal. unfold entry.
      rewrite (entry_written (vw s) V' i i' (i_size i') slot (dirent_bytes (new_dirent name inum))); [|done|lia|lia|lia|done].
      case_decide; [|done]. apply get_dirent_bytes; [cbn; lia|done]. }
    destruct (decide (k = free_entry es)) as [Ek|Ek].
    + rewrite He by (unfold slot; lia). rewrite decide_True by (unfold slot; lia). done.
    + destruct (decide (Z.of_nat k < N)) as [Hk|Hk].
      * rewrite He by lia. rewrite decide_False by (unfold slot; lia). symmetry. rewrite <- (Nat2Z.id k) at 1. apply entries_lookup. lia.
      * transitivity (@None dirent); [|symmetry]; apply lookup_ge_None_2; unfold es; rewrite length_dir_entries; [|lia].
        unfold slot in *. lia.
Qed.

(** A full directory on a full disk. *)
Lemma dirlink_full : find_name name es = None -> grows s i nb slot -> ~ has_free s ->
  panics (dirlink dp name inum) "balloc: out of blocks" s.
Proof.
  intros Hfind [G1 G2 G3 G4 G5 G6 G7] Hno. unfold dirlink. apply panics_bind.
  apply (wp_dirlookup_none s B dp i N Ho Hi Hd link_len name); [done|done|]. intros t1 R1.
  pose proof (op_step_field icache _ _ ltac:(done) (proj1 (proj2 R1))) as Ei1. apply panics_bind.
  eapply wp_get_inode; [rewrite Ei1; exact Hi|]. apply panics_bind, wp_free_scan; [done|]. intros t (Ht & St & HV).
  rewrite scan_off. cbv zeta. pose proof (op_step_field icache _ _ ltac:(done) St) as Ei. pose proof (op_step_sb _ _ St) as Esb.
  assert (Hbig : 0 <= nb * BSIZE < 12 * 1024) by (unfold BSIZE; change NDIRECT with 12 in G3; lia).
  apply panics_first. unfold writei. apply panics_bind. eapply wp_get_inode; [rewrite Ei; exact Hi|].
  rewrite G2, G1. change sizeof_dirent with 16. change (MAXFILE * BSIZE) with 274432.
  rewrite u32_id by lia. rewrite (proj2 (Z.ltb_ge (nb * BSIZE) (nb * BSIZE))) by lia.
  rewrite (proj2 (Z.ltb_ge (nb * BSIZE + 16) (nb * BSIZE))) by lia. rewrite (proj2 (Z.ltb_ge 274432 (nb * BSIZE + 16))) by lia.
  cbn [orb]. apply panics_first. change (rw_fuel 16) with 3%nat. cbn [iter]. apply panics_first. cbn [Z.ltb Z.compare].
  apply panics_bind. eapply wp_get_inode; [rewrite Ei; exact Hi|]. rewrite Z.div_mul by done. apply panics_first.
  unfold bmap. rewrite (proj2 (Z.ltb_lt nb NDIRECT)) by lia. apply panics_bind.
  eapply wp_get_addr; [rewrite Ei; exact Hi|exact G5|]. cbn [Z.eqb]. apply panics_bind.
  eapply wp_get_inode; [rewrite Ei; exact Hi|]. rewrite (do_dev _ _ _ Hd). apply panics_first.
  apply (balloc_full t [] B Ht); [by eapply bitmap_ok_ext|eapply room_step; [exact St|eapply room_le; [|exact Hroom]; change (rw_fuel 16) with 3%nat; simpl; lia]|
    intros; apply not_elem_of_nil|].
  intros c Hc. rewrite Esb in Hc. destruct (is_free (vw t) (sb t) c) eqn:E; [|done]. destruct Hno. exists c. split; [done|].
  unfold is_free in *. by rewrite HV, Esb in E.
Qed.

Hypothesis Hfit : i_size i <= nb * BSIZE /\ slot * 16 + 16 <= nb * BSIZE \/ (grows s i nb slot /\ has_free s).

(** Writing the entry, into an allocated block or a new one, in a state [t] in which
    the directory has been read. *)
Lemma wp_write_entry t (Q : Z -> kstate -> Prop) : reading s B t ->
  (forall t' B' i', in_op t' [] B' -> icache t' = <[dp := i']> (icache s) -> i_ref i' = i_ref i ->
     dir_ok (vw t') i' (Z.max N (slot + 1)) ->
     entries (vw t') i' (Z.max N (slot + 1)) = link_entry es (new_dirent name inum) -> Q 16 t') ->
  wp (writei dp (FromLocal (dirent_bytes (new_dirent name inum))) (slot * 16) sizeof_dirent) Q t.
Proof.
  intros (Ht & St & HV) HQ. pose proof slot_le as Hs. pose proof (op_step_field icache _ _ ltac:(done) St) as Ei.
  destruct new_dirent_ok as (N1 & _ & N3). destruct (dirent_bytes_ok _ N3 N1) as [B1 B2]. pose proof (do_size _ _ _ Hd) as Hsz.
  pose proof (op_step_sb _ _ St) as Esb. assert (En : Z.of_nat (length (dirent_bytes (new_dirent name inum))) = 16) by (by rewrite B2).
  assert (Hft : file_ok (vw t) (klog t) [] i nb) by (eapply file_ok_ext; [exact HV|intros b; by apply home_step|done]).
  assert (Hht : home (klog t) blk) by (by eapply home_step).
  assert (Hndt : forall b, 0 <= b < nb -> file_addr (vw t) i b <> blk) by (intros b Hb; rewrite (file_addr_ext (vw s)) by done; by apply Hnd).
  assert (Hrt : room (klog t) B (rw_fuel 16 + 1)) by (by eapply room_step).
  replace sizeof_dirent with (Z.of_nat (length (dirent_bytes (new_dirent name inum)))) by (by rewrite En). destruct Hfit as [[Hfit1 Hfit2]|Hgr].
  - apply (wp_writei t [] B dp i nb); rewrite ?En, ?Ei, ?Esb; fold blk; try done;
      [apply Hd|rewrite Hsz; lia|set_solver|].
    intros t' B' Ho' Ei' _ Hf' Hby. destruct (dir_linked (vw t') (grown i (slot * 16 + 16)) nb) as [D1 D2]; try apply Hd; try done.
    + cbn. lia.
    + cbn. lia.
    + intros bn Hbn. destruct (fo_block _ _ _ _ _ Hf' bn Hbn) as [C1 C2 C3 C4 C5 C6]. by split.
    + intros q Hq. cbn in Hq. change (file_byte (vw t') (grown i (slot * 16 + 16)) q) with (file_byte (vw t') i q).
      rewrite Hby by (lia || (apply Z.div_lt_upper_bound; unfold BSIZE in *; lia)).
      by rewrite (file_byte_ext (vw s) (vw t)).
    + by eapply (HQ t' B' (grown i (slot * 16 + 16))).
  - destruct Hgr as [[G1 G2 G3 G4 G5 G6 G7] (f & Gf & Gff)].
    destruct (least_Z (is_free (vw s) (sb s)) f ltac:(lia) Gff) as (b & Hb & Hbf & Hleast).
    assert (Hfr : forall c, is_free (vw t) (sb t) c = is_free (vw s) (sb s) c) by (intros; unfold is_free; by rewrite HV, Esb).
    rewrite G2, G1. apply (wp_writei_new t B dp i nb b); rewrite ?En, ?Ei, ?Hfr, ?Esb; fold blk; try done.
    + apply Hd.
    + by eapply marked_ext; [..|exact G6].
    + by eapply bitmap_ok_ext.
    + apply gives_local.
    + lia.
    + intros c Hc. rewrite <- Esb, Hfr. by apply Hleast.
    + intros t' B' Ho' Ei' Hbk Hby. destruct (dir_linked (vw t') (extended i nb b (nb * BSIZE + 16)) (nb + 1)) as [D1 D2]; try apply Hd; try done.
      * cbn. lia.
      * cbn. unfold BSIZE. lia.
      * change NDIRECT with 12 in G3. change MAXFILE with 268. lia.
      * intros q Hq. cbn in Hq. rewrite Hby by lia. rewrite G2, G1. rewrite (file_byte_ext (vw s) (vw t)) by done.
        destruct (decide (nb * BSIZE <= q)); [rewrite decide_True by lia|rewrite decide_False by lia]; done.
      * by eapply (HQ t' B' (extended i nb b (nb * BSIZE + 16))).
Qed.

Lemma wp_dirlink (Q : Z -> kstate -> Prop) :
  find_name name es = None ->
  (forall t B' i', in_op t [] B' -> icache t = <[dp := i']> (icache s) -> i_ref i' = i_ref i ->
     dir_ok (vw t) i' (Z.max N (slot + 1)) ->
     entries (vw t) i' (Z.max N (slot + 1)) = link_entry es (new_dirent name inum) -> Q 0 t) ->
  wp (dirlink dp name inum) Q s.
Proof.
  intros Hfind HQ. unfold dirlink. wstep. apply (wp_dirlookup_none s B dp i N Ho Hi Hd link_len name); [done|done|].
  intros t1 R1. pose proof (op_step_field icache _ _ ltac:(done) (proj1 (proj2 R1))) as Ei1.
  wstep. eapply wp_get_inode; [rewrite Ei1; exact Hi|]. wstep. apply wp_free_scan; [done|]. intros t Rt.
  rewrite scan_off.
  cbv zeta. replace (u16 inum) with inum by (unfold u16; by rewrite Z.mod_small by lia). fold (new_dirent name inum).
  wstep. apply wp_write_entry; [done|]. intros t' B' i' H1 H2 H3 H4 H5. wsteps. change (negb (16 =? sizeof_dirent)) with false. wsteps.
  by eapply HQ.
Qed.
End Link.

(** Linking a name that is there already only fails. *)
Lemma wp_dirlink_present s B dp i N name inum k de (Q : Z -> kstate -> Prop) :
  in_op s [] B -> icache s !! dp = Some i -> dir_ok (vw s) i N -> (length B < HEAD)%nat -> name_ok name ->
  icache_ok (icache s) -> find_name name (entries (vw s) i N) = Some (k, de) ->
  (forall t, in_op t [] B -> (forall x, vw t x = vw s x) -> Q (-1) t) ->
  wp (dirlink dp name inum) Q s.
Proof.
  intros Ho Hi Hd HB' Hn Hc Hf HQ. destruct (iget_slot_ok ROOTDEV (d_inum de) (icache s) Hc) as (ip & l & Hg & _ & j & Hj & Hk).
  unfold dirlink. wstep. eapply (wp_dirlookup_some s B dp i N); eauto; [apply Hc|]. intros t (Ht & St & HV). cbn beta iota.
  assert (Ho' : in_op (set_icache l t) [] B) by (by apply in_op_icache).
  wstep. eapply wp_iput; [apply Ho'|exact Hj|done|]. wsteps. apply HQ; [by apply in_op_icache|exact HV].
Qed.

(** The result of [dirlookup] for a name, by the entries of the directory. *)
Definition looked_up (es : list dirent) (name : list Z) (r : outcome kstate (option (nat * Z))) : Prop :=
  match find_name name es with
  | None => exists t, r = Ok None t
  | Some (k, de) => exists ip t, r = Ok (Some (ip, Z.of_nat k * 16)) t /\ refers (icache t) ip ROOTDEV (d_inum de)
  end.

Lemma dirlookup_run s B dp i N name :
  in_op s [] B -> icache s !! dp = Some i -> dir_ok (vw s) i N -> (length B < HEAD)%nat -> name_ok name ->
  icache_ok (icache s) -> looked_up (entries (vw s) i N) name (dirlookup dp name s).
Proof.
  intros Ho Hi Hd HB' Hn Hc. unfold looked_up. destruct (find_name name (entries (vw s) i N)) as [[k de]|] eqn:E.
  - destruct (iget_slot_ok ROOTDEV (d_inum de) (icache s) Hc) as (ip & l & Hg & Hr & _).
    destruct (wp_run (dirlookup dp name) (fun r t => r = Some (ip, Z.of_nat k * 16) /\ icache t = l) s) as (r & t & Hrun & -> & <-).
    { eapply (wp_dirlookup_some s B dp i N); eauto. apply Hc. }
    eauto.
  - destruct (wp_run (dirlookup dp name) (fun r _ => r = None) s) as (r & t & Hrun & ->); [|by eauto].
    by eapply (wp_dirlookup_none s B dp i N).
Qed.

Lemma icache_ok_insert l ip i i' : icache_ok l -> l !! ip = Some i -> i_ref i' = i_ref i -> icache_ok (<[ip := i']> l).
Proof.
  intros [H1 H2 H3] Hi Hr. split; [by rewrite length_insert|..].
  - apply Forall_insert; [done|]. rewrite Hr. by eapply Forall_lookup_1 in H2.
  - apply Exists_exists in H3 as (x & Hx & Hu). apply list_elem_of_lookup in Hx as [j Hj]. apply Exists_exists.
    destruct (decide (ip = j)) as [<-|Hne].
    + exists i'. split; [|unfold unref in *; rewrite Hr; congruence].
      eapply list_elem_of_lookup_2, list_lookup_insert_eq. by eapply lookup_lt_Some.
    + exists x. split; [|done]. apply (list_elem_of_lookup_2 _ j). by rewrite list_lookup_insert_ne.
Qed.

(** C3: a directory is a finite map from names to inodes, and [dirlink] inserts
    into it, inside of a transaction with room for four blocks.  Linking a name that is
    not in the directory writes the first unused entry, or a new last one; this
    entry lies in a block the directory has, or in the block after them when they are
    full and that block is one of the twelve direct ones.  It returns 0; a lookup of the name
    then returns the inode linked, at the offset of the entry, and a lookup of any other
    name, names being compared up to [DIRSIZ] bytes, finds the inode it found before or
    fails as before.  When a new block is needed and the disk has no free one, the call
    panics.  Linking a name that is present returns -1 and changes no block. *)
Theorem dirlink_dirlookup (s : kstate) (B : list Z) (dp : nat) (i : inode) (N nb : Z) (name : list Z) (inum : Z) :
  let es := entries (vw s) i N in
  let slot := Z.of_nat (free_entry es) in
  let blk := IBLOCK (i_inum i) (sb s) in
  in_op s [] B -> icache s !! dp = Some i -> dir_ok (vw s) i N -> icache_ok (icache s) -> name_ok name -> 0 < inum < 2 ^ 16 ->
  room (klog s) B (rw_fuel 16 + 1) -> nb <= MAXFILE ->
  i_size i <= nb * BSIZE /\ slot * 16 + 16 <= nb * BSIZE \/ grows s i nb slot ->
  file_ok (vw s) (klog s) [] i nb -> home (klog s) blk ->
  (forall b, 0 <= b < nb -> file_addr (vw s) i b <> blk) -> blk <> default 0 (i_addrs i !! Z.to_nat NDIRECT) ->
  match find_name name es with
  | None =>
    (slot * 16 + 16 <= nb * BSIZE \/ has_free s ->
     exists t, dirlink dp name inum s = Ok 0 t /\
      (exists ip t', dirlookup dp name t = Ok (Some (ip, slot * 16)) t' /\ refers (icache t') ip ROOTDEV inum) /\
      forall name', name_ok name' -> dname name' <> dname name -> looked_up es name' (dirlookup dp name' t)) /\
    (nb * BSIZE < slot * 16 + 16 -> ~ has_free s -> panics (dirlink dp name inum) "balloc: out of blocks" s)
  | Some _ => exists t, dirlink dp name inum s = Ok (-1) t /\ forall x, vw t x = vw s x
  end.
Proof.
  intros es slot blk Ho Hi Hd Hc Hn Hinum Hr Hmax Hfit Hf Hh Hnd Hni. pose proof (link_len s B Hr) as Hlen.
  destruct (find_name name es) as [[k de]|] eqn:E.
  - destruct (wp_run (dirlink dp name inum) (fun r t => r = -1 /\ forall x, vw t x = vw s x) s) as (r & t & Hrun & -> & HV); [|by eauto].
    eapply (wp_dirlink_present s B dp i N); eauto.
  - split; [|intros Hfull Hno; destruct Hfit as [[? ?]|Hg]; [lia|]; by eapply (dirlink_full s B dp i N nb)].
    intros Hcan. assert (Hfit' : i_size i <= nb * BSIZE /\ slot * 16 + 16 <= nb * BSIZE \/ (grows s i nb slot /\ has_free s)).
    { destruct Hfit as [|Hg]; [by left|]. destruct Hcan as [Hcan|]; [|by right]. destruct Hg. lia. }
    destruct (wp_run (dirlink dp name inum) (fun r t => r = 0 /\ exists B' i' N', in_op t [] B' /\
        icache t = <[dp := i']> (icache s) /\ i_ref i' = i_ref i /\ dir_ok (vw t) i' N' /\
        entries (vw t) i' N' = link_entry es (new_dirent name inum)) s) as (r & t & Hrun & -> & B' & i' & N' & Ho' & Ei & Er & Hd' & Ee).
    { eapply (wp_dirlink s B dp i N nb); eauto. intros t B' i' H1 H2 H3 H4 H5. split; [done|]. by exists B', i', (Z.max N (slot + 1)). }
    assert (Hi' : icache t !! dp = Some i') by (rewrite Ei; apply list_lookup_insert_eq; by eapply lookup_lt_Some).
    assert (Hc' : icache_ok (icache t)) by (rewrite Ei; by eapply icache_ok_insert).
    pose proof (proj2 (tx_fit _ _ (op_tx _ _ _ Ho'))) as Hlen'.
    assert (Hlook : forall nm, name_ok nm -> looked_up (link_entry es (new_dirent name inum)) nm (dirlookup dp nm t))
      by (intros nm Hnm; rewrite <- Ee; by eapply dirlookup_run).
    destruct (new_dirent_ok name inum Hn) as (_ & Hdn & _).
    exists t. split; [done|]. split.
    + specialize (Hlook name Hn). unfold looked_up in Hlook.
      rewrite link_finds in Hlook by (done || (split; [cbn; lia|done])). exact Hlook.
    + intros nm Hnm Hne. specialize (Hlook nm Hnm). unfold looked_up in *. rewrite link_keeps in Hlook; [done|].
      intros [_ Heq]. by rewrite Hdn in Heq.
Qed.
End Directory.

(** ** An empty directory

    Without a block yet, as [create] makes it for [mkdir]. *)

Definition ex_dir_inode : inode := mk_inode ROOTDEV 1 1 true T_DIR 0 0 1 0 (replicate 13 0).
Definition ex_dir : kstate := set_icache (<[0%nat := ex_dir_inode]> (icache ex_op)) ex_op.

Lemma ex_dir_op : in_op ex_dir [] [].
Proof. apply in_op_icache, ex_op_in. Qed.

Lemma ex_dir_ok : dir_ok (vw ex_dir) ex_dir_inode 0.
Proof. split; [done|done|lia|done|done|cbn; unfold BSIZE; lia|cbn; lia]. Qed.

Lemma ex_dir_file : file_ok (vw ex_dir) (klog ex_dir) [] ex_dir_inode 0.
Proof. split; lia. Qed.

Lemma ex_dir_marked : marked ex_dir ex_dir_inode 0.
Proof.
  split; [exact (ex_free_bits 0 ltac:(lia))|exact (ex_free_bits 12 ltac:(lia))|lia|].
  intros c Hc. split; [|lia]. change (BBLOCK c ex_sb <> 12). by rewrite ex_BBLOCK.
Qed.

Lemma ex_dir_bitmap : bitmap_ok ex_dir.
Proof. destruct ex_op_bitmap as [M1 M2 M3 M4 M5]. by split. Qed.

Lemma ex_dir_free : has_free ex_dir.
Proof. exists 16. split; [split; [lia|reflexivity]|exact (ex_free_bits 16 ltac:(lia))]. Qed.

Lemma ex_dir_grows : grows ex_dir ex_dir_inode 0 0.
Proof.
  split; [done|done|split; [lia|reflexivity]|done|done|exact ex_dir_marked|exact ex_dir_bitmap].
Qed.

Lemma ex_dir_icache : icache_ok (icache ex_dir).
Proof.
  split; [reflexivity| |].
  - apply (bool_decide_unpack _). vm_compute. exact I.
  - right. left. reflexivity.
Qed.

(** "foo" is linked to inode 5: the directory gets its first block. *)
Lemma dirlink_dirlookup_witness :
  exists t, dirlink (H := idle_world) (H0 := sync_dev) 0 [102; 111; 111] 5 ex_dir = Ok 0 t /\
    exists ip t', dirlookup (H := idle_world) (H0 := sync_dev) 0 [102; 111; 111] t = Ok (Some (ip, 0)) t' /\
      refers (icache t') ip ROOTDEV 5.
Proof.
  pose proof (dirlink_dirlookup (HW := idle_world) (HB := sync_dev) ex_dir [] 0 ex_dir_inode 0 0 [102; 111; 111] 5) as Hw.
  cbv zeta in Hw. change (entries (vw ex_dir) ex_dir_inode 0) with (@nil dirent) in Hw.
  destruct Hw as [Hw _].
  - exact ex_dir_op.
  - reflexivity.
  - exact ex_dir_ok.
  - exact ex_dir_icache.
  - split; [|cbn; lia]. repeat (apply Forall_cons; split; [unfold is_byte; lia|]). apply Forall_nil_2.
  - lia.
  - apply ex_op_room. vm_compute. lia.
  - change MAXFILE with 268. lia.
  - right. exact ex_dir_grows.
  - exact ex_dir_file.
  - change (home (klog ex_file) 12). apply ex_home. lia.
  - lia.
  - done.
  - destruct Hw as (t & H1 & H2 & _); [right; exact ex_dir_free|]. exists t. split; [exact H1|exact H2].
Defined.
