(* ===== verification/Namei.v ===== *)
(** * Path lookup (kernel/fs.c namex, namei, nameiparent)

    The disk as a tree of directories: [walk] resolves the elements of a path from
    an inode number through the entries of the directories on disk.  [namex] computes
    it through the inode cache: it locks, reads and releases one directory per
    element, and every reference it takes on the way is dropped again. *)

From stdpp Require Import gmap strings list fin_maps.
From Stdlib Require Import ZArith Lia.
From S2P Require Import Prelude Machine Str State Riscv Spinlock Sched Sleeplock Bytes Bio.
From S2P Require Import Cache Log Commit Op Inode Dir Balloc Content Path Directory.
Open Scope Z_scope.

(** ** The tree on disk *)

(** The inode [inum] as it is on disk. *)
Definition disk_inode (V : Z -> list Z) (b : superblock) (inum : Z) : dinode :=
  get_dinode (V (IBLOCK inum b)) (inum mod IPB).

Definition node (V : Z -> list Z) (b : superblock) (inum : Z) : inode :=
  loaded (disk_inode V b inum) (mk_inode ROOTDEV inum 1 true 0 0 0 0 0 []).

Definition dir_size (i : inode) : Z := i_size i / 16.

(** The inode the elements of a path lead to ([parent]: all but the last one). *)
Fixpoint walk (V : Z -> list Z) (b : superblock) (parent : bool) (es : list (list Z)) (inum : Z) : option Z :=
  match es with
  | [] => if parent then None else Some inum
  | e :: es =>
    if negb (di_type (disk_inode V b inum) =? T_DIR) then None
    else if parent && bool_decide (es = []) then Some inum
    else
    match find_name e (entries V (node V b inum) (dir_size (node V b inum))) with
    | None => None
    | Some (_, de) => walk V b parent es (d_inum de)
    end
  end.

(** A set of inodes in use that is closed under following directory entries. *)
Record tree (V : Z -> list Z) (b : superblock) (good : Z -> Prop) : Prop := {
  tr_root : good ROOTINO;
  tr_type : forall inum, good inum -> di_type (disk_inode V b inum) <> 0;
  tr_nlink : forall inum, good inum -> di_nlink (disk_inode V b inum) <> 0;
  tr_dir : forall inum, good inum -> di_type (disk_inode V b inum) = T_DIR ->
    dir_ok V (node V b inum) (dir_size (node V b inum));
  tr_entry : forall inum de, good inum -> di_type (disk_inode V b inum) = T_DIR ->
    de ∈ entries V (node V b inum) (dir_size (node V b inum)) -> d_inum de <> 0 -> good (d_inum de)
}.

(** ** The inode cache during a lookup *)

(** What is cached of the tree is what is on disk. *)
Definition coherent (V : Z -> list Z) (b : superblock) (good : Z -> Prop) (l : list inode) : Prop :=
  forall k i, l !! k = Some i -> 0 < i_ref i -> i_dev i = ROOTDEV -> good (i_inum i) -> i_valid i = true ->
    dinode_of i = disk_inode V b (i_inum i).

Definition refs (l : list inode) : list Z := i_ref <$> l.

(** The counts with one more reference to slot [ip]. *)
Definition ref_add (ip : nat) (r : list Z) : list Z := alter (Z.add 1) ip r.

(** Counts that leave room for the lookup: two references and two free slots. *)
Record refs_ok (r : list Z) : Prop := {
  ro_len : length r = 50%nat;
  ro_bound : Forall (fun x => 0 <= x < 2 ^ 31 - 3) r;
  ro_free : exists j k, j <> k /\ r !! j = Some 0 /\ r !! k = Some 0
}.

Lemma refs_insert l ip i : refs (<[ip := i]> l) = <[ip := i_ref i]> (refs l).
Proof. unfold refs. by rewrite list_fmap_insert. Qed.

Lemma ref_add_lookup ip r k : ref_add ip r !! k = (if decide (k = ip) then Z.add 1 else id) <$> r !! k.
Proof.
  unfold ref_add. case_decide; [subst; by rewrite list_lookup_alter_eq|].
  rewrite list_lookup_alter_ne by congruence. by destruct (r !! k).
Qed.

Lemma ref_add_insert ip r x : r !! ip = Some x -> ref_add ip r = <[ip := x + 1]> r.
Proof.
  intros Hx. apply list_eq. intros k. rewrite ref_add_lookup. case_decide as E.
  - subst. rewrite Hx, list_lookup_insert_eq by (by eapply lookup_lt_Some). cbn. f_equal. lia.
  - rewrite list_lookup_insert_ne by congruence. by destruct (r !! k).
Qed.

Lemma ref_add_comm a b r : ref_add a (ref_add b r) = ref_add b (ref_add a r).
Proof.
  apply list_eq. intros k. rewrite !ref_add_lookup. destruct (r !! k); [|done].
  destruct (decide (k = a)), (decide (k = b)); done.
Qed.

(** A slot with a reference on top has a positive count. *)
Lemma ref_pos ip l r i : refs l = ref_add ip r -> (forall k x, r !! k = Some x -> 0 <= x < 2 ^ 31 - 1) -> l !! ip = Some i ->
  1 <= i_ref i.
Proof.
  intros Hr Hb Hi. assert (Hx : refs l !! ip = Some (i_ref i)) by (unfold refs; by rewrite list_lookup_fmap, Hi).
  rewrite Hr, ref_add_lookup, decide_True in Hx by done. destruct (r !! ip) as [x|] eqn:Ex; [|done].
  injection Hx as Hx. specialize (Hb ip x Ex). lia.
Qed.

(** Dropping the reference to [ip]. *)
Lemma ref_drop ip l r i : refs l = ref_add ip r -> (forall k x, r !! k = Some x -> 0 <= x < 2 ^ 31 - 1) -> l !! ip = Some i ->
  i32 (i_ref i - 1) = i_ref i - 1 /\ refs (<[ip := set_i_ref (i_ref i - 1) i]> l) = r.
Proof.
  intros Hr Hb Hi. assert (Hx : refs l !! ip = Some (i_ref i)) by (unfold refs; by rewrite list_lookup_fmap, Hi).
  rewrite Hr, ref_add_lookup, decide_True in Hx by done. destruct (r !! ip) as [x|] eqn:Ex; [|done].
  injection Hx as Hx. specialize (Hb ip x Ex). split; [apply i32_id; lia|].
  rewrite refs_insert, Hr, (ref_add_insert ip r x), list_insert_insert_eq by done. apply list_insert_id.
  cbn. rewrite Ex. f_equal. lia.
Qed.

(** During the lookup at most one reference is held on top. *)
Definition held_refs (r r0 : list Z) : Prop := r = r0 \/ exists ip, r = ref_add ip r0.

Lemma held_refs_room r r0 : held_refs r r0 -> refs_ok r0 ->
  length r = 50%nat /\ (forall k x, r !! k = Some x -> 0 <= x < 2 ^ 31 - 2) /\ exists j, r !! j = Some 0.
Proof.
  intros Hh [R1 R2 (j & k & Hne & Hj & Hk)]. rewrite Forall_lookup in R2. destruct Hh as [->|[ip ->]].
  - split; [done|]. split; [|by eauto]. intros a x Ha. specialize (R2 a x Ha). cbv beta in R2. lia.
  - split; [unfold ref_add; by rewrite length_alter|]. split.
    + intros a x. rewrite ref_add_lookup. destruct (r0 !! a) as [y|] eqn:Ey; [|done]. specialize (R2 a y Ey). cbv beta in R2.
      case_decide; intros [= <-]; cbn; lia.
    + exists (if decide (j = ip) then k else j). rewrite ref_add_lookup.
      destruct (decide (j = ip)) as [E|E]; rewrite decide_False by congruence; [by rewrite Hk|by rewrite Hj].
Qed.

(** [iget] adds a reference to the slot it returns; it keeps the cache coherent and
    the slots in use. *)
Lemma iget_slot_refs V b good inum l r r0 :
  refs l = r -> held_refs r r0 -> refs_ok r0 -> coherent V b good l ->
  exists ip l', iget_slot ROOTDEV inum l = Some (ip, l') /\ refs l' = ref_add ip r /\ coherent V b good l' /\
    refers l' ip ROOTDEV inum /\ length l = 50%nat /\
    forall k i, l !! k = Some i -> 0 < i_ref i -> exists j, l' !! k = Some j /\ j = set_i_ref (i_ref j) i.
Proof.
  intros Hr Hh Hr0 Hc. destruct (held_refs_room r r0 Hh Hr0) as (R1 & R2 & z & Rz).
  assert (Hl : length l = 50%nat) by (rewrite <- R1, <- Hr; unfold refs; by rewrite length_fmap).
  assert (Hlk : forall k i, l !! k = Some i -> r !! k = Some (i_ref i)) by (intros k i Hk; rewrite <- Hr; unfold refs; by rewrite list_lookup_fmap, Hk).
  assert (Hkeep : forall i, set_i_ref (i_ref i) i = i) by (by intros []).
  unfold iget_slot. destruct (list_find (caches ROOTDEV inum) l) as [[ip i]|] eqn:E.
  - apply list_find_Some in E as (Hi & (H1 & H2 & H3) & _). pose proof (R2 _ _ (Hlk _ _ Hi)) as Hb.
    pose proof (lookup_lt_Some _ _ _ Hi) as Hlt. rewrite i32_id by lia.
    eexists _, _. split; [done|]. split; [by rewrite refs_insert, Hr, (ref_add_insert ip r (i_ref i)) by auto|]. split; [|split; [|split; [done|]]].
    + intros k j. rewrite list_lookup_insert by done. case_decide as Ek; [intros [= <-]|by apply Hc].
      intros _ Hdv Hg Hv. exact (Hc ip i Hi H1 Hdv Hg Hv).
    + eexists. rewrite list_lookup_insert_eq by done. split; [done|]. split; [done|]. split; [done|]. cbn. lia.
    + intros k j Hk Hj. destruct (decide (k = ip)) as [->|Hne].
      * rewrite list_lookup_insert_eq by done. eexists. split; [done|]. rewrite Hi in Hk. injection Hk as <-. done.
      * rewrite list_lookup_insert_ne by congruence. exists j. by rewrite Hkeep.
  - destruct (list_find unref l) as [[ip i]|] eqn:E2.
    2: { apply list_find_None in E2. destruct (lookup_lt_is_Some_2 l z) as [i Hi]; [rewrite Hl, <- R1; by eapply lookup_lt_Some|].
         eapply Forall_lookup in E2; [|exact Hi]. apply Hlk in Hi. rewrite Rz in Hi. injection Hi as Hi. by destruct E2. }
    apply list_find_Some in E2 as (Hi & Hu & _). pose proof (lookup_lt_Some _ _ _ Hi) as Hlt. unfold unref in Hu.
    eexists _, _. split; [done|]. split; [|split; [|split; [|split; [done|]]]].
    + rewrite refs_insert, Hr, (ref_add_insert ip r 0) by (rewrite <- Hu; auto). done.
    + intros k j. rewrite list_lookup_insert by done. case_decide as Ek; [intros [= <-]|by apply Hc]. done.
    + eexists. rewrite list_lookup_insert_eq by done. done.
    + intros k j Hk Hj. destruct (decide (k = ip)) as [->|Hne]; [rewrite Hi in Hk; injection Hk as <-; lia|].
      rewrite list_lookup_insert_ne by congruence. exists j. by rewrite Hkeep.
Qed.

Lemma coherent_drop V b good l ip i : coherent V b good l -> l !! ip = Some i ->
  coherent V b good (<[ip := set_i_ref (i_ref i - 1) i]> l).
Proof.
  intros Hc Hi k j. rewrite list_lookup_insert by (by eapply lookup_lt_Some). case_decide as Ek; [|by apply Hc].
  intros [= <-] Hr Hdv Hg Hv. cbn in Hr. refine (Hc ip i Hi _ Hdv Hg Hv). lia.
Qed.

Lemma coherent_load V b good l ip i : coherent V b good l -> l !! ip = Some i ->
  coherent V b good (<[ip := loaded (disk_inode V b (i_inum i)) i]> l).
Proof.
  intros Hc Hi k j. rewrite list_lookup_insert by (by eapply lookup_lt_Some). case_decide as Ek; [|by apply Hc].
  intros [= <-] _ _ _ _. cbn. by destruct (disk_inode V b (i_inum i)).
Qed.

(** ** The elements of a path *)

Lemma splice_mem d o bs x : x ∈ splice d o bs -> x ∈ d \/ x ∈ bs.
Proof.
  unfold splice. rewrite !elem_of_app. intros [Hx|[Hx|Hx]]; [left|by right|left].
  - eapply elem_of_take in Hx as (k & Hk & _). by eapply list_elem_of_lookup_2.
  - apply list_elem_of_lookup in Hx as [k Hk]. rewrite lookup_drop in Hk. by eapply list_elem_of_lookup_2.
Qed.

Lemma span_elem_rest path s rest x : span_elem path = (s, rest) -> x ∈ rest -> x ∈ path.
Proof.
  revert s; induction path as [|c path IH]; intros s; cbn [span_elem].
  - by intros [= <- <-].
  - destruct (c =? SLASH); [by intros [= <- <-]|].
    destruct (span_elem path) as [s' r']. intros [= <- <-] Hx. apply elem_of_cons. right. by eapply IH.
Qed.

Lemma skipelem_bytes path name name' rest : skipelem path name = Some (name', rest) ->
  (forall x, x ∈ rest -> x ∈ path) /\ (Forall is_byte path -> Forall is_byte name -> Forall is_byte name').
Proof.
  unfold skipelem. pose proof (skip_mem path) as Hm. destruct (skip_slashes path) as [|c p]; [done|].
  destruct (span_elem (c :: p)) as [e r] eqn:Es. intros [= <- <-]. split.
  - intros x Hx. apply Hm. eapply span_elem_rest; [exact Es|]. by apply skip_mem.
  - rewrite !Forall_forall. intros Hp Hn x Hx. assert (He : forall y, y ∈ e -> is_byte y)
      by (intros y Hy; apply Hp, Hm; by eapply span_elem_mem).
    destruct (DIRSIZ <=? Z.of_nat (length e)); apply splice_mem in Hx as [Hx|Hx]; auto.
    + apply He. eapply elem_of_take in Hx as (k & Hk & _). by eapply list_elem_of_lookup_2.
    + apply elem_of_app in Hx as [Hx|Hx]; [auto|]. apply list_elem_of_singleton in Hx as ->. done.
Qed.

(** A path that does not start with a slash has no elements only if it is empty. *)
Lemma elements_nil path : head path <> Some SLASH -> elements path = [] <-> path = [].
Proof.
  intros Hh. split; [|by intros ->]. destruct path as [|c path]; [done|].
  destruct (span_elem (c :: path)) as [e r] eqn:Es. pose proof (elements_span [] (c :: path) e r Es) as He.
  cbn [span_elem] in Es. destruct (Z.eqb_spec c SLASH) as [->|Hc]; [done|].
  destruct (span_elem path) as [e' r']. injection Es as <- <-. destruct He as [He _]; [done|]. unfold elements. by rewrite He.
Qed.

(** The name array of an element finds what the element finds. *)
Lemma dname_elem name e : length name = Z.to_nat DIRSIZ -> c_name name = take (Z.to_nat DIRSIZ) e -> 0 ∉ e -> dname name = dname e.
Proof.
  intros Hl Hn He. unfold dname. rewrite (take_ge name) by lia. rewrite Hn.
  rewrite <- (app_nil_r (take (Z.to_nat DIRSIZ) e)) at 2. rewrite c_name_clean; [cbn; by rewrite app_nil_r|].
  intros Hin. apply He. eapply elem_of_take in Hin as (k & Hk & _). by eapply list_elem_of_lookup_2.
Qed.

Lemma find_name_dname n1 n2 es : dname n1 = dname n2 -> find_name n1 es = find_name n2 es.
Proof.
  intros E. unfold find_name. induction es as [|de es IH]; [done|]. cbn [list_find]. rewrite IH.
  assert (Hi : has_name n1 de <-> has_name n2 de) by (unfold has_name; by rewrite E).
  destruct (decide (has_name n1 de)), (decide (has_name n2 de)); tauto.
Qed.

Lemma elements_mem path e x : e ∈ elements path -> x ∈ e -> x ∈ path.
Proof.
  assert (Hg : forall cur, e ∈ elements_from cur path -> x ∈ e -> x ∈ cur \/ x ∈ path).
  { induction path as [|c path IH]; intros cur; cbn [elements_from].
    - case_decide; rewrite ?elem_of_nil, ?list_elem_of_singleton; [done|]. intros ->. by left.
    - destruct (c =? SLASH).
      + rewrite elem_of_app. intros [He|He] Hx.
        * case_decide; rewrite ?elem_of_nil, ?list_elem_of_singleton in He; [done|]. subst. by left.
        * destruct (IH [] He Hx) as [Hn|Hp]; [by apply elem_of_nil in Hn|]. right. apply elem_of_cons. by right.
      + intros He Hx. destruct (IH _ He Hx) as [Hc|Hp].
        * apply elem_of_app in Hc as [Hc|Hc]; [by left|]. apply list_elem_of_singleton in Hc as ->. right. by left.
        * right. apply elem_of_cons. by right. }
  intros He Hx. destruct (Hg [] He Hx) as [Hn|Hp]; [by apply elem_of_nil in Hn|done].
Qed.

(** ** The walk through the cache *)

Section Namei.
Context `{HW : World kstate} `{HB : BlockDev}.
Context (V : Z -> list Z) (b : superblock) (good : Z -> Prop) (B : list Z) (r0 : list Z).
Hypothesis Htree : tree V b good.
Hypothesis Hr0 : refs_ok r0.
Hypothesis HlenB : (length B < HEAD)%nat.

(** The lock of inode slot [k]: held by this process if [lk] is [k], free otherwise. *)
Definition slot_lock (lk : option nat) (s : kstate) (k : nat) : Prop :=
  exists nm pd, slocks s !! SL_inode k = Some (if decide (lk = Some k) then mk_sleeplock 1 nm (cur_pid s) else mk_sleeplock 0 nm pd).

(** The state of the lookup: the disk is [V], the counts are [r], and the inode
    lock held is [lk]. *)
Record looking (lk : option nat) (r : list Z) (s : kstate) : Prop := {
  lo_op : in_op s [] B;
  lo_view : forall x, vw s x = V x;
  lo_sb : sb s = b;
  lo_refs : refs (icache s) = r;
  lo_coh : coherent V b good (icache s);
  lo_locks : forall k, (k < 50)%nat -> slot_lock lk s k
}.

Lemma looking_calm lk r s : looking lk r s -> calm s.
Proof. intros L. apply (lo_op _ _ _ L). Qed.

Lemma looking_icache lk r r' s l : looking lk r s -> refs l = r' -> coherent V b good l -> looking lk r' (set_icache l s).
Proof. intros [L1 L2 L3 L4 L5 L6] Hr Hc. split; try done. by apply in_op_icache. Qed.

Lemma looking_read lk r s t : looking lk r s -> reading s B t -> looking lk r t.
Proof.
  intros [L1 L2 L3 L4 L5 L6] (Ho & St & HV). pose proof (op_step_field icache _ _ ltac:(done) St) as Ei.
  split; rewrite ?Ei; try done.
  - intros x. by rewrite HV.
  - by rewrite (op_step_sb _ _ St).
  - intros k Hk. destruct (L6 k Hk) as (nm & pd & E). exists nm, pd. rewrite (proj2 St), E.
    by rewrite (op_step_field cur_pid _ _ ltac:(done) St).
Qed.

(** The slot [ip] refers to inode [inum] of the tree. *)
Lemma wp_ilock_node s r ip inum (Q : unit -> kstate -> Prop) :
  looking None r s -> length r = 50%nat -> refers (icache s) ip ROOTDEV inum -> good inum ->
  (forall t j, looking (Some ip) r t -> icache t !! ip = Some (loaded (disk_inode V b inum) j) ->
     i_dev j = ROOTDEV -> i_inum j = inum -> Q tt t) ->
  wp (ilock (Some ip)) Q s.
Proof.
  intros L Hlen (j & Hj & Hdv & Hn & Href) Hg HQ. pose proof L as [L1 L2 L3 L4 L5 L6].
  assert (Hip : (ip < 50)%nat) by (rewrite <- Hlen, <- L4; unfold refs; rewrite length_fmap; by eapply lookup_lt_Some).
  destruct (L6 ip Hip) as (nm & pd & Hl). rewrite decide_False in Hl by done.
  assert (Hdi : get_dinode (vw s (IBLOCK (i_inum j) (sb s))) (i_inum j mod IPB) = disk_inode V b inum)
    by (by rewrite L2, L3, Hn).
  pose proof (lookup_lt_Some _ _ _ Hj) as Hlt.
  assert (Hend : forall t, in_op t [] B -> icache t = <[ip := loaded (disk_inode V b inum) j]> (icache s) ->
     (forall x, vw t x = vw s x) -> sb t = sb s -> cur_pid t = cur_pid s ->
     (forall k, slocks t !! SL_inode k = if decide (k = ip) then Some (mk_sleeplock 1 nm (cur_pid s)) else slocks s !! SL_inode k) ->
     Q tt t).
  { intros t Ho Ei HV Hsb Hpid Hsl. apply (HQ t j); [|by rewrite Ei, list_lookup_insert_eq|done|done]. split; [done|..].
    - intros x. by rewrite HV.
    - by rewrite Hsb.
    - rewrite Ei, refs_insert, <- L4. apply list_insert_id. unfold refs. by rewrite list_lookup_fmap, Hj.
    - rewrite Ei, <- Hn. by apply coherent_load.
    - intros k Hk. unfold slot_lock. rewrite Hsl, Hpid. case_decide as E.
      + subst. exists nm, 0. by rewrite decide_True.
      + destruct (L6 k Hk) as (nm' & pd' & E'). rewrite decide_False in E' by done. exists nm', pd'.
        rewrite decide_False by congruence. done. }
  destruct (i_valid j) eqn:Hv.
  - unfold ilock. wstep. eapply wp_get_inode; [exact Hj|]. rewrite (proj2 (Z.ltb_ge _ 1)) by lia. wstep.
    eapply sl_inode_ok; [apply L1|done|exact Hl|]. wstep. eapply wp_get_inode; [exact Hj|]. rewrite Hv. cbn [negb when].
    apply wp_ret. apply Hend; [by apply in_op_inode_lock| |done|done|done|].
    + fields. symmetry. apply list_insert_id. rewrite Hj. f_equal.
      pose proof (L5 ip j Hj ltac:(lia) Hdv ltac:(by rewrite Hn) Hv) as Hd. rewrite Hn in Hd. rewrite <- Hd.
      destruct j. simpl in Hv. by subst.
    + intros k. fields. case_decide; [subst; apply lookup_insert_eq|apply lookup_insert_ne; congruence].
  - eapply (wp_ilock_load s [] B ip j nm pd); [done|done|done|done|done|lia|done|set_solver|simpl; lia| |].
    + rewrite Hdi. by apply (tr_type _ _ _ Htree).
    + rewrite Hdi. exact Hend.
Qed.

Lemma wp_iunlock_node s r ip i (Q : unit -> kstate -> Prop) :
  looking (Some ip) r s -> (ip < 50)%nat -> icache s !! ip = Some i -> 1 <= i_ref i ->
  (forall t, looking None r t -> icache t = icache s -> Q tt t) -> wp (iunlock (Some ip)) Q s.
Proof.
  intros L Hip Hi Href HQ. pose proof L as [L1 L2 L3 L4 L5 L6]. destruct (L6 ip Hip) as (nm & pd & Hl).
  rewrite decide_True in Hl by done. unfold iunlock. wstep.
  eapply wp_holdingsleep; [apply L1|by apply slid_inode_in_locks|exact Hl|]. cbn [sl_locked sl_pid].
  rewrite Z.eqb_refl. cbn [negb andb Z.eqb]. wstep. eapply wp_get_inode; [exact Hi|].
  rewrite (proj2 (Z.ltb_ge _ 1)) by lia. eapply wp_releasesleep; [apply L1|by apply slid_inode_in_locks|exact Hl|].
  apply HQ; [|done]. split; try done; [by apply in_op_inode_lock|].
  intros k Hk. unfold slot_lock. fields. cbn [sl_name]. destruct (decide (k = ip)) as [->|Hne].
  - exists nm, 0. by rewrite lookup_insert_eq.
  - destruct (L6 k Hk) as (nm' & pd' & E'). rewrite decide_False in E' by congruence. exists nm', pd'.
    rewrite lookup_insert_ne by congruence. done.
Qed.

(** The slots keep their inodes; only counts have changed. *)
Definition keeps (l l' : list inode) : Prop :=
  forall k j, l !! k = Some j -> exists j', l' !! k = Some j' /\ j' = set_i_ref (i_ref j') j.

Lemma keeps_refers l l' ip inum r : keeps l l' -> refers l ip ROOTDEV inum -> refs l' = ref_add ip r ->
  (forall k x, r !! k = Some x -> 0 <= x < 2 ^ 31 - 1) -> refers l' ip ROOTDEV inum.
Proof.
  intros Hk (j & Hj & Hd & Hn & _) Hr Hb. destruct (Hk ip j Hj) as (j' & Hj' & E). exists j'. split; [done|].
  pose proof (ref_pos ip l' r j' Hr Hb Hj'). rewrite E. done.
Qed.

(** Dropping a reference to an inode with links. *)
Lemma wp_iput_node s r ip i (Q : unit -> kstate -> Prop) :
  looking None (ref_add ip r) s -> (forall k x, r !! k = Some x -> 0 <= x < 2 ^ 31 - 1) ->
  icache s !! ip = Some i -> i_nlink i <> 0 \/ i_valid i = false ->
  (forall t, looking None r t -> keeps (icache s) (icache t) -> Q tt t) -> wp (iput ip) Q s.
Proof.
  intros L Hb Hi Hnl HQ. destruct (ref_drop ip (icache s) r i) as [E1 E2]; [apply L|done|done|].
  eapply wp_iput; [by eapply looking_calm|exact Hi|tauto|]. rewrite E1. apply HQ.
  - eapply looking_icache; [exact L|done|]. apply coherent_drop; [apply L|done].
  - intros k j Hj. fields. destruct (decide (k = ip)) as [->|Hne].
    + rewrite list_lookup_insert_eq by (by eapply lookup_lt_Some). eexists. split; [done|]. rewrite Hi in Hj. by injection Hj as <-.
    + rewrite list_lookup_insert_ne by congruence. exists j. split; [done|]. by destruct j.
Qed.

Lemma wp_iunlockput_node s r ip i (Q : unit -> kstate -> Prop) :
  looking (Some ip) (ref_add ip r) s -> (forall k x, r !! k = Some x -> 0 <= x < 2 ^ 31 - 1) -> (ip < 50)%nat ->
  icache s !! ip = Some i -> i_nlink i <> 0 ->
  (forall t, looking None r t -> keeps (icache s) (icache t) -> Q tt t) -> wp (iunlockput ip) Q s.
Proof.
  intros L Hb Hip Hi Hnl HQ. unfold iunlockput. wstep. eapply wp_iunlock_node; [exact L|done|exact Hi| |].
  - by eapply ref_pos; [apply L|..].
  - intros t Lt Ei. eapply wp_iput_node; [exact Lt|done|by rewrite Ei|by left|]. rewrite Ei. exact HQ.
Qed.

(** [r0] with at most one more reference stays in range. *)
Lemma held_bound r : held_refs r r0 -> forall k x, r !! k = Some x -> 0 <= x < 2 ^ 31 - 1.
Proof. intros Hh k x Hx. destruct (held_refs_room r r0 Hh Hr0) as (_ & Hb & _). specialize (Hb k x Hx). lia. Qed.

Lemma held_len r : held_refs r r0 -> length r = 50%nat.
Proof. intros Hh. by destruct (held_refs_room r r0 Hh Hr0). Qed.

Lemma held_one ip : held_refs (ref_add ip r0) r0.
Proof. right. by exists ip. Qed.
Hint Resolve held_one : core.

(** [dirlookup] in the locked directory: the cache has one more reference to the
    inode found. *)
Lemma dir_ok_slot i inum : good inum -> di_type (disk_inode V b inum) = T_DIR -> i_dev i = ROOTDEV ->
  let j := loaded (disk_inode V b inum) i in
  dir_ok V j (dir_size j) /\ entries V j (dir_size j) = entries V (node V b inum) (dir_size (node V b inum)).
Proof.
  intros Hg Ht Hd j. destruct (tr_dir _ _ _ Htree inum Hg Ht) as [D1 D2 D3 D4 D5 D6 D7]. split; [|done].
  split; try done. intros bn H1 H2. destruct (D6 bn H1 H2) as [C1 C2 C3 C4 C5 C6]. by split.
Qed.

Lemma wp_dirlookup_node s ip i inum name (Q : option (nat * Z) -> kstate -> Prop) :
  looking (Some ip) (ref_add ip r0) s -> good inum -> di_type (disk_inode V b inum) = T_DIR ->
  icache s !! ip = Some (loaded (disk_inode V b inum) i) -> i_dev i = ROOTDEV -> name_ok name ->
  match find_name name (entries V (node V b inum) (dir_size (node V b inum))) with
  | None => forall t, looking (Some ip) (ref_add ip r0) t -> keeps (icache s) (icache t) -> Q None t
  | Some (_, de) => forall t next off, looking (Some ip) (ref_add ip (ref_add next r0)) t ->
      (exists j, icache t !! ip = Some j /\ j = set_i_ref (i_ref j) (loaded (disk_inode V b inum) i)) ->
      refers (icache t) next ROOTDEV (d_inum de) -> good (d_inum de) -> Q (Some (next, off)) t
  end -> wp (dirlookup ip name) Q s.
Proof.
  intros L Hg Ht Hi Hd Hn HQ. destruct (dir_ok_slot i inum Hg Ht Hd) as [D E]. rewrite <- E in HQ.
  assert (D' : dir_ok (vw s) (loaded (disk_inode V b inum) i) (dir_size (loaded (disk_inode V b inum) i)))
    by (eapply dir_ok_ext; [apply L|done]).
  pose proof (entries_ext V (vw s) (loaded (disk_inode V b inum) i) (dir_size (loaded (disk_inode V b inum) i)) (lo_view _ _ _ L)) as Ee.
  destruct (find_name name (entries V (loaded (disk_inode V b inum) i) (dir_size (loaded (disk_inode V b inum) i)))) as [[k de]|] eqn:Ef.
  - destruct (iget_slot_refs V b good (d_inum de) (icache s) (ref_add ip r0) r0) as (next & l & Hget & Hr & Hc & Href & Hl & Hk);
      [apply L|done|done|apply L|].
    eapply (wp_dirlookup_some s B ip _ _ (lo_op _ _ _ L) Hi D' HlenB name k de next l); [done|done|by rewrite Ee|done|].
    intros t Rt. pose proof (looking_read _ _ _ _ L Rt) as Lt. apply list_find_Some in Ef as (Hk' & [Hu _] & _).
    apply HQ.
    + eapply looking_icache; [exact Lt|by rewrite ref_add_comm|done].
    + fields. apply Hk; [exact Hi|].
      pose proof (ref_pos ip _ r0 _ (lo_refs _ _ _ L) (held_bound r0 ltac:(by left)) Hi). lia.
    + exact Href.
    + eapply (tr_entry _ _ _ Htree inum); [done|done| |done]. rewrite <- E. by eapply list_elem_of_lookup_2.
  - apply (wp_dirlookup_none s B ip _ _ (lo_op _ _ _ L) Hi D' HlenB name); [done|by rewrite Ee|].
    intros t Rt. apply HQ; [by eapply looking_read|]. destruct Rt as (_ & St & _).
    rewrite (op_step_field icache _ _ ltac:(done) St). intros k j Hj. exists j. split; [done|]. by destruct j.
Qed.

(** *** The loop of [namex] *)

Section Loop.
Context (parent : bool) (path0 : list Z) (target : option Z).

(** At the head of the loop: [ip] refers to the inode the rest of the path is
    resolved from, and is the only reference taken. *)
Record at_head (path name : list Z) (ip : nat) (s : kstate) : Prop := {
  ah_look : looking None (ref_add ip r0) s;
  ah_inode : exists inum, refers (icache s) ip ROOTDEV inum /\ good inum /\ walk V b parent (elements path) inum = target;
  ah_path : (0 ∉ path) /\ Forall is_byte path;
  ah_name : length name = Z.to_nat DIRSIZ /\ Forall is_byte name;
  ah_last : parent = true -> last (elements path) = last (elements path0)
}.

(** The result: the inode the walk leads to with one more reference, or nothing
    and no reference. *)
Definition resolved (r : option nat * list Z) (s : kstate) : Prop :=
  match target with
  | Some inum => exists ip, fst r = Some ip /\ looking None (ref_add ip r0) s /\ refers (icache s) ip ROOTDEV inum /\
      (parent = true -> dname <$> last (elements path0) = Some (dname (snd r)))
  | None => fst r = None /\ looking None r0 s
  end.

(** The body of the loop, and what follows it. *)
(* @kernel/fs.c:626-658 namex *)
Definition namex_step (st : list Z * list Z * nat) : K ((list Z * list Z * nat) + (option nat * list Z)) :=
  let '(path, name, ip) := st in
  match skipelem path name with
  | None =>
    if parent then iput ip ;;; ret (inr (None, name))
    else ret (inr (Some ip, name))
  | Some (name, path) =>
    ilock (Some ip) ;;;
    let* type := get_inode ip i_type in
    if negb (type =? T_DIR) then
      iunlockput ip ;;;
      ret (inr (None, name))
    else if parent && bool_decide (path = []) then
      iunlock (Some ip) ;;;
      ret (inr (Some ip, name))
    else
      let* r := dirlookup ip name in
      match r with
      | None =>
        iunlockput ip ;;;
        ret (inr (None, name))
      | Some (next, _) =>
        iunlockput ip ;;;
        ret (inl (path, name, next))
      end
  end.

Lemma wp_namex_step path name ip s : at_head path name ip s ->
  wp (namex_step (path, name, ip)) (fun x t =>
    match x with
    | inl (path', name', ip') => at_head path' name' ip' t /\ (length path' < length path)%nat
    | inr r => resolved r t
    end) s.
Proof.
  intros [L (inum & Href & Hg & Hw) [Hp0 Hpb] [Hnl Hnb] Hlast]. unfold namex_step.
  pose proof (skipelem_spec path name Hp0 Hnl) as Hsk. destruct (skipelem path name) as [[name' rest]|] eqn:Es.
  2: { rewrite Hsk in Hw. cbn [walk] in Hw. destruct parent eqn:Ep.
       - destruct Href as (i & Hi & Hd & Hn & Hr). wstep.
         eapply wp_iput_node; [exact L|apply held_bound; by left|exact Hi| |].
         + destruct (i_valid i) eqn:Hv; [left|by right].
           pose proof (lo_coh _ _ _ L ip i Hi ltac:(lia) Hd ltac:(by rewrite Hn) Hv) as Hc.
           change (i_nlink i) with (di_nlink (dinode_of i)). rewrite Hc, Hn. by apply (tr_nlink _ _ _ Htree).
         + intros t Lt _. wsteps. unfold resolved. rewrite <- Hw. by split.
       - wsteps. unfold resolved. rewrite <- Hw. exists ip. split; [done|]. split; [done|].
         split; [done|]. intros. congruence. }
  destruct Hsk as (e & Eel & Hene & Hnl' & Hcn & Hhd & Hlt). destruct (skipelem_bytes _ _ _ _ Es) as [Hsub Hby].
  rewrite Eel in Hw. cbn [walk] in Hw.
  assert (Hed : dname name' = dname e).
  { apply dname_elem; [done|done|]. intros H0. apply Hp0. eapply elements_mem; [|exact H0]. rewrite Eel. by left. }
  wstep. eapply wp_ilock_node; [exact L|by apply held_len|exact Href|done|]. intros t1 i L1 Hi1 Hd1 Hn1.
  wstep. eapply wp_get_inode; [exact Hi1|]. cbn [i_type loaded].
  assert (Hip : (ip < 50)%nat) by (rewrite <- (held_len _ (held_one ip)), <- (lo_refs _ _ _ L1); unfold refs; rewrite length_fmap; by eapply lookup_lt_Some).
  pose proof (held_bound r0 ltac:(by left)) as Hb0. pose proof (tr_nlink _ _ _ Htree inum Hg) as Hnlk.
  destruct (Z.eqb_spec (di_type (disk_inode V b inum)) T_DIR) as [Ht|Ht]; cbn [negb] in Hw |- *.
  2: { wstep. eapply wp_iunlockput_node; [exact L1|done|done|exact Hi1|done|]. intros t Lt _. wsteps.
       unfold resolved. rewrite <- Hw. by split. }
  rewrite (bool_decide_ext (elements rest = []) (rest = [])) in Hw by (by apply elements_nil).
  destruct (parent && bool_decide (rest = [])) eqn:Epar.
  - apply andb_true_iff in Epar as [Hpar Hrest]. apply bool_decide_eq_true in Hrest as ->.
    wstep. eapply wp_iunlock_node; [exact L1|done|exact Hi1|by eapply ref_pos; [apply L1|..]|].
    intros t Lt Ei. wsteps. unfold resolved. rewrite <- Hw. exists ip. split; [done|]. split; [done|]. split.
    + rewrite Ei. eexists. split; [exact Hi1|]. split; [done|]. split; [done|]. by eapply ref_pos; [apply L1|..].
    + intros _. rewrite <- Hlast, Eel by done. cbn. by rewrite Hed.
  - wstep. apply (wp_dirlookup_node t1 ip i inum name'); [done|done|done|done|done|split; [auto|rewrite Hnl'; change (Z.to_nat DIRSIZ) with 14%nat; lia]|].
    rewrite (find_name_dname name' e) by done. destruct (find_name e _) as [[k de]|].
    + intros t next off Lt (j & Hj & Ej) Hnext Hgn. cbn beta iota. wstep.
      eapply wp_iunlockput_node; [exact Lt|apply held_bound, held_one|done|exact Hj|by rewrite Ej|].
      intros t2 L2 Hk. wsteps. split; [|done]. split; [done|..].
      * exists (d_inum de). split; [|done]. eapply keeps_refers; [exact Hk|done|apply L2|done].
      * split; [naive_solver|]. rewrite Forall_forall in *. auto.
      * auto.
      * intros Hpar. rewrite <- Hlast, Eel by done. rewrite Hpar in Epar. cbn [andb] in Epar. apply bool_decide_eq_false in Epar.
        destruct (elements rest) eqn:Er; [by apply elements_nil in Er|done].
    + intros t Lt Hk. cbn beta iota. destruct (Hk ip _ Hi1) as (j & Hj & Ej). wstep.
      eapply wp_iunlockput_node; [exact Lt|done|done|exact Hj|by rewrite Ej|].
      intros t2 L2 _. wsteps. unfold resolved. rewrite <- Hw. by split.
Qed.
End Loop.

Lemma namex_iter parent path name :
  namex path parent name =
  (let* ip :=
    (match path with
     | c :: _ => if c =? SLASH then iget ROOTDEV ROOTINO
                 else let* p := myproc in let* p := deref p in
                      let* d := get_proc p cwd in let* d := deref d in idup d
     | [] => let* p := myproc in let* p := deref p in
             let* d := get_proc p cwd in let* d := deref d in idup d
     end) in
   iter (S (length path)) (namex_step parent) (path, name, ip)).
Proof. reflexivity. Qed.

(** Where the lookup of a path starts: the root, or the current directory. *)
Definition starts (s : kstate) (path : list Z) (inum : Z) : Prop :=
  if decide (head path = Some SLASH) then inum = ROOTINO
  else exists P d, cur_proc s = Some P /\ cwd P = Some d /\ refers (icache s) d ROOTDEV inum /\ good inum.

Lemma wp_idup_cwd s inum (Q : nat -> kstate -> Prop) P d :
  looking None r0 s -> cur_proc s = Some P -> cwd P = Some d -> refers (icache s) d ROOTDEV inum ->
  (forall t, looking None (ref_add d r0) t -> refers (icache t) d ROOTDEV inum -> Q d t) ->
  wp (let* p := myproc in let* p := deref p in let* d := get_proc p cwd in let* d := deref d in idup d) Q s.
Proof.
  intros L HP Hd (i & Hi & Hdv & Hn & Hr) HQ. pose proof (looking_calm _ _ _ L) as Hs.
  destruct (cur_proc_inv s Hs) as (c & p & P' & Hc & Hp & HP' & _).
  assert (P' = P) as -> by (unfold cur_proc in HP; rewrite Hc in HP; cbn in HP; rewrite Hp in HP; cbn in HP; congruence).
  wstep. eapply wp_myproc; [apply Hs|exact Hc|]. rewrite Hp. wsteps. eapply wp_get_proc; [exact HP'|].
  assert (Hx : r0 !! d = Some (i_ref i)) by (rewrite <- (lo_refs _ _ _ L); unfold refs; by rewrite list_lookup_fmap, Hi).
  pose proof (held_bound r0 ltac:(by left) d _ Hx) as Hb.
  rewrite Hd. wsteps. eapply wp_idup; [apply Hs|by apply icache_lock|exact Hi|lia|]. apply HQ.
  - eapply looking_icache; [exact L| |].
    + by rewrite refs_insert, (lo_refs _ _ _ L), (ref_add_insert d r0 (i_ref i)).
    + intros k j. rewrite list_lookup_insert by (by eapply lookup_lt_Some). case_decide as Ek; [|by apply L].
      intros [= <-] _ Hdv' Hg Hv. refine (lo_coh _ _ _ L d i Hi _ Hdv' Hg Hv). lia.
  - fields. eexists. rewrite list_lookup_insert_eq by (by eapply lookup_lt_Some). split; [done|]. split; [done|]. split; [done|]. cbn. lia.
Qed.

Lemma wp_namex parent path name inum s (Q : option nat * list Z -> kstate -> Prop) :
  looking None r0 s -> 0 ∉ path -> Forall is_byte path -> length name = Z.to_nat DIRSIZ -> Forall is_byte name ->
  starts s path inum ->
  (forall r t, resolved parent path (walk V b parent (elements path) inum) r t -> Q r t) ->
  wp (namex path parent name) Q s.
Proof.
  intros L Hp Hpb Hn Hnb Hst HQ. rewrite namex_iter.
  assert (Hloop : forall ip t, looking None (ref_add ip r0) t -> refers (icache t) ip ROOTDEV inum -> good inum ->
    wp (iter (S (length path)) (namex_step parent) (path, name, ip)) Q t).
  { intros ip t Lt Hr Hg.
    apply (wp_iter _ (fun '(p, n, ip) => at_head parent path (walk V b parent (elements path) inum) p n ip)
      _ (fun '(p, _, _) _ => length p)); [|lia|].
    - split; [done|exists inum; by split_and!|done|done|done].
    - intros [[p n] ip'] t' Ha. eapply wp_mono; [by apply wp_namex_step|]. intros [[[p' n'] ip'']|r] t'' Hx; [done|by apply HQ]. }
  wstep. unfold starts in Hst. destruct (decide (head path = Some SLASH)) as [Hh|Hh].
  - destruct path as [|c rest]; [done|]. cbn in Hh. injection Hh as ->. cbn [Z.eqb SLASH Pos.eqb]. subst inum.
    destruct (iget_slot_refs V b good ROOTINO (icache s) r0 r0) as (ip & l & Hget & Hr & Hc & Href & Hl & _);
      [apply L|by left|done|apply L|].
    eapply wp_iget; [by eapply looking_calm|done|done|]. apply Hloop; [by eapply looking_icache|done|apply Htree].
  - destruct Hst as (P & d & HP & Hd & Hr & Hg).
    assert (Hcwd : wp (let* p := myproc in let* p := deref p in let* d := get_proc p cwd in let* d := deref d in idup d)
      (fun ip t => wp (iter (S (length path)) (namex_step parent) (path, name, ip)) Q t) s).
    { eapply wp_idup_cwd; [done|done|done|done|]. intros t Lt Hrt. by apply Hloop. }
    destruct path as [|c rest]; [done|]. destruct (Z.eqb_spec c SLASH) as [->|]; [done|exact Hcwd].
Qed.
End Namei.

(** C4: path lookup resolves a path along the directories on disk.  [namex] returns
    for every path, from the root or the current directory: if the walk through the
    directory entries leads to an inode, the slot returned refers to that inode and
    holds exactly one new reference, and [nameiparent] leaves the last element in
    [name]; if an element is missing or is looked up in something that is not a
    directory, the result is 0 and every reference taken on the way has been dropped.
    No block of the disk changes. *)
Theorem namex_resolves `{HW : World kstate} `{HB : BlockDev} (s : kstate) (B : list Z) (good : Z -> Prop)
    (parent : bool) (path name : list Z) (inum : Z) :
  in_op s [] B -> tree (vw s) (sb s) good -> coherent (vw s) (sb s) good (icache s) -> refs_ok (refs (icache s)) ->
  (forall k, (k < 50)%nat -> exists nm pd, slocks s !! SL_inode k = Some (mk_sleeplock 0 nm pd)) ->
  0 ∉ path -> Forall is_byte path -> length name = Z.to_nat DIRSIZ -> Forall is_byte name -> starts good s path inum ->
  exists r t, namex path parent name s = Ok r t /\ (forall x, vw t x = vw s x) /\
    match walk (vw s) (sb s) parent (elements path) inum with
    | Some n => exists ip, fst r = Some ip /\ refers (icache t) ip ROOTDEV n /\
        refs (icache t) = ref_add ip (refs (icache s)) /\
        (parent = true -> dname <$> last (elements path) = Some (dname (snd r)))
    | None => fst r = None /\ refs (icache t) = refs (icache s)
    end.
Proof.
  intros Ho Htr Hc Hr Hl Hp Hpb Hn Hnb Hst. pose proof (proj2 (tx_fit _ _ (op_tx _ _ _ Ho))) as HlB.
  destruct (wp_run (namex path parent name)
    (resolved (vw s) (sb s) good B (refs (icache s)) parent path (walk (vw s) (sb s) parent (elements path) inum)) s) as (r & t & Hrun & Hres).
  { eapply (wp_namex (vw s) (sb s) good B (refs (icache s))); eauto. by split. }
  exists r, t. split; [done|]. unfold resolved in Hres. destruct (walk _ _ _ _ _) as [n|].
  - destruct Hres as (ip & H1 & [L1 L2 L3 L4 L5 L6] & H3 & H4). split; [done|]. exists ip. by split_and!.
  - destruct Hres as (H1 & [L1 L2 L3 L4 L5 L6]). by split_and!.
Qed.

(** ** A tree of two inodes

    The root directory (inode 1, in block 20) with the entries "." and "a", a file
    (inode 2). *)
Definition ex_root : dinode := mk_dinode T_DIR 0 0 1 32 (20 :: replicate 12 0).
Definition ex_leaf : dinode := mk_dinode T_FILE 0 0 1 0 (replicate 13 0).
Definition ex_tree_disk : gmap Z (list Z) :=
  {[ 12 := put_dinode (put_dinode zero_block 1 ex_root) 2 ex_leaf;
     20 := dirent_bytes (mk_dirent 1 (46 :: replicate 13 0)) ++ dirent_bytes (mk_dirent 2 (97 :: replicate 13 0)) ++ replicate 992 0 ]}.
Definition ex_tree : kstate := set_sb ex_sb (ex_fs ex_tree_disk ex_oplog).
Definition ex_good (n : Z) : Prop := n = 1 \/ n = 2.

Lemma ex_tree_op : in_op ex_tree [] [].
Proof.
  split.
  - apply cache_set_sb, ex_fs_cache.
  - exact ex_op_tx.
  - reflexivity.
  - change (1 <= 1). lia.
  - intros x. change (pins (ex_fs ex_tree_disk ex_oplog) x = one (x ∈ []) + one (x ∈ [])).
    rewrite ex_pins_out by apply not_elem_of_nil. by rewrite !one_false by apply not_elem_of_nil.
  - constructor.
Qed.

Lemma ex_tree_view x : vw ex_tree x = disk_block ex_tree_disk x.
Proof. change (vw (ex_fs ex_tree_disk ex_oplog) x = disk_block ex_tree_disk x). apply ex_view_out. apply not_elem_of_nil. Qed.

Lemma tree_ext V V' b good : (forall x, V' x = V x) -> tree V b good -> tree V' b good.
Proof.
  intros HV [T1 T2 T3 T4 T5]. assert (Ed : forall n, disk_inode V' b n = disk_inode V b n) by (intros; unfold disk_inode; by rewrite HV).
  assert (En : forall n, node V' b n = node V b n) by (intros; unfold node; by rewrite Ed).
  split; [done|..].
  - intros n. rewrite Ed. auto.
  - intros n. rewrite Ed. auto.
  - intros n. rewrite Ed, En. intros. eapply dir_ok_ext; [exact HV|auto].
  - intros n de. rewrite Ed, En, (entries_ext V V') by done. apply T5.
Qed.

Lemma walk_ext V V' b parent es n : (forall x, V' x = V x) -> walk V' b parent es n = walk V b parent es n.
Proof.
  intros HV. assert (Ed : forall n, disk_inode V' b n = disk_inode V b n) by (intros; unfold disk_inode; by rewrite HV).
  revert n. induction es as [|e es IH]; intros n; cbn [walk]; [done|]. unfold node. rewrite Ed, (entries_ext V V') by done.
  destruct (find_name _ _) as [[k de]|]; [|done]. by rewrite IH.
Qed.

Lemma ex_tree_inodes : disk_inode (disk_block ex_tree_disk) ex_sb 1 = ex_root /\
  disk_inode (disk_block ex_tree_disk) ex_sb 2 = ex_leaf.
Proof. split; vm_compute; reflexivity. Qed.

Lemma ex_tree_entries : entries (disk_block ex_tree_disk) (node (disk_block ex_tree_disk) ex_sb 1) 2 =
  [mk_dirent 1 (46 :: replicate 13 0); mk_dirent 2 (97 :: replicate 13 0)].
Proof. vm_compute. reflexivity. Qed.

Lemma ex_tree_bytes : Forall is_byte (file_bytes (disk_block ex_tree_disk) (node (disk_block ex_tree_disk) ex_sb 1) 0 32).
Proof. vm_compute. repeat (apply Forall_cons_2; [split; [discriminate|reflexivity]|]). apply Forall_nil_2. Qed.

Lemma ex_tree_dir : dir_ok (disk_block ex_tree_disk) (node (disk_block ex_tree_disk) ex_sb 1) 2.
Proof.
  destruct ex_tree_inodes as [E _]. split.
  - reflexivity.
  - unfold node. rewrite E. reflexivity.
  - lia.
  - unfold node. rewrite E. reflexivity.
  - unfold node. rewrite E. reflexivity.
  - unfold node at 1. rewrite E. cbn [i_size loaded ex_root di_size]. intros bn H1 H2.
    assert (bn = 0) as -> by (unfold BSIZE in H2; lia). unfold node. rewrite E. split.
    + split; [lia|reflexivity].
    + reflexivity.
    + discriminate.
    + apply not_elem_of_nil.
    + vm_compute. reflexivity.
    + change NDIRECT with 12. lia.
  - unfold node at 1. rewrite E. cbn [i_size loaded ex_root di_size]. intros q Hq.
    pose proof ex_tree_bytes as Hb. rewrite Forall_lookup in Hb. apply (Hb (Z.to_nat q)).
    unfold file_bytes. rewrite list_lookup_fmap, (proj2 (lookup_seqZ 0 32 (Z.to_nat q) q)) by lia. reflexivity.
Qed.

Lemma ex_tree_ok : tree (vw ex_tree) (sb ex_tree) ex_good.
Proof.
  change (sb ex_tree) with ex_sb. eapply tree_ext; [exact ex_tree_view|]. destruct ex_tree_inodes as [E1 E2].
  assert (Hdir : forall n, ex_good n -> di_type (disk_inode (disk_block ex_tree_disk) ex_sb n) = T_DIR -> n = 1).
  { intros n [->| ->]; [done|]. by rewrite E2. }
  assert (Es : dir_size (node (disk_block ex_tree_disk) ex_sb 1) = 2) by (unfold node; by rewrite E1). split.
  - by left.
  - intros n [->| ->]; rewrite ?E1, ?E2; done.
  - intros n [->| ->]; rewrite ?E1, ?E2; done.
  - intros n Hg Ht. rewrite (Hdir n Hg Ht), Es. exact ex_tree_dir.
  - intros n de Hg Ht. rewrite (Hdir n Hg Ht), Es, ex_tree_entries. rewrite !elem_of_cons, elem_of_nil.
    intros [->|[->|[]]] _; [by left|by right].
Qed.

(** "/./a" *)
Lemma namex_resolves_witness :
  exists r t ip, namex (H := idle_world) (H0 := sync_dev) [47; 46; 47; 97] false (replicate 14 0) ex_tree = Ok r t /\
    fst r = Some ip /\ refers (icache t) ip ROOTDEV 2.
Proof.
  pose proof (namex_resolves (HW := idle_world) (HB := sync_dev) ex_tree [] ex_good false [47; 46; 47; 97] (replicate 14 0) ROOTINO) as Hw.
  rewrite (walk_ext (disk_block ex_tree_disk)) in Hw by exact ex_tree_view.
  replace (walk (disk_block ex_tree_disk) (sb ex_tree) false (elements [47; 46; 47; 97]) ROOTINO) with (Some 2) in Hw
    by (vm_compute; reflexivity).
  destruct Hw as (r & t & Hrun & _ & ip & H1 & H2 & _).
  - exact ex_tree_op.
  - exact ex_tree_ok.
  - intros k i Hk Hr.
    assert (Hz : Forall (fun i => i_ref i = 0) (icache ex_tree)) by (apply (bool_decide_unpack _); vm_compute; exact I).
    rewrite Forall_lookup in Hz. specialize (Hz k i Hk). cbv beta in Hz. lia.
  - split; [reflexivity|apply (bool_decide_unpack _); vm_compute; exact I|]. by exists 0%nat, 1%nat.
  - intros k Hk. exists EmptyString, 0.
    assert (Hz : Forall (fun k => slocks ex_tree !! SL_inode k = Some (mk_sleeplock 0 EmptyString 0)) (seq 0 50))
      by (vm_compute; repeat (apply Forall_cons_2; [reflexivity|]); apply Forall_nil_2).
    rewrite Forall_forall in Hz. apply Hz, elem_of_seq. lia.
  - apply (bool_decide_unpack _). vm_compute. exact I.
  - apply (bool_decide_unpack _). vm_compute. exact I.
  - reflexivity.
  - apply (bool_decide_unpack _). vm_compute. exact I.
  - reflexivity.
  - exists r, t, ip. split; [exact Hrun|]. split; [exact H1|exact H2].
Defined.
