(* ===== verification/Unix.v ===== *)
(** * User programs and the system they run on

    A user program is a tree of system calls ([prog]): the result of a call selects
    the rest of the program, [fork] returns in the parent and in the child.  The
    system is seen the way the programs see it, through the calls of user.h:
    processes with their descriptor tables, pipes with their bytes, files with the
    contents left to read, and a record of what was executed and written.  [step]
    performs one call of one process, so that a sequence of steps is an interleaving
    of the processes.

    Processes and streams have names that do not depend on the interleaving: the
    [i]-th child of [w] is [w ++ [i]], the [j]-th stream opened by [w] is [(w, j)]. *)

From stdpp Require Import gmap list strings.
From Stdlib Require Import ZArith Lia.
From S2P Require Import Prelude Machine Console Ulib.
Open Scope Z_scope.

Abbreviation bytes := (list Z).

(** ** Programs *)

(** What [fstat] fills in, the fields the programs look at. *)
(* @kernel/stat.h:1-11 stat *)
Record ustat := mk_ustat { us_type : Z; us_ino : Z; us_size : Z }.

(* @user/user.h:4-25 fork *)
Inductive call :=
| Sys_fork
| Sys_wait
| Sys_pipe
| Sys_write (fd : Z) (b : bytes)
| Sys_read (fd n : Z)
| Sys_close (fd : Z)
| Sys_kill (pid : Z)
| Sys_exec (path : bytes) (argv : list bytes)
| Sys_open (path : bytes) (mode : Z)
| Sys_mknod (path : bytes) (major minor : Z)
| Sys_unlink (path : bytes)
| Sys_fstat (fd : Z)
| Sys_link (old new : bytes)
| Sys_mkdir (path : bytes)
| Sys_chdir (path : bytes)
| Sys_dup (fd : Z)
| Sys_getpid
| Sys_sleep (n : Z).

(** The result, with what the call stores through its pointers. *)
Definition reply (c : call) : Type :=
  match c with
  | Sys_pipe => Z * (Z * Z)
  | Sys_read _ _ => Z * bytes
  | Sys_fstat _ => Z * ustat
  | _ => Z
  end.

Inductive prog (A : Type) :=
| Ret (a : A)
| Exit (status : Z)
| Sys (c : call) (k : reply c -> prog A)
| Spin.   (* a loop that is not followed any longer *)
Arguments Ret {A} a.
Arguments Exit {A} status.
Arguments Sys {A} c k.
Arguments Spin {A}.

Fixpoint prog_bind {A B} (p : prog A) (f : A -> prog B) : prog B :=
  match p with
  | Ret a => f a
  | Exit st => Exit st
  | Sys c k => Sys c (fun r => prog_bind (k r) f)
  | Spin => Spin
  end.

Declare Scope prog_scope.
Delimit Scope prog_scope with prog.
Notation "'do' x <- m ;; k" := (prog_bind m (fun x => k))
  (at level 100, x name, m at next level, right associativity) : prog_scope.
Notation "'do' ' x <- m ;; k" := (prog_bind m (fun v => match v with x => k end))
  (at level 100, x strict pattern, m at next level, right associativity) : prog_scope.
Notation "m >> k" := (prog_bind m (fun _ => k)) (at level 60, k at level 200, right associativity) : prog_scope.
Open Scope prog_scope.

Definition sys (c : call) : prog (reply c) := Sys c Ret.

(** [for (i = ...) body]: the body may end the loop with a value. *)
Fixpoint each {A B} (l : list A) (body : A -> prog (option B)) : prog (option B) :=
  match l with
  | [] => Ret None
  | x :: l => do r <- body x ;; match r with Some v => Ret (Some v) | None => each l body end
  end.

Fixpoint all {A} (l : list A) (body : A -> prog unit) : prog unit :=
  match l with
  | [] => Ret tt
  | x :: l => body x >> all l body
  end.

(** [while] with a state, followed for [fuel] rounds. *)
Fixpoint loop {X R} (fuel : nat) (body : X -> prog (X + R)) (x : X) : prog R :=
  match fuel with
  | O => Spin
  | S fuel => do r <- body x ;; match r with inl x => loop fuel body x | inr r => Ret r end
  end.

(* @user/printf.c putc *)
Definition putc (fd c : Z) : prog unit := sys (Sys_write fd [u8 c]) >> Ret tt.

(** Arguments that do not fit the format are an access the program must not make. *)
(* @user/printf.c fprintf *)
Definition fprintf (fd : Z) (fmt : string) (ap : list parg) : prog unit :=
  match Uprintf.fprintf fd (str_bytes fmt) ap with
  | Some (fd, out) => all out (putc fd)
  | None => Spin
  end.

(* @user/printf.c printf *)
Definition printf (fmt : string) (ap : list parg) : prog unit :=
  match Uprintf.printf (str_bytes fmt) ap with
  | Some (fd, out) => all out (putc fd)
  | None => Spin
  end.

(** A format that ends with a newline. *)
Definition endl (s : string) : string := (s +:+ String (Ascii.ascii_of_nat 10) EmptyString)%string.

Definition a_str (s : bytes) : parg := AStr (Some s).

(** ** The system *)

Abbreviation name := (list nat).
Abbreviation sid := (name * nat)%type.

(** What a descriptor refers to. *)
Inductive fobj :=
| F_console
| F_file (path : bytes) (mode : Z) (s : sid)
| F_piper (s : sid)
| F_pipew (s : sid).

#[export] Instance fobj_eq_dec : EqDecision fobj.
Proof. solve_decision. Defined.

Abbreviation fdtab := (list (option fobj)).

Record pst := mk_pst {
  prg : prog unit;
  tab : fdtab;
  nfork : nat;   (* children so far *)
  nsid : nat     (* streams opened so far *)
}.

Inductive event :=
| E_exec (w : name) (argv : list bytes) (t : fdtab)
| E_write (w : name) (o : fobj) (b : bytes)
| E_call (w : name) (c : call).

Record conf := mk_conf {
  pool : list (name * pst);
  zombies : list name;
  pipes : gmap sid bytes;
  offs : gmap sid nat;          (* offsets of open files *)
  files : gmap bytes bytes;     (* contents by path *)
  cin : bytes;                  (* typed on the console, then control-D *)
  events : list event           (* newest first *)
}.

#[export] Instance eta_pst : Eta pst := fun p => mk_pst (prg p) (tab p) (nfork p) (nsid p).
#[export] Instance eta_conf : Eta conf := fun s =>
  mk_conf (pool s) (zombies s) (pipes s) (offs s) (files s) (cin s) (events s).
Definition set_prg : prog unit -> pst -> pst := ltac:(make_setter prg).
Definition set_tab : fdtab -> pst -> pst := ltac:(make_setter tab).
Definition set_nfork : nat -> pst -> pst := ltac:(make_setter nfork).
Definition set_nsid : nat -> pst -> pst := ltac:(make_setter nsid).
Definition set_pool : list (name * pst) -> conf -> conf := ltac:(make_setter pool).
Definition set_zombies : list name -> conf -> conf := ltac:(make_setter zombies).
Definition set_pipes : gmap sid bytes -> conf -> conf := ltac:(make_setter pipes).
Definition set_offs : gmap sid nat -> conf -> conf := ltac:(make_setter offs).
Definition set_files : gmap bytes bytes -> conf -> conf := ltac:(make_setter files).
Definition set_cin : bytes -> conf -> conf := ltac:(make_setter cin).
Definition set_events : list event -> conf -> conf := ltac:(make_setter events).
Definition record (e : event) (s : conf) : conf := set_events (e :: events s) s.

(** The programs on the disk, process ids, and the answers to the calls that do not
    concern descriptors and processes. *)
Class System := {
  image : bytes -> list bytes -> option (prog unit);
  pid_of : name -> Z;
  answer : call -> Z;
  stat_of : fobj -> ustat
}.

Definition PIPESIZE : nat := 512.
Definition console_path : bytes := str_bytes "console".

(** *** Descriptors *)

Definition get_fd (t : fdtab) (fd : Z) : option fobj :=
  if (0 <=? fd) && (fd <? Z.of_nat (length t)) then mjoin (t !! Z.to_nat fd) else None.

(** The lowest free descriptor. *)
Fixpoint free_fd (t : fdtab) : option nat :=
  match t with
  | [] => None
  | None :: _ => Some O
  | Some _ :: t => S <$> free_fd t
  end.

Definition fdalloc (o : fobj) (t : fdtab) : option (Z * fdtab) :=
  (fun i => (Z.of_nat i, <[i := Some o]> t)) <$> free_fd t.

Definition holds (o : fobj) (s : conf) : bool :=
  existsb (fun p => bool_decide (Some o ∈ tab p.2)) (pool s).

(** *** Reading and writing *)

(** A line of input, at most [n] bytes of it. *)
Fixpoint console_line (n : nat) (inp : bytes) : bytes :=
  match n, inp with
  | S n, c :: inp => if c =? 10 then [c] else c :: console_line n inp
  | _, _ => []
  end.

Definition readable (mode : Z) : bool := Z.land mode 1 =? 0.
Definition writable (mode : Z) : bool := negb (Z.land mode 3 =? 0).

(** [None]: the call waits. *)
Definition do_read (o : option fobj) (n : nat) (s : conf) : option ((Z * bytes) * conf) :=
  match o with
  | Some F_console =>
    let l := console_line n (cin s) in
    Some ((Z.of_nat (length l), l), set_cin (drop (length l) (cin s)) s)
  | Some (F_file path mode f) =>
    if readable mode then
      let off := default O (offs s !! f) in
      let l := take n (drop off (default [] (files s !! path))) in
      Some ((Z.of_nat (length l), l), set_offs (<[f := (off + length l)%nat]> (offs s)) s)
    else Some ((-1, []), s)
  | Some (F_piper f) =>
    let b := default [] (pipes s !! f) in
    if bool_decide (b = []) && holds (F_pipew f) s then None
    else
      let l := take n b in
      Some ((Z.of_nat (length l), l), set_pipes (<[f := drop n b]> (pipes s)) s)
  | _ => Some ((-1, []), s)
  end.

(** What a write does: it is done, with a result; or some bytes are written and the
    others wait. *)
Inductive written := W_done (r : Z) (s : conf) | W_part (n : nat) (s : conf) | W_wait.

Definition do_write (w : name) (o : option fobj) (b : bytes) (s : conf) : written :=
  match o with
  | Some F_console => W_done (Z.of_nat (length b)) (record (E_write w F_console b) s)
  | Some (F_file path mode f) =>
    if writable mode then
      let off := default O (offs s !! f) in
      let old := default [] (files s !! path) in
      let new := take off old ++ b ++ drop (off + length b) old in
      W_done (Z.of_nat (length b)) (record (E_write w (F_file path mode f) b)
        (set_files (<[path := new]> (files s)) (set_offs (<[f := (off + length b)%nat]> (offs s)) s)))
    else W_done (-1) s
  | Some (F_pipew f) =>
    let old := default [] (pipes s !! f) in
    let room := (PIPESIZE - length old)%nat in
    let put n := record (E_write w (F_pipew f) (take n b)) (set_pipes (<[f := old ++ take n b]> (pipes s)) s) in
    if (length b <=? room)%nat then W_done (Z.of_nat (length b)) (put (length b))
    else if (0 <? room)%nat then W_part room (put room)
    else if holds (F_piper f) s then W_wait
    else W_done (-1) s
  | _ => W_done (-1) s
  end.

Definition open_obj (path : bytes) (mode : Z) (f : sid) : fobj :=
  if bool_decide (path = console_path) then F_console else F_file path mode f.

(** [None]: there is no such file. *)
Definition do_open (path : bytes) (mode : Z) (f : sid) (s : conf) : option conf :=
  if bool_decide (path = console_path) then Some s
  else
    let s' := set_offs (<[f := O]> (offs s)) s in
    match files s !! path with
    | Some _ => Some (if Z.land mode 0x400 =? 0 then s' else set_files (<[path := []]> (files s)) s')
    | None => if Z.land mode 0x200 =? 0 then None else Some (set_files (<[path := []]> (files s)) s')
    end.

(** *** One call of one process *)

Definition is_child (w w' : name) : bool := bool_decide (length w' = S (length w) /\ take (length w) w' = w).

Section Step.
Context `{System}.

(** The process at index [i] makes its call.  With [fails] a call that may fail does:
    [fork], [pipe], [open] and [exec] can run out of something, and there need not be
    such a file or program.  Without [fails] they succeed, or cannot be made.  The
    result -1 for a bad descriptor is not a failure in this sense. *)
Definition step (fails : bool) (i : nat) (s : conf) : option conf :=
  match pool s !! i with
  | None => None
  | Some (w, p) =>
    let resume (q : pst) (s : conf) := Some (set_pool (<[i := (w, q)]> (pool s)) s) in
    match prg p with
    | Ret _ | Exit _ => if fails then None else Some (set_zombies (w :: zombies s) (set_pool (delete i (pool s)) s))
    | Spin => None
    | Sys c k =>
      match c as c return (reply c -> prog unit) -> option conf with
      | Sys_fork => fun k =>
        if fails then resume (set_prg (k (-1)) p) s
        else
          let cw := w ++ [nfork p] in
          Some (set_pool (<[i := (w, set_nfork (S (nfork p)) (set_prg (k (pid_of cw)) p))]> (pool s) ++
                          [(cw, mk_pst (k 0) (tab p) 0 0)]) s)
      | Sys_wait => fun k =>
        if fails then None
        else match List.find (is_child w) (zombies s) with
        | Some z => resume (set_prg (k (pid_of z)) p) (set_zombies (List.remove (decide_rel eq) z (zombies s)) s)
        | None =>
          if existsb (fun q => is_child w q.1) (pool s) then None else resume (set_prg (k (-1)) p) s
        end
      | Sys_pipe => fun k =>
        let f := (w, nsid p) in
        if fails then resume (set_prg (k (-1, (0, 0))) p) s
        else match fdalloc (F_piper f) (tab p) with
        | None => None
        | Some (fd0, t) =>
          match fdalloc (F_pipew f) t with
          | None => None
          | Some (fd1, t) =>
            resume (set_prg (k (0, (fd0, fd1))) (set_tab t (set_nsid (S (nsid p)) p)))
              (set_pipes (<[f := []]> (pipes s)) s)
          end
        end
      | Sys_write fd b => fun k =>
        if fails then None
        else match do_write w (get_fd (tab p) fd) b s with
        | W_done r s => resume (set_prg (k r) p) s
        | W_part n s =>
          resume (set_prg (Sys (Sys_write fd (drop n b)) (fun r => k (if r <? 0 then r else r + Z.of_nat n))) p) s
        | W_wait => None
        end
      | Sys_read fd n => fun k =>
        if fails then None
        else match do_read (get_fd (tab p) fd) (Z.to_nat n) s with
        | Some (r, s) => resume (set_prg (k r) p) s
        | None => None
        end
      | Sys_close fd => fun k =>
        if fails then None
        else match get_fd (tab p) fd with
        | Some _ => resume (set_prg (k 0) (set_tab (<[Z.to_nat fd := None]> (tab p)) p)) s
        | None => resume (set_prg (k (-1)) p) s
        end
      | Sys_dup fd => fun k =>
        if fails then None
        else match (get_fd (tab p) fd ≫= fun o => fdalloc o (tab p)) with
        | Some (fd', t) => resume (set_prg (k fd') (set_tab t p)) s
        | None => resume (set_prg (k (-1)) p) s
        end
      | Sys_open path mode => fun k =>
        if fails then resume (set_prg (k (-1)) p) s
        else match do_open path mode (w, nsid p) s with
        | None => None
        | Some s' =>
          match fdalloc (open_obj path mode (w, nsid p)) (tab p) with
          | None => None
          | Some (fd, t) => resume (set_prg (k fd) (set_tab t (set_nsid (S (nsid p)) p))) s'
          end
        end
      | Sys_exec path argv => fun k =>
        if fails then resume (set_prg (k (-1)) p) s
        else match image path argv with
        | None => None
        | Some q => resume (set_prg q p) (record (E_exec w argv (tab p)) s)
        end
      | Sys_fstat fd => fun k =>
        if fails then None
        else match get_fd (tab p) fd with
        | Some o => resume (set_prg (k (0, stat_of o)) p) s
        | None => resume (set_prg (k (-1, mk_ustat 0 0 0)) p) s
        end
      | Sys_getpid => fun k => if fails then None else resume (set_prg (k (pid_of w)) p) s
      | c => fun k => if fails then None else resume (set_prg (k (answer c)) p) (record (E_call w c) s)
      end k
    end
  end.

(** A schedule: which process makes the next call, and whether it fails. *)
Fixpoint run (sched : list (bool * nat)) (s : conf) : option conf :=
  match sched with
  | [] => Some s
  | (f, i) :: sched => match step f i s with Some s => run sched s | None => None end
  end.

(** The scheduler of the witnesses: round robin, until no process can go on. *)
Fixpoint next_step (n i : nat) (s : conf) : option (nat * conf) :=
  match n with
  | O => None
  | S n =>
    let j := if (i <? length (pool s))%nat then i else O in
    match step false j s, step true j s with
    | Some s, _ | None, Some s => Some (S j, s)
    | None, None => next_step n (S j) s
    end
  end.

Fixpoint round_robin (fuel i : nat) (s : conf) : conf :=
  match fuel with
  | O => s
  | S fuel =>
    match next_step (length (pool s)) i s with
    | Some (j, s) => round_robin fuel j s
    | None => s
    end
  end.

End Step.

Definition start (p : prog unit) (t : fdtab) (files : gmap bytes bytes) (inp : bytes) : conf :=
  mk_conf [([], mk_pst p t 0 0)] [] ∅ ∅ files inp [].

(** Descriptors 0, 1 and 2 on the console. *)
Definition std_tab : fdtab := [Some F_console; Some F_console; Some F_console] ++ replicate 13 None.

(** What went to the console, in order. *)
Definition console_out (s : conf) : bytes :=
  concat (rev (omap (fun e => match e with E_write _ F_console b => Some b | _ => None end) (events s))).

(** The programs executed, in order. *)
Definition execs (s : conf) : list (name * list bytes * fdtab) :=
  rev (omap (fun e => match e with E_exec w argv t => Some (w, argv, t) | _ => None end) (events s)).
