(* ===== verification/Tools.v ===== *)
(** * The small user programs

    cat, echo, wc, ls, find, kill, ln, mkdir, rm, sleep, zombie, init, pingpong, primes,
    xargs and the main function of grep, as programs of [Unix].  [argv] is the list of the
    arguments.  [fuel] bounds the rounds of the loops that read until the end of a
    file; an access outside an array ends in [Spin]. *)

From stdpp Require Import gmap list strings.
From Stdlib Require Import ZArith Lia.
From S2P Require Import Prelude Machine Console Inode Grep Ulib Unix.
Open Scope Z_scope.

Abbreviation lit := str_bytes.

(** The string in an array: the bytes before the first NUL. *)
Fixpoint c_str (b : bytes) : bytes :=
  match b with
  | [] => []
  | c :: b => if c =? 0 then [] else c :: c_str b
  end.

(** [b] read into an array that held [old]. *)
Definition overlay (b old : bytes) : bytes := b ++ drop (length b) old.

(** A call whose result is not used. *)
Definition sys_ (c : call) : prog unit := sys c >> Ret tt.

(* @user/ulib.c stat *)
Definition stat (n : bytes) : prog (Z * ustat) :=
  do fd <- sys (Sys_open n 0) ;;
  if (fd <? 0) then Ret (-1, mk_ustat 0 0 0)
  else
  do r <- sys (Sys_fstat fd) ;;
  sys_ (Sys_close fd) >> Ret r.

Section Tools.
Context (fuel : nat).

(** ** cat *)

(* @user/cat.c cat *)
Definition cat (fd : Z) : prog unit :=
  loop fuel (fun _ : unit =>
    do '(n, buf) <- sys (Sys_read fd 512) ;;
    if (n >? 0) then
      do r <- sys (Sys_write 1 (take (Z.to_nat n) buf)) ;;
      if negb (r =? n) then fprintf 2 (endl "cat: write error") [] >> Exit 1
      else Ret (inl tt)
    else if (n <? 0) then fprintf 2 (endl "cat: read error") [] >> Exit 1
    else Ret (inr tt)) tt.

(* @user/cat.c main *)
Definition cat_main (argv : list bytes) : prog unit :=
  if (Z.of_nat (length argv) <=? 1) then cat 0 >> Exit 0
  else
  all (tail argv) (fun a =>
    do fd <- sys (Sys_open a 0) ;;
    if (fd <? 0) then fprintf 2 (endl "cat: cannot open %s") [a_str a] >> Exit 1
    else cat fd >> sys_ (Sys_close fd)) >>
  Exit 0.

(** ** echo *)

(* @user/echo.c main *)
Fixpoint echo_args (args : list bytes) : prog unit :=
  match args with
  | [] => Ret tt
  | a :: args =>
    sys_ (Sys_write 1 a) >>
    (if negb (bool_decide (args = [])) then sys_ (Sys_write 1 [32]) else sys_ (Sys_write 1 [10])) >>
    echo_args args
  end.

(* @user/echo.c main *)
Definition echo_main (argv : list bytes) : prog unit := echo_args (tail argv) >> Exit 0.

(** ** wc *)

(** [l], [w], [c] and [inword]. *)
Record counts := mk_counts { ct_l : Z; ct_w : Z; ct_c : Z; ct_in : bool }.

Definition wc_space : bytes := [32; 13; 9; 10; 11].

(** The body of the inner loop. *)
(* @user/wc.c wc *)
Definition wc_byte (k : counts) (b : Z) : counts :=
  let k := mk_counts (ct_l k) (ct_w k) (i32 (ct_c k + 1)) (ct_in k) in
  let k := if b =? 10 then mk_counts (i32 (ct_l k + 1)) (ct_w k) (ct_c k) (ct_in k) else k in
  match strchr wc_space b with
  | Some _ => mk_counts (ct_l k) (ct_w k) (ct_c k) false
  | None => if negb (ct_in k) then mk_counts (ct_l k) (i32 (ct_w k + 1)) (ct_c k) true else k
  end.

(* @user/wc.c wc *)
Definition wc (fd : Z) (nm : bytes) : prog unit :=
  do k <- loop fuel (fun k =>
    do '(n, buf) <- sys (Sys_read fd 512) ;;
    if (n >? 0) then Ret (inl (fold_left wc_byte (take (Z.to_nat n) buf) k))
    else if (n <? 0) then printf (endl "wc: read error") [] >> Exit 1
    else Ret (inr k)) (mk_counts 0 0 0 false) ;;
  printf (endl "%d %d %d %s") [AInt (ct_l k); AInt (ct_w k); AInt (ct_c k); a_str nm].

(* @user/wc.c main *)
Definition wc_main (argv : list bytes) : prog unit :=
  if (Z.of_nat (length argv) <=? 1) then wc 0 [] >> Exit 0
  else
  all (tail argv) (fun a =>
    do fd <- sys (Sys_open a 0) ;;
    if (fd <? 0) then printf (endl "wc: cannot open %s") [a_str a] >> Exit 1
    else wc fd a >> sys_ (Sys_close fd)) >>
  Exit 0.

(** ** grep *)

(** The writes of the inner loop, and the bytes from [p] on. *)
(* @user/grep.c grep *)
Fixpoint grep_writes (n : nat) (pattern p : bytes) : prog bytes :=
  match n with
  | O => Ret p
  | S n =>
    match strchr p NL with
    | None => Ret p
    | Some q =>
      (if match_ pattern (take q p) then sys_ (Sys_write 1 (take (S q) p)) else Ret tt) >>
      grep_writes n pattern (drop (S q) p)
    end
  end.

(* @user/grep.c grep *)
Definition grep_fd (pattern : bytes) (fd : Z) : prog unit :=
  loop fuel (fun b : bytes =>
    do '(n, chunk) <- sys (Sys_read fd (1024 - Z.of_nat (length b) - 1)) ;;
    if (n >? 0) then
      let p := b ++ take (Z.to_nat n) chunk in
      do rest <- grep_writes (S (length p)) pattern p ;;
      Ret (inl rest)
    else Ret (inr tt)) [].

(* @user/grep.c main *)
Definition grep_main (argv : list bytes) : prog unit :=
  match tail argv with
  | [] => fprintf 2 (endl "usage: grep pattern [file ...]") [] >> Exit 1
  | pattern :: names =>
    if bool_decide (names = []) then grep_fd pattern 0 >> Exit 0
    else
    all names (fun a =>
      do fd <- sys (Sys_open a 0) ;;
      if (fd <? 0) then printf (endl "grep: cannot open %s") [a_str a] >> Exit 1
      else grep_fd pattern fd >> sys_ (Sys_close fd)) >>
    Exit 0
  end.

(** ** ls *)

(** The bytes from the character after the last slash. *)
Fixpoint after_slash (path : bytes) : bytes :=
  match path with
  | [] => []
  | c :: path => if bool_decide (47 ∈ path) then after_slash path else if c =? 47 then path else c :: path
  end.

(* @user/ls.c fmtname *)
Definition fmtname (path : bytes) : bytes :=
  let p := after_slash path in
  if DIRSIZ <=? Z.of_nat (length p) then p
  else p ++ replicate (Z.to_nat DIRSIZ - length p) 32.

(** [de.inum] and [de.name] of the bytes of a directory entry. *)
Definition de_inum (de : bytes) : Z := le_decode (take 2 de).
Definition de_name (de : bytes) : bytes := c_str (take 14 (drop 2 de)).

(* @user/ls.c ls *)
Definition ls (path : bytes) : prog unit :=
  do fd <- sys (Sys_open path 0) ;;
  if fd <? 0 then fprintf 2 (endl "ls: cannot open %s") [a_str path]
  else
  do '(r, st) <- sys (Sys_fstat fd) ;;
  if r <? 0 then fprintf 2 (endl "ls: cannot stat %s") [a_str path] >> sys_ (Sys_close fd)
  else
  (if us_type st =? T_FILE then
     printf (endl "%s %d %d %l") [a_str (fmtname path); AInt (us_type st); AInt (i32 (us_ino st)); APtr (us_size st)]
   else if us_type st =? T_DIR then
     if Z.of_nat (length path) + 1 + DIRSIZ + 1 >? 512 then printf (endl "ls: path too long") []
     else
     loop fuel (fun _ : unit =>
       do '(n, de) <- sys (Sys_read fd 16) ;;
       if negb (n =? 16) then Ret (inr tt)
       else if de_inum de =? 0 then Ret (inl tt)
       else
       let buf := path ++ [47] ++ de_name de in
       do '(r, st) <- stat buf ;;
       if r <? 0 then printf (endl "ls: cannot stat %s") [a_str buf] >> Ret (inl tt)
       else
       printf (endl "%s %d %d %d")
         [a_str (fmtname buf); AInt (us_type st); AInt (i32 (us_ino st)); AInt (i32 (us_size st))] >>
       Ret (inl tt)) tt
   else Ret tt) >>
  sys_ (Sys_close fd).

(* @user/ls.c main *)
Definition ls_main (argv : list bytes) : prog unit :=
  if Z.of_nat (length argv) <? 2 then ls (lit ".") >> Exit 0
  else all (tail argv) ls >> Exit 0.

(** ** find *)

(* @user/find.c getname *)
Definition getname (path : bytes) : bytes := after_slash path.

(** The depth of the directories is bounded by [depth]. *)
(* @user/find.c findpath *)
Fixpoint findpath (depth : nat) (path file_name : bytes) : prog unit :=
  match depth with
  | O => Spin
  | S depth =>
    do fd <- sys (Sys_open path 0) ;;
    sys (Sys_fstat fd) >>
    (if Z.of_nat (length path) + 1 + DIRSIZ + 1 >? 512 then Spin
     else
     loop fuel (fun _ : unit =>
       do '(n, de) <- sys (Sys_read fd 16) ;;
       if negb (n =? 16) then Ret (inr tt)
       else if de_inum de =? 0 then Ret (inl tt)
       else
       let buf := path ++ [47] ++ de_name de in
       do '(r, st) <- stat buf ;;
       if r <? 0 then printf (endl "test?") [] >> Ret (inl tt)
       else
       let nm := getname buf in
       if us_type st =? T_FILE then
         (if bool_decide (nm = file_name) then printf (endl "%s") [a_str buf] else Ret tt) >> Ret (inl tt)
       else if us_type st =? T_DIR then
         if bool_decide (nm = lit ".") || bool_decide (nm = lit "..") then Ret (inl tt)
         else findpath depth buf file_name >> Ret (inl tt)
       else Ret (inl tt)) tt) >>
    sys_ (Sys_close fd)
  end.

(* @user/find.c main *)
Definition find_main (argv : list bytes) : prog unit :=
  match argv with
  | _ :: path :: file_name :: _ => findpath fuel path file_name >> Exit 0
  | _ => Spin
  end.

(** ** kill, ln, mkdir, rm, sleep, zombie *)

(* @user/kill.c main *)
Definition kill_main (argv : list bytes) : prog unit :=
  if Z.of_nat (length argv) <? 2 then fprintf 2 (endl "usage: kill pid...") [] >> Exit 1
  else all (tail argv) (fun a => sys_ (Sys_kill (Ulib.atoi a))) >> Exit 0.

(* @user/ln.c main *)
Definition ln_main (argv : list bytes) : prog unit :=
  match argv with
  | [_; old; new] =>
    do r <- sys (Sys_link old new) ;;
    (if r <? 0 then fprintf 2 (endl "link %s %s: failed") [a_str old; a_str new] else Ret tt) >>
    Exit 0
  | _ => fprintf 2 (endl "Usage: ln old new") [] >> Exit 1
  end.

(* @user/mkdir.c main *)
Definition mkdir_main (argv : list bytes) : prog unit :=
  if Z.of_nat (length argv) <? 2 then fprintf 2 (endl "Usage: mkdir files...") [] >> Exit 1
  else
  each (tail argv) (fun a =>
    do r <- sys (Sys_mkdir a) ;;
    if r <? 0 then fprintf 2 (endl "mkdir: %s failed to create") [a_str a] >> Ret (Some tt)
    else Ret None) >>
  Exit 0.

(* @user/rm.c main *)
Definition rm_main (argv : list bytes) : prog unit :=
  if Z.of_nat (length argv) <? 2 then fprintf 2 (endl "Usage: rm files...") [] >> Exit 1
  else
  each (tail argv) (fun a =>
    do r <- sys (Sys_unlink a) ;;
    if r <? 0 then fprintf 2 (endl "rm: %s failed to delete") [a_str a] >> Ret (Some tt)
    else Ret None) >>
  Exit 0.

(* @user/sleep.c main *)
Definition sleep_main (argv : list bytes) : prog unit :=
  match argv with
  | [_; a] =>
    sys_ (Sys_sleep (Ulib.atoi a)) >>
    printf (endl "(nothing happens for a little while)") [] >>
    Exit 0
  | _ => printf (endl "Sleeps needs one argument!") [] >> Exit (-1)
  end.

(* @user/zombie.c main *)
Definition zombie_main : prog unit :=
  do pid <- sys Sys_fork ;;
  (if pid >? 0 then sys_ (Sys_sleep 5) else Ret tt) >>
  Exit 0.

(** ** init *)

(** The inner loop: [wait] until the shell with process id [pid] has exited. *)
(* @user/init.c main *)
Definition init_wait (pid : Z) : prog unit :=
  loop fuel (fun _ : unit =>
    do wpid <- sys Sys_wait ;;
    if wpid =? pid then Ret (inr tt)
    else if wpid <? 0 then printf (endl "init: wait returned an error") [] >> Exit 1
    else Ret (inl tt)) tt.

(* @user/init.c main *)
Definition init_main : prog unit :=
  do fd <- sys (Sys_open (lit "console") 2) ;;
  (if fd <? 0 then
     sys_ (Sys_mknod (lit "console") 1 0) >>
     sys_ (Sys_open (lit "console") 2)
   else Ret tt) >>
  sys_ (Sys_dup 0) >>
  sys_ (Sys_dup 0) >>
  loop fuel (fun _ : unit =>
    printf (endl "init: starting sh") [] >>
    do pid <- sys Sys_fork ;;
    if pid <? 0 then printf (endl "init: fork failed") [] >> Exit 1
    else if pid =? 0 then
      sys_ (Sys_exec (lit "sh") [lit "sh"]) >>
      printf (endl "init: exec sh failed") [] >>
      Exit 1
    else init_wait pid >> Ret (inl tt)) tt.

(** ** pingpong *)

(** The pointers into the string literals are not read-only: the text of a
    program is writable. *)
(* @user/pingpong.c main *)
Definition pingpong_main : prog unit :=
  do '(_, (fp0, fp1)) <- sys Sys_pipe ;;
  do '(_, (sp0, sp1)) <- sys Sys_pipe ;;
  do pid <- sys Sys_fork ;;
  (if pid =? 0 then
     sys_ (Sys_close fp1) >>
     do '(_, b) <- sys (Sys_read fp0 4) ;;
     do pid <- sys Sys_getpid ;;
     printf (endl "%d: received %s") [AInt pid; a_str (c_str (overlay b (lit "    ")))] >>
     sys_ (Sys_close fp0) >>
     sys_ (Sys_close sp0) >>
     sys_ (Sys_write sp1 (lit "pong")) >>
     sys_ (Sys_close sp1)
   else
     sys_ (Sys_close fp0) >>
     sys_ (Sys_write fp1 (lit "ping")) >>
     sys_ (Sys_close fp1) >>
     sys_ (Sys_close sp1) >>
     do '(_, b) <- sys (Sys_read sp0 4) ;;
     do pid <- sys Sys_getpid ;;
     printf (endl "%d: received %s") [AInt pid; a_str (c_str (overlay b (lit "ping")))] >>
     sys_ (Sys_close sp0)) >>
  Exit 0.

(** ** primes *)

(* @user/primes.c mapping *)
Definition mapping (n : Z) (fd : Z * Z) : prog unit :=
  sys_ (Sys_close n) >>
  sys_ (Sys_dup (if n =? 0 then fd.1 else fd.2)) >>
  sys_ (Sys_close fd.1) >>
  sys_ (Sys_close fd.2).

(** An [int] variable of which [b] was read into the first bytes. *)
Definition int_of (b old : bytes) : Z := i32 (le_decode (overlay b old)).

(** The loop of a child: [num] keeps the bytes that are not read over. *)
(* @user/primes.c primes *)
Definition primes_filter (prime : Z) (num : bytes) : prog unit :=
  loop fuel (fun num : bytes =>
    do '(r, b) <- sys (Sys_read 0 4) ;;
    if r =? 0 then Ret (inr tt)
    else
    let num := overlay b num in
    (if negb (Z.rem (i32 (le_decode num)) prime =? 0) then sys_ (Sys_write 1 num) else Ret tt) >>
    Ret (inl num)) num.

(** [junk]: what the uninitialized variables hold. *)
(* @user/primes.c primes *)
Fixpoint primes (depth : nat) (junk : bytes) : prog unit :=
  match depth with
  | O => Spin
  | S depth =>
    do '(_, fd) <- sys Sys_pipe ;;
    do '(ref, b) <- sys (Sys_read 0 4) ;;
    if ref =? 0 then Ret tt
    else
    let prime := int_of b junk in
    printf (endl "prime %d") [AInt prime] >>
    do pid <- sys Sys_fork ;;
    if pid =? 0 then
      mapping 1 fd >>
      primes_filter prime junk
    else
      sys_ Sys_wait >>
      mapping 0 fd >>
      primes depth junk
  end.

(* @user/primes.c main *)
Definition primes_main (junk : bytes) : prog unit :=
  do '(_, fd) <- sys Sys_pipe ;;
  do pid <- sys Sys_fork ;;
  (if pid =? 0 then
     mapping 1 fd >>
     all (seqZ 2 30) (fun i => sys_ (Sys_write 1 (le_encode 4 i)))
   else
     mapping 0 fd >>
     primes fuel junk) >>
  Exit 0.

(** ** xargs *)

(** The loop over the bytes of the buffer: [from] is where [argvs[argc-1]] points. *)
(* @user/xargs.c main *)
Fixpoint xargs_lines (cmd : bytes) (args : list bytes) (idx : list nat) (buf : bytes) (from : nat) : prog bytes :=
  match idx with
  | [] => Ret buf
  | i :: idx =>
    if bool_decide (buf !! i = Some 10) then
      do pid <- sys Sys_fork ;;
      do buf' <- (if pid =? 0 then
                    let buf' := <[i := 0]> buf in
                    sys (Sys_exec cmd (args ++ [c_str (drop from buf')])) >> Ret buf'
                  else Ret buf) ;;
      sys_ Sys_wait >>
      xargs_lines cmd args idx buf' (S i)
    else xargs_lines cmd args idx buf from
  end.

(** [junk]: what the 1024 bytes of [buf] hold at first. *)
(* @user/xargs.c main *)
Definition xargs_main (argv : list bytes) (junk : bytes) : prog unit :=
  match tail argv with
  | [] => Spin
  | cmd :: _ =>
    if MAXARG <=? Z.of_nat (length argv) then Spin
    else
    loop fuel (fun buf : bytes =>
      do '(r, b) <- sys (Sys_read 0 1024) ;;
      if r =? 0 then Ret (inr tt)
      else
      let buf := overlay b buf in
      let len := length (c_str buf) in
      if (1024 <=? len)%nat then Spin
      else
      do buf <- xargs_lines cmd (tail argv) (seq 0 len) buf 0 ;;
      Ret (inl buf)) junk >>
    Exit 0
  end.

End Tools.
