(* ===== verification/Sh.v ===== *)
(** * user/sh.c: running commands

    [runcmd], [getcmd] and [main] of the shell as programs of [Unix], on top of the
    parser of [Shell].  The theorem is about every interleaving of the processes a
    command consists of. *)

From stdpp Require Import gmap list strings.
From Stdlib Require Import ZArith Lia FunctionalExtensionality.
From S2P Require Import Prelude Machine Console Ulib Shell Unix Tools.
Open Scope Z_scope.

(** ** The code *)

(* @user/sh.c panic *)
Definition panic {A} (s : string) : prog A := fprintf 2 (endl "%s") [a_str (lit s)] >> Exit 1.

(* @user/sh.c fork1 *)
Definition fork1 : prog Z :=
  do pid <- sys Sys_fork ;;
  if pid =? -1 then panic "fork" else Ret pid.

(* @user/sh.c runcmd *)
Fixpoint runcmd (c : cmd) : prog unit :=
  match c with
  | EXEC [] => Exit 1
  | EXEC (a :: argv) =>
    sys_ (Sys_exec a (a :: argv)) >>
    fprintf 2 (endl "exec %s failed") [a_str a] >>
    Exit 0
  | REDIR c file mode fd =>
    sys_ (Sys_close fd) >>
    do r <- sys (Sys_open file mode) ;;
    if r <? 0 then fprintf 2 (endl "open %s failed") [a_str file] >> Exit 1
    else runcmd c >> Exit 0
  | LIST l r =>
    do pid <- fork1 ;;
    (if pid =? 0 then runcmd l else Ret tt) >>
    sys_ Sys_wait >>
    runcmd r >>
    Exit 0
  | PIPE lc rc =>
    do '(r, (p0, p1)) <- sys Sys_pipe ;;
    if r <? 0 then panic "pipe"
    else
    do pid <- fork1 ;;
    (if pid =? 0 then
       sys_ (Sys_close 1) >>
       sys_ (Sys_dup p1) >>
       sys_ (Sys_close p0) >>
       sys_ (Sys_close p1) >>
       runcmd lc
     else Ret tt) >>
    do pid <- fork1 ;;
    (if pid =? 0 then
       sys_ (Sys_close 0) >>
       sys_ (Sys_dup p0) >>
       sys_ (Sys_close p0) >>
       sys_ (Sys_close p1) >>
       runcmd rc
     else Ret tt) >>
    sys_ (Sys_close p0) >>
    sys_ (Sys_close p1) >>
    sys_ Sys_wait >>
    sys_ Sys_wait >>
    Exit 0
  | BACK c =>
    do pid <- fork1 ;;
    (if pid =? 0 then runcmd c else Ret tt) >>
    Exit 0
  end.

(** The bytes read, up to and including the end of the line. *)
(* @user/ulib.c gets *)
Fixpoint gets_prog (n : nat) : prog bytes :=
  match n with
  | O => Ret []
  | S n =>
    do '(cc, b) <- sys (Sys_read 0 1) ;;
    if cc <? 1 then Ret []
    else
    match b with
    | c :: _ =>
      if (c =? 10) || (c =? 13) then Ret [c]
      else do l <- gets_prog n ;; Ret (c :: l)
    | [] => Ret []
    end
  end.

(** The string in [buf], or [None] for -1. *)
(* @user/sh.c getcmd *)
Definition getcmd (nbuf : Z) : prog (option bytes) :=
  fprintf 2 "$ " [] >>
  do l <- gets_prog (Z.to_nat (nbuf - 1)) ;;
  let buf := c_str l in
  if bool_decide (buf = []) then Ret None else Ret (Some buf).

(** [runcmd(parsecmd(buf))] *)
(* @user/sh.c parsecmd *)
Definition run_line (buf : bytes) : prog unit :=
  match parsecmd buf with
  | Parsed c _ => runcmd c
  | Syntax msg => panic msg
  | Leftovers s => fprintf 2 (endl "leftovers: %s") [a_str s] >> panic "syntax"
  | Deep => Spin
  end.

(* @user/sh.c main *)
Definition sh_main (fuel : nat) : prog unit :=
  loop fuel (fun _ : unit =>
    do fd <- sys (Sys_open (lit "console") 2) ;;
    if fd <? 0 then Ret (inr tt)
    else if fd >=? 3 then sys_ (Sys_close fd) >> Ret (inr tt)
    else Ret (inl tt)) tt >>
  loop fuel (fun _ : unit =>
    do r <- getcmd 100 ;;
    match r with
    | None => Ret (inr tt)
    | Some buf =>
      if bool_decide (take 3 buf = lit "cd ") then
        let path := drop 3 (take (length buf - 1) buf) in
        do r <- sys (Sys_chdir path) ;;
        (if r <? 0 then fprintf 2 (endl "cannot cd %s") [a_str path] else Ret tt) >>
        Ret (inl tt)
      else
        do pid <- fork1 ;;
        (if pid =? 0 then run_line buf else Ret tt) >>
        sys_ Sys_wait >>
        Ret (inl tt)
    end) tt >>
  Exit 0.

(** ** What a program will execute *)

Lemma prog_bind_assoc {A B C} (p : prog A) (f : A -> prog B) (g : B -> prog C) :
  prog_bind (prog_bind p f) g = prog_bind p (fun a => prog_bind (f a) g).
Proof. induction p as [| |c k IH|]; cbn; [done|done| |done]. f_equal. extensionality r. apply IH. Qed.

Lemma prog_bind_ret {A} (p : prog A) : prog_bind p Ret = p.
Proof. induction p as [| |c k IH|]; cbn; [done|done| |done]. f_equal. extensionality r. apply IH. Qed.

(** A program started: the process, the arguments, the descriptors. *)
Abbreviation started := (name * list bytes * fdtab)%type.

Section Pool.
Context `{System}.

(** A bound on the calls of the programs on the disk. *)
Context (size : bytes -> list bytes -> nat).

(** With [calm], moreover, no call can wait except [wait]: there are no reads, and the
    writes are to the console. *)
Context (calm : bool).

(** [obl p w nf ns t L n]: whatever the other processes do, the process [w] with program
    [p] and descriptors [t] and its descendants make at most [n] calls and start the
    programs [L], or some of them when calls fail. *)
Fixpoint obl (p : prog unit) (w : name) (nf ns : nat) (t : fdtab) (L : list started) (n : nat) {struct p} : Prop :=
  match p with
  | Ret _ | Exit _ => L = [] /\ (0 < n)%nat
  | Spin => L = [] /\ calm = false
  | Sys c k =>
    match c as c return (reply c -> prog unit) -> Prop with
    | Sys_fork => fun k => exists L1 L2 L' n1 n2 n',
        obl (k 0) (w ++ [nf]) 0 0 t L1 n1 /\
        obl (k (pid_of (w ++ [nf]))) w (S nf) ns t L2 n2 /\
        obl (k (-1)) w nf ns t L' n' /\
        L ≡ₚ L1 ++ L2 /\ L' ⊆+ L /\ (n1 + n2 < n)%nat /\ (n' < n)%nat
    | Sys_pipe => fun k => exists L' n',
        (match fdalloc (F_piper (w, ns)) t with
         | Some (fd0, t) =>
           match fdalloc (F_pipew (w, ns)) t with
           | Some (fd1, t) => obl (k (0, (fd0, fd1))) w nf (S ns) t L n'
           | None => True
           end
         | None => True
         end) /\
        obl (k (-1, (0, 0))) w nf ns t L' n' /\ L' ⊆+ L /\ (n' < n)%nat
    | Sys_open path mode => fun k => exists L' n',
        (match fdalloc (open_obj path mode (w, ns)) t with
         | Some (fd, t) => obl (k fd) w nf (S ns) t L n'
         | None => True
         end) /\
        obl (k (-1)) w nf ns t L' n' /\ L' ⊆+ L /\ (n' < n)%nat
    | Sys_exec path argv => fun k => exists n',
        L = [(w, argv, t)] /\ obl (k (-1)) w nf ns t [] n' /\ (n' < n)%nat /\ (size path argv < n)%nat
    | Sys_write fd b => fun k => exists n',
        (n' + length b < n)%nat /\ (calm = true -> get_fd t fd = Some F_console) /\
        forall r, obl (k r) w nf ns t L n'
    | Sys_read _ _ => fun k => exists n', (n' < n)%nat /\ calm = false /\ forall r, obl (k r) w nf ns t L n'
    | Sys_close fd => fun k => exists n',
        (match get_fd t fd with
         | Some _ => obl (k 0) w nf ns (<[Z.to_nat fd := None]> t) L n'
         | None => obl (k (-1)) w nf ns t L n'
         end) /\ (n' < n)%nat
    | Sys_dup fd => fun k => exists n',
        (match get_fd t fd ≫= fun o => fdalloc o t with
         | Some (fd', t) => obl (k fd') w nf ns t L n'
         | None => obl (k (-1)) w nf ns t L n'
         end) /\ (n' < n)%nat
    | _ => fun k => exists n', (n' < n)%nat /\ forall r, obl (k r) w nf ns t L n'
    end k
  end.

(** The programs on the disk: with its children, a program makes at most [size] calls (each
    byte of a write counts as one), and none of them calls [exec].  A shell or an xargs
    among the programs does not meet this. *)
Definition plain_images : Prop :=
  forall path argv q, image path argv = Some q -> forall w nf ns t, obl q w nf ns t [] (size path argv).

Lemma obl_mono p w nf ns t L n n' : obl p w nf ns t L n -> (n <= n')%nat -> obl p w nf ns t L n'.
Proof.
  intros Ho Hn. destruct p as [|st|c k|]; cbn in *; try (intuition lia).
  destruct c; cbn in *; repeat match goal with H : ex _ |- _ => destruct H end;
    repeat match goal with H : _ /\ _ |- _ => destruct H end;
    repeat first [eexists|split]; eauto; lia.
Qed.

Definition entry_ok (e : name * pst) (o : list started * nat) : Prop :=
  obl (prg e.2) e.1 (nfork e.2) (nsid e.2) (tab e.2) o.1 o.2.

Lemma insert_perm {A} (l : list A) i x y : l !! i = Some y -> <[i := x]> l ≡ₚ x :: delete i l.
Proof.
  intros Hi. pose proof (lookup_lt_Some _ _ _ Hi). rewrite insert_take_drop, delete_take_drop by done.
  by rewrite Permutation_middle.
Qed.

(** The programs of a list of obligations, and the number of calls. *)
Definition todo (obs : list (list started * nat)) : list started := concat (fst <$> obs).
Definition cost (obs : list (list started * nat)) : nat := sum_list (snd <$> obs).

Lemma todo_app obs obs' : todo (obs ++ obs') = todo obs ++ todo obs'.
Proof. unfold todo. by rewrite fmap_app, concat_app. Qed.

Lemma cost_app obs obs' : cost (obs ++ obs') = (cost obs + cost obs')%nat.
Proof. unfold cost. induction obs as [|o obs IH]; cbn in *; lia. Qed.

#[local] Instance todo_proper : Proper (Permutation ==> Permutation) todo.
Proof. induction 1; unfold todo in *; cbn; [done|by f_equiv| |by etrans]. solve_Permutation. Qed.

#[local] Instance cost_proper : Proper (Permutation ==> eq) cost.
Proof. induction 1; unfold cost in *; cbn; lia. Qed.

(** The processes [news] take the place of the one at index [i], and [X] is started. *)
Record moved (f : bool) (i : nat) (s s' : conf) (L : list started) (n : nat)
    (news : list (name * pst)) (obs : list (list started * nat)) (X : list started) : Prop := {
  mv_pool : pool s' ≡ₚ news ++ delete i (pool s);
  mv_ok : Forall2 entry_ok news obs;
  mv_size : (cost obs < n)%nat;
  mv_execs : execs s' = execs s ++ X;
  mv_sub : X ++ todo obs ⊆+ L;
  mv_all : f = false -> X ++ todo obs ≡ₚ L
}.

(** The process goes on with [q]. *)
Lemma moved_resume f i s s1 w p q L L' n n' :
  pool s !! i = Some (w, p) -> pool s1 = pool s -> execs s1 = execs s ->
  entry_ok (w, q) (L', n') -> (n' < n)%nat -> L' ⊆+ L -> (f = false -> L' = L) ->
  moved f i s (set_pool (<[i := (w, q)]> (pool s1)) s1) L n [(w, q)] [(L', n')] [].
Proof.
  intros Hi Hp He Hq Hn HL Hf. constructor; cbn; rewrite ?app_nil_r.
  - rewrite Hp. by apply (insert_perm _ _ _ (w, p)).
  - by apply Forall2_cons.
  - lia.
  - exact He.
  - done.
  - intros E. by rewrite (Hf E).
Qed.

Lemma execs_record_other e s : (forall w argv t, e <> E_exec w argv t) -> execs (record e s) = execs s.
Proof. intros He. unfold execs, record. cbn. by destruct e; [exfalso; eapply He|..]. Qed.

Lemma execs_record_exec w argv t s : execs (record (E_exec w argv t) s) = execs s ++ [(w, argv, t)].
Proof. done. Qed.

Lemma do_read_same o n s r s' : do_read o n s = Some (r, s') -> pool s' = pool s /\ execs s' = execs s.
Proof. intros E. destruct o as [[| | |]|]; cbn in E; repeat case_match; simplify_eq; done. Qed.

Lemma do_open_same path mode f s s' : do_open path mode f s = Some s' -> pool s' = pool s /\ execs s' = execs s.
Proof.
  unfold do_open. intros E. destruct (bool_decide _); [by simplify_eq|].
  destruct (files s !! path); [destruct (Z.land mode 0x400 =? 0)|destruct (Z.land mode 0x200 =? 0)]; by simplify_eq.
Qed.

(** What [do_write] keeps; a part of the bytes is some of them. *)
Lemma do_write_same w o b s :
  match do_write w o b s with
  | W_done _ s' => pool s' = pool s /\ execs s' = execs s
  | W_part n s' => pool s' = pool s /\ execs s' = execs s /\ (0 < n <= length b)%nat
  | W_wait => True
  end.
Proof.
  destruct o as [[|path mode f| |f]|]; cbn [do_write]; [done| |done| |done].
  - by destruct (writable mode).
  - destruct (Nat.leb_spec (length b) (PIPESIZE - length (default [] (pipes s !! f)))) as [|Hb]; [done|].
    destruct (Nat.ltb_spec 0 (PIPESIZE - length (default [] (pipes s !! f)))); [split_and!; [done|done|lia|lia]|].
    by destruct (holds (F_piper f) s).
Qed.

Ltac open_obl H :=
  repeat match type of H with
  | ex _ => let x := fresh "x" in destruct H as [x H]
  | _ /\ _ => let H' := fresh "Ho" in destruct H as [H' H]
  end.

(** The process goes on with its continuation. *)
Ltac goes_on Hi :=
  eexists _, _, _; eapply moved_resume;
  [exact Hi | try done | try done | hnf; cbn [fst snd prg tab nfork nsid set_prg set_tab set_nsid]; eauto
  | try lia | try done | try done].

Lemma moved_fork i s w p q1 q2 cw L L1 L2 n n1 n2 :
  pool s !! i = Some (w, p) -> entry_ok (w, q1) (L1, n1) -> entry_ok (cw, q2) (L2, n2) ->
  L ≡ₚ L2 ++ L1 -> (n2 + n1 < n)%nat ->
  moved false i s (set_pool (<[i := (w, q1)]> (pool s) ++ [(cw, q2)]) s) L n
    [(w, q1); (cw, q2)] [(L1, n1); (L2, n2)] [].
Proof.
  intros Hi H1 H2 HL Hn. constructor; cbn; rewrite ?app_nil_r.
  - rewrite (insert_perm _ _ _ _ Hi). solve_Permutation.
  - constructor; [done|]. by constructor.
  - lia.
  - done.
  - rewrite HL. by rewrite Permutation_app_comm.
  - intros _. rewrite HL. apply Permutation_app_comm.
Qed.

Lemma moved_exec i s w p q path argv n : plain_images ->
  pool s !! i = Some (w, p) -> image path argv = Some q -> (size path argv < n)%nat ->
  moved false i s (set_pool (<[i := (w, set_prg q p)]> (pool s)) (record (E_exec w argv (tab p)) s))
    [(w, argv, tab p)] n [(w, set_prg q p)] [([], size path argv)] [(w, argv, tab p)].
Proof.
  intros Himg Hi Hq Hn. constructor; cbn; [by apply (insert_perm _ _ _ _ Hi)| |lia|done|done|done].
  apply Forall2_cons. split; [|done]. by apply Himg.
Qed.

Lemma moved_write i s s1 w p fd b k L n n' :
  pool s !! i = Some (w, p) -> (n' + length b < n)%nat -> (calm = true -> get_fd (tab p) fd = Some F_console) ->
  (forall r, obl (k r) w (nfork p) (nsid p) (tab p) L n') ->
  match do_write w (get_fd (tab p) fd) b s with
  | W_done r s => Some (set_pool (<[i := (w, set_prg (k r) p)]> (pool s)) s)
  | W_part m s =>
    Some (set_pool (<[i := (w, set_prg (Sys (Sys_write fd (drop m b))
      (fun r => k (if r <? 0 then r else r + Z.of_nat m))) p)]> (pool s)) s)
  | W_wait => None
  end = Some s1 ->
  exists news obs X, moved false i s s1 L n news obs X.
Proof.
  intros Hi Hn Hc Ho. pose proof (do_write_same w (get_fd (tab p) fd) b s) as Hw.
  destruct (do_write _ _ _ _) as [r s2|m s2|]; intros E; simplify_eq.
  - destruct Hw. goes_on Hi.
  - destruct Hw as (? & ? & ?). eexists _, [(L, (S n' + (length b - m))%nat)], _.
    eapply moved_resume; [exact Hi|done|done| |lia|done|done].
    hnf. cbn. exists n'. rewrite length_drop. split; [lia|]. split; [done|]. intros r. apply Ho.
Qed.

(** One step of a process that meets its obligation. *)
Lemma step_moves f i s s' w p L n : plain_images ->
  pool s !! i = Some (w, p) -> entry_ok (w, p) (L, n) -> step f i s = Some s' ->
  exists news obs X, moved f i s s' L n news obs X.
Proof.
  intros Himg Hi Ho Hs. unfold step in Hs. rewrite Hi in Hs. unfold entry_ok in Ho. cbn [fst snd] in Ho.
  destruct p as [pr t nf ns]. cbn [prg tab nfork nsid] in *. destruct pr as [u|st|c k|]; [| | |done].
  1, 2: destruct Ho as [-> Hn]; destruct f; simplify_eq; exists [], [], []; constructor; cbn;
    rewrite ?app_nil_r; done || lia.
  destruct c; cbn [obl] in Ho.
  (* the calls that cannot fail and whose result is not constrained *)
  7, 10, 11, 13, 14, 15, 17, 18: destruct Ho as (n' & Hn & Ho); destruct f; simplify_eq; goes_on Hi.
  - destruct Ho as (L1 & L2 & L' & n1 & n2 & n' & H1 & H2 & H3 & HL & HL' & Hn & Hn').
    destruct f; simplify_eq; [goes_on Hi|]. eexists _, _, _. by eapply moved_fork.
  - destruct Ho as (n' & Hn & Ho). destruct f; [done|].
    destruct (List.find (is_child w) (zombies s)); [simplify_eq; goes_on Hi|].
    destruct (existsb _ (pool s)); simplify_eq; goes_on Hi.
  - destruct Ho as (L' & n' & Ho & Hfail & HL' & Hn). destruct f; [simplify_eq; goes_on Hi|].
    destruct (fdalloc (F_piper (w, ns)) t) as [[fd0 t0]|]; [|done].
    destruct (fdalloc (F_pipew (w, ns)) t0) as [[fd1 t1]|]; simplify_eq; goes_on Hi.
  - destruct Ho as (n' & Hn & Hc & Ho). destruct f; [done|]. exact (moved_write i s s' w _ fd b k L n n' Hi Hn Hc Ho Hs).
  - destruct Ho as (n' & Hn & Hc & Ho). destruct f; [done|].
    destruct (do_read (get_fd t fd) (Z.to_nat n0) s) as [[r s1]|] eqn:Er; [|done]. simplify_eq.
    destruct (do_read_same _ _ _ _ _ Er). goes_on Hi.
  - destruct Ho as (n' & Ho & Hn). destruct f; [done|]. destruct (get_fd t fd); simplify_eq; goes_on Hi.
  - destruct Ho as (n' & -> & Hfail & Hn & Hsz). destruct f; [simplify_eq; goes_on Hi; by apply submseteq_nil_l|].
    destruct (image path argv) as [q|] eqn:Eq; [|done]. simplify_eq.
    eexists _, _, _. exact (moved_exec i s w _ q path argv n Himg Hi Eq Hsz).
  - destruct Ho as (L' & n' & Ho & Hfail & HL' & Hn). destruct f; [simplify_eq; goes_on Hi|].
    destruct (do_open path mode (w, ns) s) as [s1|] eqn:Eo; [|done].
    destruct (do_open_same _ _ _ _ _ Eo).
    destruct (fdalloc (open_obj path mode (w, ns)) t) as [[fd t1]|]; simplify_eq; goes_on Hi.
  - destruct Ho as (n' & Hn & Ho). destruct f; [done|]. destruct (get_fd t fd); simplify_eq; goes_on Hi.
  - destruct Ho as (n' & Ho & Hn). destruct f; [done|].
    destruct (get_fd t fd ≫= _) as [[fd' t1]|]; simplify_eq; goes_on Hi.
Qed.

(** *** The processes of a command *)

Definition inv (W : list started) (exact : bool) (N : nat) (s : conf) : Prop :=
  exists obs, Forall2 entry_ok (pool s) obs /\ execs s ++ todo obs ⊆+ W /\
    (exact = true -> execs s ++ todo obs ≡ₚ W) /\ (cost obs <= N)%nat.

Lemma pool_inv_step W e N f i s s' : plain_images -> inv W e N s -> step f i s = Some s' ->
  exists N', (N' < N)%nat /\ inv W (e && negb f) N' s'.
Proof.
  intros Himg (obs & Hok & Hsub & Hall & HN) Hs.
  destruct (pool s !! i) as [[w p]|] eqn:Hi; [|unfold step in Hs; by rewrite Hi in Hs].
  destruct (Forall2_lookup_l _ _ _ _ _ Hok Hi) as ([L n] & Ho & Hwp).
  destruct (step_moves f i s s' w p L n Himg Hi Hwp Hs) as (news & obs1 & X & [Hpool Hnews Hsz Hex Hs1 Ha1]).
  pose proof (Forall2_app Hnews (Forall2_delete _ _ _ i Hok)) as Hok'.
  destruct (Permutation_Forall2 (symmetry Hpool) Hok') as (obs' & Hp & Hok2).
  assert (Hobs : obs ≡ₚ (L, n) :: delete i obs) by by apply delete_Permutation.
  assert (Ht : todo obs ≡ₚ L ++ todo (delete i obs)) by (rewrite Hobs at 1; done).
  assert (Hc : cost obs = (n + cost (delete i obs))%nat) by (rewrite Hobs at 1; done).
  assert (Ht' : execs s' ++ todo obs' ≡ₚ (X ++ todo obs1) ++ execs s ++ todo (delete i obs)).
  { rewrite Hex, <- Hp, todo_app. solve_Permutation. }
  exists (cost obs'). rewrite <- Hp at 1. rewrite cost_app. split; [lia|].
  exists obs'. split; [done|]. rewrite Ht'. split.
  - etrans; [by apply submseteq_app|]. etrans; [|exact Hsub]. rewrite Ht. apply Permutation_submseteq. solve_Permutation.
  - split; [|done]. intros [-> ->%negb_true_iff]%andb_true_iff. rewrite Ha1, <- Hall by done. rewrite Ht.
    solve_Permutation.
Qed.

Lemma pool_inv_run W sched e N s s' : plain_images -> inv W e N s -> run sched s = Some s' ->
  (length sched <= N)%nat /\ exists N', inv W (e && forallb (fun x => negb x.1) sched) N' s'.
Proof.
  intros Himg. revert e N s; induction sched as [|[f i] sched IH]; intros e N s Hi Hr; cbn in Hr.
  - simplify_eq. split; [cbn; lia|]. exists N. cbn. by rewrite andb_true_r.
  - destruct (step f i s) as [s1|] eqn:Es; [|done].
    destruct (pool_inv_step W e N f i s s1 Himg Hi Es) as (N1 & HN & Hi1).
    destruct (IH _ _ _ Hi1 Hr) as (Hl & N' & Hi'). split; [cbn; lia|]. exists N'. cbn. by rewrite andb_assoc.
Qed.

(** ** The descriptors of the programs of a command *)

(** Three open descriptors. *)
Definition three (a b c : fobj) : fdtab := [Some a; Some b; Some c] ++ replicate 13 None.

(** What the command [c], run by the process [w], means: which processes start which
    programs with which descriptors.  The left side of a pipe has its write end as
    descriptor 1, the right side its read end as descriptor 0; nothing else differs from
    the descriptors of the command as a whole. *)
Fixpoint wires (c : cmd) (w : name) (nf ns : nat) (t : fdtab) : list started :=
  match c with
  | EXEC [] => []
  | EXEC argv => [(w, argv, t)]
  | REDIR c file mode fd => wires c w nf (S ns) (<[Z.to_nat fd := Some (open_obj file mode (w, ns))]> t)
  | LIST l r => wires l (w ++ [nf]) 0 0 t ++ wires r w (S nf) ns t
  | PIPE l r =>
    wires l (w ++ [nf]) 0 0 (<[1%nat := Some (F_pipew (w, ns))]> t) ++
    wires r (w ++ [S nf]) 0 0 (<[0%nat := Some (F_piper (w, ns))]> t)
  | BACK c => wires c (w ++ [nf]) 0 0 t
  end.

(** Redirections are of the standard input and output, as the parser makes them. *)
Fixpoint redirs_ok (c : cmd) : Prop :=
  match c with
  | EXEC _ => True
  | REDIR c _ _ fd => (fd = 0 \/ fd = 1) /\ redirs_ok c
  | LIST l r | PIPE l r => redirs_ok l /\ redirs_ok r
  | BACK c => redirs_ok c
  end.

Hypothesis Hpid : forall w, 0 < pid_of w.

(** The obligation without the bound. *)
Definition ob (p : prog unit) (w : name) (nf ns : nat) (t : fdtab) (L : list started) : Prop :=
  exists n, obl p w nf ns t L n.

Lemma ob_exit st w nf ns t : ob (Exit st) w nf ns t [].
Proof. exists 1%nat. cbn. split; [done|lia]. Qed.

Lemma ob_close fd o (f : unit -> prog unit) w nf ns t L : get_fd t fd = Some o ->
  ob (f tt) w nf ns (<[Z.to_nat fd := None]> t) L ->
  ob (prog_bind (sys_ (Sys_close fd)) f) w nf ns t L.
Proof. intros Hg [n Ho]. exists (S n). cbn. exists n. rewrite Hg. split; [done|lia]. Qed.

Lemma ob_dup fd fd' (f : unit -> prog unit) w nf ns t t' L :
  get_fd t fd ≫= (fun o => fdalloc o t) = Some (fd', t') ->
  ob (f tt) w nf ns t' L -> ob (prog_bind (sys_ (Sys_dup fd)) f) w nf ns t L.
Proof. intros Hg [n Ho]. exists (S n). cbn. exists n. rewrite Hg. split; [done|lia]. Qed.

Lemma ob_wait (f : unit -> prog unit) w nf ns t L :
  ob (f tt) w nf ns t L -> ob (prog_bind (sys_ Sys_wait) f) w nf ns t L.
Proof. intros [n Ho]. exists (S n). cbn. exists n. split; [lia|done]. Qed.

Lemma ob_puts fd out (f : unit -> prog unit) w nf ns t L :
  (calm = true -> get_fd t fd = Some F_console) -> ob (f tt) w nf ns t L ->
  ob (prog_bind (all out (putc fd)) f) w nf ns t L.
Proof.
  intros Hc Ho. induction out as [|c out [n' IH]]; [done|]. exists (S (S n')). cbn.
  exists n'. split; [cbn; lia|]. split; [done|]. intros _. exact IH.
Qed.

(** A message before the process gives up. *)
Lemma ob_fprintf {A} fd fmt ap st (f : A -> prog unit) w nf ns t :
  (calm = true -> get_fd t fd = Some F_console) -> Uprintf.vprintf (str_bytes fmt) ap <> None ->
  ob (prog_bind (prog_bind (fprintf fd fmt ap) (fun _ => Exit st)) f) w nf ns t [].
Proof.
  intros Hc Hf. rewrite prog_bind_assoc. unfold fprintf, Uprintf.fprintf.
  destruct (Uprintf.vprintf (str_bytes fmt) ap) as [out|]; [|done]. by apply ob_puts, ob_exit.
Qed.

Lemma ob_fork1 (f : Z -> prog unit) w nf ns t L1 L2 :
  (calm = true -> get_fd t 2 = Some F_console) ->
  ob (f 0) (w ++ [nf]) 0 0 t L1 -> ob (f (pid_of (w ++ [nf]))) w (S nf) ns t L2 ->
  ob (prog_bind fork1 f) w nf ns t (L1 ++ L2).
Proof.
  intros Hc [n1 H1] [n2 H2]. unfold fork1. cbn [prog_bind sys].
  destruct (ob_fprintf 2 (endl "%s") [a_str (lit "fork")] 1 f w nf ns t Hc ltac:(done)) as [n' H3].
  exists (S (n1 + n2 + n')). cbn [obl]. exists L1, L2, [], n1, n2, n'.
  rewrite (proj2 (Z.eqb_neq (pid_of (w ++ [nf])) (-1))) by (specialize (Hpid (w ++ [nf])); lia).
  split_and!; [done|done|exact H3|done|apply submseteq_nil_l|lia|lia].
Qed.

Lemma pid_eqb0 w : (pid_of w =? 0) = false.
Proof. specialize (Hpid w). lia. Qed.

Lemma ob_open path mode (f : Z -> prog unit) w nf ns t fd t' L :
  fdalloc (open_obj path mode (w, ns)) t = Some (fd, t') ->
  ob (f fd) w nf (S ns) t' L -> ob (f (-1)) w nf ns t [] ->
  ob (prog_bind (sys (Sys_open path mode)) f) w nf ns t L.
Proof.
  intros Ha [n Ho] [n' Hf]. exists (S (n + n')). cbn. exists [], (n + n')%nat. rewrite Ha.
  split_and!; [eapply obl_mono; [exact Ho|lia]|eapply obl_mono; [exact Hf|lia]|apply submseteq_nil_l|lia].
Qed.

(** The descriptors 3 and 4 of a pipe made by the shell. *)
Definition with_pipe (a b c : fobj) (p : sid) : fdtab :=
  [Some a; Some b; Some c; Some (F_piper p); Some (F_pipew p)] ++ replicate 11 None.

Lemma ob_pipe (f : Z * (Z * Z) -> prog unit) w nf ns a b c L :
  ob (f (0, (3, 4))) w nf (S ns) (with_pipe a b c (w, ns)) L -> ob (f (-1, (0, 0))) w nf ns (three a b c) [] ->
  ob (prog_bind (sys Sys_pipe) f) w nf ns (three a b c) L.
Proof.
  intros [n Ho] [n' Hf]. exists (S (n + n')). cbn. exists [], (n + n')%nat.
  split_and!; [eapply obl_mono; [exact Ho|lia]|eapply obl_mono; [exact Hf|lia]|apply submseteq_nil_l|lia].
Qed.

(** A side of a pipe keeps one end of it, in place of [fd]. *)
Lemma ob_side fd e p (q : prog unit) (f : unit -> prog unit) w nf ns a b c L :
  fd = 0 /\ e = F_piper p \/ fd = 1 /\ e = F_pipew p ->
  ob (prog_bind q f) w nf ns (<[Z.to_nat fd := Some e]> (three a b c)) L ->
  ob (prog_bind (prog_bind (sys_ (Sys_close fd)) (fun _ => prog_bind (sys_ (Sys_dup (3 + fd))) (fun _ =>
    prog_bind (sys_ (Sys_close 3)) (fun _ => prog_bind (sys_ (Sys_close 4)) (fun _ => q))))) f)
    w nf ns (with_pipe a b c p) L.
Proof.
  intros Hfd Ho. rewrite prog_bind_assoc. unfold with_pipe. destruct Hfd as [[-> ->]|[-> ->]].
  all: eapply ob_close; [reflexivity|]; rewrite prog_bind_assoc; eapply ob_dup; [reflexivity|];
    rewrite prog_bind_assoc; eapply ob_close; [reflexivity|]; rewrite prog_bind_assoc; eapply ob_close; [reflexivity|];
    exact Ho.
Qed.

(** *** The cases of [runcmd] *)

(** What [runcmd c] does when it is followed by anything. *)
Definition means (c : cmd) : Prop := forall w nf ns x y z (f : unit -> prog unit), (calm = true -> z = F_console) ->
  ob (prog_bind (runcmd c) f) w nf ns (three x y z) (wires c w nf ns (three x y z)).

(** Descriptor 2 is where it was. *)
Ltac stderr := let E := fresh in intros E; match goal with H : calm = true -> _ |- _ => rewrite (H E) end; done.

Lemma means_exec argv : means (EXEC argv).
Proof.
  intros w nf ns x y z f Hz. destruct argv as [|a argv]; [apply ob_exit|].
  destruct (ob_fprintf 2 (endl "exec %s failed") [a_str a] 0 f w nf ns (three x y z)) as [n Hn]; [stderr|done|].
  exists (S (n + size a (a :: argv))). cbn [runcmd prog_bind sys_ sys obl wires]. exists n.
  split_and!; [done|exact Hn|lia|lia].
Qed.

Lemma means_redir c file mode fd : fd = 0 \/ fd = 1 -> means c -> means (REDIR c file mode fd).
Proof.
  intros Hfd IH w nf ns x y z f Hz. cbn [runcmd wires]. rewrite prog_bind_assoc.
  destruct Hfd as [-> | ->].
  all: eapply ob_close; [reflexivity|]; rewrite prog_bind_assoc; eapply ob_open;
    [reflexivity| |apply ob_fprintf; [stderr|done]];
    cbn beta; match goal with |- context [Z.ltb ?a 0] => change (Z.ltb a 0) with false end;
    cbn iota; rewrite prog_bind_assoc; by apply IH.
Qed.

Lemma means_list l r : means l -> means r -> means (LIST l r).
Proof.
  intros IHl IHr w nf ns x y z f Hz. cbn [runcmd wires]. rewrite prog_bind_assoc. apply ob_fork1; [stderr| |].
  - rewrite prog_bind_assoc. by apply IHl.
  - rewrite pid_eqb0. cbn [prog_bind]. rewrite prog_bind_assoc. apply ob_wait.
    rewrite prog_bind_assoc. by apply IHr.
Qed.

Lemma means_back c : means c -> means (BACK c).
Proof.
  intros IH w nf ns x y z f Hz. cbn [runcmd wires]. rewrite prog_bind_assoc, <- (app_nil_r (wires _ _ _ _ _)).
  apply ob_fork1; [stderr|rewrite prog_bind_assoc; by apply IH|]. rewrite pid_eqb0. apply ob_exit.
Qed.

Lemma means_pipe l r : means l -> means r -> means (PIPE l r).
Proof.
  intros IHl IHr w nf ns x y z f Hz. cbn [runcmd wires]. rewrite prog_bind_assoc.
  apply ob_pipe; [|apply ob_fprintf; [stderr|done]]. cbn beta iota. change (0 <? 0) with false. cbn iota.
  rewrite prog_bind_assoc. apply ob_fork1; [stderr| |].
  - rewrite prog_bind_assoc. apply (ob_side 1 (F_pipew (w, ns))); [by right|]. by apply IHl.
  - rewrite pid_eqb0. cbn [prog_bind]. rewrite prog_bind_assoc, <- (app_nil_r (wires r _ _ _ _)).
    apply ob_fork1; [stderr| |].
    + rewrite prog_bind_assoc. apply (ob_side 0 (F_piper (w, ns))); [by left|]. by apply IHr.
    + rewrite pid_eqb0. cbn [prog_bind]. rewrite prog_bind_assoc. unfold with_pipe.
      eapply ob_close; [reflexivity|]. rewrite prog_bind_assoc. eapply ob_close; [reflexivity|].
      rewrite prog_bind_assoc. apply ob_wait. rewrite prog_bind_assoc. apply ob_wait, ob_exit.
Qed.

Lemma runcmd_means c : redirs_ok c -> means c.
Proof.
  induction c as [argv|c IH file mode fd|l IHl r IHr|l IHl r IHr|c IH]; cbn; intros Hok.
  - apply means_exec.
  - destruct Hok. apply means_redir; auto.
  - destruct Hok. apply means_pipe; auto.
  - destruct Hok. apply means_list; auto.
  - apply means_back; auto.
Qed.

Lemma runcmd_inv c x y z fs inp : redirs_ok c -> (calm = true -> z = F_console) ->
  exists N, inv (wires c [] 0 0 (three x y z)) true N (start (runcmd c) (three x y z) fs inp).
Proof.
  intros Hok Hz. destruct (runcmd_means c Hok [] 0%nat 0%nat x y z Ret Hz) as [n Hn]. rewrite prog_bind_ret in Hn.
  exists n, [(wires c [] 0 0 (three x y z), n)]. unfold todo, cost. cbn. rewrite app_nil_r.
  split_and!; [by constructor|done|done|lia].
Qed.

(** *** Someone can always go on *)

Lemma longest (l : list (name * pst)) : l <> [] ->
  exists i w p, l !! i = Some (w, p) /\ forall w' p', (w', p') ∈ l -> (length w' <= length w)%nat.
Proof.
  induction l as [|[w p] l IH]; [done|]. intros _. destruct (decide (l = [])) as [-> |Hl].
  - exists 0%nat, w, p. split; [done|]. intros w' p' Hin%list_elem_of_singleton. by simplify_eq.
  - destruct (IH Hl) as (i & w1 & p1 & Hi & Hmax). destruct (decide (length w <= length w1)%nat).
    + exists (S i), w1, p1. split; [done|]. intros w' p' [E|Hin]%elem_of_cons; [by simplify_eq|eauto].
    + exists 0%nat, w, p. split; [done|]. intros w' p' [E|Hin]%elem_of_cons; [by simplify_eq|].
      apply Hmax in Hin. lia.
Qed.

Lemma calm_step W e N s : calm = true -> inv W e N s -> pool s <> [] -> exists f i s', step f i s = Some s'.
Proof.
  intros Hc (obs & Hok & _) Hne. destruct (longest _ Hne) as (i & w & p & Hi & Hmax).
  destruct (Forall2_lookup_l _ _ _ _ _ Hok Hi) as ([L n] & _ & Ho). unfold entry_ok in Ho. cbn [fst snd] in Ho.
  unfold step. destruct p as [pr t nf ns]. cbn [prg tab nfork nsid] in *.
  destruct pr as [u|st|c k|]; [| | |destruct Ho; congruence].
  1, 2: exists false, i; rewrite Hi; by eexists.
  destruct c; cbn [obl] in Ho.
  (* calls that may fail can at least do that *)
  3, 8, 9: exists true, i; rewrite Hi; by eexists.
  all: exists false, i; rewrite Hi; cbn [prg tab].
  1, 6, 7, 8, 10, 11, 12, 14, 15: by eexists.
  - destruct (List.find (is_child w) (zombies s)); [by eexists|].
    destruct (existsb (fun q => is_child w q.1) (pool s)) eqn:Ex; [|by eexists]. exfalso.
    apply existsb_exists in Ex as ([w' p'] & Hin & Hch). apply bool_decide_eq_true in Hch as [Hl _]. cbn in Hl.
    apply list_elem_of_In in Hin. apply Hmax in Hin. lia.
  - destruct Ho as (n' & _ & Hg & _). rewrite (Hg Hc). by eexists.
  - destruct Ho as (n' & _ & Hf & _). congruence.
  - destruct (get_fd t fd); by eexists.
  - destruct (get_fd t fd); by eexists.
  - destruct (get_fd t fd ≫= _) as [[fd' t']|]; by eexists.
Qed.

End Pool.

(** Every program of a command has the descriptors 0, 1 and 2 open, and no others. *)
Lemma wires_three c : redirs_ok c -> forall w nf ns x y z,
  Forall (fun e : started => exists x' y', e.2 = three x' y' z) (wires c w nf ns (three x y z)).
Proof.
  induction c as [argv|c IH file mode fd|l IHl r IHr|l IHl r IHr|c IH]; intros Hok w nf ns x y z; cbn in *.
  - destruct argv; [done|]. apply Forall_singleton. by exists x, y.
  - destruct Hok as [[-> | ->] Hok]; by apply IH.
  - destruct Hok. apply Forall_app. split; [by apply IHl|by apply IHr].
  - destruct Hok. apply Forall_app. split; [by apply IHl|by apply IHr].
  - by apply IH.
Qed.

(** *** What the parser makes *)

Definition good (r : presult cmd) : Prop := match r with Parsed c _ => redirs_ok c | _ => True end.

Lemma good_bind {A} (r : presult A) (f : A -> list Z -> presult cmd) : (forall a s, good (f a s)) -> good (pbind r f).
Proof. by destruct r; cbn. Qed.

Lemma good_bind_cmd (r : presult cmd) (f : cmd -> list Z -> presult cmd) :
  good r -> (forall c s, redirs_ok c -> good (f c s)) -> good (pbind r f).
Proof. destruct r; cbn; auto. Qed.

Lemma wrap_ok rs c : redirs_ok c -> redirs_ok (wrap c rs).
Proof.
  revert c; induction rs as [|[r w] rs IH]; intros c Hc; [done|]. cbn. apply IH.
  destruct r; cbn; auto.
Qed.

Lemma parseargs_good fuel argv rs s : good (parseargs fuel argv rs s).
Proof.
  revert argv rs s; induction fuel as [|fuel IH]; intros argv rs s; [done|]. cbn [parseargs].
  destruct (peek s _) as [b s1]. destruct b; [by apply wrap_ok|]. destruct (gettoken s1) as [[tok w] s2].
  destruct (tok =? 0); [by apply wrap_ok|]. destruct (negb _); [done|]. destruct (_ <=? _); [done|].
  apply good_bind. intros. apply IH.
Qed.

Lemma parsebacks_good fuel c s : redirs_ok c -> good (parsebacks fuel c s).
Proof.
  revert c s; induction fuel as [|fuel IH]; intros c s Hc; [done|]. cbn [parsebacks].
  destruct (peek s _) as [[] s1]; [|done]. destruct (gettoken s1) as [[tok w] s2]. by apply IH.
Qed.

Lemma parseexec_good line s : (forall s, good (line s)) -> good (parseexec line s).
Proof.
  intros Hl. unfold parseexec, parseblock. destruct (peek s _) as [[] s1].
  - destruct (peek s1 _) as [[] s2]; [|done]. cbn [negb]. destruct (gettoken s2) as [[tok w] s3].
    apply good_bind_cmd; [done|]. intros c s4 Hc. destruct (peek s4 _) as [[] s5]; [|done]. cbn [negb].
    destruct (gettoken s5) as [[tok' w'] s6]. apply good_bind. intros rs s7. by apply wrap_ok.
  - apply good_bind. intros. apply parseargs_good.
Qed.

Lemma parsepipe_good fuel line s : (forall s, good (line s)) -> good (parsepipe fuel line s).
Proof.
  intros Hl. revert s; induction fuel as [|fuel IH]; intros s; [done|]. cbn [parsepipe].
  apply good_bind_cmd; [by apply parseexec_good|]. intros c s1 Hc. destruct (peek s1 _) as [[] s2]; [|done].
  destruct (gettoken s2) as [[tok w] s3]. apply good_bind_cmd; [done|]. intros c' s4 Hc'. by split.
Qed.

Lemma parseline_good fuel s : good (parseline fuel s).
Proof.
  revert s; induction fuel as [|fuel IH]; intros s; [done|]. cbn [parseline].
  apply good_bind_cmd; [by apply parsepipe_good|]. intros c s1 Hc.
  apply good_bind_cmd; [by apply parsebacks_good|]. intros c1 s2 Hc1.
  destruct (peek s2 _) as [[] s3]; [|done]. destruct (gettoken s3) as [[tok w] s4].
  apply good_bind_cmd; [done|]. intros c' s5 Hc'. by split.
Qed.

Lemma parsecmd_redirs_ok s c rest : parsecmd s = Parsed c rest -> redirs_ok c.
Proof.
  unfold parsecmd. intros E. pose proof (parseline_good (S (length s)) s) as Hg.
  destruct (parseline (S (length s)) s) as [c' s'| | |]; cbn [pbind] in E; [|done..].
  destruct (peek s' []) as [b s1]. destruct (bool_decide (s1 = [])); [|done]. by simplify_eq.
Qed.

(** ** Properties *)

(** C9: running a line that parses, in every interleaving of its processes and whatever fails.
    The programs on the disk are assumed to make a bounded number of calls and to start no
    other program ([plain_images]; so the line runs neither sh nor xargs).  Then the
    processes of the command, shells and programs together, make a bounded number of
    calls; the programs started are among those the command means ([wires]: the two
    sides of a pipe share the pipe, redirections replace one descriptor), each at most
    once; at its start each of them has the descriptors 0, 1 and 2 open and no others,
    so it holds no end of a pipe but those it was wired to (of the shell processes
    that wait for it the theorem says nothing); when nothing failed and all the processes
    have ended, exactly the programs of the command were started.  If moreover the
    programs do not wait for anything but their children ([calm]), some process can
    always go on, so the command ends. *)
Theorem runcmd_wires `{System} (size : bytes -> list bytes -> nat) (calm : bool) (line rest : bytes) (c : cmd) (x y z : fobj)
    (fs : gmap bytes bytes) (inp : bytes) :
  (forall w, 0 < pid_of w) -> plain_images size calm -> (calm = true -> z = F_console) ->
  parsecmd line = Parsed c rest ->
  let W := wires c [] 0 0 (three x y z) in
  Forall (fun e : started => exists x' y', e.2 = three x' y' z) W /\
  exists N, forall sched s, run sched (start (run_line line) (three x y z) fs inp) = Some s ->
    (length sched <= N)%nat /\ execs s ⊆+ W /\
    (forallb (fun a => negb a.1) sched = true -> pool s = [] -> execs s ≡ₚ W) /\
    (calm = true -> pool s <> [] -> exists f i s', step f i s = Some s').
Proof.
  intros Hpid Himg Hz Hc W. pose proof (parsecmd_redirs_ok line c rest Hc) as Hok.
  unfold run_line. rewrite Hc. split; [by apply wires_three|].
  destruct (runcmd_inv size calm Hpid c x y z fs inp Hok Hz) as [N Hinv]. exists N. intros sched s Hr.
  destruct (pool_inv_run size calm _ sched true N _ s Himg Hinv Hr) as (Hl & N' & Hi). split; [done|].
  pose proof Hi as (obs & Hp & Hsub & Hall & _). split_and!.
  - etrans; [|exact Hsub]. apply submseteq_inserts_r. done.
  - intros Hs E. rewrite E in Hp. apply Forall2_nil_inv_l in Hp as ->. unfold todo in Hall. cbn in Hall.
    rewrite app_nil_r in Hall. by apply Hall.
  - intros Hcalm Hne. by eapply calm_step.
Qed.

(** *** a < f | (b ; c) *)

Definition ex_pipeline : cmd :=
  PIPE (redircmd (EXEC [[97]]) [102] R_in) (LIST (EXEC [[98]; [120]]) (EXEC [[99]])).

(** The programs exit at once. *)
Definition ex_system : System := {|
  image := fun path _ => if bool_decide (length path = 1%nat) then Some (Exit 0) else None;
  pid_of := fun w => 1 + Z.of_nat (sum_list w);
  answer := fun _ => 0;
  stat_of := fun _ => mk_ustat 0 0 0
|}.

(** The schedule of [round_robin]. *)
Fixpoint robin `{System} (fuel i : nat) (s : conf) : list (bool * nat) :=
  match fuel with
  | O => []
  | S fuel =>
    let j := if (i <? length (pool s))%nat then i else O in
    match step false j s with
    | Some s => (false, j) :: robin fuel (S j) s
    | None => robin fuel (S j) s
    end
  end.

Definition ex_line : bytes := lit "a < f | (b x ; c)".
Definition ex_start : conf := start (run_line ex_line) (three F_console F_console F_console) {[ [102] := [1; 2] ]} [].
Definition ex_sched : list (bool * nat) := Eval vm_compute in @robin ex_system 100 0 ex_start.
Definition ex_end : option conf := Eval vm_compute in @run ex_system ex_sched ex_start.

Lemma ex_run : @run ex_system ex_sched ex_start = ex_end.
Proof. vm_compute. reflexivity. Qed.

Lemma runcmd_wires_witness : exists s, @run ex_system ex_sched ex_start = Some s /\
  execs s ≡ₚ
    [([0%nat], [[97]], three (F_file [102] 0 ([0%nat], 0%nat)) (F_pipew ([], 0%nat)) F_console);
     ([1%nat; 0%nat], [[98]; [120]], three (F_piper ([], 0%nat)) F_console F_console);
     ([1%nat], [[99]], three (F_piper ([], 0%nat)) F_console F_console)].
Proof.
  destruct (@runcmd_wires ex_system (fun _ _ => 1%nat) true ex_line [] ex_pipeline F_console F_console F_console
    {[ [102] := [1; 2] ]} []) as (_ & N & HN).
  - intros w. cbn. lia.
  - intros path argv q. cbn. destruct (bool_decide _); [|discriminate]. intros [= <-] w nf ns t. cbn. split; [reflexivity|lia].
  - intros _. reflexivity.
  - vm_compute. reflexivity.
  - pose proof ex_run as Hr. unfold ex_end in Hr. eexists. split; [exact Hr|].
    destruct (HN _ _ Hr) as (_ & _ & Hex & _). apply Hex; reflexivity.
Defined.
