(* ===== verification/Filters.v ===== *)
(** * What cat, wc and grep print

    Runs of one process that reads files and writes to the console: the other
    processes, if any, do not matter to it.  [does] is a run of a part of its program;
    the theorems are about the whole programs, from their start to their exit. *)

From stdpp Require Import gmap list strings.
From Stdlib Require Import ZArith Lia FunctionalExtensionality.
From S2P Require Import Prelude Machine Console Inode Grep Ulib Unix Tools Shell Sh.
Open Scope Z_scope.

Section Alone.
Context `{System} (w : name) (nf : nat).

(** The state of the process and of the system, but for its program. *)
Record ustate := mk_ustate { u_tab : fdtab; u_ns : nat; u_conf : conf }.

Definition with_prog (p : prog unit) (u : ustate) : conf :=
  set_pool [(w, mk_pst p (u_tab u) nf (u_ns u))] (u_conf u).

(** Running [p] from [u] gives [a] and leads to [u']. *)
Definition does {A} (p : prog A) (u : ustate) (a : A) (u' : ustate) : Prop :=
  forall k, exists n, run (replicate n (false, O)) (with_prog (prog_bind p k) u) = Some (with_prog (k a) u').

Lemma run_app sched1 sched2 s s1 : run sched1 s = Some s1 -> run (sched1 ++ sched2) s = run sched2 s1.
Proof.
  revert s; induction sched1 as [|[f i] sched1 IH]; intros s E; cbn in *; [by simplify_eq|].
  destruct (step f i s); [by apply IH|done].
Qed.

Lemma does_ret {A} (a : A) u : does (Ret a) u a u.
Proof. intros k. by exists O. Qed.

Lemma does_bind {A B} (p : prog A) (f : A -> prog B) u a u1 b u2 :
  does p u a u1 -> does (f a) u1 b u2 -> does (prog_bind p f) u b u2.
Proof.
  intros Hp Hf k. rewrite prog_bind_assoc. destruct (Hp (fun a => prog_bind (f a) k)) as [n1 H1].
  destruct (Hf k) as [n2 H2]. exists (n1 + n2)%nat. rewrite replicate_add. by rewrite (run_app _ _ _ _ H1).
Qed.

Lemma does_loop_next {X R} fuel (body : X -> prog (X + R)) x x' r u u1 u2 :
  does (body x) u (inl x') u1 -> does (loop fuel body x') u1 r u2 -> does (loop (S fuel) body x) u r u2.
Proof. intros Hb Hl. by eapply does_bind. Qed.

Lemma does_loop_end {X R} fuel (body : X -> prog (X + R)) x r u u1 :
  does (body x) u (inr r) u1 -> does (loop (S fuel) body x) u r u1.
Proof. intros Hb. eapply does_bind; [exact Hb|apply does_ret]. Qed.

(** A call that takes one step. *)
Lemma does_sys c u r u' :
  (forall k, step false O (with_prog (Sys c k) u) = Some (with_prog (k r) u')) -> does (sys c) u r u'.
Proof. intros Hs k. exists 1%nat. cbn [replicate run sys prog_bind]. by rewrite Hs. Qed.

Lemma does_write fd b t ns s : get_fd t fd = Some F_console ->
  does (sys (Sys_write fd b)) (mk_ustate t ns s) (Z.of_nat (length b)) (mk_ustate t ns (record (E_write w F_console b) s)).
Proof. intros Hg. apply does_sys. intros k. cbn -[get_fd]. by rewrite Hg. Qed.

Definition rest_of (s : conf) (path : bytes) (f : sid) : bytes :=
  drop (default O (offs s !! f)) (default [] (files s !! path)).

Lemma does_read fd n path f t ns s : get_fd t fd = Some (F_file path 0 f) ->
  let l := take (Z.to_nat n) (rest_of s path f) in
  exists s', does (sys (Sys_read fd n)) (mk_ustate t ns s) (Z.of_nat (length l), l) (mk_ustate t ns s') /\
    files s' = files s /\ events s' = events s /\ rest_of s' path f = drop (Z.to_nat n) (rest_of s path f).
Proof.
  intros Hg l. exists (set_offs (<[f := (default O (offs s !! f) + length l)%nat]> (offs s)) s). split_and!; [|done|done|].
  - apply does_sys. intros k. cbn -[get_fd Z.to_nat take drop]. by rewrite Hg.
  - unfold rest_of. cbn. rewrite lookup_insert_eq. cbn. rewrite <- drop_drop. fold (rest_of s path f). unfold l.
    rewrite length_take. destruct (decide (Z.to_nat n <= length (rest_of s path f))%nat).
    + f_equal. lia.
    + rewrite !drop_ge by lia. done.
Qed.

Lemma does_open path t ns s fd t' b : path <> console_path -> files s !! path = Some b ->
  fdalloc (F_file path 0 (w, ns)) t = Some (fd, t') ->
  exists s', does (sys (Sys_open path 0)) (mk_ustate t ns s) fd (mk_ustate t' (S ns) s') /\
    files s' = files s /\ events s' = events s /\ rest_of s' path (w, ns) = b.
Proof.
  intros Hp Hb Ha. exists (set_offs (<[(w, ns) := O]> (offs s)) s). split_and!; [|done|done|].
  - apply does_sys. intros k. cbn -[fdalloc do_open open_obj]. unfold do_open, open_obj.
    rewrite bool_decide_eq_false_2 by done. cbn -[fdalloc]. rewrite Hb, Ha. done.
  - unfold rest_of. cbn. by rewrite lookup_insert_eq, Hb.
Qed.

Lemma does_close fd o t ns s : get_fd t fd = Some o ->
  does (sys_ (Sys_close fd)) (mk_ustate t ns s) tt (mk_ustate (<[Z.to_nat fd := None]> t) ns s).
Proof.
  intros Hg. eapply does_bind; [|apply does_ret]. apply does_sys. intros k. cbn -[get_fd]. rewrite Hg. done.
Qed.

(** The bytes written to the console, one by one or at once. *)
Lemma console_out_record b s : console_out (record (E_write w F_console b) s) = console_out s ++ b.
Proof. unfold console_out, record. cbn. rewrite concat_app. cbn. by rewrite app_nil_r. Qed.

Lemma does_puts fd out t ns s : get_fd t fd = Some F_console -> Forall is_byte out ->
  exists s', does (all out (putc fd)) (mk_ustate t ns s) tt (mk_ustate t ns s') /\
    files s' = files s /\ offs s' = offs s /\ console_out s' = console_out s ++ out.
Proof.
  intros Hg Ho. revert s; induction Ho as [|c out Hc Ho IH]; intros s; cbn [all].
  - exists s. split_and!; [apply does_ret|done|done|by rewrite app_nil_r].
  - destruct (IH (record (E_write w F_console [u8 c]) s)) as (s' & Hd & Hf & Hof & Hout).
    exists s'. split_and!; [|done|done|].
    + eapply does_bind; [|exact Hd]. eapply does_bind; [by apply does_write|apply does_ret].
    + rewrite Hout, console_out_record, <- app_assoc. cbn. unfold u8. by rewrite Z.mod_small by (unfold is_byte in Hc; lia).
Qed.

(** A process that exits. *)
Lemma does_exit {A} (p : prog A) u a u' st : does p u a u' ->
  exists n s, run (replicate n (false, O)) (with_prog (prog_bind p (fun _ => Exit st)) u) = Some s /\
    pool s = [] /\ events s = events (u_conf u').
Proof.
  intros Hd. destruct (Hd (fun _ => Exit st)) as [n Hn]. exists (n + 1)%nat. eexists. split_and!.
  - rewrite replicate_add, (run_app _ _ _ _ Hn). cbn. reflexivity.
  - done.
  - done.
Qed.

(** *** A program that does the same for each of its files *)

(** [act] reads the rest of the file [a] from [fd] and prints [out a] of it. *)
Definition prints (act : bytes -> Z -> prog unit) (out : bytes -> bytes -> bytes) (fits : bytes -> Prop) : Prop :=
  forall a fd f t ns s, Forall is_byte a -> get_fd t fd = Some (F_file a 0 f) -> get_fd t 1 = Some F_console ->
    fits (rest_of s a f) ->
    exists s', does (act a fd) (mk_ustate t ns s) tt (mk_ustate t ns s') /\
      files s' = files s /\ console_out s' = console_out s ++ out a (rest_of s a f).

Lemma console_out_events s s' : events s' = events s -> console_out s' = console_out s.
Proof. unfold console_out. by intros ->. Qed.

Lemma does_files act out fits err names fs ns s : prints act out fits -> files s = fs ->
  Forall (fun a => Forall is_byte a /\ a <> console_path /\ exists b, fs !! a = Some b /\ fits b) names ->
  exists ns' s', does (all names (fun a =>
      do fd <- sys (Sys_open a 0) ;;
      if fd <? 0 then err a else act a fd >> sys_ (Sys_close fd)))
    (mk_ustate std_tab ns s) tt (mk_ustate std_tab ns' s') /\
    console_out s' = console_out s ++ concat ((fun a => out a (default [] (fs !! a))) <$> names).
Proof.
  intros Hact Hfs Hn. revert ns s Hfs; induction Hn as [|a names (Ha & Hc & b & Hb & Hl) Hn IH]; intros ns s Hfs; cbn [all].
  - exists ns, s. split; [apply does_ret|]. cbn. by rewrite app_nil_r.
  - destruct (does_open a std_tab ns s 3 _ b Hc ltac:(by rewrite Hfs) eq_refl) as (s1 & D1 & F1 & E1 & R1).
    destruct (Hact a 3 (w, ns) (<[3%nat := Some (F_file a 0 (w, ns))]> std_tab) (S ns) s1) as (s2 & D2 & F2 & O2);
      [done|reflexivity|reflexivity|by rewrite R1|].
    destruct (IH (S ns) s2) as (ns' & s' & D3 & O3); [congruence|].
    exists ns', s'. split.
    + eapply does_bind; [|exact D3]. eapply does_bind; [exact D1|]. cbn [Z.ltb Z.compare].
      eapply does_bind; [exact D2|]. by eapply does_close.
    + rewrite O3, O2, R1, (console_out_events _ _ E1), <- app_assoc. cbn. by rewrite Hb.
Qed.

(** ** cat *)

Lemma take_pos {A} n (l : list A) : (0 < n)%nat -> (Z.of_nat (length (take n l)) >? 0) = negb (bool_decide (length l = 0%nat)).
Proof.
  intros Hn. rewrite length_take, Z.gtb_ltb. case_bool_decide; cbn [negb]; [apply Z.ltb_ge|apply Z.ltb_lt]; lia.
Qed.

Lemma prints_cat fuel : prints (fun _ fd => cat fuel fd) (fun _ b => b) (fun b => length b < fuel)%nat.
Proof.
  unfold prints, cat. induction fuel as [|fuel IH]; intros a fd f t ns s Ha Hfd H1 Hl; [lia|].
  destruct (does_read fd 512 a f t ns s Hfd) as (s1 & D1 & F1 & E1 & R1).
  set (l := take (Z.to_nat 512) (rest_of s a f)) in *. pose proof (console_out_events _ _ E1) as C1.
  destruct (decide (length (rest_of s a f) = 0%nat)) as [Hz|Hz].
  - exists s1. split_and!; [|done|rewrite C1; apply nil_length_inv in Hz; by rewrite Hz, app_nil_r].
    apply does_loop_end. eapply does_bind; [exact D1|]. cbn beta iota.
    assert (l = []) as ->. { apply nil_length_inv in Hz. unfold l. by rewrite Hz. } apply does_ret.
  - destruct (IH a fd f t ns (record (E_write w F_console l) s1)) as (s' & D2 & F2 & C2); [done|done|done| |].
    { change (rest_of (record _ s1) a f) with (rest_of s1 a f). rewrite R1, length_drop. lia. }
    exists s'. split_and!; [|by rewrite F2|].
    + eapply does_loop_next; [|exact D2]. eapply does_bind; [exact D1|]. cbn beta iota.
      unfold l. rewrite take_pos, bool_decide_eq_false_2 by (done || lia). cbn [negb]. fold l.
      rewrite Nat2Z.id, (take_ge l) by lia. eapply does_bind; [by apply does_write|].
      rewrite Z.eqb_refl. apply does_ret.
    + rewrite C2, console_out_record, C1, <- app_assoc. f_equal.
      change (rest_of (record _ s1) a f) with (rest_of s1 a f). rewrite R1. apply take_drop.
Qed.

(** ** wc *)

Definition is_space (c : Z) : bool := existsb (fun x => x =? c) wc_space.

Definition lines (b : bytes) : nat := length (filter (fun c => c = 10) b).

(** A word starts at a character that is no space after one that is, or at the
    beginning. *)
Definition words (b : bytes) : nat :=
  length (filter (fun x => is_space x.1 && negb (is_space x.2)) (zip (32 :: b) b)).

Lemma strchr_space c : strchr wc_space c = None <-> is_space c = false.
Proof.
  unfold is_space, wc_space. cbn -[Z.eqb]. change (32 =? 0) with false. change (13 =? 0) with false.
  change (9 =? 0) with false. change (10 =? 0) with false. change (11 =? 0) with false.
  repeat match goal with |- context [?a =? c] => destruct (a =? c) end; cbv; split; congruence.
Qed.

Lemma zip_snoc x (b : bytes) c : zip (x :: b ++ [c]) (b ++ [c]) = zip (x :: b) b ++ [(default x (last b), c)].
Proof.
  revert x; induction b as [|y b IH]; intros x; [done|].
  change (zip (x :: (y :: b) ++ [c]) ((y :: b) ++ [c])) with ((x, y) :: zip (y :: b ++ [c]) (b ++ [c])).
  rewrite IH, last_cons. cbn. by destruct (last b).
Qed.

Lemma words_snoc b c : words (b ++ [c]) =
  (words b + if is_space (default 32%Z (last b)) && negb (is_space c) then 1 else 0)%nat.
Proof.
  unfold words. change (32 :: b ++ [c]) with (32 :: (b ++ [c])). rewrite zip_snoc, filter_app, length_app. f_equal.
  rewrite filter_cons, filter_nil. cbn [fst snd].
  destruct (is_space (default 32 (last b)) && negb (is_space c)); by case_decide.
Qed.

Lemma lines_snoc b c : lines (b ++ [c]) = (lines b + if (c =? 10)%Z then 1 else 0)%nat.
Proof. unfold lines. rewrite filter_app, length_app. f_equal. cbn. destruct (Z.eqb_spec c 10); by case_decide. Qed.

Lemma words_le b : (words b <= length b)%nat.
Proof. unfold words. etrans; [apply length_filter|]. rewrite length_zip_with. lia. Qed.

Lemma lines_le b : (lines b <= length b)%nat.
Proof. apply length_filter. Qed.

(** The counters after [b]. *)
Definition counts_of (b : bytes) : counts :=
  mk_counts (Z.of_nat (lines b)) (Z.of_nat (words b)) (Z.of_nat (length b)) (negb (is_space (default 32 (last b)))).

Lemma wc_byte_snoc b c : Z.of_nat (length b) + 1 < 2 ^ 31 -> wc_byte (counts_of b) c = counts_of (b ++ [c]).
Proof.
  intros Hl. pose proof (words_le b). pose proof (lines_le b). unfold wc_byte, counts_of. cbn [ct_l ct_w ct_c ct_in].
  rewrite words_snoc, lines_snoc, last_snoc, length_app, !Nat2Z.inj_add. change (default 32 (Some c)) with c. cbn [length].
  destruct (is_space c) eqn:Ec.
  - destruct (strchr wc_space c) eqn:Es; [|apply strchr_space in Es; congruence].
    rewrite andb_false_r. destruct (c =? 10); cbn [ct_l ct_w ct_c ct_in negb]; rewrite !i32_id by lia; f_equal; lia.
  - rewrite (proj2 (strchr_space c) Ec). cbn [negb]. rewrite andb_true_r.
    destruct (is_space (default 32 (last b))), (c =? 10); cbn [ct_l ct_w ct_c ct_in negb];
      rewrite !i32_id by lia; f_equal; lia.
Qed.

Lemma wc_fold b c : Z.of_nat (length (b ++ c)) < 2 ^ 31 -> fold_left wc_byte c (counts_of b) = counts_of (b ++ c).
Proof.
  revert b; induction c as [|x c IH]; intros b Hl; cbn; [by rewrite app_nil_r|].
  rewrite length_app in Hl. cbn in Hl. rewrite wc_byte_snoc by lia. rewrite IH; [by rewrite <- app_assoc|].
  rewrite <- app_assoc, length_app. cbn. lia.
Qed.

(** What wc prints for a file. *)
Definition wc_line (nm b : bytes) : bytes :=
  Uprintf.printint (Z.of_nat (lines b)) 10 true ++ [32] ++ Uprintf.printint (Z.of_nat (words b)) 10 true ++ [32] ++
  Uprintf.printint (Z.of_nat (length b)) 10 true ++ [32] ++ nm ++ [10].

Lemma printint_bytes x sgn : Forall is_byte (Uprintf.printint x 10 sgn).
Proof.
  unfold Uprintf.printint. apply Forall_rev, Forall_app. split.
  - generalize (if sgn && (x <? 0) then u32 (- x) else u32 x). generalize 32%nat.
    intros fuel; induction fuel as [|fuel IH]; intros y; [done|]. cbn [Uprintf.digits_of]. constructor.
    + pose proof (Z.mod_pos_bound y 10 ltac:(lia)). rewrite digit_char by lia. unfold is_byte. lia.
    + destruct (y / 10 =? 0); [done|apply IH].
  - destruct (sgn && (x <? 0)); repeat constructor; unfold is_byte; lia.
Qed.

Lemma wc_line_bytes nm b : Forall is_byte nm -> Forall is_byte (wc_line nm b).
Proof.
  intros Hn. unfold wc_line. rewrite !Forall_app. repeat split; try apply printint_bytes; try done;
    (apply Forall_singleton; unfold is_byte; lia).
Qed.

Lemma does_wc_loop fuel fd a f t ns s pre : get_fd t fd = Some (F_file a 0 f) ->
  (length (rest_of s a f) < fuel)%nat -> Z.of_nat (length (pre ++ rest_of s a f)) < 2 ^ 31 ->
  exists s', does (loop fuel (fun k =>
      do '(n, buf) <- sys (Sys_read fd 512) ;;
      if n >? 0 then Ret (inl (fold_left wc_byte (take (Z.to_nat n) buf) k))
      else if n <? 0 then printf (endl "wc: read error") [] >> Exit 1
      else Ret (inr k)) (counts_of pre))
    (mk_ustate t ns s) (counts_of (pre ++ rest_of s a f)) (mk_ustate t ns s') /\
    files s' = files s /\ events s' = events s.
Proof.
  intros Hfd. revert s pre; induction fuel as [|fuel IH]; intros s pre Hl Hb; [lia|].
  destruct (does_read fd 512 a f t ns s Hfd) as (s1 & D1 & F1 & E1 & R1).
  set (l := take (Z.to_nat 512) (rest_of s a f)) in *.
  assert (Hpre : (pre ++ l) ++ rest_of s1 a f = pre ++ rest_of s a f).
  { rewrite R1, <- app_assoc. f_equal. apply take_drop. }
  destruct (decide (length (rest_of s a f) = 0%nat)) as [Hz|Hz].
  - apply nil_length_inv in Hz. exists s1. split_and!; [|done|done].
    apply does_loop_end. eapply does_bind; [exact D1|]. cbn beta iota.
    assert (l = []) as -> by (unfold l; by rewrite Hz). rewrite Hz, app_nil_r. apply does_ret.
  - destruct (IH s1 (pre ++ l)) as (s' & D2 & F2 & E2).
    { rewrite R1, length_drop. lia. }
    { by rewrite Hpre. }
    exists s'. split_and!; [|congruence|congruence]. rewrite Hpre in D2.
    eapply does_loop_next; [|exact D2]. eapply does_bind; [exact D1|]. cbn beta iota.
    unfold l. rewrite take_pos, bool_decide_eq_false_2 by (done || lia). cbn [negb]. fold l.
    rewrite Nat2Z.id, (take_ge l) by lia. rewrite wc_fold; [apply does_ret|].
    rewrite <- Hpre, length_app in Hb. lia.
Qed.

Lemma prints_wc fuel :
  prints (fun a fd => wc fuel fd a) wc_line (fun b => (length b < fuel)%nat /\ Z.of_nat (length b) < 2 ^ 31).
Proof.
  intros a fd f t ns s Ha Hfd H1 [Hl Hb].
  destruct (does_wc_loop fuel fd a f t ns s [] Hfd Hl Hb) as (s1 & D1 & F1 & E1). cbn [app] in D1.
  destruct (does_puts 1 (wc_line a (rest_of s a f)) t ns s1 H1 (wc_line_bytes _ _ Ha)) as (s2 & D2 & F2 & _ & C2).
  exists s2. split_and!; [|congruence|by rewrite C2, (console_out_events _ _ E1)].
  unfold wc. eapply does_bind; [exact D1|]. exact D2.
Qed.

(** ** grep *)

Lemma does_grep_writes n pattern p t ns s : get_fd t 1 = Some F_console ->
  exists s', does (grep_writes n pattern p) (mk_ustate t ns s) (grep_lines n pattern p).2 (mk_ustate t ns s') /\
    files s' = files s /\ offs s' = offs s /\ console_out s' = console_out s ++ (grep_lines n pattern p).1.
Proof.
  intros H1. revert p s; induction n as [|n IH]; intros p s; cbn [grep_writes grep_lines].
  { exists s. split_and!; [apply does_ret|done|done|by rewrite app_nil_r]. }
  destruct (strchr p NL) as [q|]; [|exists s; split_and!; [apply does_ret|done|done|by rewrite app_nil_r]].
  set (s1 := if match_ pattern (take q p) then record (E_write w F_console (take (S q) p)) s else s).
  destruct (IH (drop (S q) p) s1) as (s' & D & F & O & C).
  destruct (grep_lines n pattern (drop (S q) p)) as [out rest]. cbn [fst snd] in *. exists s'. split_and!.
  - eapply does_bind; [|exact D]. unfold s1. destruct (match_ pattern (take q p)); [|apply does_ret].
    eapply does_bind; [by apply does_write|apply does_ret].
  - rewrite F. unfold s1. by destruct (match_ _ _).
  - rewrite O. unfold s1. by destruct (match_ _ _).
  - rewrite C, app_assoc. f_equal. unfold s1.
    destruct (match_ _ _); [apply console_out_record|by rewrite app_nil_r].
Qed.

(** The file gives as many bytes as are asked for. *)
Definition want_all (_ : nat) : nat := BUFSIZE.

Lemma read_all i (b rest : bytes) : read (want_all i) (BUFSIZE - length b - 1) rest =
  (take (BUFSIZE - length b - 1) rest, drop (BUFSIZE - length b - 1) rest).
Proof.
  unfold read, want_all. set (n := (BUFSIZE - length b - 1)%nat).
  rewrite (Nat.min_l n) by (unfold n; lia).
  destruct (decide (n <= length rest)%nat); [by rewrite Nat.min_l by done|].
  rewrite Nat.min_r by lia. rewrite !take_ge, !drop_ge by lia. done.
Qed.

Lemma does_grep_loop pattern fd a f t ns fuel fuel' s b : get_fd t fd = Some (F_file a 0 f) ->
  get_fd t 1 = Some F_console -> (length (rest_of s a f) < fuel)%nat -> (length (rest_of s a f) < fuel')%nat ->
  exists s', does (loop fuel (fun b : bytes =>
      do '(n, chunk) <- sys (Sys_read fd (1024 - Z.of_nat (length b) - 1)) ;;
      if n >? 0 then
        let p := b ++ take (Z.to_nat n) chunk in
        do rest <- grep_writes (S (length p)) pattern p ;;
        Ret (inl rest)
      else Ret (inr tt)) b) (mk_ustate t ns s) tt (mk_ustate t ns s') /\
    files s' = files s /\ console_out s' = console_out s ++ grep_loop fuel' want_all pattern b (rest_of s a f).
Proof.
  intros Hfd H1. revert fuel' s b; induction fuel as [|fuel IH]; intros fuel' s b Hl Hl'; [lia|].
  destruct fuel' as [|fuel']; [lia|]. cbn [grep_loop]. rewrite read_all.
  destruct (does_read fd (1024 - Z.of_nat (length b) - 1) a f t ns s Hfd) as (s1 & D1 & F1 & E1 & R1).
  replace (Z.to_nat (1024 - Z.of_nat (length b) - 1)) with (BUFSIZE - length b - 1)%nat in * by (unfold BUFSIZE; lia).
  set (l := take (BUFSIZE - length b - 1) (rest_of s a f)) in *. rewrite <- R1.
  destruct (decide (l = [])) as [El|El].
  - exists s1. rewrite bool_decide_eq_true_2 by done. split_and!; [|done|by rewrite app_nil_r; apply console_out_events].
    apply does_loop_end. eapply does_bind; [exact D1|]. cbn beta iota. rewrite El. apply does_ret.
  - rewrite bool_decide_eq_false_2 by done. assert (Hlen : length l <> 0%nat) by (by intros ?%nil_length_inv).
    destruct (does_grep_writes (S (length (b ++ l))) pattern (b ++ l) t ns s1 H1) as (s2 & D2 & F2 & O2 & C2).
    destruct (grep_lines (S (length (b ++ l))) pattern (b ++ l)) as [out rest] eqn:Eg. cbn [fst snd] in *.
    assert (R2 : rest_of s2 a f = rest_of s1 a f) by (unfold rest_of; by rewrite F2, O2).
    assert (Hlt : (length (rest_of s2 a f) < length (rest_of s a f))%nat).
    { rewrite R2, R1, length_drop. unfold l in Hlen. rewrite length_take in Hlen. lia. }
    destruct (IH fuel' s2 rest) as (s' & D3 & F3 & C3); [lia|lia|]. exists s'. split_and!; [|congruence|].
    + eapply does_loop_next; [|exact D3]. eapply does_bind; [exact D1|]. cbn beta iota zeta.
      rewrite Z.gtb_ltb, (proj2 (Z.ltb_lt _ _)) by lia. rewrite Nat2Z.id, (take_ge l) by lia.
      eapply does_bind; [exact D2|apply does_ret].
    + rewrite C3, C2, R2, (console_out_events _ _ E1), app_assoc. done.
Qed.

Lemma prints_grep fuel pattern :
  prints (fun _ fd => grep_fd fuel pattern fd) (fun _ b => grep want_all pattern b) (fun b => length b < fuel)%nat.
Proof. intros a fd f t ns s _ Hfd H1 Hl. apply does_grep_loop; [done|done|done|lia]. Qed.

End Alone.

(** ** Properties *)

(** The files named are on the disk, and fit. *)
Definition on_disk (fs : gmap bytes bytes) (fits : bytes -> Prop) (names : list bytes) : Prop :=
  names <> [] /\
  Forall (fun a => Forall is_byte a /\ a <> console_path /\ exists b, fs !! a = Some b /\ fits b) names.

(** [p] runs to its end and prints [out]. *)
Definition ends_with `{System} (p : prog unit) (fs : gmap bytes bytes) (inp out : bytes) : Prop :=
  exists n s, run (replicate n (false, O)) (start p std_tab fs inp) = Some s /\ pool s = [] /\ console_out s = out.

Definition contents (fs : gmap bytes bytes) (a : bytes) : bytes := default [] (fs !! a).

Lemma files_end `{System} act out fits err names fs inp :
  prints [] 0 act out fits -> on_disk fs fits names ->
  ends_with (prog_bind (all names (fun a =>
      do fd <- sys (Sys_open a 0) ;;
      if fd <? 0 then err a else act a fd >> sys_ (Sys_close fd))) (fun _ => Exit 0))
    fs inp (concat ((fun a => out a (contents fs a)) <$> names)).
Proof.
  intros Hp [_ Hn]. set (s0 := start (Exit 0) std_tab fs inp).
  destruct (does_files [] 0 act out fits err names fs 0 s0 Hp eq_refl Hn) as (ns' & s' & D & C).
  destruct (does_exit [] 0 _ _ _ _ 0 D) as (n & s & Hr & Hpool & Hev).
  exists n, s. split_and!; [exact Hr|done|]. rewrite (console_out_events _ _ Hev). exact C.
Qed.

(** [cat] of files that exist prints their contents, in the order of the names,
    byte for byte, and exits. *)
Theorem cat_prints `{System} (fuel : nat) (prog0 : bytes) (names : list bytes) (fs : gmap bytes bytes) (inp : bytes) :
  on_disk fs (fun b => length b < fuel)%nat names ->
  ends_with (cat_main fuel (prog0 :: names)) fs inp (concat (contents fs <$> names)).
Proof.
  intros Hn. destruct names as [|a names]; [by destruct Hn|].
  unfold cat_main. rewrite (proj2 (Z.leb_gt _ _)) by (cbn [length]; lia).
  exact (files_end _ _ _ (fun a => fprintf 2 (endl "cat: cannot open %s") [a_str a] >> Exit 1) _ fs inp
    (prints_cat [] 0 fuel) Hn).
Qed.

(** [wc] prints, for each file, the number of its newlines, of its words (maximal runs
    of characters that are not spaces) and of its bytes, whatever the boundaries of the 512-byte
    pieces it reads, as long as the counts fit an [int]. *)
Theorem wc_prints `{System} (fuel : nat) (prog0 : bytes) (names : list bytes) (fs : gmap bytes bytes) (inp : bytes) :
  on_disk fs (fun b => (length b < fuel)%nat /\ Z.of_nat (length b) < 2 ^ 31) names ->
  ends_with (wc_main fuel (prog0 :: names)) fs inp (concat ((fun a => wc_line a (contents fs a)) <$> names)).
Proof.
  intros Hn. destruct names as [|a names]; [by destruct Hn|].
  unfold wc_main. rewrite (proj2 (Z.leb_gt _ _)) by (cbn [length]; lia).
  exact (files_end _ _ _ (fun a => printf (endl "wc: cannot open %s") [a_str a] >> Exit 1) _ fs inp
    (prints_wc [] 0 fuel) Hn).
Qed.

(** the program [grep] prints, for each file in the order of the names, the lines that
    match the expression, each with its newline, if the lines fit its buffer and there
    is no NUL in the files. *)
Theorem grep_prints `{System} (fuel : nat) (prog0 pattern : bytes) (names : list bytes) (fs : gmap bytes bytes) (inp : bytes) :
  on_disk fs (fun b => (length b < fuel)%nat /\ (0 ∉ b) /\ Forall short (fst (split_lines b))) names ->
  ends_with (grep_main fuel (prog0 :: pattern :: names)) fs inp
    (concat ((fun a => select pattern (fst (split_lines (contents fs a)))) <$> names)).
Proof.
  intros Hn. destruct names as [|a names]; [by destruct Hn|].
  refine (files_end (fun _ fd => grep_fd fuel pattern fd) (fun _ b => select pattern (fst (split_lines b))) _
    (fun a => printf (endl "grep: cannot open %s") [a_str a] >> Exit 1) _ fs inp _ Hn).
  intros a' fd f t ns s Ha Hfd H1 (Hl & H0 & Hs). rewrite <- (grep_select want_all) by done.
  by apply (prints_grep [] 0 fuel pattern).
Qed.

(** *** Two files *)

Definition ex_files : gmap bytes bytes := {[ lit "f" := lit "one two  three"; lit "g" := [97; 10; 98; 10] ]}.

Lemma ex_on_disk (fits : bytes -> Prop) : fits (lit "one two  three") -> fits [97; 10; 98; 10] ->
  on_disk ex_files fits [lit "f"; lit "g"].
Proof.
  intros Hf Hg. split; [discriminate|]. repeat constructor; try discriminate.
  - exists (lit "one two  three"). by split.
  - exists [97; 10; 98; 10]. by split.
Qed.

Lemma cat_prints_witness :
  @ends_with ex_system (cat_main 100 [lit "cat"; lit "f"; lit "g"]) ex_files [] (lit "one two  three" ++ [97; 10; 98; 10]).
Proof. apply (cat_prints (H := ex_system) 100 (lit "cat") [lit "f"; lit "g"] ex_files []), ex_on_disk; cbn; lia. Defined.

Lemma wc_prints_witness :
  @ends_with ex_system (wc_main 100 [lit "wc"; lit "f"; lit "g"]) ex_files [] (lit (endl "0 3 14 f") ++ lit (endl "2 2 4 g")).
Proof.
  apply (wc_prints (H := ex_system) 100 (lit "wc") [lit "f"; lit "g"] ex_files []), ex_on_disk; cbn; lia.
Defined.

Lemma grep_prints_witness :
  @ends_with ex_system (grep_main 100 [lit "grep"; lit "a$"; lit "f"; lit "g"]) ex_files [] [97; 10].
Proof.
  apply (grep_prints (H := ex_system) 100 (lit "grep") (lit "a$") [lit "f"; lit "g"] ex_files []), ex_on_disk.
  all: (split; [cbn; lia|split; [by apply (bool_decide_unpack _)|]]).
  all: repeat (apply Forall_cons_2; [unfold short, BUFSIZE; cbn; lia|]); apply Forall_nil_2.
Defined.
