(* ===== verification/Session.v ===== *)
(** * Runs of the user programs

    The programs of [Tools] and the shell of [Sh] on one system, scheduled round robin,
    from their start to the end of all processes. *)

From stdpp Require Import gmap list strings.
From Stdlib Require Import ZArith Lia.
From S2P Require Import Prelude Machine Console Ulib Unix Tools Shell Sh Filters.
Open Scope Z_scope.

(** The programs on the disk, with enough fuel for the files below; [junk] is what their
    uninitialized memory holds. *)
Definition programs (junk : bytes) (path : bytes) (argv : list bytes) : option (prog unit) :=
  let named n := bool_decide (path = lit n) in
  if named "cat" then Some (cat_main 20 argv)
  else if named "echo" then Some (echo_main argv)
  else if named "wc" then Some (wc_main 20 argv)
  else if named "grep" then Some (grep_main 20 argv)
  else if named "ls" then Some (ls_main 20 argv)
  else if named "find" then Some (find_main 20 argv)
  else if named "kill" then Some (kill_main argv)
  else if named "ln" then Some (ln_main argv)
  else if named "mkdir" then Some (mkdir_main argv)
  else if named "rm" then Some (rm_main argv)
  else if named "sleep" then Some (sleep_main argv)
  else if named "zombie" then Some zombie_main
  else if named "pingpong" then Some pingpong_main
  else if named "primes" then Some (primes_main 40 (take 4 junk))
  else if named "xargs" then Some (xargs_main 20 argv junk)
  else if named "sh" then Some (sh_main 20)
  else None.

Definition small_system : System := {|
  image := programs (replicate 1024 0);
  pid_of := fun w => 3 + Z.of_nat (sum_list (S <$> w));
  answer := fun _ => 0;
  stat_of := fun o => match o with
    | F_file path _ _ => if bool_decide (path = lit "." \/ path = lit "./.") then mk_ustat 1 1 48 else mk_ustat 2 7 6
    | _ => mk_ustat 3 2 0
    end
|}.

(** A directory entry. *)
Definition dirent (inum : Z) (nm : bytes) : bytes := le_encode 2 inum ++ nm ++ replicate (14 - length nm) 0.

Definition small_disk : gmap bytes bytes :=
  {[ lit "." := dirent 1 (lit ".") ++ dirent 0 (lit "gone") ++ dirent 7 (lit "notes");
     lit "./." := []; lit "./notes" := lit (endl "hi hi"); lit "notes" := lit (endl "hi hi") ]}.

(** What the console shows when all processes have ended, [None] when some have not. *)
Definition shows (p : prog unit) (inp : bytes) : option bytes :=
  let s := @round_robin small_system (Z.to_nat 20000) 0 (start p std_tab small_disk inp) in
  if bool_decide (length (pool s) = O) then Some (console_out s) else None.

Definition text (l : list string) : bytes := concat ((fun s => lit (endl s)) <$> l).

(** The sieve prints the primes up to 31. *)
Definition prime_b (n : Z) : bool := (2 <=? n) && forallb (fun d => negb (n mod d =? 0)) (seqZ 2 (n - 2)).

Lemma primes_run : shows (primes_main 40 (replicate 4 7)) [] =
  Some (concat ((fun n => lit "prime " ++ Uprintf.printint n 10 true ++ [10]) <$> filter prime_b (seqZ 0 32))).
Proof. vm_compute. reflexivity. Qed.

Lemma pingpong_run : shows pingpong_main [] = Some (text ["4: received ping"; "3: received pong"]).
Proof. vm_compute. reflexivity. Qed.

Lemma ls_run : shows (ls_main 20 [lit "ls"]) [] = Some (text [".              1 1 48"; "notes          2 7 6"]).
Proof. vm_compute. reflexivity. Qed.

Lemma find_run : shows (find_main 20 [lit "find"; lit "."; lit "notes"]) [] = Some (text ["./notes"]).
Proof. vm_compute. reflexivity. Qed.

Lemma sh_run :
  shows (sh_main 20) (text ["echo one two > f"; "cat f notes | grep t | wc"; "nope"; "(echo a ; echo b) | cat"; "ls )"]) =
  Some (lit "$ $ " ++ text ["1 2 8 "] ++ lit "$ " ++ text ["exec nope failed"] ++ lit "$ " ++ text ["a"; "b"] ++
        lit "$ " ++ text ["leftovers: )"; ""; "syntax"] ++ lit "$ ").
Proof. vm_compute. reflexivity. Qed.

(** xargs runs its command on bytes that are not in the line it has read: [buf] is not
    terminated after [read], so after the lines "aaaa" and "c" the buffer holds
    "c", a newline and the end of the first line, and the command is run a third
    time, with the argument "aa". *)
Lemma xargs_stale :
  shows (xargs_main 20 [lit "xargs"; lit "echo"; lit "x"] (replicate 1024 0)) (text ["aaaa"; "c"]) =
  Some (text ["x aaaa"; "x c"; "x aa"]).
Proof. vm_compute. reflexivity. Qed.
