(* ===== verification/Mkfs.v ===== *)
(** * mkfs/mkfs.c: making a disk image

    The image is a map from sector numbers to blocks; a file of the host is its contents.
    [exit(1)] and a failed [assert] are [Panic].  The theorems compare the image with
    an abstract disk, a map from inode numbers to types and contents, read with the
    functions of the kernel's layout: [iappend] appends, [ialloc] adds an empty
    file, and neither touches the other files. *)

From stdpp Require Import gmap list strings.
From Stdlib Require Import ZArith Lia.
From S2P Require Import Prelude Machine State Bytes Bio Log Inode Balloc Content Console.
Open Scope Z_scope.

(** ** The code *)

(* @mkfs/mkfs.c:18-18 NINODES *)
Definition NINODES : Z := 200.
(* @kernel/param.h FSSIZE *)
Definition FSSIZE : Z := 1000.
(* @mkfs/mkfs.c:23-23 nbitmap *)
Definition nbitmap : Z := FSSIZE / (BSIZE * 8) + 1.
(* @mkfs/mkfs.c:24-24 ninodeblocks *)
Definition ninodeblocks : Z := NINODES / IPB + 1.
(* @mkfs/mkfs.c:25-25 nlog *)
Definition nlog : Z := LOGSIZE.

(** The image and the global variables. *)
(* @mkfs/mkfs.c:29-33 freeinode *)
Record mkst := mk_mkst {
  img : gmap Z (list Z);
  msb : superblock;
  freeinode : Z;
  freeblock : Z
}.

#[export] Instance eta_mkst : Eta mkst := fun s => mk_mkst (img s) (msb s) (freeinode s) (freeblock s).
Definition set_img : gmap Z (list Z) -> mkst -> mkst := ltac:(make_setter img).
Definition set_msb : superblock -> mkst -> mkst := ltac:(make_setter msb).
Definition set_freeinode : Z -> mkst -> mkst := ltac:(make_setter freeinode).
Definition set_freeblock : Z -> mkst -> mkst := ltac:(make_setter freeblock).

(** The conversions on a little-endian host: the bytes are put into [y] one by one. *)
(* @mkfs/mkfs.c xshort *)
Definition xshort (x : Z) : Z := le_decode [u8 x; u8 (Z.shiftr x 8)].
(* @mkfs/mkfs.c xint *)
Definition xint (x : Z) : Z := le_decode [u8 x; u8 (Z.shiftr x 8); u8 (Z.shiftr x 16); u8 (Z.shiftr x 24)].

Definition assert (b : bool) : M mkst unit := if b then ret tt else panic "assert".

(** [sec * BSIZE] is computed in 32 bits. *)
Definition sector (sec : Z) : Z := u32 (sec * BSIZE) / BSIZE.

(* @mkfs/mkfs.c wsect *)
Definition wsect (sec : Z) (buf : list Z) : M mkst unit :=
  modify (fun s => set_img (<[sector sec := buf]> (img s)) s).

(* @mkfs/mkfs.c rsect *)
Definition rsect (sec : Z) : M mkst (list Z) :=
  let* b := gets (fun s => img s !! sector sec) in
  match b with
  | Some b => ret b
  | None => panic "read"
  end.

(* @mkfs/mkfs.c winode *)
Definition winode (inum : Z) (ip : dinode) : M mkst unit :=
  let* bn := gets (fun s => IBLOCK inum (msb s)) in
  let* buf := rsect bn in
  wsect bn (put_dinode buf (inum mod IPB) ip).

(* @mkfs/mkfs.c rinode *)
Definition rinode (inum : Z) : M mkst dinode :=
  let* bn := gets (fun s => IBLOCK inum (msb s)) in
  let* buf := rsect bn in
  ret (get_dinode buf (inum mod IPB)).

(* @mkfs/mkfs.c ialloc *)
Definition ialloc (type : Z) : M mkst Z :=
  let* inum := gets freeinode in
  modify (set_freeinode (u32 (inum + 1))) ;;;
  winode inum (mk_dinode (i16 (xshort type)) 0 0 (i16 (xshort 1)) (xint 0) (replicate 13 0)) ;;;
  ret inum.

(* @mkfs/mkfs.c balloc *)
Definition balloc (used : Z) : M mkst unit :=
  assert (used <? BSIZE * 8) ;;;
  let buf := fold_left set_bit (seqZ 0 used) (replicate (Z.to_nat BSIZE) 0) in
  let* bn := gets (fun s => sb_bmapstart (msb s)) in
  wsect bn buf.

(** [freeblock++] *)
Definition next_block : M mkst Z :=
  let* b := gets freeblock in
  modify (set_freeblock (u32 (b + 1))) ;;;
  ret b.

Definition set_addr (k : nat) (a : Z) (di : dinode) : dinode :=
  mk_dinode (di_type di) (di_major di) (di_minor di) (di_nlink di) (di_size di) (<[k := a]> (di_addrs di)).
Definition set_size (n : Z) (di : dinode) : dinode :=
  mk_dinode (di_type di) (di_major di) (di_minor di) (di_nlink di) n (di_addrs di).

(** [din.addrs[k]], allocated if it is 0. *)
(* @mkfs/mkfs.c iappend *)
Definition need_addr (k : nat) (din : dinode) : M mkst dinode :=
  if xint (di_addrs din !!! k) =? 0 then
    let* b := next_block in
    ret (set_addr k (xint b) din)
  else ret din.

(** The entry of the indirect block for [fbn]. *)
(* @mkfs/mkfs.c iappend *)
Definition indirect_entry (din : dinode) (fbn : Z) : M mkst Z :=
  let ib := xint (di_addrs din !!! Z.to_nat NDIRECT) in
  let o := Z.to_nat (4 * (fbn - NDIRECT)) in
  let* indirect := rsect ib in
  let* indirect :=
    (if get32 indirect o =? 0 then
       let* b := next_block in
       let indirect := put32 indirect o (xint b) in
       wsect ib indirect ;;;
       ret indirect
     else ret indirect) in
  ret (xint (get32 indirect o)).

(** The block of the file at [fbn]: [din] and [x]. *)
(* @mkfs/mkfs.c iappend *)
Definition iappend_block (din : dinode) (fbn : Z) : M mkst (dinode * Z) :=
  if fbn <? NDIRECT then
    let* din := need_addr (Z.to_nat fbn) din in
    ret (din, xint (di_addrs din !!! Z.to_nat fbn))
  else
    let* din := need_addr (Z.to_nat NDIRECT) din in
    let* x := indirect_entry din fbn in
    ret (din, x).

(** One round of the loop; the bytes left are [p], [n] of them. *)
(* @mkfs/mkfs.c iappend *)
Definition iappend_step (st : dinode * Z * list Z) : M mkst (dinode * Z * list Z + dinode * Z) :=
  let '(din, off, p) := st in
  if bool_decide (p = []) then ret (inr (din, off))
  else
  let fbn := off / BSIZE in
  assert (fbn <? MAXFILE) ;;;
  let* r := iappend_block din fbn in
  let '(din, x) := r in
  let n1 := Z.min (Z.of_nat (length p)) ((fbn + 1) * BSIZE - off) in
  let* buf := rsect x in
  wsect x (splice buf (Z.to_nat (off - fbn * BSIZE)) (take (Z.to_nat n1) p)) ;;;
  ret (inl (din, u32 (off + n1), drop (Z.to_nat n1) p)).

(* @mkfs/mkfs.c iappend *)
Definition iappend (inum : Z) (p : list Z) : M mkst unit :=
  let* din := rinode inum in
  let* r := iter (S (length p)) iappend_step (din, xint (di_size din), p) in
  let '(din, off) := r in
  winode inum (set_size (xint off) din).

(** *** main *)

(** The bytes of a directory entry; the name is cut to [DIRSIZ] bytes and padded. *)
Definition dirent (inum : Z) (nm : list Z) : list Z :=
  le_encode 2 (xshort inum) ++ take (Z.to_nat DIRSIZ) (nm ++ replicate (Z.to_nat DIRSIZ) 0).

(** [sizeof(sb)] bytes, in a block. *)
Definition super_block (sb : superblock) : list Z :=
  put_addrs (replicate (Z.to_nat BSIZE) 0) 0
    [sb_magic sb; sb_size sb; sb_nblocks sb; sb_ninodes sb; sb_nlog sb; sb_logstart sb; sb_inodestart sb; sb_bmapstart sb].

(** The name in the directory of the file given as [a]: without [user/] and without a
    leading underscore; [None]: the name has a slash. *)
(* @mkfs/mkfs.c:131-151 shortname *)
Definition shortname (a : list Z) : option (list Z) :=
  let nm := if bool_decide (take 5 a = str_bytes "user/") then drop 5 a else a in
  if bool_decide (47 ∈ nm) then None
  else Some (match nm with c :: nm' => if c =? 95 then nm' else nm | [] => nm end).

(** What the calls of [read] return. *)
Fixpoint pieces (fuel : nat) (b : list Z) : list (list Z) :=
  match fuel with
  | O => []
  | S fuel => if bool_decide (b = []) then [] else take (Z.to_nat BSIZE) b :: pieces fuel (drop (Z.to_nat BSIZE) b)
  end.

(** A file of the host: the argument, and its contents if it can be opened. *)
(* @mkfs/mkfs.c:131-164 inum *)
Definition add_file (rootino : Z) (f : list Z * option (list Z)) : M mkst unit :=
  match shortname f.1, f.2 with
  | None, _ => panic "assert"
  | _, None => panic "open"
  | Some nm, Some b =>
    let* inum := ialloc T_FILE in
    iappend rootino (dirent inum nm) ;;;
    for_all (pieces (length b) b) (iappend inum)
  end.

(* @mkfs/mkfs.c:93-112 nmeta *)
Definition mkfs_layout : M mkst unit :=
  let nmeta := 2 + nlog + ninodeblocks + nbitmap in
  let nblocks := FSSIZE - nmeta in
  modify (set_msb (mk_superblock FSMAGIC (xint FSSIZE) (xint nblocks) (xint NINODES) (xint nlog) (xint 2)
    (xint (2 + nlog)) (xint (2 + nlog + ninodeblocks)))) ;;;
  modify (set_freeblock nmeta) ;;;
  for_all (seqZ 0 FSSIZE) (fun i => wsect i (replicate (Z.to_nat BSIZE) 0)).

(* @mkfs/mkfs.c main *)
Definition mkfs (files : list (list Z * option (list Z))) : M mkst unit :=
  mkfs_layout ;;;
  let* sb := gets msb in
  wsect 1 (super_block sb) ;;;
  let* rootino := ialloc T_DIR in
  assert (rootino =? ROOTINO) ;;;
  iappend rootino (dirent rootino (str_bytes ".")) ;;;
  iappend rootino (dirent rootino (str_bytes "..")) ;;;
  for_all files (add_file rootino) ;;;
  let* din := rinode rootino in
  let off := xint (di_size din) in
  let off := u32 ((off / BSIZE + 1) * BSIZE) in
  winode rootino (set_size (xint off) din) ;;;
  let* used := gets freeblock in
  balloc used.

(** The state the program starts with. *)
Definition mkfs_start : mkst := mk_mkst ∅ zero_sb 1 0.

(** ** The image as a set of files *)

Lemma xint_id x : 0 <= x < 2 ^ 32 -> xint x = x.
Proof.
  intros Hx. unfold xint, u8. cbn [le_decode]. rewrite !Z.shiftr_div_pow2 by lia.
  change (2 ^ 8) with 256. change (2 ^ 16) with 65536. change (2 ^ 24) with 16777216. zdm.
Qed.

Lemma xshort_id x : 0 <= x < 2 ^ 16 -> xshort x = x.
Proof. intros Hx. unfold xshort, u8. cbn [le_decode]. rewrite !Z.shiftr_div_pow2 by lia. change (2 ^ 8) with 256. zdm. Qed.

Lemma sector_id b : 0 <= b < FSSIZE -> sector b = b.
Proof. unfold FSSIZE. intros Hb. unfold sector. rewrite u32_id by (unfold BSIZE; lia). apply Z.div_mul. done. Qed.

(** Of a file: the block of the disk that holds it, and which part of it. *)
Abbreviation owner := (Z * option nat)%type.

Definition blk (s : mkst) (b : Z) : list Z := default [] (img s !! b).

(** The address of the [k]-th block of a file, as the kernel finds it. *)
Definition addr_at (s : mkst) (di : dinode) (k : nat) : Z :=
  if (k <? 12)%nat then di_addrs di !!! k else get32 (blk s (di_addrs di !!! 12%nat)) (4 * (k - 12)).

(** The [k]-th kilobyte of [c], filled up with zeros. *)
Definition slice (c : list Z) (k : nat) : list Z := take 1024 (drop (k * 1024) c ++ replicate 1024 0).

(** The first [n] blocks of the file [i] hold [c], and it has an indirect block if [h];
    the other addresses are 0. *)
Record data_ok (s : mkst) (own : gmap Z owner) (i : Z) (di : dinode) (c : list Z) (n : nat) (h : bool) : Prop := {
  d_addrs : length (di_addrs di) = 13%nat /\ Forall (fun a => 0 <= a < 2 ^ 32) (di_addrs di);
  d_max : (n <= 268)%nat /\ ((12 < n)%nat -> h = true);
  d_ind : if h then own !! (di_addrs di !!! 12%nat) = Some (i, None) else di_addrs di !!! 12%nat = 0;
  d_used k : (k < n)%nat -> own !! addr_at s di k = Some (i, Some k) /\ blk s (addr_at s di k) = slice c k;
  d_free k : (n <= k < 12)%nat -> di_addrs di !!! k = 0;
  d_free_ind k : h = true -> (n <= k)%nat -> (12 <= k < 268)%nat -> addr_at s di k = 0
}.

(** The inode [i] on the disk. *)
Definition inode_at (s : mkst) (i : Z) : dinode := get_dinode (blk s (IBLOCK i (msb s))) (i mod IPB).

(** The number of blocks that [len] bytes take, and with the indirect block. *)
Definition nblk (len : nat) : nat := ((len + 1023) / 1024)%nat.
Definition blocks_of (n : nat) : Z := Z.of_nat n + if (12 <? n)%nat then 1 else 0.

(** The super block of every image. *)
Definition the_sb : superblock := mk_superblock FSMAGIC 1000 954 200 30 2 32 45.

(** What does not depend on the files. *)
Record disk_ok (s : mkst) (own : gmap Z owner) : Prop := {
  k_sb : msb s = the_sb;
  k_blocks b : 0 <= b < FSSIZE -> exists d, img s !! b = Some d /\ length d = bsize;
  k_free : 46 <= freeblock s <= FSSIZE;
  k_fresh b : freeblock s <= b < FSSIZE -> img s !! b = Some zero_block;
  k_own b o : own !! b = Some o -> 46 <= b < freeblock s
}.

(** A file of the abstract disk: its type and its contents. *)
Definition file_ok (s : mkst) (own : gmap Z owner) (i : Z) (f : Z * list Z) : Prop :=
  let di := inode_at s i in
  di_type di = f.1 /\ di_major di = 0 /\ di_minor di = 0 /\ di_nlink di = 1 /\
  di_size di = Z.of_nat (length f.2) /\ data_ok s own i di f.2 (nblk (length f.2)) (12 <? nblk (length f.2))%nat.

Record repr (s : mkst) (A : gmap Z (Z * list Z)) (own : gmap Z owner) : Prop := {
  r_disk : disk_ok s own;
  r_inum : 1 <= freeinode s <= NINODES /\ forall i f, A !! i = Some f -> 1 <= i < freeinode s;
  r_files i f : A !! i = Some f -> file_ok s own i f
}.

(** *** Frames *)

Lemma addr_at_same s s' di k : (12 <= k)%nat -> img s' !! (di_addrs di !!! 12%nat) = img s !! (di_addrs di !!! 12%nat) ->
  addr_at s' di k = addr_at s di k.
Proof. intros Hk E. unfold addr_at, blk. by rewrite E. Qed.

Lemma addr_at_direct s s' di k : (k < 12)%nat -> addr_at s' di k = addr_at s di k.
Proof. intros Hk. unfold addr_at. by rewrite (proj2 (Nat.ltb_lt k 12)) by done. Qed.

(** A file depends on its own blocks only. *)
Lemma data_ok_frame s s' own own' i di c n h : own ⊆ own' ->
  (forall b o, own !! b = Some (i, o) -> img s' !! b = img s !! b) ->
  data_ok s own i di c n h -> data_ok s' own' i di c n h.
Proof.
  intros Ho Hs [Ha Hm Hi Hu Hf Hfi].
  assert (E : forall k, (k < 12)%nat \/ h = true -> addr_at s' di k = addr_at s di k).
  { intros k [Hk| ->]; [by apply addr_at_direct|]. destruct (decide (k < 12)%nat); [by apply addr_at_direct|].
    apply addr_at_same; [lia|by eapply Hs]. }
  constructor; [done|done| | |done|].
  - destruct h; [by eapply lookup_weaken|done].
  - intros k Hk. destruct (Hu k Hk) as [H1 H2].
    rewrite E by (destruct (decide (k < 12)%nat); [by left|right; apply Hm; lia]). split; [by eapply lookup_weaken|].
    rewrite <- H2. unfold blk. by rewrite (Hs _ _ H1).
  - intros k -> Hk1 Hk2. rewrite E by auto. by apply Hfi.
Qed.

Lemma disk_ok_write s own b d : disk_ok s own -> 0 <= b < freeblock s -> length d = bsize ->
  disk_ok (set_img (<[b := d]> (img s)) s) own.
Proof.
  intros [H1 H2 H3 H4 H5] Hb Hd. constructor; fields; [done| |done| |done].
  - intros b' Hb'. destruct (decide (b' = b)) as [-> |]; [exists d; by rewrite lookup_insert_eq|].
    rewrite lookup_insert_ne by done. by apply H2.
  - intros b' Hb'. rewrite lookup_insert_ne by lia. by apply H4.
Qed.

(** *** A new block *)

Definition taken (s : mkst) : mkst := set_freeblock (freeblock s + 1) s.

Lemma disk_ok_taken s own o : disk_ok s own -> freeblock s < FSSIZE ->
  disk_ok (taken s) (<[freeblock s := o]> own) /\ own ⊆ <[freeblock s := o]> own.
Proof.
  intros [H1 H2 H3 H4 H5] Hb. split.
  - constructor; unfold taken; fields; [done|done|lia| |].
    + intros b Hb'. apply H4. lia.
    + intros b o' [[<- _]|[_ Ho]]%lookup_insert_Some; [lia|]. specialize (H5 _ _ Ho). lia.
  - apply insert_subseteq. destruct (own !! freeblock s) as [o'|] eqn:E; [|done]. specialize (H5 _ _ E). lia.
Qed.

Lemma wp_next_block s own Q : disk_ok s own -> Q (freeblock s) (taken s) -> wp next_block Q s.
Proof.
  intros Hd HQ. unfold next_block. wsteps. rewrite u32_id; [exact HQ|]. pose proof (k_free _ _ Hd). unfold FSSIZE in *. lia.
Qed.

Lemma wp_rsect b d (Q : list Z -> mkst -> Prop) s : 0 <= b < FSSIZE -> img s !! b = Some d -> Q d s -> wp (rsect b) Q s.
Proof. intros Hb Hd HQ. unfold rsect. wsteps. rewrite sector_id, Hd by done. by apply wp_ret. Qed.

Lemma wp_wsect b d (Q : unit -> mkst -> Prop) s : 0 <= b < FSSIZE ->
  Q tt (set_img (<[b := d]> (img s)) s) -> wp (wsect b d) Q s.
Proof. intros Hb HQ. unfold wsect. wsteps. by rewrite sector_id. Qed.

Lemma slice_beyond c k : (length c <= k * 1024)%nat -> slice c k = zero_block.
Proof. intros Hc. unfold slice. rewrite drop_ge by done. done. Qed.

Lemma blk_fresh s own : disk_ok s own -> freeblock s < FSSIZE -> blk (taken s) (freeblock s) = zero_block.
Proof. intros Hd Hb. unfold blk, taken. fields. by rewrite (k_fresh _ _ Hd) by lia. Qed.

Lemma addrs_set_addr k b di : length (di_addrs di) = 13%nat /\ Forall (fun a => 0 <= a < 2 ^ 32) (di_addrs di) ->
  0 <= b < 2 ^ 32 ->
  length (di_addrs (set_addr k b di)) = 13%nat /\ Forall (fun a => 0 <= a < 2 ^ 32) (di_addrs (set_addr k b di)).
Proof. intros [Hl Hf] Hb. cbn. rewrite length_insert. split; [done|]. by apply Forall_insert. Qed.

Section Grow.
Context (s : mkst) (own : gmap Z owner) (i : Z) (di : dinode) (c : list Z) (n : nat).
Hypothesis (Hdisk : disk_ok s own) (Hroom : freeblock s < FSSIZE).

Let fb := freeblock s.

Lemma fb_range : 46 <= fb < FSSIZE.
Proof using Hdisk Hroom. pose proof (k_free _ _ Hdisk). unfold fb. lia. Qed.

(** The next block of the file is a direct one. *)
Lemma data_ok_direct : data_ok s own i di c n false -> (n < 12)%nat -> (length c <= n * 1024)%nat ->
  data_ok (taken s) (<[fb := (i, Some n)]> own) i (set_addr n fb di) c (S n) false.
Proof using Hdisk Hroom.
  intros [Ha Hm Hi Hu Hf Hfi] Hn Hc. pose proof fb_range as Hfb. unfold FSSIZE in *.
  destruct (disk_ok_taken s own (i, Some n) Hdisk Hroom) as [_ Hsub].
  constructor; [apply addrs_set_addr; [done|lia]|lia| | | |done].
  - cbn. rewrite list_lookup_total_insert_ne by lia. exact Hi.
  - intros k Hk. destruct (decide (k = n)) as [-> |Hne].
    + assert (E : addr_at (taken s) (set_addr n fb di) n = fb).
      { unfold addr_at. rewrite (proj2 (Nat.ltb_lt n 12)) by lia. cbn. apply list_lookup_total_insert_eq. lia. }
      rewrite E, slice_beyond by done. split; [by rewrite lookup_insert_eq|by eapply blk_fresh].
    + destruct (Hu k ltac:(lia)) as [H1 H2].
      assert (E : addr_at (taken s) (set_addr n fb di) k = addr_at s di k).
      { unfold addr_at. rewrite (proj2 (Nat.ltb_lt k 12)) by lia. cbn. by rewrite list_lookup_total_insert_ne by lia. }
      rewrite E. split; [by eapply lookup_weaken|done].
  - intros k Hk. cbn. rewrite list_lookup_total_insert_ne by lia. apply Hf. lia.
Qed.

(** The file gets its indirect block. *)
Lemma data_ok_indirect : data_ok s own i di c n false -> n = 12%nat ->
  data_ok (taken s) (<[fb := (i, None)]> own) i (set_addr 12 fb di) c n true.
Proof using Hdisk Hroom.
  intros [Ha Hm Hi Hu Hf Hfi] ->. pose proof fb_range as Hfb. unfold FSSIZE in *.
  destruct (disk_ok_taken s own (i, None) Hdisk Hroom) as [_ Hsub].
  assert (E12 : di_addrs (set_addr 12 fb di) !!! 12%nat = fb) by (cbn; apply list_lookup_total_insert_eq; lia).
  constructor; [apply addrs_set_addr; [done|lia]|lia| | |lia|].
  - rewrite E12. by rewrite lookup_insert_eq.
  - intros k Hk. destruct (Hu k ltac:(lia)) as [H1 H2].
    assert (E : addr_at (taken s) (set_addr 12 fb di) k = addr_at s di k).
    { unfold addr_at. rewrite (proj2 (Nat.ltb_lt k 12)) by lia. cbn. by rewrite list_lookup_total_insert_ne by lia. }
    rewrite E. split; [by eapply lookup_weaken|done].
  - intros k _ Hk1 Hk2. unfold addr_at. rewrite (proj2 (Nat.ltb_ge k 12)) by lia. rewrite E12.
    unfold fb. rewrite (blk_fresh s own) by done. unfold get32, field, zero_block.
    rewrite drop_replicate, take_replicate.
    replace (4 `min` (Z.to_nat BSIZE - 4 * (k - 12)))%nat with 4%nat by (unfold BSIZE; lia). done.
Qed.

End Grow.

(** A new entry of the indirect block. *)
Lemma data_ok_entry s own i di c n d : disk_ok s own -> freeblock s < FSSIZE ->
  data_ok s own i di c n true -> (12 <= n < 268)%nat -> (length c <= n * 1024)%nat ->
  let ib := di_addrs di !!! 12%nat in let b := freeblock s in
  img s !! ib = Some d -> length d = bsize ->
  data_ok (set_img (<[ib := put32 d (4 * (n - 12)) b]> (img s)) (taken s)) (<[b := (i, Some n)]> own) i di c (S n) true.
Proof.
  intros Hdisk Hroom [Ha Hm Hi Hu Hf Hfi] Hn Hc ib b Hd Hdl. change bsize with 1024%nat in Hdl.
  pose proof (k_free _ _ Hdisk) as Hfb. fold b in Hfb, Hroom.
  destruct (disk_ok_taken s own (i, Some n) Hdisk Hroom) as [_ Hsub]. fold b in Hsub.
  pose proof (k_own _ _ Hdisk _ _ Hi) as Hib. fold b in Hib. fold ib in Hib.
  set (s' := set_img (<[ib := put32 d (4 * (n - 12)) b]> (img s)) (taken s)).
  assert (Hblk : forall b', b' <> ib -> blk s' b' = blk s b').
  { intros b' Hb'. unfold blk, s'. fields. by rewrite lookup_insert_ne. }
  assert (Hibs : blk s' ib = put32 d (4 * (n - 12)) b). { unfold blk, s'. fields. by rewrite lookup_insert_eq. }
  assert (Hat : forall k, (12 <= k < 268)%nat -> k <> n -> addr_at s' di k = addr_at s di k).
  { intros k Hk Hne. unfold addr_at. rewrite (proj2 (Nat.ltb_ge k 12)) by lia. fold ib. rewrite Hibs.
    unfold blk. rewrite Hd. cbn. apply get32_put32_other; lia. }
  assert (Hatn : addr_at s' di n = b).
  { unfold addr_at. rewrite (proj2 (Nat.ltb_ge n 12)) by lia. fold ib. rewrite Hibs, get32_put32 by lia.
    apply Z.mod_small. unfold FSSIZE in *. lia. }
  constructor; [done|split; [lia|done]| | |intros k Hk; lia|].
  - by eapply lookup_weaken.
  - intros k Hk. destruct (decide (k = n)) as [-> |Hne].
    + rewrite Hatn, slice_beyond by done. split; [by rewrite lookup_insert_eq|]. rewrite Hblk by lia.
      pose proof (k_fresh _ _ Hdisk b ltac:(lia)) as E. unfold blk. by rewrite E.
    + assert (E : addr_at s' di k = addr_at s di k).
      { destruct (decide (k < 12)%nat); [by apply addr_at_direct|apply Hat; lia]. }
      destruct (Hu k ltac:(lia)) as [H1 H2]. rewrite E. split; [by eapply lookup_weaken|].
      rewrite Hblk; [done|]. intros E'. rewrite E' in H1. fold ib in Hi. congruence.
  - intros k _ Hk1 Hk2. rewrite Hat by lia. apply Hfi; [done|lia|lia].
Qed.

(** *** Growing a file *)

(** Everything but the file [i] is as it was. *)
Record frame (i : Z) (own : gmap Z owner) (s s' : mkst) : Prop := {
  f_meta b : b < 46 -> img s' !! b = img s !! b;
  f_other b i' o : own !! b = Some (i', o) -> i' <> i -> img s' !! b = img s !! b;
  f_sb : msb s' = msb s;
  f_inum : freeinode s' = freeinode s
}.

Definition same_head (di di' : dinode) : Prop :=
  di_type di' = di_type di /\ di_major di' = di_major di /\ di_minor di' = di_minor di /\ di_nlink di' = di_nlink di /\
  di_size di' = di_size di.

(** The file [i] went from [n] blocks with [c] to [n'] blocks with [c']. *)
Record grown (i : Z) (s : mkst) (own : gmap Z owner) (di : dinode) (n : nat)
    (s' : mkst) (own' : gmap Z owner) (di' : dinode) (c' : list Z) (n' : nat) : Prop := {
  g_disk : disk_ok s' own';
  g_sub : own ⊆ own';
  g_data : data_ok s' own' i di' c' n' (12 <? n')%nat;
  g_free : freeblock s' = freeblock s + blocks_of n' - blocks_of n;
  g_frame : frame i own s s';
  g_head : same_head di di'
}.

Lemma frame_refl i own s : frame i own s s.
Proof. by constructor. Qed.

Lemma frame_trans i own own' s1 s2 s3 : own ⊆ own' -> frame i own s1 s2 -> frame i own' s2 s3 -> frame i own s1 s3.
Proof.
  intros Ho [A1 A2 A3 A4] [B1 B2 B3 B4]. constructor; [|..|congruence|congruence].
  - intros b Hb. rewrite B1, A1; done.
  - intros b i' o Hb Hne. rewrite (B2 _ _ _ (lookup_weaken _ _ _ _ Hb Ho) Hne). by eapply A2.
Qed.

Lemma frame_taken i own s : frame i own s (taken s).
Proof. by constructor. Qed.

Lemma frame_write i own s b d o : disk_ok s own -> own !! b = Some (i, o) -> frame i own s (set_img (<[b := d]> (img s)) s).
Proof.
  intros Hk Hb. constructor; fields; [| |done|done].
  - intros b' Hb'. pose proof (k_own _ _ Hk _ _ Hb). by rewrite lookup_insert_ne by lia.
  - intros b' i' o' Hb' Hne. rewrite lookup_insert_ne; [done|]. congruence.
Qed.

Lemma blocks_of_S n : blocks_of (S n) = blocks_of n + 1 + (if decide (n = 12%nat) then 1 else 0).
Proof.
  unfold blocks_of. destruct (Nat.ltb_spec 12 n), (Nat.ltb_spec 12 (S n)); case_decide; lia.
Qed.

(** The loop finds a block that is there. *)
Lemma iappend_block_old s own i di c n k Q : disk_ok s own -> data_ok s own i di c n (12 <? n)%nat -> (k < n)%nat ->
  Q (di, addr_at s di k) s -> wp (iappend_block di (Z.of_nat k)) Q s.
Proof.
  intros Hd Hok Hk HQ. pose proof Hok as [Ha Hm Hi Hu Hf Hfi]. destruct (Hu k Hk) as [Ho _].
  pose proof (k_own _ _ Hd _ _ Ho) as Hr. pose proof (k_free _ _ Hd) as Hfb. unfold FSSIZE in Hfb.
  unfold iappend_block, need_addr. change NDIRECT with 12. destruct (Z.ltb_spec (Z.of_nat k) 12).
  - rewrite Nat2Z.id. assert (E : addr_at s di k = di_addrs di !!! k).
    { unfold addr_at. by rewrite (proj2 (Nat.ltb_lt k 12)) by lia. }
    rewrite <- E, (xint_id (addr_at s di k)) by lia.
    rewrite (proj2 (Z.eqb_neq (addr_at s di k) 0)) by lia. wsteps. by rewrite <- E, xint_id by lia.
  - rewrite (proj2 (Nat.ltb_lt 12 n)) in Hi by lia. pose proof (k_own _ _ Hd _ _ Hi) as Hir.
    destruct (k_blocks _ _ Hd (di_addrs di !!! 12%nat)) as (d & Hb & _); [unfold FSSIZE; lia|].
    change (Z.to_nat 12) with 12%nat. rewrite (xint_id (di_addrs di !!! 12%nat)) by lia.
    rewrite (proj2 (Z.eqb_neq (di_addrs di !!! 12%nat) 0)) by lia.
    wsteps. unfold indirect_entry. change (Z.to_nat NDIRECT) with 12%nat. rewrite (xint_id (di_addrs di !!! 12%nat)) by lia.
    change NDIRECT with 12. wsteps. eapply wp_rsect; [unfold FSSIZE; lia|exact Hb|].
    replace (Z.to_nat (4 * (Z.of_nat k - 12))) with (4 * (k - 12))%nat by lia.
    assert (E : addr_at s di k = get32 d (4 * (k - 12))).
    { unfold addr_at. rewrite (proj2 (Nat.ltb_ge k 12)) by lia. unfold blk. by rewrite Hb. }
    rewrite <- E, (proj2 (Z.eqb_neq _ _)) by lia. wsteps. by rewrite <- E, xint_id by lia.
Qed.

Lemma wp_indirect_new s own i di c n Q : disk_ok s own -> freeblock s < FSSIZE ->
  data_ok s own i di c n true -> (12 <= n < 268)%nat -> (length c <= n * 1024)%nat ->
  (forall s' own', disk_ok s' own' -> own ⊆ own' -> data_ok s' own' i di c (S n) true ->
    freeblock s' = freeblock s + 1 -> frame i own s s' -> Q (addr_at s' di n) s') ->
  wp (indirect_entry di (Z.of_nat n)) Q s.
Proof.
  intros Hd Hroom Hok Hn Hc HQ. pose proof Hok as [Ha Hm Hi Hu Hf Hfi].
  pose proof (k_own _ _ Hd _ _ Hi) as Hir. pose proof (k_free _ _ Hd) as Hfb. set (ib := di_addrs di !!! 12%nat) in *.
  destruct (k_blocks _ _ Hd ib) as (d & Hb & Hdl); [lia|]. unfold FSSIZE in *.
  unfold indirect_entry. change (Z.to_nat NDIRECT) with 12%nat. fold ib. rewrite (xint_id ib) by lia. change NDIRECT with 12.
  replace (Z.to_nat (4 * (Z.of_nat n - 12))) with (4 * (n - 12))%nat by lia.
  wsteps. eapply wp_rsect; [unfold FSSIZE; lia|exact Hb|].
  assert (E : get32 d (4 * (n - 12)) = 0).
  { rewrite <- (Hfi n); [|done|lia|lia]. unfold addr_at. rewrite (proj2 (Nat.ltb_ge n 12)) by lia.
    fold ib. unfold blk. by rewrite Hb. }
  rewrite E, Z.eqb_refl. wsteps. eapply wp_next_block; [exact Hd|]. wsteps.
  rewrite (xint_id (freeblock s)) by lia. eapply wp_wsect; [unfold FSSIZE; lia|]. wsteps.
  set (s' := set_img _ (taken s)). set (own' := <[freeblock s := (i, Some n)]> own).
  destruct (disk_ok_taken s own (i, Some n) Hd ltac:(unfold FSSIZE; lia)) as [Hd1 Hsub].
  assert (Hok' : data_ok s' own' i di c (S n) true) 
    by exact (data_ok_entry s own i di c n d Hd Hroom Hok Hn Hc Hb Hdl).
  assert (Hat : addr_at s' di n = freeblock s).
  { unfold addr_at. rewrite (proj2 (Nat.ltb_ge n 12)) by lia. fold ib. unfold blk, s'. fields. rewrite lookup_insert_eq. cbn [from_option id].
    change bsize with 1024%nat in Hdl. rewrite get32_put32 by lia. apply Z.mod_small. lia. }
  change bsize with 1024%nat in Hdl. rewrite get32_put32, Z.mod_small, xint_id by lia. rewrite <- Hat.
  apply (HQ s' own'); [|done|done|done|].
  - apply disk_ok_write; [done|unfold taken; fields; lia|]. by rewrite length_put32 by lia.
  - eapply frame_trans; [exact Hsub|apply frame_taken|]. eapply (frame_write i own' (taken s)); [done|].
    by eapply lookup_weaken.
Qed.

Lemma same_head_set_addr k a di : same_head di (set_addr k a di).
Proof. done. Qed.

(** The loop adds a block. *)
Lemma iappend_block_new s own i di c n Q : disk_ok s own -> data_ok s own i di c n (12 <? n)%nat -> (n < 268)%nat ->
  (length c <= n * 1024)%nat -> freeblock s + blocks_of (S n) - blocks_of n <= FSSIZE ->
  (forall s' own' di', grown i s own di n s' own' di' c (S n) -> Q (di', addr_at s' di' n) s') ->
  wp (iappend_block di (Z.of_nat n)) Q s.
Proof.
  intros Hd Hok Hn Hc Hroom HQ. pose proof (k_free _ _ Hd) as Hfb. rewrite blocks_of_S in Hroom. unfold FSSIZE in *.
  pose proof (d_addrs _ _ _ _ _ _ _ Hok) as [Hal _]. unfold iappend_block, need_addr. change NDIRECT with 12.
  destruct (Z.ltb_spec (Z.of_nat n) 12) as [Hlt|Hge].
  - rewrite Nat2Z.id, (d_free _ _ _ _ _ _ _ Hok n) by lia. change (xint 0 =? 0) with true. cbn iota.
    rewrite (proj2 (Nat.ltb_ge 12 n)) in Hok by lia. rewrite decide_False in Hroom by lia.
    destruct (disk_ok_taken s own (i, Some n) Hd) as [Hd1 Hsub]; [unfold FSSIZE; lia|].
    wsteps. eapply wp_next_block; [exact Hd|]. wsteps. cbn [set_addr di_addrs].
    rewrite list_lookup_total_insert_eq, !xint_id by lia.
    replace (freeblock s) with (addr_at (taken s) (set_addr n (freeblock s) di) n) at 2.
    2: { unfold addr_at. rewrite (proj2 (Nat.ltb_lt n 12)) by lia. apply list_lookup_total_insert_eq. lia. }
    apply (HQ (taken s) (<[freeblock s := (i, Some n)]> own)). constructor; [done|done| | |apply frame_taken|done].
    + rewrite (proj2 (Nat.ltb_ge 12 (S n))) by lia. apply data_ok_direct; unfold FSSIZE; done || lia.
    + rewrite blocks_of_S, decide_False by lia. unfold taken. fields. lia.
  - change (Z.to_nat 12) with 12%nat. destruct (decide (n = 12%nat)) as [-> |Hne].
    + rewrite (d_ind _ _ _ _ _ _ _ Hok). change (xint 0 =? 0) with true. cbn iota.
      destruct (disk_ok_taken s own (i, None) Hd) as [Hd1 Hsub]; [unfold FSSIZE; lia|].
      wsteps. eapply wp_next_block; [exact Hd|]. wsteps. rewrite xint_id by lia.
      eapply wp_indirect_new; [exact Hd1|unfold taken, FSSIZE; fields; lia| |lia|done|].
      { apply (data_ok_indirect s own i di c 12); unfold FSSIZE; done || lia. }
      intros s' own' Hd' Hs' Hok' Hf' Hfr. wsteps. apply (HQ s' own').
      constructor; [done|by etrans|done| | |done].
      * rewrite blocks_of_S, decide_True, Hf' by done. unfold taken. fields. lia.
      * eapply frame_trans; [exact Hsub|apply frame_taken|exact Hfr].
    + rewrite (proj2 (Nat.ltb_lt 12 n)) in Hok by lia. pose proof (k_own _ _ Hd _ _ (d_ind _ _ _ _ _ _ _ Hok)) as Hib.
      rewrite (xint_id (di_addrs di !!! 12%nat)), (proj2 (Z.eqb_neq (di_addrs di !!! 12%nat) 0)) by lia. wsteps.
      eapply wp_indirect_new; [exact Hd|unfold FSSIZE; lia|exact Hok|lia|done|].
      intros s' own' Hd' Hs' Hok' Hf' Hfr. wsteps. apply (HQ s' own').
      constructor; [done|done|by rewrite (proj2 (Nat.ltb_lt 12 (S n))) by lia| |done|done].
      rewrite blocks_of_S, decide_False, Hf' by done. lia.
Qed.

(** *** Appending to the last block *)

Lemma length_slice c k : length (slice c k) = bsize.
Proof. unfold slice. rewrite length_take, length_app, length_replicate. change bsize with 1024%nat. lia. Qed.

Lemma slice_lookup c k j : (j < 1024)%nat -> slice c k !! j = Some (default 0 (c !! (k * 1024 + j)%nat)).
Proof.
  intros Hj. unfold slice. rewrite lookup_take_lt by done. destruct (decide (k * 1024 + j < length c)%nat) as [Hl|Hl].
  - rewrite lookup_app_l by (rewrite length_drop; lia). rewrite lookup_drop.
    destruct (lookup_lt_is_Some_2 c (k * 1024 + j) Hl) as [x ->]. done.
  - rewrite lookup_app_r by (rewrite length_drop; lia). rewrite (lookup_ge_None_2 c) by lia.
    apply lookup_replicate_2. rewrite length_drop. lia.
Qed.

Lemma slice_app_before c q k : (S k * 1024 <= length c)%nat -> slice (c ++ q) k = slice c k.
Proof.
  intros Hl. apply list_eq_same_length with (n := bsize); [apply length_slice|apply length_slice|].
  change bsize with 1024%nat. intros j x y Hj Hx Hy. rewrite slice_lookup in Hx, Hy by done.
  rewrite lookup_app_l in Hx by lia. congruence.
Qed.

Lemma slice_app_at c q k : (k * 1024 <= length c)%nat -> (length c + length q <= S k * 1024)%nat ->
  slice (c ++ q) k = splice (slice c k) (length c - k * 1024) q.
Proof.
  intros H1 H2. pose proof (length_slice c k) as Hs. change bsize with 1024%nat in Hs.
  assert (Hsp : length (splice (slice c k) (length c - k * 1024) q) = 1024%nat) by (rewrite length_splice; lia).
  apply list_eq_same_length with (n := bsize); [done|apply length_slice|]. change bsize with 1024%nat.
  intros j x y Hj. rewrite slice_lookup, splice_lookup by lia. case_decide as Hd.
  - rewrite lookup_app_r by lia. replace (k * 1024 + j - length c)%nat with (j - (length c - k * 1024))%nat by lia.
    intros Hx Hy. rewrite Hy in Hx. by simplify_eq.
  - rewrite slice_lookup by done. intros Hx Hy. simplify_eq. destruct (decide (k * 1024 + j < length c)%nat).
    + by rewrite lookup_app_l by lia.
    + rewrite !lookup_ge_None_2; [done|lia|rewrite length_app; lia].
Qed.

(** The bytes [q] go to the end of the last block. *)
Lemma data_ok_append s own i di c q k h : disk_ok s own -> data_ok s own i di c (S k) h ->
  (k * 1024 <= length c)%nat -> (length c + length q <= S k * 1024)%nat ->
  let x := addr_at s di k in
  let s' := set_img (<[x := splice (slice c k) (length c - k * 1024) q]> (img s)) s in
  data_ok s' own i di (c ++ q) (S k) h /\ disk_ok s' own /\ frame i own s s'.
Proof.
  intros Hd Hok H1 H2 x s'. pose proof Hok as [Ha Hm Hi Hu Hf Hfi]. destruct (Hu k ltac:(lia)) as [Hx Hbx].
  pose proof (k_own _ _ Hd _ _ Hx) as Hxr. pose proof (length_slice c k) as Hls. change bsize with 1024%nat in Hls.
  assert (Hsame : forall b o, own !! b = Some o -> o <> (i, Some k) -> blk s' b = blk s b).
  { intros b o Hb Ho. unfold blk, s'. fields. rewrite lookup_insert_ne; [done|]. intros <-. fold x in Hx. congruence. }
  assert (Hat : forall k', (k' < 12)%nat \/ h = true -> addr_at s' di k' = addr_at s di k').
  { intros k' [Hk'| ->]; [by apply addr_at_direct|]. destruct (decide (k' < 12)%nat); [by apply addr_at_direct|].
    unfold addr_at. rewrite (proj2 (Nat.ltb_ge k' 12)) by lia. by rewrite (Hsame _ _ Hi). }
  split_and!.
  - constructor; [done|done|exact Hi| |done|].
    + intros k' Hk'. rewrite Hat by (destruct (decide (k' < 12)%nat); [by left|right; apply Hm; lia]).
      destruct (Hu k' Hk') as [Hk1 Hk2]. split; [done|]. destruct (decide (k' = k)) as [-> |Hne].
      * rewrite slice_app_at by done. fold x. unfold blk, s'. fields. by rewrite lookup_insert_eq.
      * rewrite slice_app_before by lia. rewrite <- Hk2. apply (Hsame _ (i, Some k')); [done|]. congruence.
    + intros k' Hh Hk1 Hk2. rewrite Hat by auto. by apply Hfi.
  - apply disk_ok_write; [done|lia|]. rewrite length_splice by lia. apply length_slice.
  - by eapply frame_write.
Qed.

(** *** iappend *)

Lemma grown_refl i s own di c n : disk_ok s own -> data_ok s own i di c n (12 <? n)%nat ->
  grown i s own di n s own di c n.
Proof. intros Hd Hok. constructor; [done|done|done|lia|apply frame_refl|done]. Qed.

Lemma grown_trans i s own di n s1 own1 di1 c1 n1 s2 own2 di2 c2 n2 :
  grown i s own di n s1 own1 di1 c1 n1 -> grown i s1 own1 di1 n1 s2 own2 di2 c2 n2 ->
  grown i s own di n s2 own2 di2 c2 n2.
Proof.
  intros [A1 A2 A3 A4 A5 A6] [B1 B2 B3 B4 B5 B6]. constructor; [done|by etrans|done|lia|by eapply frame_trans|].
  unfold same_head in *. intuition congruence.
Qed.

Lemma nblk_add len m k : (k * 1024 <= len)%nat -> (len < S k * 1024)%nat -> (0 < m)%nat -> (len + m <= S k * 1024)%nat ->
  nblk (len + m) = S k.
Proof. intros. unfold nblk. symmetry. apply Nat.div_unique with (len + m + 1023 - 1024 * S k)%nat; lia. Qed.

Lemma nblk_mono a b : (a <= b)%nat -> (nblk a <= nblk b)%nat.
Proof. intros. unfold nblk. apply Nat.Div0.div_le_mono. lia. Qed.

Lemma blocks_of_mono a b : (a <= b)%nat -> blocks_of a <= blocks_of b.
Proof. intros. unfold blocks_of. destruct (Nat.ltb_spec 12 a), (Nat.ltb_spec 12 b); lia. Qed.

(** The block the next byte goes to: it is there, or it is made. *)
Lemma wp_iappend_block s own i di c Q : disk_ok s own ->
  data_ok s own i di c (nblk (length c)) (12 <? nblk (length c))%nat ->
  let k := (length c / 1024)%nat in
  (k < 268)%nat -> freeblock s + blocks_of (S k) - blocks_of (nblk (length c)) <= FSSIZE ->
  (forall s' own' di', grown i s own di (nblk (length c)) s' own' di' c (S k) -> Q (di', addr_at s' di' k) s') ->
  wp (iappend_block di (Z.of_nat k)) Q s.
Proof.
  intros Hd Hok k Hk Hroom HQ. pose proof (Nat.div_mod_eq (length c) 1024) as Hdm. fold k in Hdm.
  pose proof (Nat.mod_upper_bound (length c) 1024 ltac:(lia)).
  destruct (decide (length c mod 1024 = 0)%nat) as [Hz|Hz].
  - assert (En : nblk (length c) = k).
    { unfold nblk. symmetry. apply Nat.div_unique with 1023%nat; lia. }
    rewrite En in *. apply (iappend_block_new s own i di c k); try done. lia.
  - assert (En : nblk (length c) = S k).
    { unfold nblk. symmetry. apply Nat.div_unique with (length c mod 1024 - 1)%nat; lia. }
    rewrite En in *. apply (iappend_block_old s own i di c (S k)); [done|done|lia|].
    apply (HQ s own di). by apply grown_refl.
Qed.

Lemma wp_iappend_step s own i di c p Q : disk_ok s own ->
  data_ok s own i di c (nblk (length c)) (12 <? nblk (length c))%nat -> p <> [] ->
  (length (c ++ p) <= 268 * 1024)%nat ->
  freeblock s + blocks_of (nblk (length (c ++ p))) - blocks_of (nblk (length c)) <= FSSIZE ->
  (forall s' own' di' q p', p = q ++ p' -> q <> [] ->
    grown i s own di (nblk (length c)) s' own' di' (c ++ q) (nblk (length (c ++ q))) ->
    Q (inl (di', Z.of_nat (length (c ++ q)), p')) s') ->
  wp (iappend_step (di, Z.of_nat (length c), p)) Q s.
Proof.
  intros Hd Hok Hp Hmax Hroom HQ. unfold iappend_step. rewrite bool_decide_eq_false_2 by done.
  change BSIZE with (Z.of_nat 1024). rewrite <- Nat2Z.inj_div. set (k := (length c / 1024)%nat).
  assert (Hlp : (0 < length p)%nat) by (destruct p; [done|cbn; lia]). rewrite length_app in Hmax, Hroom.
  pose proof (Nat.div_mod_eq (length c) 1024) as Hdm. fold k in Hdm.
  pose proof (Nat.mod_upper_bound (length c) 1024 ltac:(lia)).
  set (m := Nat.min (length p) (S k * 1024 - length c)).
  assert (Hn1 : Z.to_nat (Z.min (Z.of_nat (length p)) ((Z.of_nat k + 1) * Z.of_nat 1024 - Z.of_nat (length c))) = m)
    by (unfold m; lia).
  assert (Hnb : nblk (length c + m) = S k) by (apply nblk_add; unfold m; lia).
  unfold assert. change MAXFILE with 268. rewrite (proj2 (Z.ltb_lt (Z.of_nat k) 268)) by lia. wsteps.
  apply (wp_iappend_block s own i di c); [done|done|fold k; lia| |].
  { fold k. rewrite <- Hnb. pose proof (blocks_of_mono _ _ (nblk_mono (length c + m) (length c + length p) ltac:(unfold m; lia))). lia. }
  fold k. intros s1 own1 di1 G1. pose proof (g_data _ _ _ _ _ _ _ _ _ _ G1) as Hok1. pose proof (g_disk _ _ _ _ _ _ _ _ _ _ G1) as Hd1.
  destruct (d_used _ _ _ _ _ _ _ Hok1 k ltac:(lia)) as [Hx Hbx]. pose proof (k_own _ _ Hd1 _ _ Hx) as Hxr.
  pose proof (k_free _ _ Hd1) as Hfb1.
  destruct (k_blocks _ _ Hd1 (addr_at s1 di1 k) ltac:(lia)) as (d & Hdx & _). unfold blk in Hbx. rewrite Hdx in Hbx. cbn in Hbx. subst d.
  wsteps. eapply wp_rsect; [lia|exact Hdx|]. wsteps. eapply wp_wsect; [lia|]. wsteps. rewrite Hn1.
  replace (Z.to_nat (Z.of_nat (length c) - Z.of_nat k * Z.of_nat 1024)) with (length c - k * 1024)%nat by lia.
  assert (Hq : length (take m p) = m) by (rewrite length_take; unfold m; lia).
  replace (u32 (Z.of_nat (length c) + Z.min (Z.of_nat (length p)) ((Z.of_nat k + 1) * Z.of_nat 1024 - Z.of_nat (length c))))
    with (Z.of_nat (length (c ++ take m p))) by (rewrite length_app, Hq, u32_id; unfold m; lia).
  destruct (data_ok_append s1 own1 i di1 c (take m p) k _ Hd1 Hok1) as (Hok2 & Hd2 & Hf2); [lia|unfold m in *; lia|].
  eapply (HQ _ own1 di1 (take m p)).
  - by rewrite take_drop.
  - intros E. rewrite E in Hq. cbn in Hq. unfold m in Hq. lia.
  - eapply grown_trans; [exact G1|]. rewrite length_app, Hq, Hnb.
    constructor; [exact Hd2|done|exact Hok2|fields; lia|exact Hf2|done].
Qed.

Lemma wp_iappend_loop s own i di c p (Q : dinode * Z -> mkst -> Prop) : disk_ok s own ->
  data_ok s own i di c (nblk (length c)) (12 <? nblk (length c))%nat ->
  (length (c ++ p) <= 268 * 1024)%nat ->
  freeblock s + blocks_of (nblk (length (c ++ p))) - blocks_of (nblk (length c)) <= FSSIZE ->
  (forall s' own' di', grown i s own di (nblk (length c)) s' own' di' (c ++ p) (nblk (length (c ++ p))) ->
    Q (di', Z.of_nat (length (c ++ p))) s') ->
  wp (iter (S (length p)) iappend_step (di, Z.of_nat (length c), p)) Q s.
Proof.
  intros Hd Hok Hmax Hroom HQ.
  apply (wp_iter iappend_step (fun st s1 => exists own1 q, p = q ++ st.2 /\ st.1.2 = Z.of_nat (length (c ++ q)) /\
    grown i s own di (nblk (length c)) s1 own1 st.1.1 (c ++ q) (nblk (length (c ++ q)))) Q (fun st _ => length st.2)).
  - exists own, []. cbn. rewrite app_nil_r. split_and!; [done|done|by apply grown_refl].
  - cbn. lia.
  - intros [[di1 off] p1] s1 (own1 & q & Hp & Hoff & G). cbn [fst snd] in *. subst off.
    assert (Hcp : c ++ p = (c ++ q) ++ p1) by (by rewrite Hp, <- app_assoc). rewrite Hcp in Hmax, Hroom.
    destruct (decide (p1 = [])) as [-> |Hne].
    + unfold iappend_step. rewrite bool_decide_eq_true_2 by done. wsteps. rewrite app_nil_r in Hcp. rewrite <- Hcp in *.
      by eapply HQ.
    + apply (wp_iappend_step s1 own1 i di1 (c ++ q) p1); [apply G|apply G|done|done| |].
      { rewrite (g_free _ _ _ _ _ _ _ _ _ _ G). lia. }
      intros s2 own2 di2 q2 p2 Hp1 Hq2 G2. split.
      * exists own2, (q ++ q2). cbn [fst snd]. rewrite app_assoc.
        split_and!; [by rewrite Hp, Hp1, app_assoc|done|by eapply grown_trans].
      * cbn [snd]. rewrite Hp1, length_app. destruct q2; [done|cbn; lia].
Qed.

(** *** Inodes on the disk *)

Lemma iblock_range i : 1 <= i < NINODES -> IBLOCK i the_sb = i / 16 + 32 /\ 32 <= i / 16 + 32 < 45 /\ 0 <= i mod IPB < IPB.
Proof.
  unfold NINODES. intros Hi. unfold IBLOCK. change IPB with 16. cbn [sb_inodestart the_sb].
  rewrite u32_id by zdm. split; [done|]. split; zdm.
Qed.

Lemma wp_rinode s own i Q : disk_ok s own -> 1 <= i < NINODES -> Q (inode_at s i) s -> wp (rinode i) Q s.
Proof.
  intros Hd Hi HQ. unfold rinode. wsteps. rewrite (k_sb _ _ Hd). destruct (iblock_range i Hi) as (E & Hb & _).
  destruct (k_blocks _ _ Hd (IBLOCK i the_sb)) as (d & Hbd & _); [unfold FSSIZE; lia|].
  eapply wp_rsect; [unfold FSSIZE; lia|exact Hbd|]. wsteps. unfold inode_at, blk in HQ. by rewrite (k_sb _ _ Hd), Hbd in HQ.
Qed.

(** A write of the inode [i]: the other inodes and the blocks of the files stay. *)
Record inode_put (i : Z) (di : dinode) (s s' : mkst) : Prop := {
  p_this : inode_at s' i = di;
  p_other j : 1 <= j < NINODES -> j <> i -> inode_at s' j = inode_at s j;
  p_data b : 45 <= b \/ b < 32 -> img s' !! b = img s !! b;
  p_sb : msb s' = msb s;
  p_inum : freeinode s' = freeinode s;
  p_free : freeblock s' = freeblock s
}.

Lemma wp_winode s own i di Q : disk_ok s own -> 1 <= i < NINODES -> dinode_wf di ->
  (forall s', disk_ok s' own -> inode_put i di s s' -> Q tt s') -> wp (winode i di) Q s.
Proof.
  intros Hd Hi Hwf HQ. unfold winode. wsteps. destruct (iblock_range i Hi) as (E & Hb & Hk).
  pose proof (k_sb _ _ Hd) as Hsb. rewrite Hsb. pose proof (k_free _ _ Hd) as Hfb. unfold FSSIZE in *.
  destruct (k_blocks _ _ Hd (IBLOCK i the_sb)) as (d & Hbd & Hdl); [unfold FSSIZE; lia|].
  eapply wp_rsect; [unfold FSSIZE; lia|exact Hbd|]. wsteps. apply wp_wsect; [unfold FSSIZE; lia|].
  pose proof (proj1 (wf_addrs _ Hwf)) as H13. apply HQ.
  - apply disk_ok_write; [done|lia|]. by rewrite length_put_dinode.
  - constructor; fields; try done.
    + unfold inode_at, blk. fields. rewrite Hsb, lookup_insert_eq. cbn [from_option id]. by apply get_put_dinode.
    + intros j Hj Hne. unfold inode_at, blk. fields. rewrite Hsb. destruct (iblock_range j Hj) as (Ej & Hbj & Hkj).
      destruct (decide (IBLOCK i the_sb = IBLOCK j the_sb)) as [Eq|Eq].
      * rewrite <- Eq, lookup_insert_eq, Hbd. cbn [from_option id]. apply get_put_dinode_other; try done.
        rewrite E, Ej in Eq. change IPB with 16 in *. zdm.
      * by rewrite lookup_insert_ne.
    + intros b Hb'. rewrite lookup_insert_ne by lia. done.
Qed.

(** *** The operations on the abstract disk *)

Lemma i16_range x : - 2 ^ 15 <= i16 x < 2 ^ 15.
Proof. unfold i16. pose proof (Z.mod_pos_bound (x + 2 ^ 15) (2 ^ 16) ltac:(lia)). lia. Qed.

Lemma data_ok_addrs s own i di di' c n h : di_addrs di' = di_addrs di -> data_ok s own i di c n h -> data_ok s own i di' c n h.
Proof.
  intros E [Ha Hm Hi Hu Hf Hfi]. assert (Hat : forall k, addr_at s di' k = addr_at s di k) by (intros k; unfold addr_at; by rewrite E).
  constructor; rewrite ?E; try done.
  - intros k Hk. rewrite Hat. by apply Hu.
  - intros k Hh Hk1 Hk2. rewrite Hat. by apply Hfi.
Qed.

Lemma inode_at_frame i own s s' j : disk_ok s own -> frame i own s s' -> 1 <= j < NINODES -> inode_at s' j = inode_at s j.
Proof.
  intros Hd Hf Hj. destruct (iblock_range j Hj) as (E & Hb & _). unfold inode_at, blk.
  rewrite (f_sb _ _ _ _ Hf), (k_sb _ _ Hd), (f_meta _ _ _ _ Hf) by lia. done.
Qed.

(** What a write of an inode keeps of a file. *)
Lemma file_ok_put i di s s' own j f : disk_ok s own -> inode_put i di s s' -> 1 <= j < NINODES -> j <> i ->
  file_ok s own j f -> file_ok s' own j f.
Proof.
  intros Hd Hp Hj Hne. unfold file_ok. rewrite (p_other _ _ _ _ Hp) by done. intros (H1 & H2 & H3 & H4 & H5 & H6).
  split_and!; try done. eapply data_ok_frame; [done| |exact H6].
  intros b o Hb. apply (p_data _ _ _ _ Hp). pose proof (k_own _ _ Hd _ _ Hb). lia.
Qed.

Lemma file_ok_frame i s s' own own' j f : disk_ok s own -> own ⊆ own' -> frame i own s s' -> 1 <= j < NINODES -> j <> i ->
  file_ok s own j f -> file_ok s' own' j f.
Proof.
  intros Hd Ho Hf Hj Hne. unfold file_ok. rewrite (inode_at_frame i own s s') by done. intros (H1 & H2 & H3 & H4 & H5 & H6).
  split_and!; try done. eapply data_ok_frame; [done| |exact H6].
  intros b o Hb. by eapply (f_other _ _ _ _ Hf).
Qed.

Lemma head_wf s i di' n : same_head (inode_at s i) di' -> length (di_addrs di') = 13%nat /\ Forall (fun a => 0 <= a < 2 ^ 32) (di_addrs di') ->
  0 <= n < 2 ^ 32 -> dinode_wf (set_size n di').
Proof.
  intros (E1 & E2 & E3 & E4 & _) Ha Hn. constructor; cbn; rewrite ?E1, ?E2, ?E3, ?E4; try apply i16_range; done.
Qed.

Lemma iappend_repr s A own i ty c p Q : repr s A own -> A !! i = Some (ty, c) -> (length (c ++ p) <= 268 * 1024)%nat ->
  freeblock s + blocks_of (nblk (length (c ++ p))) - blocks_of (nblk (length c)) <= FSSIZE ->
  (forall s' own', repr s' (<[i := (ty, c ++ p)]> A) own' ->
    freeblock s' = freeblock s + blocks_of (nblk (length (c ++ p))) - blocks_of (nblk (length c)) ->
    freeinode s' = freeinode s -> (forall b, b < 32 \/ b = 45 -> img s' !! b = img s !! b) -> Q tt s') ->
  wp (iappend i p) Q s.
Proof.
  intros [Hd Hin Hfiles] HA Hmax Hroom HQ. pose proof (proj2 Hin _ _ HA) as Hi. assert (Hi' : 1 <= i < NINODES) by lia.
  destruct (Hfiles _ _ HA) as (T1 & T2 & T3 & T4 & T5 & T6). cbn [fst snd] in *. rewrite length_app in Hmax.
  unfold iappend. wsteps. eapply wp_rinode; [done|done|]. rewrite T5, xint_id by lia. wsteps.
  rewrite <- length_app in Hmax. eapply wp_iappend_loop; [done|exact T6|done|done|]. intros s1 own1 di1 G. cbn beta iota.
  pose proof G as [G1 G2 G3 G4 G5 G6]. rewrite xint_id by lia.
  eapply wp_winode; [exact G1|done|eapply head_wf; [exact G6|apply G3|lia]|]. intros s2 Hd2 Hp.
  apply (HQ s2 own1); [| | |].
  - constructor; [done| |].
    + rewrite (p_inum _ _ _ _ Hp), (f_inum _ _ _ _ G5). split; [apply Hin|].
      intros j f [[<- _]|[_ Hj]]%lookup_insert_Some; [done|]. by eapply Hin.
    + intros j f [[<- <-]|[Hne Hj]]%lookup_insert_Some.
      * unfold file_ok. rewrite (p_this _ _ _ _ Hp). destruct G6 as (E1 & E2 & E3 & E4 & _). cbn [fst snd].
        split_and!; [cbn; congruence..|done|]. apply data_ok_addrs with (di := di1); [done|].
        apply (data_ok_frame s1 s2 own1 own1); [done| |exact G3]. intros b o Hb. apply (p_data _ _ _ _ Hp).
        pose proof (k_own _ _ G1 _ _ Hb). lia.
      * assert (Hj' : 1 <= j < NINODES) by (pose proof (proj2 Hin _ _ Hj); lia).
        eapply file_ok_put; [exact G1|exact Hp|done|done|]. eapply (file_ok_frame i s); try done. by apply Hfiles.
  - by rewrite (p_free _ _ _ _ Hp).
  - by rewrite (p_inum _ _ _ _ Hp), (f_inum _ _ _ _ G5).
  - intros b Hb. rewrite (p_data _ _ _ _ Hp), (f_meta _ _ _ _ G5) by lia. done.
Qed.

Lemma file_ok_same s s' own j f : img s' = img s -> msb s' = msb s -> file_ok s own j f -> file_ok s' own j f.
Proof.
  intros Ei Em. unfold file_ok, inode_at, blk. rewrite Ei, Em. intros (H1 & H2 & H3 & H4 & H5 & H6).
  split_and!; try done. eapply data_ok_frame; [done| |exact H6]. by rewrite Ei.
Qed.

(** A new inode has no blocks. *)
Lemma data_ok_empty s own i di : di_addrs di = replicate 13 0 -> data_ok s own i di [] 0 false.
Proof.
  intros E. constructor; rewrite ?E; try done; try lia.
  - split; [done|]. apply Forall_replicate. lia.
  - intros k Hk. by apply list_lookup_total_correct, lookup_replicate_2; lia.
Qed.

Lemma ialloc_repr s A own type Q : repr s A own -> freeinode s < NINODES -> 0 <= type < 2 ^ 15 ->
  (forall s', repr s' (<[freeinode s := (type, [])]> A) own -> freeblock s' = freeblock s ->
    freeinode s' = freeinode s + 1 -> (forall b, b < 32 \/ b = 45 -> img s' !! b = img s !! b) -> Q (freeinode s) s') ->
  wp (ialloc type) Q s.
Proof.
  intros [Hd Hin Hfiles] Hlt Ht HQ. set (i := freeinode s) in *. unfold NINODES in *.
  unfold ialloc. wsteps. fold i. rewrite u32_id by lia. rewrite !xshort_id, xint_id by lia.
  assert (Et : i16 type = type) by (unfold i16; rewrite Z.mod_small; lia). rewrite Et. change (i16 1) with 1.
  set (di := mk_dinode type 0 0 1 0 (replicate 13 0)).
  assert (Hd1 : disk_ok (set_freeinode (i + 1) s) own) by (destruct Hd; by constructor).
  eapply wp_winode; [exact Hd1|unfold NINODES; lia| |].
  { constructor; cbn; try lia. split; [done|]. repeat constructor; lia. }
  intros s' Hd' Hp. wsteps. apply HQ.
  - constructor; [done| |].
    + rewrite (p_inum _ _ _ _ Hp). fields. unfold NINODES. split; [lia|].
      intros j f [[<- _]|[_ Hj]]%lookup_insert_Some; [lia|]. apply (proj2 Hin) in Hj. lia.
    + intros j f [[<- <-]|[Hne Hj]]%lookup_insert_Some.
      * unfold file_ok. rewrite (p_this _ _ _ _ Hp). split_and!; try done. by apply data_ok_empty.
      * pose proof (proj2 Hin _ _ Hj) as Hjr.
        eapply file_ok_put; [exact Hd1|exact Hp|unfold NINODES; lia|done|]. by eapply (file_ok_same s), Hfiles.
  - by rewrite (p_free _ _ _ _ Hp).
  - by rewrite (p_inum _ _ _ _ Hp).
  - intros b Hb. rewrite (p_data _ _ _ _ Hp) by lia. done.
Qed.

(** The blocks a file takes. *)
Definition cost (c : list Z) : Z := blocks_of (nblk (length c)).

Lemma cost_mono c p : cost c <= cost (c ++ p).
Proof. apply blocks_of_mono, nblk_mono. rewrite length_app. lia. Qed.

(** *** The pieces of a file *)

Lemma concat_pieces fuel b : (length b <= fuel)%nat -> concat (pieces fuel b) = b.
Proof.
  revert b; induction fuel as [|fuel IH]; intros b Hb; cbn [pieces].
  - by destruct b; [|cbn in Hb; lia].
  - destruct (decide (b = [])) as [-> |Hne]; [done|]. rewrite bool_decide_eq_false_2 by done. cbn [concat].
    assert (0 < length b)%nat by (destruct b; [done|cbn; lia]).
    rewrite IH; [apply take_drop|]. rewrite length_drop. unfold BSIZE. lia.
Qed.

Lemma iappend_all_repr ps s A own i ty c Q : repr s A own -> A !! i = Some (ty, c) ->
  (length (c ++ concat ps) <= 268 * 1024)%nat -> freeblock s + cost (c ++ concat ps) - cost c <= FSSIZE ->
  (forall s' own', repr s' (<[i := (ty, c ++ concat ps)]> A) own' ->
    freeblock s' = freeblock s + cost (c ++ concat ps) - cost c -> freeinode s' = freeinode s ->
    (forall b, b < 32 \/ b = 45 -> img s' !! b = img s !! b) -> Q tt s') ->
  wp (for_all ps (iappend i)) Q s.
Proof.
  revert s A own c; induction ps as [|p ps IH]; intros s A own c Hr HA Hmax Hroom HQ; cbn [for_all concat] in *.
  - apply wp_ret. rewrite app_nil_r in *. apply (HQ s own); [by rewrite insert_id|lia|done|done].
  - rewrite app_assoc in *. pose proof (cost_mono (c ++ p) (concat ps)). apply wp_bind. cbv beta.
    eapply iappend_repr; [exact Hr|exact HA|rewrite !length_app in *; lia|unfold cost in *; lia|].
    intros s1 own1 Hr1 Hf1 Hi1 Hm1. fold (cost (c ++ p)) in Hf1. fold (cost c) in Hf1.
    eapply IH; [exact Hr1|by rewrite lookup_insert_eq|done|lia|].
    rewrite insert_insert_eq. intros s2 own2 Hr2 Hf2 Hi2 Hm2. apply (HQ s2 own2); [done|lia|congruence|].
    intros b Hb. by rewrite Hm2, Hm1.
Qed.

(** *** The files *)

(** The entries of the files [L] from the inode number [j] on. *)
Fixpoint dir_of (j : Z) (L : list (list Z * list Z)) : list Z :=
  match L with
  | [] => []
  | x :: L => dirent j (default [] (shortname x.1)) ++ dir_of (j + 1) L
  end.

Fixpoint total_cost (L : list (list Z * list Z)) : Z :=
  match L with
  | [] => 0
  | x :: L => cost x.2 + total_cost L
  end.

Definition given (L : list (list Z * list Z)) : list (list Z * option (list Z)) := (fun x => (x.1, Some x.2)) <$> L.

(** A name without a slash, contents that fit a file. *)
Definition fits (x : list Z * list Z) : Prop := is_Some (shortname x.1) /\ (length x.2 <= 268 * 1024)%nat.

Lemma cost_nonneg c : 0 <= cost c.
Proof. unfold cost, blocks_of. destruct (12 <? _)%nat; lia. Qed.

Lemma total_cost_nonneg L : 0 <= total_cost L.
Proof. induction L as [|x L IH]; cbn; [lia|]. pose proof (cost_nonneg x.2). lia. Qed.

Lemma add_file_repr s A own rc x Q : repr s A own -> A !! 1 = Some (T_DIR, rc) -> fits x ->
  let j := freeinode s in let de := dirent j (default [] (shortname x.1)) in
  1 < j < NINODES -> (length (rc ++ de) <= 268 * 1024)%nat ->
  freeblock s + (cost (rc ++ de) - cost rc) + cost x.2 <= FSSIZE ->
  (forall s' own', repr s' (<[j := (T_FILE, x.2)]> (<[1 := (T_DIR, rc ++ de)]> A)) own' ->
    freeblock s' = freeblock s + (cost (rc ++ de) - cost rc) + cost x.2 -> freeinode s' = j + 1 ->
    (forall b, b < 32 \/ b = 45 -> img s' !! b = img s !! b) -> Q tt s') ->
  wp (add_file 1 (x.1, Some x.2)) Q s.
Proof.
  intros Hr HA [[nm Hnm] Hx] j de Hj Hlen Hroom HQ. unfold add_file. cbn [fst snd]. rewrite Hnm.
  unfold de in *. rewrite Hnm in *. cbn [default from_option id] in *. pose proof (cost_nonneg x.2).
  wsteps. eapply ialloc_repr; [exact Hr|lia|unfold T_FILE; lia|]. intros s1 Hr1 Hf1 Hi1 Hm1. fold j in Hr1, Hi1 |- *. wsteps.
  eapply iappend_repr; [exact Hr1|rewrite lookup_insert_ne by lia; exact HA|done|unfold cost in *; lia|].
  intros s2 own2 Hr2 Hf2 Hi2 Hm2.
  assert (Hp : concat (pieces (length x.2) x.2) = x.2) by (by apply concat_pieces).
  eapply (iappend_all_repr _ s2 _ own2 j T_FILE []); [exact Hr2| |by rewrite Hp| |].
  - by rewrite lookup_insert_ne, lookup_insert_eq by lia.
  - rewrite Hp. cbn [app]. change (cost []) with 0. unfold cost in *. lia.
  - rewrite Hp. cbn [app]. intros s3 own3 Hr3 Hf3 Hi3 Hm3. apply (HQ s3 own3).
    + rewrite insert_insert_ne, insert_insert_eq in Hr3 by lia. rewrite insert_insert_ne by lia. exact Hr3.
    + change (cost []) with 0 in Hf3. unfold cost in *. lia.
    + lia.
    + intros b Hb. by rewrite Hm3, Hm2, Hm1.
Qed.

(** The files [L] were added from the inode [j] on. *)
Record added (s : mkst) (A : gmap Z (Z * list Z)) (j : Z) (rc : list Z) (L : list (list Z * list Z))
    (s' : mkst) (A' : gmap Z (Z * list Z)) (own' : gmap Z owner) : Prop := {
  a_repr : repr s' A' own';
  a_root : A' !! 1 = Some (T_DIR, rc ++ dir_of j L);
  a_files k x : L !! k = Some x -> A' !! (j + Z.of_nat k) = Some (T_FILE, x.2);
  a_old i : 1 < i < j -> A' !! i = A !! i;
  a_free : freeblock s' = freeblock s + (cost (rc ++ dir_of j L) - cost rc) + total_cost L;
  a_meta b : b < 32 \/ b = 45 -> img s' !! b = img s !! b
}.

Lemma add_files_repr L s A own j rc Q : repr s A own -> A !! 1 = Some (T_DIR, rc) -> Forall fits L ->
  freeinode s = j -> 1 < j -> j + Z.of_nat (length L) <= NINODES -> (length (rc ++ dir_of j L) <= 268 * 1024)%nat ->
  freeblock s + (cost (rc ++ dir_of j L) - cost rc) + total_cost L <= FSSIZE ->
  (forall s' A' own', added s A j rc L s' A' own' -> Q tt s') ->
  wp (for_all (given L) (add_file 1)) Q s.
Proof.
  revert s A own j rc; induction L as [|x L IH]; intros s A own j rc Hr HA HL Hj H1 Hn Hlen Hroom HQ; cbn [given fmap list_fmap for_all] in *.
  - apply wp_ret. apply (HQ s A own). constructor; cbn; rewrite ?app_nil_r; try done. lia.
  - inversion_clear HL as [|? ? Hx HL']. cbn [dir_of total_cost length] in *. set (de := dirent j (default [] (shortname x.1))) in *.
    rewrite (app_assoc rc de) in *. pose proof (cost_mono (rc ++ de) (dir_of (j + 1) L)). pose proof (total_cost_nonneg L).
    apply wp_bind. cbv beta. eapply add_file_repr; [exact Hr|exact HA|exact Hx|lia|rewrite Hj; fold de; rewrite !length_app in *; lia|..];
      rewrite Hj; fold de; [lia|].
    intros s1 own1 Hr1 Hf1 Hi1 Hm1.
    eapply (IH s1 _ own1 (j + 1) (rc ++ de)); [exact Hr1|by rewrite lookup_insert_ne, lookup_insert_eq by lia|done|lia|lia|lia|done|lia|].
    intros s2 A2 own2 [R1 R2 R3 R4 R5 R6]. apply (HQ s2 A2 own2). constructor.
    + done.
    + cbn [dir_of]. fold de. by rewrite (app_assoc rc de).
    + intros [|k] y Hy; cbn in Hy.
      * simplify_eq. rewrite Z.add_0_r, R4 by lia. by rewrite lookup_insert_eq.
      * apply R3 in Hy. by replace (j + Z.of_nat (S k)) with (j + 1 + Z.of_nat k) by lia.
    + intros i Hi. rewrite R4 by lia. by rewrite !lookup_insert_ne by lia.
    + cbn [dir_of total_cost]. fold de. rewrite (app_assoc rc de). lia.
    + intros b Hb. by rewrite R6, Hm1.
Qed.

(** *** The empty image *)

Lemma layout_ok (Q : unit -> mkst -> Prop) :
  (forall s, disk_ok s ∅ -> freeinode s = 1 -> freeblock s = 46 -> (forall b, 0 <= b < FSSIZE -> img s !! b = Some zero_block) -> Q tt s) ->
  wp mkfs_layout Q mkfs_start.
Proof.
  intros HQ. unfold mkfs_layout. wsteps.
  change (mk_superblock _ _ _ _ _ _ _ _) with the_sb. change (2 + nlog + ninodeblocks + nbitmap) with 46.
  eapply wp_mono; [apply (wp_for_all _ _ (fun l s => exists k, 0 <= k <= FSSIZE /\ l = seqZ k (FSSIZE - k) /\ msb s = the_sb /\
    freeinode s = 1 /\ freeblock s = 46 /\ forall b, 0 <= b < k -> img s !! b = Some zero_block))|].
  - exists 0. split_and!; try done. intros b Hb. lia.
  - intros x l s (k & Hk & Hl & H1 & H2 & H3 & H4). destruct (decide (k = FSSIZE)) as [-> |Hne].
    { by rewrite Z.sub_diag in Hl. }
    rewrite seqZ_cons_lt in Hl by lia. injection Hl as -> ->. apply wp_wsect; [lia|]. exists (k + 1). fields.
    split_and!; try done; [lia|lia|f_equal; lia|]. intros b Hb. destruct (decide (b = k)) as [-> |]; [by rewrite lookup_insert_eq|].
    rewrite lookup_insert_ne by done. apply H4. lia.
  - intros [] s (k & Hk & Hl & H1 & H2 & H3 & H4). apply HQ; [|done|done|].
    2: { intros b Hb. apply H4. destruct (decide (k = FSSIZE)); [lia|]. by rewrite seqZ_cons_lt in Hl by lia. }
    assert (k = FSSIZE) as -> by (destruct (decide (k = FSSIZE)); [done|by rewrite seqZ_cons_lt in Hl by lia]).
    constructor; [done| |unfold FSSIZE; lia| |done].
    + intros b Hb. exists zero_block. by rewrite H4.
    + intros b Hb. apply H4. lia.
Qed.

Lemma super_block_ok : length (super_block the_sb) = bsize /\ get_superblock (super_block the_sb) = the_sb.
Proof. split; vm_compute; reflexivity. Qed.

(** *** The bitmap *)

Lemma bitmap_bits k : 0 <= k <= 8192 ->
  let d := fold_left set_bit (seqZ 0 k) (replicate (Z.to_nat BSIZE) 0) in
  length d = bsize /\ forall b, 0 <= b < 8192 -> bit_clear d b = (k <=? b).
Proof.
  intros Hk. cbv zeta. rewrite <- (Z2Nat.id k) by lia. generalize (Z.to_nat k) (ltac:(lia) : Z.of_nat (Z.to_nat k) <= 8192).
  clear k Hk. intros k; induction k as [|k IH]; intros Hk.
  - split; [done|]. intros b Hb. cbn [seqZ fold_left]. unfold bit_clear.
    assert ((Z.to_nat (b / 8) < Z.to_nat BSIZE)%nat) by (unfold BSIZE; zdm).
    change (seqZ 0 (Z.of_nat 0)) with (@nil Z). cbn [fold_left].
    rewrite lookup_replicate_2 by done. cbn. rewrite Z.land_0_l. symmetry. apply Z.leb_le. lia.
  - destruct (IH ltac:(lia)) as [Hl Hb]. rewrite Nat2Z.inj_succ, <- Z.add_1_r, seqZ_app, fold_left_app by lia.
    rewrite Z.add_0_l, (seqZ_cons_lt _ 1) by lia. change (seqZ (Z.of_nat k + 1) (1 - 1)) with (@nil Z).
    cbn [fold_left]. split; [by rewrite length_set_bit|]. intros b Hb'. change bsize with 1024%nat in Hl.
    rewrite bit_clear_set, Hb by (rewrite ?Hl; lia). destruct (Z.eqb_spec b (Z.of_nat k)) as [-> |].
    + symmetry. apply Z.leb_gt. lia.
    + apply eq_bool_prop_intro. rewrite !Is_true_true, !Z.leb_le. lia.
Qed.

(** *** What the kernel reads *)

Lemma addr_file s di k j : length (di_addrs di) = 13%nat -> addr_at s di k = file_addr (blk s) (loaded di j) (Z.of_nat k).
Proof.
  intros Hl. unfold addr_at, file_addr. change NDIRECT with 12. cbn [i_addrs loaded]. change (Z.to_nat 12) with 12%nat.
  rewrite Nat2Z.id. destruct (Nat.ltb_spec k 12).
  - rewrite (proj2 (Z.ltb_lt (Z.of_nat k) 12)) by lia. destruct (lookup_lt_is_Some_2 (di_addrs di) k) as [a Ha]; [lia|].
    by rewrite (list_lookup_total_correct _ _ _ Ha), Ha.
  - rewrite (proj2 (Z.ltb_ge (Z.of_nat k) 12)) by lia. replace (4 * Z.to_nat (Z.of_nat k - 12))%nat with (4 * (k - 12))%nat by lia.
    destruct (lookup_lt_is_Some_2 (di_addrs di) 12) as [a Ha]; [lia|]. by rewrite (list_lookup_total_correct _ _ _ Ha), Ha.
Qed.

(** The kernel finds the contents, then zeros up to the end of the last block. *)
Lemma data_ok_byte s own i di c n h j off : data_ok s own i di c n h -> 0 <= off < Z.of_nat n * 1024 ->
  file_byte (blk s) (loaded di j) off = default 0 (c !! Z.to_nat off).
Proof.
  intros Hok Hoff. unfold file_byte. change BSIZE with 1024. set (k := Z.to_nat (off / 1024)).
  assert (Ek : off / 1024 = Z.of_nat k) by (unfold k; rewrite Z2Nat.id; zdm). rewrite Ek, <- addr_file by apply Hok.
  destruct (d_used _ _ _ _ _ _ _ Hok k) as [_ ->]; [zdm|]. rewrite slice_lookup by zdm. cbn [from_option id].
  f_equal. f_equal. zdm.
Qed.

Lemma data_ok_bytes s own i di c n h j : data_ok s own i di c n h -> (length c <= n * 1024)%nat ->
  file_bytes (blk s) (loaded di j) 0 (Z.of_nat (length c)) = c.
Proof.
  intros Hok Hc. apply list_eq. intros k. unfold file_bytes. rewrite list_lookup_fmap.
  destruct (decide (k < length c)%nat) as [Hk|Hk].
  - rewrite (proj2 (lookup_seqZ 0 (Z.of_nat (length c)) k (Z.of_nat k))) by lia. cbn [fmap option_fmap option_map].
    rewrite (data_ok_byte s own i di c n h) by (done || lia). rewrite Nat2Z.id.
    destruct (lookup_lt_is_Some_2 c k Hk) as [x ->]. done.
  - rewrite (lookup_ge_None_2 c) by lia. rewrite (lookup_seqZ_ge); [done|lia].
Qed.

Lemma nblk_enough len : (len <= nblk len * 1024)%nat.
Proof. unfold nblk. pose proof (Nat.div_mod_eq (len + 1023) 1024). pose proof (Nat.mod_upper_bound (len + 1023) 1024). lia. Qed.

(** *** The whole image *)

(** The root directory. *)
Definition entries (L : list (list Z * list Z)) : list Z :=
  (dirent 1 (str_bytes ".") ++ dirent 1 (str_bytes "..")) ++ dir_of 2 L.

(** The blocks in use. *)
Definition used_blocks (L : list (list Z * list Z)) : Z := 46 + cost (entries L) + total_cost L.

Lemma length_dirent i nm : length (dirent i nm) = 16%nat.
Proof.
  unfold dirent. rewrite length_app, length_le_encode, length_take, length_app, length_replicate. change (Z.to_nat DIRSIZ) with 14%nat. lia.
Qed.

Lemma length_dir_of j L : length (dir_of j L) = (16 * length L)%nat.
Proof. revert j; induction L as [|x L IH]; intros j; cbn [dir_of length]; [done|]. rewrite length_app, length_dirent, IH. lia. Qed.

Lemma length_entries L : length (entries L) = (32 + 16 * length L)%nat.
Proof. unfold entries. rewrite !length_app, !length_dirent, length_dir_of. lia. Qed.

(** All but the last steps of [main]. *)
Lemma mkfs_files_repr L (m : Z -> M mkst unit) Q : Forall fits L -> 2 + Z.of_nat (length L) <= NINODES -> used_blocks L <= FSSIZE ->
  (forall s A own, repr s A own -> A !! 1 = Some (T_DIR, entries L) ->
    (forall k x, L !! k = Some x -> A !! (2 + Z.of_nat k) = Some (T_FILE, x.2)) ->
    freeblock s = used_blocks L -> blk s 1 = super_block the_sb ->
    (forall b, 0 <= b < 32 -> b <> 1 -> blk s b = zero_block) -> wp (m 1) Q s) ->
  wp (mkfs_layout ;;;
      let* sb := gets msb in
      wsect 1 (super_block sb) ;;;
      let* rootino := ialloc T_DIR in
      assert (rootino =? ROOTINO) ;;;
      iappend rootino (dirent rootino (str_bytes ".")) ;;;
      iappend rootino (dirent rootino (str_bytes "..")) ;;;
      for_all (given L) (add_file rootino) ;;; m rootino) Q mkfs_start.
Proof.
  intros HL Hn Hroom Hm. unfold used_blocks in *. pose proof (length_entries L) as Hle. unfold NINODES in Hn.
  pose proof (total_cost_nonneg L).
  set (d1 := dirent 1 (str_bytes ".")) in *. set (d2 := dirent 1 (str_bytes "..")) in *.
  pose proof (length_dirent 1 (str_bytes ".") : length d1 = 16%nat) as Hl1.
  pose proof (length_dirent 1 (str_bytes "..") : length d2 = 16%nat) as Hl2.
  wsteps. apply layout_ok. intros s0 Hd0 Hi0 Hf0 Hz0. wsteps. rewrite (k_sb _ _ Hd0). apply wp_wsect; [unfold FSSIZE; lia|].
  set (s1 := set_img _ s0).
  assert (Hr1 : repr s1 ∅ ∅).
  { constructor; [apply disk_ok_write; [done|rewrite Hf0; lia|apply super_block_ok]| |done].
    unfold s1. fields. rewrite Hi0. unfold NINODES. split; [lia|done]. }
  assert (Hf1 : freeblock s1 = 46 /\ freeinode s1 = 1) by (unfold s1; fields; done). destruct Hf1 as [Hf1 Hi1].
  wsteps. eapply ialloc_repr; [exact Hr1|rewrite Hi1; done|unfold T_DIR; lia|]. intros s2 Hr2 Hf2 Hi2 Hm2. rewrite Hi1 in Hr2 |- *. wsteps.
  unfold assert. change (1 =? ROOTINO) with true. cbn iota. wsteps.
  assert (Hc1 : cost d1 = 1 /\ cost (d1 ++ d2) = 1 /\ cost [] = 0) by (unfold cost; rewrite length_app, Hl1, Hl2; done).
  destruct Hc1 as (Hc1 & Hc2 & Hc0). fold d1 d2.
  pose proof (cost_mono (d1 ++ d2) (dir_of 2 L)) as Hc3. change ((d1 ++ d2) ++ dir_of 2 L) with (entries L) in Hc3.
  eapply iappend_repr; [exact Hr2|by rewrite lookup_insert_eq|cbn [app]; lia| |].
  { cbn [app]. fold (cost d1). fold (cost []). unfold FSSIZE in *. lia. }
  rewrite insert_insert_eq. cbn [app]. fold (cost d1). fold (cost []). intros s3 own3 Hr3 Hf3 Hi3 Hm3. wsteps.
  eapply iappend_repr; [exact Hr3|by rewrite lookup_insert_eq|rewrite length_app; lia| |].
  { fold (cost d1). fold (cost (d1 ++ d2)). unfold FSSIZE in *. lia. }
  rewrite insert_insert_eq. fold (cost d1). fold (cost (d1 ++ d2)). intros s4 own4 Hr4 Hf4 Hi4 Hm4. wsteps.
  eapply (add_files_repr L s4 _ own4 2 (d1 ++ d2)); [exact Hr4|by rewrite lookup_insert_eq|done|lia|lia|unfold NINODES; lia|..];
    change ((d1 ++ d2) ++ dir_of 2 L) with (entries L); [lia|lia|].
  intros s5 A5 own5 [R1 R2 R3 R4 R5 R6]. change ((d1 ++ d2) ++ dir_of 2 L) with (entries L) in R2, R5. apply (Hm s5 A5 own5); [done|done|done|lia| |].
  - unfold blk. rewrite R6, Hm4, Hm3, Hm2 by lia. unfold s1. fields. by rewrite lookup_insert_eq.
  - intros b Hb Hne. unfold blk. rewrite R6, Hm4, Hm3, Hm2 by lia. unfold s1, FSSIZE in *. fields.
    by rewrite lookup_insert_ne, Hz0 by lia.
Qed.

(** The last steps: the size of the root directory and the bitmap. *)
Lemma mkfs_last s A own c Q : repr s A own -> A !! 1 = Some (T_DIR, c) -> (length c <= 3200)%nat ->
  (forall s', msb s' = the_sb ->
    inode_at s' 1 = set_size ((Z.of_nat (length c) / 1024 + 1) * 1024) (inode_at s 1) ->
    (forall i, 1 < i < NINODES -> inode_at s' i = inode_at s i) ->
    (forall b, 46 <= b \/ b < 32 -> img s' !! b = img s !! b) ->
    (forall b, 0 <= b < FSSIZE -> is_free (blk s') the_sb b = (freeblock s <=? b)) -> Q tt s') ->
  wp (let* din := rinode 1 in
      winode 1 (set_size (xint (u32 ((xint (di_size din) / BSIZE + 1) * BSIZE))) din) ;;;
      let* used := gets freeblock in
      balloc used) Q s.
Proof.
  intros [Hd Hin Hfiles] HA Hc HQ. destruct (Hfiles _ _ HA) as (T1 & T2 & T3 & T4 & T5 & T6). cbn [fst snd] in *.
  pose proof (k_free _ _ Hd) as Hfb. wsteps. eapply wp_rinode; [done|done|]. wsteps. rewrite T5, (xint_id (Z.of_nat _)) by lia.
  change BSIZE with 1024. set (R := (Z.of_nat (length c) / 1024 + 1) * 1024).
  assert (HR : 0 <= R < 2 ^ 32) by (unfold R; zdm). rewrite u32_id, xint_id by lia.
  eapply wp_winode; [done|done|eapply head_wf; [done|apply T6|done]|]. intros s1 Hd1 Hp. wsteps.
  rewrite (p_free _ _ _ _ Hp). unfold balloc, assert, FSSIZE in *. rewrite (proj2 (Z.ltb_lt _ _)) by (unfold BSIZE; lia).
  wsteps. rewrite (k_sb _ _ Hd1). apply wp_wsect; [cbn; unfold FSSIZE; lia|]. change (sb_bmapstart the_sb) with 45.
  destruct (bitmap_bits (freeblock s) ltac:(lia)) as [_ Hbits]. apply HQ; fields.
  - apply Hd1.
  - fold R. rewrite <- (p_this _ _ _ _ Hp). unfold inode_at, blk. fields. rewrite (k_sb _ _ Hd1). by rewrite lookup_insert_ne.
  - intros i Hi. rewrite <- (p_other _ _ _ _ Hp i) by lia. unfold inode_at, blk. fields. rewrite (k_sb _ _ Hd1).
    destruct (iblock_range i ltac:(lia)) as (E & Hb & _). by rewrite lookup_insert_ne by lia.
  - intros b Hb. rewrite lookup_insert_ne by lia. apply (p_data _ _ _ _ Hp). lia.
  - intros b Hb. unfold is_free, BBLOCK. change BPB with 8192. rewrite Z.div_small, Z.mod_small by lia.
    change (u32 (0 + sb_bmapstart the_sb)) with 45. unfold blk. fields. rewrite lookup_insert_eq. cbn [from_option id]. apply Hbits. lia.
Qed.

(** ** Properties *)

(** The contents of the inode [i]. *)
Definition content_at (L : list (list Z * list Z)) (i : Z) : list Z :=
  if i =? 1 then entries L else default [] (snd <$> L !! Z.to_nat (i - 2)).

(** An image with the files [L], as the kernel reads it. *)
Record image_ok (L : list (list Z * list Z)) (s : mkst) : Prop := {
  io_super : get_superblock (blk s 1) = the_sb;
  io_log : blk s 2 = zero_block;
  io_inode i : 1 <= i < 2 + Z.of_nat (length L) ->
    let di := inode_at s i in let len := Z.of_nat (length (content_at L i)) in
    di_type di = (if i =? 1 then T_DIR else T_FILE) /\ di_nlink di = 1 /\
    di_size di = (if i =? 1 then (len / BSIZE + 1) * BSIZE else len) /\
    forall j, file_bytes (blk s) (loaded di j) 0 len = content_at L i;
  io_pad off j : Z.of_nat (length (entries L)) <= off < Z.of_nat (nblk (length (entries L))) * BSIZE ->
    file_byte (blk s) (loaded (inode_at s 1) j) off = 0;
  io_hole : (length (entries L) mod 1024 = 0)%nat -> addr_at s (inode_at s 1) (length (entries L) / 1024) = 0;
  io_distinct i k i' k' : 1 <= i < 2 + Z.of_nat (length L) -> 1 <= i' < 2 + Z.of_nat (length L) ->
    (k < nblk (length (content_at L i)))%nat -> (k' < nblk (length (content_at L i')))%nat ->
    46 <= addr_at s (inode_at s i) k < used_blocks L /\
    (addr_at s (inode_at s i) k = addr_at s (inode_at s i') k' -> i = i' /\ k = k');
  io_free b : 0 <= b < FSSIZE -> is_free (blk s) the_sb b = (used_blocks L <=? b)
}.

Lemma content_lookup L (A : gmap Z (Z * list Z)) i : A !! 1 = Some (T_DIR, entries L) ->
  (forall k x, L !! k = Some x -> A !! (2 + Z.of_nat k) = Some (T_FILE, x.2)) -> 1 <= i < 2 + Z.of_nat (length L) ->
  A !! i = Some (if i =? 1 then T_DIR else T_FILE, content_at L i).
Proof.
  intros H1 H2 Hi. unfold content_at. destruct (Z.eqb_spec i 1) as [-> |Hne]; [done|].
  destruct (lookup_lt_is_Some_2 L (Z.to_nat (i - 2))) as [x Hx]; [lia|]. rewrite Hx. cbn.
  rewrite <- (H2 _ _ Hx). f_equal. lia.
Qed.

(** The files as they are after the last steps. *)
Lemma final_file s s' A own L i : repr s A own -> A !! 1 = Some (T_DIR, entries L) ->
  (forall k x, L !! k = Some x -> A !! (2 + Z.of_nat k) = Some (T_FILE, x.2)) -> 1 <= i < 2 + Z.of_nat (length L) ->
  inode_at s' 1 = set_size ((Z.of_nat (length (entries L)) / 1024 + 1) * 1024) (inode_at s 1) ->
  (forall i, 1 < i < NINODES -> inode_at s' i = inode_at s i) ->
  (forall b, 46 <= b \/ b < 32 -> img s' !! b = img s !! b) ->
  let di := inode_at s' i in let c := content_at L i in
  di_type di = (if i =? 1 then T_DIR else T_FILE) /\ di_nlink di = 1 /\
  di_size di = (if i =? 1 then (Z.of_nat (length c) / BSIZE + 1) * BSIZE else Z.of_nat (length c)) /\
  data_ok s' own i di c (nblk (length c)) (12 <? nblk (length c))%nat.
Proof.
  intros [Hd Hin Hfiles] H1 H2 Hi Hroot Hother Hdata di c.
  pose proof (content_lookup L A i H1 H2 Hi) as HA. fold c in HA. pose proof (proj2 Hin _ _ HA) as Hir.
  destruct (Hfiles _ _ HA) as (T1 & T2 & T3 & T4 & T5 & T6). cbn [fst snd] in *.
  assert (Hok : data_ok s' own i (inode_at s i) c (nblk (length c)) (12 <? nblk (length c))%nat).
  { eapply (data_ok_frame s s' own own); [done| |exact T6]. intros b o Hb. apply Hdata. left. apply (k_own _ _ Hd _ _ Hb). }
  unfold di. destruct (Z.eqb_spec i 1) as [E|Hne].
  - subst i. change BSIZE with 1024. rewrite Hroot. split_and!; [exact T1|exact T4|done|].
    eapply data_ok_addrs; [|exact Hok]. done.
  - rewrite Hother by lia. split_and!; done.
Qed.

(** C11: mkfs makes the file system it should: for files that fit, the program ends without
    an error, and the kernel's view of the image is: the right super block, an empty
    log, for every file an inode with the contents of the file, a root directory with
    the entries of all files followed by zeros, no block used twice, and a bitmap
    that marks exactly the blocks in use.  When the entries fill their blocks, the size
    of the directory includes one more block, which has no address.  The files fit if there are at most 198,
    each has at most [MAXFILE] blocks and a name without a slash, and their blocks and those
    of the directory are not more than the disk has. *)
Theorem mkfs_image (L : list (list Z * list Z)) : Forall fits L -> 2 + Z.of_nat (length L) <= NINODES ->
  used_blocks L <= FSSIZE -> exists s, mkfs (given L) mkfs_start = Ok tt s /\ image_ok L s.
Proof.
  intros HL Hn Hroom. apply wp_run_unit. unfold mkfs.
  apply (mkfs_files_repr L (fun rootino => let* din := rinode rootino in
    winode rootino (set_size (xint (u32 ((xint (di_size din) / BSIZE + 1) * BSIZE))) din) ;;;
    let* used := gets freeblock in balloc used) _ HL Hn Hroom). cbv beta.
  intros s A own Hr HA Hfiles Hfree Hsup Hzero. unfold NINODES in Hn. pose proof (length_entries L) as Hle.
  eapply mkfs_last; [exact Hr|exact HA|lia|]. intros s' Hsb Hroot Hother Hdata Hbits.
  pose proof (fun i Hi => final_file s s' A own L i Hr HA Hfiles Hi Hroot Hother Hdata) as Hfinal.
  pose proof (r_disk _ _ _ Hr) as Hd. rewrite Hfree in Hbits. constructor.
  - unfold blk in *. rewrite Hdata by lia. rewrite Hsup. apply super_block_ok.
  - unfold blk in *. rewrite Hdata by lia. by apply Hzero.
  - intros i Hi di len. destruct (Hfinal i Hi) as (F1 & F2 & F3 & F4). split_and!; [done|done|done|].
    intros j. eapply data_ok_bytes; [exact F4|apply nblk_enough].
  - intros off j Hoff. destruct (Hfinal 1 ltac:(lia)) as (_ & _ & _ & F4). change (content_at L 1) with (entries L) in F4.
    rewrite (data_ok_byte s' own 1 _ _ _ _ j off F4) by (change BSIZE with 1024 in Hoff; lia).
    by rewrite lookup_ge_None_2 by lia.
  - intros Hz. destruct (Hfinal 1 ltac:(lia)) as (_ & _ & _ & F4). change (content_at L 1) with (entries L) in F4.
    pose proof (Nat.div_mod_eq (length (entries L)) 1024) as Hdm. unfold addr_at.
    rewrite (proj2 (Nat.ltb_lt _ _)) by lia. apply (d_free _ _ _ _ _ _ _ F4). split; [|lia].
    apply Nat.lt_succ_r. unfold nblk. apply Nat.Div0.div_lt_upper_bound. lia.
  - intros i k i' k' Hi Hi' Hk Hk'. destruct (Hfinal i Hi) as (_ & _ & _ & F). destruct (Hfinal i' Hi') as (_ & _ & _ & F').
    destruct (d_used _ _ _ _ _ _ _ F k Hk) as [Ho _]. destruct (d_used _ _ _ _ _ _ _ F' k' Hk') as [Ho' _].
    split; [rewrite <- Hfree; apply (k_own _ _ Hd _ _ Ho)|]. intros E. rewrite E in Ho. rewrite Ho in Ho'. by simplify_eq.
  - exact Hbits.
Qed.

(** A file of 20 blocks, with an indirect block, and a small one. *)
Definition ex_source : list (list Z * list Z) :=
  [(str_bytes "user/_cat", replicate (Z.to_nat 20480) 7); (str_bytes "README", str_bytes "xv6")].

Lemma mkfs_image_witness : exists s, mkfs (given ex_source) mkfs_start = Ok tt s /\ image_ok ex_source s.
Proof.
  apply (mkfs_image ex_source).
  - apply Forall_cons_2; [|apply Forall_cons_2; [|apply Forall_nil_2]].
    + split; [exists (str_bytes "cat"); vm_compute; reflexivity|]. cbn [snd]. rewrite length_replicate. lia.
    + split; [exists (str_bytes "README"); vm_compute; reflexivity|]. change (3 <= 268 * 1024)%nat. lia.
  - cbn. unfold NINODES. lia.
  - apply Z.leb_le. vm_compute. reflexivity.
Defined.
