(* ===== verification/Grind.v ===== *)
(** * user/grind.c: the random numbers

    [do_rand] is the generator of Park and Miller, x := 7^5 x mod (2^31 - 1), computed
    without a product that exceeds 31 bits.  A [long] has 64 bits and [/] and [%]
    truncate. *)

From stdpp Require Import list.
From Stdlib Require Import ZArith Lia.
From S2P Require Import Prelude.
Open Scope Z_scope.

(** The result, and the new value of [*ctx]. *)
(* @user/grind.c do_rand *)
Definition do_rand (ctx : Z) : Z * Z :=
  let x := ctx mod 0x7ffffffe + 1 in
  let hi := i64 (Z.quot x 127773) in
  let lo := i64 (Z.rem x 127773) in
  let x := i64 (i64 (16807 * lo) - i64 (2836 * hi)) in
  let x := if x <? 0 then i64 (x + 0x7fffffff) else x in
  let x := i64 (x - 1) in
  (i32 x, u64 x).

(** [rand_next] starts at 1. *)
(* @user/grind.c rand *)
Definition rand (rand_next : Z) : Z * Z := do_rand rand_next.

(** The generator as it is meant. *)
Definition park_miller (x : Z) : Z := 7 ^ 5 * x mod (2 ^ 31 - 1).

Lemma i64_id x : - 2 ^ 63 <= x < 2 ^ 63 -> i64 x = x.
Proof. intros Hx. unfold i64. rewrite Z.mod_small by lia. lia. Qed.

(** Multiplication by 7^5 modulo the prime is invertible, so 0 does not occur. *)
Lemma park_miller_range x : 1 <= x < 2 ^ 31 - 1 -> 1 <= park_miller x < 2 ^ 31 - 1.
Proof.
  intros Hx. unfold park_miller. pose proof (Z.mod_pos_bound (7 ^ 5 * x) (2 ^ 31 - 1) ltac:(lia)).
  assert (7 ^ 5 * x mod (2 ^ 31 - 1) <> 0); [|lia]. intros E. apply Z.mod_divide in E; [|lia].
  apply Z.gauss in E; [apply Z.divide_pos_le in E; lia|reflexivity].
Qed.

(** Schrage's method: the quotient and the remainder by 127773 give the product. *)
Lemma schrage x : 1 <= x < 2 ^ 31 - 1 ->
  let y := 16807 * (x mod 127773) - 2836 * (x / 127773) in
  - (2 ^ 31 - 1) < y < 2 ^ 31 - 1 /\ park_miller x = if y <? 0 then y + (2 ^ 31 - 1) else y.
Proof.
  intros Hx y. pose proof (Z.div_mod x 127773 ltac:(lia)) as E. pose proof (Z.mod_pos_bound x 127773 ltac:(lia)) as Hm.
  set (q := x / 127773) in *. set (r := x mod 127773) in *. assert (Hq : 0 <= q <= 16807) by lia.
  assert (Hy : - (2 ^ 31 - 1) < y < 2 ^ 31 - 1) by (unfold y; lia). split; [exact Hy|]. unfold park_miller. symmetry.
  destruct (Z.ltb_spec y 0); apply (Z.mod_unique_pos _ _ (if y <? 0 then q - 1 else q));
    destruct (Z.ltb_spec y 0); unfold y in *; lia.
Qed.


