(* ===== verification/Forktest.v ===== *)
(** * user/forktest.c, user/stressfs.c

    [forktest] makes children until [fork] fails, and then waits for exactly as many.
    On the system of [Unix], where the calls of parent and children interleave in any
    order and [fork] may fail at any time, it never finds [wait] wrong. *)

From stdpp Require Import gmap list strings.
From Stdlib Require Import ZArith Lia.
From S2P Require Import Prelude Machine Console Ulib Unix.
Open Scope Z_scope.
Open Scope prog_scope.

(* @user/forktest.c print *)
Definition print (s : string) : prog unit := sys (Sys_write 1 (str_bytes s)) >> Ret tt.

(* @user/forktest.c N *)
Definition N : nat := 1000.

(** The loop of the forks, from [n] on, with [k] rounds left. *)
(* @user/forktest.c:23-29 fork *)
Fixpoint forks (k : nat) (n : nat) : prog nat :=
  match k with
  | O => Ret n
  | S k =>
    do pid <- sys Sys_fork ;;
    if pid <? 0 then Ret n
    else if pid =? 0 then Exit 0
    else forks k (S n)
  end.

(* @user/forktest.c:36-41 wait *)
Fixpoint waits (n : nat) : prog unit :=
  match n with
  | O => Ret tt
  | S n =>
    do r <- sys Sys_wait ;;
    if r <? 0 then print (endl "wait stopped early") >> Exit 1 else waits n
  end.

(* @user/forktest.c forktest *)
Definition forktest : prog unit :=
  print (endl "fork test") >>
  do n <- forks N 0 ;;
  (if (n =? N)%nat then print (endl "fork claimed to work N times!") >> Exit 1 else Ret tt) >>
  waits n >>
  do r <- sys Sys_wait ;;
  (if negb (r =? -1) then print (endl "wait got too many") >> Exit 1 else Ret tt) >>
  print (endl "fork test OK").

(* @user/forktest.c main *)
Definition forktest_main : prog unit := forktest >> Exit 0.

(** [data] is 512 bytes of 'a'. *)
(* @user/stressfs.c main *)
Definition stressfs_main : prog unit :=
  let data := replicate 512 97 in
  printf (endl "stressfs starting") [] >>
  do i <- each (seq 0 4) (fun i => do pid <- sys Sys_fork ;; Ret (if 0 <? pid then Some i else None)) ;;
  let i := default 4%nat i in
  printf (endl "write %d") [AInt (Z.of_nat i)] >>
  let path := str_bytes "stressfs" ++ [48 + Z.of_nat i] in
  do fd <- sys (Sys_open path 0x202) ;;
  all (seq 0 20) (fun _ => sys (Sys_write fd data) >> Ret tt) >>
  sys (Sys_close fd) >>
  printf (endl "read") [] >>
  do fd <- sys (Sys_open path 0) ;;
  all (seq 0 20) (fun _ => sys (Sys_read fd 512) >> Ret tt) >>
  sys (Sys_close fd) >>
  sys Sys_wait >>
  Exit 0.

(** ** What forktest can print *)

Definition t_start : bytes := str_bytes (endl "fork test").
Definition t_ok : bytes := str_bytes (endl "fork test OK").
Definition t_claim : bytes := str_bytes (endl "fork claimed to work N times!").

(** The programs between the calls. *)
Definition p_finish : prog unit :=
  do r <- sys Sys_wait ;;
  (if negb (r =? -1) then print (endl "wait got too many") >> Exit 1 else Ret tt) >>
  print (endl "fork test OK").
Definition p_forks (k n : nat) : prog unit :=
  (do n <- forks k n ;;
   (if (n =? N)%nat then print (endl "fork claimed to work N times!") >> Exit 1 else Ret tt) >>
   waits n >> p_finish) >> Exit 0.
Definition p_waits (n : nat) : prog unit := (waits n >> p_finish) >> Exit 0.
Definition p_ok : prog unit := print (endl "fork test OK") >> Exit 0.

Lemma start_next : exists K, forktest_main = Sys (Sys_write 1 t_start) K /\ forall r, K r = p_forks N 0.
Proof. eexists. split; reflexivity. Qed.

Lemma forks_next k n : exists K, p_forks (S k) n = Sys Sys_fork K /\
  forall r, K r = if r <? 0 then p_forks 0 n else if r =? 0 then Exit 0 else p_forks k (S n).
Proof.
  exists (fun r => prog_bind (prog_bind (if r <? 0 then Ret n else if r =? 0 then Exit 0 else forks k (S n))
    (fun n => (if (n =? N)%nat then print (endl "fork claimed to work N times!") >> Exit 1 else Ret tt) >>
       waits n >> p_finish)) (fun _ => Exit 0)).
  split; [reflexivity|]. intros r. destruct (r <? 0); [reflexivity|]. destruct (r =? 0); reflexivity.
Qed.

Lemma forks_failed n : (n < N)%nat -> p_forks 0 n = p_waits n.
Proof. intros Hn. unfold p_forks. cbn [forks prog_bind]. by rewrite (proj2 (Nat.eqb_neq n N)) by lia. Qed.

Lemma forks_all : exists K, p_forks 0 N = Sys (Sys_write 1 t_claim) K /\ forall r, K r = Exit 1.
Proof. eexists. split; reflexivity. Qed.

Lemma waits_next n : exists K, p_waits (S n) = Sys Sys_wait K /\ forall r, (r <? 0) = false -> K r = p_waits n.
Proof.
  exists (fun r => prog_bind (prog_bind (if r <? 0 then print (endl "wait stopped early") >> Exit 1 else waits n)
    (fun _ => p_finish)) (fun _ => Exit 0)).
  split; [reflexivity|]. intros r ->. reflexivity.
Qed.

Lemma waits_end : exists K, p_waits 0 = Sys Sys_wait K /\ K (-1) = p_ok.
Proof. eexists. split; reflexivity. Qed.

Lemma ok_next : exists K, p_ok = Sys (Sys_write 1 t_ok) K /\ forall r, K r = Exit 0.
Proof. eexists. split; reflexivity. Qed.

(** ** The invariant *)

Definition said (b : bytes) : event := E_write [] F_console b.

(** Where the parent is: its program, the children it has not waited for, what has
    been written (newest first). *)
Inductive stage : prog unit -> nat -> list event -> Prop :=
| S_start : stage forktest_main 0 []
| S_forks k n : (k + n = N)%nat -> stage (p_forks k n) n [said t_start]
| S_waits n : (n < N)%nat -> stage (p_waits n) n [said t_start]
| S_ok : stage p_ok 0 [said t_start]
| S_done : stage (Exit 0) 0 [said t_ok; said t_start]
| S_claim : stage (Exit 1) N [said t_claim; said t_start].

(** The children are about to exit, or have exited. *)
Record family (s : conf) (p : pst) (cs : list (name * pst)) (c : nat) : Prop := {
  fm_pool : pool s = ([], p) :: cs;
  fm_kids : Forall (fun q => prg q.2 = Exit 0) cs;
  fm_names : Forall (fun w => exists i, w = [i] /\ (i < nfork p)%nat) (cs.*1 ++ zombies s);
  fm_nodup : NoDup (cs.*1 ++ zombies s);
  fm_count : (length cs + length (zombies s))%nat = c;
  fm_out : get_fd (tab p) 1 = Some F_console
}.

Definition inv (s : conf) : Prop :=
  (exists p cs c, family s p cs c /\ stage (prg p) c (events s)) \/
  (Forall (fun q => prg q.2 = Exit 0) (pool s) /\
   (events s = [said t_ok; said t_start] /\ pool s = [] /\ zombies s = [[]] \/ events s = [said t_claim; said t_start])).

Section Forktest.
Context `{System}.
Hypothesis pid_pos : forall w, 0 < pid_of w.

Lemma is_child_top i : is_child [] [i] = true.
Proof. reflexivity. Qed.

(** A child exits. *)
Lemma kid_exits s p cs c j f s' : family s p cs c -> step f (S j) s = Some s' ->
  exists cs', family s' p cs' c /\ events s' = events s.
Proof.
  intros [Hp Hk Hn Hd Hc Ho] Hs. unfold step in Hs. rewrite Hp in Hs. cbn [lookup list_lookup] in Hs.
  destruct (cs !! j) as [[w q]|] eqn:Ej; [|done].
  pose proof (proj1 (Forall_forall _ _) Hk _ (list_elem_of_lookup_2 _ _ _ Ej)) as Hq. cbn in Hq. rewrite Hq in Hs.
  destruct f; [done|]. injection Hs as <-. exists (delete j cs). split; [|done].
  assert (Hpm : cs.*1 ++ zombies s ≡ₚ (delete j cs).*1 ++ w :: zombies s).
  { rewrite (delete_Permutation _ _ _ Ej) at 1. cbn [fmap list_fmap fst app]. by rewrite Permutation_middle. }
  split; fields.
  - done.
  - by apply Forall_delete.
  - by rewrite <- Hpm.
  - by rewrite <- Hpm.
  - rewrite length_delete by (by eexists). apply lookup_lt_Some in Ej. cbn [length]. lia.
  - done.
Qed.

(** The parent writes. *)
Lemma parent_writes s p cs c b K f s' : family s p cs c -> prg p = Sys (Sys_write 1 b) K -> step f 0 s = Some s' ->
  exists p' r, family s' p' cs c /\ prg p' = K r /\ events s' = said b :: events s.
Proof.
  intros [Hp Hk Hn Hd Hc Ho] Hprg Hs. unfold step in Hs. rewrite Hp in Hs. cbn [lookup list_lookup] in Hs.
  rewrite Hprg in Hs. destruct f; [done|]. rewrite Ho in Hs. cbn [do_write] in Hs. injection Hs as <-.
  exists (set_prg (K (Z.of_nat (length b))) p), (Z.of_nat (length b)). split; [|split; [done|by fields]].
  split; try done. unfold record. fields. by rewrite Hp.
Qed.

(** The parent forks: it has one more child, or [fork] has failed. *)
Lemma parent_forks s p cs c K f s' : family s p cs c -> prg p = Sys Sys_fork K -> K 0 = Exit 0 -> step f 0 s = Some s' ->
  events s' = events s /\
  ((exists p', family s' p' cs c /\ prg p' = K (-1)) \/
   (exists p' cs' r, 0 < r /\ family s' p' cs' (S c) /\ prg p' = K r)).
Proof.
  intros [Hp Hk Hn Hd Hc Ho] Hprg H0 Hs. unfold step in Hs. rewrite Hp in Hs. cbn [lookup list_lookup] in Hs.
  rewrite Hprg in Hs. destruct f; injection Hs as <-.
  - split; [done|]. left. exists (set_prg (K (-1)) p). split; [|done]. split; done.
  - split; [done|]. right. set (w := [nfork p]).
    exists (set_nfork (S (nfork p)) (set_prg (K (pid_of w)) p)), (cs ++ [(w, mk_pst (K 0) (tab p) 0 0)]), (pid_of w).
    split; [apply pid_pos|]. split; [|done].
    assert (Hpm : (cs ++ [(w, mk_pst (K 0) (tab p) 0 0)]).*1 ++ zombies s ≡ₚ w :: cs.*1 ++ zombies s).
    { rewrite fmap_app. cbn [fmap list_fmap fst]. rewrite <- app_assoc. cbn [app]. by rewrite Permutation_middle. }
    split; fields; try done.
    + apply Forall_app. split; [done|]. by apply Forall_singleton.
    + rewrite Hpm. apply Forall_cons. split; [exists (nfork p); split; [done|lia]|].
      eapply Forall_impl; [exact Hn|]. intros v (i & -> & Hi). exists i. split; [done|lia].
    + rewrite Hpm. apply NoDup_cons. split; [|done]. intros Hin.
      destruct (proj1 (Forall_forall _ _) Hn _ Hin) as (i & [= E] & Hi). lia.
    + rewrite length_app. simpl. lia.
Qed.

(** The parent waits: it gets a child that has exited, or there are none left. *)
Lemma parent_waits s p cs c K f s' : family s p cs c -> prg p = Sys Sys_wait K -> step f 0 s = Some s' ->
  events s' = events s /\
  ((exists c' p' r, c = S c' /\ 0 < r /\ family s' p' cs c' /\ prg p' = K r) \/
   (c = 0%nat /\ exists p', family s' p' cs c /\ prg p' = K (-1))).
Proof.
  intros [Hp Hk Hn Hd Hc Ho] Hprg Hs. unfold step in Hs. rewrite Hp in Hs. cbn [lookup list_lookup] in Hs.
  rewrite Hprg in Hs. destruct f; [done|].
  assert (Hch : Forall (fun w => is_child [] w = true) (cs.*1 ++ zombies s)).
  { eapply Forall_impl; [exact Hn|]. by intros w (i & -> & _). }
  apply Forall_app in Hch as [Hch1 Hch2]. apply Forall_app in Hn as [Hn1 Hn2].
  destruct (zombies s) as [|z zs] eqn:Ez.
  - cbn [List.find] in Hs. destruct cs as [|q cs].
    + cbn [existsb] in Hs. cbn [is_child fst] in Hs. injection Hs as <-. split; [done|]. right. split; [by rewrite <- Hc|].
      exists (set_prg (K (-1)) p). split; [|done]. split; fields; rewrite ?Ez; done.
    + exfalso. cbn [existsb] in Hs. apply Forall_inv in Hch1. cbn [fmap list_fmap] in Hch1.
      rewrite Hch1, orb_true_r in Hs. done.
  - apply Forall_cons in Hch2 as [Hz Hch2]. cbn [List.find] in Hs. rewrite Hz in Hs. injection Hs as <-. split; [done|]. left.
    assert (Hrm : List.remove (decide_rel eq) z (z :: zs) = zs).
    { cbn [List.remove]. destruct (decide_rel eq z z); [|done]. apply notin_remove.
      apply NoDup_app in Hd as (_ & _ & [Hnz _]%NoDup_cons). by rewrite <- list_elem_of_In. }
    exists (length cs + length zs)%nat, (set_prg (K (pid_of z)) p), (pid_of z).
    split; [simpl in Hc; lia|]. split; [apply pid_pos|]. split; [|done].
    cbn [List.remove] in Hrm. rewrite Hrm. split; fields; try (by rewrite ?Hp); try done.
    + apply Forall_app. split; [done|]. by apply Forall_cons in Hn2 as [_ ?].
    + apply NoDup_app in Hd as (Hd1 & Hd2 & [_ Hd3]%NoDup_cons). apply NoDup_app. split; [done|]. split; [|done].
      intros w Hw. specialize (Hd2 w Hw). by apply not_elem_of_cons in Hd2 as [_ ?].
Qed.

Lemma parent_steps s p cs c f s' : family s p cs c -> stage (prg p) c (events s) -> step f 0 s = Some s' -> inv s'.
Proof.
  intros Hf Hst Hs. remember (prg p) as g eqn:Eg. remember (events s) as ev eqn:Ee.
  destruct Hst as [|k n Hn|n Hn| | |]; symmetry in Eg; symmetry in Ee.
  - destruct start_next as (K & E & HK). rewrite E in Eg.
    destruct (parent_writes _ _ _ _ _ _ _ _ Hf Eg Hs) as (p' & r & Hf' & Hp & He). left. exists p', cs, 0%nat.
    split; [done|]. rewrite Hp, HK, He, Ee. by apply S_forks.
  - destruct k as [|k].
    + assert (n = N) as -> by lia. destruct forks_all as (K & E & HK). rewrite E in Eg.
      destruct (parent_writes _ _ _ _ _ _ _ _ Hf Eg Hs) as (p' & r & Hf' & Hp & He). left. exists p', cs, N.
      split; [done|]. rewrite Hp, HK, He, Ee. apply S_claim.
    + destruct (forks_next k n) as (K & E & HK). rewrite E in Eg.
      destruct (parent_forks _ _ _ _ _ _ _ Hf Eg (HK 0) Hs) as (He & [(p' & Hf' & Hp)|(p' & cs' & r & Hr & Hf' & Hp)]); left.
      * exists p', cs, n. split; [done|]. rewrite Hp, HK, He, Ee. cbn [Z.ltb Z.compare]. rewrite forks_failed by lia. apply S_waits. lia.
      * exists p', cs', (S n). split; [done|]. rewrite Hp, HK, He, Ee, (proj2 (Z.ltb_ge r 0)), (proj2 (Z.eqb_neq r 0)) by lia.
        apply S_forks. lia.
  - destruct n as [|n].
    + destruct waits_end as (K & E & HK). rewrite E in Eg.
      destruct (parent_waits _ _ _ _ _ _ _ Hf Eg Hs) as (He & [(c' & _ & _ & [=] & _)|(_ & p' & Hf' & Hp)]).
      left. exists p', cs, 0%nat. split; [done|]. rewrite Hp, HK, He, Ee. apply S_ok.
    + destruct (waits_next n) as (K & E & HK). rewrite E in Eg.
      destruct (parent_waits _ _ _ _ _ _ _ Hf Eg Hs) as (He & [(c' & p' & r & [= <-] & Hr & Hf' & Hp)|([=] & _)]).
      left. exists p', cs, n. split; [done|]. rewrite Hp, HK, He, Ee by (apply Z.ltb_ge; lia). apply S_waits. lia.
  - destruct ok_next as (K & E & HK). rewrite E in Eg.
    destruct (parent_writes _ _ _ _ _ _ _ _ Hf Eg Hs) as (p' & r & Hf' & Hp & He). left. exists p', cs, 0%nat.
    split; [done|]. rewrite Hp, HK, He, Ee. apply S_done.
  - destruct Hf as [Hp Hk _ _ Hc _]. unfold step in Hs. rewrite Hp in Hs. cbn [lookup list_lookup] in Hs. rewrite Eg in Hs.
    destruct f; [done|]. injection Hs as <-. right. fields. split; [done|]. left. split; [done|].
    destruct cs, (zombies s); simpl in Hc; (lia || done).
  - destruct Hf as [Hp Hk _ _ _ _]. unfold step in Hs. rewrite Hp in Hs. cbn [lookup list_lookup] in Hs. rewrite Eg in Hs.
    destruct f; [done|]. injection Hs as <-. right. fields. split; [done|]. by right.
Qed.

Lemma stage_step f i s s' : inv s -> step f i s = Some s' -> inv s'.
Proof.
  intros [(p & cs & c & Hf & Hst)|(Hk & Hev)] Hs.
  - destruct i as [|j]; [by eapply parent_steps|].
    destruct (kid_exits _ _ _ _ _ _ _ Hf Hs) as (cs' & Hf' & He). left. exists p, cs', c. by rewrite He.
  - right. unfold step in Hs. destruct (pool s !! i) as [[w q]|] eqn:Ei; [|done].
    pose proof (proj1 (Forall_forall _ _) Hk _ (list_elem_of_lookup_2 _ _ _ Ei)) as Hq. cbn in Hq. rewrite Hq in Hs.
    destruct f; [done|]. injection Hs as <-. fields. split; [by apply Forall_delete|].
    destruct Hev as [(He & Hp & _)|He]; [|by right]. by rewrite Hp in Ei.
Qed.

Lemma stage_run sched s s' : inv s -> run sched s = Some s' -> inv s'.
Proof.
  revert s. induction sched as [|[f i] sched IH]; intros s Hi Hr; cbn [run] in Hr; [by injection Hr as <-|].
  destruct (step f i s) as [s1|] eqn:E; [|done]. eapply IH; [|exact Hr]. by eapply stage_step.
Qed.

(** C32: [forktest] is right about [fork] and [wait], whatever the scheduler does and
    whenever [fork] begins to fail: at any time it has written nothing, its first line,
    that line and "fork test OK", or that line and the complaint that all 1000 forks
    succeeded; never that [wait] stopped early or got too many.  Once it says OK, every
    child has exited and been waited for. *)
Theorem forktest_ok (t : fdtab) (fs : gmap bytes bytes) (inp : bytes) (sched : list (bool * nat)) (s : conf) :
  get_fd t 1 = Some F_console -> run sched (start forktest_main t fs inp) = Some s ->
  events s ∈ [[]; [said t_start]; [said t_ok; said t_start]; [said t_claim; said t_start]] /\
  (events s = [said t_ok; said t_start] -> (length (pool s) <= 1)%nat /\ forall w, w ∈ zombies s -> w = []).
Proof.
  intros Ht Hr.
  assert (Hi : inv s).
  { eapply stage_run; [|exact Hr]. left. exists (mk_pst forktest_main t 0 0), [], 0%nat. split; [|apply S_start].
    split; try done. apply NoDup_nil_2. }
  destruct Hi as [(p & cs & c & [Hp _ _ _ Hc _] & Hst)|(_ & [(He & Hp & Hz)|He])].
  - remember (events s) as ev eqn:Ee. split; [destruct Hst; set_solver|]. intros ->.
    assert (c = 0%nat) as -> by (by inversion Hst). rewrite Hp. destruct cs, (zombies s); simpl in Hc; try lia.
    split; [simpl; lia|]. intros w Hw. by apply not_elem_of_nil in Hw.
  - rewrite He, Hp, Hz. split; [set_solver|]. intros _. split; [simpl; lia|]. by intros w ->%list_elem_of_singleton.
  - rewrite He. split; [set_solver|]. intros E. discriminate E.
Qed.
End Forktest.

(** Two children, then no more. *)
Definition ft_system : System := {| image := fun _ _ => None; pid_of := fun w => Z.of_nat (S (length w)); answer := fun _ => 0;
  stat_of := fun _ => mk_ustat 0 0 0 |}.
Definition ft_sched : list (bool * nat) :=
  [(false, 0); (false, 0); (false, 0); (false, 2); (true, 0); (false, 0); (false, 1); (false, 0); (false, 0); (false, 0)]%nat.

Lemma forktest_ok_witness : exists s,
  run (H := ft_system) ft_sched (start forktest_main (replicate 3 (Some F_console)) ∅ []) = Some s /\
  events s = [said t_ok; said t_start] /\ (length (pool s) <= 1)%nat.
Proof.
  destruct (run (H := ft_system) ft_sched (start forktest_main (replicate 3 (Some F_console)) ∅ [])) as [s|] eqn:E;
    [|vm_compute in E; discriminate E].
  assert (He : events s = [said t_ok; said t_start]) by (vm_compute in E; injection E as <-; vm_compute; reflexivity).
  exists s. split; [reflexivity|]. split; [exact He|].
  apply (forktest_ok (H := ft_system) ltac:(intros w; cbn; lia) (replicate 3 (Some F_console)) ∅ [] ft_sched s eq_refl E), He.
Defined.
